(* ===== verification/_CoqProject ===== *)
-Q . S2P
Prelude.v
JsVal.v
DraftSession.v
SegmentDsl.v
Graph.v
BranchCondition.v
JourneyModel.v
JourneyProps.v
JourneyGraph.v
GraphSound.v
GraphEdits.v
GraphRun.v
GraphTiming.v
GraphRead.v
InAppDb.v
InAppCampaigns.v
InAppDelivery.v
InAppInv.v
InAppProps.v
Workbench.v
WorkbenchProps.v
InAppScope.v
JsNumber.v
Crypto.v
Json.v
JsonParse.v
DatabaseSetup.v
Preview.v
Schema.v
BundleFiles.v
TemplateZip.v
Bundle.v
BundleProps.v
Authz.v
AuthDb.v
JourneyContract.v
ContractProps.v
JourneyDb.v
SegmentsApi.v
JourneyApi.v
JourneyMachine.v
JourneyApiProps.v
JourneyRun.v
Reports.v
ReportsProps.v
AuthServices.v
Team.v
Bootstrap.v
ChannelDb.v
Credentials.v
ResendWebhook.v
Alimtalk.v
EmailTemplates.v
DataApi.v
WebhookProps.v
AlimtalkProps.v
MessageEditor.v
ConnectorForm.v
TestPush.v
AuthInv.v
AuthProps.v
AuthFactor.v
AuthLife.v
AuthEnrol.v
AuthRun.v
Config.v
RateLimit.v
IngestSchemas.v
EventReceipts.v
ReceiptsInv.v
ReceiptsProps.v
ReceiptsMerge.v
Shutdown.v
Readiness.v
DrainApp.v
Ingestion.v
IngestProps.v
ValidationPool.v
InAppHttp.v
InAppHttpProps.v
