(* ===== verification/Prelude.v ===== *)
(** * NudgeOn platform: verification library (root file)

    NudgeOn is a self-hosted customer engagement platform: an HTTP API
    ([src/apps/api], NestJS on PostgreSQL, ClickHouse and Redis), a console
    ([src/apps/console]), a Go worker ([src/apps/worker]) and shared packages
    ([src/packages]).  This library models the TypeScript of the API and of the
    shared packages, what decides in the console's journey editor, message
    editor, template import and connector form, and the first-run setup of the
    database ([deploy/setup-status]), and proves what the parts promise.  Each
    source function is a definition of the same name (where Rocq allows it); the
    comment of each file names its sources.

    ** How the code is written down

    - A handler is a computation of the state monad [M S] below: it reads and
      changes a store and ends with a value or an exception ([outcome], [exn]);
      an exception keeps the changes made before it, and [transaction] is
      BEGIN ... COMMIT with ROLLBACK on an exception.  The store of a part is
      a record of tables; a table is the list of its rows, a unique index is
      a check on insertion, [select1]/[update_where]/[delete_where] are the
      statements.
    - A request runs to completion on the store, except where the code itself
      says what others may do meanwhile: [EventReceipts] (transactions that
      wait for locks), [Workbench.start] (the commits of other sessions),
      [AlimtalkProps.two_defaults] (two requests in parallel),
      [DatabaseSetup] (one file operation at a time), [ValidationPool] and
      [DraftSession] (what comes back when), [DrainApp] (timed events).
      "Whatever happens in between" is a quantification over request histories.
    - What the platform gives a request (clocks, random values, its address,
      the feature switches) is a record [Env] of each part.
    - JavaScript values, numbers and strings are those of [JsVal]; a request
      body is a [jsval], and a Zod schema is a parser of it ([Json],
      [Schema]).  Integers are [Z]; where the code checks a range
      (safe integers, 32-bit settings, bytes, offsets in an archive) the
      definitions check it too.
    - Third-party code is a parameter with its documented laws: the formats of
      Zod ([Zod], [ZodUrl]), ciphers and hashes ([Crypto]/[CryptoLaws],
      [Hmac256], [PreviewKey], [DigestLaw]), case mapping and time zones
      ([Host]), collation, the query results of ClickHouse and its functions on
      sketches, dates and JSON ([Reports]), the inflaters, HTML and CSS parsers
      ([Web], [Zip]/[ZipLaws], [Html]/[HtmlLaws]), the URL parser
      ([UrlParser]/[UrlLaws]).  Every theorem with such a parameter is
      applied to a concrete instance by its witness.

    ** Parts

    Shared: [Prelude] (monad, tables, list lemmas, tactics, the hint database
    [nudgeon]), [JsVal], [JsNumber], [Json], [JsonParse], [Schema], [Crypto].

    Segments and journeys: [SegmentDsl] (packages/segment-dsl: the compiler
    from the segment DSL to ClickHouse SQL), [Graph] (Kahn's loop and the
    reachability walk, both with fuel), [BranchCondition], [JourneyModel]
    (packages/journey-model: the validator that gates saving and publishing),
    [JourneyProps]; [JourneyContract], [ContractProps] (journeys/journey-contract.ts);
    [JourneyDb], [JourneyApi], [SegmentsApi] (the controllers) with
    [JourneyMachine] (the abstract machine they refine), [JourneyApiProps] and
    [JourneyRun] (a run); the console's graph editor in [JourneyGraph],
    [GraphSound], [GraphEdits], [GraphRun], [GraphTiming], [GraphRead];
    its draft session in [DraftSession], its message forms, starter journeys and
    checks in [MessageEditor].

    In-app messages: [InAppDb], [InAppCampaigns], [InAppDelivery], [InAppInv],
    [InAppProps] (campaigns and deliveries), [Workbench], [WorkbenchProps]
    (revisions, devices, test runs), [BundleFiles], [Bundle], [BundleProps]
    (validation of uploaded bundles) in the worker threads of [ValidationPool],
    [Preview] (the signed links of the content server), [InAppHttp] (the controllers), with [InAppScope]
    (what an operation leaves alone) and [InAppHttpProps].

    Accounts: [Authz], [AuthDb], [AuthServices], [Team], [Bootstrap], with
    [AuthInv], [AuthProps], [AuthFactor], [AuthLife], [AuthEnrol] and the run
    [AuthRun].

    Channels: [ChannelDb], [Credentials], [ResendWebhook], [Alimtalk],
    [EmailTemplates], [TestPush], [DataApi], with [WebhookProps] and
    [AlimtalkProps]; the console's form for a connector in [ConnectorForm], its
    import of e-mail templates in [TemplateZip].

    Read views: [Reports] (analytics, message log, users, audit log), [ReportsProps].

    The edge of the process: [DatabaseSetup] (the page before the first start),
    [Config], [Readiness] (the probes), [RateLimit], [Shutdown] (admission of
    requests), [DrainApp] (from the signal to the exit), [IngestSchemas], [EventReceipts], [ReceiptsInv],
    [ReceiptsProps], [ReceiptsMerge], [Ingestion], [IngestProps].

    ** How the parts call each other

    The session guard and the permission guard of [AuthServices] and [Authz]
    stand before the console's handlers; the API key guard and the rate limit
    before those of ingestion ([Ingestion] composes admission gate, key, limit
    and handler).  [Credentials] and the second factor seal with
    [Crypto.encryptEnvelope], and [ResendWebhook] opens what [Credentials]
    stored.  [JourneyApi] parses with [JourneyContract], validates with
    [JourneyModel] and compiles audiences with [SegmentDsl] through
    [SegmentsApi]; the editor's results are judged by the same validator.
    [Workbench] stores what [Bundle] accepts, [InAppCampaigns] publishes those
    revisions and [InAppDelivery] hands them out; [Preview] shows them.
    [InAppHttp] puts guards, scope check and audit record around these
    services, for the console and for apps.  [ConnectorForm] builds the body
    that [Credentials] parses, [MessageEditor] fills the messages of the drafts
    that [JourneyApi] keeps.  [Reports] reads what the worker wrote, behind
    the same guards.  [Readiness] looks at the admission state of [Shutdown] and
    opens a probe with [Crypto]; [DrainApp] drives that state to its end.

    ** What the theorems show

    - Tenant isolation and authority: compiled queries stay in the tenant and
      never contain a value's text; requests reach a handler only with a
      session, role or key that allows it; a session is opened only for a
      completed login, a joined or founded workspace or a claimed
      installation; only owners make owners and touch their roles, status and
      passwords, and one is always left; the webhook publishes for signed
      requests alone; a request on in-app messages leaves every row of other
      apps as it was.
    - Accepted data: what the journey validator and contract accept, as a
      grammar; accepted graphs run to an end with one way on from every port;
      the editor's edits keep graphs acceptable; accepted bundles are free of
      what the code refuses and within their limits.
    - State machines: deliveries, test runs, journeys and versions, sessions
      and keys, the installation, sender defaults: the transitions, the
      invariants of every reachable store, what is final.
    - Once and only once: track events whose customer is not deleted meanwhile,
      entry jobs of blasts, second factors, test pushes under an idempotency
      key.
    - Bounds: admissions of a rate-limited client, guesses of a second factor,
      display caps of campaigns, durations of routes, archives.
    - The process: readiness reports for every probe what it found, or that it
      did not come back in time; a shutdown ends in time and exits with 0
      exactly when nothing was left over; at most two bundles are validated at
      once, the first password published stays.
    - Read views: each is computed from the rows of one app, two of them also
      from rows that refer to its users; delivery and journey reports count
      accepted messages and visits once.
    - Templates: an imported e-mail template has none of what the import
      refuses, as far as the import looks; the limits on its files are on the
      sizes the archive declares.
    - Round trips: [JSON.parse] after [JSON.stringify], base64, base32,
      envelopes, credentials, preview links; what the connector form submits
      is what the vendor's worker reads.
    - Refinement: journeys and their versions, track receipts, and the
      editor's draft session, which does what a loop over the operations does.

    Three theorems state defects: a rotation can undo a concurrent
    revocation ([AuthLife.rotation_undoes_revocation]), the reference check
    of an attribute's deletion sees nothing ([DataApi.reference_check_is_vacuous]),
    a bundle's policy can be put into a comment ([BundleProps.policy_can_be_hidden]).
    Lemmas show smaller ones: [ReportsProps.open_rate_above_one],
    [ReportsProps.stale_is_not_skipped], [ReportsProps.attached_is_shown], [MessageEditor.inherited_name_stops],
    [TemplateZip.import_survives], [TemplateZip.leftovers_stay],
    [TemplateZip.parent_is_blocked].

    ** Fuel

    A loop that is not structural takes fuel, and a theorem says how much is
    enough: Kahn's queue and the reachability walk (the number of nodes and
    edges, [Graph]), the loop over merged customers ([ReceiptsMerge]: at
    most one step per customer that ever exists), [JSON_parse] (the length of
    the text, [JSON_parse_stringify]).  [EmailTemplates.render] and
    [ResendWebhook.split_spaces] take the length of the text, of which every
    step consumes a character.  The retry of a track call is the
    code's own bound of three attempts.

    ** Not modelled

    The Go worker (sending, projections, journey execution) and the native SDKs
    are not TypeScript; the console's React pages, of which the pure modules
    above are taken out, and the sites render markup; module wiring, the OpenAPI tables, metrics, the progress
    page of the installer and the deployment scripts hold no decisions of the
    program.
    Inside a modelled part, listings that only select columns may be left
    out; the part's note says so. *)

From Stdlib Require Export ZArith Lia List Bool.
From stdpp Require Export base tactics option list gmap strings relations.
From Stdlib Require Import QArith.

#[global] Open Scope Z_scope.

(** ** Exceptions

    A NestJS handler ends by returning or by throwing.  [HttpException] carries
    the status code and the message (or machine code) of the exception;
    [PlainError] is any other [Error]. *)
Inductive exn :=
| HttpException (status : Z) (message : string)
| PlainError (message : string).

#[global] Instance exn_eq_dec : EqDecision exn.
Proof. solve_decision. Defined.

Abbreviation BadRequestException := (HttpException 400).
Abbreviation UnauthorizedException := (HttpException 401).
Abbreviation ForbiddenException := (HttpException 403).
Abbreviation NotFoundException := (HttpException 404).
Abbreviation ConflictException := (HttpException 409).
Abbreviation GoneException := (HttpException 410).
Abbreviation ServiceUnavailableException := (HttpException 503).

Inductive outcome (A : Type) :=
| Ok (a : A)
| Throw (e : exn).
Arguments Ok {A} _.
Arguments Throw {A} _.

Definition is_ok {A} (r : outcome A) : bool :=
  match r with Ok _ => true | Throw _ => false end.

(** A function that may throw *)
#[global] Instance outcome_ret : MRet outcome := @Ok.
#[global] Instance outcome_bind : MBind outcome := λ A B f r,
  match r with Ok a => f a | Throw e => Throw e end.

Lemma outcome_bind_ok {A B} (r : outcome A) (f : A → outcome B) b :
  (r ≫= f) = Ok b ↔ ∃ a, r = Ok a ∧ f a = Ok b.
Proof. destruct r; simpl; split; try done; [eauto|by intros (?&[= <-]&?)|by intros (?&[=]&_)]. Qed.

(** ** The service monad

    A service method is a function of the store: it returns a value or throws,
    and in both cases it leaves a store behind. *)
Definition M (S A : Type) : Type := S → outcome A * S.

#[global] Instance M_ret S : MRet (M S) := λ A a s, (Ok a, s).
#[global] Instance M_bind S : MBind (M S) := λ A B f m s,
  match m s with
  | (Ok a, s') => f a s'
  | (Throw e, s') => (Throw e, s')
  end.

Definition throw {S A} (e : exn) : M S A := λ s, (Throw e, s).
Definition get {S} : M S S := λ s, (Ok s, s).
Definition modify {S} (f : S → S) : M S unit := λ s, (Ok tt, f s).

(** [BEGIN ... COMMIT] with [ROLLBACK] on an exception. *)
Definition transaction {S A} (m : M S A) : M S A := λ s,
  match m s with
  | (Ok a, s') => (Ok a, s')
  | (Throw e, _) => (Throw e, s)
  end.

(** [if (c) throw e;] *)
Definition throw_if {S} (c : bool) (e : exn) : M S unit :=
  if c then throw e else mret tt.

(** [if (!x) throw e;], [x] a nullable value. *)
Definition some_or_throw {S A} (o : option A) (e : exn) : M S A :=
  match o with Some a => mret a | None => throw e end.

Section MonadLaws.
Context {S : Type}.

Lemma bind_ok {A B} (m : M S A) (f : A → M S B) s b s' :
  (m ≫= f) s = (Ok b, s') ↔ ∃ a s1, m s = (Ok a, s1) ∧ f a s1 = (Ok b, s').
Proof.
  unfold mbind, M_bind. destruct (m s) as [[a|e] s1]; split.
  - eauto.
  - intros (?&?&[= -> ->]&?); done.
  - done.
  - intros (?&?&?&?); done.
Qed.

Lemma bind_throw_inv {A B} (m : M S A) (f : A → M S B) s e s' :
  (m ≫= f) s = (Throw e, s') →
  m s = (Throw e, s') ∨ ∃ a s1, m s = (Ok a, s1) ∧ f a s1 = (Throw e, s').
Proof.
  unfold mbind, M_bind. destruct (m s) as [[a|e'] s1]; [eauto|].
  intros [= <- <-]; auto.
Qed.

Lemma transaction_ok {A} (m : M S A) s a s' :
  transaction m s = (Ok a, s') ↔ m s = (Ok a, s').
Proof.
  unfold transaction. destruct (m s) as [[?|?] ?]; split; by intros [= -> ->].
Qed.

(** A transaction that throws leaves the store as it was. *)
Lemma transaction_throw {A} (m : M S A) s e s' :
  transaction m s = (Throw e, s') → s' = s.
Proof. unfold transaction. destruct (m s) as [[?|?] ?]; by intros [=]. Qed.

Lemma transaction_throw_iff {A} (m : M S A) s e s' :
  transaction m s = (Throw e, s') ↔ s' = s ∧ ∃ s1, m s = (Throw e, s1).
Proof.
  unfold transaction. destruct (m s) as [[?|?] ?]; split.
  - done.
  - by intros [_ [? ?]].
  - intros [= -> ->]; eauto.
  - by intros [-> [? [= -> _]]].
Qed.

Lemma throw_if_ok (c : bool) e (s s' : S) u :
  throw_if c e s = (Ok u, s') ↔ c = false ∧ s' = s.
Proof.
  unfold throw_if; destruct c, u; simpl.
  - split; [done|]. by intros [? _].
  - unfold mret, M_ret. split; [by intros [= ->]|]. by intros [_ ->].
Qed.

Lemma some_or_throw_ok {A} (o : option A) e (s s' : S) a :
  some_or_throw o e s = (Ok a, s') ↔ o = Some a ∧ s' = s.
Proof.
  unfold some_or_throw; destruct o; simpl.
  - unfold mret, M_ret. split; [by intros [= -> ->]|]. by intros [[= ->] ->].
  - split; [done|]. by intros [? _].
Qed.
End MonadLaws.

(** Invariants of the service monad: [preserves P m] says that [m] keeps [P]
    whether it returns or throws. *)
Section Preserves.
Context {S : Type} (P : S → Prop).

Definition preserves {A} (m : M S A) : Prop := ∀ s, P s → P (m s).2.

Lemma preserves_ret {A} (a : A) : preserves (mret a).
Proof. by intros s. Qed.
Lemma preserves_throw {A} e : preserves (throw (A:=A) e).
Proof. by intros s. Qed.
Lemma preserves_get : preserves get.
Proof. by intros s. Qed.
Lemma preserves_throw_if c e : preserves (throw_if c e).
Proof. unfold throw_if; destruct c; by intros s. Qed.
Lemma preserves_some {A} (o : option A) e : preserves (some_or_throw o e).
Proof. unfold some_or_throw; destruct o; by intros s. Qed.
Lemma preserves_modify f : (∀ s, P s → P (f s)) → preserves (modify f).
Proof. intros H s. apply H. Qed.
Lemma preserves_bind {A B} (m : M S A) (f : A → M S B) :
  preserves m → (∀ a, preserves (f a)) → preserves (m ≫= f).
Proof.
  intros Hm Hf s Hs. unfold mbind, M_bind. specialize (Hm s Hs).
  destruct (m s) as [[a|e] s1]; [apply Hf, Hm|done].
Qed.
Lemma preserves_transaction {A} (m : M S A) :
  (∀ s a s', P s → m s = (Ok a, s') → P s') → preserves (transaction m).
Proof.
  intros Hm s Hs. unfold transaction. destruct (m s) as [[a|e] s1] eqn:E; [|done].
  by eapply Hm.
Qed.
End Preserves.

Create HintDb nudgeon.
#[export] Hint Resolve preserves_ret preserves_throw preserves_get
  preserves_throw_if preserves_some : nudgeon.

Ltac inj_eq H := first [injection H as ? ?; subst | injection H as ?; subst | clear H].

(** Inverts a successful run of a monadic program, bind by bind. *)
Ltac minv :=
  repeat match goal with
  | H : (_ ≫= _) _ = (Ok _, _) |- _ =>
      apply bind_ok in H; destruct H as (?&?&?&?)
  | H : transaction _ _ = (Ok _, _) |- _ => apply (proj1 (transaction_ok _ _ _ _)) in H
  | H : throw_if _ _ _ = (Ok _, _) |- _ =>
      apply throw_if_ok in H; destruct H as [? ->]
  | H : some_or_throw _ _ _ = (Ok _, _) |- _ =>
      apply some_or_throw_ok in H; destruct H as [? ->]
  | H : get _ = (Ok _, _) |- _ => unfold get in H; inj_eq H
  | H : modify _ _ = (Ok _, _) |- _ => unfold modify in H; inj_eq H
  | H : mret _ _ = (Ok _, _) |- _ =>
      unfold mret, M_ret in H; inj_eq H
  | H : throw _ _ = (Ok _, _) |- _ => discriminate H
  end.

Lemma throw_if_throw {S} (c : bool) e (s s' : S) e' :
  throw_if c e s = (Throw e', s') → c = true ∧ e' = e ∧ s' = s.
Proof. destruct c; [|done]. by intros [= -> ->]. Qed.
Lemma some_or_throw_throw {S A} (o : option A) e (s s' : S) e' :
  some_or_throw o e s = (Throw e', s') → o = None ∧ e' = e ∧ s' = s.
Proof. destruct o; [done|]. by intros [= -> ->]. Qed.
Lemma transaction_throw_inv {S A} (m : M S A) s e s' :
  transaction m s = (Throw e, s') → s' = s ∧ ∃ s1, m s = (Throw e, s1).
Proof. apply transaction_throw_iff. Qed.

(** Inverts a run that threw: which statement threw, after which successes. *)
Ltac tinv :=
  repeat match goal with
  | H : (_ ≫= _) _ = (Throw _, _) |- _ =>
      apply bind_throw_inv in H; destruct H as [H|(?&?&?&H)]
  | H : transaction _ _ = (Throw _, _) |- _ =>
      apply transaction_throw_inv in H; destruct H as (->&?&H)
  | H : throw_if _ _ _ = (Throw _, _) |- _ => apply throw_if_throw in H; destruct H as (?&?&?)
  | H : some_or_throw _ _ _ = (Throw _, _) |- _ => apply some_or_throw_throw in H; destruct H as (?&?&?)
  | H : get _ = (Throw _, _) |- _ => discriminate H
  | H : modify _ _ = (Throw _, _) |- _ => discriminate H
  | H : mret _ _ = (Throw _, _) |- _ => discriminate H
  | H : throw _ _ = (Throw _, _) |- _ => unfold throw in H; injection H as ? ?
  end.

(** Case analysis on the test a successful run stopped at. *)
Ltac mcase E :=
  match goal with
  | H : (match ?o with _ => _ end) _ = (_, _) |- _ => destruct o eqn:E
  end.

(** ** SQL tables as lists of rows *)
Section Tables.
Context {R : Type}.

(** [SELECT ... WHERE p] *)
Definition select (p : R → bool) (t : list R) : list R := List.filter p t.
(** [rows[0]] of a SELECT *)
Definition select1 (p : R → bool) (t : list R) : option R := head (select p t).
(** [UPDATE ... SET f WHERE p] *)
Definition update_where (p : R → bool) (f : R → R) (t : list R) : list R :=
  map (λ r, if p r then f r else r) t.
(** [DELETE ... WHERE p] *)
Definition delete_where (p : R → bool) (t : list R) : list R :=
  List.filter (λ r, negb (p r)) t.
(** [rowCount] of a statement whose WHERE clause is [p] *)
Definition row_count (p : R → bool) (t : list R) : Z := Z.of_nat (length (select p t)).

Lemma select_In p t r : In r (select p t) ↔ In r t ∧ p r = true.
Proof. apply filter_In. Qed.

Lemma select1_Some p t r : select1 p t = Some r → In r t ∧ p r = true.
Proof.
  unfold select1. destruct (select p t) as [|x l] eqn:E; [done|].
  intros [= <-]. apply select_In. rewrite E. left; done.
Qed.

Lemma select1_None p t : select1 p t = None ↔ ∀ r, In r t → p r = false.
Proof.
  unfold select1. destruct (select p t) as [|x l] eqn:E; split; try done.
  - intros _ r Hr. apply not_true_is_false. intros Hp.
    assert (In r (select p t)) by by apply select_In. by rewrite E in *.
  - intros H. assert (In x (select p t)) as [Hx Hp]%select_In by (rewrite E; by left).
    by rewrite H in Hp.
Qed.

Lemma update_where_In p f t r :
  In r (update_where p f t) ↔
  (∃ x, In x t ∧ p x = true ∧ r = f x) ∨ (In r t ∧ p r = false).
Proof.
  unfold update_where. rewrite in_map_iff. split.
  - intros (x&<-&?). destruct (p x) eqn:?; eauto.
  - intros [(x&?&Hp&->)|[? Hp]]; [exists x|exists r]; by rewrite Hp.
Qed.

Lemma update_where_length p f t : length (update_where p f t) = length t.
Proof. apply length_map. Qed.

Lemma delete_where_In p t r : In r (delete_where p t) ↔ In r t ∧ p r = false.
Proof. unfold delete_where. rewrite filter_In, negb_true_iff. done. Qed.

Lemma row_count_0 p t : row_count p t = 0 ↔ ∀ r, In r t → p r = false.
Proof.
  rewrite <- select1_None. unfold row_count, select1.
  destruct (select p t); simpl; split; intros; try done; lia.
Qed.

Lemma row_count_pos p t : 0 < row_count p t ↔ ∃ r, In r t ∧ p r = true.
Proof.
  unfold row_count. destruct (select p t) as [|x l] eqn:E; simpl.
  - split; [lia|]. intros (r&Hr&Hp).
    assert (In r (select p t)) by by apply select_In. by rewrite E in *.
  - split; [|lia]. intros _. exists x. apply select_In. rewrite E; by left.
Qed.
End Tables.

(** ** Boolean helpers *)

Definition String_in (s : string) (l : list string) : bool := existsb (String.eqb s) l.

#[global] Arguments String_in : simpl never.

Lemma String_in_spec s l : String_in s l = true ↔ In s l.
Proof.
  unfold String_in. rewrite existsb_exists. split.
  - intros (x&?&->%String.eqb_eq); done.
  - intros ?. exists s. by rewrite String.eqb_refl.
Qed.

Lemma String_in_false s l : String_in s l = false ↔ ¬ In s l.
Proof. rewrite <- String_in_spec. destruct (String_in s l); naive_solver. Qed.

Lemma String_in_cons s x l : String_in s (x :: l) = String.eqb s x || String_in s l.
Proof. done. Qed.
Lemma String_in_nil s : String_in s [] = false.
Proof. done. Qed.

Lemma forallb_map {A B} (f : A → B) (p : B → bool) l :
  forallb p (map f l) = forallb (λ x, p (f x)) l.
Proof. induction l as [|x l IH]; simpl; [done|]. by rewrite IH. Qed.

(** Turns boolean hypotheses into propositions. *)
Ltac b2p :=
  repeat match goal with
  | H : (_ && _) = true |- _ => apply andb_true_iff in H; destruct H
  | H : (_ || _) = false |- _ => apply orb_false_iff in H; destruct H
  | H : negb _ = true |- _ => apply negb_true_iff in H
  | H : negb _ = false |- _ => apply negb_false_iff in H
  | H : (_ =? _)%string = true |- _ => apply String.eqb_eq in H
  | H : (_ =? _)%string = false |- _ => apply String.eqb_neq in H
  | H : (_ =? _)%Z = true |- _ => apply Z.eqb_eq in H
  | H : (_ =? _)%Z = false |- _ => apply Z.eqb_neq in H
  | H : (_ <=? _)%Z = true |- _ => apply Z.leb_le in H
  | H : (_ <=? _)%Z = false |- _ => apply Z.leb_gt in H
  | H : (_ <? _)%Z = true |- _ => apply Z.ltb_lt in H
  | H : (_ <? _)%Z = false |- _ => apply Z.ltb_ge in H
  | H : bool_decide _ = true |- _ => apply bool_decide_eq_true in H
  | H : bool_decide _ = false |- _ => apply bool_decide_eq_false in H
  | H : String_in _ _ = true |- _ => apply String_in_spec in H
  | H : String_in _ _ = false |- _ => apply String_in_false in H
  end.

(** Elements of a list with distinct keys are determined by their keys. *)
Lemma NoDup_map_inj_in {A B} (f : A → B) l :
  (∀ x y, In x l → In y l → f x = f y → x = y) → List.NoDup l → List.NoDup (map f l).
Proof.
  induction l as [|x l IH]; intros Hf; simpl; [constructor|]. intros [Hx Hnd]%NoDup_cons_iff.
  apply NoDup_cons_iff. split; [|apply IH; [|done]; intros ????; apply Hf; by right].
  intros (y&Hy&Hin)%in_map_iff. apply Hx. rewrite (Hf x y); [done|by left|by right|done].
Qed.

Lemma NoDup_map_filter {A B} (f : A → B) (p : A → bool) l : List.NoDup (map f l) → List.NoDup (map f (List.filter p l)).
Proof.
  induction l as [|x l IH]; simpl; [done|]. intros [Hx Hnd]%NoDup_cons_iff. destruct (p x); [|auto]. simpl.
  apply NoDup_cons_iff. split; [|auto]. intros (y&Hy&[Hin _]%filter_In)%in_map_iff. apply Hx. rewrite <- Hy. by apply in_map.
Qed.

Lemma NoDup_map_eq {A B} (f : A → B) l x y :
  List.NoDup (map f l) → In x l → In y l → f x = f y → x = y.
Proof.
  induction l as [|z l IH]; [done|]. cbn [map]. intros [Hz Hnd]%NoDup_cons_iff.
  intros [->|Hx] [->|Hy] Heq; [done| | |auto]; destruct Hz.
  - rewrite Heq. by apply in_map.
  - rewrite <- Heq. by apply in_map.
Qed.

(** *** The first row of a SELECT *)

Lemma select1_update {R} (p : R → bool) (f : R → R) l m :
  (∀ x, p (f x) = p x) → select1 p l = Some m → select1 p (update_where p f l) = Some (f m).
Proof.
  intros Hp. unfold select1, select, update_where. induction l as [|x l IH]; [done|]. simpl.
  destruct (p x) eqn:E; simpl.
  - rewrite Hp, E. simpl. by intros [= ->].
  - rewrite E. done.
Qed.
Lemma select1_unique {R K} (key : R → K) p q (l : list R) m :
  List.NoDup (map key l) → select1 p l = Some m → q m = true → (∀ x, In x l → q x = true → key x = key m) →
  select1 q l = Some m.
Proof.
  intros Hnd [Hin Hp]%select1_Some Hq Hk. destruct (select1 q l) as [x|] eqn:E.
  - apply select1_Some in E as [Hx Hqx]. f_equal. apply (NoDup_map_eq key l); auto.
  - apply (proj1 (select1_None _ _)) with (r := m) in E; [congruence|done].
Qed.
Lemma select1_prefix {A} (p : A → bool) l l' x : l `prefix_of` l' → select1 p l = Some x → select1 p l' = Some x.
Proof.
  intros [k ->] H. unfold select1, select in *. rewrite List.filter_app.
  by destruct (List.filter p l).
Qed.
Lemma select1_append {A} (p : A → bool) l x : select1 p l = None → p x = true → select1 p (l ++ [x]) = Some x.
Proof.
  intros H Hp. unfold select1, select in *. rewrite List.filter_app. simpl. rewrite Hp.
  by destruct (List.filter p l).
Qed.
Lemma select1_is_Some {A} (p : A → bool) l x : In x l → p x = true → ∃ y, select1 p l = Some y.
Proof.
  intros Hx Hp. destruct (select1 p l) as [y|] eqn:E; [eauto|].
  rewrite select1_None in E. by rewrite (E x Hx) in Hp.
Qed.

(** A computation that leaves the store alone, and one that changes it only when it returns. *)
Definition readonly {S A} (m : M S A) : Prop := ∀ s, (m s).2 = s.
Definition atomic {S A} (m : M S A) : Prop := ∀ s e s', m s = (Throw e, s') → s' = s.

Section Atomic.
Context {S : Type}.

Lemma readonly_ret {A} (a : A) : readonly (S:=S) (mret a).
Proof. done. Qed.
Lemma readonly_throw {A} e : readonly (S:=S) (A:=A) (throw e).
Proof. done. Qed.
Lemma readonly_get : readonly (S:=S) get.
Proof. done. Qed.
Lemma readonly_throw_if c e : readonly (S:=S) (throw_if c e).
Proof. by destruct c. Qed.
Lemma readonly_some {A} (o : option A) e : readonly (S:=S) (some_or_throw o e).
Proof. by destruct o. Qed.
Lemma readonly_bind {A B} (m : M S A) (f : A → M S B) :
  readonly m → (∀ a, readonly (f a)) → readonly (m ≫= f).
Proof.
  intros Hm Hf s. unfold mbind, M_bind. specialize (Hm s). destruct (m s) as [[a|e] s1]; simpl in *; [|done].
  by rewrite Hf.
Qed.
Lemma readonly_state {A} (m : M S A) s r s' : readonly m → m s = (r, s') → s' = s.
Proof. intros H E. specialize (H s). by rewrite E in H. Qed.

Lemma atomic_readonly {A} (m : M S A) : readonly m → atomic m.
Proof. intros H s e s' E. by eapply readonly_state. Qed.
Lemma atomic_modify f : atomic (S:=S) (modify f).
Proof. by intros s e s'. Qed.
Lemma atomic_transaction {A} (m : M S A) : atomic (transaction m).
Proof. intros s e s'. apply transaction_throw. Qed.
Lemma atomic_bind {A B} (m : M S A) (f : A → M S B) :
  readonly m → (∀ a, atomic (f a)) → atomic (m ≫= f).
Proof.
  intros Hm Hf s e s'. unfold mbind, M_bind. specialize (Hm s). destruct (m s) as [[a|e1] s1]; simpl in Hm; subst.
  - apply Hf.
  - by intros [= _ ->].
Qed.

(** The state after a read-only prefix is the state after the rest. *)
Lemma readonly_bind_state {A B} (m : M S A) (f : A → M S B) s :
  readonly m → (m ≫= f) s = match m s with (Ok a, _) => f a s | (Throw e, _) => (Throw e, s) end.
Proof.
  intros Hm. unfold mbind, M_bind. specialize (Hm s). destruct (m s) as [[a|e] s1]; simpl in Hm; by subst.
Qed.
End Atomic.

#[export] Hint Resolve readonly_ret readonly_throw readonly_get readonly_throw_if readonly_some
  atomic_readonly atomic_modify atomic_transaction : nudgeon.
#[export] Hint Extern 2 (readonly (_ ≫= _)) => apply readonly_bind : nudgeon.
#[export] Hint Extern 3 (atomic (_ ≫= _)) => apply atomic_bind : nudgeon.

(** ** Programs whose effect stays in a preorder *)

Create HintDb within.

Definition within {S A} (R : S → S → Prop) (m : M S A) : Prop := ∀ s, R s (m s).2.

Section Within.
Context {S : Type} (R : S → S → Prop) `{!PreOrder R}.

Lemma within_readonly {A} (m : M S A) : readonly m → within R m.
Proof. intros H s. rewrite H. reflexivity. Qed.
Lemma within_bind {A B} (m : M S A) (f : A → M S B) :
  within R m → (∀ a, within R (f a)) → within R (m ≫= f).
Proof.
  intros Hm Hf s. unfold mbind, M_bind. specialize (Hm s). destruct (m s) as [[a|e] s1]; [|done].
  etrans; [exact Hm|apply Hf].
Qed.
Lemma within_modify f : (∀ s, R s (f s)) → within R (modify f).
Proof. intros H s. apply H. Qed.
Lemma within_transaction {A} (m : M S A) : within R m → within R (transaction m).
Proof. intros H s. specialize (H s). unfold transaction. destruct (m s) as [[a|e] s1]; [done|reflexivity]. Qed.
(** a program that starts by reading the store *)
Lemma within_get {A} (f : S → M S A) : (∀ s, R s (f s s).2) → within R (s ← get; f s).
Proof. intros H s. apply H. Qed.
(** the same from one store *)
Lemma within_bind_at {A B} (m : M S A) (f : A → M S B) s :
  R s (m s).2 → (∀ a, within R (f a)) → R s ((m ≫= f) s).2.
Proof.
  intros Hm Hf. unfold mbind, M_bind. destruct (m s) as [[a|e] s1]; [|done]. etrans; [exact Hm|apply Hf].
Qed.
Lemma within_transaction_at {A} (m : M S A) s : R s (m s).2 → R s (transaction m s).2.
Proof. unfold transaction. destruct (m s) as [[a|e] s1]; [done|reflexivity]. Qed.
Lemma within_run {A} (m : M S A) s o s' : within R m → m s = (o, s') → R s s'.
Proof. intros H E. specialize (H s). by rewrite E in H. Qed.
End Within.

(** Walks through a program whose every write is one of the above. *)
Ltac within_step :=
  match goal with
  | |- within _ (mret _) => apply within_readonly; [apply _|apply readonly_ret]
  | |- within _ (throw _) => apply within_readonly; [apply _|apply readonly_throw]
  | |- within _ (throw_if _ _) => apply within_readonly; [apply _|apply readonly_throw_if]
  | |- within _ (some_or_throw _ _) => apply within_readonly; [apply _|apply readonly_some]
  | |- within _ get => apply within_readonly; [apply _|apply readonly_get]
  | |- within _ (transaction _) => apply within_transaction; [apply _|]
  | |- within _ (_ ≫= _) => apply within_bind; [apply _| |intros]
  | |- within _ (match ?x with _ => _ end) => destruct x eqn:?
  | |- within _ _ => solve [eauto with within]
  end.
Ltac within_tac := repeat within_step.

(** ** Lists *)

Lemma Forall2_In_r {A B} (R : A → B → Prop) l k y : Forall2 R l k → In y k → ∃ x, In x l ∧ R x y.
Proof.
  induction 1 as [|x z l k Hxz Hlk IH]; [by intros []|]. intros [<-|Hy]; [exists x; by split; [left|]|].
  destruct (IH Hy) as (x'&?&?). exists x'. by split; [right|].
Qed.
Lemma Forall2_In_l {A B} (R : A → B → Prop) l l' x : Forall2 R l l' → In x l → ∃ y, In y l' ∧ R x y.
Proof.
  induction 1 as [|x' y l l' Hxy _ IH]; [done|]. intros [<-|Hx]; [exists y; split; [by left|done]|].
  destruct (IH Hx) as (z&?&?). exists z. split; [by right|done].
Qed.

(** A row with a new key keeps the keys unique. *)
Lemma NoDup_key_snoc {A B} (f : A → B) l x :
  List.NoDup (map f l) → (∀ y, In y l → f y ≠ f x) → List.NoDup (map f (l ++ [x])).
Proof.
  intros Hl Hx. rewrite map_app. apply List.NoDup_app; [done|repeat constructor; by intros []|].
  intros y Hy [<-|[]]. apply in_map_iff in Hy as (z&Hz&Hin). by apply (Hx z).
Qed.
Lemma ForallOrdPairs_snoc {A} (R : A → A → Prop) l x :
  ForallOrdPairs R l → (∀ y, In y l → R y x) → ForallOrdPairs R (l ++ [x]).
Proof.
  induction 1 as [|y l Hy Hl IH]; intros Hx; simpl; [repeat constructor|].
  constructor.
  - apply Forall_app. split; [done|]. constructor; [|constructor]. apply Hx. by left.
  - apply IH. intros z Hz. apply Hx. by right.
Qed.
Lemma row_count_snoc {R} (p : R → bool) l x : row_count p (l ++ [x]) = row_count p l + (if p x then 1 else 0).
Proof.
  unfold row_count, select. rewrite List.filter_app, length_app. simpl. destruct (p x); simpl; lia.
Qed.
Lemma existsb_fresh {R} (p : R → bool) l : existsb p l = false → ∀ x, In x l → p x = false.
Proof.
  intros Hb x Hx. apply not_true_iff_false. intros Hp. apply not_true_iff_false in Hb. apply Hb, existsb_exists. eauto.
Qed.
