(* ===== verification/JsVal.v ===== *)
(** * JavaScript values

    The values a handler reads out of a parsed JSON body, a JSONB column or an
    environment variable, and the operations of the language the code applies
    to them: truthiness, [Number.isInteger] and its relatives, [String]
    methods, and the insertion-ordered [Map]/[Set].

    A JavaScript string is modelled by the bytes of its UTF-8 encoding
    ([string]); concatenation, equality and search are those of bytes, and
    [js_length] and [js_trim] count code units and strip white space as the
    language does.  (Lone surrogates have no UTF-8 encoding and are left out.)
    A JavaScript number is a rational, an infinity or NaN ([num]); the code
    only tests, truncates, compares and prints the numbers it is given, which
    are exact operations on doubles.  [-0] and [0] are identified. *)

From Stdlib Require Import Ascii QArith Qround.
From stdpp Require Import pretty.
From S2P Require Import Prelude.

#[global] Open Scope Z_scope.

(** ** Numbers *)

Inductive num :=
| NNaN
| NInf (neg : bool)
| NFin (q : Q).

Definition NInt (z : Z) : num := NFin (inject_Z z).

#[global] Instance Q_eq_dec : EqDecision Q.
Proof. solve_decision. Defined.
#[global] Instance num_eq_dec : EqDecision num.
Proof. solve_decision. Defined.

(** [Math.trunc] of a finite number *)
Definition q_trunc (q : Q) : Z := Z.quot (Qnum q) (Zpos (Qden q)).
Definition q_is_int (q : Q) : bool := Z.rem (Qnum q) (Zpos (Qden q)) =? 0.

Definition Number_isFinite (n : num) : bool :=
  match n with NFin _ => true | _ => false end.
Definition Number_isInteger (n : num) : bool :=
  match n with NFin q => q_is_int q | _ => false end.
Definition MAX_SAFE_INTEGER : Z := 2 ^ 53 - 1.
Definition Number_isSafeInteger (n : num) : bool :=
  match n with
  | NFin q => q_is_int q && (Z.abs (q_trunc q) <=? MAX_SAFE_INTEGER)
  | _ => false
  end.
Definition Math_trunc (n : num) : num :=
  match n with NFin q => NInt (q_trunc q) | _ => n end.

(** [a === b], [a < b], [a <= b] on numbers *)
Definition num_eqb (a b : num) : bool :=
  match a, b with
  | NFin p, NFin q => Qeq_bool p q
  | NInf s, NInf t => Bool.eqb s t
  | _, _ => false
  end.
Definition num_leb (a b : num) : bool :=
  match a, b with
  | NFin p, NFin q => Qle_bool p q
  | NInf true, NFin _ | NInf true, NInf _ => true
  | NFin _, NInf false | NInf false, NInf false => true
  | _, _ => false
  end.
Definition num_ltb (a b : num) : bool := num_leb a b && negb (num_eqb a b).

Lemma q_is_int_inject z : q_is_int (inject_Z z) = true.
Proof. unfold q_is_int. simpl. by rewrite Z.rem_1_r. Qed.
Lemma q_trunc_inject z : q_trunc (inject_Z z) = z.
Proof. unfold q_trunc. simpl. by rewrite Z.quot_1_r. Qed.

Lemma q_is_int_trunc q : q_is_int q = true → Qeq q (inject_Z (q_trunc q)).
Proof.
  unfold q_is_int, q_trunc, Qeq. rewrite Z.eqb_eq. simpl. intros H.
  pose proof (Z.quot_rem' (Qnum q) (Zpos (Qden q))). lia.
Qed.

Lemma Number_isInteger_NInt z : Number_isInteger (NInt z) = true.
Proof. apply q_is_int_inject. Qed.

(** The integer a number denotes, when it is one. *)
Definition num_to_Z (n : num) : Z :=
  match n with NFin q => q_trunc q | _ => 0 end.

Lemma num_to_Z_NInt z : num_to_Z (NInt z) = z.
Proof. apply q_trunc_inject. Qed.

Lemma Number_isSafeInteger_spec n :
  Number_isSafeInteger n = true →
  Number_isInteger n = true ∧ Z.abs (num_to_Z n) <= MAX_SAFE_INTEGER.
Proof. destruct n; try done. simpl. intros. b2p. done. Qed.

Lemma num_ltb_int n z :
  Number_isInteger n = true → num_ltb n (NInt z) = (num_to_Z n <? z).
Proof.
  destruct n as [| |q]; try done. cbn [Number_isInteger num_to_Z]. intros Hq%q_is_int_trunc.
  revert Hq. generalize (q_trunc q). intros k Hq.
  unfold num_ltb, num_leb, num_eqb, NInt. apply eq_true_iff_eq.
  rewrite andb_true_iff, negb_true_iff, Z.ltb_lt, Qle_bool_iff.
  rewrite <- not_true_iff_false, Qeq_bool_iff.
  rewrite Hq. rewrite <- Zle_Qle, inject_Z_injective. lia.
Qed.

Lemma num_leb_int n z :
  Number_isInteger n = true → num_leb n (NInt z) = (num_to_Z n <=? z).
Proof.
  destruct n as [| |q]; try done. cbn [Number_isInteger num_to_Z]. intros Hq%q_is_int_trunc.
  revert Hq. generalize (q_trunc q). intros k Hq.
  unfold num_leb, NInt. apply eq_true_iff_eq.
  rewrite Z.leb_le, Qle_bool_iff. rewrite Hq. by rewrite <- Zle_Qle.
Qed.

Lemma num_gtb_int n z :
  Number_isInteger n = true → num_ltb (NInt z) n = (z <? num_to_Z n).
Proof.
  destruct n as [| |q]; try done. cbn [Number_isInteger num_to_Z]. intros Hq%q_is_int_trunc.
  revert Hq. generalize (q_trunc q). intros k Hq.
  unfold num_ltb, num_leb, num_eqb, NInt. apply eq_true_iff_eq.
  rewrite andb_true_iff, negb_true_iff, Z.ltb_lt, Qle_bool_iff.
  rewrite <- not_true_iff_false, Qeq_bool_iff.
  rewrite Hq. rewrite <- Zle_Qle, inject_Z_injective. lia.
Qed.

(** [String(n)]; [fmt] prints the finite numbers that are not integers below
    [1e21] (the shortest decimal that reads back as the same double). *)
Definition num_to_string (fmt : Q → string) (n : num) : string :=
  match n with
  | NNaN => "NaN"
  | NInf true => "-Infinity"
  | NInf false => "Infinity"
  | NFin q =>
      if q_is_int q && (Z.abs (q_trunc q) <? 10 ^ 21) then pretty (q_trunc q) else fmt q
  end.

(** ** Values *)

Inductive jsval :=
| JUndef
| JNull
| JBool (b : bool)
| JNum (n : num)
| JStr (s : string)
| JArr (l : list jsval)
| JObj (fields : list (string * jsval)).

(** [typeof v === "string"], [typeof v === "number"] *)
Definition is_string (v : jsval) : bool := match v with JStr _ => true | _ => false end.
Definition is_number (v : jsval) : bool := match v with JNum _ => true | _ => false end.

(** [v == null] *)
Definition is_nullish (v : jsval) : bool :=
  match v with JUndef | JNull => true | _ => false end.

(** [!!v] *)
Definition truthy (v : jsval) : bool :=
  match v with
  | JUndef | JNull => false
  | JBool b => b
  | JNum NNaN => false
  | JNum (NFin q) => negb (Qeq_bool q 0)
  | JNum (NInf _) => true
  | JStr s => negb (String.eqb s "")
  | JArr _ | JObj _ => true
  end.

(** ** Strings *)

(** [s.length]: UTF-16 code units of the string whose UTF-8 bytes are [s] *)
Definition code_units (c : ascii) : Z :=
  let b := Z.of_N (N_of_ascii c) in
  if b <? 128 then 1 else if b <? 192 then 0 else if b <? 240 then 1 else 2.
Fixpoint js_length (s : string) : Z :=
  match s with
  | EmptyString => 0
  | String c s' => code_units c + js_length s'
  end.

(** [Buffer.byteLength(s, "utf8")] *)
Definition byte_length (s : string) : Z := Z.of_nat (String.length s).

Definition byte (c : ascii) : Z := Z.of_N (N_of_ascii c).

(** The white space and line terminators [String.prototype.trim] strips, in
    UTF-8: strips one of them from the front of [s]. *)
Definition strip_ws (s : string) : option string :=
  match s with
  | String a s1 =>
      if ((9 <=? byte a) && (byte a <=? 13)) || (byte a =? 32) then Some s1
      else match s1 with
      | String b s2 =>
          if (byte a =? 194) && (byte b =? 160) then Some s2                 (* U+00A0 *)
          else match s2 with
          | String c s3 =>
              if (byte a =? 239) && (byte b =? 187) && (byte c =? 191)       (* U+FEFF *)
                 || (byte a =? 225) && (byte b =? 154) && (byte c =? 128)    (* U+1680 *)
                 || (byte a =? 226) && (byte b =? 128) &&
                      (((128 <=? byte c) && (byte c <=? 138))                (* U+2000-200A *)
                       || (byte c =? 168) || (byte c =? 169) || (byte c =? 175))
                 || (byte a =? 226) && (byte b =? 129) && (byte c =? 159)    (* U+205F *)
                 || (byte a =? 227) && (byte b =? 128) && (byte c =? 128)    (* U+3000 *)
              then Some s3 else None
          | EmptyString => None
          end
      | EmptyString => None
      end
  | EmptyString => None
  end.

Fixpoint trim_start_fuel (n : nat) (s : string) : string :=
  match n with
  | O => s
  | S n' => match strip_ws s with Some s' => trim_start_fuel n' s' | None => s end
  end.
Definition trim_start (s : string) : string := trim_start_fuel (String.length s) s.

(** [s.trim() === ""] *)
Definition blank (s : string) : bool := String.eqb (trim_start s) "".

Fixpoint trim_end (s : string) : string :=
  match s with
  | EmptyString => EmptyString
  | String c s' => if blank s then EmptyString else String c (trim_end s')
  end.
Definition js_trim (s : string) : string := trim_end (trim_start s).

Definition ascii_lower (c : ascii) : ascii :=
  if (65 <=? byte c) && (byte c <=? 90) then ascii_of_N (N_of_ascii c + 32) else c.
Definition ascii_upper (c : ascii) : ascii :=
  if (97 <=? byte c) && (byte c <=? 122) then ascii_of_N (N_of_ascii c - 32) else c.

(** [s.toLowerCase()] and [s.toUpperCase()] on ASCII text *)
Fixpoint to_lower (s : string) : string :=
  match s with EmptyString => EmptyString | String c s' => String (ascii_lower c) (to_lower s') end.
Fixpoint to_upper (s : string) : string :=
  match s with EmptyString => EmptyString | String c s' => String (ascii_upper c) (to_upper s') end.

Definition starts_with (p s : string) : bool := String.prefix p s.
Definition ends_with (p s : string) : bool :=
  Nat.leb (String.length p) (String.length s)
  && String.eqb (String.substring (String.length s - String.length p) (String.length p) s) p.

Definition is_digit (c : ascii) : bool := (48 <=? byte c) && (byte c <=? 57).
Definition is_lower (c : ascii) : bool := (97 <=? byte c) && (byte c <=? 122).
Definition is_upper (c : ascii) : bool := (65 <=? byte c) && (byte c <=? 90).

Fixpoint str_forallb (p : ascii → bool) (s : string) : bool :=
  match s with EmptyString => true | String c s' => p c && str_forallb p s' end.
Fixpoint str_filter (p : ascii → bool) (s : string) : string :=
  match s with
  | EmptyString => EmptyString
  | String c s' => if p c then String c (str_filter p s') else str_filter p s'
  end.
Fixpoint str_count (c : ascii) (s : string) : nat :=
  match s with
  | EmptyString => 0
  | String d s' => (if Ascii.eqb c d then 1 else 0) + str_count c s'
  end.

(** [s.split(c)], [c] one ASCII character *)
Fixpoint split_on (c : ascii) (s : string) : list string :=
  match s with
  | EmptyString => [EmptyString]
  | String d s' =>
      if Ascii.eqb c d then EmptyString :: split_on c s'
      else match split_on c s' with
           | x :: l => String d x :: l
           | [] => [String d EmptyString]
           end
  end.

(** [l.join(sep)] *)
Definition join (sep : string) (l : list string) : string := String.concat sep l.

Lemma str_app_cons c s t : String c s +:+ t = String c (s +:+ t).
Proof. done. Qed.

Lemma starts_with_cons a p c s : starts_with (String a p) (String c s) = Ascii.eqb a c && starts_with p s.
Proof.
  unfold starts_with. cbn [String.prefix]. destruct (ascii_dec a c) as [->|Hne]; [by rewrite Ascii.eqb_refl|].
  by apply Ascii.eqb_neq in Hne as ->.
Qed.
Lemma starts_with_app p s : starts_with p (p +:+ s) = true.
Proof.
  unfold starts_with. induction p as [|c p IH]; [by destruct s|]. rewrite str_app_cons. simpl.
  by destruct (ascii_dec c c).
Qed.

Lemma str_count_app c s t : str_count c (s +:+ t) = (str_count c s + str_count c t)%nat.
Proof. induction s as [|d s IH]; [done|]. rewrite str_app_cons. simpl. rewrite IH. lia. Qed.

Lemma str_app_nil_r (s : string) : s +:+ "" = s.
Proof. induction s as [|c s IH]; [done|]. by rewrite str_app_cons, IH. Qed.

Lemma str_app_assoc (s t u : string) : s +:+ (t +:+ u) = (s +:+ t) +:+ u.
Proof. induction s as [|c s IH]; [done|]. by rewrite !str_app_cons, IH. Qed.

Lemma str_length_app (s t : string) : String.length (s +:+ t) = (String.length s + String.length t)%nat.
Proof. induction s as [|c s IH]; [done|]. rewrite str_app_cons. simpl. by rewrite IH. Qed.

Lemma join_cons sep x y l : join sep (x :: y :: l) = x +:+ sep +:+ join sep (y :: l).
Proof. done. Qed.

Lemma str_forallb_app p (s t : string) : str_forallb p (s +:+ t) = str_forallb p s && str_forallb p t.
Proof. induction s as [|c s IH]; [done|]. rewrite str_app_cons. cbn [str_forallb]. by rewrite IH, andb_assoc. Qed.
Lemma str_forallb_weaken p q s : (∀ c, p c = true → q c = true) → str_forallb p s = true → str_forallb q s = true.
Proof. intros Hpq. induction s as [|c s IH]; [done|]. cbn [str_forallb]. intros [Hc Hs]%andb_true_iff. by rewrite Hpq, IH. Qed.
Lemma split_on_none c s : str_forallb (λ x, negb (Ascii.eqb c x)) s = true → split_on c s = [s].
Proof.
  induction s as [|x s IH]; [done|]. cbn [str_forallb split_on]. intros [Hx%negb_true_iff Hs]%andb_true_iff. by rewrite Hx, IH.
Qed.
Lemma split_on_app c s t :
  str_forallb (λ x, negb (Ascii.eqb c x)) s = true → split_on c (s +:+ String c t) = s :: split_on c t.
Proof.
  induction s as [|x s IH]; intros H.
  - change ("" +:+ String c t) with (String c t). cbn [split_on]. by rewrite Ascii.eqb_refl.
  - rewrite str_app_cons. cbn [str_forallb split_on] in *. apply andb_true_iff in H as [Hx%negb_true_iff Hs]. by rewrite Hx, IH.
Qed.
Lemma substring_all s : String.substring 0 (String.length s) s = s.
Proof. induction s as [|c s IH]; [done|]. simpl. by rewrite IH. Qed.

Lemma js_length_app s t : js_length (s +:+ t) = js_length s + js_length t.
Proof. induction s as [|c s IH]; [done|]. rewrite str_app_cons. simpl. rewrite IH. lia. Qed.

Lemma js_length_bound s : js_length s <= 2 * Z.of_nat (String.length s).
Proof. induction s as [|c s IH]; simpl; [lia|]. unfold code_units. repeat case_match; lia. Qed.
Lemma js_length_nonneg s : 0 <= js_length s.
Proof.
  induction s as [|c s IH]; simpl; [done|]. unfold code_units.
  repeat case_match; lia.
Qed.

(** *** [trim] is idempotent *)

Lemma strip_ws_app s r t : strip_ws s = Some r → strip_ws (s +:+ t) = Some (r +:+ t).
Proof.
  destruct s as [|a s]; [done|]. rewrite str_app_cons. simpl. case_match; [by intros [= <-]|].
  destruct s as [|b s]; [done|]. rewrite str_app_cons. case_match; [by intros [= <-]|].
  destruct s as [|c s]; [done|]. rewrite str_app_cons. case_match; [by intros [= <-]|done].
Qed.
Lemma strip_ws_length s r : strip_ws s = Some r → (String.length r < String.length s)%nat.
Proof.
  destruct s as [|a [|b [|c s]]]; simpl; repeat case_match; try done; intros [= <-]; simpl; lia.
Qed.
Lemma trim_start_fuel_enough n m s :
  (String.length s <= n)%nat → (String.length s <= m)%nat → trim_start_fuel n s = trim_start_fuel m s.
Proof.
  revert m s. induction n as [|n IH]; intros m s Hn Hm.
  - destruct s; [|simpl in Hn; lia]. by destruct m.
  - destruct m as [|m]; [destruct s; [done|simpl in Hm; lia]|]. simpl.
    destruct (strip_ws s) as [r|] eqn:E; [|done]. apply strip_ws_length in E. apply IH; lia.
Qed.
Lemma trim_start_step s r : strip_ws s = Some r → trim_start s = trim_start r.
Proof.
  intros H. pose proof (strip_ws_length _ _ H). unfold trim_start. destruct s as [|c s]; [done|].
  cbn [String.length trim_start_fuel]. rewrite H. simpl in *. apply trim_start_fuel_enough; lia.
Qed.
Lemma trim_start_none s : strip_ws s = None → trim_start s = s.
Proof. unfold trim_start. destruct s as [|c s]; [done|]. cbn [String.length trim_start_fuel]. by intros ->. Qed.
(** an induction along the stripping *)
Lemma strip_ind (P : string → Prop) :
  (∀ s, strip_ws s = None → P s) → (∀ s r, strip_ws s = Some r → P r → P s) → ∀ s, P s.
Proof.
  intros Hn Hs s. assert (∀ n s, (String.length s < n)%nat → P s) as H; [|by apply (H (S (String.length s)) s); lia].
  intros n. induction n as [|n IH]; [lia|]. intros t Ht. destruct (strip_ws t) as [r|] eqn:E; [|by apply Hn].
  apply (Hs t r E), IH. apply strip_ws_length in E. lia.
Qed.
Lemma strip_trim_start s : strip_ws (trim_start s) = None.
Proof. induction s using strip_ind; [by rewrite trim_start_none|by erewrite trim_start_step]. Qed.
Lemma trim_start_app s t : blank s = true → trim_start (s +:+ t) = trim_start t.
Proof.
  unfold blank. rewrite String.eqb_eq. induction s as [s H|s r H IH] using strip_ind.
  - rewrite trim_start_none by done. by intros ->.
  - rewrite (trim_start_step s r), (trim_start_step (s +:+ t) (r +:+ t)) by auto using strip_ws_app. done.
Qed.
Lemma trim_end_tail s : ∃ b, s = trim_end s +:+ b ∧ blank b = true.
Proof.
  induction s as [|c s (b&IH&Hb)]; [by exists ""|]. cbn [trim_end]. destruct (blank (String c s)) eqn:E.
  - by exists (String c s).
  - exists b. rewrite str_app_cons. split; [by f_equal|done].
Qed.
Lemma trim_end_idem s : trim_end (trim_end s) = trim_end s.
Proof.
  induction s as [|c s IH]; [done|]. cbn [trim_end]. destruct (blank (String c s)) eqn:E; [done|]. cbn [trim_end].
  destruct (blank (String c (trim_end s))) eqn:E'; [|by rewrite IH]. exfalso.
  destruct (trim_end_tail s) as (b&Hs&Hb). apply (trim_start_app _ b) in E'. rewrite str_app_cons, <- Hs in E'.
  unfold blank in E, Hb. by rewrite E', Hb in E.
Qed.
Lemma trim_start_trim_end s : strip_ws s = None → trim_start (trim_end s) = trim_end s.
Proof.
  intros H. apply trim_start_none. destruct (trim_end_tail s) as (b&Hs&_).
  destruct (strip_ws (trim_end s)) as [r|] eqn:E; [|done]. apply (strip_ws_app _ _ b) in E. rewrite <- Hs in E. congruence.
Qed.
Lemma js_trim_idem s : js_trim (js_trim s) = js_trim s.
Proof. unfold js_trim. rewrite trim_start_trim_end by apply strip_trim_start. apply trim_end_idem. Qed.
Lemma js_trim_space s : js_trim (" " +:+ s) = js_trim s.
Proof. unfold js_trim. by rewrite trim_start_app. Qed.
Lemma js_trim_forallb p s : str_forallb p s = true → str_forallb p (js_trim s) = true.
Proof.
  intros H. assert (str_forallb p (trim_start s) = true) as H1.
  - induction s as [s Hs|s r Hs IH] using strip_ind; [by rewrite trim_start_none|]. rewrite (trim_start_step s r Hs). apply IH.
    destruct s as [|a [|b [|c s]]]; simpl in Hs, H; repeat case_match; simplify_eq; b2p; by simpl; rewrite ?andb_true_iff.
  - unfold js_trim. destruct (trim_end_tail (trim_start s)) as (b&Hb&_). rewrite Hb, str_forallb_app in H1. by b2p.
Qed.


(** ** Insertion-ordered [Map] and [Set] *)

Module JMap.
Section JMap.
Context {V : Type}.
Implicit Types (m : list (string * V)) (k : string) (v : V).

Definition get m k : option V := snd <$> List.find (λ p, String.eqb (fst p) k) m.
Definition has m k : bool := match get m k with Some _ => true | None => false end.
(** [m.set(k, v)]: an existing key keeps its place *)
Fixpoint set m k v : list (string * V) :=
  match m with
  | [] => [(k, v)]
  | (k', v') :: m' => if String.eqb k' k then (k', v) :: m' else (k', v') :: set m' k v
  end.
Definition keys m : list string := map fst m.
Definition values m : list V := map snd m.
Definition delete m k : list (string * V) := List.filter (λ p, negb (String.eqb (fst p) k)) m.

Lemma get_nil k : get [] k = None.
Proof. done. Qed.
Lemma get_cons k' v' m k :
  get ((k', v') :: m) k = if String.eqb k' k then Some v' else get m k.
Proof. unfold get. simpl. by destruct (String.eqb k' k). Qed.

Lemma get_set m k v k' : get (set m k v) k' = if String.eqb k k' then Some v else get m k'.
Proof.
  induction m as [|[k1 v1] m IH]; simpl.
  - rewrite get_cons. done.
  - destruct (String.eqb k1 k) eqn:E; rewrite !get_cons.
    + apply String.eqb_eq in E as ->. by destruct (String.eqb k k').
    + rewrite IH. destruct (String.eqb k1 k') eqn:E1; [|done].
      apply String.eqb_eq in E1 as ->.
      by rewrite String.eqb_sym, E.
Qed.

Lemma get_In m k v : get m k = Some v → In (k, v) m.
Proof.
  induction m as [|[k' v'] m IH]; [done|]. rewrite get_cons.
  destruct (String.eqb k' k) eqn:E; [|naive_solver].
  apply String.eqb_eq in E as ->. intros [= ->]. by left.
Qed.
Lemma In_get m k v : List.NoDup (keys m) → In (k, v) m → get m k = Some v.
Proof.
  induction m as [|[k' v'] m IH]; [done|]. simpl. intros [Hn Hd]%NoDup_cons_iff [[= -> ->]|Hin];
    rewrite get_cons.
  - by rewrite String.eqb_refl.
  - destruct (String.eqb k' k) eqn:E; [|auto]. apply String.eqb_eq in E as ->.
    destruct Hn. apply in_map_iff. by exists (k, v).
Qed.
Lemma get_keys m k : is_Some (get m k) ↔ In k (keys m).
Proof.
  induction m as [|[k' v'] m IH]; simpl; [rewrite get_nil; split; [intros []%is_Some_None|done]|].
  rewrite get_cons. destruct (String.eqb k' k) eqn:E.
  - apply String.eqb_eq in E as ->. split; eauto.
  - apply String.eqb_neq in E. rewrite IH. split; [by right|]. by intros [?|?].
Qed.
Lemma has_keys m k : has m k = true ↔ In k (keys m).
Proof. rewrite <- get_keys. unfold has, is_Some. destruct (get m k); naive_solver. Qed.
Lemma has_false m k : has m k = false ↔ ¬ In k (keys m).
Proof. rewrite <- has_keys. destruct (has m k); naive_solver. Qed.

Lemma keys_set m k v :
  keys (set m k v) = if has m k then keys m else keys m ++ [k].
Proof.
  unfold has. induction m as [|[k' v'] m IH]; [done|]. rewrite get_cons. simpl.
  destruct (String.eqb k' k); [done|]. simpl. rewrite IH. by destruct (get m k).
Qed.
Lemma set_fresh m k v : has m k = false → set m k v = m ++ [(k, v)].
Proof.
  unfold has. induction m as [|[k' v'] m IH]; [done|]. rewrite get_cons. simpl.
  destruct (String.eqb k' k); [done|]. intros H. by rewrite IH.
Qed.
Lemma get_delete m k k' : k ≠ k' → get (delete m k) k' = get m k'.
Proof.
  intros Hne. unfold delete. induction m as [|[k1 v1] m IH]; [done|]. simpl. rewrite get_cons.
  destruct (String.eqb_spec k1 k) as [->|H]; simpl; [|by rewrite get_cons, IH].
  by rewrite (proj2 (String.eqb_neq k k')).
Qed.
Lemma delete_In m k p : In p (delete m k) → In p m ∧ fst p ≠ k.
Proof. unfold delete. intros [Hin Hk%negb_true_iff%String.eqb_neq]%filter_In. done. Qed.
Lemma set_In m k v p : In p (set m k v) → In p m ∨ p = (k, v).
Proof.
  induction m as [|[k' v'] m IH]; simpl; [intros [<-|[]]; auto|].
  destruct (String.eqb_spec k' k) as [->|]; simpl; [intros [<-|?]; auto|]. intros [<-|Hin]; [auto|]. destruct (IH Hin); auto.
Qed.
Lemma NoDup_keys_set m k v : List.NoDup (keys m) → List.NoDup (keys (set m k v)).
Proof.
  intros H. rewrite keys_set. destruct (has m k) eqn:E; [done|].
  apply has_false in E. apply List.NoDup_app; [done|constructor; [by intros []|constructor]|].
  intros x Hx [<-|[]]. done.
Qed.
End JMap.
End JMap.

(** [s.has(x) ? s : s.add(x)] on a [Set] of strings *)
Definition set_add (s : list string) (x : string) : list string :=
  if String_in x s then s else s ++ [x].

(** [[...new Set(l)]] *)
Definition dedup (l : list string) : list string := fold_left set_add l [].

Lemma set_add_In s x y : In y (set_add s x) ↔ In y s ∨ y = x.
Proof.
  unfold set_add. destruct (String_in x s) eqn:E; b2p.
  - naive_solver.
  - rewrite in_app_iff. simpl. naive_solver.
Qed.
Lemma set_add_NoDup s x : List.NoDup s → List.NoDup (set_add s x).
Proof.
  unfold set_add. intros H. destruct (String_in x s) eqn:E; b2p; [done|].
  apply List.NoDup_app; [done|constructor; [by intros []|constructor]|]. by intros ? ? [<-|[]].
Qed.
Lemma fold_set_add_In l s y : In y (fold_left set_add l s) ↔ In y s ∨ In y l.
Proof.
  revert s. induction l as [|x l IH]; intros s; simpl; [naive_solver|].
  rewrite IH, set_add_In. naive_solver.
Qed.
Lemma dedup_In l y : In y (dedup l) ↔ In y l.
Proof. unfold dedup. rewrite fold_set_add_In. simpl. naive_solver. Qed.
Lemma dedup_NoDup l : List.NoDup (dedup l).
Proof.
  unfold dedup. assert (List.NoDup (@nil string)) as H by constructor. revert H.
  generalize (@nil string) as s. induction l as [|x l IH]; intros s H; simpl; [done|].
  by apply IH, set_add_NoDup.
Qed.
Lemma dedup_nil l : dedup l = [] ↔ l = [].
Proof.
  split; [|by intros ->]. intros H. destruct l as [|x l]; [done|].
  assert (In x (dedup (x :: l))) as Hx by (apply dedup_In; by left). by rewrite H in Hx.
Qed.

Lemma fold_set_add_length l s :
  length (fold_left set_add l s) = (length s + length l)%nat →
  List.NoDup l ∧ ∀ x, In x l → ¬ In x s.
Proof.
  revert s. induction l as [|x l IH]; intros s H; simpl in *; [split; [constructor|done]|].
  assert (∀ l s, (length (fold_left set_add l s) <= length s + length l)%nat) as Hle.
  { clear. induction l as [|x l IH]; intros s; simpl; [lia|]. specialize (IH (set_add s x)).
    assert (length (set_add s x) <= S (length s))%nat; [|lia].
    unfold set_add. destruct (String_in x s); rewrite ?length_app; simpl; lia. }
  destruct (String_in x s) eqn:E.
  - assert (set_add s x = s) as Hs by (unfold set_add; by rewrite E).
    rewrite Hs in H. specialize (Hle l s). lia.
  - assert (set_add s x = s ++ [x]) as Hs by (unfold set_add; by rewrite E).
    rewrite Hs in H. b2p. assert (length (fold_left set_add l (s ++ [x])) = length (s ++ [x]) + length l)%nat as Hl
      by (rewrite length_app; simpl; lia).
    apply IH in Hl as [Hnd Hdis]. split.
    + constructor; [|done]. intros Hx. apply (Hdis _ Hx). apply in_app_iff. right; by left.
    + intros y [<-|Hy]; [done|]. intros ?. apply (Hdis _ Hy). apply in_app_iff. by left.
Qed.

(** [new Set(l).size === l.length]: the elements are distinct. *)
Lemma dedup_length l : length (dedup l) = length l ↔ List.NoDup l.
Proof.
  split.
  - intros H. by apply (fold_set_add_length l []).
  - intros H. apply Nat.le_antisymm; apply NoDup_incl_length;
      [apply dedup_NoDup| |done|]; intros x; by rewrite dedup_In.
Qed.
