(* ===== verification/DraftSession.v ===== *)
(** * One draft per editor
    ([apps/console/src/app/journeys/journey-persistence.ts])

    [createJourneyDraftSession] keeps the id of the editor's draft and runs the
    saves and validations the user asks for one after the other: the promise
    chain [pending] is the queue [waiting], and the operation under way is at
    one of its two requests.  The requests go to the API of [JourneyApi]; an
    answer arrives whenever the network delivers it, so a session is a sequence
    of events: the user asks, the next operation starts, an answer arrives.
    An input is snapshotted when it is asked for ([structuredClone]). *)

From S2P Require Import Prelude JsVal.

#[global] Open Scope Z_scope.

Record JourneyDraftInput := mkDraft { df_name : string; df_definition : jsval }.

(** [client.create], [client.update], [client.validate] *)
Inductive ClientCall :=
| CallCreate (input : JourneyDraftInput)
| CallUpdate (id : string) (input : JourneyDraftInput)
| CallValidate (id : string).
(** What comes back: a draft with its id and revision, the revision of an
    update, a validation with the revision it read, or an error *)
Inductive Answer :=
| Created (id revision : string)
| Updated (revision : string)
| Validated (revision : string) (validation : jsval)
| Refused.

Inductive Operation := Save (input : JourneyDraftInput) | Validate (input : JourneyDraftInput).
Definition input_of (o : Operation) : JourneyDraftInput := match o with Save i | Validate i => i end.

Inductive Outcome :=
| SavedAs (id : string)
| ValidatedAs (id : string) (validation : jsval)
| Failed
| RevisionMismatch.

(** The operation under way waits for its [persist] request, or with the
    saved id and revision for its [client.validate]. *)
Inductive Stage := Persisting | Validating (id revision : string).

Record Session := mkSession {
  savedId : option string;
  running : option (nat * Operation * Stage);
  waiting : list (nat * Operation);
  settled : list (nat * Outcome);
  asked : nat;                         (** operations asked for so far *)
  sent : list ClientCall }.            (** requests made so far *)

Definition createJourneyDraftSession (initialId : option string) : Session := mkSession initialId None [] [] 0 [].

(** the request [persist(input)] makes *)
Definition persist (saved : option string) (input : JourneyDraftInput) : ClientCall :=
  match saved with
  | Some id => if String.eqb id "" then CallCreate input else CallUpdate id input
  | None => CallCreate input
  end.

(** [enqueue(operation)] *)
Definition enqueue (o : Operation) (s : Session) : Session :=
  mkSession (savedId s) (running s) (waiting s ++ [(asked s, o)]) (settled s) (S (asked s)) (sent s).

(** the next operation of the chain starts when the one before has settled *)
Definition start (s : Session) : Session :=
  match running s, waiting s with
  | None, (n, o) :: rest =>
      mkSession (savedId s) (Some (n, o, Persisting)) rest (settled s) (asked s) (sent s ++ [persist (savedId s) (input_of o)])
  | _, _ => s
  end.

Definition settle (n : nat) (r : Outcome) (saved : option string) (s : Session) : Session :=
  mkSession saved None (waiting s) (settled s ++ [(n, r)]) (asked s) (sent s).

(** after [persist]: [save] is done, [validate] asks for the validation *)
Definition persisted (n : nat) (o : Operation) (id revision : string) (s : Session) : Session :=
  match o with
  | Save _ => settle n (SavedAs id) (Some id) s
  | Validate _ =>
      mkSession (Some id) (Some (n, o, Validating id revision)) (waiting s) (settled s) (asked s) (sent s ++ [CallValidate id])
  end.

(** the answer to the request under way *)
Definition answer (a : Answer) (s : Session) : Session :=
  match running s with
  | None => s
  | Some (n, o, Persisting) =>
      match persist (savedId s) (input_of o), a with
      | CallCreate _, Created id revision => persisted n o id revision s
      | CallUpdate id _, Updated revision => persisted n o id revision s
      | _, _ => settle n Failed (savedId s) s
      end
  | Some (n, o, Validating id revision) =>
      match a with
      | Validated revision' v =>
          if String.eqb revision "" || negb (String.eqb revision revision') then settle n RevisionMismatch (savedId s) s
          else settle n (ValidatedAs id v) (savedId s) s
      | _ => settle n Failed (savedId s) s
      end
  end.

Inductive Event := Asked (o : Operation) | Started | Answered (a : Answer).
Definition step (s : Session) (e : Event) : Session :=
  match e with Asked o => enqueue o s | Started => start s | Answered a => answer a s end.
Definition session (initialId : option string) (events : list Event) : Session :=
  fold_left step events (createJourneyDraftSession initialId).

(** ** One draft per editor: the session refines a sequence of saves

    However the user's clicks, the starts of operations and the network's
    answers interleave, the session does what a loop over the operations in
    the order they were asked for would do with the same answers. *)
(** ** The specification: one operation after the other *)

Definition validated (id revision : string) (a : Answer) : Outcome :=
  match a with
  | Validated revision' v =>
      if String.eqb revision "" || negb (String.eqb revision revision') then RevisionMismatch else ValidatedAs id v
  | _ => Failed
  end.
(** the draft's id and revision, when the save succeeds *)
Definition save_result (saved : option string) (input : JourneyDraftInput) (a : Answer) : option (string * string) :=
  match persist saved input, a with
  | CallCreate _, Created id revision => Some (id, revision)
  | CallUpdate id _, Updated revision => Some (id, revision)
  | _, _ => None
  end.
Fixpoint sequential (saved : option string) (ops : list Operation) (answers : list Answer) : list Outcome :=
  match ops, answers with
  | o :: ops, a :: answers =>
      match save_result saved (input_of o) a with
      | None => Failed :: sequential saved ops answers
      | Some (id, revision) =>
          match o with
          | Save _ => SavedAs id :: sequential (Some id) ops answers
          | Validate _ =>
              match answers with
              | b :: answers => validated id revision b :: sequential (Some id) ops answers
              | [] => []
              end
          end
      end
  | _, _ => []
  end.

Definition operations (events : list Event) : list Operation := omap (λ e, match e with Asked o => Some o | _ => None end) events.
(** the answers that found a request open *)
Fixpoint accepted (s : Session) (events : list Event) : list Answer :=
  match events with
  | [] => []
  | e :: events =>
      match e, running s with
      | Answered a, Some _ => a :: accepted (step s e) events
      | _, _ => accepted (step s e) events
      end
  end.

(** ** Refinement *)

Definition remaining (r : option (nat * Operation * Stage)) (saved : option string) (ops : list Operation)
    (answers : list Answer) : list Outcome :=
  match r with
  | None => sequential saved ops answers
  | Some (_, o, Persisting) => sequential saved (o :: ops) answers
  | Some (_, _, Validating id revision) =>
      match answers with a :: answers => validated id revision a :: sequential saved ops answers | [] => [] end
  end.

Lemma step_answer n o st s a : running s = Some (n, o, st) →
  ∀ ops answers,
    map snd (settled s) ++ remaining (running s) (savedId s) ops (a :: answers)
    = map snd (settled (answer a s)) ++ remaining (running (answer a s)) (savedId (answer a s)) ops answers.
Proof.
  intros Hr ops answers. unfold answer. rewrite Hr. cbn [remaining].
  destruct st as [|id revision]; cbn [sequential].
  - unfold save_result. destruct (persist (savedId s) (input_of o)) as [i|id i|id], a;
      try (cbn [settle settled running savedId remaining]; by rewrite map_app, <- app_assoc).
    all: unfold persisted; destruct o; cbn [settle settled running savedId remaining]; try (by rewrite map_app, <- app_assoc); done.
  - unfold validated. destruct a; try (cbn [settle settled running savedId remaining]; by rewrite map_app, <- app_assoc).
    destruct (_ || _); cbn [settle settled running savedId remaining]; by rewrite map_app, <- app_assoc.
Qed.

Lemma step_waiting s a : waiting (answer a s) = waiting s.
Proof.
  unfold answer. destruct (running s) as [[[n o] [|id revision]]|]; [| |done].
  - destruct (persist _ _), a; try done; unfold persisted; by destruct o.
  - destruct a; try done. by destruct (_ || _).
Qed.

Lemma refines events : ∀ s,
  map snd (settled (fold_left step events s))
  = map snd (settled s) ++ remaining (running s) (savedId s) (map snd (waiting s) ++ operations events) (accepted s events).
Proof.
  induction events as [|e events IH]; intros s.
  - cbn [fold_left operations omap list_omap accepted].
    destruct (running s) as [[[n o] [|id revision]]|]; cbn [remaining sequential];
      [| |destruct (map snd (waiting s) ++ [])]; by rewrite app_nil_r.
  - cbn [fold_left]. rewrite IH. destruct e as [o| |a]; cbn [accepted step].
    + cbn [enqueue settled running savedId waiting]. rewrite map_app. cbn [map snd]. rewrite <- app_assoc.
      change (operations (Asked o :: events)) with (o :: operations events). by destruct (running s).
    + change (operations (Started :: events)) with (operations events).
      unfold start. destruct (running s) as [r|] eqn:Er; [by rewrite Er|]. destruct (waiting s) as [|[n o] rest] eqn:Ew; [by rewrite Er, Ew|].
      reflexivity.
    + change (operations (Answered a :: events)) with (operations events). rewrite step_waiting.
      destruct (running s) as [[[n o] st]|] eqn:Er.
      * rewrite <- Er. symmetry. by eapply step_answer.
      * assert (answer a s = s) as -> by (unfold answer; by rewrite Er). by rewrite Er.
Qed.

(** ** Order, and one draft *)

Definition in_flight (s : Session) : list nat := match running s with Some (n, _, _) => [n] | None => [] end.
Definition ordered (s : Session) : Prop := map fst (settled s) ++ in_flight s ++ map fst (waiting s) = seq 0 (asked s).

Lemma ordered_answer a s : ordered s → ordered (answer a s).
Proof.
  unfold ordered. intros Ho. rewrite step_waiting.
  assert (asked (answer a s) = asked s ∧ map fst (settled (answer a s)) ++ in_flight (answer a s) = map fst (settled s) ++ in_flight s)
    as [-> Heq]; [|by rewrite app_assoc, Heq, <- app_assoc].
  unfold answer, in_flight. destruct (running s) as [[[n o] [|id revision]]|] eqn:Er; [| |by rewrite Er].
  - destruct (persist _ _), a; try (split; [done|]; cbn [settle settled running]; by rewrite map_app, app_nil_r).
    all: unfold persisted; destruct o; split; try done; cbn [settle settled running]; by rewrite map_app, app_nil_r.
  - destruct a; try (split; [done|]; cbn [settle settled running]; by rewrite map_app, app_nil_r).
    destruct (_ || _); split; try done; cbn [settle settled running]; by rewrite map_app, app_nil_r.
Qed.
Lemma ordered_step e s : ordered s → ordered (step s e).
Proof.
  intros Ho. destruct e as [o| |a]; cbn [step]; [| |by apply ordered_answer]; unfold ordered in *.
  - unfold enqueue, in_flight in *. cbn [settled running waiting asked]. rewrite map_app, !app_assoc, <- (app_assoc (map fst _)), Ho.
    by rewrite seq_S.
  - unfold start, in_flight in *. destruct (running s) eqn:Er; [by rewrite Er|].
    destruct (waiting s) as [|[n o] rest] eqn:Ew; [by rewrite Er, Ew|exact Ho].
Qed.

(** a request on the draft [id] *)
Definition on_draft (id : string) (c : ClientCall) : Prop :=
  match c with CallCreate _ => False | CallUpdate id' _ | CallValidate id' => id' = id end.
Lemma keeps_draft id e s : savedId s = Some id → id ≠ "" →
  savedId (step s e) = Some id ∧ ∃ l, sent (step s e) = sent s ++ l ∧ Forall (on_draft id) l.
Proof.
  intros Hid Hne. assert (∀ i, persist (Some id) i = CallUpdate id i) as Hp by (intros i; unfold persist; by rewrite (proj2 (String.eqb_neq _ _) Hne)).
  assert (∃ l, sent s = sent s ++ l ∧ Forall (on_draft id) l) as Hnil by (exists []; by rewrite app_nil_r).
  destruct e as [o| |a]; cbn [step].
  - done.
  - unfold start. destruct (running s); [done|]. destruct (waiting s) as [|[n o] rest]; [done|]. cbn [savedId sent]. split; [done|].
    rewrite Hid, Hp. eexists. split; [reflexivity|]. by repeat constructor.
  - unfold answer. destruct (running s) as [[[n o] [|id1 revision]]|]; [| |done].
    + rewrite Hid, Hp. destruct a; try done. unfold persisted. destruct o; cbn [settle savedId sent]; [done|]. split; [done|].
      eexists. split; [reflexivity|]. by repeat constructor.
    + destruct a; try done. by destruct (_ || _).
Qed.
Lemma keeps_draft_run id events s : savedId s = Some id → id ≠ "" →
  savedId (fold_left step events s) = Some id ∧ ∃ l, sent (fold_left step events s) = sent s ++ l ∧ Forall (on_draft id) l.
Proof.
  intros Hid Hne. revert s Hid. induction events as [|e events IH]; intros s Hid; [split; [done|]; exists []; by rewrite app_nil_r|].
  destruct (keeps_draft id e s Hid Hne) as (Hid'&l&Hl&Hf). destruct (IH _ Hid') as (?&l'&Hl'&Hf'). split; [done|].
  exists (l ++ l'). cbn [fold_left]. rewrite Hl', Hl, app_assoc. split; [done|]. by apply Forall_app.
Qed.

(** ** The property *)

(** C35. An editor has one draft, saved in the order the user asked.  However clicks,
    starts and answers interleave: every operation is settled at most once, in
    the order it was asked for, with the outcome a loop over the operations
    would have had with the same answers (a failed one does not stop the next);
    and once a draft has an id, no request creates another: all that follow update
    or validate that draft. *)
Theorem one_draft_in_order initialId before after :
  let s := session initialId before in let s' := session initialId (before ++ after) in
  map fst (settled s') ++ in_flight s' ++ map fst (waiting s') = seq 0 (asked s')
  ∧ map snd (settled s') = sequential initialId (operations (before ++ after)) (accepted (createJourneyDraftSession initialId) (before ++ after))
  ∧ ∀ id, savedId s = Some id → id ≠ "" →
      savedId s' = Some id ∧ ∃ l, sent s' = sent s ++ l ∧ Forall (on_draft id) l.
Proof.
  split; [|split].
  - unfold session. generalize (before ++ after). intros events.
    assert (ordered (createJourneyDraftSession initialId)) as Ho by done. revert Ho. generalize (createJourneyDraftSession initialId).
    induction events as [|e events IH]; intros s Ho; [exact Ho|]. apply IH. by apply ordered_step.
  - unfold session. by rewrite refines.
  - intros id Hid Hne. unfold session. rewrite fold_left_app. by apply keeps_draft_run.
Qed.

(** Two clicks before the first answer make one draft, created and then updated. *)
Definition typed : JourneyDraftInput := mkDraft "Welcome" JNull.
Definition retyped : JourneyDraftInput := mkDraft "Welcome!" JNull.
Definition clicks : list Event :=
  [Asked (Save typed); Started; Asked (Validate retyped); Answered (Created "j1" "r1"); Started;
   Answered (Updated "r2"); Answered (Validated "r2" JNull)].
Lemma one_draft_in_order_witness :
  sent (session None clicks) = [CallCreate typed; CallUpdate "j1" retyped; CallValidate "j1"]
  ∧ map snd (settled (session None clicks)) = [SavedAs "j1"; ValidatedAs "j1" JNull]
  ∧ savedId (session None clicks) = Some "j1".
Proof.
  destruct (one_draft_in_order None (take 4 clicks) (drop 4 clicks)) as (_&Hr&Hd).
  destruct (Hd "j1" eq_refl ltac:(discriminate)) as [Hid _]. split; [reflexivity|]. split; [exact Hr|exact Hid].
Defined.
