(* ===== verification/SegmentDsl.v ===== *)
(** * Segment DSL compiler ([packages/segment-dsl/src/index.ts])

    A segment definition is compiled to a parameterised ClickHouse query: the
    SQL text is assembled from fixed fragments, every value of the definition
    is pushed on a parameter list and leaves a [?] in the text, and
    [toClickHouse] then turns the positional [?]s into named parameters.

    The DSL is read back from a JSONB column, so operators, keys and versions
    are kept as the run-time values the code checks, not as the enumerations
    the TypeScript types promise.  A property that is missing from the object
    is [JUndef] (values) or [""] (strings the code tests with [!x]). *)

From Stdlib Require Import Ascii QArith.
From stdpp Require Import pretty.
From S2P Require Import Prelude JsVal.

#[global] Open Scope Z_scope.

(** ** The DSL *)

Inductive Category := marketing | transactional.

Record AttributeCondition := mkAttribute {
  ac_key : string; ac_op : string; ac_value : jsval }.
Record EventCondition := mkEvent {
  ec_event : string; ec_op : string; ec_value : jsval; ec_window_days : jsval }.
Record ChannelCondition := mkChannel { cc_op : string; cc_value : jsval }.
Record DeviceCondition := mkDevice { dc_key : string; dc_op : string; dc_value : jsval }.

Inductive Condition :=
| CAttribute (c : AttributeCondition)
| CEvent (c : EventCondition)
| CChannel (c : ChannelCondition)
| CDevice (c : DeviceCondition)
| CUnknown (type : string).

Record SegmentGroup := mkGroup { sg_operator : string; sg_conditions : list Condition }.
Record SegmentDSL := mkDSL {
  dsl_version : jsval; dsl_operator : string; dsl_groups : list SegmentGroup }.

Record Compiled := mkCompiled { sql : string; args : list jsval }.
Record ClickHouseQuery := mkQuery {
  query : string; query_params : list (string * jsval) }.

(** One constructor per [throw new CompileError(...)]. *)
Inductive CompileError :=
| EPlaceholders (found expected : nat)
| EVersion (v : jsval)
| ERootOperator (op : string)
| EGroupOperator (op : string)
| EEmptyGroup
| EConditionType
| ENoKey
| EAttributeOp
| EPlatformValue (v : jsval)
| EChannelOp (op : string)
| EDeviceColumn (key : string)
| EDeviceOp (op : string)
| EDeviceUnsupported (key : string)
| ENoEvent
| EWindowRequired (op : string)
| EEventOp
| EValueShape (v : jsval)
| ENotArray
| EArrayElement
| ENotNumber.

(** ** White lists *)

Definition STD_ATTR_KEYS : list string :=
  ["external_id"; "first_name"; "last_name"; "email"; "phone"; "language"; "country";
   "timezone"; "created_at"; "last_seen_at"; "dob"; "gender"; "home_city"].

Definition CMP_OPS (op : string) : option string :=
  if String.eqb op "eq" then Some "="
  else if String.eqb op "neq" then Some "!="
  else if String.eqb op "gt" then Some ">"
  else if String.eqb op "gte" then Some ">="
  else if String.eqb op "lt" then Some "<"
  else if String.eqb op "lte" then Some "<="
  else None.

(** [op in CMP_OPS]: own properties, and those inherited from [Object.prototype] *)
Definition in_CMP_OPS (op : string) : bool :=
  match CMP_OPS op with
  | Some _ => true
  | None => String_in op
      ["constructor"; "__defineGetter__"; "__defineSetter__"; "hasOwnProperty";
       "__lookupGetter__"; "__lookupSetter__"; "isPrototypeOf"; "propertyIsEnumerable";
       "toString"; "valueOf"; "__proto__"; "toLocaleString"]
  end.

Definition DEVICE_COLS : list string := ["app_version"; "os_version"].
Definition PLATFORM_VALUES : list string := ["ios"; "android"].
Definition PROMOTED : list string := ["dob"; "gender"; "home_city"].

(** ** The compiler's monad: the shared [Params] and [CompileError] *)

Inductive cres (A : Type) :=
| COk (a : A) (p : list jsval)
| CErr (e : CompileError).
Arguments COk {A} _ _.
Arguments CErr {A} _.

Definition C (A : Type) : Type := list jsval → cres A.

#[global] Instance C_ret : MRet C := λ A a p, COk a p.
#[global] Instance C_bind : MBind C := λ A B f m p,
  match m p with
  | COk a p' => f a p'
  | CErr e => CErr e
  end.

Definition cthrow {A} (e : CompileError) : C A := λ _, CErr e.
Definition cwhen (c : bool) (e : CompileError) : C unit :=
  if c then cthrow e else mret tt.

(** [Params.add] *)
Definition add (v : jsval) : C string := λ p, COk "?" (p ++ [v]).

(** [l.map(f)], left to right *)
Fixpoint cmap {A B} (f : A → C B) (l : list A) : C (list B) :=
  match l with
  | [] => mret []
  | x :: l' => y ← f x; ys ← cmap f l'; mret (y :: ys)
  end.

Section Compiler.
(** Decimal text of a number that is not an integer below [1e21]. *)
Context (fmt : Q → string).

(** ** Values *)

Definition scalar (value : jsval) : C (jsval * bool) :=
  match value with
  | JStr s => mret (JStr s, false)
  | JNum n => mret (JNum n, true)
  | JBool b => mret (JStr (if b then "true" else "false"), false)
  | v => cthrow (EValueShape v)
  end.

Definition arrayElement (v : jsval) : C string :=
  match v with
  | JStr s => mret s
  | JNum n => mret (num_to_string fmt n)
  | JBool b => mret (if b then "true" else "false")
  | _ => cthrow EArrayElement
  end.

Definition arrayValues (value : jsval) : C (list string) :=
  match value with
  | JArr l => cmap arrayElement l
  | _ => cthrow ENotArray
  end.

Definition intValue (value : jsval) : C jsval :=
  match value with
  | JNum n => mret (JNum (Math_trunc n))
  | _ => cthrow ENotNumber
  end.

(** ** Conditions *)

Definition jsonExtract (key fn : string) : C string :=
  if String_in key PROMOTED then
    a ← add (JStr key); b ← add (JStr key); c ← add (JStr key);
    mret ("if(JSONHas(std_attrs, " +:+ a +:+ "), " +:+ fn +:+ "(std_attrs, " +:+ b +:+ "), "
            +:+ fn +:+ "(custom_attrs, " +:+ c +:+ "))")
  else
    a ← add (JStr key);
    mret (fn +:+ "(" +:+ (if String_in key STD_ATTR_KEYS then "std_attrs" else "custom_attrs")
            +:+ ", " +:+ a +:+ ")").

Definition compileAttribute (c : AttributeCondition) : C string :=
  let extract := jsonExtract (ac_key c) "JSONExtractString" in
  let extractRaw := jsonExtract (ac_key c) "JSONExtractRaw" in
  _ ← cwhen (String.eqb (ac_key c) "") ENoKey;
  if String.eqb (ac_op c) "exists" then
    e ← extractRaw; mret (e +:+ " != ''")
  else if String.eqb (ac_op c) "not_exists" then
    e ← extractRaw; mret (e +:+ " = ''")
  else match CMP_OPS (ac_op c) with
  | Some op =>
      vn ← scalar (ac_value c);
      if snd vn : bool then
        e ← extract; a ← add (fst vn);
        mret ("toFloat64OrNull(" +:+ e +:+ ") " +:+ op +:+ " " +:+ a)
      else
        e ← extract; a ← add (fst vn);
        mret (e +:+ " " +:+ op +:+ " " +:+ a)
  | None =>
  if String.eqb (ac_op c) "in" then
    vals ← arrayValues (ac_value c);
    match vals with
    | [] => mret "0"
    | _ =>
        e ← extract; ps ← cmap (λ v, add (JStr v)) vals;
        mret (e +:+ " IN (" +:+ join ", " ps +:+ ")")
    end
  else if String.eqb (ac_op c) "contains" then
    vn ← scalar (ac_value c);
    e ← extractRaw; a ← add (fst vn);
    mret ("has(JSONExtract(" +:+ e +:+ ", 'Array(String)'), " +:+ a +:+ ")")
  else if String_in (ac_op c) ["in_last_days"; "not_in_last_days"] then
    days ← intValue (ac_value c);
    e ← extract; a ← add days;
    mret ("parseDateTimeBestEffortOrNull(" +:+ e +:+ ") "
            +:+ (if String.eqb (ac_op c) "not_in_last_days" then "<" else ">=")
            +:+ " now() - INTERVAL " +:+ a +:+ " DAY")
  else if String_in (ac_op c) ["before"; "after"] then
    vn ← scalar (ac_value c);
    e ← extract; a ← add (fst vn);
    mret ("parseDateTimeBestEffortOrNull(" +:+ e +:+ ") "
            +:+ (if String.eqb (ac_op c) "after" then ">" else "<")
            +:+ " parseDateTimeBestEffortOrNull(" +:+ a +:+ ")")
  else cthrow EAttributeOp
  end.

(** One placeholder of [token_platform_in]. *)
Definition platformPlaceholder (v : string) : C string :=
  _ ← cwhen (negb (String_in v PLATFORM_VALUES)) (EPlatformValue (JStr v));
  add (JStr v).

Definition compileChannel (c : ChannelCondition) (category : Category) : C string :=
  if String.eqb (cc_op c) "push_reachable" then
    mret (match category with
          | transactional => "(os_permission_granted = 1 AND token_active = 1)"
          | marketing => "(push_opt_in = 1 AND os_permission_granted = 1 AND token_active = 1)"
          end)
  else if String.eqb (cc_op c) "token_platform_in" then
    vals ← arrayValues (cc_value c);
    match vals with
    | [] => mret "0"
    | _ =>
        ps ← cmap platformPlaceholder vals;
        mret ("arrayExists(x -> x IN (" +:+ join ", " ps +:+ "), platforms)")
    end
  else cthrow (EChannelOp (cc_op c)).

Definition compileDevice (c : DeviceCondition) : C string :=
  _ ← cwhen (negb (String_in (dc_key c) DEVICE_COLS)) (EDeviceColumn (dc_key c));
  _ ← cwhen (negb (in_CMP_OPS (dc_op c))) (EDeviceOp (dc_op c));
  cthrow (EDeviceUnsupported (dc_key c)).

(** [base(applyWindow)] of [compileEvent] *)
Definition eventBase (c : EventCondition) (tenantId appId : string) (applyWindow : bool)
    : C string :=
  a ← add (JStr tenantId); b ← add (JStr appId);
  let mergeMap := "(SELECT from_user_id, argMax(to_user_id, merged_at) AS to_user_id FROM user_merges WHERE tenant_id = toUUID("
    +:+ a +:+ ") AND app_id = toUUID(" +:+ b +:+ ") GROUP BY from_user_id)" in
  d ← add (JStr tenantId); e ← add (JStr appId); f ← add (JStr (ec_event c));
  let query := "SELECT if(m.to_user_id = toUUID('00000000-0000-0000-0000-000000000000'), e.user_id, m.to_user_id) AS user_id FROM events e LEFT JOIN "
    +:+ mergeMap +:+ " m ON e.user_id = m.from_user_id WHERE e.tenant_id = toUUID("
    +:+ d +:+ ") AND e.app_id = toUUID(" +:+ e +:+ ") AND e.event_name = " +:+ f in
  if applyWindow && negb (is_nullish (ec_window_days c)) then
    g ← add (ec_window_days c);
    mret (query +:+ " AND e.server_ts >= now() - INTERVAL " +:+ g +:+ " DAY")
  else mret query.

Definition compileEvent (c : EventCondition) (tenantId appId : string) : C string :=
  let base := eventBase c tenantId appId in
  _ ← cwhen (String.eqb (ec_event c) "") ENoEvent;
  if String.eqb (ec_op c) "performed" then
    q ← base true; mret ("user_id IN (" +:+ q +:+ " GROUP BY user_id)")
  else if String.eqb (ec_op c) "not_performed" then
    q ← base true; mret ("user_id NOT IN (" +:+ q +:+ " GROUP BY user_id)")
  else if String_in (ec_op c) ["count_gte"; "count_lte"] then
    n ← intValue (ec_value c);
    q ← base true; a ← add n;
    mret ("user_id IN (" +:+ q +:+ " GROUP BY user_id HAVING uniqExact(insert_id) "
            +:+ (if String.eqb (ec_op c) "count_lte" then "<=" else ">=") +:+ " " +:+ a +:+ ")")
  else if String_in (ec_op c) ["first_performed"; "last_performed"] then
    _ ← cwhen (is_nullish (ec_window_days c)) (EWindowRequired (ec_op c));
    q ← base false; a ← add (ec_window_days c);
    mret ("user_id IN (" +:+ q +:+ " GROUP BY user_id HAVING "
            +:+ (if String.eqb (ec_op c) "last_performed" then "max" else "min")
            +:+ "(e.server_ts) >= now() - INTERVAL " +:+ a +:+ " DAY)")
  else cthrow EEventOp.

Definition compileCondition (tenantId appId : string) (category : Category) (c : Condition)
    : C string :=
  match c with
  | CAttribute c => compileAttribute c
  | CChannel c => compileChannel c category
  | CDevice c => compileDevice c
  | CEvent c => compileEvent c tenantId appId
  | CUnknown _ => cthrow EConditionType
  end.

(** ** Groups and the whole definition *)

Definition AND_OR : list string := ["AND"; "OR"].

Definition compileGroup (tenantId appId : string) (category : Category) (g : SegmentGroup)
    : C string :=
  _ ← cwhen (negb (String_in (sg_operator g) AND_OR)) (EGroupOperator (sg_operator g));
  _ ← cwhen (Nat.eqb (length (sg_conditions g)) 0) EEmptyGroup;
  parts ← cmap (compileCondition tenantId appId category) (sg_conditions g);
  mret ("(" +:+ join (" " +:+ sg_operator g +:+ " ") parts +:+ ")").

(** [dsl.version !== 1] *)
Definition version_ok (v : jsval) : bool :=
  match v with JNum n => num_eqb n (NInt 1) | _ => false end.

Definition compile_in (dsl : SegmentDSL) (tenantId appId : string) (category : Category)
    : C string :=
  _ ← cwhen (negb (version_ok (dsl_version dsl))) (EVersion (dsl_version dsl));
  _ ← cwhen (negb (String_in (dsl_operator dsl) AND_OR)) (ERootOperator (dsl_operator dsl));
  a ← add (JStr tenantId);
  b ← add (JStr appId);
  let where_ := ["tenant_id = toUUID(" +:+ a +:+ ")"; "app_id = toUUID(" +:+ b +:+ ")";
                 "status = 'active'"] in
  where_ ←
    (if Nat.ltb 0 (length (dsl_groups dsl)) then
       groups ← cmap (compileGroup tenantId appId category) (dsl_groups dsl);
       mret (where_ ++ ["(" +:+ join (" " +:+ dsl_operator dsl +:+ " ") groups +:+ ")"])
     else mret where_);
  mret ("SELECT user_id FROM profiles_mirror FINAL WHERE " +:+ join " AND " where_).

Definition compile (dsl : SegmentDSL) (tenantId appId : string) (category : Category)
    : Compiled + CompileError :=
  match compile_in dsl tenantId appId category [] with
  | COk s p => inl (mkCompiled s p)
  | CErr e => inr e
  end.
End Compiler.

(** ** Named parameters *)

Definition ch_type (v : jsval) : string :=
  match v with
  | JNum n => if Number_isInteger n then "Int64" else "Float64"
  | _ => "String"
  end.
Definition ch_name (i : nat) : string := "p" +:+ pretty (Z.of_nat i).

(** [compiled.sql.replace(/\?/g, ...)] with the counter [i] *)
Fixpoint ch_replace (args : list jsval) (s : string) (i : nat)
    : string * list (string * jsval) * nat :=
  match s with
  | EmptyString => (EmptyString, [], i)
  | String c s' =>
      if Ascii.eqb c "?"%char then
        let value := default JUndef (args !! i) in
        let '(q, ps, n) := ch_replace args s' (S i) in
        ("{" +:+ ch_name i +:+ ":" +:+ ch_type value +:+ "}" +:+ q, (ch_name i, value) :: ps, n)
      else
        let '(q, ps, n) := ch_replace args s' i in (String c q, ps, n)
  end.

Definition toClickHouse (c : Compiled) : ClickHouseQuery + CompileError :=
  let '(q, ps, i) := ch_replace (args c) (sql c) 0 in
  if Nat.eqb i (length (args c)) then inl (mkQuery q ps)
  else inr (EPlaceholders i (length (args c))).

(** * Facts *)

(** ** Lexical structure of a SQL fragment

    [scan s d q] reads [s] with [d] parentheses open, inside a quoted literal
    when [q]; it fails when a parenthesis closes that was not opened.  A
    fragment is [closed] when it leaves the context as it found it, whatever
    the context. *)
Fixpoint scan (s : string) (d : nat) (q : bool) : option (nat * bool) :=
  match s with
  | EmptyString => Some (d, q)
  | String c s' =>
      if Ascii.eqb c "'"%char then scan s' d (negb q)
      else if q then scan s' d q
      else if Ascii.eqb c "("%char then scan s' (S d) q
      else if Ascii.eqb c ")"%char then
        match d with O => None | S d' => scan s' d' q end
      else scan s' d q
  end.
Definition closed (s : string) : Prop := ∀ d, scan s d false = Some (d, false).

Definition placeholders (s : string) : nat := str_count "?" s.

Lemma scan_app s t d q :
  scan (s +:+ t) d q = match scan s d q with Some (d', q') => scan t d' q' | None => None end.
Proof.
  revert d q. induction s as [|c s IH]; intros d q; [done|].
  rewrite str_app_cons. simpl. destruct (Ascii.eqb c "'"); [done|].
  destruct q; [done|]. destruct (Ascii.eqb c "("); [done|].
  destruct (Ascii.eqb c ")"); [destruct d|]; done.
Qed.

Lemma placeholders_app s t : placeholders (s +:+ t) = (placeholders s + placeholders t)%nat.
Proof. apply str_count_app. Qed.

Lemma closed_empty : closed "".
Proof. done. Qed.
Lemma closed_app s t : closed s → closed t → closed (s +:+ t).
Proof. intros Hs Ht d. by rewrite scan_app, Hs, Ht. Qed.

Lemma closed_join sep l : closed sep → Forall closed l → closed (join sep l).
Proof.
  intros Hsep. induction l as [|x [|y l] IH]; [done|by inversion 1|].
  intros Hl. inversion Hl as [|? ? Hx Hrest]; subst. rewrite join_cons.
  auto using closed_app.
Qed.

Lemma placeholders_join sep l :
  placeholders sep = 0%nat → placeholders (join sep l) = sum_list (map placeholders l).
Proof.
  intros Hsep. induction l as [|x [|y l] IH]; [done|simpl; lia|].
  rewrite join_cons, !placeholders_app, IH, Hsep. simpl. lia.
Qed.

(** Evaluates [scan] and [placeholders] on the fixed fragments of a
    concatenation, and uses the hypotheses about the variable ones. *)
Ltac fragment :=
  unfold closed in *; intros;
  repeat match goal with
    | H : ∀ d, scan ?s d false = _ |- context[scan ?s ?d false] =>
        rewrite (H d); cbv beta iota
    | |- context[scan (?s +:+ ?t) ?d ?q] => rewrite (scan_app s t d q)
    | |- context[scan (String ?c ?s) ?d ?q] =>
        let r := eval cbn in (scan (String c s) d q) in
        change (scan (String c s) d q) with r; cbv beta iota
    end; try done.
Ltac count :=
  rewrite ?placeholders_app, ?length_app; cbn [length];
  repeat match goal with
  | |- context[placeholders (String ?c ?s)] =>
      let n := eval vm_compute in (placeholders (String c s)) in
      change (placeholders (String c s)) with n
  end; try lia.

(** ** What a compiler step emits *)

Lemma cbind_ok {A B} (m : C A) (f : A → C B) p b p' :
  (m ≫= f) p = COk b p' ↔ ∃ a p1, m p = COk a p1 ∧ f a p1 = COk b p'.
Proof.
  unfold mbind, C_bind. destruct (m p) as [a p1|e]; split.
  - eauto.
  - by intros (?&?&[= -> ->]&?).
  - done.
  - by intros (?&?&?&?).
Qed.

(** Fragments [render a] of a result hold exactly the placeholders whose
    parameters the step pushed, and each of them is closed. *)
Definition emits {A} (render : A → list string) (m : C A) : Prop :=
  ∀ p a p', m p = COk a p' →
    ∃ new, p' = p ++ new ∧ sum_list (map placeholders (render a)) = length new
           ∧ Forall closed (render a).

Definition one (s : string) : list string := [s].
Definition none {A} (_ : A) : list string := [].

Lemma emits_one m p s p' : emits one m → m p = COk s p' →
  ∃ new, p' = p ++ new ∧ placeholders s = length new ∧ closed s.
Proof.
  intros Hm H. destruct (Hm _ _ _ H) as (new&->&Hc&Hb). exists new.
  simpl in Hc. inversion Hb; subst. repeat split; [|done]. lia.
Qed.
Lemma emits_none {A} (m : C A) p a p' : emits none m → m p = COk a p' → p' = p.
Proof.
  intros Hm H. destruct (Hm _ _ _ H) as (new&->&Hc&_). destruct new; [|done].
  by rewrite app_nil_r.
Qed.

Lemma emits_cwhen c e : emits none (cwhen c e).
Proof.
  intros p a p'. unfold cwhen. destruct c; [done|]. intros [= <- <-].
  exists []. by rewrite app_nil_r.
Qed.
Lemma cwhen_ok c e p u p' : cwhen c e p = COk u p' ↔ c = false ∧ p' = p.
Proof.
  unfold cwhen. destruct c, u; split; try done.
  - by intros [? _].
  - by intros [= ->].
  - by intros [_ ->].
Qed.

Lemma emits_add v : emits one (add v).
Proof. intros p s p' [= <- <-]. exists [v]. repeat constructor. Qed.

Lemma sum_list_app (l k : list nat) : sum_list (l ++ k) = (sum_list l + sum_list k)%nat.
Proof. induction l; simpl; lia. Qed.

Lemma emits_cmap {A B} (r : B → list string) (f : A → C B) l :
  (∀ x, emits r (f x)) → emits (λ ys, concat (map r ys)) (cmap f l).
Proof.
  intros Hf. induction l as [|x l IH]; intros p ys p' H; cbn [cmap] in H.
  - injection H as <- <-. exists []. rewrite app_nil_r. repeat constructor.
  - apply cbind_ok in H as (y&p1&H1&H). apply cbind_ok in H as (zs&p2&H2&[= <- <-]).
    destruct (Hf _ _ _ _ H1) as (n1&->&Hc1&Hb1). destruct (IH _ _ _ H2) as (n2&->&Hc2&Hb2).
    exists (n1 ++ n2). rewrite app_assoc. repeat split.
    + simpl in *. by rewrite map_app, length_app, <- Hc1, <- Hc2, sum_list_app.
    + simpl. by apply Forall_app.
Qed.

(** Inverts a successful compiler run, step by step. *)
Ltac cinv :=
  repeat match goal with
  | H : (_ ≫= _) _ = COk _ _ |- _ => apply cbind_ok in H as (?&?&?&?)
  | H : cwhen _ _ _ = COk _ _ |- _ => apply cwhen_ok in H as [? ->]
  | H : mret _ _ = COk _ _ |- _ => unfold mret, C_ret in H; injection H as <- <-
  | H : cthrow _ _ = COk _ _ |- _ => discriminate H
  | H : add _ _ = COk _ _ |- _ => unfold add in H; injection H as <- <-
  end.

Lemma emits_cmap_one {A} (f : A → C string) l p ys p' :
  (∀ x, emits one (f x)) → cmap f l p = COk ys p' →
  ∃ new, p' = p ++ new ∧ sum_list (map placeholders ys) = length new ∧ Forall closed ys.
Proof.
  intros Hf H. destruct (emits_cmap one f l Hf _ _ _ H) as (new&->&Hc&Hb).
  assert (concat (map one ys) = ys) as E by (clear; induction ys; simpl; congruence).
  rewrite E in *. eauto.
Qed.

Lemma emits_cmap_none {A B} (f : A → C B) l p ys p' :
  (∀ x, emits none (f x)) → cmap f l p = COk ys p' → p' = p.
Proof.
  intros Hf H. destruct (emits_cmap none f l Hf _ _ _ H) as (new&->&Hc&_).
  assert (concat (map none ys) = []) as E by (clear; induction ys; simpl; congruence).
  rewrite E in Hc. destruct new; [by rewrite app_nil_r|done].
Qed.

(** Discharges an [emits one] goal whose run has been inverted: every
    parameter step has been accounted for in the hypotheses. *)
Ltac emitted :=
  rewrite <- ?app_assoc; eexists; split; [reflexivity|split; [cbn; count|
    constructor; [fragment|constructor]]].

Section Emits.
Context (fmt : Q → string).

Lemma scalar_pure v : emits none (scalar v).
Proof. intros p a p'. destruct v; simpl; intros [=]; subst; exists []; by rewrite app_nil_r. Qed.
Lemma intValue_pure v : emits none (intValue v).
Proof. intros p a p'. destruct v; simpl; intros [=]; subst; exists []; by rewrite app_nil_r. Qed.
Lemma arrayElement_pure v : emits none (arrayElement fmt v).
Proof. intros p a p'. destruct v; simpl; intros [=]; subst; exists []; by rewrite app_nil_r. Qed.
Lemma arrayValues_pure v : emits none (arrayValues fmt v).
Proof.
  intros p a p' H. destruct v; try done. simpl in H.
  apply emits_cmap_none in H as ->; [|apply arrayElement_pure].
  exists []. by rewrite app_nil_r.
Qed.

Lemma jsonExtract_emits key fn :
  placeholders fn = 0%nat → closed fn → emits one (jsonExtract key fn).
Proof.
  intros Hn Hfn p a p' H. unfold jsonExtract in H.
  destruct (String_in key PROMOTED).
  - cinv. emitted.
  - destruct (String_in key STD_ATTR_KEYS); cinv; emitted.
Qed.

Lemma cmap_add_emits {A} (g : A → jsval) l p ys p' :
  cmap (λ v, add (g v)) l p = COk ys p' →
  ∃ new, p' = p ++ new ∧ sum_list (map placeholders ys) = length new ∧ Forall closed ys.
Proof. apply emits_cmap_one. intros x. apply emits_add. Qed.

Lemma platformPlaceholder_emits v : emits one (platformPlaceholder v).
Proof. intros p a p' H. unfold platformPlaceholder in H. cinv. by apply (emits_add (JStr v) p). Qed.

(** A joined list of fragments is one fragment. *)
Lemma joined sep ys (n : nat) :
  placeholders sep = 0%nat → closed sep →
  sum_list (map placeholders ys) = n → Forall closed ys →
  placeholders (join sep ys) = n ∧ closed (join sep ys).
Proof. intros. split; [by rewrite placeholders_join|by apply closed_join]. Qed.

(** Replaces the run of each sub-step by what it emitted. *)
Ltac esub :=
  repeat match goal with
  | H : scalar _ _ = COk _ _ |- _ => apply (emits_none _ _ _ _ (scalar_pure _)) in H as ->
  | H : intValue _ _ = COk _ _ |- _ => apply (emits_none _ _ _ _ (intValue_pure _)) in H as ->
  | H : arrayValues _ _ _ = COk _ _ |- _ =>
      apply (emits_none _ _ _ _ (arrayValues_pure _)) in H as ->
  | H : jsonExtract ?k ?fn _ = COk _ _ |- _ =>
      let E := fresh in
      assert (emits one (jsonExtract k fn)) as E by (apply jsonExtract_emits; [done|fragment]);
      apply (emits_one _ _ _ _ E) in H as (?&->&?&?); clear E
  | H : cmap (λ v, add _) _ _ = COk _ _ |- _ => apply cmap_add_emits in H as (?&->&?&?)
  | H : cmap platformPlaceholder _ _ = COk _ _ |- _ =>
      apply (emits_cmap_one _ _ _ _ _ platformPlaceholder_emits) in H as (?&->&?&?)
  end;
  repeat match goal with
  | H : sum_list (map placeholders ?ys) = _, H' : Forall closed ?ys
    |- context[join ?sep ?ys] =>
      let E := fresh in
      assert (closed sep) as E by fragment;
      destruct (joined sep ys _ eq_refl E H H'); clear E H H';
      generalize dependent (join sep ys); intros
  end.

Lemma CMP_OPS_fragment o s : CMP_OPS o = Some s → placeholders s = 0%nat ∧ closed s.
Proof. unfold CMP_OPS. repeat case_match; intros [= <-]; (split; [done|fragment]). Qed.

Lemma compileAttribute_emits c : emits one (compileAttribute fmt c).
Proof.
  intros p s p' H. unfold compileAttribute in H. apply cbind_ok in H as (?&?&H0&H).
  apply cwhen_ok in H0 as [_ ->].
  repeat first [progress cinv | case_match]; esub;
  repeat match goal with H : CMP_OPS _ = Some _ |- _ => apply CMP_OPS_fragment in H as [? ?] end;
  try emitted; exists []; rewrite app_nil_r; repeat constructor; fragment.
Qed.

Lemma compileChannel_emits c cat : emits one (compileChannel fmt c cat).
Proof.
  intros p s p' H. unfold compileChannel in H.
  repeat first [progress cinv | case_match]; esub;
  try emitted; exists []; rewrite app_nil_r; repeat constructor; fragment.
Qed.

Lemma compileDevice_fails c p s p' : compileDevice c p ≠ COk s p'.
Proof. intros H. unfold compileDevice in H. cinv. Qed.

Lemma eventBase_emits c t a w : emits one (eventBase c t a w).
Proof.
  intros p s p' H. unfold eventBase in H. cinv.
  destruct (w && _); cinv; emitted.
Qed.

Lemma compileEvent_emits c t a : emits one (compileEvent c t a).
Proof.
  intros p s p' H. unfold compileEvent in H. apply cbind_ok in H as (?&?&H0&H).
  apply cwhen_ok in H0 as [_ ->].
  repeat first [progress cinv | case_match]; esub;
  repeat match goal with H : eventBase _ _ _ _ _ = COk _ _ |- _ =>
    apply (emits_one _ _ _ _ (eventBase_emits _ _ _ _)) in H as (?&->&?&?) end;
  emitted.
Qed.

Lemma compileCondition_emits t a cat c : emits one (compileCondition fmt t a cat c).
Proof.
  destruct c; simpl; [apply compileAttribute_emits|apply compileEvent_emits
    |apply compileChannel_emits| |done].
  intros p s p' H. by apply compileDevice_fails in H.
Qed.

Lemma and_or_sep op :
  String_in op AND_OR = true →
  placeholders (" " +:+ op +:+ " ") = 0%nat ∧ closed (" " +:+ op +:+ " ").
Proof. intros [<-|[<-|[]]]%String_in_spec; (split; [done|fragment]). Qed.

Lemma compileGroup_emits t a cat g : emits one (compileGroup fmt t a cat g).
Proof.
  intros p s p' H. unfold compileGroup in H. cinv.
  match goal with H : negb _ = false |- _ =>
    apply negb_false_iff in H; apply and_or_sep in H as [Hn Hc] end.
  match goal with H : cmap _ _ _ = COk _ _ |- _ =>
    apply (emits_cmap_one _ _ _ _ _ (compileCondition_emits t a cat)) in H as (?&->&Hs&Hf) end.
  destruct (joined _ _ _ Hn Hc Hs Hf) as [? ?].
  match goal with |- context[join ?sep ?l] => generalize dependent (join sep l) end.
  intros. emitted.
Qed.
End Emits.

(** ** Named parameters *)

Lemma pretty_N_char_no_qm x : str_count "?" (String (pretty_N_char x) "") = 0%nat.
Proof. unfold pretty_N_char. repeat case_match; done. Qed.

Lemma pretty_N_go_no_qm x s :
  str_count "?" s = 0%nat → str_count "?" (pretty_N_go x s) = 0%nat.
Proof.
  revert s. induction (N.lt_wf_0 x) as [x _ IH]; intros s Hs.
  destruct (decide (x = 0)%N) as [->|Hx]; [by rewrite pretty_N_go_0|].
  rewrite pretty_N_go_step by lia. apply IH; [by apply N.div_lt; lia|].
  pose proof (pretty_N_char_no_qm (x `mod` 10)) as H. simpl in *. lia.
Qed.

Lemma ch_name_placeholders i : placeholders (ch_name i) = 0%nat.
Proof.
  unfold ch_name. rewrite placeholders_app. unfold placeholders.
  change (str_count "?" "p") with 0%nat. simpl.
  destruct (Z.of_nat i) eqn:E; [done| |lia]. unfold pretty, pretty_Z, pretty, pretty_N.
  simpl. by apply pretty_N_go_no_qm.
Qed.

Lemma ch_type_placeholders v : placeholders (ch_type v) = 0%nat.
Proof. destruct v; try done. simpl. by destruct (Number_isInteger n). Qed.

Lemma ch_replace_spec l s i :
  ∃ q, ch_replace l s i =
       (q, map (λ k, (ch_name k, default JUndef (l !! k))) (seq i (placeholders s)),
        (i + placeholders s)%nat)
     ∧ placeholders q = 0%nat.
Proof.
  revert i. induction s as [|c s IH]; intros i; cbn [ch_replace placeholders str_count].
  - exists ""%string. split; [|done]. by rewrite Nat.add_0_r.
  - rewrite Ascii.eqb_sym. destruct (Ascii.eqb "?" c) eqn:E.
    + destruct (IH (S i)) as (q&->&Hq). eexists. split.
      * f_equal. change (str_count "?" s) with (placeholders s). lia.
      * rewrite !placeholders_app, ch_name_placeholders, ch_type_placeholders, Hq. done.
    + destruct (IH i) as (q&->&Hq). exists (String c q). split; [done|].
      unfold placeholders in *. cbn [str_count]. by rewrite E.
Qed.

Lemma toClickHouse_spec c :
  placeholders (sql c) = length (args c) →
  ∃ q, toClickHouse c = inl (mkQuery q (imap (λ i v, (ch_name i, v)) (args c)))
     ∧ placeholders q = 0%nat.
Proof.
  intros Hc. unfold toClickHouse. destruct (ch_replace_spec (args c) (sql c) 0) as (q&->&Hq).
  simpl. rewrite Hc, Nat.eqb_refl. exists q. split; [|done]. do 2 f_equal.
  apply list_eq. intros k. rewrite list_lookup_imap, list_lookup_fmap.
  destruct (args c !! k) eqn:E.
  - rewrite lookup_seq_lt by (apply lookup_lt_Some in E; lia). simpl. by rewrite E.
  - rewrite lookup_seq_ge; [done|]. apply lookup_ge_None in E. lia.
Qed.

(** ** When the compiler succeeds *)

Definition scalar_ok (v : jsval) : bool :=
  match v with JStr _ | JNum _ | JBool _ => true | _ => false end.
Definition array_ok (v : jsval) : bool :=
  match v with JArr l => forallb scalar_ok l | _ => false end.

Definition attribute_ok (c : AttributeCondition) : bool :=
  negb (String.eqb (ac_key c) "") &&
  (String_in (ac_op c) ["exists"; "not_exists"]
   || String_in (ac_op c) ["eq"; "neq"; "gt"; "gte"; "lt"; "lte"; "contains"; "before"; "after"]
      && scalar_ok (ac_value c)
   || String_in (ac_op c) ["in"] && array_ok (ac_value c)
   || String_in (ac_op c) ["in_last_days"; "not_in_last_days"] && is_number (ac_value c)).

Definition event_ok (c : EventCondition) : bool :=
  negb (String.eqb (ec_event c) "") &&
  (String_in (ec_op c) ["performed"; "not_performed"]
   || String_in (ec_op c) ["count_gte"; "count_lte"] && is_number (ec_value c)
   || String_in (ec_op c) ["first_performed"; "last_performed"]
      && negb (is_nullish (ec_window_days c))).

Section Succeeds.
Context (fmt : Q → string).

(** [String(v)] of an accepted array element *)
Definition element_text (v : jsval) : string :=
  match v with
  | JStr s => s
  | JNum n => num_to_string fmt n
  | JBool b => if b then "true" else "false"
  | _ => ""
  end.

Definition channel_ok (c : ChannelCondition) : bool :=
  String_in (cc_op c) ["push_reachable"]
  || String_in (cc_op c) ["token_platform_in"] && array_ok (cc_value c)
     && match cc_value c with
        | JArr l => forallb (λ v, String_in (element_text v) PLATFORM_VALUES) l
        | _ => false
        end.

Definition condition_ok (c : Condition) : bool :=
  match c with
  | CAttribute c => attribute_ok c
  | CEvent c => event_ok c
  | CChannel c => channel_ok c
  | CDevice _ | CUnknown _ => false
  end.

Definition group_ok (g : SegmentGroup) : bool :=
  String_in (sg_operator g) AND_OR && negb (Nat.eqb (length (sg_conditions g)) 0)
  && forallb condition_ok (sg_conditions g).

Definition dsl_ok (d : SegmentDSL) : bool :=
  version_ok (dsl_version d) && String_in (dsl_operator d) AND_OR
  && forallb group_ok (dsl_groups d).

(** [m] succeeds from every parameter list, or from none. *)
Definition decides {A} (m : C A) (b : bool) : Prop :=
  ∀ p, if b then ∃ a p', m p = COk a p' else ∃ e, m p = CErr e.

Lemma decides_ret {A} (a : A) : decides (mret a) true.
Proof. intros p. by exists a, p. Qed.
Lemma decides_add v : decides (add v) true.
Proof. intros p. by eexists _, _. Qed.
Lemma decides_throw {A} e : decides (cthrow (A:=A) e) false.
Proof. intros p. by exists e. Qed.
Lemma decides_cwhen c e : decides (cwhen c e) (negb c).
Proof. intros p. destruct c; [by exists e|by exists tt, p]. Qed.
Lemma decides_bind {A B} (m : C A) (f : A → C B) b1 b2 :
  decides m b1 → (b1 = true → ∀ p a p', m p = COk a p' → decides (f a) b2) →
  decides (m ≫= f) (b1 && b2).
Proof.
  intros Hm Hf p. specialize (Hm p). unfold mbind, C_bind. destruct b1; simpl.
  - destruct Hm as (a&p'&E). rewrite E. by eapply Hf.
  - destruct Hm as (e&E). rewrite E. by exists e.
Qed.
Lemma decides_bind_true {A B} (m : C A) (f : A → C B) b :
  decides m true → (∀ a, decides (f a) b) → decides (m ≫= f) b.
Proof. intros Hm Hf. change b with (true && b). apply decides_bind; [done|]. by intros. Qed.
Lemma decides_unless {A} (c : bool) e (f : () → C A) b :
  decides (f tt) b → decides (cwhen (negb c) e ≫= f) (c && b).
Proof. intros Hf p. destruct c; [apply Hf|by exists e]. Qed.
Lemma decides_cmap {A B} (f : A → C B) (ok : A → bool) l :
  (∀ x, decides (f x) (ok x)) → decides (cmap f l) (forallb ok l).
Proof.
  intros Hf. induction l as [|x l IH]; cbn [cmap forallb]; [apply decides_ret|].
  apply decides_bind; [done|]. intros _ p y p' _. rewrite <- (andb_true_r (forallb _ _)).
  apply decides_bind; [done|]. intros. apply decides_ret.
Qed.
Lemma decides_scalar v : decides (scalar v) (scalar_ok v).
Proof. destruct v; first [apply decides_ret|apply decides_throw]. Qed.
Lemma decides_intValue v : decides (intValue v) (is_number v).
Proof. destruct v; first [apply decides_ret|apply decides_throw]. Qed.
Lemma decides_arrayElement v : decides (arrayElement fmt v) (scalar_ok v).
Proof. destruct v; first [apply decides_ret|apply decides_throw]. Qed.
Lemma decides_arrayValues v : decides (arrayValues fmt v) (array_ok v).
Proof. destruct v; try apply decides_throw. apply decides_cmap, decides_arrayElement. Qed.
Lemma decides_jsonExtract k fn : decides (jsonExtract k fn) true.
Proof.
  unfold jsonExtract. destruct (String_in k PROMOTED);
    repeat (apply decides_bind_true; [apply decides_add|intros]); apply decides_ret.
Qed.
Lemma decides_cmap_add {A} (g : A → jsval) l : decides (cmap (λ v, add (g v)) l) true.
Proof.
  replace true with (forallb (λ _ : A, true) l) by (induction l; done).
  apply decides_cmap. intros. apply decides_add.
Qed.

Lemma decides_eventBase c t a w : decides (eventBase c t a w) true.
Proof.
  unfold eventBase. repeat (apply decides_bind_true; [apply decides_add|intros]).
  destruct (w && _); repeat (apply decides_bind_true; [apply decides_add|intros]);
    apply decides_ret.
Qed.

(** Steps through the effects that cannot fail. *)
Ltac total :=
  repeat first
    [ apply decides_ret | apply decides_throw | apply decides_add
    | apply decides_bind_true; [first [apply decides_jsonExtract | apply decides_add | apply decides_eventBase
                                      | apply decides_cmap_add]|intros] ].

Lemma decides_guard {A B} (m : C A) (f : A → C B) b :
  decides m b → (∀ a, decides (f a) true) → decides (m ≫= f) b.
Proof. intros. rewrite <- (andb_true_r b). apply decides_bind; [done|]. by intros. Qed.

(** A fallible step, then total ones. *)
Ltac guarded :=
  apply decides_guard;
    [first [apply decides_scalar|apply decides_arrayValues|apply decides_intValue
           |rewrite <- (negb_involutive (is_nullish _)); apply decides_cwhen]
    |intros; repeat case_match; total].

Lemma platformPlaceholder_decides v :
  decides (platformPlaceholder v) (String_in v PLATFORM_VALUES).
Proof.
  unfold platformPlaceholder. apply decides_guard; [|intros; total].
  rewrite <- (negb_involutive (String_in _ _)) at 2. apply decides_cwhen.
Qed.

Lemma attribute_decides c : decides (compileAttribute fmt c) (attribute_ok c).
Proof.
  unfold compileAttribute, attribute_ok. apply decides_bind; [apply decides_cwhen|intros _ _ _ _ _].
  unfold CMP_OPS. rewrite !String_in_cons, !String_in_nil.
  repeat (destruct (String.eqb (ac_op c) _) eqn:?; b2p; simplify_eq; cbn [orb andb]; total);
    try (congruence || done).
  all: rewrite ?orb_false_r; guarded.
Qed.

Lemma event_decides c t a : decides (compileEvent c t a) (event_ok c).
Proof.
  unfold compileEvent, event_ok. apply decides_bind; [apply decides_cwhen|intros _ _ _ _ _].
  rewrite !String_in_cons, !String_in_nil.
  repeat (destruct (String.eqb (ec_op c) _) eqn:?; b2p; simplify_eq; cbn [orb andb]; total);
    try (congruence || done).
  all: rewrite ?orb_false_r; guarded.
Qed.

Lemma platform_decides l :
  forallb scalar_ok l = true →
  decides (vals ← cmap (arrayElement fmt) l;
           match vals with [] => mret "0"
           | _ => ps ← cmap platformPlaceholder vals;
                  mret ("arrayExists(x -> x IN (" +:+ join ", " ps +:+ "), platforms)") end)
    (forallb (λ v, String_in (element_text v) PLATFORM_VALUES) l).
Proof.
  intros Hl. assert (∀ p, cmap (arrayElement fmt) l p = COk (map element_text l) p) as E.
  { induction l as [|x l IH]; intros p; [done|]. cbn in Hl. b2p. cbn [cmap].
    unfold mbind, C_bind. by destruct x; simpl; rewrite ?IH by done. }
  assert (∀ ok b, decides (cmap platformPlaceholder (map element_text l)) ok →
    ok = b → decides (ps ← cmap platformPlaceholder (map element_text l);
               mret ("arrayExists(x -> x IN (" +:+ join ", " ps +:+ "), platforms)")) b) as Hb.
  { intros ok b Hd <-. apply decides_guard; [done|]. intros. total. }
  intros p. specialize (Hb _ (forallb (λ v, String_in (element_text v) PLATFORM_VALUES) l)
    (decides_cmap _ (λ s, String_in s PLATFORM_VALUES) _ platformPlaceholder_decides)).
  rewrite forallb_map in Hb. specialize (Hb eq_refl p).
  assert (∀ f : list string → C string,
    (cmap (arrayElement fmt) l ≫= f) p = f (map element_text l) p) as Ef.
  { intros f. unfold mbind, C_bind. by rewrite E. }
  rewrite !Ef. destruct l; [by eexists _, _|]. apply Hb.
Qed.

Lemma channel_decides c cat : decides (compileChannel fmt c cat) (channel_ok c).
Proof.
  unfold compileChannel, channel_ok. rewrite !String_in_cons, !String_in_nil.
  destruct (String.eqb (cc_op c) "push_reachable"); [destruct cat; apply decides_ret|].
  destruct (String.eqb (cc_op c) "token_platform_in"); [|apply decides_throw].
  cbn [orb andb]. destruct (cc_value c) as [| | | | |l|]; try (intros p; by eexists).
  cbn [array_ok arrayValues]. destruct (forallb scalar_ok l) eqn:E; [by apply platform_decides|].
  cbn [andb]. pose proof (decides_arrayValues (JArr l)) as H. cbn in H. rewrite E in H.
  intros p. destruct (H p) as (e&He). exists e. unfold mbind, C_bind. by rewrite He.
Qed.

Lemma condition_decides t a cat c :
  decides (compileCondition fmt t a cat c) (condition_ok c).
Proof.
  destruct c; simpl; [apply attribute_decides|apply event_decides|apply channel_decides
    | |apply decides_throw].
  intros p. unfold compileDevice, cwhen, mbind, C_bind, cthrow, mret, C_ret.
  repeat case_match; simplify_eq; eauto.
Qed.

Lemma group_decides t a cat g : decides (compileGroup fmt t a cat g) (group_ok g).
Proof.
  unfold compileGroup, group_ok. rewrite <- andb_assoc.
  apply decides_unless. apply decides_bind; [apply decides_cwhen|intros _ _ _ _ _].
  apply decides_guard; [apply decides_cmap, condition_decides|]. intros. total.
Qed.

Lemma compile_decides d t a cat : decides (compile_in fmt d t a cat) (dsl_ok d).
Proof.
  unfold compile_in, dsl_ok. rewrite <- andb_assoc.
  do 2 apply decides_unless. total.
  apply decides_guard; [|intros; total].
  destruct (dsl_groups d) as [|g l]; [apply decides_ret|].
  cbn [length Nat.ltb Nat.leb]. apply decides_guard; [apply decides_cmap, group_decides|].
  intros. total.
Qed.
End Succeeds.

(** ** The shape of a definition

    What the SQL text may depend on: operators, the column family of a key,
    the type and the number of values - and none of the strings a user writes
    (attribute keys, event names, values, tenant and application ids). *)
Inductive key_class := KPromoted | KStandard | KCustom.

Definition key_class_of (k : string) : key_class :=
  if String_in k PROMOTED then KPromoted
  else if String_in k STD_ATTR_KEYS then KStandard else KCustom.

Definition array_length (v : jsval) : nat := match v with JArr l => length l | _ => 0 end.

Inductive condition_shape :=
| SAttribute (op : string) (key : key_class) (number : bool) (values : nat)
| SEvent (op : string) (window : bool)
| SChannel (op : string) (values : nat)
| SOther.

Definition shape_of_condition (c : Condition) : condition_shape :=
  match c with
  | CAttribute c =>
      SAttribute (ac_op c) (key_class_of (ac_key c)) (is_number (ac_value c))
        (array_length (ac_value c))
  | CEvent c => SEvent (ec_op c) (is_nullish (ec_window_days c))
  | CChannel c => SChannel (cc_op c) (array_length (cc_value c))
  | CDevice _ | CUnknown _ => SOther
  end.

Definition shape_of (d : SegmentDSL) : string * list (string * list condition_shape) :=
  (dsl_operator d,
   map (λ g, (sg_operator g, map shape_of_condition (sg_conditions g))) (dsl_groups d)).

Section Shape.
Context (fmt : Q → string).

(** Two compiler steps agree when their successful runs return the same. *)
Definition agree {A} (m1 m2 : C A) : Prop :=
  ∀ p1 p2 a1 a2 q1 q2, m1 p1 = COk a1 q1 → m2 p2 = COk a2 q2 → a1 = a2.

Lemma agree_ret {A} (a : A) : agree (mret a) (mret a).
Proof. by intros p1 p2 a1 a2 q1 q2 [= <- _] [= <- _]. Qed.
Lemma agree_throw {A} e1 (m : C A) : agree (cthrow e1) m.
Proof. done. Qed.
Lemma agree_add v1 v2 : agree (add v1) (add v2).
Proof. by intros p1 p2 a1 a2 q1 q2 [= <- _] [= <- _]. Qed.
Lemma agree_cwhen c1 c2 e1 e2 : agree (cwhen c1 e1) (cwhen c2 e2).
Proof. intros p1 p2 [] [] q1 q2 _ _. done. Qed.
Lemma agree_bind {A B} (m1 m2 : C A) (f1 f2 : A → C B) :
  agree m1 m2 → (∀ a, agree (f1 a) (f2 a)) → agree (m1 ≫= f1) (m2 ≫= f2).
Proof.
  intros Hm Hf p1 p2 b1 b2 q1 q2 (a1&r1&Ha1&Hb1)%cbind_ok (a2&r2&Ha2&Hb2)%cbind_ok.
  assert (a1 = a2) as -> by (by eapply Hm). by eapply Hf.
Qed.
(** The first steps return different values, but related ones. *)
Lemma agree_bind_rel {A B} (R : A → A → Prop) (m1 m2 : C A) (f1 f2 : A → C B) :
  (∀ p1 p2 a1 a2 q1 q2, m1 p1 = COk a1 q1 → m2 p2 = COk a2 q2 → R a1 a2) →
  (∀ a1 a2, R a1 a2 → agree (f1 a1) (f2 a2)) → agree (m1 ≫= f1) (m2 ≫= f2).
Proof.
  intros Hm Hf p1 p2 b1 b2 q1 q2 (a1&r1&Ha1&Hb1)%cbind_ok (a2&r2&Ha2&Hb2)%cbind_ok.
  eapply Hf; [by eapply Hm|done..].
Qed.
Lemma agree_cmap {A B D} (h : A → D) (f1 f2 : A → C B) l1 l2 :
  (∀ x1 x2, h x1 = h x2 → agree (f1 x1) (f2 x2)) → map h l1 = map h l2 →
  agree (cmap f1 l1) (cmap f2 l2).
Proof.
  intros Hf. revert l2. induction l1 as [|x1 l1 IH]; intros [|x2 l2]; try done; cbn [cmap map].
  - intros _. apply agree_ret.
  - intros [= Hx Hl]. apply agree_bind; [by apply Hf|intros].
    apply agree_bind; [by apply IH|intros]. apply agree_ret.
Qed.
Lemma agree_cmap_length {A B} (f1 f2 : A → C B) l1 l2 :
  (∀ x1 x2, agree (f1 x1) (f2 x2)) → length l1 = length l2 →
  agree (cmap f1 l1) (cmap f2 l2).
Proof.
  intros Hf Hl. apply (agree_cmap (λ _ : A, tt)); [auto|].
  revert l2 Hl. induction l1; intros []; try done; simpl. intros [=]. f_equal. auto.
Qed.

Ltac agreeing :=
  repeat first
    [ apply agree_ret | apply agree_throw | apply agree_add | apply agree_cwhen
    | apply agree_bind; [|intros] ].

Lemma agree_jsonExtract k1 k2 fn :
  key_class_of k1 = key_class_of k2 → agree (jsonExtract k1 fn) (jsonExtract k2 fn).
Proof.
  unfold key_class_of, jsonExtract. repeat case_match; intros; simplify_eq; agreeing.
Qed.

Lemma scalar_number v p a q : scalar v p = COk a q → snd a = is_number v.
Proof. by destruct v; intros [= <- <-]. Qed.

Lemma cmap_length {A B} (f : A → C B) l p ys q :
  cmap f l p = COk ys q → length ys = length l.
Proof.
  revert p ys q. induction l as [|x l IH]; intros p ys q; cbn [cmap].
  - by intros [= <- _].
  - intros (y&p1&_&(zs&p2&Hz&[= <- _])%cbind_ok)%cbind_ok. simpl. by rewrite (IH _ _ _ Hz).
Qed.
Lemma arrayValues_length v p vs q : arrayValues fmt v p = COk vs q → length vs = array_length v.
Proof. destruct v; try done. apply cmap_length. Qed.

Lemma agree_platform v1 v2 : agree (platformPlaceholder v1) (platformPlaceholder v2).
Proof. unfold platformPlaceholder. agreeing. Qed.

Lemma agree_array v1 v2 (f1 f2 : list string → C string) :
  array_length v1 = array_length v2 →
  (∀ l1 l2, length l1 = length l2 → agree (f1 l1) (f2 l2)) →
  agree (arrayValues fmt v1 ≫= f1) (arrayValues fmt v2 ≫= f2).
Proof.
  intros Hv. apply agree_bind_rel. intros p1 p2 a1 a2 q1 q2 H1%arrayValues_length
    H2%arrayValues_length. congruence.
Qed.

Lemma agree_scalar v1 v2 (f1 f2 : jsval * bool → C string) :
  is_number v1 = is_number v2 →
  (∀ x1 x2 b, agree (f1 (x1, b)) (f2 (x2, b))) →
  agree (scalar v1 ≫= f1) (scalar v2 ≫= f2).
Proof.
  intros Hv Hf. apply (agree_bind_rel (λ a1 a2, snd a1 = snd a2)).
  - intros p1 p2 a1 a2 q1 q2 H1%scalar_number H2%scalar_number. congruence.
  - intros [x1 b1] [x2 b2]. simpl. intros ->. apply Hf.
Qed.

Lemma agree_int v1 v2 (f1 f2 : jsval → C string) :
  (∀ x1 x2, agree (f1 x1) (f2 x2)) → agree (intValue v1 ≫= f1) (intValue v2 ≫= f2).
Proof. intros Hf. apply (agree_bind_rel (λ _ _, True)); [done|]. intros. apply Hf. Qed.

(** As [agreeing], with the steps that read a value handled by shape. *)
Ltac by_shape :=
  repeat first
    [ apply agree_ret | apply agree_throw | apply agree_add | apply agree_cwhen
    | by apply agree_jsonExtract
    | apply agree_scalar; [done|intros ? ? []; cbn]
    | apply agree_int; intros
    | apply agree_array; [done|intros [|? ?] [|? ?] ?; try done]
    | apply agree_cmap_length;
        [intros; first [apply agree_add|apply agree_platform]|done]
    | apply agree_bind; [|intros] ].

Lemma agree_attribute c1 c2 :
  shape_of_condition (CAttribute c1) = shape_of_condition (CAttribute c2) →
  agree (compileAttribute fmt c1) (compileAttribute fmt c2).
Proof.
  intros [= Ho Hk Hn Hl]. unfold compileAttribute. rewrite Ho.
  apply agree_bind; [apply agree_cwhen|intros _].
  repeat case_match; by_shape.
Qed.

Lemma agree_channel c1 c2 cat :
  shape_of_condition (CChannel c1) = shape_of_condition (CChannel c2) →
  agree (compileChannel fmt c1 cat) (compileChannel fmt c2 cat).
Proof.
  intros [= Ho Hl]. unfold compileChannel. rewrite Ho. repeat case_match; by_shape.
Qed.

Lemma agree_event c1 c2 t1 t2 a1 a2 :
  shape_of_condition (CEvent c1) = shape_of_condition (CEvent c2) →
  agree (compileEvent c1 t1 a1) (compileEvent c2 t2 a2).
Proof.
  intros [= Ho Hw]. unfold compileEvent, eventBase. rewrite Ho, Hw.
  apply agree_bind; [apply agree_cwhen|intros _].
  repeat case_match; by_shape.
Qed.

Lemma agree_condition t1 t2 a1 a2 cat c1 c2 :
  shape_of_condition c1 = shape_of_condition c2 →
  agree (compileCondition fmt t1 a1 cat c1) (compileCondition fmt t2 a2 cat c2).
Proof.
  destruct c1, c2; try (by inversion 1); simpl; intros H;
    first [by apply agree_attribute|by apply agree_event|by apply agree_channel|done
          |intros p1 p2 s1 s2 q1 q2 H1; by apply compileDevice_fails in H1].
Qed.

Lemma agree_compile d1 d2 t1 t2 a1 a2 cat :
  shape_of d1 = shape_of d2 →
  agree (compile_in fmt d1 t1 a1 cat) (compile_in fmt d2 t2 a2 cat).
Proof.
  intros [= Ho Hg]. unfold compile_in.
  assert (length (dsl_groups d1) = length (dsl_groups d2)) as Hl.
  { apply (f_equal (@length _)) in Hg. by rewrite !length_map in Hg. }
  rewrite Hl, Ho. agreeing. case_match; agreeing.
  eapply (agree_cmap (λ g, (sg_operator g, map shape_of_condition (sg_conditions g)))); [|done].
  intros g1 g2 [= Hop Hc]. unfold compileGroup. rewrite Hop. agreeing.
  eapply agree_cmap; [|done]. intros. by apply agree_condition.
Qed.
End Shape.

(** * Properties *)

Definition SELECT_ROOT : string :=
  "SELECT user_id FROM profiles_mirror FINAL WHERE tenant_id = toUUID(?) AND app_id = toUUID(?) AND status = 'active'".

Lemma compile_run fmt d t a cat c :
  compile fmt d t a cat = inl c → compile_in fmt d t a cat [] = COk (sql c) (args c).
Proof. unfold compile. case_match; [|done]. by intros [= <-]. Qed.

Lemma groups_emit fmt d t a cat p gs p' :
  cmap (compileGroup fmt t a cat) (dsl_groups d) p = COk gs p' →
  String_in (dsl_operator d) AND_OR = true →
  let body := join (" " +:+ dsl_operator d +:+ " ") gs in
  ∃ new, p' = p ++ new ∧ placeholders body = length new ∧ closed body.
Proof.
  intros H Hop. apply emits_cmap_one in H as (new&->&Hs&Hf); [|apply compileGroup_emits].
  apply and_or_sep in Hop as [Hn Hc]. exists new. split; [done|]. by apply joined.
Qed.

(** C1. Tenant scope.  Every compiled query is the root filter on tenant,
    application and active status, whose first two parameters are the
    caller's tenant and application ids; whatever the definition says is
    conjoined to it inside one pair of parentheses that the body cannot close
    (the body is lexically closed, quoted literals included), so no operator
    of the definition can widen the query beyond the tenant. *)
Theorem compile_tenant_scope fmt d t a cat c :
  compile fmt d t a cat = inl c →
  ∃ tail rest,
    sql c = SELECT_ROOT +:+ tail ∧ args c = JStr t :: JStr a :: rest
    ∧ ((tail = "" ∧ dsl_groups d = [])
       ∨ ∃ body, tail = " AND (" +:+ body +:+ ")" ∧ closed body).
Proof.
  intros H%compile_run. unfold compile_in in H. cinv.
  destruct (dsl_groups d) as [|g gs] eqn:Eg; cbn [length Nat.ltb Nat.leb] in *; cinv.
  - exists "", []. split; [done|]. split; [done|]. by left.
  - b2p. match goal with H : cmap _ _ _ = COk _ _ |- _ =>
      rewrite <- Eg in H; apply groups_emit in H as (new&Hp&_&Hc); [|by apply String_in_spec] end.
    eexists (" AND (" +:+ join (" " +:+ dsl_operator d +:+ " ") _ +:+ ")"), new. split; [|split].
    + done.
    + by rewrite Hp.
    + right. by eexists.
Qed.

Lemma compile_placeholders fmt d t a cat c :
  compile fmt d t a cat = inl c → placeholders (sql c) = length (args c).
Proof.
  intros H%compile_run. unfold compile_in in H. cinv.
  destruct (Nat.ltb _ _); cinv.
  - b2p. match goal with H : cmap _ _ _ = COk _ _ |- _ =>
      apply groups_emit in H as (new&Hp&Hn&Hc); [|by apply String_in_spec] end.
    rewrite Hp.
    cbn [app join String.concat]. count.
  - reflexivity.
Qed.

(** The named-parameter step cannot fail on compiler output: the text has
    one placeholder per parameter, [toClickHouse] returns a query in which no
    positional placeholder is left, and its parameters are the compiler's, in
    order, under the names [p0], [p1], ... *)
Theorem compile_toClickHouse fmt d t a cat c :
  compile fmt d t a cat = inl c →
  ∃ q, toClickHouse c = inl (mkQuery q (imap (λ i v, (ch_name i, v)) (args c)))
     ∧ placeholders q = 0%nat.
Proof. intros H. by apply toClickHouse_spec, (compile_placeholders fmt d t a cat). Qed.

(** The compiler accepts exactly the definitions that pass the white
    lists ([dsl_ok]): version 1, AND/OR operators, no empty group, known
    operators with values of the type each needs, known platforms, and no
    device condition.  Anything else is a [CompileError]. *)
Theorem compile_succeeds_iff fmt d t a cat :
  (∃ c, compile fmt d t a cat = inl c) ↔ dsl_ok fmt d = true.
Proof.
  pose proof (compile_decides fmt d t a cat []) as H. unfold compile.
  destruct (dsl_ok fmt d).
  - destruct H as (s&p&->). split; eauto.
  - destruct H as (e&->). split; [by intros [? ?]|done].
Qed.

(** C2. No injection: the SQL text is a function of the shape of the
    definition.  Two definitions of the same shape, compiled for any tenants
    and applications, have the same text, whatever keys, event names and
    values their authors wrote. *)
Theorem compile_text_by_shape fmt d1 d2 t1 t2 a1 a2 cat c1 c2 :
  compile fmt d1 t1 a1 cat = inl c1 → compile fmt d2 t2 a2 cat = inl c2 →
  shape_of d1 = shape_of d2 → sql c1 = sql c2.
Proof.
  intros H1%compile_run H2%compile_run Hs.
  exact (agree_compile fmt d1 d2 t1 t2 a1 a2 cat Hs _ _ _ _ _ _ H1 H2).
Qed.

(** ** Witnesses *)

Definition no_fmt (q : Q) : string := "".
Definition sample_dsl (key value event : string) : SegmentDSL :=
  mkDSL (JNum (NInt 1)) "AND"
    [mkGroup "OR" [CAttribute (mkAttribute key "eq" (JStr value));
                   CEvent (mkEvent event "count_gte" (JNum (NInt 3)) (JNum (NInt 30)))];
     mkGroup "AND" [CChannel (mkChannel "token_platform_in" (JArr [JStr "ios"]))]].
Definition sample_compiled (d : SegmentDSL) : Compiled :=
  match compile no_fmt d "T" "A" marketing with inl c => c | inr _ => mkCompiled "" [] end.
Definition evil : string := "x' OR 1=1) --".

Lemma compile_tenant_scope_witness :
  compile no_fmt (sample_dsl "plan" evil "buy") "T" "A" marketing
    = inl (sample_compiled (sample_dsl "plan" evil "buy"))
  ∧ ∃ tail rest,
    sql (sample_compiled (sample_dsl "plan" evil "buy")) = SELECT_ROOT +:+ tail
    ∧ args (sample_compiled (sample_dsl "plan" evil "buy")) = JStr "T" :: JStr "A" :: rest
    ∧ ((tail = "" ∧ dsl_groups (sample_dsl "plan" evil "buy") = [])
       ∨ ∃ body, tail = " AND (" +:+ body +:+ ")" ∧ closed body).
Proof.
  assert (compile no_fmt (sample_dsl "plan" evil "buy") "T" "A" marketing
    = inl (sample_compiled (sample_dsl "plan" evil "buy"))) as H by (vm_compute; reflexivity).
  exact (conj H (compile_tenant_scope no_fmt _ _ _ _ _ H)).
Defined.

Lemma compile_toClickHouse_witness :
  compile no_fmt (sample_dsl "dob" "x" "buy") "T" "A" marketing
    = inl (sample_compiled (sample_dsl "dob" "x" "buy"))
  ∧ length (args (sample_compiled (sample_dsl "dob" "x" "buy"))) = 14%nat
  ∧ ∃ q, toClickHouse (sample_compiled (sample_dsl "dob" "x" "buy"))
           = inl (mkQuery q (imap (λ i v, (ch_name i, v))
                    (args (sample_compiled (sample_dsl "dob" "x" "buy")))))
       ∧ placeholders q = 0%nat.
Proof.
  assert (compile no_fmt (sample_dsl "dob" "x" "buy") "T" "A" marketing
    = inl (sample_compiled (sample_dsl "dob" "x" "buy"))) as H by (vm_compute; reflexivity).
  split; [exact H|]. split; [vm_compute; reflexivity|].
  exact (compile_toClickHouse no_fmt _ _ _ _ _ H).
Defined.

Lemma compile_text_by_shape_witness :
  shape_of (sample_dsl "plan" evil "buy") = shape_of (sample_dsl "k" "v" "e")
  ∧ sql (sample_compiled (sample_dsl "plan" evil "buy"))
    = sql (sample_compiled (sample_dsl "k" "v" "e")).
Proof.
  assert (shape_of (sample_dsl "plan" evil "buy") = shape_of (sample_dsl "k" "v" "e")) as Hs
    by (vm_compute; reflexivity).
  split; [exact Hs|].
  apply (compile_text_by_shape no_fmt (sample_dsl "plan" evil "buy") (sample_dsl "k" "v" "e")
    "T" "T" "A" "A" marketing); [vm_compute; reflexivity..|exact Hs].
Defined.
