(* ===== verification/Graph.v ===== *)
(** * Directed graphs: topological order and reachability

    The two graph algorithms the journey code runs, as it runs them, over an
    adjacency function [adj] (targets of a node, in edge order):
    - Kahn's queue loop ([validateGraph] of [packages/journey-model],
      [graphReadIssue] and [pathDurationRange] of the console), and
    - the stack walk of the nodes reachable from the start.
    Both are loops in the source; here they take fuel, and the theorems state
    how much is enough. *)

From S2P Require Import Prelude JsVal.

#[global] Open Scope Z_scope.

Lemma tc_flip {A} (R : relation A) x y : tc (flip R) x y → tc R y x.
Proof. induction 1 as [x y ?|x y z ? _ IH]; [by constructor|]. by eapply tc_r. Qed.

Lemma tc_mono {A} (R R' : relation A) x y : (∀ a b, R a b → R' a b) → tc R x y → tc R' x y.
Proof. intros H. apply (tc_congruence (λ x, x) R'). done. Qed.

(** ** Kahn's algorithm *)

Section Kahn.
Context (adj : string → list string).

(** [for (const target of adjacency.get(id) ?? [])]: one decrement of an
    in-degree; the target is queued when it reaches zero. *)
Definition relax (st : gmap string Z * list string) (target : string)
    : gmap string Z * list string :=
  let '(indegree, queue) := st in
  match indegree !! target with
  | None => st
  | Some d =>
      let degree := d - 1 in
      (<[target:=degree]> indegree, if degree =? 0 then queue ++ [target] else queue)
  end.

(** [for (let i = 0; i < queue.length; i++)] *)
Fixpoint kahn_loop (fuel : nat) (i : nat) (st : gmap string Z * list string)
    : gmap string Z * list string :=
  match fuel with
  | O => st
  | S fuel =>
      match snd st !! i with
      | None => st
      | Some id => kahn_loop fuel (S i) (fold_left relax (adj id) st)
      end
  end.

(** In-degrees: every node starts at 0, and each target that is a node counts. *)
Definition indegrees (nodes targets : list string) : gmap string Z :=
  fold_left (λ m t, match m !! t with Some d => <[t:=d + 1]> m | None => m end) targets
    (list_to_map (map (λ id, (id, 0)) nodes)).

Definition roots (nodes : list string) (indegree : gmap string Z) : list string :=
  List.filter (λ id, bool_decide (indegree !! id = Some 0)) nodes.

(** The queue after the loop; [sources] are the keys of the adjacency map. *)
Definition kahn (nodes sources : list string) : list string :=
  let indegree := indegrees nodes (flat_map adj sources) in
  snd (kahn_loop (S (length nodes)) 0 (indegree, roots nodes indegree)).

(** ** Counting *)

Fixpoint occ (t : string) (l : list string) : Z :=
  match l with
  | [] => 0
  | x :: l' => (if String.eqb t x then 1 else 0) + occ t l'
  end.

Lemma occ_nonneg t l : 0 <= occ t l.
Proof. induction l as [|x l IH]; simpl; [done|]. destruct (String.eqb t x); lia. Qed.
Lemma occ_app t l k : occ t (l ++ k) = occ t l + occ t k.
Proof. induction l as [|x l IH]; simpl; lia. Qed.
Lemma occ_pos t l : 0 < occ t l ↔ In t l.
Proof.
  induction l as [|x l IH]; simpl; [split; [lia|done]|].
  pose proof (occ_nonneg t l). destruct (String.eqb t x) eqn:E; b2p.
  - subst. split; [by left|lia].
  - rewrite <- IH. split; [by right|]. intros [->|?]; done.
Qed.

(** Occurrences of [t] among the targets of the sources outside [P]. *)
Fixpoint todo (t : string) (sources P : list string) : Z :=
  match sources with
  | [] => 0
  | s :: l => (if String_in s P then 0 else occ t (adj s)) + todo t l P
  end.

Lemma todo_nonneg t l P : 0 <= todo t l P.
Proof. induction l as [|s l IH]; simpl; [done|]. pose proof (occ_nonneg t (adj s)). destruct (String_in s P); lia. Qed.
Lemma todo_nil t l : todo t l [] = occ t (flat_map adj l).
Proof. induction l as [|s l IH]; simpl; [done|]. by rewrite occ_app, <- IH. Qed.
Lemma todo_pos t l P : 0 < todo t l P ↔ ∃ s, In s l ∧ ¬ In s P ∧ In t (adj s).
Proof.
  induction l as [|s l IH]; cbn [todo].
  - split; [lia|]. by intros (?&[]&_).
  - pose proof (occ_nonneg t (adj s)). pose proof (todo_nonneg t l P).
    destruct (String_in s P) eqn:E; b2p.
    + rewrite Z.add_0_l, IH. split; [intros (x&?&?&?); exists x; simpl; auto|].
      intros (x&[->|?]&?&?); [done|eauto].
    + split.
      * intros H1. destruct (decide (0 < occ t (adj s))) as [Ho|Ho].
        -- exists s. rewrite occ_pos in Ho. simpl; auto.
        -- assert (0 < todo t l P) as (x&?&?&?)%IH by lia. exists x; simpl; auto.
      * intros (x&[->|?]&?&Hx).
        -- apply occ_pos in Hx. lia.
        -- assert (0 < todo t l P) by (apply IH; eauto). lia.
Qed.

(** Processing one more node takes exactly its targets away. *)
Lemma todo_snoc t l P v :
  List.NoDup l → ¬ In v P → (¬ In v l → adj v = []) →
  todo t l P = todo t l (P ++ [v]) + occ t (adj v).
Proof.
  assert (∀ k, ¬ In v k → todo t k P = todo t k (P ++ [v])) as Hout.
  { clear. intros k. induction k as [|s k IH]; [done|]. cbn [todo]. intros Hv.
    assert (String_in s (P ++ [v]) = String_in s P) as ->.
    { apply eq_true_iff_eq. rewrite !String_in_spec, in_app_iff.
      split; [|by left]. intros [?|[->|[]]]; [done|]. by destruct Hv; left. }
    rewrite IH; [done|]. intros ?. by destruct Hv; right. }
  intros Hnd HP Hkey. destruct (in_dec String.string_dec v l) as [Hin|Hin].
  - induction l as [|s l IH]; [done|]. cbn [todo]. inversion Hnd as [|? ? Hs Hl]; subst.
    destruct Hin as [->|Hin].
    + rewrite (Hout l) by done.
      assert (String_in v P = false) as -> by by apply String_in_false.
      assert (String_in v (P ++ [v]) = true) as ->.
      { apply String_in_spec, in_app_iff. right; by left. }
      lia.
    + assert (String_in s (P ++ [v]) = String_in s P) as ->.
      { apply eq_true_iff_eq. rewrite !String_in_spec, in_app_iff.
        split; [|by left]. intros [?|[->|[]]]; done. }
      rewrite IH; [lia|done..|]. done.
  - rewrite (Hout l) by done. rewrite Hkey by done. simpl. lia.
Qed.

(** ** In-degrees and the relaxation of one adjacency list *)

Lemma list_to_map_zero nodes t :
  (list_to_map (map (λ id, (id, 0)) nodes) : gmap string Z) !! t
    = if String_in t nodes then Some 0 else None.
Proof.
  induction nodes as [|x l IH]; [done|]. simpl. rewrite String_in_cons.
  destruct (String.eqb t x) eqn:E; b2p.
  - subst. by rewrite lookup_insert_eq.
  - by rewrite lookup_insert_ne.
Qed.

Lemma indegrees_lookup nodes targets t :
  indegrees nodes targets !! t = if String_in t nodes then Some (occ t targets) else None.
Proof.
  unfold indegrees. set (m0 := list_to_map _).
  assert (∀ m : gmap string Z, fold_left
      (λ m t, match m !! t with Some d => <[t:=d + 1]> m | None => m end) targets m !! t
    = match m !! t with Some d => Some (d + occ t targets) | None => None end) as H.
  { induction targets as [|x l IH]; intros m; simpl.
    - destruct (m !! t); [by rewrite Z.add_0_r|done].
    - rewrite IH. destruct (String.eqb t x) eqn:E; b2p.
      + subst. destruct (m !! x) eqn:Hx; [rewrite lookup_insert_eq|by rewrite Hx].
        f_equal. lia.
      + destruct (m !! x); [by rewrite lookup_insert_ne|done]. }
  rewrite H. unfold m0. rewrite list_to_map_zero. by destruct (String_in t nodes).
Qed.

(** The loop only lowers in-degrees of nodes, and appends to the queue exactly
    the nodes whose in-degree it brings from positive to zero. *)
Lemma fold_relax ts indeg queue :
  let '(indeg', queue') := fold_left relax ts (indeg, queue) in
  (∀ t, indeg' !! t = (λ d, d - occ t ts) <$> indeg !! t)
  ∧ ∃ new, queue' = queue ++ new
    ∧ (∀ t, In t new ↔ ∃ d, indeg !! t = Some d ∧ 0 < d ∧ d - occ t ts <= 0)
    ∧ List.NoDup new.
Proof.
  revert indeg queue. induction ts as [|x ts IH]; intros indeg queue; cbn [fold_left].
  - split; [intros t; simpl; destruct (indeg !! t); simpl; [by rewrite Z.sub_0_r|done]|].
    exists []. rewrite app_nil_r. split; [done|]. split; [|constructor].
    intros t. simpl. split; [done|]. intros (d&_&?&?). lia.
  - cbn [relax]. destruct (indeg !! x) as [d|] eqn:Hx.
    + specialize (IH (<[x:=d - 1]> indeg) (if d - 1 =? 0 then queue ++ [x] else queue)).
      destruct (fold_left relax ts _) as [indeg' queue']. destruct IH as (Hd&new&Hq&Hin&Hnd).
      split.
      { intros t. rewrite Hd. cbn [occ]. destruct (String.eqb t x) eqn:E; b2p.
        - subst. rewrite lookup_insert_eq, Hx. simpl. f_equal. lia.
        - rewrite lookup_insert_ne by done. by destruct (indeg !! t). }
      assert (∀ t d', t ≠ x → (<[x:=d - 1]> indeg : gmap string Z) !! t = Some d' ↔ indeg !! t = Some d') as Hne.
      { intros t d' ?. by rewrite lookup_insert_ne. }
      pose proof (occ_nonneg x ts).
      destruct (d - 1 =? 0) eqn:E; b2p.
      * exists (x :: new). rewrite Hq, <- app_assoc. split; [done|]. split.
        -- intros t. cbn [In occ]. rewrite Hin. destruct (decide (t = x)) as [->|Hne'].
           ++ rewrite String.eqb_refl, Hx. split; [intros _; exists d; split; [done|lia]|by left].
           ++ assert (String.eqb t x = false) as -> by by apply String.eqb_neq.
              rewrite Z.add_0_l. setoid_rewrite Hne; [|done..].
              split; [by intros [?|?]|by right].
        -- constructor; [|done]. rewrite Hin, lookup_insert_eq. intros (d'&[= <-]&?&?). lia.
      * exists new. split; [done|]. split; [|done].
        intros t. rewrite Hin. cbn [occ]. destruct (decide (t = x)) as [->|Hne'].
        -- rewrite String.eqb_refl, lookup_insert_eq, Hx. split.
           ++ intros (d'&[= <-]&?&?). exists d. split; [done|lia].
           ++ intros (d'&[= <-]&?&?). exists (d - 1). split; [done|lia].
        -- assert (String.eqb t x = false) as -> by by apply String.eqb_neq.
           rewrite Z.add_0_l. by setoid_rewrite Hne.
    + specialize (IH indeg queue). destruct (fold_left relax ts _) as [indeg' queue'].
      destruct IH as (Hd&new&Hq&Hin&Hnd). split.
      { intros t. rewrite Hd. cbn [occ]. destruct (String.eqb t x) eqn:E; b2p; [|done].
        subst. by rewrite Hx. }
      exists new. split; [done|]. split; [|done]. intros t. rewrite Hin. cbn [occ].
      destruct (String.eqb t x) eqn:E; b2p; [|done]. subst. rewrite Hx.
      split; by intros (?&?&_).
Qed.

(** ** The invariant of the loop *)

Context (nodes sources : list string).
Context (Hnodes : List.NoDup nodes) (Hsources : List.NoDup sources).
Context (Hadj : ∀ v, ¬ In v sources → adj v = []).

Record kahn_inv (i : nat) (st : gmap string Z * list string) : Prop := {
  ki_indegree t : fst st !! t = if String_in t nodes then Some (todo t sources (take i (snd st))) else None;
  ki_NoDup : List.NoDup (snd st);
  ki_bound : (i <= length (snd st))%nat;
  ki_In t : In t (snd st) ↔ In t nodes ∧ todo t sources (take i (snd st)) = 0;
  ki_before j t : snd st !! j = Some t → todo t sources (take j (snd st)) = 0
}.

Lemma todo_mono t P Q : (∀ x, In x P → In x Q) → todo t sources Q <= todo t sources P.
Proof.
  intros HPQ. clear Hsources Hadj. induction sources as [|s l IH]; [done|]. cbn [todo].
  pose proof (occ_nonneg t (adj s)). destruct (String_in s P) eqn:E; b2p.
  - assert (String_in s Q = true) as -> by by apply String_in_spec, HPQ. lia.
  - destruct (String_in s Q); lia.
Qed.

Lemma kahn_inv_init :
  let indegree := indegrees nodes (flat_map adj sources) in
  kahn_inv 0 (indegree, roots nodes indegree).
Proof.
  assert (∀ t, In t (roots nodes (indegrees nodes (flat_map adj sources))) ↔
    In t nodes ∧ todo t sources [] = 0) as Hroots.
  { intros t. unfold roots. rewrite filter_In, bool_decide_eq_true, indegrees_lookup, todo_nil.
    split; intros [Ht Hz]; (split; [done|]); apply String_in_spec in Ht; rewrite Ht in *; congruence. }
  split; simpl; intros *.
  - rewrite take_0, indegrees_lookup. by rewrite todo_nil.
  - by apply List.NoDup_filter.
  - lia.
  - rewrite take_0. apply Hroots.
  - intros Hj. apply list_elem_of_lookup_2, list_elem_of_In, Hroots in Hj as [_ Hj].
    pose proof (todo_mono t [] (take j (roots nodes (indegrees nodes (flat_map adj sources))))) as Hm.
    pose proof (todo_nonneg t sources (take j (roots nodes (indegrees nodes (flat_map adj sources))))).
    specialize (Hm ltac:(done)). lia.
Qed.

Lemma kahn_inv_step i st id :
  kahn_inv i st → snd st !! i = Some id → kahn_inv (S i) (fold_left relax (adj id) st).
Proof.
  destruct st as [indeg queue]. intros [Hd Hnd Hb Hin Hbef] Hi. simpl in *.
  pose proof (fold_relax (adj id) indeg queue) as H.
  destruct (fold_left relax (adj id) (indeg, queue)) as [indeg' queue'].
  destruct H as (Hd'&new&->&Hnew&Hndn).
  pose proof (lookup_lt_Some _ _ _ Hi) as Hlt.
  assert (take (S i) (queue ++ new) = take i queue ++ [id]) as Htk.
  { rewrite take_app_le by lia. by rewrite (take_S_r _ _ id). }
  assert (¬ In id (take i queue)) as Hni.
  { intros (k&Hk)%list_elem_of_In%list_elem_of_lookup_1.
    apply lookup_take_Some in Hk as [Hk ?]. apply NoDup_ListNoDup in Hnd.
    pose proof (NoDup_lookup _ _ _ _ Hnd Hi Hk). lia. }
  assert (∀ t, todo t sources (take i queue) = todo t sources (take i queue ++ [id]) + occ t (adj id)) as Htodo.
  { intros t. apply todo_snoc; [done|done|apply Hadj]. }
  assert (∀ t, In t new ↔ In t nodes ∧ 0 < todo t sources (take i queue)
                           ∧ todo t sources (take i queue ++ [id]) = 0) as Hnew'.
  { intros t. rewrite Hnew, Hd. specialize (Htodo t).
    pose proof (todo_nonneg t sources (take i queue ++ [id])).
    destruct (String_in t nodes) eqn:E; b2p; split.
    - intros (d&[= <-]&?&?). split; [done|lia].
    - intros (_&?&?). eexists. split; [done|lia].
    - by intros (?&?&?).
    - by intros (?&?&?). }
  assert (∀ t, In t (queue ++ new) ↔ In t nodes ∧ todo t sources (take i queue ++ [id]) = 0) as Hall.
  { intros t. rewrite in_app_iff, Hin, Hnew'. specialize (Htodo t).
    pose proof (todo_nonneg t sources (take i queue ++ [id])). pose proof (occ_nonneg t (adj id)).
    split; [intros [[? ?]|(?&?&?)]; (split; [done|lia])|].
    intros [? ?]. destruct (decide (todo t sources (take i queue) = 0)); [by left|right].
    split; [done|]. lia. }
  split; simpl; rewrite ?Htk; intros *.
  - rewrite Hd', Hd. destruct (String_in t nodes); [|done]. simpl. rewrite (Htodo t). f_equal. lia.
  - apply NoDup_ListNoDup, NoDup_app. rewrite <- !NoDup_ListNoDup in *. split; [done|]. split; [|done].
    intros t Ht Hn. apply list_elem_of_In in Ht, Hn. apply Hin in Ht. apply Hnew' in Hn. lia.
  - rewrite length_app. lia.
  - apply Hall.
  - intros Hj. destruct (decide (j < length queue)%nat) as [Hl|Hl].
    + rewrite lookup_app_l in Hj by done. rewrite take_app_le by lia. by apply Hbef.
    + assert (In t (queue ++ new)) as [_ Ht]%Hall
        by by apply list_elem_of_In, (list_elem_of_lookup_2 _ j).
      pose proof (todo_nonneg t sources (take j (queue ++ new))).
      pose proof (todo_mono t (take i queue ++ [id]) (take j (queue ++ new))) as Hm.
      assert (∀ x, In x (take i queue ++ [id]) → In x (take j (queue ++ new))) as Hsub; [|specialize (Hm Hsub); lia].
      intros x. rewrite <- Htk, <- !list_elem_of_In, !list_elem_of_lookup.
      setoid_rewrite lookup_take_Some. intros (k&?&?). exists k. split; [done|lia].
Qed.

Lemma kahn_inv_nodes i st : kahn_inv i st → (length (snd st) <= length nodes)%nat.
Proof.
  intros H. apply NoDup_incl_length; [apply H|]. intros t Ht. by apply (ki_In _ _ H) in Ht as [? _].
Qed.

Lemma kahn_loop_inv fuel i st :
  kahn_inv i st → (length nodes < fuel + i)%nat →
  ∃ st', kahn_loop fuel i st = st' ∧ kahn_inv (length (snd st')) st'.
Proof.
  revert i st. induction fuel as [|fuel IH]; intros i st Hinv Hf.
  - pose proof (kahn_inv_nodes _ _ Hinv). destruct Hinv. lia.
  - cbn [kahn_loop]. destruct (snd st !! i) as [id|] eqn:E.
    + apply IH; [by apply kahn_inv_step|lia].
    + exists st. split; [done|]. apply lookup_ge_None in E.
      assert (length (snd st) = i) as -> by (pose proof (ki_bound _ _ Hinv); lia). done.
Qed.

(** ** What the loop computes *)

(** Every source of an edge into a queued node is queued before it. *)
Lemma kahn_order j t s :
  kahn nodes sources !! j = Some t → In s sources → In t (adj s) →
  In s (take j (kahn nodes sources)).
Proof.
  unfold kahn. destruct (kahn_loop_inv (S (length nodes)) 0 _ kahn_inv_init) as (st&->&H); [lia|].
  intros Hj Hs Ht. apply (ki_before _ _ H) in Hj.
  destruct (in_dec String.string_dec s (take j (snd st))) as [|Hn]; [done|].
  assert (0 < todo t sources (take j (snd st))) by (apply todo_pos; eauto). lia.
Qed.

Lemma kahn_NoDup : List.NoDup (kahn nodes sources).
Proof.
  unfold kahn. destruct (kahn_loop_inv (S (length nodes)) 0 _ kahn_inv_init) as (st&->&H); [lia|].
  apply H.
Qed.

(** The nodes left out are exactly those with a source that is left out. *)
Lemma kahn_In t :
  In t (kahn nodes sources) ↔
  In t nodes ∧ ∀ s, In s sources → In t (adj s) → In s (kahn nodes sources).
Proof.
  unfold kahn. destruct (kahn_loop_inv (S (length nodes)) 0 _ kahn_inv_init) as (st&->&H); [lia|].
  rewrite (ki_In _ _ H t), firstn_all. pose proof (todo_nonneg t sources (snd st)). split.
  - intros [? Hz]. split; [done|]. intros s ? ?.
    destruct (in_dec String.string_dec s (snd st)) as [|Hn]; [done|].
    assert (0 < todo t sources (snd st)) by (apply todo_pos; eauto). lia.
  - intros [? Hp]. split; [done|]. destruct (decide (0 < todo t sources (snd st))) as [Hz|]; [|lia].
    apply todo_pos in Hz as (s&?&?&?). naive_solver.
Qed.

Definition graph_edge (s t : string) : Prop := In s sources ∧ In t nodes ∧ In t (adj s).

(** The loop processes every node exactly when no node lies on a cycle. *)
Lemma kahn_acyclic :
  (∀ s, In s sources → In s nodes) →
  (length (kahn nodes sources) = length nodes ↔ ∀ x, ¬ tc graph_edge x x).
Proof.
  intros Hsn. assert (incl (kahn nodes sources) nodes) as Hincl.
  { intros t Ht. by apply kahn_In in Ht as [? _]. }
  split.
  - intros Hlen.
    assert (incl nodes (kahn nodes sources)) as Hall.
    { apply NoDup_length_incl; [apply kahn_NoDup|lia|done]. }
    assert (∀ x y i j, tc graph_edge x y → kahn nodes sources !! i = Some x →
      kahn nodes sources !! j = Some y → (i < j)%nat) as Hlt.
    { assert (∀ x y i j, graph_edge x y → kahn nodes sources !! i = Some x →
        kahn nodes sources !! j = Some y → (i < j)%nat) as H1.
      { intros x y i j (Hs&Hn&Ha) Hi Hj.
        pose proof (kahn_order _ _ _ Hj Hs Ha) as (k&Hk)%list_elem_of_In%list_elem_of_lookup_1.
        apply lookup_take_Some in Hk as [Hk ?].
        assert (i = k) as ->; [|done]. eapply NoDup_lookup; [|done..].
        apply NoDup_ListNoDup, kahn_NoDup. }
      intros x y i j Hxy. revert i j. induction Hxy as [x y Hxy|x y z Hxy Hyz IH]; [eauto|].
      intros i j Hi Hj. pose proof Hxy as (_&Hn&_).
      apply Hall in Hn as (k&Hk)%list_elem_of_In%list_elem_of_lookup_1.
      assert (i < k)%nat by by (eapply H1).
      specialize (IH _ _ Hk Hj). lia. }
    intros x Hx. assert (In x nodes) as Hn.
    { assert (∀ x y, tc graph_edge x y → In x nodes) as H by (intros ?? Hxy; destruct Hxy as [?? (?&?)|??? (?&?) ?]; auto). eauto. }
    apply Hall in Hn as (k&Hk)%list_elem_of_In%list_elem_of_lookup_1.
    specialize (Hlt _ _ _ _ Hx Hk Hk). lia.
  - intros Hac. apply Nat.le_antisymm; [by apply NoDup_incl_length; [apply kahn_NoDup|]|].
    apply NoDup_incl_length; [done|]. intros t Ht.
    assert (sn (flip graph_edge) t) as Hsn'.
    { apply tc_finite_sn.
      - intros x Hx. apply (Hac x). by apply tc_flip in Hx.
      - exists nodes. intros y Hy. apply list_elem_of_In.
        apply tc_flip in Hy. destruct Hy as [?? (?&?)|??? (?&?) ?]; auto. }
    induction Hsn' as [t _ IH]. apply kahn_In. split; [done|].
    intros s Hs Hin. apply IH; [|auto]. by split.
Qed.
End Kahn.

(** ** The stack walk of the reachable nodes

    [while (pending.length) { const id = pending.pop()!; if (reached.has(id))
    continue; reached.add(id); pending.push(...(adjacency.get(id) ?? [])); }] *)

Section Walk.
Context (adj : string → list string).

Fixpoint walk (fuel : nat) (reached pending : list string) : list string :=
  match fuel with
  | O => reached
  | S fuel =>
      match pending with
      | [] => reached
      | id :: rest =>
          if String_in id reached then walk fuel reached rest
          else walk fuel (reached ++ [id]) (rev (adj id) ++ rest)
      end
  end.

(** One step per pending entry: the start entries and every edge once. *)
Definition walk_from (sources pending : list string) : list string :=
  walk (S (length pending + length (flat_map adj sources))) [] pending.

(** Targets the walk has still to push. *)
Fixpoint unpushed (sources reached : list string) : nat :=
  match sources with
  | [] => 0
  | s :: l => (if String_in s reached then 0 else length (adj s)) + unpushed l reached
  end.

Lemma unpushed_nil l : unpushed l [] = length (flat_map adj l).
Proof. induction l as [|s l IH]; simpl; [done|]. by rewrite length_app, <- IH. Qed.

Lemma unpushed_out l P v : ¬ In v l → unpushed l (P ++ [v]) = unpushed l P.
Proof.
  induction l as [|s l IH]; [done|]. cbn [unpushed]. intros Hv.
  assert (String_in s (P ++ [v]) = String_in s P) as ->.
  { apply eq_true_iff_eq. rewrite !String_in_spec, in_app_iff.
    split; [|by left]. intros [?|[->|[]]]; [done|]. by destruct Hv; left. }
  rewrite IH; [done|]. intros ?. by destruct Hv; right.
Qed.

Lemma unpushed_snoc l P v :
  List.NoDup l → ¬ In v P → (¬ In v l → adj v = []) →
  (unpushed l (P ++ [v]) + length (adj v) = unpushed l P)%nat.
Proof.
  intros Hnd HP Hkey. destruct (in_dec String.string_dec v l) as [Hin|Hin].
  - induction l as [|s l IH]; [done|]. cbn [unpushed]. inversion Hnd as [|? ? Hs Hl]; subst.
    destruct (decide (s = v)) as [->|Hne].
    + rewrite unpushed_out by done.
      assert (String_in v P = false) as -> by by apply String_in_false.
      assert (String_in v (P ++ [v]) = true) as ->.
      { apply String_in_spec, in_app_iff. right; by left. }
      lia.
    + destruct Hin as [|Hin]; [done|].
      assert (String_in s (P ++ [v]) = String_in s P) as ->.
      { apply eq_true_iff_eq. rewrite !String_in_spec, in_app_iff.
        split; [|by left]. intros [?|[->|[]]]; done. }
      rewrite <- IH; [lia|done..].
  - rewrite unpushed_out by done. rewrite Hkey by done. simpl. lia.
Qed.

Definition step_to (x y : string) : Prop := In y (adj x).

Lemma walk_spec sources fuel reached pending x :
  List.NoDup sources → (∀ v, ¬ In v sources → adj v = []) →
  (∀ y z, In y reached → In z (adj y) → In z reached ∨ In z pending) →
  (length pending + unpushed sources reached < fuel)%nat →
  In x (walk fuel reached pending) ↔ In x reached ∨ ∃ p, In p pending ∧ rtc step_to p x.
Proof.
  intros Hnd Hadj. revert reached pending.
  induction fuel as [|fuel IH]; intros reached pending Hcl Hf; [lia|]. cbn [walk].
  destruct pending as [|id rest]; [split; [by left|]; by intros [?|(?&[]&_)]|]. simpl in Hf.
  destruct (String_in id reached) eqn:E; b2p.
  - rewrite IH; [|intros y z Hy Hz; destruct (Hcl _ _ Hy Hz) as [?|[<-|?]]; auto|lia].
    split; [intros [?|(p&?&?)]; [by left|right; exists p; simpl; auto]|].
    intros [?|(p&[<-|?]&Hp)]; [by left| |right; eauto].
    assert (∀ y, rtc step_to y x → In y reached → In x reached ∨ ∃ p, In p rest ∧ rtc step_to p x) as Hgo;
      [|by eapply Hgo].
    clear Hp. intros y Hyx. induction Hyx as [|y z x Hyz Hzx IHx]; [by left|].
    intros Hy. destruct (Hcl _ _ Hy Hyz) as [Hz|[<-|Hz]]; eauto.
  - pose proof (unpushed_snoc sources reached id Hnd E (Hadj id)) as Hun. rewrite IH.
    + setoid_rewrite in_app_iff. setoid_rewrite <- in_rev. split.
      * intros [[?|[<-|[]]]|(p&[Hp|?]&?)]; [by left|right..].
        -- exists id. split; [by left|done].
        -- exists id. split; [by left|]. by apply rtc_l with p.
        -- exists p. split; [by right|done].
      * intros [?|(p&[<-|?]&Hp)]; [by left; left| |right; eauto].
        inversion Hp as [|? z ? Hz ?]; subst; [by left; right; left|right; eauto].
    + intros y z [Hy|[<-|[]]]%in_app_iff Hz; setoid_rewrite in_app_iff.
      * destruct (Hcl _ _ Hy Hz) as [?|[<-|?]]; simpl; auto.
      * right; left. by apply in_rev in Hz.
    + rewrite length_app, length_rev. lia.
Qed.

(** The walk returns exactly the nodes reachable from its start entries. *)
Lemma walk_from_spec sources pending x :
  List.NoDup sources → (∀ v, ¬ In v sources → adj v = []) →
  In x (walk_from sources pending) ↔ ∃ p, In p pending ∧ rtc step_to p x.
Proof.
  intros Hnd Hadj. unfold walk_from. rewrite walk_spec; [|done|done|by intros ?? []|].
  - simpl. naive_solver.
  - rewrite unpushed_nil. lia.
Qed.

Lemma walk_NoDup fuel reached pending : List.NoDup reached → List.NoDup (walk fuel reached pending).
Proof.
  revert reached pending. induction fuel as [|fuel IH]; intros reached [|id rest] H; simpl; [done..|].
  destruct (String_in id reached) eqn:E; b2p; apply IH; [done|].
  apply NoDup_ListNoDup, NoDup_app. split; [by apply NoDup_ListNoDup|]. split; [|by apply NoDup_singleton].
  intros x Hx%list_elem_of_In [->|[]]%list_elem_of_In. done.
Qed.
End Walk.
