(* ===== verification/BranchCondition.v ===== *)
(** * Branch conditions of a journey ([packages/journey-model/src/validation.ts])

    [validateBranchCondition] reads an untrusted JSON value and reports every
    defect it finds.  The value is a [jsval]; the theorems say which values are
    accepted, as a grammar ([branch_ok]). *)

From Stdlib Require Import Ascii QArith.
From S2P Require Import Prelude JsVal.

#[global] Open Scope Z_scope.

(** ** Reading properties *)

(** [v.k] (and [v?.k]) on a parsed JSON value; a property of anything that is
    not an object is [undefined] (the keys read here are no array indices). *)
Definition prop (v : jsval) (k : string) : jsval :=
  match v with JObj fields => default JUndef (JMap.get fields k) | _ => JUndef end.

(** [Object.keys(v)], reached only on objects *)
Definition Object_keys (v : jsval) : list string :=
  match v with JObj fields => JMap.keys fields | _ => [] end.

(** [l.includes(v)] and [set.has(v)] for a list of string literals *)
Definition includes (l : list string) (v : jsval) : bool :=
  match v with JStr s => String_in s l | _ => false end.

Definition is_number_eq (v : jsval) (z : Z) : bool :=
  match v with JNum n => num_eqb n (NInt z) | _ => false end.

Definition is_undef (v : jsval) : bool := match v with JUndef => true | _ => false end.

(** [a ?? b] *)
Definition nullish (a b : jsval) : jsval := if is_nullish a then b else a.

(** [Number.isInteger(v)] with the bounds the code tests next to it *)
Definition integer_between (v : jsval) (lo hi : Z) : bool :=
  match v with
  | JNum n => Number_isInteger n && negb (num_ltb n (NInt lo)) && negb (num_ltb (NInt hi) n)
  | _ => false
  end.

(** [Number.isInteger(v) && v > 0 && v <= hi] *)
Definition positive_upto (v : jsval) (hi : Z) : bool :=
  match v with
  | JNum n => Number_isInteger n && num_ltb (NInt 0) n && num_leb n (NInt hi)
  | _ => false
  end.

(** [if (c) errors.push(message);] *)
Definition fail_if (c : bool) (message : string) : list string :=
  if c then [message] else [].

Lemma fail_if_nil c m : fail_if c m = [] ↔ c = false.
Proof. by destruct c. Qed.

(** ** Constants and scalar checks *)

Definition ATTRIBUTE_OPS : list string :=
  ["eq"; "neq"; "gt"; "gte"; "lt"; "lte"; "in"; "exists"; "not_exists"; "contains";
   "before"; "after"; "in_last_days"; "not_in_last_days"].
Definition MAX_DURATION_SECONDS : Z := 9223372036.

Definition validDuration (n : num) : bool :=
  Number_isSafeInteger n && num_ltb (NInt 0) n && num_leb n (NInt MAX_DURATION_SECONDS).

Definition nonempty (s : jsval) : bool :=
  match s with JStr s => negb (blank s) | _ => false end.

Definition scalar (v : jsval) : bool :=
  match v with
  | JStr _ | JBool _ => true
  | JNum n => Number_isFinite n
  | _ => false
  end.

(** ** Dates *)

Definition digit (c : ascii) : Z := byte c - 48.

(** The regular expression: [n] characters of a class each, in order. *)
Fixpoint match_classes (classes : list (ascii → bool)) (s : string) : option string :=
  match classes, s with
  | [], _ => Some s
  | p :: classes, String c s => if p c then match_classes classes s else None
  | _ :: _, EmptyString => None
  end.

Definition chr (c : ascii) : ascii → bool := Ascii.eqb c.
Definition d (c : ascii) : bool := is_digit c.

(** [\d{4}-\d{2}-\d{2}] *)
Definition date_classes : list (ascii → bool) := [d; d; d; d; chr "-"; d; d; chr "-"; d; d].

(** [(?:[01]\d|2[0-3])] *)
Definition hour (s : string) : option string :=
  match s with
  | String a (String b s) =>
      if ((Ascii.eqb a "0" || Ascii.eqb a "1") && d b)
         || (Ascii.eqb a "2" && (48 <=? byte b) && (byte b <=? 51)) then Some s else None
  | _ => None
  end.
(** [[0-5]\d] *)
Definition sixty (s : string) : option string :=
  match_classes [λ c, (48 <=? byte c) && (byte c <=? 53); d] s.
(** [(?:\.\d{1,9})?], at most [n] digits *)
Fixpoint digits (n : nat) (s : string) : string :=
  match n, s with
  | S n, String c s' => if d c then digits n s' else s
  | _, _ => s
  end.
Definition fraction (s : string) : option string :=
  match s with
  | String c s' =>
      if Ascii.eqb c "." then
        match s' with String e s'' => if d e then Some (digits 8 s'') else None | _ => None end
      else Some s
  | _ => Some s
  end.
(** [([01]\d|2[0-3]):([0-5]\d)] *)
Definition hhmm (s : string) : option string :=
  s ← hour s; s ← match_classes [chr ":"] s; sixty s.
(** [(?:Z|[+-](?:[01]\d|2[0-3]):[0-5]\d)] up to the end of the string *)
Definition zone (s : string) : bool :=
  match s with
  | String c s' =>
      (Ascii.eqb c "Z" && String.eqb s' "")
      || ((Ascii.eqb c "+" || Ascii.eqb c "-")
          && bool_decide (hhmm s' = Some ""))
  | _ => false
  end.
(** the optional time of day *)
Definition time_of_day (s : string) : bool :=
  String.eqb s ""
  || match (s ← match_classes [chr "T"] s; s ← hhmm s; s ← match_classes [chr ":"] s;
            s ← sixty s; fraction s) with
     | Some rest => zone rest
     | None => false
     end.

(** The groups of the date: year, month, day. *)
Definition date_match (s : string) : option (Z * Z * Z) :=
  match s with
  | String y1 (String y2 (String y3 (String y4 (String _ (String m1 (String m2
      (String _ (String d1 (String d2 rest))))))))) =>
      if bool_decide (is_Some (match_classes date_classes s)) && time_of_day rest then
        Some (digit y1 * 1000 + digit y2 * 100 + digit y3 * 10 + digit y4,
              digit m1 * 10 + digit m2, digit d1 * 10 + digit d2)
      else None
  | _ => None
  end.

Definition leap (y : Z) : bool :=
  ((y mod 4 =? 0) && negb (y mod 100 =? 0)) || (y mod 400 =? 0).
Definition days_in_month (y m : Z) : Z :=
  if m =? 2 then (if leap y then 29 else 28)
  else if (m =? 4) || (m =? 6) || (m =? 9) || (m =? 11) then 30 else 31.

(** [Date.parse] accepts days 1 to 31 of any month ... *)
Definition date_parses (m d : Z) : bool :=
  (1 <=? m) && (m <=? 12) && (1 <=? d) && (d <=? 31).
(** ... and [toISOString] shows the day a date past the month's end rolls to. *)
Definition rolled_date (y m d : Z) : Z * Z * Z :=
  if d <=? days_in_month y m then (y, m, d) else (y, m + 1, d - days_in_month y m).

Definition validDate (v : jsval) : bool :=
  match v with
  | JStr s =>
      match date_match s with
      | Some (y, m, d) => date_parses m d && bool_decide (rolled_date y m d = (y, m, d))
      | None => false
      end
  | _ => false
  end.

(** ** The checks of one condition *)

Definition event_errors (c : jsval) : list string :=
  fail_if (existsb (λ k, negb (String_in k ["type"; "event"; "op"; "window_days"])) (Object_keys c))
    "이벤트 속성·횟수 필터는 아직 지원하지 않습니다"
  ++ fail_if (negb (nonempty (prop c "event"))) "조건 이벤트 이름이 필요합니다"
  ++ fail_if (negb (includes ["performed"; "not_performed"] (prop c "op")))
       "행동 조건은 수행·미수행만 지원합니다"
  ++ fail_if (negb (integer_between (nullish (prop c "window_days") (JNum (NInt 30))) 1 180))
       "행동 조회 기간은 1~180일이어야 합니다".

Definition finite_number (v : jsval) : bool :=
  match v with JNum n => Number_isFinite n | _ => false end.
Definition scalar_list (v : jsval) : bool :=
  match v with JArr [] => false | JArr l => forallb scalar l | _ => false end.

Definition attribute_errors (c : jsval) : list string :=
  let op := prop c "op" in
  let value := prop c "value" in
  fail_if (existsb (λ k, negb (String_in k ["type"; "key"; "op"; "value"])) (Object_keys c))
    "지원하지 않는 속성 조건 필드입니다"
  ++ fail_if (negb (nonempty (prop c "key"))) "고객 속성을 선택하세요"
  ++ fail_if (negb (includes ATTRIBUTE_OPS op)) "지원하지 않는 속성 연산자입니다"
  ++ fail_if (negb (includes ["exists"; "not_exists"] op) && is_undef value)
       "속성 비교값이 필요합니다"
  ++ fail_if (includes ["eq"; "neq"] op && negb (scalar value))
       "비교값은 문자열·숫자·참/거짓이어야 합니다"
  ++ fail_if (includes ["gt"; "gte"; "lt"; "lte"] op && negb (finite_number value))
       "크기 비교값은 숫자여야 합니다"
  ++ fail_if (includes ["contains"] op && negb (is_string value)) "배열에 포함될 문자열을 입력하세요"
  ++ fail_if (includes ["in"] op && negb (scalar_list value))
       "포함 목록에는 문자열·숫자·참/거짓 값을 하나 이상 입력하세요"
  ++ fail_if (includes ["before"; "after"] op && negb (validDate value))
       "날짜는 YYYY-MM-DD 또는 시간대가 포함된 ISO 날짜·시간으로 입력하세요"
  ++ fail_if (includes ["in_last_days"; "not_in_last_days"] op && negb (positive_upto value 106751))
       "속성 조회 기간은 1~106751일 사이의 정수여야 합니다".

Definition condition_errors (c : jsval) : list string :=
  if includes ["event"] (prop c "type") then event_errors c
  else if includes ["attribute"] (prop c "type") then attribute_errors c
  else ["분기는 고객 속성과 이벤트 수행·미수행 조건만 지원합니다"].

(** [!Array.isArray(v) || !v.length], else the elements *)
Definition nonempty_array (v : jsval) : option (list jsval) :=
  match v with JArr [] => None | JArr l => Some l | _ => None end.

Definition group_errors (group : jsval) : list string :=
  match includes ["AND"; "OR"] (prop group "operator"), nonempty_array (prop group "conditions") with
  | true, Some conditions =>
      fail_if (50 <? Z.of_nat (length conditions)) "그룹당 조건은 최대 50개입니다"
      ++ fail_if (existsb (λ k, negb (String_in k ["operator"; "conditions"])) (Object_keys group))
           "지원하지 않는 조건 그룹 필드입니다"
      ++ flat_map condition_errors conditions
  | _, _ => ["각 그룹에 조건을 하나 이상 설정하세요"]
  end.

Definition validateBranchCondition (dsl : jsval) : list string :=
  match is_number_eq (prop dsl "version") 1 && includes ["AND"; "OR"] (prop dsl "operator"),
        nonempty_array (prop dsl "groups") with
  | true, Some groups =>
      dedup
        (fail_if (20 <? Z.of_nat (length groups)) "조건 그룹은 최대 20개입니다"
         ++ fail_if (existsb (λ k, negb (String_in k ["version"; "operator"; "groups"])) (Object_keys dsl))
              "지원하지 않는 조건 정의 필드입니다"
         ++ flat_map group_errors groups)
  | _, _ => ["조건 그룹을 하나 이상 설정하세요"]
  end.

(** ** The grammar of accepted conditions *)

Definition keys_within (v : jsval) (keys : list string) : Prop := incl (Object_keys v) keys.

(** The comparison value each attribute operator takes. *)
Inductive value_ok : string → jsval → Prop :=
| value_exists op v : In op ["exists"; "not_exists"] → value_ok op v
| value_scalar op v : In op ["eq"; "neq"] → scalar v = true → value_ok op v
| value_order op q : In op ["gt"; "gte"; "lt"; "lte"] → value_ok op (JNum (NFin q))
| value_contains s : value_ok "contains" (JStr s)
| value_in v l : Forall (λ x, scalar x = true) (v :: l) → value_ok "in" (JArr (v :: l))
| value_date op s y m d :
    In op ["before"; "after"] → date_match s = Some (y, m, d) →
    1 <= m <= 12 → 1 <= d <= days_in_month y m → value_ok op (JStr s)
| value_days op n :
    In op ["in_last_days"; "not_in_last_days"] → Number_isInteger n = true →
    0 < num_to_Z n <= 106751 → value_ok op (JNum n).

Inductive condition_ok (c : jsval) : Prop :=
| condition_event e op n :
    prop c "type" = JStr "event" → prop c "event" = JStr e → blank e = false →
    prop c "op" = JStr op → In op ["performed"; "not_performed"] →
    nullish (prop c "window_days") (JNum (NInt 30)) = JNum n →
    Number_isInteger n = true → 1 <= num_to_Z n <= 180 →
    keys_within c ["type"; "event"; "op"; "window_days"] → condition_ok c
| condition_attribute key op :
    prop c "type" = JStr "attribute" → prop c "key" = JStr key → blank key = false →
    prop c "op" = JStr op → value_ok op (prop c "value") →
    keys_within c ["type"; "key"; "op"; "value"] → condition_ok c.

Record group_ok (g : jsval) : Prop := {
  group_operator : ∃ op, prop g "operator" = JStr op ∧ In op ["AND"; "OR"];
  group_conditions : ∃ l, prop g "conditions" = JArr l ∧ 1 <= Z.of_nat (length l) <= 50
                          ∧ Forall condition_ok l;
  group_keys : keys_within g ["operator"; "conditions"] }.

Record branch_ok (dsl : jsval) : Prop := {
  branch_version : ∃ n, prop dsl "version" = JNum n ∧ num_eqb n (NInt 1) = true;
  branch_operator : ∃ op, prop dsl "operator" = JStr op ∧ In op ["AND"; "OR"];
  branch_groups : ∃ l, prop dsl "groups" = JArr l ∧ 1 <= Z.of_nat (length l) <= 20
                       ∧ Forall group_ok l;
  branch_keys : keys_within dsl ["version"; "operator"; "groups"] }.

(** ** Acceptance is the grammar *)

Lemma includes_spec l v : includes l v = true ↔ ∃ s, v = JStr s ∧ In s l.
Proof.
  destruct v; simpl; try (split; [done|by intros (?&[=]&_)]).
  rewrite String_in_spec. split; [eauto|]. by intros (?&[= ->]&?).
Qed.

Lemma integer_between_spec v lo hi :
  integer_between v lo hi = true ↔
  ∃ n, v = JNum n ∧ Number_isInteger n = true ∧ lo <= num_to_Z n <= hi.
Proof.
  destruct v; simpl; try (split; [done|by intros (?&[=]&_)]).
  rewrite !andb_true_iff, !negb_true_iff. split.
  - intros [[Hi Hl] Hh]. exists n. split; [done|]. split; [done|].
    rewrite num_ltb_int in Hl by done. rewrite num_gtb_int in Hh by done. b2p. lia.
  - intros (?&[= <-]&Hi&?). rewrite num_ltb_int, num_gtb_int by done.
    rewrite Z.ltb_ge. split; [split; [done|lia]|]. rewrite Z.ltb_ge. lia.
Qed.

Lemma positive_upto_spec v hi :
  positive_upto v hi = true ↔
  ∃ n, v = JNum n ∧ Number_isInteger n = true ∧ 0 < num_to_Z n <= hi.
Proof.
  destruct v; simpl; try (split; [done|by intros (?&[=]&_)]).
  rewrite !andb_true_iff. split.
  - intros [[Hi Hl] Hh]. exists n. split; [done|]. split; [done|].
    rewrite num_gtb_int in Hl by done. rewrite num_leb_int in Hh by done. b2p. lia.
  - intros (?&[= <-]&Hi&?). rewrite num_gtb_int, num_leb_int by done.
    rewrite Z.ltb_lt, Z.leb_le. split; [split; [done|lia]|lia].
Qed.

Lemma keys_within_spec v keys :
  existsb (λ k, negb (String_in k keys)) (Object_keys v) = false ↔ keys_within v keys.
Proof.
  unfold keys_within, incl. rewrite <- not_true_iff_false, existsb_exists. split.
  - intros H k Hk. apply String_in_spec. destruct (String_in k keys) eqn:E; [done|].
    destruct H. exists k. by rewrite E.
  - intros H (k&Hk&E). b2p. by apply E, H.
Qed.

Lemma nonempty_spec v : nonempty v = true ↔ ∃ s, v = JStr s ∧ blank s = false.
Proof.
  destruct v; simpl; try (split; [done|by intros (?&[=]&_)]).
  rewrite negb_true_iff. split; [eauto|]. by intros (?&[= ->]&?).
Qed.

Lemma validDate_spec v :
  validDate v = true ↔ ∃ s y m d, v = JStr s ∧ date_match s = Some (y, m, d)
                        ∧ 1 <= m <= 12 ∧ 1 <= d <= days_in_month y m.
Proof.
  destruct v; simpl; try (split; [done|by intros (?&?&?&?&[=]&_)]).
  destruct (date_match s) as [[[y m] dd]|] eqn:E.
  - rewrite andb_true_iff, bool_decide_eq_true. unfold date_parses, rolled_date.
    assert (days_in_month y m <= 31) as H31
      by (unfold days_in_month; repeat case_match; lia).
    destruct (dd <=? days_in_month y m) eqn:Ed; b2p.
    + rewrite !andb_true_iff, !Z.leb_le. split; [intros; exists s, y, m, dd; intuition lia|].
      intros (?&?&?&?&[= <-]&Hm&?&?). rewrite E in Hm. simplify_eq. intuition lia.
    + split; [intros [? [= ?]]; lia|].
      intros (?&?&?&?&[= <-]&Hm&?&?). rewrite E in Hm. simplify_eq. lia.
  - split; [done|]. intros (?&?&?&?&[= <-]&?&_). congruence.
Qed.

(** [nonempty_array], as the array it returns *)
Lemma nonempty_array_spec v l : nonempty_array v = Some l ↔ v = JArr l ∧ 1 <= Z.of_nat (length l).
Proof.
  destruct v as [| | | | |[|x k]|]; simpl; try (split; [done|by intros [[=] ?]]).
  - split; [done|]. intros [[= <-] ?]. simpl in *. lia.
  - split; [intros [= <-]; simpl; split; [done|lia]|]. by intros [[= ->] ?].
Qed.

Lemma flat_map_nil {A} (f : A → list string) (P : A → Prop) l :
  (∀ x, f x = [] ↔ P x) → flat_map f l = [] ↔ Forall P l.
Proof.
  intros H. induction l as [|x l IH]; simpl; [split; [constructor|done]|].
  rewrite app_nil, H, IH, Forall_cons. done.
Qed.

Lemma event_errors_spec c :
  prop c "type" = JStr "event" → event_errors c = [] ↔ condition_ok c.
Proof.
  intros Ht. unfold event_errors.
  rewrite !app_nil, !fail_if_nil, !negb_false_iff, keys_within_spec, nonempty_spec,
    includes_spec, integer_between_spec.
  split.
  - intros (Hk&(e&He&Hb)&(op&Ho&Hop)&(n&Hn&?&?)). by eapply condition_event.
  - intros [e op n _ ? ? ? ? ? ? ? ?|? ? Ht' ? ? ? ? ?]; [|by rewrite Ht in Ht']. split_and!; eauto.
Qed.

Lemma Forall_forallb {A} (p : A → bool) l : forallb p l = true ↔ Forall (λ x, p x = true) l.
Proof. rewrite forallb_forall, List.Forall_forall. done. Qed.

Lemma scalar_list_spec v :
  scalar_list v = true ↔ ∃ x l, v = JArr (x :: l) ∧ Forall (λ x, scalar x = true) (x :: l).
Proof.
  destruct v as [| | | | |[|x l]|]; cbn [scalar_list]; try (split; [done|by intros (?&?&[=]&_)]).
  rewrite Forall_forallb. split; [eauto|]. by intros (?&?&[= -> ->]&?).
Qed.

(** [implb]: an operator of the class asks for the check. *)
Lemma guard_false (a b : bool) : a && negb b = false ↔ (a = true → b = true).
Proof. destruct a, b; naive_solver. Qed.

Lemma unless_false (a b : bool) : negb a && b = false ↔ (a = false → b = false).
Proof. destruct a, b; naive_solver. Qed.

Lemma value_ok_spec op v :
  In op ATTRIBUTE_OPS →
  ((String_in op ["exists"; "not_exists"] = false → is_undef v = false)
   ∧ (In op ["eq"; "neq"] → scalar v = true)
   ∧ (In op ["gt"; "gte"; "lt"; "lte"] → finite_number v = true)
   ∧ (In op ["contains"] → is_string v = true)
   ∧ (In op ["in"] → scalar_list v = true)
   ∧ (In op ["before"; "after"] → validDate v = true)
   ∧ (In op ["in_last_days"; "not_in_last_days"] → positive_upto v 106751 = true))
  ↔ value_ok op v.
Proof.
  intros Hop. split.
  - intros (_&Hs&Hf&Hc&Hi&Hd&Hn).
    assert (In op ["exists"; "not_exists"] ∨ In op ["eq"; "neq"] ∨ In op ["gt"; "gte"; "lt"; "lte"]
            ∨ In op ["contains"] ∨ In op ["in"] ∨ In op ["before"; "after"]
            ∨ In op ["in_last_days"; "not_in_last_days"]) as Hcls
      by (unfold ATTRIBUTE_OPS in Hop; simpl in *; tauto).
    destruct Hcls as [H|[H|[H|[H|[H|[H|H]]]]]].
    + by apply value_exists.
    + apply value_scalar; auto.
    + specialize (Hf H). destruct v as [| | |[| |q]| | |]; try done. by apply value_order.
    + specialize (Hc H). destruct H as [<-|[]], v; try done. apply value_contains.
    + specialize (Hi H). apply scalar_list_spec in Hi as (x&l&->&?). destruct H as [<-|[]]. by apply value_in.
    + specialize (Hd H). apply validDate_spec in Hd as (s&y&m&dd&->&?&?&?). by eapply value_date.
    + specialize (Hn H). apply positive_upto_spec in Hn as (n&->&?&?). by apply value_days.
  - clear Hop. intros H.
    destruct H as [op v H|op v H ?|op q H|s|v l ?|op s y m dd H ? ? ?|op n H ? ?];
      simpl in H || idtac;
      repeat match goal with H : _ ∨ _ |- _ => destruct H as [<-|H] end; try done.
    all: split_and!; intros Hc; simpl in Hc; try done;
      repeat match goal with H : _ ∨ _ |- _ => destruct H as [?|H] end;
      try done; try discriminate.
    all: first [by destruct v | by apply scalar_list_spec; eauto | idtac].
    all: first [apply validDate_spec; by eauto 10 | apply positive_upto_spec; by eauto].
Qed.

Lemma attribute_errors_spec c :
  prop c "type" = JStr "attribute" → attribute_errors c = [] ↔ condition_ok c.
Proof.
  intros Ht. unfold attribute_errors.
  rewrite !app_nil, !fail_if_nil, unless_false, !guard_false, !negb_false_iff, keys_within_spec, nonempty_spec.
  rewrite (includes_spec ATTRIBUTE_OPS). split.
  - intros (Hk&(key&?&?)&(op&Ho&Hop)&Hrest). rewrite Ho in Hrest.
    eapply condition_attribute; [done..| |done]. apply (value_ok_spec _ _ Hop).
    unfold includes in Hrest. rewrite !String_in_spec in Hrest. done.
  - intros [? ? ? Ht'|key op _ ? ? Ho Hv ?]; [by rewrite Ht in Ht'|].
    assert (In op ATTRIBUTE_OPS) as Hop.
    { unfold ATTRIBUTE_OPS. destruct Hv; simpl in *; intuition. }
    rewrite Ho. unfold includes. rewrite !String_in_spec.
    split; [done|]. split; [eauto|]. split; [eauto|]. by apply (value_ok_spec _ _ Hop).
Qed.

Lemma condition_errors_spec c : condition_errors c = [] ↔ condition_ok c.
Proof.
  unfold condition_errors.
  destruct (includes ["event"] (prop c "type")) eqn:E1; [|destruct (includes ["attribute"] (prop c "type")) eqn:E2].
  - apply includes_spec in E1 as (s&?&[<-|[]]). by apply event_errors_spec.
  - apply includes_spec in E2 as (s&?&[<-|[]]). by apply attribute_errors_spec.
  - split; [done|]. intros [e op n Ht|key op Ht]; [by rewrite Ht in E1|by rewrite Ht in E2].
Qed.

Lemma group_errors_spec g : group_errors g = [] ↔ group_ok g.
Proof.
  unfold group_errors. destruct (includes _ _) eqn:Eop; [destruct (nonempty_array _) as [l|] eqn:El|].
  - apply includes_spec in Eop. apply nonempty_array_spec in El as [Hl ?].
    rewrite !app_nil, !fail_if_nil, keys_within_spec, (flat_map_nil _ condition_ok) by apply condition_errors_spec.
    rewrite Z.ltb_ge. split.
    + intros (?&?&?). split; [done| |done]. exists l. split; [done|]. split; [lia|done].
    + intros [_ (l'&Hl'&?&?) ?]. rewrite Hl in Hl'. simplify_eq. split; [lia|done].
  - split; [done|]. intros [_ (l&Hl&?&_) _].
    assert (nonempty_array (prop g "conditions") = Some l) by (apply nonempty_array_spec; split; [done|lia]).
    congruence.
  - split; [done|]. intros [Hop _ _]. apply includes_spec in Hop. congruence.
Qed.

Lemma validateBranchCondition_spec dsl :
  validateBranchCondition dsl = [] ↔ branch_ok dsl.
Proof.
  unfold validateBranchCondition.
  destruct (is_number_eq _ _) eqn:Ev; [destruct (includes _ _) eqn:Eop;
    [destruct (nonempty_array _) as [l|] eqn:El|]|]; simpl.
  - apply includes_spec in Eop. apply nonempty_array_spec in El as [Hl ?].
    rewrite dedup_nil, !app_nil, !fail_if_nil, keys_within_spec, (flat_map_nil _ group_ok) by apply group_errors_spec.
    rewrite Z.ltb_ge. split.
    + intros (?&?&?). split; [|done| |done].
      * destruct (prop dsl "version"); try done. eauto.
      * exists l. split; [done|]. split; [lia|done].
    + intros [_ _ (l'&Hl'&?&?) ?]. rewrite Hl in Hl'. simplify_eq. split; [lia|done].
  - split; [done|]. intros [_ _ (l&Hl&?&_) _].
    assert (nonempty_array (prop dsl "groups") = Some l) by (apply nonempty_array_spec; split; [done|lia]).
    congruence.
  - split; [done|]. intros [_ Hop _ _]. apply includes_spec in Hop. congruence.
  - split; [done|]. intros [(n&Hn&?) _ _ _]. rewrite Hn in Ev; simpl in Ev; congruence.
Qed.
