(* ===== verification/JourneyModel.v ===== *)
(** * Journey definitions ([packages/journey-model/src])

    The two stored forms of a journey (v1: a list of steps; v2: an exclusive
    DAG), the validator that gates saving and publishing, and the immutability
    of published A/B allocations.

    A field the TypeScript type makes optional, or that the code reads with
    [?.] or [??], is an [option]; the branch condition is an untrusted
    [jsval]. *)

From Stdlib Require Import Ascii QArith.
From stdpp Require Import pretty.
From S2P Require Import Prelude JsVal Graph BranchCondition.

#[global] Open Scope Z_scope.

(** ** The data model *)

Record PushContent := mkPush {
  push_title : option string; push_body : option string;
  push_image_url : option string; push_deep_link : option string }.
Record EmailContent := mkEmail {
  email_subject : option string; email_html : option string; email_provider : option string }.
Record Fallback := mkFallback {
  fb_type : string; fb_text : option string; fb_title : option string }.
Record AlimtalkContent := mkAlimtalk {
  al_sender_id : option string; al_template_code : option string;
  al_variables : list (string * string); al_fallback : option Fallback }.

Record MessageNode := mkMessage {
  push : option PushContent; email : option EmailContent; alimtalk : option AlimtalkContent }.
Record DelayNode := mkDelay { duration_seconds : num }.
Record BranchNode := mkBranch { condition : jsval }.
Record EventWaitNode := mkWait { event_name : option string; timeout_seconds : num }.
Record ABVariant := mkVariant { variant_id : string; variant_label : string; weight : num }.
Record ABSplitNode := mkSplit { variants : option (list ABVariant) }.

(** The tagged union [JourneyNode], with the tags the code does not know. *)
Inductive NodeBody :=
| NMessage (n : MessageNode)
| NDelay (n : DelayNode)
| NBranch (n : BranchNode)
| NEventWait (n : EventWaitNode)
| NABSplit (n : ABSplitNode)
| NUnknown (type : string).
Record JourneyNode := mkNode { node_id : option string; body : NodeBody }.

Record JourneyEdge := mkEdge {
  edge_id : string; source : string; source_port : string; target : option string }.
Record EntryRule := mkEntry {
  entry_type : option string; segment_id : option string; trigger_event : option string }.
Record ExitRule := mkExit { conversion_event : option string }.
Inductive Reentry := RNever | RAlways | RAfterDays (after_days : num) | ROther.
Record JourneySettings := mkSettings { category : option string; reentry : Reentry }.

Record JourneyDefinition := mkDefinition {
  schema_version : option num;
  entry : option EntryRule;
  nodes : option (list JourneyNode);
  start_node_id : option string;
  edges : option (list JourneyEdge);
  exit : option ExitRule;
  settings : option JourneySettings }.

Inductive Level := Error | Warning.
Record ValidationIssue := mkIssue {
  level : Level; message : string; issue_node_index : option Z; issue_node_id : option string;
  issue_edge_id : option string; field : option string }.

Definition hasErrors (issues : list ValidationIssue) : bool :=
  existsb (λ i, match level i with Error => true | Warning => false end) issues.

Definition EMAIL_PROVIDERS : list string := ["email_smtp"; "email_nhn"; "email_resend"].

(** [def.nodes ?? []] *)
Definition nodes_of (def : JourneyDefinition) : list JourneyNode := default [] (nodes def).
(** [def.schema_version === v] *)
Definition version_is (def : JourneyDefinition) (v : Z) : bool :=
  match schema_version def with Some n => num_eqb n (NInt v) | None => false end.
(** [!s?.trim()]: missing or blank *)
Definition missing (s : option string) : bool :=
  match s with Some s => blank s | None => true end.
(** [!s]: missing or empty *)
Definition falsy (s : option string) : bool :=
  match s with Some s => String.eqb s "" | None => true end.

(** ** Channels and output ports *)

Inductive Channel := CPush | CEmail | CAlimtalk.

Definition messageChannel (node : MessageNode) : option Channel :=
  let set :=
    (match push node with Some _ => [CPush] | None => [] end)
    ++ (match email node with Some _ => [CEmail] | None => [] end)
    ++ (match alimtalk node with Some _ => [CAlimtalk] | None => [] end) in
  match set with [c] => Some c | _ => None end.

Record OutputPort := mkPort { port_id : string; port_label : string }.

Section Model.
(** Decimal text of a number that is not an integer below [1e21]. *)
Context (fmt : Q → string).

Definition outputPorts (node : NodeBody) : list OutputPort :=
  match node with
  | NBranch _ => [mkPort "true" "충족"; mkPort "false" "미충족"]
  | NEventWait _ => [mkPort "matched" "이벤트 발생"; mkPort "timeout" "시간 초과"]
  | NABSplit n =>
      map (λ v, mkPort (variant_id v)
                  (variant_label v +:+ " · " +:+ num_to_string fmt (weight v) +:+ "%"))
        (default [] (variants n))
  | _ => [mkPort "next" "다음"]
  end.

(** ** Reading a v1 definition as a graph *)

Definition legacy_id (i : nat) (node : JourneyNode) : string :=
  default ("legacy-" +:+ pretty i) (node_id node).

Definition legacy_edges (nodes : list JourneyNode) : list JourneyEdge :=
  imap (λ i node, mkEdge ("legacy-edge-" +:+ pretty i) (default "" (node_id node)) "next"
          (nodes !! S i ≫= node_id)) nodes.

Definition toGraphDefinition (def : JourneyDefinition) : outcome JourneyDefinition :=
  if version_is def 2 then Ok def
  else if (match schema_version def with None => false | Some _ => true end) && negb (version_is def 1)
  then Throw (PlainError "지원하지 않는 저니 정의 버전입니다")
  else
    let nodes := imap (λ i node, mkNode (Some (legacy_id i node)) (body node)) (nodes_of def) in
    Ok (mkDefinition (Some (NInt 2)) (entry def) (Some nodes) (head nodes ≫= node_id)
          (Some (legacy_edges nodes)) (exit def) (settings def)).

Definition campaignToJourney (segment : string) (content : option PushContent) (cat : string)
    : JourneyDefinition :=
  mkDefinition None (Some (mkEntry (Some "blast") (Some segment) None))
    (Some [mkNode None (NMessage (mkMessage content None None))]) None None
    (Some (mkExit None)) (Some (mkSettings (Some cat) RNever)).

(** ** The graph checks of a v2 definition *)

Definition issue (message : string) (node_index : option Z) (node_id edge_id field : option string)
    : list ValidationIssue :=
  [mkIssue Error message node_index node_id edge_id field].
(** [if (c) fail(...)] *)
Definition when (c : bool) (l : list ValidationIssue) : list ValidationIssue := if c then l else [].

(** The id loop: the nodes by id, in order, and the issues reported. *)
Fixpoint collect_nodes (index : Z) (l : list JourneyNode) (seen : list (string * JourneyNode))
    : list (string * JourneyNode) * list ValidationIssue :=
  match l with
  | [] => (seen, [])
  | node :: l =>
      let '(seen', reported) :=
        match node_id node with
        | Some id =>
            if blank id || (128 <? byte_length id) then
              (seen, issue "고유한 단계 ID가 필요합니다 (UTF-8 최대 128바이트)" (Some index) None None (Some "id"))
            else if JMap.has seen id then
              (seen, issue "중복된 단계 ID입니다" None (Some id) None (Some "id"))
            else (JMap.set seen id node, [])
        | None =>
            (seen, issue "고유한 단계 ID가 필요합니다 (UTF-8 최대 128바이트)" (Some index) None None (Some "id"))
        end in
      let '(all, rest) := collect_nodes (index + 1) l seen' in (all, reported ++ rest)
  end.

(** The sets the edge loop fills. *)
Record EdgeState := mkEdgeState {
  ids : list string; outputs : list (string * string); adjacency : list (string * list string) }.

Definition targets_of (adjacency : list (string * list string)) (id : string) : list string :=
  default [] (JMap.get adjacency id).

(** [outputs.has(JSON.stringify([source, port]))]: the text determines the pair *)
Definition outputs_has (outputs : list (string * string)) (key : string * string) : bool :=
  existsb (λ k, bool_decide (k = key)) outputs.

Definition edge_step (nodes : list (string * JourneyNode)) (st : EdgeState) (edge : JourneyEdge)
    : EdgeState * list ValidationIssue :=
  let fail msg := issue msg None (Some (source edge)) (Some (edge_id edge)) None in
  let key := (source edge, source_port edge) in
  let reported :=
    when (blank (edge_id edge) || String_in (edge_id edge) (ids st))
      (fail "연결 ID가 비어 있거나 중복되었습니다")
    ++ match JMap.get nodes (source edge) with
       | None => fail "연결의 출발 단계가 없습니다"
       | Some node =>
           when (negb (existsb (λ p, String.eqb (port_id p) (source_port edge)) (outputPorts (body node))))
             (fail "지원하지 않는 출력 경로입니다")
       end
    ++ match target edge with
       | Some t => when (negb (JMap.has nodes t)) (fail "연결의 도착 단계가 없습니다")
       | None => []
       end
    ++ when (outputs_has (outputs st) key) (fail "출력 경로마다 하나의 연결만 허용합니다") in
  (mkEdgeState (set_add (ids st) (edge_id edge))
     (if outputs_has (outputs st) key then outputs st else outputs st ++ [key])
     (match target edge with
      | Some t => JMap.set (adjacency st) (source edge) (targets_of (adjacency st) (source edge) ++ [t])
      | None => adjacency st
      end), reported).

Fixpoint edge_loop (nodes : list (string * JourneyNode)) (st : EdgeState) (l : list JourneyEdge)
    : EdgeState * list ValidationIssue :=
  match l with
  | [] => (st, [])
  | edge :: l =>
      let '(st', reported) := edge_step nodes st edge in
      let '(st'', rest) := edge_loop nodes st' l in (st'', reported ++ rest)
  end.

(** Every output port of every node is connected. *)
Definition port_issues (nodes : list (string * JourneyNode)) (outputs : list (string * string))
    : list ValidationIssue :=
  flat_map (λ '(id, node),
    flat_map (λ port,
      when (negb (outputs_has outputs (id, port_id port)))
        (issue (port_label port +:+ " 경로를 다음 단계 또는 종료에 연결하세요") None (Some id) None (Some "edges")))
      (outputPorts (body node))) nodes.

Definition validateGraph (def : JourneyDefinition) : list ValidationIssue :=
  let '(nodes, id_issues) := collect_nodes 0 (nodes_of def) [] in
  let start_issue :=
    match start_node_id def with
    | Some s => when (String.eqb s "" || negb (JMap.has nodes s))
                  (issue "시작 단계를 연결하세요" None None None (Some "start_node_id"))
    | None => issue "시작 단계를 연결하세요" None None None (Some "start_node_id")
    end in
  match edges def with
  | None => id_issues ++ start_issue ++ issue "단계 연결 정보가 필요합니다" None None None (Some "edges")
  | Some edges =>
      let '(st, edge_issues) := edge_loop nodes (mkEdgeState [] [] []) edges in
      let adj := targets_of (adjacency st) in
      let queue := kahn adj (JMap.keys nodes) (JMap.keys (adjacency st)) in
      let pending := match start_node_id def with
                     | Some s => if String.eqb s "" then [] else [s]
                     | None => []
                     end in
      let reached := walk_from adj (JMap.keys (adjacency st)) pending in
      id_issues ++ start_issue ++ edge_issues ++ port_issues nodes (outputs st)
      ++ when (negb (Nat.eqb (length queue) (length nodes)))
           (issue "반복 연결은 지원하지 않습니다. 순환 경로를 제거하세요" None None None (Some "edges"))
      ++ flat_map (λ id, when (negb (String_in id reached))
                           (issue "시작 단계에서 도달할 수 없는 단계입니다" None (Some id) None None))
           (JMap.keys nodes)
  end.

(** ** The checks of one step *)

Definition type_of (b : NodeBody) : string :=
  match b with
  | NMessage _ => "message" | NDelay _ => "delay" | NBranch _ => "branch"
  | NEventWait _ => "event_wait" | NABSplit _ => "ab_split" | NUnknown t => t
  end.

Definition message_errors (n : MessageNode) : list (string * option string) :=
  match messageChannel n with
  | Some CEmail =>
      match email n with
      | Some e =>
          (if missing (email_subject e) || missing (email_html e)
           then [("빈 이메일 노드입니다", Some "email")] else [])
          ++ (match email_provider e with
              | Some p => if String_in p EMAIL_PROVIDERS then []
                          else [("지원하지 않는 이메일 발송기입니다", Some "email")]
              | None => []
              end)
      | None => []
      end
  | Some CAlimtalk =>
      match alimtalk n with
      | Some a =>
          (if missing (al_sender_id a) then [("발신프로필을 선택하세요", Some "alimtalk")] else [])
          ++ (if missing (al_template_code a) then [("알림톡 템플릿을 선택하세요", Some "alimtalk")] else [])
          ++ (match al_fallback a with
              | Some f => if missing (fb_text f) then [("대체발송 문구를 입력하세요", Some "alimtalk")] else []
              | None => []
              end)
      | None => []
      end
  | Some CPush =>
      match push n with
      | Some p => if missing (push_title p) || missing (push_body p)
                  then [("빈 메시지 노드입니다", Some "push")] else []
      | None => []
      end
  | None => [("메시지 노드는 푸시·이메일·알림톡 중 하나여야 합니다", None)]
  end.

(** [sum + v.weight]: IEEE addition, exact on the integers it is used for *)
Definition num_add (a b : num) : num :=
  match a, b with
  | NFin p, NFin q => NFin (p + q)
  | NInf s, NInf t => if Bool.eqb s t then NInf s else NNaN
  | NInf s, NFin _ | NFin _, NInf s => NInf s
  | _, _ => NNaN
  end.

Definition weight_bad (n : num) : bool :=
  negb (Number_isInteger n) || num_ltb n (NInt 1) || num_ltb (NInt 100) n.

Definition ab_errors (n : ABSplitNode) : list (string * option string) :=
  let variants := default [] (variants n) in
  let err (c : bool) (m : string) := if c then [(m, Some "variants")] else [] in
  err ((Nat.ltb (length variants) 2) || (Nat.ltb 4 (length variants))) "A/B 경로는 2~4개여야 합니다"
  ++ err (existsb (λ v, blank (variant_id v)) variants
          || negb (Nat.eqb (length (dedup (map variant_id variants))) (length variants)))
       "A/B 경로 ID는 비어 있지 않고 고유해야 합니다"
  ++ err (existsb (λ v, blank (variant_label v)) variants) "A/B 경로 이름이 필요합니다"
  ++ err (existsb (λ v, weight_bad (weight v)) variants
          || negb (num_eqb (fold_left (λ sum v, num_add sum (weight v)) variants (NInt 0)) (NInt 100)))
       "A/B 비율은 각 1% 이상인 정수이며 합계가 100%여야 합니다".

Definition step_errors (b : NodeBody) : list (string * option string) :=
  match b with
  | NMessage n => message_errors n
  | NDelay n =>
      if validDuration (duration_seconds n) then []
      else [("대기 시간은 0보다 큰 정수여야 합니다", Some "duration_seconds")]
  | NBranch n => map (λ m, (m, Some "condition")) (validateBranchCondition (condition n))
  | NEventWait n =>
      (if missing (event_name n) then [("기다릴 이벤트 이름이 필요합니다", Some "event_name")] else [])
      ++ (if validDuration (timeout_seconds n) then []
          else [("이벤트 제한시간은 0보다 큰 정수여야 합니다", Some "timeout_seconds")])
  | NABSplit n => ab_errors n
  | NUnknown _ => [("지원하지 않는 단계 유형입니다", None)]
  end.

Definition node_issues (def : JourneyDefinition) (graph : bool) (index : Z) (node : JourneyNode)
    : list ValidationIssue :=
  let fail '(m, f) := mkIssue Error m (Some index) (node_id node) None f in
  when (negb graph && negb (String_in (type_of (body node)) ["message"; "delay"]))
    [fail ("분기·이벤트 대기는 v2 그래프에서만 지원합니다", None)]
  ++ map fail (step_errors (body node))
  ++ match body node with
     | NEventWait n =>
         when (negb (falsy (event_name n))
               && bool_decide (event_name n = (exit def ≫= conversion_event)))
           [mkIssue Warning "전환 종료와 대기 이벤트가 같습니다. 전환 종료가 먼저 적용됩니다"
              (Some index) (node_id node) None (Some "event_name")]
     | _ => []
     end.

(** ** The whole validation *)

Definition entry_issues (def : JourneyDefinition) : list ValidationIssue :=
  let fail m := issue m None None None None in
  match entry def ≫= entry_type with
  | None => fail "진입(entry) 규칙이 설정되지 않았습니다"
  | Some t =>
      let e := default (mkEntry None None None) (entry def) in
      if String.eqb t "" then fail "진입(entry) 규칙이 설정되지 않았습니다"
      else if String.eqb t "blast" && falsy (segment_id e) then fail "일괄 진입은 대상 세그먼트가 필요합니다"
      else if String.eqb t "trigger" && missing (trigger_event e) then fail "트리거 진입은 이벤트가 필요합니다"
      else if negb (String_in t ["blast"; "trigger"]) then fail "지원하지 않는 진입 규칙입니다"
      else []
  end.

Definition is_message (n : JourneyNode) : bool :=
  match body n with NMessage _ => true | _ => false end.
Definition is_delay (n : JourneyNode) : bool :=
  match body n with NDelay _ => true | _ => false end.

Definition settings_issues (def : JourneyDefinition) (graph : bool) : list ValidationIssue :=
  let fail m f := issue m None None None f in
  when (match settings def ≫= category with
        | Some c => negb (String_in c ["marketing"; "transactional"])
        | None => true
        end) (fail "메시지 카테고리(marketing/transactional)가 필요합니다" None)
  ++ match reentry <$> settings def with
     | Some RNever | Some RAlways => []
     | Some (RAfterDays n) =>
         when (negb (Number_isInteger n && num_ltb (NInt 0) n))
           (fail "올바른 재진입 규칙이 필요합니다" (Some "settings.reentry"))
         ++ when (graph && num_ltb (NInt 106751) n)
              (fail "재진입 대기 기간은 최대 106751일입니다" (Some "settings.reentry.after_days"))
     | Some ROther | None => fail "올바른 재진입 규칙이 필요합니다" (Some "settings.reentry")
     end.

Definition validateJourney (def : JourneyDefinition) : list ValidationIssue :=
  let graph := version_is def 2 in
  let l := nodes_of def in
  when ((match schema_version def with None => false | Some _ => true end)
        && negb (version_is def 1) && negb (version_is def 2))
    (issue "지원하지 않는 저니 정의 버전입니다" None None None (Some "schema_version"))
  ++ entry_issues def
  ++ when (Nat.eqb (length l) 0) (issue "노드가 하나 이상 필요합니다" None None None None)
  ++ when (65535 <? Z.of_nat (length l)) (issue "저니 단계 수가 지원 범위를 초과했습니다" None None None None)
  ++ concat (imap (λ i n, node_issues def graph (Z.of_nat i) n) l)
  ++ when (negb (Nat.eqb (length l) 0) && negb (existsb is_message l))
       (issue "메시지 노드가 하나 이상 필요합니다" None None None None)
  ++ (if graph then validateGraph def
      else when (match last l with Some n => is_delay n | None => false end)
             [mkIssue Warning "마지막 노드가 대기입니다 — 발송 없이 종료됩니다"
                (Some (Z.of_nat (length l) - 1)) None None None])
  ++ settings_issues def graph.
End Model.

(** ** Published A/B allocations *)

Definition PublishedABNodes : Type := list (string * list ABVariant).

Definition collect_node (published : PublishedABNodes) (node : JourneyNode) : PublishedABNodes :=
  match body node, node_id node with
  | NABSplit n, Some id =>
      if negb (String.eqb id "") && negb (JMap.has published id)
      then JMap.set published id (default [] (variants n)) else published
  | _, _ => published
  end.

Definition collectPublishedABNodes (definitions : list JourneyDefinition) : PublishedABNodes :=
  fold_left (λ published def, fold_left collect_node (nodes_of def) published) definitions [].

(** [JSON.stringify(variants.map(v => [v.id, v.weight]))] as the value it
    prints: a number without JSON form prints [null], and the integers of equal
    value print alike. *)
Definition json_num (n : num) : option Q :=
  match n with NFin q => Some (Qred q) | _ => None end.
Definition allocation (variants : list ABVariant) : list (string * option Q) :=
  map (λ v, (variant_id v, json_num (weight v))) variants.

Definition validatePublishedABNodes (def : JourneyDefinition) (published : PublishedABNodes)
    : list ValidationIssue :=
  concat (imap (λ index node,
    match body node, node_id node with
    | NABSplit n, Some id =>
        if String.eqb id "" then []
        else match JMap.get published id with
             | None => []
             | Some v =>
                 if bool_decide (allocation (default [] (variants n)) = allocation v) then []
                 else [mkIssue Error "활성화한 A/B 배정은 변경할 수 없습니다. ‘새 실험으로 시작’을 사용하세요"
                         (Some (Z.of_nat index)) (Some id) None (Some "variants")]
             end
    | _, _ => []
    end) (nodes_of def)).

(** ** What a valid graph is *)

Section ValidGraph.
Context (fmt : Q → string).

(** [port] is an output of the step [id]. *)
Definition has_port (def : JourneyDefinition) (id port : string) : Prop :=
  ∃ node, In node (nodes_of def) ∧ node_id node = Some id
          ∧ In port (map port_id (outputPorts fmt (body node))).
Definition step_id (def : JourneyDefinition) (id : string) : Prop :=
  In (Some id) (map node_id (nodes_of def)).
Definition edge_rel (edges : list JourneyEdge) (x y : string) : Prop :=
  ∃ e, In e edges ∧ source e = x ∧ target e = Some y.
Definition edge_key (e : JourneyEdge) : string * string := (source e, source_port e).

Definition id_ok (n : JourneyNode) : Prop :=
  ∃ id, node_id n = Some id ∧ blank id = false ∧ byte_length id <= 128.

Record valid_edges (def : JourneyDefinition) (edges : list JourneyEdge) : Prop := {
  ve_ids : Forall (λ e, blank (edge_id e) = false) edges ∧ List.NoDup (map edge_id edges);
  ve_source e : In e edges → has_port def (source e) (source_port e);
  ve_target e t : In e edges → target e = Some t → step_id def t;
  ve_unique : List.NoDup (map edge_key edges);
  ve_total id port : has_port def id port → In (id, port) (map edge_key edges) }.

(** A single start, one edge out of every output port, no cycle, and every
    step reachable from the start. *)
Record valid_graph (def : JourneyDefinition) : Prop := {
  vg_ids : Forall id_ok (nodes_of def) ∧ List.NoDup (map node_id (nodes_of def));
  vg_edges : ∃ s es, start_node_id def = Some s ∧ edges def = Some es ∧ step_id def s
    ∧ valid_edges def es
    ∧ (∀ x, ¬ tc (edge_rel es) x x)
    ∧ (∀ x, step_id def x → rtc (edge_rel es) s x) }.

Lemma issue_not_nil m a b c f : issue m a b c f = [] ↔ False.
Proof. done. Qed.
Lemma when_nil c l : l ≠ [] → when c l = [] ↔ c = false.
Proof. by destruct c. Qed.

(** *** The id loop *)

Definition keyed (n : JourneyNode) : string * JourneyNode := (default "" (node_id n), n).

Lemma collect_nodes_spec l i seen all reported :
  collect_nodes i l seen = (all, reported) →
  (reported = [] ↔ Forall id_ok l ∧ List.NoDup (map node_id l)
                   ∧ ∀ n id, In n l → node_id n = Some id → ¬ In id (JMap.keys seen))
  ∧ (reported = [] → all = seen ++ map keyed l).
Proof.
  revert i seen all reported. induction l as [|n l IH]; intros i seen all reported; cbn [collect_nodes].
  - intros [= <- <-]. split; [|by rewrite app_nil_r]. split; [|done]. intros _.
    split; [constructor|]. split; [constructor|by intros ?? []].
  - assert (∀ m f rest, issue m (Some i) None None f ++ rest = [] ↔ False) as Hne by done.
    destruct (node_id n) as [id|] eqn:Hid.
    + destruct (blank id || (128 <? byte_length id)) eqn:E1; [|destruct (JMap.has seen id) eqn:E2].
      * destruct (collect_nodes (i + 1) l seen) as [all' rest]. intros [= <- <-].
        split; [|done]. split; [done|]. intros [Hok _]. inversion Hok as [|? ? (id'&?&?&?) ?]; subst.
        rewrite Hid in *. simplify_eq. apply orb_true_iff in E1 as [|]; b2p; [congruence|lia].
      * destruct (collect_nodes (i + 1) l seen) as [all' rest]. intros [= <- <-].
        split; [|done]. split; [done|]. intros (_&_&Hs). apply JMap.has_keys in E2.
        by destruct (Hs n id (or_introl eq_refl) Hid).
      * destruct (collect_nodes (i + 1) l (JMap.set seen id n)) as [all' rest] eqn:Ec.
        intros [= <- <-]. simpl. apply IH in Ec as [Hiff Hall]. b2p.
        rewrite JMap.keys_set, E2 in Hiff. setoid_rewrite in_app_iff in Hiff.
        apply JMap.has_false in E2. split.
        -- rewrite Hiff, Forall_cons, NoDup_cons_iff, in_map_iff. split.
           ++ intros (Hok&Hnd&Hs). split; [split; [exists id; split_and!; done|done]|]. split.
              ** split; [|done]. intros (n'&Hn'&Hin). rewrite Hid in Hn'.
                 destruct (Hs n' id Hin Hn'). right; by left.
              ** intros n' id' [<-|Hin] Hn'; [rewrite Hid in Hn'; by simplify_eq|].
                 intros ?. by destruct (Hs n' id' Hin Hn'); left.
           ++ intros ([_ Hok]&[Hni Hnd]&Hs). split; [done|]. split; [done|].
              intros n' id' Hin Hn' [Hk|[<-|[]]]; [by eapply Hs; [right|..]|].
              apply Hni. exists n'. by rewrite Hid.
        -- intros Hr. rewrite (Hall Hr). clear -E2 Hid.
           assert (JMap.set seen id n = seen ++ [keyed n]) as ->; [|by rewrite <- app_assoc].
           unfold keyed. rewrite Hid. simpl. induction seen as [|[k v] seen IH]; [done|]. simpl in *.
           destruct (String.eqb k id) eqn:E; b2p; [subst; destruct E2; by left|].
           rewrite IH; [done|]. intros ?. apply E2. by right.
    + destruct (collect_nodes (i + 1) l seen) as [all' rest]. intros [= <- <-].
      split; [|done]. split; [done|]. intros [Hok _]. inversion Hok as [|? ? (id'&?&?&?) ?]; subst.
      congruence.
Qed.

(** *** The edge loop *)

(** Distinct and fresh keys, one element at a time: [S'] is [S] with [f x]. *)
Lemma fresh_cons {A B} (f : A → B) (S S' : list B) x l :
  (∀ y, In y S' ↔ In y S ∨ y = f x) →
  (List.NoDup (map f (x :: l)) ∧ (∀ e, In e (x :: l) → ¬ In (f e) S)) ↔
  (¬ In (f x) S ∧ List.NoDup (map f l) ∧ (∀ e, In e l → ¬ In (f e) S')).
Proof.
  intros HS. cbn [map]. rewrite NoDup_cons_iff, in_map_iff. setoid_rewrite HS. split.
  - intros [[Hx Hnd] Hf]. split; [apply Hf; by left|]. split; [done|].
    intros e He [?|Heq]; [by eapply Hf; [right|]|]. apply Hx. eauto.
  - intros (Hx&Hnd&Hf). split; [split; [|done]|].
    + intros (e&Heq&He). by apply (Hf e He); right.
    + intros e [<-|He]; [done|]. intros ?. by apply (Hf e He); left.
Qed.

Lemma outputs_has_spec l k : outputs_has l k = true ↔ In k l.
Proof.
  unfold outputs_has. rewrite existsb_exists. split.
  - intros (x&?&Hx). b2p. by subst.
  - intros ?. exists k. by rewrite bool_decide_true.
Qed.
Lemma outputs_has_false l k : outputs_has l k = false ↔ ¬ In k l.
Proof. rewrite <- outputs_has_spec. by destruct (outputs_has l k). Qed.

Definition edge_ok (nodes : list (string * JourneyNode)) (e : JourneyEdge) : Prop :=
  (∃ node, JMap.get nodes (source e) = Some node
           ∧ In (source_port e) (map port_id (outputPorts fmt (body node))))
  ∧ ∀ t, target e = Some t → In t (JMap.keys nodes).

Lemma edge_step_reported nodes st e :
  snd (edge_step fmt nodes st e) = [] ↔
  (blank (edge_id e) = false ∧ ¬ In (edge_id e) (ids st)) ∧ edge_ok nodes e
  ∧ ¬ In (edge_key e) (outputs st).
Proof.
  unfold edge_step. simpl. rewrite !app_nil, !when_nil by done.
  rewrite orb_false_iff, outputs_has_false, String_in_false. unfold edge_ok.
  assert (∀ ports, existsb (λ p, String.eqb (port_id p) (source_port e)) ports = true
            ↔ In (source_port e) (map port_id ports)) as Hports.
  { intros ports. rewrite existsb_exists, in_map_iff. split.
    - intros (p&?&?). b2p. eauto.
    - intros (p&?&?). exists p. split; [done|]. by apply String.eqb_eq. }
  assert ((match JMap.get nodes (source e) with
           | Some node => when (negb (existsb (λ p, String.eqb (port_id p) (source_port e)) (outputPorts fmt (body node))))
               (issue "지원하지 않는 출력 경로입니다" None (Some (source e)) (Some (edge_id e)) None)
           | None => issue "연결의 출발 단계가 없습니다" None (Some (source e)) (Some (edge_id e)) None
           end = []) ↔ ∃ node, JMap.get nodes (source e) = Some node
             ∧ In (source_port e) (map port_id (outputPorts fmt (body node)))) as ->.
  { destruct (JMap.get nodes (source e)) as [node|]; [|split; [done|by intros (?&[=]&_)]].
    rewrite when_nil, negb_false_iff, Hports by done. split; [eauto|].
    by intros (?&[= ->]&?). }
  assert ((match target e with
           | Some t => when (negb (JMap.has nodes t))
               (issue "연결의 도착 단계가 없습니다" None (Some (source e)) (Some (edge_id e)) None)
           | None => []
           end = []) ↔ ∀ t, target e = Some t → In t (JMap.keys nodes)) as ->.
  { destruct (target e) as [t|]; [|done].
    rewrite when_nil, negb_false_iff, JMap.has_keys by done. split; [by intros ? ? [= <-]|auto]. }
  unfold edge_key. tauto.
Qed.

Lemma targets_of_set adj x v y :
  targets_of (JMap.set adj x v) y = if String.eqb x y then v else targets_of adj y.
Proof. unfold targets_of. rewrite JMap.get_set. by destruct (String.eqb x y). Qed.

(** The non-terminal targets of the edges leaving [x], in edge order. *)
Definition targets (l : list JourneyEdge) (x : string) : list string :=
  flat_map (λ e, if String.eqb (source e) x then match target e with Some t => [t] | None => [] end else []) l.

Lemma targets_In l x y : In y (targets l x) ↔ edge_rel l x y.
Proof.
  unfold targets, edge_rel. rewrite in_flat_map. split.
  - intros (e&He&Hy). exists e. destruct (String.eqb (source e) x) eqn:E; [|done]. b2p.
    destruct (target e); [|done]. by destruct Hy as [<-|[]].
  - intros (e&He&<-&Ht). exists e. rewrite String.eqb_refl, Ht. split; [done|by left].
Qed.

Lemma edge_step_state nodes st e :
  let st' := fst (edge_step fmt nodes st e) in
  (∀ y, In y (ids st') ↔ In y (ids st) ∨ y = edge_id e)
  ∧ (∀ k, In k (outputs st') ↔ In k (outputs st) ∨ k = edge_key e)
  ∧ (∀ x, targets_of (adjacency st') x = targets_of (adjacency st) x ++ targets [e] x)
  ∧ (List.NoDup (JMap.keys (adjacency st)) → List.NoDup (JMap.keys (adjacency st')))
  ∧ (∀ x, In x (JMap.keys (adjacency st')) → In x (JMap.keys (adjacency st)) ∨ x = source e).
Proof.
  unfold edge_step, edge_key. simpl. split_and!.
  - intros y. apply set_add_In.
  - intros k. destruct (outputs_has (outputs st) (source e, source_port e)) eqn:E.
    + apply outputs_has_spec in E. split; [by left|]. by intros [?| ->].
    + rewrite in_app_iff. simpl. intuition.
  - intros x. unfold targets. simpl. destruct (target e) as [t|].
    + rewrite targets_of_set. destruct (String.eqb (source e) x) eqn:E; b2p; subst; simpl;
        by rewrite ?app_nil_r.
    + destruct (String.eqb (source e) x); by rewrite app_nil_r.
  - intros Hnd. destruct (target e); [by apply JMap.NoDup_keys_set|done].
  - intros x. destruct (target e) as [t|]; [|by left]. rewrite JMap.keys_set.
    destruct (JMap.has _ _); [by left|]. rewrite in_app_iff. simpl. intuition.
Qed.

Lemma edge_loop_spec nodes st l :
  let '(st', reported) := edge_loop fmt nodes st l in
  (reported = [] ↔
     Forall (λ e, blank (edge_id e) = false) l ∧ Forall (edge_ok nodes) l
     ∧ (List.NoDup (map edge_id l) ∧ ∀ e, In e l → ¬ In (edge_id e) (ids st))
     ∧ (List.NoDup (map edge_key l) ∧ ∀ e, In e l → ¬ In (edge_key e) (outputs st)))
  ∧ (∀ k, In k (outputs st') ↔ In k (outputs st) ∨ In k (map edge_key l))
  ∧ (∀ x, targets_of (adjacency st') x = targets_of (adjacency st) x ++ targets l x)
  ∧ (List.NoDup (JMap.keys (adjacency st)) → List.NoDup (JMap.keys (adjacency st')))
  ∧ (∀ x, In x (JMap.keys (adjacency st')) → In x (JMap.keys (adjacency st)) ∨ ∃ e, In e l ∧ x = source e).
Proof.
  revert st. induction l as [|e l IH]; intros st; cbn [edge_loop].
  - split_and!; [|by intuition|intros x; by rewrite app_nil_r|done|by left].
    split; [|done]. intros _. split_and!; first [by intros ? [] | by constructor].
  - pose proof (edge_step_reported nodes st e) as Hrep.
    pose proof (edge_step_state nodes st e) as (Hids&Houts&Hadj&Hnd&Hkeys).
    destruct (edge_step fmt nodes st e) as [st1 r1]. simpl in *.
    specialize (IH st1). destruct (edge_loop fmt nodes st1 l) as [st2 r2].
    destruct IH as (IHr&IHo&IHa&IHn&IHk). split_and!.
    + rewrite app_nil, Hrep, IHr, (fresh_cons edge_id _ _ e l Hids), (fresh_cons edge_key _ _ e l Houts).
      rewrite !Forall_cons. tauto.
    + intros k. rewrite IHo, Houts. simpl. intuition.
    + intros x. rewrite IHa, Hadj, <- app_assoc. f_equal. unfold targets. simpl. by rewrite app_nil_r.
    + auto.
    + intros x Hx. apply IHk in Hx as [Hx|(e'&?&?)]; [|eauto].
      apply Hkeys in Hx as [?|?]; eauto.
Qed.

(** *** The nodes by id *)

Section Keyed.
Context (l : list JourneyNode).
Context (Hok : Forall id_ok l) (Hnd : List.NoDup (map node_id l)).

Lemma keys_keyed id : In id (JMap.keys (map keyed l)) ↔ In (Some id) (map node_id l).
Proof.
  unfold JMap.keys. rewrite map_map, !in_map_iff. rewrite List.Forall_forall in Hok. split.
  - intros (n&Hn&Hin). exists n. split; [|done]. destruct (Hok _ Hin) as (id'&Hid&_).
    unfold keyed in Hn. rewrite Hid in *. simpl in Hn. by subst.
  - intros (n&Hn&Hin). exists n. split; [|done]. unfold keyed. by rewrite Hn.
Qed.

Lemma keys_keyed_NoDup : List.NoDup (JMap.keys (map keyed l)).
Proof.
  unfold JMap.keys. rewrite map_map.
  assert (map node_id l = map Some (map (λ n, fst (keyed n)) l)) as Heq.
  { rewrite map_map. apply map_ext_in. intros n Hin.
    rewrite List.Forall_forall in Hok. destruct (Hok _ Hin) as (id&Hid&_).
    unfold keyed. by rewrite Hid. }
  rewrite Heq in Hnd. by apply NoDup_map_inv in Hnd.
Qed.

Lemma get_keyed id n : JMap.get (map keyed l) id = Some n ↔ In n l ∧ node_id n = Some id.
Proof.
  assert (In (id, n) (map keyed l) ↔ In n l ∧ node_id n = Some id) as Hin.
  { rewrite in_map_iff. rewrite List.Forall_forall in Hok. split.
    - intros (n'&Hn&Hin). unfold keyed in Hn. destruct (Hok _ Hin) as (id'&Hid&_).
      rewrite Hid in Hn. simpl in Hn. by simplify_eq.
    - intros [Hin Hid]. exists n. unfold keyed. by rewrite Hid. }
  rewrite <- Hin. split; [apply JMap.get_In|]. apply JMap.In_get, keys_keyed_NoDup.
Qed.

Lemma port_issues_nil outs :
  port_issues fmt (map keyed l) outs = [] ↔
  ∀ n id port, In n l → node_id n = Some id → In port (map port_id (outputPorts fmt (body n))) →
    In (id, port) outs.
Proof.
  unfold port_issues. rewrite flat_map_concat_map, map_map, concat_nil_Forall, Forall_map, List.Forall_forall.
  rewrite List.Forall_forall in Hok. 
  assert (∀ n, In n l → ((λ x, (let '(id, node) := keyed x in
      flat_map (λ port, when (negb (outputs_has outs (id, port_id port)))
        (issue (port_label port +:+ " 경로를 다음 단계 또는 종료에 연결하세요") None (Some id) None (Some "edges")))
        (outputPorts fmt (body node))) = []) n ↔
    ∀ id port, node_id n = Some id → In port (map port_id (outputPorts fmt (body n))) → In (id, port) outs)) as H.
  { intros n Hin. destruct (Hok _ Hin) as (id&Hid&_). unfold keyed. rewrite Hid. simpl.
    rewrite flat_map_concat_map, concat_nil_Forall, Forall_map, List.Forall_forall. split.
    - intros H id' port [= <-] (p&<-&Hp)%in_map_iff. specialize (H p Hp). cbv beta in H.
      rewrite when_nil, negb_false_iff, outputs_has_spec in H by done. done.
    - intros H p Hp. rewrite when_nil, negb_false_iff, outputs_has_spec by done.
      apply H; [done|]. by apply in_map. }
  split.
  - intros Hall n id port Hin. apply (proj1 (H n Hin)). by apply Hall.
  - intros Hall n Hin. apply (proj2 (H n Hin)). eauto.
Qed.
End Keyed.

(** *** The graph checks together *)

Lemma targets_of_keys adj v : ¬ In v (JMap.keys adj) → targets_of adj v = [].
Proof.
  rewrite <- JMap.get_keys. unfold targets_of. destruct (JMap.get adj v); [|done].
  intros H. by destruct H.
Qed.

Lemma In_targets_of_keys adj v t : In t (targets_of adj v) → In v (JMap.keys adj).
Proof.
  intros Ht. destruct (in_dec String.string_dec v (JMap.keys adj)) as [|Hn]; [done|].
  by rewrite targets_of_keys in Ht.
Qed.

Section Assembly.
Context (def : JourneyDefinition) (es : list JourneyEdge) (st : EdgeState).
Context (Hids : Forall id_ok (nodes_of def) ∧ List.NoDup (map node_id (nodes_of def))).
Let ns : list (string * JourneyNode) := map keyed (nodes_of def).

Lemma edge_ok_keyed e :
  edge_ok ns e ↔ has_port def (source e) (source_port e)
                 ∧ ∀ t, target e = Some t → step_id def t.
Proof.
  destruct Hids as [Hok Hnd]. unfold edge_ok, ns, has_port, step_id.
  setoid_rewrite (get_keyed _ Hok Hnd). setoid_rewrite (keys_keyed _ Hok).
  assert (∀ (P Q : JourneyNode → Prop) (R : JourneyNode → Prop),
    (∃ n, (P n ∧ Q n) ∧ R n) ↔ (∃ n, P n ∧ Q n ∧ R n)) as Hassoc
    by (intros; split; intros (n&?); exists n; tauto).
  by rewrite Hassoc.
Qed.

Context (Hadj : ∀ x, targets_of (adjacency st) x = targets es x).
Context (Hkeys : List.NoDup (JMap.keys (adjacency st))).
Context (Hsrc : ∀ x, In x (JMap.keys (adjacency st)) → ∃ e, In e es ∧ x = source e).
Context (Hedges : Forall (edge_ok ns) es).

Lemma graph_edge_rel x y :
  graph_edge (targets_of (adjacency st)) (JMap.keys ns) (JMap.keys (adjacency st)) x y ↔ edge_rel es x y.
Proof.
  destruct Hids as [Hok _]. unfold graph_edge. rewrite Hadj, targets_In. split; [tauto|].
  intros He. assert (In y (targets_of (adjacency st) x)) as Hy by by rewrite Hadj, targets_In.
  split; [by eapply In_targets_of_keys|]. split; [|done].
  destruct He as (e&Hin&<-&Ht). rewrite List.Forall_forall in Hedges.
  destruct (Hedges _ Hin) as [_ H]. auto.
Qed.

Lemma kahn_complete :
  length (kahn (targets_of (adjacency st)) (JMap.keys ns) (JMap.keys (adjacency st))) = length ns
  ↔ ∀ x, ¬ tc (edge_rel es) x x.
Proof.
  destruct Hids as [Hok Hnd].
  assert (length ns = length (JMap.keys ns)) as -> by (unfold JMap.keys; by rewrite length_map).
  rewrite kahn_acyclic.
  - split; intros H x Hx; apply (H x); (eapply tc_mono; [|exact Hx]);
      intros a b ?; by apply graph_edge_rel.
  - by apply keys_keyed_NoDup.
  - done.
  - intros v. apply targets_of_keys.
  - intros s Hs. destruct (Hsrc _ Hs) as (e&Hin&->). rewrite List.Forall_forall in Hedges.
    destruct (Hedges _ Hin) as [(n&Hn&_) _]. apply JMap.get_keys. by rewrite Hn.
Qed.

Lemma walk_complete s x :
  In x (walk_from (targets_of (adjacency st)) (JMap.keys (adjacency st)) [s]) ↔ rtc (edge_rel es) s x.
Proof.
  rewrite walk_from_spec; [|done|apply targets_of_keys].
  assert (∀ a b, step_to (targets_of (adjacency st)) a b ↔ edge_rel es a b) as Hs.
  { intros a b. unfold step_to. by rewrite Hadj, targets_In. }
  split.
  - intros (p&[->|[]]&Hp). eapply rtc_subrel; [|done]. by intros ??; rewrite Hs.
  - intros Hp. exists s. split; [by left|]. eapply rtc_subrel; [|done]. by intros ??; rewrite Hs.
Qed.
End Assembly.

Lemma flat_map_nil_In {A B} (f : A → list B) l : flat_map f l = [] ↔ ∀ x, In x l → f x = [].
Proof. by rewrite flat_map_concat_map, concat_nil_Forall, Forall_map, List.Forall_forall. Qed.

(** The checks of the edge list and the loops over it, on valid ids. *)
Lemma edges_spec def es s :
  Forall id_ok (nodes_of def) ∧ List.NoDup (map node_id (nodes_of def)) →
  let ns := map keyed (nodes_of def) in
  let '(st, reported) := edge_loop fmt ns (mkEdgeState [] [] []) es in
  let adj := targets_of (adjacency st) in
  (reported ++ port_issues fmt ns (outputs st)
   ++ when (negb (Nat.eqb (length (kahn adj (JMap.keys ns) (JMap.keys (adjacency st)))) (length ns)))
        (issue "반복 연결은 지원하지 않습니다. 순환 경로를 제거하세요" None None None (Some "edges"))
   ++ flat_map (λ id, when (negb (String_in id (walk_from adj (JMap.keys (adjacency st)) [s])))
                        (issue "시작 단계에서 도달할 수 없는 단계입니다" None (Some id) None None)) (JMap.keys ns)
   = []) ↔
  valid_edges def es ∧ (∀ x, ¬ tc (edge_rel es) x x) ∧ (∀ x, step_id def x → rtc (edge_rel es) s x).
Proof.
  intros Hids ns. subst ns. pose proof (edge_loop_spec (map keyed (nodes_of def)) (mkEdgeState [] [] []) es) as H.
  destruct (edge_loop fmt (map keyed (nodes_of def)) (mkEdgeState [] [] []) es) as [st reported].
  destruct H as (Hrep&Hout&Hadj&Hnd&Hsrc). simpl in *.
  assert (∀ x, In x (JMap.keys (adjacency st)) → ∃ e, In e es ∧ x = source e) as Hsrc'.
  { intros x Hx. apply Hsrc in Hx as [[]|Hx]. done. }
  specialize (Hnd ltac:(constructor)).
  assert (∀ k, In k (outputs st) ↔ In k (map edge_key es)) as Hout'.
  { intros k. rewrite Hout. tauto. }
  rewrite !app_nil, Hrep, (port_issues_nil _ (proj1 Hids)), when_nil, flat_map_nil_In, negb_false_iff, Nat.eqb_eq by done.
  assert (Forall (edge_ok (map keyed (nodes_of def))) es ↔ ∀ e, In e es → has_port def (source e) (source_port e)
            ∧ ∀ t, target e = Some t → step_id def t) as Hedge.
  { rewrite List.Forall_forall. split; intros Hall e He; apply (edge_ok_keyed def Hids e); auto. }
  split.
  - intros ((Hb&Hok&[Hid _]&[Hkey _])&Hports&Hk&Hr). split; [split|split].
    + done.
    + intros e He. by apply Hedge.
    + intros e t He. by apply Hedge.
    + done.
    + intros id port (n&?&?&?). apply Hout'. eauto.
    + by apply (kahn_complete def es st Hids Hadj Hnd Hsrc' Hok).
    + intros x Hx. apply (walk_complete es st Hadj Hnd).
      apply (keys_keyed _ (proj1 Hids)) in Hx. specialize (Hr _ Hx).
      rewrite when_nil, negb_false_iff in Hr by done. by apply String_in_spec.
  - intros ([[Hb Hid] He Ht Hkey Htot]&Hk&Hr).
    assert (Forall (edge_ok (map keyed (nodes_of def))) es) as Hok by (apply Hedge; eauto). split_and!.
    + done.
    + done.
    + done.
    + by intros ? ? ?.
    + done.
    + by intros ? ? ?.
    + intros n id port ? ? ?. apply Hout', Htot. by exists n.
    + by apply (kahn_complete def es st Hids Hadj Hnd Hsrc' Hok).
    + intros x Hx. rewrite when_nil, negb_false_iff, String_in_spec by done.
      apply (walk_complete es st Hadj Hnd), Hr. by apply (keys_keyed _ (proj1 Hids)).
Qed.

Lemma blank_false_nonempty s : blank s = false → String.eqb s "" = false.
Proof. intros H. destruct (String.eqb s "") eqn:E; [|done]. b2p. by subst. Qed.

Lemma validateGraph_spec def : validateGraph fmt def = [] ↔ valid_graph def.
Proof.
  unfold validateGraph. destruct (collect_nodes 0 (nodes_of def) []) as [ns idi] eqn:Ec.
  apply collect_nodes_spec in Ec as [Hidi Hns]. simpl in Hns.
  assert (idi = [] ↔ Forall id_ok (nodes_of def) ∧ List.NoDup (map node_id (nodes_of def))) as Hidi'.
  { rewrite Hidi. split; [tauto|]. intros [? ?]. split; [done|]. split; [done|]. by intros ? ? ? ? []. }
  clear Hidi. split.
  - intros H.
    assert (idi = []) as Hi by (destruct (edges def); [destruct (edge_loop _ _ _ _)|]; by apply app_nil in H as [? _]).
    pose proof (Hns Hi) as ->. clear Hns. apply Hidi' in Hi as Hids. split; [done|].
    pose proof (λ es s, edges_spec def es s Hids) as Hspec.
    destruct (edges def) as [es|]; [|by rewrite !app_nil in H; destruct H as (_&_&?)].
    destruct (start_node_id def) as [s|].
    2:{ destruct (edge_loop _ _ _ _). by rewrite !app_nil in H; destruct H as (_&?&_). }
    specialize (Hspec es s). cbv zeta in Hspec. destruct (edge_loop _ _ _ _) as [st reported].
    rewrite app_nil, app_nil, when_nil in H by done. destruct H as (_&Hs&H).
    b2p. assert (String.eqb s "" = false) as Hse by by apply String.eqb_neq.
    rewrite Hse in H. apply Hspec in H as (?&?&?).
    exists s, es. split_and!; try done. apply JMap.has_keys in H1. by apply (keys_keyed _ (proj1 Hids)).
  - intros [Hids (s&es&Hs&Hes&Hstep&Hv&Hc&Hr)]. apply Hidi' in Hids as Hi.
    rewrite Hes, Hs, Hi. rewrite (Hns Hi).
    pose proof (edges_spec def es s Hids) as Hspec. cbv zeta in Hspec.
    destruct (edge_loop _ _ _ _) as [st reported].
    assert (blank s = false) as Hb%blank_false_nonempty.
    { apply in_map_iff in Hstep as (n&Hn&Hin). destruct Hids as [Hok _].
      rewrite List.Forall_forall in Hok. destruct (Hok _ Hin) as (id&Hid&?&_).
      rewrite Hid in Hn. by simplify_eq. }
    rewrite Hb. rewrite app_nil, app_nil, when_nil by done. split; [done|]. split; [|by apply Hspec].
    simpl. apply negb_false_iff, JMap.has_keys. by apply (keys_keyed _ (proj1 Hids)).
Qed.

(** ** What a valid journey is *)

Definition text_ok (s : option string) : Prop := ∃ t, s = Some t ∧ blank t = false.
Definition duration_ok (n : num) : Prop :=
  Number_isInteger n = true ∧ 0 < num_to_Z n <= MAX_DURATION_SECONDS.

(** A message has exactly one channel, and the content of that channel. *)
Inductive message_ok : MessageNode → Prop :=
| message_push p :
    text_ok (push_title p) → text_ok (push_body p) → message_ok (mkMessage (Some p) None None)
| message_email e :
    text_ok (email_subject e) → text_ok (email_html e) →
    (∀ p, email_provider e = Some p → In p EMAIL_PROVIDERS) → message_ok (mkMessage None (Some e) None)
| message_alimtalk a :
    text_ok (al_sender_id a) → text_ok (al_template_code a) →
    (∀ f, al_fallback a = Some f → text_ok (fb_text f)) → message_ok (mkMessage None None (Some a)).

(** Two to four variants, whole percentages that sum to one hundred. *)
Definition split_ok (variants : list ABVariant) : Prop :=
  2 <= Z.of_nat (length variants) <= 4
  ∧ List.NoDup (map variant_id variants)
  ∧ Forall (λ v, blank (variant_id v) = false ∧ blank (variant_label v) = false
                 ∧ Number_isInteger (weight v) = true ∧ 1 <= num_to_Z (weight v) <= 100) variants
  ∧ foldr Z.add 0 (map (λ v, num_to_Z (weight v)) variants) = 100.

Inductive body_ok : NodeBody → Prop :=
| body_message n : message_ok n → body_ok (NMessage n)
| body_delay n : duration_ok (duration_seconds n) → body_ok (NDelay n)
| body_branch n : branch_ok (condition n) → body_ok (NBranch n)
| body_wait n : text_ok (event_name n) → duration_ok (timeout_seconds n) → body_ok (NEventWait n)
| body_split n : split_ok (default [] (variants n)) → body_ok (NABSplit n).

Inductive entry_ok : option EntryRule → Prop :=
| entry_blast s e : s ≠ "" → entry_ok (Some (mkEntry (Some "blast") (Some s) e))
| entry_trigger s e : blank e = false → entry_ok (Some (mkEntry (Some "trigger") s (Some e))).

Inductive settings_ok (graph : bool) : option JourneySettings → Prop :=
| settings_valid c r :
    In c ["marketing"; "transactional"] →
    (∀ n, r = RAfterDays n → Number_isInteger n = true ∧ 0 < num_to_Z n
                            ∧ (graph = true → num_to_Z n <= 106751)) →
    r ≠ ROther → settings_ok graph (Some (mkSettings (Some c) r)).

Record journey_ok (def : JourneyDefinition) : Prop := {
  jo_version : schema_version def = None ∨ version_is def 1 = true ∨ version_is def 2 = true;
  jo_entry : entry_ok (entry def);
  jo_size : 1 <= Z.of_nat (length (nodes_of def)) <= 65535;
  jo_steps : Forall (λ n, body_ok (body n)) (nodes_of def);
  jo_linear : version_is def 2 = false → Forall (λ n, is_message n || is_delay n = true) (nodes_of def);
  jo_message : Exists (λ n, is_message n = true) (nodes_of def);
  jo_graph : version_is def 2 = true → valid_graph def;
  jo_settings : settings_ok (version_is def 2) (settings def) }.

(** *** One step *)

Lemma missing_false s : missing s = false ↔ text_ok s.
Proof.
  unfold missing, text_ok. destruct s; [|split; [done|by intros (?&[=]&_)]].
  split; [eauto|]. by intros (?&[= ->]&?).
Qed.

Lemma validDuration_spec n : validDuration n = true ↔ duration_ok n.
Proof.
  unfold validDuration, duration_ok. rewrite !andb_true_iff. split.
  - intros [[Hs Hl] Hh]. apply Number_isSafeInteger_spec in Hs as [Hi _].
    rewrite num_gtb_int in Hl by done. rewrite num_leb_int in Hh by done. b2p. done.
  - intros [Hi ?]. rewrite num_gtb_int, num_leb_int by done.
    rewrite Z.ltb_lt, Z.leb_le. split; [split; [|lia]|lia].
    destruct n as [| |q]; try done. simpl in *. rewrite Hi. simpl. apply Z.leb_le.
    unfold MAX_DURATION_SECONDS, MAX_SAFE_INTEGER in *. lia.
Qed.

Lemma map_eq_nil_iff {A B} (f : A → B) l : map f l = [] ↔ l = [].
Proof. by destruct l. Qed.
Lemma if_nil {A} (c : bool) (x : A) : (if c then [x] else []) = [] ↔ c = false.
Proof. by destruct c. Qed.
Lemma if_nil_r {A} (c : bool) (x : A) : (if c then [] else [x]) = [] ↔ c = true.
Proof. by destruct c. Qed.

Lemma message_errors_spec n : message_errors n = [] ↔ message_ok n.
Proof.
  destruct n as [[p|] [e|] [a|]]; unfold message_errors; simpl;
    try (split; [done|intros H; by inversion H]).
  - rewrite if_nil, orb_false_iff, !missing_false. split; [by intros []; constructor|].
    intros H. by inversion H.
  - rewrite app_nil, if_nil, orb_false_iff, !missing_false. split.
    + intros [[? ?] Hp]. constructor; [done|done|]. intros q Hq. rewrite Hq, if_nil_r in Hp.
      by apply String_in_spec.
    + intros H. inversion H as [|? ? ? Hp|]; subst. split; [done|].
      destruct (email_provider e); [|done]. apply if_nil_r, String_in_spec. auto.
  - rewrite !app_nil, !if_nil, !missing_false. split.
    + intros (?&?&Hf). constructor; [done|done|]. intros f Hq. rewrite Hq, if_nil in Hf.
      by apply missing_false.
    + intros H. inversion H as [| |? ? ? Hp]; subst. split; [done|]. split; [done|].
      destruct (al_fallback a); [|done]. apply if_nil, missing_false. auto.
Qed.

Lemma weight_bad_false n :
  weight_bad n = false ↔ Number_isInteger n = true ∧ 1 <= num_to_Z n <= 100.
Proof.
  unfold weight_bad. rewrite !orb_false_iff, negb_false_iff. split.
  - intros [[Hi Hl] Hh]. rewrite num_ltb_int in Hl by done. rewrite num_gtb_int in Hh by done.
    b2p. done.
  - intros [Hi ?]. rewrite num_ltb_int, num_gtb_int, !Z.ltb_ge by done. split_and!; [done|lia..].
Qed.

(** The floating-point sum of integer weights is the integer sum. *)
Lemma weight_sum vs r s :
  Forall (λ v, Number_isInteger (weight v) = true) vs → (r == inject_Z s)%Q →
  num_eqb (fold_left (λ sum v, num_add sum (weight v)) vs (NFin r)) (NInt 100)
  = (s + foldr Z.add 0 (map (λ v, num_to_Z (weight v)) vs) =? 100).
Proof.
  intros H. revert r s. induction H as [|v vs Hv _ IH]; intros r s Hr; simpl.
  - rewrite Z.add_0_r. apply eq_true_iff_eq. unfold num_eqb, NInt.
    rewrite Qeq_bool_iff, Z.eqb_eq, Hr. apply inject_Z_injective.
  - destruct (weight v) as [| |q]; try done. simpl. rewrite (IH _ (s + q_trunc q)).
    + by rewrite Z.add_assoc.
    + rewrite inject_Z_plus, Hr. apply q_is_int_trunc in Hv. by rewrite <- Hv.
Qed.

Lemma existsb_false_Forall {A} (p : A → bool) l : existsb p l = false ↔ Forall (λ x, p x = false) l.
Proof.
  induction l as [|x l IH]; simpl; [split; [constructor|done]|].
  by rewrite orb_false_iff, IH, Forall_cons.
Qed.

Lemma ab_errors_spec n : ab_errors n = [] ↔ split_ok (default [] (variants n)).
Proof.
  unfold ab_errors, split_ok. generalize (default [] (variants n)) as vs. intros vs.
  rewrite !app_nil, !if_nil, !orb_false_iff, !negb_false_iff, !existsb_false_Forall, Nat.eqb_eq.
  assert (length (dedup (map variant_id vs)) = length vs ↔ List.NoDup (map variant_id vs)) as ->.
  { rewrite <- dedup_length, length_map. done. }
  rewrite Nat.ltb_ge, Nat.ltb_ge, !Forall_forall. split.
  - intros ([? ?]&[Hi ?]&Hl&Hw&Hs). split; [lia|]. split; [done|].
    assert (∀ v, v ∈ vs → Number_isInteger (weight v) = true ∧ 1 <= num_to_Z (weight v) <= 100) as Hw'.
    { intros v Hv. apply weight_bad_false. auto. }
    split; [intros v Hv; destruct (Hw' v Hv); auto|].
    unfold NInt in Hs. rewrite (weight_sum vs _ 0) in Hs; [b2p; lia| |done].
    apply Forall_forall. intros v Hv. by apply Hw'.
  - intros (?&?&Hv&Hs). split; [lia|]. split; [split; [|done]; intros v Hin; by apply Hv|].
    split; [intros v Hin; by apply Hv|]. split; [intros v Hin; apply weight_bad_false; by apply Hv|].
    unfold NInt. rewrite (weight_sum vs _ 0); [rewrite Hs; done| |done].
    apply Forall_forall. intros v Hin. by apply Hv.
Qed.

Lemma step_errors_spec b : step_errors b = [] ↔ body_ok b.
Proof.
  destruct b as [n|n|n|n|n|t]; simpl.
  - rewrite message_errors_spec. split; [by constructor|]. by intros H; inversion H.
  - rewrite if_nil_r, validDuration_spec. split; [by constructor|]. by intros H; inversion H.
  - rewrite map_eq_nil_iff, validateBranchCondition_spec. split; [by constructor|]. by intros H; inversion H.
  - rewrite app_nil, if_nil, if_nil_r, missing_false, validDuration_spec.
    split; [by intros []; constructor|]. by intros H; inversion H.
  - rewrite ab_errors_spec. split; [by constructor|]. by intros H; inversion H.
  - split; [done|]. by intros H; inversion H.
Qed.

(** *** Errors among the issues *)

Definition error_free (l : list ValidationIssue) : Prop := hasErrors l = false.

Lemma error_free_app a b : error_free (a ++ b) ↔ error_free a ∧ error_free b.
Proof. unfold error_free, hasErrors. by rewrite existsb_app, orb_false_iff. Qed.
Lemma error_free_when c m a b d f : error_free (when c (issue m a b d f)) ↔ c = false.
Proof. by destruct c. Qed.
Lemma error_free_concat ls : error_free (concat ls) ↔ Forall error_free ls.
Proof.
  induction ls as [|l ls IH]; simpl; [split; [constructor|done]|].
  by rewrite error_free_app, IH, Forall_cons.
Qed.
Lemma error_free_nil : error_free [] ↔ True.
Proof. done. Qed.
Lemma error_free_errors l : Forall (λ i, level i = Error) l → error_free l ↔ l = [].
Proof. intros H. destruct H as [|i l Hi _]; [done|]. unfold error_free. simpl. by rewrite Hi. Qed.

Lemma Forall_imap {A B} (P : B → Prop) (f : nat → A → B) (Q : A → Prop) l :
  (∀ i x, P (f i x) ↔ Q x) → Forall P (imap f l) ↔ Forall Q l.
Proof.
  intros H. revert f H. induction l as [|x l IH]; intros f H; simpl; [split; by constructor|].
  rewrite !Forall_cons, (IH (f ∘ S)); [by rewrite H|]. intros. apply H.
Qed.

Lemma node_issues_spec def graph i n :
  error_free (node_issues def graph i n) ↔
  (graph = false → is_message n || is_delay n = true) ∧ body_ok (body n).
Proof.
  unfold node_issues. rewrite !error_free_app.
  assert (error_free (when (negb graph && negb (String_in (type_of (body n)) ["message"; "delay"]))
      [mkIssue Error "분기·이벤트 대기는 v2 그래프에서만 지원합니다" (Some i) (node_id n) None None])
    ↔ (graph = false → String_in (type_of (body n)) ["message"; "delay"] = true)) as ->.
  { destruct graph, (String_in (type_of (body n)) ["message"; "delay"]); naive_solver. }
  rewrite (error_free_errors (map _ _)) by (apply Forall_map, Forall_true; by intros []).
  rewrite map_eq_nil_iff, step_errors_spec.
  assert (error_free match body n with
     | NEventWait w => when (negb (falsy (event_name w)) && bool_decide (event_name w = (exit def ≫= conversion_event)))
         [mkIssue Warning "전환 종료와 대기 이벤트가 같습니다. 전환 종료가 먼저 적용됩니다" (Some i) (node_id n) None (Some "event_name")]
     | _ => [] end) as Hwarn by (destruct (body n); try done; by destruct (_ && _)).
  unfold is_message, is_delay. split.
  - intros (Hg&Hb&_). split; [|done]. intros ->. specialize (Hg eq_refl). apply String_in_spec in Hg.
    destruct (body n); try done; simpl in Hg; try (by intuition discriminate). by inversion Hb.
  - intros (Hg&Hb). split; [|done]. intros ->. specialize (Hg eq_refl).
    by destruct (body n).
Qed.

(** *** The whole definition *)

Lemma entry_issues_spec def : error_free (entry_issues def) ↔ entry_ok (entry def).
Proof.
  assert (∀ m, error_free (issue m None None None None) ↔ False) as Hf by done.
  unfold entry_issues. destruct (entry def) as [[[t|] s e]|]; simpl;
    [|split; [done|intros H; by inversion H]..].
  destruct (String.eqb t "") eqn:E0; b2p; [subst; split; [done|intros H; by inversion H]|].
  destruct (decide (t = "blast")) as [->|Hb]; simpl.
  - destruct s as [s|]; simpl; [|split; [done|intros H; by inversion H]].
    destruct (String.eqb s "") eqn:Es; b2p.
    + subst. split; [done|]. intros H. by inversion H.
    + split; [|done]. intros _. by constructor.
  - assert (String.eqb t "blast" = false) as -> by by apply String.eqb_neq. simpl.
    destruct (decide (t = "trigger")) as [->|Ht]; simpl.
    + destruct e as [e|]; simpl; [|split; [done|intros H; by inversion H]].
      destruct (blank e) eqn:Ee.
      * split; [done|]. intros H. inversion H. congruence.
      * split; [|done]. intros _. by constructor.
    + assert (String.eqb t "trigger" = false) as -> by by apply String.eqb_neq. simpl.
      assert (String_in t ["blast"; "trigger"] = false) as ->.
      { apply String_in_false. by intros [?|[?|[]]]. }
      split; [done|]. intros H. by inversion H.
Qed.

Lemma settings_issues_spec def graph :
  error_free (settings_issues def graph) ↔ settings_ok graph (settings def).
Proof.
  unfold settings_issues. rewrite error_free_app, error_free_when.
  destruct (settings def) as [[[c|] r]|]; simpl;
    [|split; [by intros [? _]|intros H; by inversion H]..].
  rewrite negb_false_iff, String_in_spec. destruct r as [| |n|].
  - split; [|by inversion 1]. intros [? _]. by constructor.
  - split; [|by inversion 1]. intros [? _]. by constructor.
  - rewrite error_free_app, !error_free_when, negb_false_iff, andb_true_iff. split.
    + intros (?&[Hi Hl]&Hg). constructor; [done| |done]. intros n' [= <-].
      rewrite num_gtb_int in Hl by done. b2p. split; [done|]. split; [done|]. intros ->.
      simpl in Hg. rewrite num_gtb_int in Hg by done. b2p. lia.
    + intros H. inversion H as [? ? ? Hn _]; subst. split; [done|].
      destruct (Hn _ eq_refl) as (Hi&?&Hg). rewrite !num_gtb_int by done. rewrite Z.ltb_lt.
      split; [done|]. destruct graph; [|done]. simpl. apply Z.ltb_ge. auto.
  - split; [by intros [_ ?]|]. intros H. inversion H. done.
Qed.

Lemma issue_levels_when c m a b d f : Forall (λ i, level i = Error) (when c (issue m a b d f)).
Proof. destruct c; simpl; by repeat constructor. Qed.

Lemma validateGraph_level def : Forall (λ i, level i = Error) (validateGraph fmt def).
Proof.
  assert (∀ l i seen, Forall (λ i, level i = Error) (snd (collect_nodes i l seen))) as Hc.
  { induction l as [|n l IH]; intros i seen; simpl; [constructor|].
    repeat case_match; simplify_eq; simpl; rewrite ?Forall_cons;
      match goal with H : collect_nodes ?a l ?b = _ |- _ => specialize (IH a b); rewrite H in IH end;
      try (split; [done|]); done. }
  assert (∀ l ns st, Forall (λ i, level i = Error) (snd (edge_loop fmt ns st l))) as He.
  { induction l as [|e l IH]; intros ns st; [constructor|]. cbn [edge_loop].
    destruct (edge_step fmt ns st e) as [st1 r1] eqn:E. specialize (IH ns st1).
    destruct (edge_loop fmt ns st1 l). simpl in *. rewrite Forall_app. split; [|done].
    unfold edge_step in E. simplify_eq. rewrite !Forall_app.
    split_and!; try apply issue_levels_when.
    - destruct (JMap.get ns (source e)); [apply issue_levels_when|by repeat constructor].
    - destruct (target e); [apply issue_levels_when|constructor]. }
  assert (∀ (A : Type) (f : A → list ValidationIssue) l,
    (∀ x, Forall (λ i, level i = Error) (f x)) → Forall (λ i, level i = Error) (flat_map f l)) as Hfm.
  { intros A f l Hf. induction l; simpl; [constructor|]. apply Forall_app. auto. }
  unfold validateGraph. specialize (Hc (nodes_of def) 0 []).
  destruct (collect_nodes 0 (nodes_of def) []) as [ns idi]. simpl in Hc.
  destruct (edges def) as [es|].
  - specialize (He es ns (mkEdgeState [] [] [])).
    destruct (edge_loop fmt ns (mkEdgeState [] [] []) es) as [st r]. simpl in He.
    rewrite !Forall_app. split_and!; try done.
    + destruct (start_node_id def); [apply issue_levels_when|by repeat constructor].
    + apply Hfm. intros [id n]. apply Hfm. intros p. apply issue_levels_when.
    + apply issue_levels_when.
    + apply Hfm. intros id. apply issue_levels_when.
  - rewrite !Forall_app. split_and!; [done| |by repeat constructor].
    destruct (start_node_id def); [apply issue_levels_when|by repeat constructor].
Qed.

Lemma validateJourney_spec def : error_free (validateJourney fmt def) ↔ journey_ok def.
Proof.
  unfold validateJourney. rewrite !error_free_app, !error_free_when, entry_issues_spec,
    settings_issues_spec, error_free_concat.
  rewrite (Forall_imap _ _ (λ n, (version_is def 2 = false → is_message n || is_delay n = true)
    ∧ body_ok (body n))) by (intros; apply node_issues_spec).
  assert (error_free (if version_is def 2 then validateGraph fmt def
      else when match last (nodes_of def) with Some n => is_delay n | None => false end
             [mkIssue Warning "마지막 노드가 대기입니다 — 발송 없이 종료됩니다"
                (Some (Z.of_nat (length (nodes_of def)) - 1)) None None None])
    ↔ (version_is def 2 = true → valid_graph def)) as ->.
  { destruct (version_is def 2).
    - rewrite (error_free_errors _ (validateGraph_level def)), validateGraph_spec. tauto.
    - split; [done|]. intros _. by destruct (match last _ with Some _ => _ | None => _ end). }
  assert (match schema_version def with None => false | Some _ => true end
          && negb (version_is def 1) && negb (version_is def 2) = false
    ↔ schema_version def = None ∨ version_is def 1 = true ∨ version_is def 2 = true) as ->.
  { destruct (schema_version def), (version_is def 1), (version_is def 2); simpl; intuition congruence. }
  rewrite Nat.eqb_neq, Z.ltb_ge, !List.Forall_forall.
  assert (∀ l, negb (length l =? 0)%nat && negb (existsb is_message l) = false
    ↔ (length l ≠ 0%nat → Exists (λ n, is_message n = true) l)) as ->.
  { intros l. rewrite Exists_exists. split.
    - intros H Hl. apply Nat.eqb_neq in Hl. rewrite Hl in H. simpl in H. b2p.
      apply existsb_exists in H as (n&?&?). exists n. by rewrite list_elem_of_In.
    - intros H. destruct (length l =? 0)%nat eqn:E; [done|]. simpl. apply negb_false_iff.
      apply Nat.eqb_neq in E. destruct (H E) as (n&?&?). apply existsb_exists. exists n.
      by rewrite list_elem_of_In in *. }
  split.
  - intros (Hv&He&Hs1&Hs2&Hn&Hm&Hg&Hs). split; try done.
    + lia.
    + apply List.Forall_forall. intros n Hin. by apply Hn.
    + intros Hv2. apply List.Forall_forall. intros n Hin. by apply Hn.
    + auto.
  - intros [Hv He Hs Hb Hl Hm Hg Hset]. rewrite List.Forall_forall in Hb.
    split_and!; try done; try lia.
    intros n Hin. split; [|auto]. intros Hv2. specialize (Hl Hv2).
    rewrite List.Forall_forall in Hl. auto.
Qed.
End ValidGraph.
