(* ===== verification/JourneyProps.v ===== *)
(** * Properties of journey definitions

    The validator accepts exactly the well-formed journeys, an accepted graph
    has one way on from every output port and no path longer than its number of
    steps, reading a v1 list as a graph keeps it acceptable, and a published
    A/B allocation never changes over a history of accepted versions. *)

From Stdlib Require Import Ascii QArith.
From stdpp Require Import pretty.
From S2P Require Import Prelude JsVal Graph BranchCondition JourneyModel.

#[global] Open Scope Z_scope.

(** ** Acceptance *)

(** [validateBranchCondition] reports nothing exactly on the conditions of
    the grammar [branch_ok]: version 1, one to twenty groups of one to fifty
    conditions, the two condition forms with their value types, real calendar
    dates, and no property beyond the ones named. *)
Theorem validateBranchCondition_accepts dsl :
  validateBranchCondition dsl = [] ↔ branch_ok dsl.
Proof. apply validateBranchCondition_spec. Qed.

(** C3. [validateJourney] reports no error exactly on the well-formed journeys:
    a known version, a complete entry rule, 1 to 65,535 steps each valid for its
    type (one message channel with its content, bounded durations, whole A/B
    percentages summing to one hundred), only messages and delays in a v1 list,
    a valid graph in v2, and valid settings. *)
Theorem validateJourney_accepts fmt def :
  hasErrors (validateJourney fmt def) = false ↔ journey_ok fmt def.
Proof. apply validateJourney_spec. Qed.

(** ** Paths of an accepted graph *)

Lemma acyclic_path {A} (R : relation A) n x y :
  (∀ z, ¬ tc R z z) → nsteps R n x y →
  ∃ l, length l = S n ∧ NoDup l ∧ ∀ z, z ∈ l → rtc R x z.
Proof.
  intros Hac. induction 1 as [x|n x z y Hxz _ (l&Hl&Hnd&Hr)].
  - exists [x]. split_and!; [done|apply NoDup_singleton|]. by intros z ->%list_elem_of_singleton.
  - exists (x :: l). simpl. split_and!; [lia| |].
    + apply NoDup_cons. split; [|done]. intros Hx. apply (Hac x). eapply tc_rtc_r; [by apply tc_once|auto].
    + intros w [->|Hw]%elem_of_cons; [done|]. apply rtc_l with z; auto.
Qed.

(** C4. In an accepted v2 journey a customer at any output port has exactly one
    edge to follow, and every path from the start ends: it takes fewer steps
    than the journey has nodes. *)
Theorem accepted_graph_runs fmt def :
  hasErrors (validateJourney fmt def) = false → version_is def 2 = true →
  ∃ s es, start_node_id def = Some s ∧ edges def = Some es
    ∧ (∀ id port, has_port fmt def id port →
        ∃ e, In e es ∧ source e = id ∧ source_port e = port
             ∧ ∀ e', In e' es → source e' = id → source_port e' = port → e' = e)
    ∧ (∀ x, step_id def x → rtc (edge_rel es) s x)
    ∧ ∀ n y, nsteps (edge_rel es) n s y → (n < length (nodes_of def))%nat.
Proof.
  intros [_ _ _ _ _ _ Hg _]%validateJourney_spec Hv.
  destruct (Hg Hv) as [Hids (s&es&Hs&Hes&Hstep&He&Hac&Hr)].
  exists s, es. split_and!; try done.
  - intros id port Hp. apply (ve_total _ _ _ He) in Hp as Hin.
    apply in_map_iff in Hin as (e&[= Hsrc Hport]&Hin). exists e. split_and!; try done.
    intros e' Hin' Hs' Hp'. eapply NoDup_map_eq; [exact (ve_unique _ _ _ He)|done|done|].
    unfold edge_key. congruence.
  - intros n y Hn. apply acyclic_path in Hn as (l&Hl&Hnd&Hreach); [|done].
    assert (S n <= length (nodes_of def))%nat; [|lia].
    rewrite <- Hl, <- (length_map Some l), <- (length_map node_id (nodes_of def)).
    apply NoDup_incl_length.
    + apply NoDup_ListNoDup, NoDup_fmap_2; [apply _|done].
    + intros o (z&<-&Hz)%in_map_iff. apply list_elem_of_In, Hreach in Hz.
      destruct (rtc_inv_r _ _ Hz) as [<-|(w&_&e&Hin&_&Ht)]; [done|].
      by apply (ve_target _ _ _ He e).
Qed.

(** A small v2 journey: a branch, a message on each side. *)
Definition push_node (id : string) : JourneyNode :=
  mkNode (Some id) (NMessage (mkMessage (Some (mkPush (Some "t") (Some "b") None None)) None None)).
Definition branch_condition : jsval :=
  JObj [("version", JNum (NInt 1)); ("operator", JStr "AND");
        ("groups", JArr [JObj [("operator", JStr "OR");
          ("conditions", JArr [JObj [("type", JStr "attribute"); ("key", JStr "tier");
                                     ("op", JStr "eq"); ("value", JStr "gold")]])]])].
Definition branch_journey : JourneyDefinition :=
  mkDefinition (Some (NInt 2)) (Some (mkEntry (Some "blast") (Some "seg") None))
    (Some [mkNode (Some "b") (NBranch (mkBranch branch_condition)); push_node "m"; push_node "n"])
    (Some "b")
    (Some [mkEdge "e1" "b" "true" (Some "m"); mkEdge "e2" "b" "false" (Some "n");
           mkEdge "e3" "m" "next" (Some "n"); mkEdge "e4" "n" "next" None])
    None (Some (mkSettings (Some "marketing") RNever)).

Lemma accepted_graph_runs_witness :
  hasErrors (validateJourney (λ _, "") branch_journey) = false
  ∧ ∃ s es, start_node_id branch_journey = Some s ∧ edges branch_journey = Some es
      ∧ ∀ n y, nsteps (edge_rel es) n s y → (n < 3)%nat.
Proof.
  assert (hasErrors (validateJourney (λ _, "") branch_journey) = false) as H by (vm_compute; reflexivity).
  split; [exact H|].
  destruct (accepted_graph_runs (λ _, "") branch_journey H eq_refl) as (s&es&Hs&He&_&_&Hn).
  exists s, es. split; [exact Hs|]. split; [exact He|]. exact Hn.
Defined.

(** ** Reading a v1 list as a graph *)

Lemma pretty_N_go_length k x s :
  (x < 10 ^ N.of_nat k)%N → (String.length (pretty_N_go x s) <= k + String.length s)%nat.
Proof.
  revert x s. induction k as [|k IH]; intros x s Hx.
  - assert (x = 0)%N as -> by (simpl in Hx; lia). by rewrite pretty_N_go_0.
  - destruct (decide (x = 0)%N) as [->|Hne]; [rewrite pretty_N_go_0; lia|].
    rewrite pretty_N_go_step by lia. etrans; [apply IH|simpl; lia].
    apply N.Div0.div_lt_upper_bound. rewrite Nat2N.inj_succ, N.pow_succ_r' in Hx. done.
Qed.

Lemma pretty_nat_length k (n : nat) :
  (0 < k)%nat → (N.of_nat n < 10 ^ N.of_nat k)%N → (String.length (pretty n) <= k)%nat.
Proof.
  intros Hk Hn. unfold pretty, pretty_nat, pretty, pretty_N. case_decide; [simpl; lia|].
  pose proof (pretty_N_go_length k (N.of_nat n) "" Hn). simpl in *. lia.
Qed.

Definition lid (i : nat) : string := "legacy-" +:+ pretty i.

Lemma lid_inj i j : lid i = lid j → i = j.
Proof. unfold lid. intros H. by simplify_eq. Qed.

Section Legacy.
Context (fmt : Q → string) (def : JourneyDefinition).
Context (Hno : Forall (λ n, node_id n = None) (nodes_of def)).
Context (Hlin : Forall (λ n, is_message n || is_delay n = true) (nodes_of def)).
Context (Hsize : 1 <= Z.of_nat (length (nodes_of def)) <= 65535).

Let graph_nodes : list JourneyNode :=
  imap (λ i node, mkNode (Some (legacy_id i node)) (body node)) (nodes_of def).
Let g : JourneyDefinition :=
  mkDefinition (Some (NInt 2)) (entry def) (Some graph_nodes) (head graph_nodes ≫= node_id)
    (Some (legacy_edges graph_nodes)) (exit def) (settings def).

Lemma graph_node i n :
  graph_nodes !! i = Some n ↔ ∃ m, nodes_of def !! i = Some m ∧ n = mkNode (Some (lid i)) (body m).
Proof.
  unfold graph_nodes. rewrite list_lookup_imap, fmap_Some. split.
  - intros (m&Hm&->). exists m. split; [done|].
    unfold legacy_id, lid. rewrite (Forall_lookup_1 _ _ _ _ Hno Hm). done.
  - intros (m&Hm&->). exists m. split; [done|].
    unfold legacy_id, lid. rewrite (Forall_lookup_1 _ _ _ _ Hno Hm). done.
Qed.

Lemma graph_edge_at i e :
  legacy_edges graph_nodes !! i = Some e ↔
  (i < length (nodes_of def))%nat
  ∧ e = mkEdge ("legacy-edge-" +:+ pretty i) (lid i) "next"
          (if decide (S i < length (nodes_of def))%nat then Some (lid (S i)) else None).
Proof.
  unfold legacy_edges. rewrite list_lookup_imap, fmap_Some.
  assert (∀ j, (graph_nodes !! j ≫= node_id) = if decide (j < length (nodes_of def))%nat then Some (lid j) else None) as Hj.
  { intros j. case_decide as H.
    - apply lookup_lt_is_Some in H as [m Hm].
      assert (graph_nodes !! j = Some (mkNode (Some (lid j)) (body m))) as -> by (apply graph_node; eauto). done.
    - assert (graph_nodes !! j = None) as ->; [|done].
      apply lookup_ge_None. unfold graph_nodes. rewrite length_imap. lia. }
  split.
  - intros (n&Hn&->). pose proof (Hj (S i)) as HS. rewrite HS. apply graph_node in Hn as (m&Hm&->).
    apply lookup_lt_Some in Hm as Hlt. done.
  - intros [Hlt ->]. apply lookup_lt_is_Some in Hlt as [m Hm].
    exists (mkNode (Some (lid i)) (body m)). split; [apply graph_node; eauto|]. by rewrite (Hj (S i)).
Qed.

Lemma graph_step x : step_id g x ↔ ∃ i, (i < length (nodes_of def))%nat ∧ x = lid i.
Proof.
  unfold step_id. simpl. rewrite in_map_iff. setoid_rewrite <- list_elem_of_In.
  setoid_rewrite list_elem_of_lookup. split.
  - intros (n&Hn&i&Hi). apply graph_node in Hi as (m&Hm&->). simpl in Hn. simplify_eq.
    exists i. split; [by eapply lookup_lt_Some|done].
  - intros (i&Hlt&->). apply lookup_lt_is_Some in Hlt as [m Hm].
    exists (mkNode (Some (lid i)) (body m)). split; [done|]. exists i. apply graph_node. eauto.
Qed.

Lemma graph_port id port :
  has_port fmt g id port ↔ ∃ i, (i < length (nodes_of def))%nat ∧ id = lid i ∧ port = "next".
Proof.
  unfold has_port. simpl. setoid_rewrite <- list_elem_of_In. setoid_rewrite list_elem_of_lookup.
  assert (∀ i m, nodes_of def !! i = Some m → map port_id (outputPorts fmt (body m)) = ["next"]) as Hports.
  { intros i m Hm. pose proof (Forall_lookup_1 _ _ _ _ Hlin Hm) as H. cbv beta in H.
    unfold is_message, is_delay in H. by destruct (body m). }
  split.
  - intros (n&(i&Hi)&Hid&j&Hj). apply graph_node in Hi as (m&Hm&->). simpl in *.
    rewrite (Hports _ _ Hm) in Hj. apply list_elem_of_lookup_2, list_elem_of_singleton in Hj. simplify_eq.
    exists i. split; [by eapply lookup_lt_Some|done].
  - intros (i&Hlt&->&->). apply lookup_lt_is_Some in Hlt as [m Hm].
    exists (mkNode (Some (lid i)) (body m)). split; [exists i; apply graph_node; eauto|].
    split; [done|]. exists 0%nat. simpl. by rewrite (Hports _ _ Hm).
Qed.

Lemma graph_rel x y :
  edge_rel (legacy_edges graph_nodes) x y ↔
  ∃ i, (S i < length (nodes_of def))%nat ∧ x = lid i ∧ y = lid (S i).
Proof.
  unfold edge_rel. setoid_rewrite <- list_elem_of_In. setoid_rewrite list_elem_of_lookup. split.
  - intros (e&(i&Hi)&<-&Ht). apply graph_edge_at in Hi as [Hlt ->]. simpl in *.
    case_decide; simplify_eq. eauto.
  - intros (i&Hlt&->&->). eexists. split; [exists i; apply graph_edge_at; split; [lia|done]|].
    simpl. by rewrite decide_True.
Qed.

(** The keys of the list are those of the positions. *)
Lemma NoDup_by_index {A B} (f : A → B) (l : list A) (key : nat → B) :
  (∀ i j, key i = key j → i = j) → (∀ i x, l !! i = Some x → f x = key i) → List.NoDup (map f l).
Proof.
  intros Hinj Hkey. apply NoDup_ListNoDup, NoDup_alt. intros i j x Hi Hj.
  rewrite list_lookup_fmap, fmap_Some in Hi, Hj. destruct Hi as (a&Ha&->), Hj as (b&Hb&Heq).
  rewrite (Hkey _ _ Ha), (Hkey _ _ Hb) in Heq. auto.
Qed.

Lemma graph_valid : valid_graph fmt g.
Proof.
  split.
  - simpl. split.
    + apply Forall_lookup. intros i n (m&Hm&->)%graph_node. exists (lid i).
      apply lookup_lt_Some in Hm. split; [done|]. split; [done|].
      unfold byte_length, lid. rewrite str_length_app.
      pose proof (pretty_nat_length 5 i ltac:(lia)) as Hp.
      assert (N.of_nat i < 10 ^ N.of_nat 5)%N as Hi by (simpl; lia). specialize (Hp Hi). simpl. lia.
    + apply (NoDup_by_index _ _ (λ i, Some (lid i))); [intros ?? ?; apply lid_inj; congruence|].
      by intros i n (m&_&->)%graph_node.
  - exists (lid 0), (legacy_edges graph_nodes).
    assert (0 < length (nodes_of def))%nat as H0 by lia.
    split.
    { simpl. apply lookup_lt_is_Some in H0 as [m Hm].
      assert (graph_nodes !! 0%nat = Some (mkNode (Some (lid 0)) (body m))) as Hg by (apply graph_node; eauto).
      destruct graph_nodes as [|n l]; [done|]. simpl in Hg. by simplify_eq. }
    split; [done|]. split; [apply graph_step; eauto|]. split; [split|split].
    + split.
      * apply Forall_lookup. by intros i e (_&->)%graph_edge_at.
      * apply (NoDup_by_index _ _ (λ i : nat, "legacy-edge-" +:+ pretty i)).
        -- intros i j H. by simplify_eq.
        -- by intros i e (_&->)%graph_edge_at.
    + intros e (i&Hi)%list_elem_of_In%list_elem_of_lookup. apply graph_edge_at in Hi as [Hlt ->].
      apply graph_port. eauto.
    + intros e t (i&Hi)%list_elem_of_In%list_elem_of_lookup Ht. apply graph_edge_at in Hi as [Hlt ->].
      simpl in Ht. case_decide; simplify_eq. apply graph_step. eauto.
    + apply (NoDup_by_index _ _ (λ i : nat, (lid i, "next"))); [intros i j ?; apply lid_inj; congruence|].
      by intros i e (_&->)%graph_edge_at.
    + intros id port (i&Hlt&->&->)%graph_port. apply in_map_iff.
      eexists. split; [|apply list_elem_of_In, list_elem_of_lookup; exists i; by apply graph_edge_at]. done.
    + assert (∀ x y, tc (edge_rel (legacy_edges graph_nodes)) x y → ∃ i j, (i < j)%nat ∧ x = lid i ∧ y = lid j) as Hlt.
      { intros x y. induction 1 as [x y (i&_&->&->)%graph_rel|x y z (i&_&->&->)%graph_rel _ (i'&j&?&Hi&->)].
        - exists i, (S i). split; [lia|done].
        - apply lid_inj in Hi. exists i, j. split; [lia|done]. }
      intros x (i&j&?&->&Hij%lid_inj)%Hlt. lia.
    + intros x (i&Hlt&->)%graph_step. induction i as [|i IH]; [done|].
      apply rtc_r with (lid i); [apply IH; lia|]. apply graph_rel. eauto.
Qed.
End Legacy.

(** An accepted v1 list without explicit ids (and within the re-entry bound
    of a graph) reads as a v2 graph that is accepted, has the same steps in the
    same order chained by single edges from the start, and reads as itself. *)
Theorem legacy_graph_accepted fmt def :
  hasErrors (validateJourney fmt def) = false → version_is def 2 = false →
  Forall (λ n, node_id n = None) (nodes_of def) →
  (∀ s n, settings def = Some s → reentry s = RAfterDays n → num_to_Z n <= 106751) →
  ∃ g es, toGraphDefinition def = Ok g ∧ edges g = Some es
    ∧ hasErrors (validateJourney fmt g) = false
    ∧ map body (nodes_of g) = map body (nodes_of def)
    ∧ start_node_id g = Some (lid 0)
    ∧ (∀ x y, edge_rel es x y ↔ ∃ i, (S i < length (nodes_of def))%nat ∧ x = lid i ∧ y = lid (S i))
    ∧ toGraphDefinition g = Ok g.
Proof.
  intros [Hv He Hsz Hst Hlin Hmsg _ Hset]%validateJourney_spec Hv2 Hno Hre.
  specialize (Hlin Hv2). pose proof (graph_valid fmt def Hno Hlin Hsz) as Hg.
  unfold toGraphDefinition. rewrite Hv2.
  assert (match schema_version def with None => false | Some _ => true end && negb (version_is def 1) = false) as ->.
  { destruct (schema_version def); [|done]. destruct Hv as [|[-> |Hv]]; done || congruence. }
  set (nodes := imap _ _) in *. set (g := mkDefinition _ _ _ _ _ _ _) in *.
  assert (map body nodes = map body (nodes_of def)) as Hbody.
  { apply list_eq. intros i. rewrite !list_lookup_fmap. unfold nodes. rewrite list_lookup_imap.
    by destruct (nodes_of def !! i). }
  assert (∀ P, Forall (λ n, P (body n)) nodes ↔ Forall (λ n, P (body n)) (nodes_of def)) as HF.
  { intros P. rewrite <- !(List.Forall_map body P). by rewrite Hbody. }
  exists g, (legacy_edges nodes). split; [done|]. split; [done|]. split; [|split_and!].
  - apply validateJourney_spec. split; simpl.
    + by right; right.
    + done.
    + assert (length nodes = length (nodes_of def)) as Hlen by apply length_imap.
      unfold nodes_of. simpl. by rewrite Hlen.
    + by apply HF.
    + done.
    + apply Exists_exists in Hmsg as (m&Hm&Hmsg). apply Exists_exists.
      assert (In (body m) (map body nodes)) as Hin by (rewrite Hbody; by apply in_map, list_elem_of_In).
      apply in_map_iff in Hin as (m'&Hb&Hm'). exists m'. split; [by apply list_elem_of_In|].
      unfold is_message in *. by rewrite Hb.
    + done.
    + rewrite Hv2 in Hset. destruct Hset as [c r Hc Hr Ho]. constructor; [done| |done].
      intros n Hn. destruct (Hr n Hn) as (?&?&_). split_and!; [done|done|]. intros _. by eapply Hre.
  - done.
  - destruct Hg as [_ (s&es&Hs&Hes&Hstep&_)]. apply (graph_step def Hno) in Hstep as (i&Hlt&->).
    fold nodes in Hs. fold g in Hs. rewrite Hs.
    simpl in Hs. destruct nodes as [|n l] eqn:En; [done|]. simpl in Hs.
    assert (imap (λ i node, mkNode (Some (legacy_id i node)) (body node)) (nodes_of def) !! 0%nat = Some n) as H0
      by (change (nodes !! 0%nat = Some n); by rewrite En).
    apply (graph_node def Hno) in H0 as (m&_&->). simpl in Hs. by simplify_eq.
  - intros x y. apply (graph_rel def Hno).
  - done.
Qed.

Definition list_journey : JourneyDefinition :=
  mkDefinition None (Some (mkEntry (Some "trigger") None (Some "signup")))
    (Some [mkNode None (NMessage (mkMessage (Some (mkPush (Some "hi") (Some "there") None None)) None None));
           mkNode None (NDelay (mkDelay (NInt 3600)))])
    None None None (Some (mkSettings (Some "marketing") (RAfterDays (NInt 7)))).

Lemma legacy_graph_accepted_witness :
  hasErrors (validateJourney (λ _, "") list_journey) = false
  ∧ ∃ g, toGraphDefinition list_journey = Ok g
      ∧ hasErrors (validateJourney (λ _, "") g) = false ∧ length (nodes_of g) = 2%nat.
Proof.
  assert (hasErrors (validateJourney (λ _, "") list_journey) = false) as H by (vm_compute; reflexivity).
  split; [exact H|].
  destruct (legacy_graph_accepted (λ _, "") list_journey H) as (g&es&Hg&_&Ha&Hb&_).
  - reflexivity.
  - repeat constructor.
  - intros s n [= <-] [= <-]. vm_compute. discriminate.
  - exists g. split; [exact Hg|]. split; [exact Ha|].
    apply (f_equal (@length NodeBody)) in Hb. rewrite !length_map in Hb. exact Hb.
Defined.

(** ** Published A/B allocations *)

(** A history of published versions: each one passed the check against the
    allocations the versions before it published. *)
Inductive published_history : list JourneyDefinition → Prop :=
| history_nil : published_history []
| history_publish defs def :
    published_history defs → List.NoDup (map node_id (nodes_of def)) →
    validatePublishedABNodes def (collectPublishedABNodes defs) = [] →
    published_history (defs ++ [def]).

(** The experiment [id] is in [def] with the allocation [a]. *)
Definition allocated (def : JourneyDefinition) (id : string) (a : list (string * option Q)) : Prop :=
  ∃ node n, In node (nodes_of def) ∧ node_id node = Some id ∧ body node = NABSplit n
            ∧ id ≠ "" ∧ allocation (default [] (variants n)) = a.

Lemma collect_node_get p node id v :
  JMap.get (collect_node p node) id = Some v ↔
  JMap.get p id = Some v
  ∨ JMap.get p id = None ∧ id ≠ "" ∧ node_id node = Some id
    ∧ ∃ n, body node = NABSplit n ∧ v = default [] (variants n).
Proof.
  unfold collect_node. destruct (body node) as [| | | |n|] eqn:Eb;
    try (split; [by left|intros [?|(_&_&_&?&?&_)]; done]).
  destruct (node_id node) as [k|]; [|split; [by left|intros [?|(_&_&?&_)]; done]].
  destruct (negb (String.eqb k "") && negb (JMap.has p k)) eqn:E.
  - b2p. rewrite JMap.get_set. apply JMap.has_false in H0. rewrite <- JMap.get_keys in H0.
    assert (JMap.get p k = None) as Hk by (destruct (JMap.get p k); [by destruct H0|done]).
    destruct (String.eqb k id) eqn:Ek; b2p.
    + subst. rewrite Hk. split; [intros [= <-]; right; eauto 10|].
      intros [?|(_&_&_&?&[= <-]&->)]; done.
    + split; [by left|]. intros [?|(_&_&[= ?]&_)]; done.
  - split; [by left|]. intros [?|(Hn&Hne&[= ->]&_)]; [done|].
    apply andb_false_iff in E as [E|E]; b2p; [done|]. apply JMap.has_keys, JMap.get_keys in E.
    rewrite Hn in E. by destruct E.
Qed.

Lemma collect_nodes_get l p id v :
  List.NoDup (map node_id l) →
  JMap.get (fold_left collect_node l p) id = Some v ↔
  JMap.get p id = Some v
  ∨ JMap.get p id = None ∧ id ≠ "" ∧ ∃ node n, In node l ∧ node_id node = Some id
      ∧ body node = NABSplit n ∧ v = default [] (variants n).
Proof.
  revert p. induction l as [|x l IH]; intros p Hnd; cbn [fold_left].
  - split; [by left|]. intros [?|(_&_&?&?&[]&_)]; done.
  - cbn [map] in Hnd. apply NoDup_cons_iff in Hnd as [Hx Hnd]. rewrite IH by done.
    destruct (JMap.get (collect_node p x) id) as [w|] eqn:Ew.
    + apply collect_node_get in Ew as Hw. destruct Hw as [Hw|(Hn&?&Hid&n&Hb&->)].
      * rewrite Hw. split; [intros [?|[? _]]; [by left|done]|]. intros [?|[? _]]; [by left|done].
      * rewrite Hn. split.
        -- intros [[= <-]|[? _]]; [|done]. right. split_and!; try done. exists x, n. split; [by left|done].
        -- intros [?|(_&_&node&n'&[<-|Hin]&Hid'&Hb'&->)]; [done|rewrite Hb in Hb'; simplify_eq; by left|].
           destruct Hx. rewrite Hid, <- Hid'. by apply in_map.
    + assert (JMap.get p id = None) as Hn.
      { destruct (JMap.get p id) eqn:E; [|done]. 
        assert (JMap.get (collect_node p x) id = Some l0) by (apply collect_node_get; by left). congruence. }
      rewrite Hn. split.
      * intros [?|(_&?&node&n&?&?)]; [done|]. right. split_and!; try done. exists node, n. split; [by right|done].
      * intros [?|(_&?&node&n&[<-|Hin]&Hid&Hb&->)]; [done| |right; split_and!; eauto 10].
        assert (JMap.get (collect_node p x) id = Some (default [] (variants n)))
          by (apply collect_node_get; right; eauto 10). congruence.
Qed.

(** What the history has published is the allocation of every version. *)
Definition faithful (defs : list JourneyDefinition) : Prop :=
  ∀ def id a, In def defs → allocated def id a →
    ∃ v, JMap.get (collectPublishedABNodes defs) id = Some v ∧ allocation v = a.

Lemma validatePublished_nil def p node n id v :
  validatePublishedABNodes def p = [] → In node (nodes_of def) → node_id node = Some id →
  body node = NABSplit n → id ≠ "" → JMap.get p id = Some v →
  allocation (default [] (variants n)) = allocation v.
Proof.
  unfold validatePublishedABNodes. intros H Hin Hid Hb Hne Hp.
  apply concat_nil_Forall in H. apply list_elem_of_In, list_elem_of_lookup in Hin as [i Hi].
  eapply (Forall_lookup_1 _ _ i) in H; [|rewrite list_lookup_imap, Hi; done].
  rewrite Hb, Hid, Hp in H. apply String.eqb_neq in Hne. rewrite Hne in H.
  by case_bool_decide.
Qed.

Lemma history_faithful defs : published_history defs → faithful defs.
Proof.
  induction 1 as [|defs def Hh IH Hnd Hok]; [by intros ? ? ? []|].
  assert (collectPublishedABNodes (defs ++ [def])
    = fold_left collect_node (nodes_of def) (collectPublishedABNodes defs)) as Heq
    by (unfold collectPublishedABNodes; by rewrite fold_left_app).
  intros d id a Hd Ha. rewrite Heq. apply in_app_iff in Hd as [Hd|[<-|[]]].
  - destruct (IH _ _ _ Hd Ha) as (v&Hv&?). exists v. split; [|done]. apply collect_nodes_get; [done|by left].
  - destruct Ha as (node&n&Hin&Hid&Hb&Hne&<-).
    destruct (JMap.get (collectPublishedABNodes defs) id) as [v|] eqn:Ev.
    + exists v. split; [apply collect_nodes_get; [done|by left]|].
      symmetry. by eapply validatePublished_nil.
    + exists (default [] (variants n)). split; [|done]. apply collect_nodes_get; [done|].
      right. split_and!; try done. exists node, n. done.
Qed.

(** Over a history of published versions an experiment keeps its
    allocation: two versions that contain the same A/B step agree on the ids,
    order and weights of its variants. *)
Theorem published_allocation_immutable defs d1 d2 id a1 a2 :
  published_history defs → In d1 defs → In d2 defs →
  allocated d1 id a1 → allocated d2 id a2 → a1 = a2.
Proof.
  intros Hh%history_faithful H1 H2 A1 A2.
  destruct (Hh _ _ _ H1 A1) as (v1&Hv1&<-), (Hh _ _ _ H2 A2) as (v2&Hv2&<-). congruence.
Qed.

Definition ab_journey (label : string) : JourneyDefinition :=
  mkDefinition (Some (NInt 2)) None
    (Some [mkNode (Some "x") (NABSplit (mkSplit (Some
       [mkVariant "a" label (NInt 50); mkVariant "b" "B" (NInt 50)])))]) None None None None.

Lemma published_allocation_immutable_witness :
  published_history [ab_journey "A"; ab_journey "A2"]
  ∧ ∀ a1 a2, allocated (ab_journey "A") "x" a1 → allocated (ab_journey "A2") "x" a2 → a1 = a2.
Proof.
  assert (List.NoDup [Some "x"]) as Hnd by (constructor; [intros []|constructor]).
  assert (published_history [ab_journey "A"; ab_journey "A2"]) as H.
  { apply (history_publish [ab_journey "A"]); [|exact Hnd|vm_compute; reflexivity].
    apply (history_publish []); [constructor|exact Hnd|vm_compute; reflexivity]. }
  split; [exact H|]. intros a1 a2 A1 A2.
  apply (published_allocation_immutable _ _ _ _ _ _ H (or_introl eq_refl) (or_intror (or_introl eq_refl)) A1 A2).
Defined.

(** ** Campaigns *)

(** The journey built for a push campaign is accepted exactly when the
    segment is chosen, title and body are not blank, and the category is one of
    the two. *)
Theorem campaignToJourney_accepted fmt segment content cat :
  hasErrors (validateJourney fmt (campaignToJourney segment content cat)) = false ↔
  segment ≠ "" ∧ In cat ["marketing"; "transactional"]
  ∧ ∃ p, content = Some p ∧ text_ok (push_title p) ∧ text_ok (push_body p).
Proof.
  split.
  - intros [_ He _ Hst _ _ _ Hset]%validateJourney_spec. simpl in *.
    inversion He; subst. inversion Hset; subst. split; [done|]. split; [done|].
    apply Forall_inv in Hst. inversion Hst as [n Hm| | | |]; subst. inversion Hm; subst. eauto.
  - intros (Hs&Hc&p&->&Ht&Hb). apply validateJourney_spec. split; simpl; try done.
    + by left.
    + by constructor.
    + constructor; [|constructor]. constructor. by constructor.
    + intros _. by repeat constructor.
    + by constructor.
Qed.
