(* ===== verification/JourneyGraph.v ===== *)
(** * Editing a journey graph
    ([apps/console/src/app/journeys/journey-graph.ts], [journey-editor-model.ts])

    The operations of the graph editor, on the definitions the console holds: a
    v2 definition whose steps all have an id ([definition_of] is the same value
    as a [JourneyDefinition]).  An operation returns the edited graph or throws
    the key of its message.  Object identity plays no role: the code edits a
    [structuredClone]. *)

From Stdlib Require Import Ascii QArith.
From stdpp Require Import pretty.
From S2P Require Import Prelude JsVal Graph BranchCondition JourneyModel.

#[global] Open Scope Z_scope.

Record GraphNode := mkGraphNode { gn_id : string; gn_body : NodeBody }.
Record GraphDefinition := mkGraph {
  g_entry : option EntryRule; g_nodes : list GraphNode; g_start : option string;
  g_edges : list JourneyEdge; g_exit : option ExitRule; g_settings : option JourneySettings }.

Definition node_of (n : GraphNode) : JourneyNode := mkNode (Some (gn_id n)) (gn_body n).
Definition definition_of (g : GraphDefinition) : JourneyDefinition :=
  mkDefinition (Some (NInt 2)) (g_entry g) (Some (map node_of (g_nodes g))) (g_start g) (Some (g_edges g))
    (g_exit g) (g_settings g).

Definition with_graph (g : GraphDefinition) (nodes : list GraphNode) (start : option string) (edges : list JourneyEdge)
    : GraphDefinition := mkGraph (g_entry g) nodes start edges (g_exit g) (g_settings g).

Definition set_target (t : option string) (e : JourneyEdge) : JourneyEdge :=
  mkEdge (edge_id e) (source e) (source_port e) t.
(** [l.find(p)] and an assignment to a field of what it found *)
Fixpoint update_first {A} (p : A → bool) (f : A → A) (l : list A) : list A :=
  match l with [] => [] | x :: l => if p x then f x :: l else x :: update_first p f l end.
Definition points_to (t : string) (e : JourneyEdge) : bool := bool_decide (target e = Some t).
Definition leaves (id port : string) (e : JourneyEdge) : bool :=
  String.eqb (source e) id && String.eqb (source_port e) port.

(** [if (edge.target)]: a target that is neither null nor empty *)
Definition truthy_target (t : option string) : option string :=
  match t with Some s => if String.eqb s "" then None else Some s | None => None end.

(** [throw fail(key)] *)
Definition refuse {A} (key : string) : outcome A := Throw (PlainError key).

Section Editor.
Context (fmt : Q → string).

Definition ports (n : NodeBody) : list string := map port_id (outputPorts fmt n).
Definition find_node (g : GraphDefinition) (id : string) : option GraphNode :=
  List.find (λ n, String.eqb (gn_id n) id) (g_nodes g).

(** ** Reading *)

Definition adjacency_step (adjacency : list (string * list string)) (e : JourneyEdge) : list (string * list string) :=
  match truthy_target (target e) with
  | Some t => JMap.set adjacency (source e) (targets_of adjacency (source e) ++ [t])
  | None => adjacency
  end.
Definition adjacency_of (edges : list JourneyEdge) : list (string * list string) := fold_left adjacency_step edges [].

(** [reachableNodes(definition, start)], the set in the order of its insertion *)
Definition reachableNodes (g : GraphDefinition) (start : option string) : list string :=
  let adjacency := adjacency_of (g_edges g) in
  walk_from (targets_of adjacency) (JMap.keys adjacency)
    (match truthy_target start with Some s => [s] | None => [] end).

Definition outgoingEdges (g : GraphDefinition) (id : string) : list JourneyEdge :=
  match find_node g id with
  | Some n => flat_map (λ port, List.filter (leaves id port) (g_edges g)) (ports (gn_body n))
  | None => []
  end.

Definition readIssue : string := "graph.readIssue".

(** [NODE_TOOLS] *)
Definition supported (n : NodeBody) : bool := match n with NUnknown _ => false | _ => true end.

Definition given {A} (o : option A) : bool := match o with Some _ => true | None => false end.
(** one of the three channels, with the texts the editor shows *)
Definition message_readable (n : MessageNode) : bool :=
  match push n with Some p => given (push_title p) && given (push_body p) | None => false end
  || match email n with Some e => given (email_subject e) && given (email_html e) | None => false end
  || match alimtalk n with Some a => given (al_sender_id a) && given (al_template_code a) | None => false end.
Definition condition_readable (c : jsval) : bool :=
  match c with
  | JObj _ =>
      negb (includes ["attribute"] (prop c "type") && negb (is_string (prop c "key"))
            || includes ["event"] (prop c "type") && negb (is_string (prop c "event")))
  | _ => truthy c
  end.
Definition group_readable (group : jsval) : bool :=
  match prop group "conditions" with JArr l => forallb condition_readable l | _ => false end.
Definition branch_readable (n : BranchNode) : bool :=
  match prop (condition n) "groups" with JArr l => forallb group_readable l | _ => false end.
Definition node_issue (n : GraphNode) : option string :=
  if negb (supported (gn_body n)) then Some "graph.unsupportedNode"
  else match gn_body n with
  | NMessage m => if message_readable m then None else Some readIssue
  | NBranch b => if branch_readable b then None else Some readIssue
  | _ => None
  end.

(** The sets the edge loop fills; its in-degrees are those of the adjacency. *)
Record ReadState := mkRead { rd_ids : list string; rd_outputs : list (string * string) }.
Definition read_edge (g : GraphDefinition) (st : ReadState) (e : JourneyEdge) : option ReadState :=
  let key := (source e, source_port e) in
  match find_node g (source e) with
  | None => None
  | Some n =>
      if String.eqb (edge_id e) "" || String_in (edge_id e) (rd_ids st) || outputs_has (rd_outputs st) key
         || negb (String_in (source_port e) (ports (gn_body n)))
         || match target e with Some t => negb (String_in t (map gn_id (g_nodes g))) | None => false end
      then None else Some (mkRead (rd_ids st ++ [edge_id e]) (rd_outputs st ++ [key]))
  end.
Fixpoint read_edges (g : GraphDefinition) (st : ReadState) (l : list JourneyEdge) : option ReadState :=
  match l with [] => Some st | e :: l => st' ← read_edge g st e; read_edges g st' l end.

(** every output of every step is connected *)
Definition connected (g : GraphDefinition) (st : ReadState) : bool :=
  forallb (λ n, forallb (λ port, outputs_has (rd_outputs st) (gn_id n, port)) (ports (gn_body n))) (g_nodes g).

Definition graphReadIssue (g : GraphDefinition) : option string :=
  let ids := map gn_id (g_nodes g) in
  if Nat.eqb (length (g_nodes g)) 0 || existsb (λ id, String.eqb id "") ids
     || negb (Nat.eqb (length (dedup ids)) (length ids))
     || negb (match truthy_target (g_start g) with Some s => String_in s ids | None => false end)
  then Some readIssue
  else match head (omap node_issue (g_nodes g)) with
  | Some key => Some key
  | None =>
      match read_edges g (mkRead [] []) (g_edges g) with
      | None => Some readIssue
      | Some st =>
          let adjacency := adjacency_of (g_edges g) in
          if negb (connected g st)
             || negb (Nat.eqb (length (kahn (targets_of adjacency) ids (JMap.keys adjacency))) (length ids))
             || negb (Nat.eqb (length (reachableNodes g (g_start g))) (length ids))
          then Some readIssue else None
      end
  end.

(** ** The entry's edge *)

Definition ENTRY_EDGE_ID : string := "__entry_edge__".
(** [while (used.has(id)) id += "_"] *)
Fixpoint fresh_entry (fuel : nat) (used : list string) (id : string) : string :=
  match fuel with
  | O => id
  | S fuel => if String_in id used then fresh_entry fuel used (id +:+ "_") else id
  end.
(** no more rounds than edges *)
Definition entryEdgeId (g : GraphDefinition) : string :=
  let used := map edge_id (g_edges g) in fresh_entry (S (length used)) used ENTRY_EDGE_ID.

(** ** Inserting *)

(** [newJourneyId("edge")], the k-th of the call *)
Definition port_edges (newId : nat → string) (id : string) (n : NodeBody) (t : option string) : list JourneyEdge :=
  imap (λ k port, mkEdge (newId k) id port t) (ports n).

Definition insertOnEdge (newId : nat → string) (g : GraphDefinition) (edgeId : string) (node : GraphNode)
    : outcome GraphDefinition :=
  if String.eqb (gn_id node) "" || existsb (λ n, String.eqb (gn_id n) (gn_id node)) (g_nodes g)
  then refuse "graph.invalidNodeId"
  else
    let edge := List.find (λ e, String.eqb (edge_id e) edgeId) (g_edges g) in
    let atEntry := String.eqb edgeId (entryEdgeId g) in
    match edge, atEntry with
    | None, false => refuse "graph.reselectPath"
    | _, _ =>
        let t := if atEntry then g_start g else edge ≫= target in
        let edges := update_first (λ e, String.eqb (edge_id e) edgeId) (set_target (Some (gn_id node))) (g_edges g) in
        let start := if given edge then g_start g else Some (gn_id node) in
        Ok (with_graph g (g_nodes g ++ [node]) start (edges ++ port_edges newId (gn_id node) (gn_body node) t))
    end.

(** ** Connecting *)

Definition connectionIssue (g : GraphDefinition) (src port : string) (t : option string) : option string :=
  let node := find_node g src in
  if negb (match node with Some n => String_in port (ports (gn_body n)) | None => false end)
  then Some "graph.portNotFound"
  else
    let t' := truthy_target t in
    if match t' with Some s => negb (existsb (λ n, String.eqb (gn_id n) s) (g_nodes g)) | None => false end
    then Some "graph.targetNotFound"
    else if bool_decide (t = Some src)
            || match t' with Some s => String_in src (reachableNodes g (Some s)) | None => false end
    then Some "graph.backwardConnection"
    else
      let next := with_graph g (g_nodes g) (g_start g)
        (List.filter (λ e, negb (leaves src port e)) (g_edges g) ++ [mkEdge "preview" src port t]) in
      let after := reachableNodes next (g_start next) in
      if existsb (λ id, negb (String_in id after)) (reachableNodes g (g_start g))
      then Some "graph.detachesNodes" else None.

Definition connectRoute (newId : nat → string) (g : GraphDefinition) (src port : string) (t : option string)
    : outcome GraphDefinition :=
  match connectionIssue g src port t with
  | Some key => refuse key
  | None =>
      let edges := if existsb (leaves src port) (g_edges g)
        then update_first (leaves src port) (set_target t) (g_edges g)
        else g_edges g ++ [mkEdge (newId 0%nat) src port t] in
      Ok (with_graph g (g_nodes g) (g_start g) edges)
  end.

(** ** Moving a message or a delay *)

Inductive Offset := Before | After.
Definition linear (n : NodeBody) : bool := match n with NMessage _ | NDelay _ => true | _ => false end.
Definition incoming (g : GraphDefinition) (id : string) : list JourneyEdge := List.filter (points_to id) (g_edges g).

Definition movablePair (g : GraphDefinition) (id : string) (offset : Offset) : option (GraphNode * GraphNode) :=
  selected ← find_node g id;
  if negb (linear (gn_body selected)) then None
  else
    neighborId ← match offset with
      | Before => match incoming g id with [e] => Some (source e) | _ => None end
      | After => match outgoingEdges g id with [e] => target e | _ => None end
      end;
    neighbor ← find_node g neighborId;
    if negb (linear (gn_body neighbor)) then None
    else
      let '(first, second) := match offset with Before => (neighbor, selected) | After => (selected, neighbor) end in
      if (Nat.ltb 1 (length (incoming g (gn_id first)))) || negb (Nat.eqb (length (incoming g (gn_id second))) 1)
         || negb (Nat.eqb (length (outgoingEdges g (gn_id first))) 1)
         || negb (Nat.eqb (length (outgoingEdges g (gn_id second))) 1)
      then None else Some (first, second).

Definition canMoveNode (g : GraphDefinition) (id : string) (offset : Offset) : bool := given (movablePair g id offset).

(** [find] of an edge out of the step, whose target is then assigned *)
Definition redirect (id : string) (t : option string) (edges : list JourneyEdge) : list JourneyEdge :=
  update_first (λ e, String.eqb (source e) id) (set_target t) edges.

Definition moveLinearNode (g : GraphDefinition) (id : string) (offset : Offset) : outcome GraphDefinition :=
  match movablePair g id offset with
  | None => refuse "graph.moveOnlyLinear"
  | Some (first, second) =>
      match List.find (λ e, String.eqb (source e) (gn_id first)) (g_edges g),
            List.find (λ e, String.eqb (source e) (gn_id second)) (g_edges g) with
      | Some _, Some secondOut =>
          let tail := target secondOut in
          let edges := map (λ e, if points_to (gn_id first) e then set_target (Some (gn_id second)) e else e) (g_edges g) in
          let start := if bool_decide (g_start g = Some (gn_id first)) then Some (gn_id second) else g_start g in
          Ok (with_graph g (g_nodes g) start
                (redirect (gn_id second) (Some (gn_id first)) (redirect (gn_id first) tail edges)))
      | _, _ => Throw (PlainError "TypeError")
      end
  end.

(** ** Removing *)

Record RemovalPreview := mkRemoval {
  rm_definition : GraphDefinition; rm_removed : list GraphNode; rm_sharedKept : list GraphNode }.

(** [outputs.find((edge) => !keepPort || edge.source_port === keepPort)] *)
Definition keeps (keepPort : option string) (e : JourneyEdge) : bool :=
  match keepPort with Some p => String.eqb p "" || String.eqb (source_port e) p | None => true end.

Definition previewRemoval (g : GraphDefinition) (id : string) (keepPort : option string) : outcome RemovalPreview :=
  match find_node g id with
  | None => refuse "graph.removeTargetNotFound"
  | Some _ =>
      let outputs := outgoingEdges g id in
      if (Nat.ltb 1 (length outputs)) && falsy keepPort then refuse "graph.chooseKeepPath"
      else match List.find (keeps keepPort) outputs with
      | None => refuse "graph.keepPathNotFound"
      | Some kept =>
          let beforeReachable := reachableNodes g (g_start g) in
          let descendants := reachableNodes g (Some id) in
          let edges := map (λ e, if points_to id e then set_target (target kept) e else e)
            (List.filter (λ e, negb (String.eqb (source e) id)) (g_edges g)) in
          let start := if bool_decide (g_start g = Some id) then target kept else g_start g in
          let next := with_graph g (List.filter (λ n, negb (String.eqb (gn_id n) id)) (g_nodes g)) start edges in
          let after := reachableNodes next start in
          let removedIds := id :: List.filter (λ x, negb (String_in x after)) beforeReachable in
          let kept_nodes := List.filter (λ n, negb (String_in (gn_id n) removedIds)) (g_nodes next) in
          let kept_edges := List.filter (λ e, negb (String_in (source e) removedIds)
            && match truthy_target (target e) with Some t => negb (String_in t removedIds) | None => true end) edges in
          if Nat.eqb (length kept_nodes) 0 || falsy start then refuse "graph.needOneNode"
          else Ok (mkRemoval (with_graph g kept_nodes start kept_edges)
                     (List.filter (λ n, String_in (gn_id n) removedIds) (g_nodes g))
                     (List.filter (λ n, String_in (gn_id n) descendants
                        && Nat.ltb 1 (length (incoming g (gn_id n)))) kept_nodes))
      end
  end.

(** ** A new experiment *)

Definition rename (a b s : string) : string := if String.eqb s a then b else s.

Definition renewExperiment (g : GraphDefinition) (id replacementId : string) : outcome GraphDefinition :=
  match gn_body <$> find_node g id with
  | Some (NABSplit _) =>
      if existsb (λ n, String.eqb (gn_id n) replacementId) (g_nodes g) then refuse "graph.duplicateExperimentId"
      else Ok (with_graph g
        (map (λ n, if String.eqb (gn_id n) id then mkGraphNode replacementId (gn_body n) else n) (g_nodes g))
        (if bool_decide (g_start g = Some id) then Some replacementId else g_start g)
        (map (λ e, mkEdge (edge_id e) (rename id replacementId (source e)) (source_port e)
                     (rename id replacementId <$> target e)) (g_edges g)))
  | _ => refuse "graph.selectAbSplit"
  end.

(** ** New steps and drafts *)

Inductive Tool := ToolMessage | ToolDelay | ToolBranch | ToolEventWait | ToolABSplit.

(** [createJourneyNode(type)]; [newId] makes the ids of the step and of its variants *)
Definition createJourneyNode (newId : string → nat → string) (tool : Tool) : GraphNode :=
  mkGraphNode (newId "node" 0%nat)
    match tool with
    | ToolMessage => NMessage (mkMessage (Some (mkPush (Some "") (Some "") None None)) None None)
    | ToolDelay => NDelay (mkDelay (NInt 86400))
    | ToolBranch => NBranch (mkBranch (JObj [("version", JNum (NInt 1)); ("operator", JStr "AND"); ("groups",
        JArr [JObj [("operator", JStr "AND"); ("conditions",
          JArr [JObj [("type", JStr "attribute"); ("key", JStr ""); ("op", JStr "eq"); ("value", JStr "")]])]])]))
    | ToolEventWait => NEventWait (mkWait (Some "") (NInt 86400))
    | ToolABSplit => NABSplit (mkSplit (Some [mkVariant (newId "variant" 1%nat) "A" (NInt 50);
                                              mkVariant (newId "variant" 2%nat) "B" (NInt 50)]))
    end.

Definition emptyJourney (newId : string → nat → string) : GraphDefinition :=
  let node := createJourneyNode newId ToolMessage in
  mkGraph (Some (mkEntry (Some "blast") None None)) [node] (Some (gn_id node))
    [mkEdge (newId "edge" 1%nat) (gn_id node) "next" None] (Some (mkExit None))
    (Some (mkSettings (Some "marketing") RNever)).
End Editor.
