(* ===== verification/GraphSound.v ===== *)
(** * Editing a journey graph: sound graphs

    The graph part of [JourneyModel.valid_graph] on the editor's definitions
    ([sound]), what the editor's reachability computes, and a numbering of the
    steps of an acyclic graph. *)

From Stdlib Require Import Ascii QArith.
From stdpp Require Import pretty.
From S2P Require Import Prelude JsVal Graph BranchCondition JourneyModel JourneyGraph.

#[global] Open Scope Z_scope.

Section Sound.
Context (fmt : Q → string).

Definition ids_of (g : GraphDefinition) : list string := map gn_id (g_nodes g).
Definition has_out (g : GraphDefinition) (id port : string) : Prop :=
  ∃ n, In n (g_nodes g) ∧ gn_id n = id ∧ In port (ports fmt (gn_body n)).

Definition good_id (id : string) : Prop := blank id = false ∧ byte_length id <= 128.

Record sound (g : GraphDefinition) : Prop := {
  so_ids : Forall good_id (ids_of g);
  so_nodup : List.NoDup (ids_of g);
  so_edge_ids : Forall (λ e, blank (edge_id e) = false) (g_edges g);
  so_edge_nodup : List.NoDup (map edge_id (g_edges g));
  so_source e : In e (g_edges g) → has_out g (source e) (source_port e);
  so_target e t : In e (g_edges g) → target e = Some t → In t (ids_of g);
  so_unique : List.NoDup (map edge_key (g_edges g));
  so_total id port : has_out g id port → In (id, port) (map edge_key (g_edges g));
  so_acyclic x : ¬ tc (edge_rel (g_edges g)) x x;
  so_start : ∃ s, g_start g = Some s ∧ In s (ids_of g)
    ∧ ∀ x, In x (ids_of g) → rtc (edge_rel (g_edges g)) s x }.

Lemma ids_embedded g : map node_id (nodes_of (definition_of g)) = map Some (ids_of g).
Proof. unfold ids_of, nodes_of. simpl. by rewrite !map_map. Qed.
Lemma step_embedded g id : step_id (definition_of g) id ↔ In id (ids_of g).
Proof.
  unfold step_id. rewrite ids_embedded, in_map_iff. split; [by intros (?&[= ->]&?)|]. intros. by exists id.
Qed.
Lemma port_embedded g id port : has_port fmt (definition_of g) id port ↔ has_out g id port.
Proof.
  unfold has_port, has_out, nodes_of. simpl. split.
  - intros (n&(m&<-&Hm)%in_map_iff&[= <-]&Hp). by exists m.
  - intros (m&Hm&<-&Hp). exists (JourneyGraph.node_of m). split_and!; [by apply in_map|done..].
Qed.
Lemma NoDup_map_Some {A} (l : list A) : List.NoDup (map Some l) ↔ List.NoDup l.
Proof.
  rewrite <- !NoDup_ListNoDup. split; [apply NoDup_fmap_1|apply NoDup_fmap_2; apply _].
Qed.

(** The editor's graph is sound exactly when the validator accepts it as one. *)
Lemma sound_valid g : sound g ↔ valid_graph fmt (definition_of g).
Proof.
  split.
  - intros []. split.
    + rewrite ids_embedded, NoDup_map_Some. split; [|done]. unfold nodes_of. simpl. apply Forall_forall.
      intros n (m&<-&Hm)%list_elem_of_In%in_map_iff. rewrite Forall_forall in so_ids0.
      exists (gn_id m). split; [done|]. apply so_ids0, list_elem_of_In, in_map, Hm.
    + destruct so_start0 as (s&Hs&Hin&Hr). exists s, (g_edges g). split; [done|]. split; [done|].
      split; [by apply step_embedded|]. split; [|split; [done|intros x Hx%step_embedded; auto]].
      split; [done|intros e He; apply port_embedded; auto|intros e t He Ht; apply step_embedded; eauto|done|].
      intros id port Hp%port_embedded. auto.
  - intros [[Hids Hnd] (s&es&Hs&[= <-]&Hstep&[Heid Hsrc Htgt Huq Htot]&Hac&Hr)].
    rewrite ids_embedded, NoDup_map_Some in Hnd. destruct Heid as [He1 He2]. split; try done.
    + apply Forall_forall. intros id (n&<-&Hn)%list_elem_of_In%in_map_iff. rewrite Forall_forall in Hids.
      destruct (Hids (JourneyGraph.node_of n)) as (id&[= <-]&?&?); [|done]. apply list_elem_of_In.
      unfold nodes_of. simpl. by apply in_map.
    + intros e He. by apply port_embedded, Hsrc.
    + intros e t He Ht. eapply step_embedded, Htgt; done.
    + intros id port Hp. by apply Htot, port_embedded.
    + exists s. split; [done|]. split; [by apply step_embedded|]. intros x Hx. by apply Hr, step_embedded.
Qed.

Lemma find_node_Some g id n :
  List.NoDup (ids_of g) → (find_node g id = Some n ↔ In n (g_nodes g) ∧ gn_id n = id).
Proof.
  intros Hnd. unfold find_node. split.
  - intros [Hin E]%find_some. b2p. done.
  - intros [Hin <-]. destruct (List.find _ _) as [m|] eqn:E.
    + apply find_some in E as [Hm Hid]. b2p. f_equal. by eapply NoDup_map_eq.
    + eapply find_none in E; [|exact Hin]. simpl in E. by rewrite String.eqb_refl in E.
Qed.

(** ** Reachability *)

(** The targets of a step that are names, in the order of the edges *)
Definition heads (edges : list JourneyEdge) (x : string) : list string :=
  omap (λ e, if String.eqb (source e) x then truthy_target (target e) else None) edges.

Lemma heads_In edges x y : In y (heads edges x) ↔ edge_rel edges x y ∧ y ≠ "".
Proof.
  unfold heads. rewrite <- list_elem_of_In, list_elem_of_omap. split.
  - intros (e&He%list_elem_of_In&H). destruct (String.eqb (source e) x) eqn:E; [|done]. b2p.
    unfold truthy_target in H. destruct (target e) as [t|] eqn:Et; [|done]. destruct (String.eqb t "") eqn:E0; [done|]. simplify_eq.
    b2p. split; [by exists e|done].
  - intros ((e&He&<-&Ht)&Hy). exists e. split; [by apply list_elem_of_In|]. rewrite String.eqb_refl, Ht. simpl.
    apply String.eqb_neq in Hy. by rewrite Hy.
Qed.

Lemma adjacency_spec edges :
  (∀ x, targets_of (adjacency_of edges) x = heads edges x)
  ∧ List.NoDup (JMap.keys (adjacency_of edges))
  ∧ ∀ x, In x (JMap.keys (adjacency_of edges)) → ∃ e, In e edges ∧ source e = x.
Proof.
  unfold adjacency_of. induction edges as [|e edges (IHt&IHn&IHk)] using rev_ind; [split_and!; [done|constructor|by intros ?]|].
  rewrite fold_left_app. cbn [fold_left]. set (adj := fold_left _ _ _) in *.
  assert (∀ x, heads (edges ++ [e]) x = heads edges x
    ++ if String.eqb (source e) x then match truthy_target (target e) with Some t => [t] | None => [] end else []) as Hh.
  { intros x. unfold heads. rewrite omap_app. f_equal. simpl.
    destruct (String.eqb (source e) x); [|done]. by destruct (truthy_target (target e)). }
  unfold adjacency_step. destruct (truthy_target (target e)) as [t|] eqn:Et.
  - split_and!.
    + intros x. rewrite Hh. unfold targets_of at 1. rewrite JMap.get_set, <- IHt.
      destruct (String.eqb (source e) x) eqn:E; [|by rewrite app_nil_r]. b2p. by subst.
    + by apply JMap.NoDup_keys_set.
    + intros x. rewrite JMap.keys_set. case_match.
      * intros (e'&?&?)%IHk. exists e'. split; [apply in_app_iff; by left|done].
      * intros [(e'&?&?)%IHk|[<-|[]]]%in_app_iff; [exists e'; split; [apply in_app_iff; by left|done]|].
        exists e. split; [apply in_app_iff; right; by left|done].
  - split_and!; [|done|].
    + intros x. rewrite Hh, IHt. case_match; by rewrite app_nil_r.
    + intros x (e'&?&?)%IHk. exists e'. split; [apply in_app_iff; by left|done].
Qed.

Lemma adjacency_keys edges x : ¬ In x (JMap.keys (adjacency_of edges)) → targets_of (adjacency_of edges) x = [].
Proof.
  intros Hx. unfold targets_of. apply JMap.has_false in Hx. unfold JMap.has in Hx. by destruct (JMap.get _ _).
Qed.

(** No target is the empty string. *)
Definition named (edges : list JourneyEdge) : Prop := ∀ e, In e edges → target e ≠ Some "".

Lemma named_rel edges x y : named edges → edge_rel edges x y → y ≠ "".
Proof. intros Hn (e&He&_&Ht) ->. by apply (Hn e). Qed.

Lemma heads_rel edges x y : named edges → (step_to (targets_of (adjacency_of edges)) x y ↔ edge_rel edges x y).
Proof.
  intros Hn. unfold step_to. destruct (adjacency_spec edges) as (->&_). rewrite heads_In.
  split; [by intros [? _]|]. intros Hr. split; [done|]. by eapply named_rel.
Qed.

Lemma reachable_spec g start x :
  named (g_edges g) →
  In x (reachableNodes g start) ↔ ∃ s, truthy_target start = Some s ∧ rtc (edge_rel (g_edges g)) s x.
Proof.
  intros Hn. unfold reachableNodes. destruct (adjacency_spec (g_edges g)) as (_&Hnd&_).
  rewrite walk_from_spec; [|done|apply adjacency_keys].
  assert (∀ a, rtc (step_to (targets_of (adjacency_of (g_edges g)))) a x ↔ rtc (edge_rel (g_edges g)) a x) as Hr.
  { intros a. split; apply rtc_subrel; intros ??; by apply heads_rel. }
  destruct (truthy_target start) as [s|]; simpl.
  - split; [intros (p&[<-|[]]&Hp); exists s; split; [done|by apply Hr]|].
    intros (s'&[= <-]&Hp). exists s. split; [by left|by apply Hr].
  - split; [by intros (?&[]&_)|by intros (?&[=]&_)].
Qed.

Lemma good_not_empty id : good_id id → id ≠ "".
Proof. by intros [? _] ->. Qed.

Lemma truthy_good id : good_id id → truthy_target (Some id) = Some id.
Proof. intros Hg%good_not_empty. simpl. apply String.eqb_neq in Hg. by rewrite Hg. Qed.

Lemma sound_good g id : sound g → In id (ids_of g) → good_id id.
Proof. intros [] Hin. rewrite Forall_forall in so_ids0. by apply so_ids0, list_elem_of_In. Qed.
Lemma sound_named g : sound g → named (g_edges g).
Proof. intros Hs e He Ht. by apply (good_not_empty _ (sound_good _ _ Hs (so_target _ Hs e _ He Ht))). Qed.

(** ** Numbering the steps of an acyclic graph *)

(** The topological order of an acyclic graph: all the steps, each after the
    steps that lead to it *)
Lemma acyclic_order ids edges :
  List.NoDup ids → (∀ e, In e edges → In (source e) ids) → (∀ e t, In e edges → target e = Some t → In t ids) →
  named edges → (∀ x, ¬ tc (edge_rel edges) x x) →
  let order := kahn (targets_of (adjacency_of edges)) ids (JMap.keys (adjacency_of edges)) in
  length order = length ids ∧ List.NoDup order ∧ (∀ x, In x ids ↔ In x order)
  ∧ ∀ j x y, order !! j = Some y → edge_rel edges x y → In x (take j order).
Proof.
  intros Hnd Hs Ht Hn Hac order. destruct (adjacency_spec edges) as (Hadj&Hk&Hsrc). unfold order.
  set (adj := targets_of (adjacency_of edges)). set (sources := JMap.keys (adjacency_of edges)).
  assert (∀ x y, edge_rel edges x y → In x sources ∧ In y (adj x)) as He.
  { intros x y Hr. assert (In y (adj x)) as Hy by (apply heads_rel; done). split; [|done].
    destruct (in_dec String.string_dec x sources) as [|Hx]; [done|]. apply adjacency_keys in Hx. unfold adj in Hy. by rewrite Hx in Hy. }
  assert (length (kahn adj ids sources) = length ids) as Hlen.
  { apply kahn_acyclic; [done|done|apply adjacency_keys| |].
    - intros s (e&?&<-)%Hsrc. by apply Hs.
    - intros x Hx. apply (Hac x). eapply tc_mono; [|exact Hx]. intros a b (_&_&Hab). by apply heads_rel. }
  assert (List.NoDup (kahn adj ids sources)) as Hno by (apply kahn_NoDup; [done|done|apply adjacency_keys]).
  assert (incl (kahn adj ids sources) ids) as Hincl.
  { intros x Hx. apply kahn_In in Hx; [by destruct Hx|done|done|apply adjacency_keys]. }
  split_and!; [done|done| |].
  - intros x. split; [|apply Hincl]. apply NoDup_length_incl; [done|lia|done].
  - intros j x y Hy [Hx Hxy]%He. eapply kahn_order; [done|done|apply adjacency_keys|exact Hy|done|done].
Qed.

Lemma acyclic_rank ids edges :
  List.NoDup ids → (∀ e, In e edges → In (source e) ids) → (∀ e t, In e edges → target e = Some t → In t ids) →
  named edges → (∀ x, ¬ tc (edge_rel edges) x x) →
  ∃ r : string → Z, ∀ x y, edge_rel edges x y → r x < r y.
Proof.
  intros Hnd Hs Ht Hn Hac. destruct (acyclic_order ids edges) as (_&Hno&Hall&Hbef); [done..|].
  set (order := kahn _ _ _) in *.
  exists (λ x, match list_find (λ y, y = x) order with Some (i, _) => Z.of_nat i | None => 0 end).
  assert (∀ x, In x order → ∃ i, list_find (λ y, y = x) order = Some (i, x) ∧ order !! i = Some x) as Hfind.
  { intros x Hx. destruct (list_find (λ y, y = x) order) as [[i z]|] eqn:E.
    - pose proof E as (Ei&->&_)%list_find_Some. by exists i.
    - apply list_find_None in E. rewrite Forall_forall in E. apply list_elem_of_In in Hx. by apply E in Hx. }
  intros x y Hr. pose proof Hr as (e&Hin&Hse&Hte).
  destruct (Hfind y) as (j&->&Ej); [eapply Hall, Ht; done|].
  destruct (Hfind x) as (i&->&Ei); [apply Hall; subst x; by apply Hs|].
  pose proof (Hbef j x y Ej Hr) as Hx. apply list_elem_of_In, list_elem_of_lookup in Hx as [k Hk].
  apply lookup_take_Some in Hk as [Hk Hkj]. apply NoDup_ListNoDup in Hno. rewrite (NoDup_lookup order i k x); [lia|done..].
Qed.

Lemma rank_acyclic edges (r : string → Z) : (∀ x y, edge_rel edges x y → r x < r y) → ∀ x, ¬ tc (edge_rel edges) x x.
Proof.
  intros Hr x Hx. assert (∀ a b, tc (edge_rel edges) a b → r a < r b) as Ht.
  { induction 1 as [a b Hab|a b c Hab _ IH]; [auto|]. apply Hr in Hab. lia. }
  apply Ht in Hx. lia.
Qed.

Lemma sound_rank g : sound g → ∃ r : string → Z, ∀ x y, edge_rel (g_edges g) x y → r x < r y.
Proof.
  intros Hs. apply (acyclic_rank (ids_of g)); [apply Hs| |apply Hs|by apply sound_named|apply Hs].
  intros e He. destruct (so_source _ Hs e He) as (n&Hn&<-&_). by apply in_map.
Qed.
End Sound.
