(* ===== verification/GraphEdits.v ===== *)
(** * Editing a journey graph: every edit keeps it sound

    One lemma per operation of [JourneyGraph]: from a sound graph, what the
    operation returns is sound. *)

From Stdlib Require Import Ascii QArith.
From stdpp Require Import pretty.
From S2P Require Import Prelude JsVal Graph BranchCondition JourneyModel JourneyGraph GraphSound.

#[global] Open Scope Z_scope.

Section Edits.
Context (fmt : Q → string).

Abbreviation sound := (sound fmt).
Abbreviation ports := (ports fmt).
Abbreviation has_out := (has_out fmt).

(** ** Retargeting edges *)

Definition retarget (h : JourneyEdge → option string) (l : list JourneyEdge) : list JourneyEdge :=
  map (λ e, set_target (h e) e) l.

Lemma retarget_ids h l : map edge_id (retarget h l) = map edge_id l.
Proof. unfold retarget. rewrite map_map. by apply map_ext. Qed.
Lemma retarget_keys h l : map edge_key (retarget h l) = map edge_key l.
Proof. unfold retarget. rewrite map_map. by apply map_ext. Qed.
Lemma retarget_In h l e' : In e' (retarget h l) ↔ ∃ e, In e l ∧ e' = set_target (h e) e.
Proof. unfold retarget. rewrite in_map_iff. naive_solver. Qed.
Lemma retarget_blank h l :
  Forall (λ e, blank (edge_id e) = false) l → Forall (λ e, blank (edge_id e) = false) (retarget h l).
Proof. intros H. unfold retarget. apply Forall_map. eapply Forall_impl; [exact H|done]. Qed.
Lemma retarget_rel h l x y : edge_rel (retarget h l) x y ↔ ∃ e, In e l ∧ source e = x ∧ h e = Some y.
Proof.
  unfold edge_rel. split.
  - intros (e'&(e&He&->)%retarget_In&<-&Ht). by exists e.
  - intros (e&He&<-&Ht). exists (set_target (h e) e). split; [apply retarget_In; eauto|done].
Qed.

Lemma update_first_map {A} (p : A → bool) (f : A → A) l :
  List.NoDup l → (∀ x y, In x l → In y l → p x = true → p y = true → x = y) →
  update_first p f l = map (λ x, if p x then f x else x) l.
Proof.
  induction l as [|x l IH]; [done|]. intros [Hx Hnd]%NoDup_cons_iff Hu. simpl. destruct (p x) eqn:Ep.
  - f_equal. rewrite <- (map_id l) at 1. apply map_ext_in. intros y Hy. destruct (p y) eqn:Ey; [|done].
    assert (x = y) as -> by (apply Hu; [by left|by right|done|done]). done.
  - f_equal. apply IH; [done|]. intros a b Ha Hb. apply Hu; by right.
Qed.

Lemma edges_NoDup g : sound g → List.NoDup (g_edges g).
Proof. intros Hs. eapply NoDup_map_inv, so_edge_nodup, Hs. Qed.

Lemma set_target_same e : set_target (target e) e = e.
Proof. by destruct e. Qed.

(** An update of the edges that satisfy [p], one of which there is at most *)
Lemma update_retarget g p t :
  sound g → (∀ x y, In x (g_edges g) → In y (g_edges g) → p x = true → p y = true → x = y) →
  update_first p (set_target t) (g_edges g) = retarget (λ e, if p e then t else target e) (g_edges g).
Proof.
  intros Hs Hu. rewrite update_first_map; [|by apply edges_NoDup|done]. apply map_ext. intros e.
  destruct (p e); [done|]. by rewrite set_target_same.
Qed.

Lemma by_id_unique g k x y :
  sound g → In x (g_edges g) → In y (g_edges g) → String.eqb (edge_id x) k = true → String.eqb (edge_id y) k = true → x = y.
Proof. intros Hs Hx Hy Ex Ey. b2p. eapply (NoDup_map_eq edge_id); [apply Hs|done|done|congruence]. Qed.
Lemma by_key_unique g s p x y :
  sound g → In x (g_edges g) → In y (g_edges g) → leaves s p x = true → leaves s p y = true → x = y.
Proof.
  unfold leaves. intros Hs Hx Hy Ex Ey. b2p. eapply (NoDup_map_eq edge_key); [apply (so_unique _ _ Hs)|done|done|].
  unfold edge_key. congruence.
Qed.

Lemma sound_source g e : sound g → In e (g_edges g) → In (source e) (ids_of g).
Proof. intros Hs He. destruct (so_source _ _ Hs e He) as (n&Hn&<-&_). by apply in_map. Qed.

(** Retargeted edges on the same steps *)
Lemma retarget_sound g h start :
  sound g → (∀ e t, In e (g_edges g) → h e = Some t → In t (ids_of g)) →
  (∀ x, ¬ tc (edge_rel (retarget h (g_edges g))) x x) →
  (∃ s, start = Some s ∧ In s (ids_of g) ∧ ∀ x, In x (ids_of g) → rtc (edge_rel (retarget h (g_edges g))) s x) →
  sound (with_graph g (g_nodes g) start (retarget h (g_edges g))).
Proof.
  intros Hs Ht Hac Hst. split; simpl.
  - apply Hs.
  - apply Hs.
  - apply retarget_blank, Hs.
  - rewrite retarget_ids. apply Hs.
  - intros e' (e&He&->)%retarget_In. by apply (so_source _ _ Hs e).
  - intros e' t (e&He&->)%retarget_In Het. by eapply Ht.
  - rewrite retarget_keys. apply Hs.
  - intros id port. rewrite retarget_keys. apply (so_total _ _ Hs).
  - exact Hac.
  - exact Hst.
Qed.

(** ** Inserting a step *)

(** A step the editor may insert: a new name, and outputs with names of their own *)
Record insertable (g : GraphDefinition) (node : GraphNode) : Prop := {
  in_good : good_id (gn_id node);
  in_ports : ports (gn_body node) ≠ [];
  in_distinct : List.NoDup (ports (gn_body node)) }.

(** The ids [newJourneyId] makes are new ([crypto.randomUUID]). *)
Record fresh_ids (newId : nat → string) (g : GraphDefinition) : Prop := {
  fr_blank k : blank (newId k) = false;
  fr_inj k k' : newId k = newId k' → k = k';
  fr_new k : ¬ In (newId k) (map edge_id (g_edges g)) }.

Lemma port_edges_In newId id b t e :
  In e (port_edges fmt newId id b t) ↔ ∃ k p, ports b !! k = Some p ∧ e = mkEdge (newId k) id p t.
Proof.
  unfold port_edges. rewrite <- list_elem_of_In, elem_of_lookup_imap. split.
  - intros (k&p&->&Hp). eauto.
  - intros (k&p&Hp&->). eauto.
Qed.
Lemma port_edges_keys newId id b t : map edge_key (port_edges fmt newId id b t) = map (λ p, (id, p)) (ports b).
Proof.
  unfold port_edges. apply list_eq. intros i. rewrite !list_lookup_fmap, list_lookup_imap. by destruct (ports b !! i).
Qed.
Lemma port_edges_ids newId id b t x :
  In x (map edge_id (port_edges fmt newId id b t)) → ∃ k, x = newId k.
Proof. intros (e&<-&(k&p&_&->)%port_edges_In)%in_map_iff. by exists k. Qed.
Lemma port_edges_NoDup newId id b t :
  (∀ k k', newId k = newId k' → k = k') → List.NoDup (map edge_id (port_edges fmt newId id b t)).
Proof.
  intros Hinj. apply NoDup_ListNoDup, NoDup_alt. intros i j x Hi Hj. unfold port_edges in *.
  rewrite list_lookup_fmap, list_lookup_imap in Hi, Hj.
  destruct (ports b !! i); [|done]. destruct (ports b !! j); [|done]. simpl in *. apply Hinj. congruence.
Qed.

Section Insert.
Context (newId : nat → string) (g : GraphDefinition) (node : GraphNode) (h : JourneyEdge → option string)
  (t start : option string) (r : string → Z) (m : Z).
Let n := gn_id node.
Let edges' := retarget h (g_edges g) ++ port_edges fmt newId n (gn_body node) t.
Let R := edge_rel (g_edges g).
Let R' := edge_rel edges'.

Context (Hs : sound g) (Hi : insertable g node) (Hf : fresh_ids newId g) (Hnew : ¬ In n (ids_of g)).
Context (Ht : ∀ s, t = Some s → In s (ids_of g)).
Context (Hh : ∀ e, In e (g_edges g) → h e = target e ∨ h e = Some n ∧ target e = t).
Context (Hstart : start = Some n ∧ g_start g = t ∨ start = g_start g ∧ ∃ e, In e (g_edges g) ∧ h e = Some n).
Context (Hr : ∀ x y, R x y → r x < r y).
Context (Hm : ∀ e, In e (g_edges g) → h e = Some n → 2 * r (source e) < m).
Context (Hm' : ∀ s, t = Some s → m < 2 * r s).

Lemma insert_rel x y :
  R' x y ↔ (∃ e, In e (g_edges g) ∧ source e = x ∧ h e = Some y) ∨ x = n ∧ t = Some y.
Proof.
  unfold R', edges', edge_rel. split.
  - intros (e&[(e0&He0&->)%retarget_In|(k&p&_&->)%port_edges_In]%in_app_iff&<-&Hy); [left; by exists e0|by right].
  - intros [(e&He&<-&Hy)|[-> Hy]].
    + exists (set_target (h e) e). split; [apply in_app_iff; left; apply retarget_In; eauto|done].
    + destruct (ports (gn_body node)) as [|p l] eqn:Ep; [by destruct (in_ports _ _ Hi)|].
      exists (mkEdge (newId 0%nat) n p t). split; [|done]. apply in_app_iff. right. apply port_edges_In.
      exists 0%nat, p. by rewrite Ep.
Qed.

Lemma insert_old_step x y : R x y → rtc R' x y.
Proof.
  intros (e&He&<-&Hy). destruct (Hh e He) as [Hsame|[Hn Htt]].
  - apply rtc_once, insert_rel. left. exists e. split_and!; [done|done|congruence].
  - apply rtc_l with n; [apply insert_rel; left; by exists e|]. apply rtc_once, insert_rel. right. split; [done|congruence].
Qed.
Lemma insert_old_path x y : rtc R x y → rtc R' x y.
Proof. induction 1 as [|x y z Hxy _ IH]; [done|]. etrans; [by apply insert_old_step|done]. Qed.

Lemma insert_acyclic x : ¬ tc R' x x.
Proof.
  apply (rank_acyclic edges' (λ x, if String.eqb x n then m else 2 * r x)). intros a b Hab.
  apply insert_rel in Hab as [(e&He&<-&Hb)|[-> Hb]].
  - assert (String.eqb (source e) n = false) as ->.
    { apply String.eqb_neq. intros E. apply Hnew. rewrite <- E. by apply sound_source. }
    destruct (Hh e He) as [Hsame|[Hn Htt]].
    + assert (String.eqb b n = false) as ->.
      { apply String.eqb_neq. intros ->. apply Hnew. eapply (so_target _ _ Hs e); [done|congruence]. }
      assert (r (source e) < r b); [|lia]. apply Hr. exists e. split_and!; [done|done|congruence].
    + assert (b = n) as -> by congruence. rewrite String.eqb_refl. by apply Hm.
  - rewrite String.eqb_refl. assert (String.eqb b n = false) as ->; [|by apply Hm'].
    apply String.eqb_neq. intros ->. apply Hnew. by apply Ht.
Qed.

Lemma insert_sound : sound (with_graph g (g_nodes g ++ [node]) start edges').
Proof.
  assert (ids_of (with_graph g (g_nodes g ++ [node]) start edges') = ids_of g ++ [n]) as Hids
    by (unfold ids_of; simpl; by rewrite map_app).
  split; rewrite ?Hids; cbn [g_nodes g_edges g_start with_graph].
  - apply Forall_app. split; [apply Hs|]. repeat constructor; apply Hi.
  - apply List.NoDup_app; [apply Hs|repeat constructor; by intros []|]. by intros x Hx [<-|[]].
  - apply Forall_app. split; [apply retarget_blank, Hs|]. apply Forall_forall.
    intros e (k&p&_&->)%list_elem_of_In%port_edges_In. apply Hf.
  - unfold edges'. rewrite map_app, retarget_ids. apply List.NoDup_app; [apply Hs|apply port_edges_NoDup, Hf|].
    intros x Hx (k&->)%port_edges_ids. by apply (fr_new _ _ Hf k).
  - intros e [(e0&He0&->)%retarget_In|(k&p&Hp&->)%port_edges_In]%in_app_iff.
    + destruct (so_source _ _ Hs e0 He0) as (nd&Hnd&Hid&Hp). exists nd. split; [apply in_app_iff; by left|done].
    + exists node. split; [apply in_app_iff; right; by left|]. split; [done|]. by eapply list_elem_of_In, list_elem_of_lookup_2.
  - intros e s [(e0&He0&->)%retarget_In|(k&p&Hp&->)%port_edges_In]%in_app_iff Hes; simpl in Hes; apply in_app_iff.
    + destruct (Hh e0 He0) as [Hsame|[Hn _]]; [left; eapply (so_target _ _ Hs e0); [done|congruence]|right; left; congruence].
    + left. by apply Ht.
  - unfold edges'. rewrite map_app, retarget_keys, port_edges_keys. apply List.NoDup_app; [apply Hs| |].
    + apply NoDup_ListNoDup, NoDup_fmap_2; [intros ?? [=]; done|]. by apply NoDup_ListNoDup, Hi.
    + intros k (e&<-&He)%in_map_iff (p&Hk&_)%in_map_iff. unfold edge_key in Hk. injection Hk as Hk _.
      apply Hnew. rewrite Hk. by apply sound_source.
  - intros id port (nd&[Hnd|[<-|[]]]%in_app_iff&Hid&Hp); unfold edges'; rewrite map_app, in_app_iff, retarget_keys.
    + left. apply (so_total _ _ Hs). by exists nd.
    + right. rewrite port_edges_keys. apply in_map_iff. exists port. split; [by rewrite <- Hid|done].
  - apply insert_acyclic.
  - destruct (so_start _ _ Hs) as (s&Hgs&Hsin&Hreach). destruct Hstart as [[-> Hst]|[-> (e&He&Hen)]].
    + exists n. split; [done|]. split; [apply in_app_iff; right; by left|].
      intros x [Hx|[<-|[]]]%in_app_iff; [|done]. apply rtc_l with s; [|by apply insert_old_path, Hreach].
      apply insert_rel. right. split; [done|congruence].
    + exists s. split; [done|]. split; [apply in_app_iff; by left|].
      intros x [Hx|[<-|[]]]%in_app_iff; [by apply insert_old_path, Hreach|].
      apply rtc_r with (source e); [by apply insert_old_path, Hreach, sound_source|].
      apply insert_rel. left. by exists e.
Qed.
End Insert.

(** The name of the entry's edge is not that of an edge: the loop stops in time. *)
Definition longer (k : nat) (u : string) : bool := Nat.leb k (String.length u).
Lemma fresh_entry_new fuel used id :
  (length (List.filter (longer (String.length id)) used) < fuel)%nat → ¬ In (fresh_entry fuel used id) used.
Proof.
  revert id. induction fuel as [|fuel IH]; intros id Hlt; [lia|]. simpl.
  destruct (String_in id used) eqn:E; b2p; [|done]. apply IH.
  rewrite str_length_app. cbn [String.length]. set (k := String.length id) in *.
  assert (∀ l, (length (List.filter (longer (k + 1)) l) <= length (List.filter (longer k) l))%nat
    ∧ (In id l → (length (List.filter (longer (k + 1)) l) < length (List.filter (longer k) l))%nat)) as Hc.
  { assert (∀ u, longer (k + 1) u = true → longer k u = true) as Hmono by (intros u; unfold longer; rewrite !Nat.leb_le; lia).
    assert (longer k id = true ∧ longer (k + 1) id = false) as [Hk Hk']
      by (unfold longer; rewrite Nat.leb_le, Nat.leb_gt; unfold k; lia).
    induction l as [|u l [IHle IHlt]]; [by split|]. cbn [List.filter]. specialize (Hmono u).
    destruct (longer (k + 1) u) eqn:E1, (longer k u) eqn:E2; cbn [length];
      try (discriminate Hmono; reflexivity); (split; [lia|]); intros [->|Hin]; try congruence;
      try (specialize (IHlt Hin)); lia. }
  destruct (Hc used) as [_ Hc']. specialize (Hc' E). lia.
Qed.
Lemma entryEdgeId_new g : ¬ In (entryEdgeId g) (map edge_id (g_edges g)).
Proof.
  unfold entryEdgeId. apply fresh_entry_new.
  assert (∀ (p : string → bool) l, (length (List.filter p l) <= length l)%nat) as Hl.
  { intros p l. induction l as [|u l IH]; simpl; [done|]. destruct (p u); simpl; lia. }
  pose proof (Hl (longer (String.length ENTRY_EDGE_ID)) (map edge_id (g_edges g))). lia.
Qed.

Lemma find_edge g k :
  sound g → match List.find (λ e, String.eqb (edge_id e) k) (g_edges g) with
            | Some e => In e (g_edges g) ∧ edge_id e = k
            | None => ¬ In k (map edge_id (g_edges g))
            end.
Proof.
  intros Hs. destruct (List.find _ _) as [e|] eqn:E.
  - apply find_some in E as [He Hk]. by b2p.
  - intros (e&<-&He)%in_map_iff. eapply find_none in E; [|exact He]. simpl in E. by rewrite String.eqb_refl in E.
Qed.

Lemma insertOnEdge_sound newId g edgeId node g' :
  sound g → insertable g node → fresh_ids newId g → insertOnEdge fmt newId g edgeId node = Ok g' → sound g'.
Proof.
  intros Hs Hi Hf. unfold insertOnEdge. destruct (_ || _) eqn:Ec; [done|]. apply orb_false_iff in Ec as [_ Hnew].
  assert (¬ In (gn_id node) (ids_of g)) as Hn.
  { intros (x&Hx&Hin)%in_map_iff. eapply existsb_fresh in Hnew; [|exact Hin]. by apply String.eqb_neq in Hnew. }
  pose proof (find_edge g edgeId Hs) as Hfind.
  rewrite (update_retarget g (λ e, String.eqb (edge_id e) edgeId) (Some (gn_id node)) Hs)
    by (intros; by eapply by_id_unique).
  destruct (sound_rank _ _ Hs) as [r Hr].
  destruct (List.find _ _) as [e0|] eqn:Ef.
  - destruct Hfind as [He0 Hid0].
    assert (String.eqb edgeId (entryEdgeId g) = false) as ->.
    { apply String.eqb_neq. intros ->. apply (entryEdgeId_new g). rewrite <- Hid0. by apply in_map. }
    intros [= <-]. simpl. eapply (insert_sound newId g node _ (target e0) (g_start g) r (2 * r (source e0) + 1)); try done.
    + intros t Ht. by eapply (so_target _ _ Hs e0).
    + intros e He. destruct (String.eqb (edge_id e) edgeId) eqn:E; [right; split; [done|]|by left].
      assert (e = e0) as ->; [|done]. eapply by_id_unique; [done..|]. by apply String.eqb_eq.
    + right. split; [done|]. exists e0. split; [done|]. by rewrite Hid0, String.eqb_refl.
    + intros e He Hen. destruct (String.eqb (edge_id e) edgeId) eqn:E.
      * assert (e = e0) as ->; [|lia]. eapply by_id_unique; [done..|]. by apply String.eqb_eq.
      * exfalso. apply Hn. by eapply (so_target _ _ Hs e).
    + intros s Hs0. assert (r (source e0) < r s); [|lia]. apply Hr. by exists e0.
  - destruct (String.eqb edgeId (entryEdgeId g)) eqn:Ea; [|done]. intros [= <-]. cbn [given].
    destruct (so_start _ _ Hs) as (s&Hgs&Hsin&_).
    eapply (insert_sound newId g node _ (g_start g) _ r (2 * r s - 1)); try done.
    + intros t Ht. congruence.
    + intros e He. left. destruct (String.eqb (edge_id e) edgeId) eqn:E; [|done]. b2p.
      destruct Hfind. rewrite <- E. by apply in_map.
    + by left.
    + intros e He Hen. exfalso. destruct (String.eqb (edge_id e) edgeId) eqn:E.
      * b2p. destruct Hfind. rewrite <- E. by apply in_map.
      * apply Hn. by eapply (so_target _ _ Hs e).
    + intros s' Hs'. rewrite Hgs in Hs'. injection Hs' as <-. lia.
Qed.

(** ** Connecting an output *)

Lemma path_without {A} (R R' : relation A) s t x y :
  (∀ a b, R' a b → R a b ∨ a = s ∧ b = t) → rtc R' x y → rtc R x y ∨ rtc R x s ∧ rtc R t y.
Proof.
  intros HR. induction 1 as [x|x z y Hxz _ IH]; [by left|].
  destruct (HR _ _ Hxz) as [H|[-> ->]]; destruct IH as [IH|[IH1 IH2]].
  - left. by eapply rtc_l.
  - right. split; [by eapply rtc_l|done].
  - right. split; [done|done].
  - right. split; [done|done].
Qed.
Lemma acyclic_with_edge {A} (R R' : relation A) s t :
  (∀ a b, R' a b → R a b ∨ a = s ∧ b = t) → (∀ x, ¬ tc R x x) → ¬ rtc R t s → ∀ x, ¬ tc R' x x.
Proof.
  intros HR Hac Hts x Hx.
  assert (∃ y, R' x y ∧ rtc R' y x) as (y&Hxy&Hyx).
  { inversion Hx as [? ? H1|? z ? H1 H2]; subst; [by exists x|]. exists z. split; [done|]. by apply tc_rtc. }
  destruct (HR _ _ Hxy) as [H|[-> ->]], (path_without R R' s t _ _ HR Hyx) as [Hp|[Hp1 Hp2]].
  - apply (Hac x). by eapply tc_rtc_r, Hp; apply tc_once.
  - apply Hts. etrans; [exact Hp2|]. by eapply rtc_l.
  - done.
  - apply Hts. etrans; [exact Hp2|]. done.
Qed.

Lemma connectRoute_sound newId g src port t g' :
  sound g → t ≠ Some "" → connectRoute fmt newId g src port t = Ok g' → sound g'.
Proof.
  intros Hs Hte. unfold connectRoute. destruct (connectionIssue fmt g src port t) eqn:Ei; [done|].
  unfold connectionIssue in Ei. destruct (negb _) eqn:Eport in Ei; [done|]. apply negb_false_iff in Eport.
  destruct (find_node g src) as [nd|] eqn:En; [|done]. apply find_node_Some in En as [Hnd Hid]; [|apply Hs].
  apply String_in_spec in Eport.
  destruct (match truthy_target t with Some s => negb _ | None => false end) eqn:Etgt in Ei; [done|].
  assert (∀ s, t = Some s → truthy_target t = Some s) as Htruthy.
  { intros s ->. simpl. assert (s ≠ "") as Hne by congruence. apply String.eqb_neq in Hne. by rewrite Hne. }
  assert (∀ s, t = Some s → In s (ids_of g)) as Htin.
  { intros s Hts. rewrite (Htruthy s Hts) in Etgt. apply negb_false_iff, existsb_exists in Etgt as (n&Hn&E). b2p.
    subst s. by apply in_map. }
  destruct (_ || _) eqn:Eback in Ei; [done|]. apply orb_false_iff in Eback as [Hself Hback].
  apply bool_decide_eq_false in Hself.
  match type of Ei with (if ?c then _ else _) = _ => destruct c eqn:Edet; [done|] end.
  assert (In (src, port) (map edge_key (g_edges g))) as Hkey by (apply (so_total _ _ Hs); by exists nd).
  apply in_map_iff in Hkey as (e0&Hk0&He0). unfold edge_key in Hk0. injection Hk0 as Hsrc0 Hport0.
  assert (existsb (leaves src port) (g_edges g) = true) as ->.
  { apply existsb_exists. exists e0. split; [done|]. unfold leaves. by rewrite Hsrc0, Hport0, !String.eqb_refl. }
  intros [= <-]. rewrite (update_retarget g (leaves src port) t Hs) by (intros; by eapply by_key_unique).
  set (h := λ e, if leaves src port e then t else target e).
  assert (∀ a b, edge_rel (retarget h (g_edges g)) a b → edge_rel (g_edges g) a b ∨ a = src ∧ t = Some b) as Hrel.
  { intros a b Hab. apply (proj1 (retarget_rel _ _ _ _)) in Hab as (e&He&<-&Hb). unfold h in Hb.
    destruct (leaves src port e) eqn:El; [right|left; by exists e]. unfold leaves in El. apply andb_true_iff in El as [El _]. apply String.eqb_eq in El. by split. }
  apply retarget_sound; [done| | |].
  - intros e s He Hes. unfold h in Hes. destruct (leaves src port e); [by apply Htin|by eapply (so_target _ _ Hs e)].
  - destruct t as [s|].
    + apply (acyclic_with_edge (edge_rel (g_edges g)) _ src s).
      * intros a b [?|[-> [= ->]]]%Hrel; [by left|by right].
      * apply Hs.
      * intros Hts. rewrite (Htruthy s eq_refl) in Hback. apply String_in_false in Hback. apply Hback.
        apply reachable_spec; [by eapply sound_named|]. exists s. split; [by apply Htruthy|done].
    + intros x Hx. apply (so_acyclic _ _ Hs x). eapply tc_mono; [|exact Hx]. by intros a b [?|[_ ?]]%Hrel.
  - destruct (so_start _ _ Hs) as (s&Hgs&Hsin&Hreach). exists s. split; [done|]. split; [done|].
    intros x Hx. cbn [with_graph g_start g_edges] in Edet.
    assert (In x (reachableNodes g (g_start g))) as Hb.
    { apply reachable_spec; [by eapply sound_named|]. exists s. rewrite Hgs, (truthy_good s) by (by eapply sound_good). auto. }
    eapply existsb_fresh in Edet; [|exact Hb]. apply negb_false_iff, String_in_spec in Edet.
    apply reachable_spec in Edet.
    + destruct Edet as (s'&Hs'&Hp). rewrite Hgs, (truthy_good s) in Hs' by (by eapply sound_good).
      injection Hs' as <-. eapply rtc_subrel; [|exact Hp]. clear -Hnd He0 Hsrc0 Hport0 h.
      intros a b (e&[[He Hl]%filter_In|[<-|[]]]%in_app_iff&<-&Hb); apply retarget_rel.
      * exists e. split_and!; [done|done|]. unfold h. apply negb_true_iff in Hl. by rewrite Hl.
      * exists e0. split_and!; [done|done|]. unfold h, leaves. rewrite Hsrc0, Hport0, !String.eqb_refl. done.
    + simpl. intros e [[He _]%filter_In|[<-|[]]]%in_app_iff; [by apply (sound_named _ _ Hs)|done].
Qed.

(** ** Swapping two linear steps *)

Lemma linear_ports n : linear n = true → ports n = ["next"].
Proof. by destruct n. Qed.
Lemma linear_edge g f e e' :
  sound g → In f (g_nodes g) → linear (gn_body f) = true → In e (g_edges g) → In e' (g_edges g) →
  source e = gn_id f → source e' = gn_id f → e = e'.
Proof.
  intros Hs Hf Hl He He' Hse Hse'. eapply (NoDup_map_eq edge_key); [apply (so_unique _ _ Hs)|done|done|].
  assert (∀ x, In x (g_edges g) → source x = gn_id f → edge_key x = (gn_id f, "next")) as Hk.
  { intros x Hx Hsx. destruct (so_source _ _ Hs x Hx) as (n&Hn&Hid&Hp).
    assert (n = f) as -> by (eapply (NoDup_map_eq gn_id); [apply Hs|done|done|congruence]).
    rewrite linear_ports in Hp by done. unfold edge_key. destruct Hp as [<-|[]]. by rewrite Hsx. }
  by rewrite !Hk.
Qed.

Lemma outgoing_In g id e : In e (outgoingEdges fmt g id) → In e (g_edges g) ∧ source e = id.
Proof.
  unfold outgoingEdges. destruct (find_node g id) as [n|]; [|by intros []].
  intros (port&_&[He Hl]%filter_In)%in_flat_map. unfold leaves in Hl. by b2p.
Qed.
Lemma incoming_In g id e : In e (incoming g id) ↔ In e (g_edges g) ∧ target e = Some id.
Proof. unfold incoming. rewrite filter_In. unfold points_to. by rewrite bool_decide_eq_true. Qed.

(** What the editor calls a movable pair: [f], then [s] and nothing else leading to [s] *)
Record movable (g : GraphDefinition) (f s : GraphNode) : Prop := {
  mv_first : In f (g_nodes g) ∧ linear (gn_body f) = true;
  mv_second : In s (g_nodes g) ∧ linear (gn_body s) = true;
  mv_edge : ∃ e, In e (g_edges g) ∧ source e = gn_id f ∧ target e = Some (gn_id s);
  mv_only e : In e (g_edges g) → target e = Some (gn_id s) → source e = gn_id f }.

Lemma movablePair_Some g id offset f s :
  sound g → movablePair fmt g id offset = Some (f, s) → movable g f s.
Proof.
  intros Hs. unfold movablePair. intros (selected&Hsel&H)%bind_Some.
  apply find_node_Some in Hsel as [Hsel Hid]; [|apply Hs].
  destruct (negb (linear (gn_body selected))) eqn:El; [done|]. apply negb_false_iff in El.
  apply bind_Some in H as (k&Hk&H). apply bind_Some in H as (neighbor&Hnb&H).
  apply find_node_Some in Hnb as [Hnb Hnk]; [|apply Hs].
  destruct (negb (linear (gn_body neighbor))) eqn:Eln; [done|]. apply negb_false_iff in Eln.
  assert (∃ e, In e (g_edges g) ∧ match offset with
    | Before => source e = gn_id neighbor ∧ target e = Some (gn_id selected)
    | After => source e = gn_id selected ∧ target e = Some (gn_id neighbor) end) as (e&He&Hends).
  { destruct offset.
    - destruct (incoming g id) as [|e [|]] eqn:E; try done. assert (In e (incoming g id)) as Hin by (rewrite E; by left).
      apply incoming_In in Hin as [? ?]. exists e. split; [done|]. split; congruence.
    - destruct (outgoingEdges fmt g id) as [|e [|]] eqn:E; try done.
      assert (In e (outgoingEdges fmt g id)) as Hin by (rewrite E; by left).
      apply outgoing_In in Hin as [? ?]. exists e. split; [done|]. split; congruence. }
  assert (∀ a b, source e = gn_id a → target e = Some (gn_id b) →
    Nat.eqb (length (incoming g (gn_id b))) 1 = true →
    ∀ e', In e' (g_edges g) → target e' = Some (gn_id b) → source e' = gn_id a) as Honly.
  { intros a b Ha Hb Hlen e' He' Hb'. apply Nat.eqb_eq in Hlen. destruct (incoming g (gn_id b)) as [|e1 [|]] eqn:E; try done.
    assert (∀ x, In x (g_edges g) → target x = Some (gn_id b) → x = e1) as Hx.
    { intros x Hx Hxb. assert (In x (incoming g (gn_id b))) as Hin by (by apply incoming_In). rewrite E in Hin. by destruct Hin as [<-|[]]. }
    rewrite (Hx e'), <- (Hx e) by done. done. }
  destruct offset; (destruct (_ || _) eqn:E in H; [done|]); injection H as <- <-;
    apply orb_false_iff in E as [E _]; apply orb_false_iff in E as [E _]; apply orb_false_iff in E as [_ E]; apply negb_false_iff in E;
    destruct Hends; (split; [done|done|by exists e|by eapply Honly]).
Qed.

(** Two successive updates of a retargeted list *)
Lemma redirect_retarget g h f t :
  sound g → In f (g_nodes g) → linear (gn_body f) = true →
  redirect (gn_id f) t (retarget h (g_edges g))
  = retarget (λ e, if String.eqb (source e) (gn_id f) then t else h e) (g_edges g).
Proof.
  intros Hs Hf Hl. unfold redirect. rewrite update_first_map.
  - unfold retarget. rewrite map_map. apply map_ext. intros e. simpl. by destruct (String.eqb (source e) (gn_id f)).
  - apply (NoDup_map_inv edge_id). rewrite retarget_ids. apply Hs.
  - intros x y (x0&Hx0&->)%retarget_In (y0&Hy0&->)%retarget_In Hx Hy. simpl in Hx, Hy. b2p.
    by rewrite (linear_edge g f x0 y0).
Qed.

Section Swap.
Context (g : GraphDefinition) (f s : GraphNode) (tail : option string) (e2 : JourneyEdge).
Let F := gn_id f.
Let S := gn_id s.
Context (Hs : sound g) (Hm : movable g f s).
Context (He2 : In e2 (g_edges g)) (Hse2 : source e2 = S) (Htail : tail = target e2).
Let h e := if String.eqb (source e) S then Some F else if String.eqb (source e) F then tail
  else if points_to F e then Some S else target e.
Let R := edge_rel (g_edges g).
Let R' := edge_rel (retarget h (g_edges g)).

Lemma swap_pair : R F S.
Proof. destruct (mv_edge _ _ _ Hm) as (e&He&?&?). by exists e. Qed.
Lemma swap_differ : F ≠ S.
Proof. intros E. apply (so_acyclic _ _ Hs F). apply tc_once. rewrite E at 2. apply swap_pair. Qed.
Lemma swap_first e : In e (g_edges g) → source e = F → target e = Some S.
Proof.
  intros He Hf. destruct (mv_edge _ _ _ Hm) as (e1&He1&Hs1&Ht1), (mv_first _ _ _ Hm).
  by rewrite (linear_edge g f e e1).
Qed.
Lemma swap_second e : In e (g_edges g) → source e = S → target e = tail.
Proof. intros He Hf. destruct (mv_second _ _ _ Hm). by rewrite (linear_edge g s e e2), Htail. Qed.
Lemma swap_no_loop x : R F x → R x F → False.
Proof. intros H1 H2. apply (so_acyclic _ _ Hs F). by eapply tc_l, tc_once. Qed.
Lemma swap_tail t : tail = Some t → R S t.
Proof. intros Ht. exists e2. split_and!; [done|done|congruence]. Qed.

(** The edges after the swap *)
Lemma swap_rel x y :
  R' x y ↔ (x = S ∧ y = F) ∨ (x = F ∧ tail = Some y)
    ∨ (x ≠ S ∧ x ≠ F ∧ ((R x F ∧ y = S) ∨ (y ≠ F ∧ R x y))).
Proof.
  unfold R'. rewrite retarget_rel. unfold h. split.
  - intros (e&He&<-&Hy). destruct (String.eqb (source e) S) eqn:E1; b2p; [left; by simplify_eq|].
    destruct (String.eqb (source e) F) eqn:E2; b2p; [by right; left|]. right; right. split; [done|]. split; [done|].
    destruct (points_to F e) eqn:E3; unfold points_to in E3.
    + apply bool_decide_eq_true in E3. left. split; [by exists e|by simplify_eq].
    + apply bool_decide_eq_false in E3. right. split; [congruence|by exists e].
  - intros [[-> ->]|[[-> Ht]|(H1&H2&[[(e&He&Hx&Ht) ->]|[Hn (e&He&Hx&Ht)]])]].
    + exists e2. rewrite Hse2, String.eqb_refl. done.
    + destruct (mv_edge _ _ _ Hm) as (e&He&Hx&_). exists e. rewrite Hx. fold F. rewrite String.eqb_refl.
      pose proof swap_differ as Hd. apply String.eqb_neq in Hd. by rewrite Hd.
    + exists e. subst x. apply String.eqb_neq in H1, H2. rewrite H1, H2. unfold points_to. by rewrite bool_decide_true.
    + exists e. subst x. apply String.eqb_neq in H1, H2. rewrite H1, H2. unfold points_to.
      rewrite bool_decide_false by congruence. done.
Qed.

Lemma swap_acyclic x : ¬ tc R' x x.
Proof.
  destruct (sound_rank _ _ Hs) as [r Hr]. pose proof swap_differ as Hd.
  apply (rank_acyclic _ (λ x, if String.eqb x F then r S else if String.eqb x S then r F else r x)).
  intros a b [[-> ->]|[[-> Ht]|(H1&H2&[[H ->]|[Hn H]])]]%swap_rel; rewrite ?String.eqb_refl.
  - apply not_eq_sym, String.eqb_neq in Hd. rewrite Hd. apply Hr, swap_pair.
  - pose proof (swap_tail _ Ht) as Hst. assert (String.eqb b F = false) as ->.
    { apply String.eqb_neq. intros ->. by eapply swap_no_loop, Hst; apply swap_pair. }
    assert (String.eqb b S = false) as ->; [|by apply Hr].
    apply String.eqb_neq. intros ->. apply (so_acyclic _ _ Hs S). by apply tc_once.
  - apply not_eq_sym, String.eqb_neq in Hd. apply String.eqb_neq in H1, H2. rewrite Hd, H1, H2. by apply Hr.
  - assert (String.eqb b S = false) as ->.
    { apply String.eqb_neq. intros ->. destruct H as (e&He&<-&Ht). apply H2. by apply (mv_only _ _ _ Hm). }
    apply String.eqb_neq in H1, H2, Hn. rewrite H1, H2, Hn. by apply Hr.
Qed.

(** A step reached before is reached after, and so is [s] when [f] was. *)
Lemma swap_reach x0 x :
  rtc R x0 x → let start' := if String.eqb x0 F then S else x0 in rtc R' start' x ∧ (x = F → rtc R' start' S).
Proof.
  assert (R' S F) as HSF by (apply swap_rel; by left). intros Hp start'. revert x Hp. apply rtc_ind_r.
  - unfold start'. destruct (String.eqb x0 F) eqn:E; b2p; [|done]. subst x0. split; [by apply rtc_once|done].
  - intros y z _ Hyz [IH IHF]. destruct (decide (y = S)) as [->|HS].
    { assert (z ≠ F) as Hz by (intros ->; by eapply swap_no_loop, Hyz; apply swap_pair).
      split; [|done]. etrans; [exact IH|]. eapply rtc_l; [exact HSF|]. apply rtc_once, swap_rel. right; left. split; [done|].
      destruct Hyz as (e&He&Hx&Ht). by rewrite <- (swap_second e). }
    destruct (decide (y = F)) as [->|HF].
    { assert (z = S) as -> by (destruct Hyz as (e&He&Hx&Ht); rewrite (swap_first e) in Ht by done; by simplify_eq).
      split; [by apply IHF|]. intros E. by destruct swap_differ. }
    destruct (decide (z = F)) as [->|HzF].
    + assert (rtc R' start' S) as Hq; [|split; [by eapply rtc_r|done]].
      eapply rtc_r; [exact IH|]. apply swap_rel. right; right. split; [done|]. split; [done|]. by left.
    + split; [|done]. eapply rtc_r; [exact IH|]. apply swap_rel. right; right. split; [done|]. split; [done|]. by right.
Qed.
End Swap.

Lemma moveLinearNode_sound g id offset g' : sound g → moveLinearNode fmt g id offset = Ok g' → sound g'.
Proof.
  intros Hs. unfold moveLinearNode. destruct (movablePair fmt g id offset) as [[f s]|] eqn:Ep; [|done].
  apply movablePair_Some in Ep as Hm; [|done]. destruct (mv_first _ _ _ Hm) as [Hf Hlf], (mv_second _ _ _ Hm) as [Hsn Hls].
  destruct (List.find _ _) as [e1|]; [|done].
  destruct (List.find (λ e, String.eqb (source e) (gn_id s)) (g_edges g)) as [e2|] eqn:Ef; [|done].
  apply find_some in Ef as [He2 Hs2]. apply String.eqb_eq in Hs2. intros [= <-].
  assert (map (λ e, if points_to (gn_id f) e then set_target (Some (gn_id s)) e else e) (g_edges g)
    = retarget (λ e, if points_to (gn_id f) e then Some (gn_id s) else target e) (g_edges g)) as ->.
  { apply map_ext. intros e. destruct (points_to _ e); [done|]. by rewrite set_target_same. }
  rewrite !redirect_retarget by done. apply retarget_sound; [done| | |].
  - intros e t He. cbv beta. destruct (String.eqb (source e) (gn_id s)); [intros [= <-]; by apply in_map|].
    destruct (String.eqb (source e) (gn_id f)); [by apply (so_target _ _ Hs e2)|].
    destruct (points_to (gn_id f) e); [intros [= <-]; by apply in_map|by apply (so_target _ _ Hs e)].
  - by apply (swap_acyclic g f s (target e2) e2).
  - destruct (so_start _ _ Hs) as (s0&Hgs&Hin&Hreach).
    exists (if String.eqb s0 (gn_id f) then gn_id s else s0). split_and!.
    + rewrite Hgs. destruct (String.eqb s0 (gn_id f)) eqn:E; b2p; [rewrite bool_decide_true by congruence|rewrite bool_decide_false by congruence]; done.
    + destruct (String.eqb s0 (gn_id f)); [by apply in_map|done].
    + intros x Hx. by apply (swap_reach g f s (target e2) e2 Hs Hm He2 Hs2 eq_refl), Hreach.
Qed.

(** ** Removing a step and what only it led to *)


Section Remove.
Context (g : GraphDefinition) (id s0 s1 : string) (kept : JourneyEdge).
Context (Hs : sound g) (Hid : In id (ids_of g)) (Hk : In kept (g_edges g)) (Hks : source kept = id).
Context (Hs0 : g_start g = Some s0) (Hs1 : (if bool_decide (Some s0 = Some id) then target kept else Some s0) = Some s1).
Let h e := if points_to id e then target kept else target e.
Let edges := retarget h (List.filter (λ e, negb (String.eqb (source e) id)) (g_edges g)).
Let nodes := List.filter (λ n, negb (String.eqb (gn_id n) id)) (g_nodes g).
Let next := with_graph g nodes (Some s1) edges.
Let after := reachableNodes next (Some s1).
Let removedIds := id :: List.filter (λ x, negb (String_in x after)) (reachableNodes g (g_start g)).
Let R := edge_rel (g_edges g).
Let N := edge_rel edges.

Lemma removal_next x y : N x y ↔ x ≠ id ∧ ((R x id ∧ target kept = Some y) ∨ (y ≠ id ∧ R x y)).
Proof.
  unfold N, edges. rewrite retarget_rel. unfold h. split.
  - intros (e&[He Hne]%filter_In&<-&Hy). b2p. split; [done|]. destruct (points_to id e) eqn:E; unfold points_to in E.
    + apply bool_decide_eq_true in E. left. split; [by exists e|done].
    + apply bool_decide_eq_false in E. right. split; [congruence|by exists e].
  - intros (Hne&[[(e&He&<-&Ht) Hy]|[Hn (e&He&<-&Ht)]]); exists e; apply String.eqb_neq in Hne;
      (split; [apply filter_In; by rewrite Hne|split; [done|]]); unfold points_to.
    + by rewrite bool_decide_true.
    + rewrite bool_decide_false; [done|congruence].
Qed.
Lemma removal_kept t : target kept = Some t → R id t ∧ t ≠ id ∧ In t (ids_of g).
Proof.
  intros Ht. assert (R id t) as Hr by by exists kept. split; [done|]. split; [|by eapply (so_target _ _ Hs kept)].
  intros ->. apply (so_acyclic _ _ Hs id). by apply tc_once.
Qed.
Lemma removal_ids x y : N x y → In y (ids_of g) ∧ y ≠ id.
Proof.
  intros (_&[[_ Ht]|[Hn (e&He&_&Ht)]])%removal_next; [by apply removal_kept in Ht as (_&?&?)|].
  split; [by eapply (so_target _ _ Hs e)|done].
Qed.
Lemma removal_acyclic x : ¬ tc N x x.
Proof.
  destruct (sound_rank _ _ Hs) as [r Hr]. apply (rank_acyclic _ r).
  intros a b (_&[[Ha Ht]|[_ Ha]])%removal_next; [|by apply Hr]. apply removal_kept in Ht as (Ht&_).
  apply Hr in Ha. apply Hr in Ht. lia.
Qed.
Lemma removal_start : In s1 (ids_of g) ∧ s1 ≠ id.
Proof.
  destruct (bool_decide (Some s0 = Some id)) eqn:E in Hs1.
  - by apply removal_kept in Hs1 as (_&?&?).
  - apply bool_decide_eq_false in E. injection Hs1 as <-. split; [|congruence].
    destruct (so_start _ _ Hs) as (s&Hgs&Hin&_). congruence.
Qed.
Lemma removal_after x : In x after ↔ rtc N s1 x.
Proof.
  destruct removal_start as [Hin Hne]. unfold after. rewrite reachable_spec.
  - rewrite truthy_good by (by eapply sound_good). naive_solver.
  - intros e He Ht. assert (N (source e) "") as Hr by by exists e.
    apply removal_ids in Hr as [Hr _]. by apply (sound_good _ _ _ Hs), good_not_empty in Hr.
Qed.
Lemma removal_stays x : In x (ids_of g) → (String_in x removedIds = false ↔ x ≠ id ∧ rtc N s1 x).
Proof.
  intros Hx. unfold removedIds. rewrite String_in_false. simpl. rewrite filter_In, negb_true_iff, String_in_false, <- removal_after.
  assert (In x (reachableNodes g (g_start g))) as Hb; [|destruct (in_dec String.string_dec x after); naive_solver].
  apply reachable_spec; [by eapply sound_named|]. destruct (so_start _ _ Hs) as (s&Hgs&Hin&Hreach).
  exists s. rewrite Hgs, truthy_good by (by eapply sound_good). split; [done|by apply Hreach].
Qed.

Let stay x := negb (String_in x removedIds).
Let kept_edges := List.filter (λ e, stay (source e)
  && match truthy_target (target e) with Some t => stay t | None => true end) edges.

Lemma stay_spec x : In x (ids_of g) → (stay x = true ↔ x ≠ id ∧ rtc N s1 x).
Proof. intros Hx. unfold stay. rewrite negb_true_iff. by apply removal_stays. Qed.
Lemma stay_step x y : stay x = true → In x (ids_of g) → N x y → stay y = true.
Proof.
  intros Hx Hin Hxy. apply stay_spec in Hx as [_ Hx]; [|done]. destruct (removal_ids _ _ Hxy) as [Hy Hne].
  apply stay_spec; [done|]. split; [done|by eapply rtc_r].
Qed.
Lemma removal_edge e e' : e' = set_target (h e) e → In e (g_edges g) →
  (In e' kept_edges ↔ source e ≠ id ∧ stay (source e) = true).
Proof.
  intros -> He. unfold kept_edges. rewrite filter_In. split.
  - intros [(e0&[_ Hne]%filter_In&E)%retarget_In Hq]. apply (f_equal source) in E. simpl in E. b2p. split; [|done]. congruence.
  - intros [Hne Hst]. assert (In (set_target (h e) e) edges) as Hin.
    { apply retarget_In. exists e. split; [|done]. apply filter_In. apply String.eqb_neq in Hne. by rewrite Hne. }
    split; [done|]. cbn [source set_target]. rewrite Hst. cbn [andb target set_target].
    destruct (truthy_target (h e)) as [t|] eqn:Et; [|done].
    assert (h e = Some t) as Ht by (destruct (h e) as [u|]; simpl in Et; [destruct (String.eqb u ""); congruence|done]).
    eapply stay_step; [exact Hst|by apply sound_source|]. exists (set_target (h e) e). done.
Qed.
Lemma kept_edges_In e' : In e' kept_edges → ∃ e, In e (g_edges g) ∧ e' = set_target (h e) e ∧ source e ≠ id ∧ stay (source e) = true.
Proof.
  intros Hin. pose proof Hin as [(e&[He _]%filter_In&->)%retarget_In _]%filter_In. exists e.
  apply (removal_edge e _ eq_refl He) in Hin. done.
Qed.
Lemma removal_step x y : stay x = true → In x (ids_of g) → N x y → edge_rel kept_edges x y.
Proof.
  intros Hx Hin (e'&(e&[He Hne]%filter_In&->)%retarget_In&<-&Hy). exists (set_target (h e) e).
  split; [|done]. apply (removal_edge e); [done|done|]. b2p. done.
Qed.

Lemma removal_sound :
  sound (with_graph g (List.filter (λ n, stay (gn_id n)) nodes) (Some s1) kept_edges).
Proof.
  set (g' := with_graph _ _ _ _). destruct removal_start as [Hin1 Hne1].
  assert (∀ n, In n (g_nodes g') ↔ In n (g_nodes g) ∧ stay (gn_id n) = true) as Hn.
  { intros n. unfold g', nodes. simpl. rewrite !filter_In. split; [by intros [[? _] ?]|]. intros [Hg Hst]. split; [|done].
    split; [done|]. apply stay_spec in Hst as [Hne _]; [|by apply in_map]. apply negb_true_iff. by apply String.eqb_neq. }
  assert (∀ x, In x (ids_of g') ↔ In x (ids_of g) ∧ stay x = true) as Hids.
  { intros x. unfold ids_of. rewrite !in_map_iff. split.
    - intros (n&<-&[? ?]%Hn). eauto.
    - intros [(n&<-&?) ?]. exists n. split; [done|by apply Hn]. }
  assert (∀ A (f : JourneyEdge → A), (∀ o e, f (set_target o e) = f e) → List.NoDup (map f (g_edges g)) → List.NoDup (map f kept_edges)) as Hmap.
  { intros A f Hf Hnd. apply NoDup_map_filter. unfold edges, retarget. rewrite map_map.
    erewrite map_ext; [apply NoDup_map_filter, Hnd|]. intros e. apply Hf. }
  split.
  - apply Forall_forall. intros x [Hx _]%list_elem_of_In%Hids. by apply (sound_good _ _ _ Hs).
  - apply NoDup_map_filter, NoDup_map_filter, Hs.
  - apply Forall_forall. intros e' (e&He&->&_)%list_elem_of_In%kept_edges_In. simpl.
    pose proof (so_edge_ids _ _ Hs) as Hb. rewrite Forall_forall in Hb. by apply Hb, list_elem_of_In.
  - apply Hmap; [done|apply Hs].
  - intros e' (e&He&->&_&Hst)%kept_edges_In. destruct (so_source _ _ Hs e He) as (n&Hng&Hnid&Hp).
    exists n. split; [apply Hn; by rewrite Hnid|done].
  - intros e' t He' Ht. apply Hids. apply kept_edges_In in He' as (e&He&->&Hne&Hst).
    assert (N (source e) t) as Hr.
    { exists (set_target (h e) e). split; [|done]. apply retarget_In. exists e. split; [|done].
      apply filter_In. apply String.eqb_neq in Hne. by rewrite Hne. }
    split; [by apply removal_ids in Hr as [? _]|]. eapply stay_step, Hr; [done|by apply sound_source].
  - apply Hmap; [done|apply Hs].
  - intros x port (n&[Hng Hst]%Hn&<-&Hp).
    assert (In (gn_id n, port) (map edge_key (g_edges g))) as (e&Hk'&He)%in_map_iff by (apply (so_total _ _ Hs); by exists n).
    unfold edge_key in Hk'. injection Hk' as Hse Hpe. apply in_map_iff. exists (set_target (h e) e). split; [by unfold edge_key; simpl; rewrite Hse, Hpe|].
    apply (removal_edge e); [done|done|]. rewrite Hse. split; [|done]. by apply stay_spec in Hst as [? _]; [|apply in_map].
  - intros x Hx. apply (removal_acyclic x). eapply tc_mono; [|exact Hx].
    intros a b (e&[He _]%filter_In&Ha&Hb). by exists e.
  - exists s1. split; [done|]. split; [apply Hids; split; [done|]; by apply stay_spec|].
    intros x [Hx [_ Hr]%stay_spec]%Hids; [|done]. clear Hx. revert x Hr. apply rtc_ind_r; [done|].
    intros y z Hy Hyz IH. eapply rtc_r; [exact IH|]. assert (In y (ids_of g) ∧ y ≠ id) as [Hyin Hyne].
    { apply rtc_inv_r in Hy as [<-|(w&_&Hw)]; [done|]. by apply removal_ids in Hw. }
    apply removal_step; [by apply stay_spec|done|done].
Qed.
End Remove.

Lemma previewRemoval_sound g id keepPort p : sound g → previewRemoval fmt g id keepPort = Ok p → sound (rm_definition p).
Proof.
  intros Hs. unfold previewRemoval. destruct (find_node g id) as [n|] eqn:En; [|done].
  apply find_node_Some in En as [Hn Hid]; [|apply Hs]. destruct (_ && _); [done|].
  destruct (List.find _ _) as [kept|] eqn:Ek; [|done]. apply find_some in Ek as [Hk _]. apply outgoing_In in Hk as [Hk Hks].
  destruct (so_start _ _ Hs) as (s0&Hgs&_). destruct (_ || _) eqn:Estart; [done|]. intros [= <-].
  cbn [rm_definition]. apply orb_false_iff in Estart as [_ Estart]. rewrite Hgs in Estart |- *.
  destruct (if bool_decide (Some s0 = Some id) then target kept else Some s0) as [s1|] eqn:E1; [|done].
  rewrite <- Hgs. assert (map (λ e, if points_to id e then set_target (target kept) e else e)
      (List.filter (λ e, negb (String.eqb (source e) id)) (g_edges g))
    = retarget (λ e, if points_to id e then target kept else target e)
      (List.filter (λ e, negb (String.eqb (source e) id)) (g_edges g))) as ->.
  { apply map_ext. intros e. destruct (points_to id e); [done|]. by rewrite set_target_same. }
  eapply removal_sound; try done. rewrite <- Hid. by apply in_map.
Qed.

(** ** A new name for an experiment *)

Section Renew.
Context (g : GraphDefinition) (id new : string).
Context (Hs : sound g) (Hgood : good_id new) (Hnew : ¬ In new (ids_of g)).
Let ren := rename id new.
Let node_renamed n := if String.eqb (gn_id n) id then mkGraphNode new (gn_body n) else n.
Let edge_renamed e := mkEdge (edge_id e) (ren (source e)) (source_port e) (ren <$> target e).

Lemma ren_inj x y : In x (ids_of g) → In y (ids_of g) → ren x = ren y → x = y.
Proof.
  intros Hx Hy. unfold ren, rename. destruct (String.eqb x id) eqn:Ex, (String.eqb y id) eqn:Ey; b2p; congruence.
Qed.
Lemma renamed_id n : gn_id (node_renamed n) = ren (gn_id n) ∧ gn_body (node_renamed n) = gn_body n.
Proof. unfold node_renamed, ren, rename. by destruct (String.eqb (gn_id n) id). Qed.
Lemma renamed_ids : map gn_id (map node_renamed (g_nodes g)) = map ren (ids_of g).
Proof. unfold ids_of. rewrite !map_map. apply map_ext. intros n. apply renamed_id. Qed.

Lemma renamed_rel x y :
  edge_rel (map edge_renamed (g_edges g)) x y ↔ ∃ a b, edge_rel (g_edges g) a b ∧ x = ren a ∧ y = ren b.
Proof.
  unfold edge_rel. split.
  - intros (e'&(e&<-&He)%in_map_iff&<-&Hy). simpl in Hy. destruct (target e) as [b|] eqn:Et; [|done]. injection Hy as <-.
    exists (source e), b. split; [by exists e|done].
  - intros (a&b&(e&He&<-&Ht)&->&->). exists (edge_renamed e). split; [by apply in_map|]. simpl. by rewrite Ht.
Qed.

Lemma renew_sound start :
  start = ren <$> g_start g → sound (with_graph g (map node_renamed (g_nodes g)) start (map edge_renamed (g_edges g))).
Proof.
  intros ->. split; unfold ids_of; cbn [g_nodes g_edges g_start with_graph]; rewrite ?renamed_ids.
  - apply Forall_forall. intros y (x&<-&Hx)%list_elem_of_In%in_map_iff. unfold ren, rename.
    destruct (String.eqb x id); [done|by eapply sound_good].
  - apply NoDup_map_inj_in; [apply ren_inj|apply Hs].
  - apply Forall_map. eapply Forall_impl; [apply (so_edge_ids _ _ Hs)|done].
  - rewrite map_map. apply Hs.
  - intros e' (e&<-&He)%in_map_iff. destruct (so_source _ _ Hs e He) as (n&Hn&Hid&Hp). exists (node_renamed n).
    destruct (renamed_id n) as [Hi Hb]. split; [by apply in_map|]. by rewrite Hi, Hb, Hid.
  - intros e' t (e&<-&He)%in_map_iff Ht. simpl in Ht. destruct (target e) as [b|] eqn:Et; [|done]. injection Ht as <-.
    by apply in_map, (so_target _ _ Hs e).
  - assert (map edge_key (map edge_renamed (g_edges g)) = map (λ k, (ren k.1, k.2)) (map edge_key (g_edges g))) as ->
      by (rewrite !map_map; by apply map_ext).
    apply NoDup_map_inj_in; [|apply Hs]. intros k k' (e&<-&He)%in_map_iff (e'&<-&He')%in_map_iff [= Hse Hpe].
    unfold edge_key. simpl. f_equal; [|done]. by apply ren_inj; [apply sound_source|apply sound_source|].
  - intros x port (n'&(n&<-&Hn)%in_map_iff&<-&Hp). destruct (renamed_id n) as [Hi Hb]. rewrite Hb in Hp. rewrite Hi.
    assert (In (gn_id n, port) (map edge_key (g_edges g))) as (e&Hk&He)%in_map_iff by (apply (so_total _ _ Hs); by exists n).
    injection Hk as Hse Hpe. apply in_map_iff. exists (edge_renamed e). split; [|by apply in_map].
    unfold edge_key. simpl. by rewrite Hse, Hpe.
  - destruct (sound_rank _ _ Hs) as [r Hr]. apply (rank_acyclic _ (λ x, if String.eqb x new then r id else r x)).
    assert (∀ x, In x (ids_of g) → (if String.eqb (ren x) new then r id else r (ren x)) = r x) as Hren.
    { intros x Hx. unfold ren, rename. destruct (String.eqb x id) eqn:E; b2p; [by rewrite String.eqb_refl, E|].
      assert (String.eqb x new = false) as ->; [|done]. apply String.eqb_neq. congruence. }
    intros x y (a&b&Hab&->&->)%renamed_rel. pose proof Hab as (e&He&<-&Ht).
    rewrite !Hren; [by apply Hr|by eapply (so_target _ _ Hs e)|by apply sound_source].
  - destruct (so_start _ _ Hs) as (s&->&Hin&Hreach). exists (ren s). split; [done|]. split; [by apply in_map|].
    intros y (x&<-&Hx)%in_map_iff. eapply rtc_congruence; [|by apply Hreach].
    intros a b Hab. apply renamed_rel. eauto.
Qed.
End Renew.

Lemma renewExperiment_sound g id new g' :
  sound g → good_id new → renewExperiment g id new = Ok g' → sound g'.
Proof.
  intros Hs Hgood. unfold renewExperiment. destruct (gn_body <$> find_node g id) as [[]|]; try done.
  destruct (existsb _ _) eqn:E; [done|]. intros [= <-]. apply renew_sound; [done|done| |].
  - intros (nd&Hn&Hin)%in_map_iff. eapply existsb_fresh in E; [|exact Hin]. by apply String.eqb_neq in E.
  - unfold rename. destruct (g_start g) as [s|]; simpl; [|done]. destruct (String.eqb s id) eqn:Es; b2p.
    + by rewrite bool_decide_true by congruence.
    + by rewrite bool_decide_false by congruence.
Qed.
End Edits.
