(* ===== verification/GraphRun.v ===== *)
(** * Editing a journey graph: what the editor can draw

    The editor's operations as steps from one graph to the next, and the
    properties of every graph a session of edits can produce. *)

From Stdlib Require Import Ascii QArith.
From stdpp Require Import pretty.
From S2P Require Import Prelude JsVal Graph BranchCondition JourneyModel JourneyGraph GraphSound GraphEdits.

#[global] Open Scope Z_scope.

(** The ids [newJourneyId] makes ([crypto.randomUUID]): names, all different,
    none of them in the graph. *)
Record new_ids (ids : string → nat → string) (g : GraphDefinition) : Prop := {
  ni_good : good_id (ids "node" 0%nat);
  ni_blank k : blank (ids "edge" k) = false;
  ni_inj kind k k' : ids kind k = ids kind k' → k = k';
  ni_step : ¬ In (ids "node" 0%nat) (ids_of g);
  ni_edge k : ¬ In (ids "edge" k) (map edge_id (g_edges g)) }.

Section Edits.
Context (fmt : Q → string).

(** One edit in the console: a new step of a palette tool on a path, an output
    connected to a step or to the end (the picker has no empty name), a
    message or delay moved, a step removed, an experiment renewed *)
Inductive edit : GraphDefinition → GraphDefinition → Prop :=
  | EInsert ids g edgeId tool g' :
      new_ids ids g → insertOnEdge fmt (ids "edge") g edgeId (createJourneyNode ids tool) = Ok g' → edit g g'
  | EConnect newId g src port t g' :
      t ≠ Some "" → connectRoute fmt newId g src port t = Ok g' → edit g g'
  | EMove g id offset g' : moveLinearNode fmt g id offset = Ok g' → edit g g'
  | ERemove g id keepPort p : previewRemoval fmt g id keepPort = Ok p → edit g (rm_definition p)
  | ERenew g id new g' : good_id new → renewExperiment g id new = Ok g' → edit g g'.

Lemma created_insertable ids tool g : new_ids ids g → insertable fmt g (createJourneyNode ids tool).
Proof.
  intros Hi. split.
  - apply Hi.
  - by destruct tool.
  - destruct tool; repeat constructor; simpl; try set_solver.
    intros [E|[]]. by apply (ni_inj _ _ Hi) in E.
Qed.
Lemma new_ids_fresh ids g : new_ids ids g → fresh_ids (ids "edge") g.
Proof. intros Hi. split; [apply Hi|apply (ni_inj _ _ Hi)|apply Hi]. Qed.

Lemma edit_sound g g' : edit g g' → sound fmt g → sound fmt g'.
Proof.
  intros [ids ? edgeId tool ? Hi H|newId ? src port t ? Ht H|? id offset ? H|? id keepPort p H|? id new ? Hg H] Hs.
  - eapply insertOnEdge_sound, H; [done|by apply created_insertable|by apply new_ids_fresh].
  - by eapply connectRoute_sound, H.
  - by eapply moveLinearNode_sound, H.
  - by eapply previewRemoval_sound, H.
  - by eapply renewExperiment_sound, H.
Qed.
Lemma edits_sound g g' : rtc edit g g' → sound fmt g → sound fmt g'.
Proof. induction 1 as [|x y z Hxy _ IH]; [done|]. intros Hs. by eapply IH, edit_sound. Qed.

Lemma sound_issues g : sound fmt g ↔ validateGraph fmt (definition_of g) = [].
Proof. by rewrite validateGraph_spec, sound_valid. Qed.

Lemma emptyJourney_sound ids : good_id (ids "node" 0%nat) → blank (ids "edge" 1%nat) = false → sound fmt (emptyJourney ids).
Proof.
  intros Hi Hb. set (id := ids "node" 0%nat). assert (∀ x y, ¬ edge_rel (g_edges (emptyJourney ids)) x y) as Hno
    by (intros x y (e&[<-|[]]&_&[=])).
  split; unfold ids_of; cbn [emptyJourney g_nodes g_edges g_start map createJourneyNode gn_id].
  - repeat constructor; apply Hi.
  - repeat constructor. by intros [].
  - repeat constructor. done.
  - repeat constructor. by intros [].
  - intros e [<-|[]]. eexists. split; [by left|]. split; [done|by left].
  - by intros e t [<-|[]].
  - repeat constructor. by intros [].
  - intros x port (n&[<-|[]]&<-&[<-|[]]). by left.
  - intros x Hx. inversion Hx; subst; by eapply Hno.
  - exists id. split; [done|]. split; [by left|]. intros x [<-|[]]. done.
Qed.

(** C7. Whatever the user does in the graph editor, the validator finds nothing
    wrong with the graph: starting from the empty journey or from a graph
    without issues, every sequence of insertions, connections, moves, removals
    and renewals that the editor accepts ends in a graph with no issue. *)
Theorem edited_graphs_valid g g' :
  validateGraph fmt (definition_of g) = []
    ∨ (∃ ids, good_id (ids "node" 0%nat) ∧ blank (ids "edge" 1%nat) = false ∧ g = emptyJourney ids) →
  rtc edit g g' →
  validateGraph fmt (definition_of g') = [].
Proof.
  intros Hg Hr. apply sound_issues. apply (edits_sound _ _ Hr).
  destruct Hg as [Hg|(ids&Hi&Hb&->)]; [by apply sound_issues|by apply emptyJourney_sound].
Qed.
End Edits.

(** ** A session *)

Definition demo_fmt (q : Q) : string := pretty (Qnum q).
Definition demo_ids (call : string) (kind : string) (k : nat) : string := kind +:+ "-" +:+ call +:+ "." +:+ pretty k.
Definition drawn (o : outcome GraphDefinition) : GraphDefinition :=
  match o with Ok g => g | Throw _ => emptyJourney (demo_ids "x") end.

(** A delay after the first message, moved before it, then an experiment in
    front of both, one variant of which skips the delay; the experiment is
    renewed, and removed again on the path of its other variant. *)
Definition drawn0 : GraphDefinition := emptyJourney (demo_ids "a").
Definition drawn1 : GraphDefinition :=
  drawn (insertOnEdge demo_fmt (demo_ids "b" "edge") drawn0 "edge-a.1" (createJourneyNode (demo_ids "b") ToolDelay)).
Definition drawn2 : GraphDefinition := drawn (moveLinearNode demo_fmt drawn1 "node-b.0" Before).
Definition drawn3 : GraphDefinition :=
  drawn (insertOnEdge demo_fmt (demo_ids "c" "edge") drawn2 ENTRY_EDGE_ID (createJourneyNode (demo_ids "c") ToolABSplit)).
Definition drawn4 : GraphDefinition :=
  drawn (connectRoute demo_fmt (demo_ids "d" "edge") drawn3 "node-c.0" "variant-c.1" (Some "node-a.0")).
Definition drawn5 : GraphDefinition := drawn (renewExperiment drawn4 "node-c.0" "exp-2").
Definition drawn6 : GraphDefinition :=
  match previewRemoval demo_fmt drawn5 "exp-2" (Some "variant-c.1") with Ok p => rm_definition p | _ => drawn5 end.

Lemma demo_new_ids call g :
  good_id (demo_ids call "node" 0%nat) → ¬ In (demo_ids call "node" 0%nat) (ids_of g) →
  Forall (λ e, starts_with ("edge-" +:+ call +:+ ".") (edge_id e) = false) (g_edges g) →
  new_ids (demo_ids call) g.
Proof.
  intros Hg Hn He. split; [done|by intros k| |done|].
  - intros kind k k' E. unfold demo_ids in E. apply (inj (String.append _)), (inj (String.append _)), (inj (String.append _)),
      (inj (String.append _)), (inj pretty) in E. done.
  - intros k (e&E&Hin)%in_map_iff. rewrite Forall_forall in He. specialize (He e (proj2 (list_elem_of_In _ _) Hin)).
    rewrite E in He. unfold demo_ids in He. rewrite !str_app_assoc in He.
    change ("edge" +:+ "-") with "edge-" in He. by rewrite starts_with_app in He.
Qed.

(** An insertion with fresh ids, evaluated *)
Ltac inserts call tool edge :=
  eapply rtc_l; [eapply (EInsert _ (demo_ids call) _ edge tool);
    [apply demo_new_ids; [by split; vm_compute|vm_compute; naive_solver|vm_compute; repeat constructor]
    |vm_compute; reflexivity]|].

Theorem edited_graphs_valid_witness :
  validateGraph demo_fmt (definition_of drawn6) = [] ∧ map gn_id (g_nodes drawn5) = ["node-a.0"; "node-b.0"; "exp-2"]
  ∧ map gn_id (g_nodes drawn6) = ["node-a.0"].
Proof.
  split; [|split; vm_compute; reflexivity]. apply (edited_graphs_valid demo_fmt drawn0).
  - right. exists (demo_ids "a"). split; [by split; vm_compute|]. by split.
  - inserts "b" ToolDelay "edge-a.1".
    eapply rtc_l; [eapply (EMove _ _ "node-b.0" Before); vm_compute; reflexivity|].
    inserts "c" ToolABSplit ENTRY_EDGE_ID.
    eapply rtc_l; [eapply (EConnect _ (demo_ids "d" "edge") _ "node-c.0" "variant-c.1" (Some "node-a.0"));
      [by intros [=]|vm_compute; reflexivity]|].
    eapply rtc_l; [eapply (ERenew _ _ "node-c.0" "exp-2"); [by split; vm_compute|vm_compute; reflexivity]|].
    eapply rtc_l; [eapply (ERemove _ _ "exp-2" (Some "variant-c.1")); vm_compute; reflexivity|].
    done.
Defined.
