(* ===== verification/GraphTiming.v ===== *)
(** * Editing a journey graph: how long a customer takes
    ([pathDurationRange] of [apps/console/src/app/journeys/journey-graph.ts])

    The shortest and the longest configured wait of a route through the graph,
    computed from the last step of a topological order backwards, and what it
    means: the bounds of the waits of every route, both attained. *)

From Stdlib Require Import Ascii QArith.
From stdpp Require Import pretty.
From S2P Require Import Prelude JsVal Graph BranchCondition JourneyModel JourneyGraph GraphSound JourneyProps.

#[global] Open Scope Z_scope.

(** The sum of two integral numbers that are not negative: the nearest double,
    ties to even *)
Definition round_double (z : Z) : Z :=
  if z <=? MAX_SAFE_INTEGER then z
  else
    let unit := 2 ^ (Z.log2 z - 52) in
    let low := z mod unit in
    let up := (unit <? 2 * low) || (2 * low =? unit) && Z.odd (z / unit) in
    unit * (z / unit + if up then 1 else 0).
Definition js_add (a b : Z) : Z := round_double (a + b).

Record Range := mkRange { r_min : Z; r_max : Z }.

Section Timing.
Context (fmt : Q → string).

(** [node.type === "delay" ? node.duration_seconds : node.type === "event_wait" ? node.timeout_seconds : 0] *)
Definition waiting (n : NodeBody) : num :=
  match n with NDelay d => duration_seconds d | NEventWait w => timeout_seconds w | _ => NInt 0 end.
Definition is_waiting (n : NodeBody) : bool := match n with NDelay _ | NEventWait _ => true | _ => false end.
(** what the shortest wait through an output counts *)
Definition least_wait (n : NodeBody) (cost : Z) (port : string) : Z :=
  match n with NDelay _ => cost | NEventWait _ => if String.eqb port "timeout" then cost else 0 | _ => 0 end.

Definition edge_range (ranges : list (string * Range)) (n : NodeBody) (cost : Z) (e : JourneyEdge) : option Range :=
  tail ← match truthy_target (target e) with Some t => JMap.get ranges t | None => Some (mkRange 0 0) end;
  Some (mkRange (js_add (r_min tail) (least_wait n cost (source_port e))) (js_add (r_max tail) cost)).

Definition node_range (edges : list JourneyEdge) (ranges : list (string * Range)) (n : GraphNode) : option Range :=
  let outputs := List.filter (λ e, String.eqb (source e) (gn_id n)) edges in
  let ports := ports fmt (gn_body n) in
  if negb (Nat.eqb (length outputs) (length ports))
     || existsb (λ p, negb (Nat.eqb (length (List.filter (λ e, String.eqb (source_port e) p) outputs)) 1)) ports
  then None
  else
    let cost := waiting (gn_body n) in
    if negb (Number_isSafeInteger cost) || num_ltb cost (NInt 0) || num_eqb cost (NInt 0) && is_waiting (gn_body n)
    then None
    else
      paths ← mapM (edge_range ranges (gn_body n) (num_to_Z cost)) outputs;
      match paths with
      | [] => None
      | p :: l => Some (mkRange (fold_left Z.min (map r_min l) (r_min p)) (fold_left Z.max (map r_max l) (r_max p)))
      end.

Definition range_step (edges : list JourneyEdge) (nodes : list (string * GraphNode))
    (ranges : option (list (string * Range))) (id : string) : option (list (string * Range)) :=
  ranges ← ranges; n ← JMap.get nodes id; r ← node_range edges ranges n; Some (JMap.set ranges id r).

Definition pathDurationRange (g : GraphDefinition) : option Range :=
  match truthy_target (g_start g) with
  | None => None
  | Some start =>
      let nodes := fold_left (λ m n, JMap.set m (gn_id n) n) (g_nodes g) [] in
      if existsb (λ e, negb (JMap.has nodes (source e))
           || match truthy_target (target e) with Some t => negb (JMap.has nodes t) | None => false end) (g_edges g)
      then None
      else
        let adjacency := adjacency_of (g_edges g) in
        let order := kahn (targets_of adjacency) (JMap.keys nodes) (JMap.keys adjacency) in
        if negb (Nat.eqb (length order) (length nodes)) then None
        else ranges ← fold_left (range_step (g_edges g) nodes) (rev order) (Some []); JMap.get ranges start
  end.

(** ** What it means *)

(** How long a customer can stay at a step that is left by an output: a delay
    waits as configured, an event is awaited at most as long as configured and
    its time-out fires exactly then. *)
Inductive stays : NodeBody → string → Z → Prop :=
  | stay_delay d port : stays (NDelay d) port (num_to_Z (duration_seconds d))
  | stay_timeout w : stays (NEventWait w) "timeout" (num_to_Z (timeout_seconds w))
  | stay_event w port s : port ≠ "timeout" → 0 <= s <= num_to_Z (timeout_seconds w) → stays (NEventWait w) port s
  | stay_not n port : is_waiting n = false → stays n port 0.

(** A route from a step to an end of the journey and its configured waits *)
Inductive travels (g : GraphDefinition) : string → Z → Prop :=
  | travel_end n e s :
      In n (g_nodes g) → In e (g_edges g) → source e = gn_id n → target e = None →
      stays (gn_body n) (source_port e) s → travels g (gn_id n) s
  | travel_next n e t s s' :
      In n (g_nodes g) → In e (g_edges g) → source e = gn_id n → target e = Some t →
      stays (gn_body n) (source_port e) s → travels g t s' → travels g (gn_id n) (s + s').

Definition range_of (g : GraphDefinition) (id : string) (r : Range) : Prop :=
  travels g id (r_min r) ∧ travels g id (r_max r) ∧ ∀ s, travels g id s → r_min r <= s <= r_max r.

Definition timed (n : NodeBody) : Prop :=
  is_waiting n = true → Number_isInteger (waiting n) = true ∧ 0 < num_to_Z (waiting n) <= MAX_DURATION_SECONDS.

Lemma js_add_exact a b : a + b <= MAX_SAFE_INTEGER → js_add a b = a + b.
Proof. intros H. unfold js_add, round_double. apply Z.leb_le in H. by rewrite H. Qed.

Lemma fold_min_spec l x :
  (∀ y, In y (x :: l) → fold_left Z.min l x <= y) ∧ In (fold_left Z.min l x) (x :: l).
Proof.
  revert x. induction l as [|y l IH]; intros x; simpl; [split; [intros y [->|[]]; lia|by left]|].
  destruct (IH (Z.min x y)) as [Hle Hin]. split.
  - assert (fold_left Z.min l (Z.min x y) <= Z.min x y) by (apply Hle; by left).
    intros z [->|[->|Hz]]; [lia|lia|apply Hle; by right].
  - destruct Hin as [<-|Hin]; [|by right; right]. destruct (Z.min_spec x y) as [[_ ->]|[_ ->]]; auto.
Qed.
Lemma fold_max_spec l x :
  (∀ y, In y (x :: l) → y <= fold_left Z.max l x) ∧ In (fold_left Z.max l x) (x :: l).
Proof.
  revert x. induction l as [|y l IH]; intros x; simpl; [split; [intros y [->|[]]; lia|by left]|].
  destruct (IH (Z.max x y)) as [Hle Hin]. split.
  - assert (Z.max x y <= fold_left Z.max l (Z.max x y)) by (apply Hle; by left).
    intros z [->|[->|Hz]]; [lia|lia|apply Hle; by right].
  - destruct Hin as [<-|Hin]; [|by right; right]. destruct (Z.max_spec x y) as [[_ ->]|[_ ->]]; auto.
Qed.

Lemma mapM_total {A B} (f : A → option B) (P : A → B → Prop) l :
  (∀ x, In x l → ∃ y, f x = Some y ∧ P x y) → ∃ k, mapM f l = Some k ∧ Forall2 P l k.
Proof.
  induction l as [|x l IH]; intros H; [by exists []; split|].
  destruct (H x) as (y&Hy&HP); [by left|]. destruct IH as (k&Hk&HPk); [intros; apply H; by right|].
  exists (y :: k). cbn [mapM]. rewrite Hy. simpl. rewrite Hk. split; [done|by constructor].
Qed.

Lemma filter_one {A} (p : A → bool) l x :
  List.NoDup l → In x l → p x = true → (∀ y, In y l → p y = true → y = x) → List.filter p l = [x].
Proof.
  intros Hnd Hx Hp Hu. apply (List.NoDup_filter p) in Hnd. assert (In x (List.filter p l)) as Hin by by apply filter_In.
  assert (∀ y, In y (List.filter p l) → y = x) as Hall by (intros y [? ?]%filter_In; auto).
  destruct (List.filter p l) as [|a [|b k]]; [done|by rewrite (Hall a (or_introl eq_refl))|].
  exfalso. apply NoDup_cons_iff in Hnd as [Ha _]. apply Ha.
  rewrite (Hall a (or_introl eq_refl)), (Hall b (or_intror (or_introl eq_refl))). by left.
Qed.

Lemma nodes_by_id l :
  List.NoDup (map gn_id l) →
  let m := fold_left (λ m n, JMap.set m (gn_id n) n) l [] in
  JMap.keys m = map gn_id l ∧ ∀ n, In n l → JMap.get m (gn_id n) = Some n.
Proof.
  induction l as [|x l IH] using rev_ind; [done|]. rewrite map_app. intros Hnd.
  assert (List.NoDup (map gn_id l) ∧ ¬ In (gn_id x) (map gn_id l)) as [Hl Hx].
  { split; [by apply NoDup_app_remove_r in Hnd|]. intros Hin. apply NoDup_remove_2 in Hnd. apply Hnd. by rewrite app_nil_r. }
  specialize (IH Hl). rewrite fold_left_app. cbn [fold_left]. cbv zeta in *. destruct IH as [Hk Hg].
  set (m := fold_left _ l []) in *. split.
  - rewrite JMap.keys_set. assert (JMap.has m (gn_id x) = false) as ->; [|by rewrite Hk].
    apply JMap.has_false. by rewrite Hk.
  - intros n [Hn|[<-|[]]]%in_app_iff; rewrite JMap.get_set; [|by rewrite String.eqb_refl].
    assert (String.eqb (gn_id x) (gn_id n) = false) as ->; [|by apply Hg].
    apply String.eqb_neq. intros E. apply Hx. rewrite E. by apply in_map.
Qed.

(** A graph whose steps wait as the validator allows *)
Record well_timed (g : GraphDefinition) : Prop := {
  wt_sound : sound fmt g;
  wt_timed n : In n (g_nodes g) → timed (gn_body n);
  wt_ports n : In n (g_nodes g) → List.NoDup (ports fmt (gn_body n)) ∧ ports fmt (gn_body n) ≠ [] }.

Section Ranges.
Context (g : GraphDefinition) (Hg : well_timed g).

(** The waits of the routes that leave a step by one of its edges *)
Definition via (n : GraphNode) (e : JourneyEdge) (s : Z) : Prop :=
  ∃ w, stays (gn_body n) (source_port e) w
    ∧ match target e with None => s = w | Some t => ∃ s', travels g t s' ∧ s = w + s' end.
Definition outputs_of (n : GraphNode) : list JourneyEdge := List.filter (λ e, String.eqb (source e) (gn_id n)) (g_edges g).

Lemma outputs_In n e : In e (outputs_of n) ↔ In e (g_edges g) ∧ source e = gn_id n.
Proof. unfold outputs_of. by rewrite filter_In, String.eqb_eq. Qed.
Lemma travels_via n s : In n (g_nodes g) → (travels g (gn_id n) s ↔ ∃ e, In e (outputs_of n) ∧ via n e s).
Proof.
  intros Hn. assert (∀ m, In m (g_nodes g) → gn_id m = gn_id n → m = n) as Hu
    by (intros; eapply (NoDup_map_eq gn_id); [apply (wt_sound _ Hg)|done..]).
  split.
  - intros H. inversion H as [m e w Hm He Hse Ht Hw E|m e t w s' Hm He Hse Ht Hw Htr E];
      (assert (m = n) by auto); subst m; exists e; (split; [by apply outputs_In|]).
    + exists s. by rewrite Ht.
    + exists w. rewrite Ht. eauto.
  - intros (e&[He Hse]%outputs_In&w&Hw&Ht). destruct (target e) as [t|] eqn:Et.
    + destruct Ht as (s'&Htr&->). by eapply travel_next.
    + subst. by eapply travel_end.
Qed.

Lemma waiting_spec b : timed b →
  Number_isSafeInteger (waiting b) = true ∧ 0 <= num_to_Z (waiting b) <= MAX_DURATION_SECONDS
  ∧ num_ltb (waiting b) (NInt 0) = false ∧ num_eqb (waiting b) (NInt 0) && is_waiting b = false.
Proof.
  intros Hb. destruct (is_waiting b) eqn:E.
  - destruct (Hb E) as [Hi Hr]. split_and!; [|lia..| |].
    + destruct (waiting b) as [| |q]; try done. simpl in *. rewrite Hi. simpl. apply Z.leb_le.
      unfold MAX_DURATION_SECONDS, MAX_SAFE_INTEGER in *. lia.
    + rewrite num_ltb_int by done. apply Z.ltb_ge. lia.
    + rewrite andb_true_r. destruct (num_eqb (waiting b) (NInt 0)) eqn:E0; [|done].
      assert (num_ltb (NInt 0) (waiting b) = true) as Hlt by (rewrite num_gtb_int by done; apply Z.ltb_lt; lia).
      destruct (waiting b) as [| |q]; try done. unfold num_ltb, num_eqb, NInt in *.
      rewrite andb_true_iff, negb_true_iff in Hlt. destruct Hlt as [_ Hlt].
      apply Qeq_bool_iff in E0. symmetry in E0. apply Qeq_bool_iff in E0. congruence.
  - rewrite andb_false_r. destruct b; try done; (split; [done|]; split; [|done]; rewrite num_to_Z_NInt;
      unfold MAX_DURATION_SECONDS; lia).
Qed.

Lemma stays_spec b port : timed b →
  let cost := num_to_Z (waiting b) in
  stays b port (least_wait b cost port) ∧ stays b port cost
  ∧ (∀ s, stays b port s → least_wait b cost port <= s <= cost) ∧ 0 <= least_wait b cost port.
Proof.
  intros (_&Hc&_)%waiting_spec. cbv zeta. destruct b; simpl in *; rewrite ?num_to_Z_NInt in *.
  2: { split_and!; [constructor|constructor| |lia]. intros s H. inversion H; subst; [lia|done]. }
  3: { destruct (String.eqb port "timeout") eqn:E; b2p.
    - subst. split_and!; [constructor|constructor| |lia]. intros s H. inversion H; subst; done || lia.
    - split_and!; [by constructor; [|lia]|by constructor; [|lia]| |done]. intros s H. inversion H; subst; done || lia. }
  all: split_and!; [by constructor|by constructor| |done]; intros s H; inversion H; subst; lia.
Qed.

(** One step, from the ranges of the steps after it *)
Lemma edge_range_spec ranges n e bound :
  In n (g_nodes g) → In e (outputs_of n) → bound + MAX_DURATION_SECONDS <= MAX_SAFE_INTEGER → 0 <= bound →
  (∀ t, target e = Some t → ∃ r, JMap.get ranges t = Some r ∧ range_of g t r ∧ 0 <= r_min r ∧ r_max r <= bound) →
  ∃ r, edge_range ranges (gn_body n) (num_to_Z (waiting (gn_body n))) e = Some r
    ∧ via n e (r_min r) ∧ via n e (r_max r) ∧ (∀ s, via n e s → r_min r <= s <= r_max r)
    ∧ 0 <= r_min r ∧ r_max r <= bound + MAX_DURATION_SECONDS.
Proof.
  intros Hn [He Hse]%outputs_In Hb Hb0 Hr. pose proof (wt_timed _ Hg n Hn) as Ht.
  destruct (waiting_spec _ Ht) as (_&Hc&_), (stays_spec _ (source_port e) Ht) as (Hmin&Hmax&Hbd&Hl).
  set (cost := num_to_Z (waiting (gn_body n))) in *. set (least := least_wait _ _ _) in *.
  pose proof (Hbd _ Hmax) as Hlc. unfold edge_range, via. destruct (target e) as [t|] eqn:Et.
  - destruct (Hr t eq_refl) as (r&Hget&(Hr1&Hr2&Hr3)&Hr0&Hrb).
    rewrite truthy_good by (eapply (sound_good fmt); [apply (wt_sound _ Hg)|by eapply (so_target _ _ (wt_sound _ Hg))]).
    rewrite Hget. simpl. eexists. split; [done|]. pose proof (Hr3 _ Hr1). fold least. cbn [r_min r_max]. rewrite !js_add_exact by lia.
    split_and!; [..|lia|lia].
    + exists least. split; [done|]. exists (r_min r). split; [done|lia].
    + exists cost. split; [done|]. exists (r_max r). split; [done|lia].
    + intros s (w&Hw%Hbd&s'&Hs'%Hr3&->). lia.
  - simpl. eexists. split; [done|]. fold least. cbn [r_min r_max]. rewrite !js_add_exact by lia.
    split_and!; [..|lia|lia]; [by exists least|by exists cost|].
    intros s (w&Hw%Hbd&->). lia.
Qed.

Lemma outputs_ports n :
  In n (g_nodes g) →
  length (outputs_of n) = length (ports fmt (gn_body n))
  ∧ existsb (λ p, negb (Nat.eqb (length (List.filter (λ e, String.eqb (source_port e) p) (outputs_of n))) 1))
      (ports fmt (gn_body n)) = false.
Proof.
  intros Hn. pose proof (wt_sound _ Hg) as Hs. destruct (wt_ports _ Hg n Hn) as [Hpn _].
  assert (List.NoDup (outputs_of n)) as Hnd by (apply List.NoDup_filter, (NoDup_map_inv edge_id), Hs).
  assert (∀ e e', In e (outputs_of n) → In e' (outputs_of n) → source_port e = source_port e' → e = e') as Hu.
  { intros e e' [He Hse]%outputs_In [He' Hse']%outputs_In Hp.
    eapply (NoDup_map_eq edge_key); [apply (so_unique _ _ Hs)|done|done|]. unfold edge_key. congruence. }
  assert (∀ p, In p (ports fmt (gn_body n)) ↔ In p (map source_port (outputs_of n))) as Hports.
  { intros p. rewrite in_map_iff. split.
    - intros Hp. assert (In (gn_id n, p) (map edge_key (g_edges g))) as (e&Hk&He)%in_map_iff
        by (apply (so_total _ _ Hs); by exists n).
      injection Hk as Hse Hpe. exists e. split; [done|by apply outputs_In].
    - intros (e&<-&[He Hse]%outputs_In). destruct (so_source _ _ Hs e He) as (m&Hm&Hid&Hp).
      assert (m = n) as ->; [|done]. eapply (NoDup_map_eq gn_id); [apply Hs|done|done|congruence]. }
  split.
  - assert (List.NoDup (map source_port (outputs_of n))) as Hndp
      by by apply NoDup_map_inj_in.
    rewrite <- (length_map source_port). apply Nat.le_antisymm; apply NoDup_incl_length; try done; intros p; apply Hports.
  - apply existsb_false_Forall, Forall_forall. intros p Hp%list_elem_of_In. apply negb_false_iff, Nat.eqb_eq.
    apply Hports, in_map_iff in Hp as (e&<-&He). rewrite (filter_one _ _ e); [done|done|done|apply String.eqb_refl|].
    intros e' He' E. b2p. by apply Hu.
Qed.

Lemma node_range_spec ranges n bound :
  In n (g_nodes g) → bound + MAX_DURATION_SECONDS <= MAX_SAFE_INTEGER → 0 <= bound →
  (∀ t, edge_rel (g_edges g) (gn_id n) t →
    ∃ r, JMap.get ranges t = Some r ∧ range_of g t r ∧ 0 <= r_min r ∧ r_max r <= bound) →
  ∃ r, node_range (g_edges g) ranges n = Some r ∧ range_of g (gn_id n) r
    ∧ 0 <= r_min r ∧ r_max r <= bound + MAX_DURATION_SECONDS.
Proof.
  intros Hn Hb Hb0 Hr. unfold node_range. fold (outputs_of n).
  destruct (outputs_ports n Hn) as [-> ->]. rewrite Nat.eqb_refl.
  destruct (waiting_spec _ (wt_timed _ Hg n Hn)) as (->&_&->&->). cbn [negb orb].
  destruct (mapM_total (edge_range ranges (gn_body n) (num_to_Z (waiting (gn_body n))))
    (λ e r, via n e (r_min r) ∧ via n e (r_max r) ∧ (∀ s, via n e s → r_min r <= s <= r_max r)
      ∧ 0 <= r_min r ∧ r_max r <= bound + MAX_DURATION_SECONDS) (outputs_of n)) as (k&->&Hk).
  { intros e He. apply edge_range_spec; [done..|]. intros t Ht. apply Hr. apply outputs_In in He as [He Hse]. by exists e. }
  simpl. assert (outputs_of n ≠ []) as Hne.
  { destruct (outputs_ports n Hn) as [Hl _], (wt_ports _ Hg n Hn) as [_ Hp].
    intros E. rewrite E in Hl. by destruct (ports fmt (gn_body n)). }
  assert (∀ r, In r k → ∃ e, In e (outputs_of n) ∧ via n e (r_min r) ∧ via n e (r_max r)
    ∧ 0 <= r_min r ∧ r_max r <= bound + MAX_DURATION_SECONDS) as Hin.
  { intros r Hr0. destruct (Forall2_In_r _ _ _ _ Hk Hr0) as (e&He&?&?&_&?&?). by exists e. }
  assert (∀ e s, In e (outputs_of n) → via n e s → ∃ r, In r k ∧ r_min r <= s <= r_max r) as Hcov.
  { intros e s He Hv. destruct (Forall2_In_l _ _ _ _ Hk He) as (r&Hr0&_&_&Hbd&_). exists r. split; [done|by apply Hbd]. }
  destruct k as [|p l]; [by inversion Hk|]. clear Hk. eexists. split; [done|].
  destruct (fold_min_spec (map r_min l) (r_min p)) as [Hmin Hmin'], (fold_max_spec (map r_max l) (r_max p)) as [Hmax Hmax'].
  rewrite <- (map_cons r_min) in *. rewrite <- (map_cons r_max) in *.
  unfold range_of. cbn [r_min r_max]. apply in_map_iff in Hmin' as (ra&Ea&Hra), Hmax' as (rb&Eb&Hrb).
  rewrite <- Ea in *. rewrite <- Eb in *. clear Ea Eb.
  destruct (Hin _ Hra) as (ea&Hea&Hva&_&H0&_), (Hin _ Hrb) as (eb&Heb&_&Hvb&_&H1).
  split_and!; [apply travels_via; eauto|apply travels_via; eauto| |done|done].
  intros s (e&He&Hv)%travels_via; [|done]. destruct (Hcov e s He Hv) as (r&Hrin&Hrs).
  assert (r_min ra <= r_min r) by (apply Hmin; by apply in_map).
  assert (r_max r <= r_max rb) by (apply Hmax; by apply in_map). lia.
Qed.

(** The loop over the topological order, from its end *)
Lemma ranges_spec nodes order r :
  (∀ n, In n (g_nodes g) → JMap.get nodes (gn_id n) = Some n) →
  (∀ x, In x order → In x (ids_of g)) →
  (∀ l x r y, order = l ++ x :: r → edge_rel (g_edges g) x y → In y r) →
  (∃ l, order = l ++ r) →
  Z.of_nat (length r) * MAX_DURATION_SECONDS <= MAX_SAFE_INTEGER →
  ∃ ranges, fold_left (range_step (g_edges g) nodes) (rev r) (Some []) = Some ranges
    ∧ ∀ x, In x r → ∃ rg, JMap.get ranges x = Some rg ∧ range_of g x rg ∧ 0 <= r_min rg
        ∧ r_max rg <= Z.of_nat (length r) * MAX_DURATION_SECONDS.
Proof.
  intros Hnodes Hids Htopo. induction r as [|x r IH]; intros [l Hl] Hsz; [by exists []|].
  cbn [length] in Hsz |- *. rewrite Nat2Z.inj_succ in Hsz |- *. unfold MAX_DURATION_SECONDS in Hsz.
  destruct IH as (ranges&Hf&Hr); [exists (l ++ [x]); by rewrite <- app_assoc|unfold MAX_DURATION_SECONDS; lia|].
  assert (In x (ids_of g)) as (n&<-&Hn)%in_map_iff by (apply Hids; rewrite Hl; apply in_app_iff; right; by left).
  destruct (node_range_spec ranges n (Z.of_nat (length r) * MAX_DURATION_SECONDS)) as (rg&Hrg&Hof&H0&Hmax);
    [done|unfold MAX_DURATION_SECONDS in *; lia|unfold MAX_DURATION_SECONDS in *; lia| |].
  { intros t Ht. apply Hr. by eapply Htopo. }
  simpl rev. rewrite fold_left_app, Hf. simpl. rewrite Hnodes by done. simpl. rewrite Hrg. simpl. eexists. split; [done|].
  intros y Hy. rewrite JMap.get_set. destruct (String.eqb (gn_id n) y) eqn:E.
  - b2p. subst y. exists rg. split; [done|]. split; [done|]. split; [done|lia].
  - destruct Hy as [<-|Hy]; [by rewrite String.eqb_refl in E|]. destruct (Hr y Hy) as (rg'&?&?&?&?).
    exists rg'. split; [done|]. split; [done|]. split; [done|]. unfold MAX_DURATION_SECONDS in *. lia.
Qed.

Lemma pathDurationRange_spec :
  Z.of_nat (length (g_nodes g)) * MAX_DURATION_SECONDS <= MAX_SAFE_INTEGER →
  ∃ start r, g_start g = Some start ∧ pathDurationRange g = Some r ∧ range_of g start r.
Proof.
  intros Hsz. pose proof (wt_sound _ Hg) as Hs. destruct (so_start _ _ Hs) as (start&Hgs&Hin&_).
  exists start. unfold pathDurationRange. rewrite Hgs, truthy_good by (by eapply (sound_good fmt)).
  destruct (nodes_by_id (g_nodes g)) as [Hk Hget]; [apply Hs|]. set (nodes := fold_left _ _ _) in *.
  assert (∀ x, In x (ids_of g) → JMap.has nodes x = true) as Hhas by (intros x Hx; apply JMap.has_keys; by rewrite Hk).
  assert (existsb (λ e, negb (JMap.has nodes (source e))
    || match truthy_target (target e) with Some t => negb (JMap.has nodes t) | None => false end) (g_edges g) = false) as ->.
  { apply existsb_false_Forall, Forall_forall. intros e He%list_elem_of_In.
    destruct (so_source _ _ Hs e He) as (n&Hn&Hid&_). rewrite <- Hid, Hhas by (by apply in_map).
    destruct (target e) as [t|] eqn:Et; [|done]. pose proof (so_target _ _ Hs e t He Et) as Ht.
    rewrite truthy_good by (by eapply (sound_good fmt)). by rewrite Hhas. }
  rewrite Hk. destruct (acyclic_order (ids_of g) (g_edges g)) as (Hlen&Hnd&Hall&Hbef);
    [apply Hs| |apply Hs|by eapply sound_named|apply Hs|].
  { intros e He. destruct (so_source _ _ Hs e He) as (n&Hn&<-&_). by apply in_map. }
  fold (ids_of g) in *. set (order := kahn _ _ _) in *.
  assert (length nodes = length (ids_of g)) as Hln by (unfold JMap.keys in Hk; rewrite <- Hk; by rewrite length_map).
  rewrite Hlen, Hln, Nat.eqb_refl. cbn [negb].
  destruct (ranges_spec nodes order order) as (ranges&->&Hr); [done|intros x; apply Hall| |by exists []| |].
  - intros l x r y Ho Hxy. assert (In y (ids_of g)) as Hy.
    { destruct Hxy as (e&He&_&Ht). by eapply (so_target _ _ Hs e). }
    apply Hall in Hy as Hyo. rewrite Ho in Hyo. apply in_app_iff in Hyo as [Hy'|[<-|Hy']]; [exfalso| |done].
    + apply list_elem_of_In, list_elem_of_lookup in Hy' as [j Hj]. assert (j < length l)%nat by by apply lookup_lt_Some in Hj.
      pose proof (Hbef j x y) as H1. rewrite Ho in H1. rewrite lookup_app_l, take_app_le in H1 by lia.
      specialize (H1 Hj Hxy). rewrite Ho in Hnd. apply NoDup_remove_2 in Hnd. apply Hnd. apply in_app_iff. left.
      rewrite <- (take_drop j l). apply in_app_iff. by left.
    + exfalso. apply (so_acyclic _ _ Hs x). by apply tc_once.
  - rewrite Hlen. unfold ids_of. by rewrite length_map.
  - simpl. destruct (Hr start) as (rg&Hget'&Hof&_); [by apply Hall|]. by exists rg.
Qed.
End Ranges.

Lemma body_ok_ports b : body_ok b → List.NoDup (ports fmt b) ∧ ports fmt b ≠ [].
Proof.
  destruct 1 as [n|n|n|n|n [Hl [Hnd _]]]; unfold ports; simpl;
    try (split; [|done]; repeat constructor; simpl; set_solver).
  destruct (variants n) as [l|]; simpl in *; [|lia]. rewrite map_map. split; [done|].
  destruct l; [simpl in Hl; lia|done].
Qed.

Lemma accepted_well_timed g :
  hasErrors (validateJourney fmt (definition_of g)) = false →
  well_timed g ∧ Z.of_nat (length (g_nodes g)) <= 65535.
Proof.
  intros [_ _ [_ Hsz] Hsteps _ _ Hgraph _]%validateJourney_spec.
  unfold nodes_of in Hsz, Hsteps. simpl in Hsz, Hsteps. rewrite length_map in Hsz. rewrite Forall_forall in Hsteps.
  split; [|done]. assert (∀ n, In n (g_nodes g) → body_ok (gn_body n)) as Hok.
  { intros n Hn. apply (Hsteps (JourneyGraph.node_of n)), list_elem_of_In, in_map, Hn. }
  split.
  - apply sound_valid, Hgraph. reflexivity.
  - intros n Hn Hw. destruct (Hok n Hn); try done; simpl; match goal with H : duration_ok _ |- _ => apply H end.
  - intros n Hn. by apply body_ok_ports, Hok.
Qed.

(** C23. For every graph the validator accepts, the editor shows the exact range
    of the configured waits: some route from the start to an end waits the
    shortest time shown and some route the longest, and every route, with any
    moment at which an awaited event may come, lies between them.  Neither sum
    is rounded. *)
Theorem duration_range_exact g :
  hasErrors (validateJourney fmt (definition_of g)) = false →
  ∃ start r, g_start g = Some start ∧ pathDurationRange g = Some r
    ∧ travels g start (r_min r) ∧ travels g start (r_max r)
    ∧ ∀ s, travels g start s → r_min r <= s <= r_max r.
Proof.
  intros [Hg Hsz]%accepted_well_timed. destruct (pathDurationRange_spec g Hg) as (start&r&?&?&?&?&?); [|by exists start, r].
  unfold MAX_DURATION_SECONDS, MAX_SAFE_INTEGER. lia.
Qed.
End Timing.

(** ** A journey with an event and a delay *)

Definition waits_demo : GraphDefinition :=
  mkGraph (Some (mkEntry (Some "blast") (Some "seg-1") None))
    [mkGraphNode "wait" (NEventWait (mkWait (Some "purchase") (NInt 3600)));
     mkGraphNode "later" (NDelay (mkDelay (NInt 86400)));
     mkGraphNode "thanks" (NMessage (mkMessage (Some (mkPush (Some "Thanks") (Some "See you") None None)) None None))]
    (Some "wait")
    [mkEdge "e1" "wait" "matched" (Some "thanks"); mkEdge "e2" "wait" "timeout" (Some "later");
     mkEdge "e3" "later" "next" (Some "thanks"); mkEdge "e4" "thanks" "next" None]
    (Some (mkExit None)) (Some (mkSettings (Some "marketing") RNever)).

Theorem duration_range_exact_witness :
  pathDurationRange (λ _, "") waits_demo = Some (mkRange 0 90000)
  ∧ travels waits_demo "wait" 0 ∧ travels waits_demo "wait" 90000.
Proof.
  assert (pathDurationRange (λ _, "") waits_demo = Some (mkRange 0 90000)) as Hr by (vm_compute; reflexivity).
  destruct (duration_range_exact (λ _, "") waits_demo) as (start&r&[= <-]&Hr'&H1&H2&_); [vm_compute; reflexivity|].
  rewrite Hr in Hr'. injection Hr' as <-. done.
Defined.
