(* ===== verification/GraphRead.v ===== *)
(** * Editing a journey graph: which graphs the editor opens
    ([graphReadIssue] of [apps/console/src/app/journeys/journey-graph.ts])

    The loops of [graphReadIssue] accept exactly the sound graphs whose steps
    can be shown, and every journey the validator accepts is one of them. *)

From Stdlib Require Import Ascii QArith.
From stdpp Require Import pretty.
From S2P Require Import Prelude JsVal Graph BranchCondition JourneyModel JourneyGraph GraphSound GraphEdits GraphRun GraphTiming JourneyProps.

#[global] Open Scope Z_scope.

Section Read.
Context (fmt : Q → string).

(** What [graphReadIssue] does not look at: ids that are blank or too long *)
Definition named_well (g : GraphDefinition) : Prop :=
  Forall good_id (ids_of g) ∧ Forall (λ e, blank (edge_id e) = false) (g_edges g).

Lemma read_edge_ok g st e :
  List.NoDup (ids_of g) →
  is_Some (read_edge fmt g st e) ↔
    edge_id e ≠ "" ∧ ¬ In (edge_id e) (rd_ids st) ∧ ¬ In (edge_key e) (rd_outputs st)
    ∧ has_out fmt g (source e) (source_port e) ∧ (∀ t, target e = Some t → In t (ids_of g)).
Proof.
  intros Hnd. unfold read_edge, has_out. fold (edge_key e). destruct (find_node g (source e)) as [n|] eqn:En.
  - apply find_node_Some in En as [Hn Hid]; [|done].
    assert ((∃ m, In m (g_nodes g) ∧ gn_id m = source e ∧ In (source_port e) (ports fmt (gn_body m)))
      ↔ In (source_port e) (ports fmt (gn_body n))) as ->.
    { split; [|by exists n]. intros (m&Hm&Hmid&Hp). assert (m = n) as ->; [|done].
      eapply (NoDup_map_eq gn_id); [exact Hnd|done|done|congruence]. }
    assert (∀ (c : bool) (r : ReadState), is_Some (if c then None else Some r) ↔ c = false) as Hif
      by (intros [] r; split; try done; by intros []).
    rewrite Hif, !orb_false_iff, String.eqb_neq, String_in_false, outputs_has_false, negb_false_iff, String_in_spec.
    assert ((match target e with Some t => negb (String_in t (map gn_id (g_nodes g))) | None => false end) = false
      ↔ ∀ t, target e = Some t → In t (ids_of g)) as ->; [|tauto].
    destruct (target e) as [t|]; [|split; [by intros _ t|done]].
    rewrite negb_false_iff, String_in_spec. split; [by intros ? ? [= <-]|auto].
  - split; [by intros []|]. intros (_&_&_&(n&Hn&Hid&_)&_).
    assert (find_node g (source e) = Some n) as E by (apply find_node_Some; done). congruence.
Qed.
Lemma read_edge_state g st e st' :
  read_edge fmt g st e = Some st' → st' = mkRead (rd_ids st ++ [edge_id e]) (rd_outputs st ++ [edge_key e]).
Proof.
  unfold read_edge. destruct (find_node g (source e)); [|done]. destruct (_ || _); [done|]. by intros [= <-].
Qed.

Lemma NoDup_snoc_app {A} (s : list A) x l :
  List.NoDup ((s ++ [x]) ++ l) ↔ ¬ In x s ∧ List.NoDup (s ++ x :: l).
Proof.
  rewrite <- app_assoc. simpl. split; [|by intros []]. intros H. split; [|done].
  apply NoDup_remove_2 in H. intros Hx. apply H, in_app_iff. by left.
Qed.

(** The whole edge loop *)
Lemma read_edges_spec g l st :
  List.NoDup (ids_of g) → List.NoDup (rd_ids st) → List.NoDup (rd_outputs st) →
  match read_edges fmt g st l with
  | Some st' => st' = mkRead (rd_ids st ++ map edge_id l) (rd_outputs st ++ map edge_key l)
  | None => True
  end
  ∧ (is_Some (read_edges fmt g st l) ↔
      List.NoDup (rd_ids st ++ map edge_id l) ∧ List.NoDup (rd_outputs st ++ map edge_key l)
      ∧ ∀ e, In e l → edge_id e ≠ "" ∧ has_out fmt g (source e) (source_port e)
          ∧ (∀ t, target e = Some t → In t (ids_of g))).
Proof.
  intros Hnd. revert st. induction l as [|e l IH]; intros st Hi Ho; simpl.
  - rewrite !app_nil_r. split; [by destruct st|]. split; [done|by eexists].
  - pose proof (read_edge_ok g st e Hnd) as He. destruct (read_edge fmt g st e) as [st1|] eqn:E; simpl.
    + apply read_edge_state in E as ->. destruct He as [(H1&H2&H3&H4&H5) _]; [done|].
      destruct (IH (mkRead (rd_ids st ++ [edge_id e]) (rd_outputs st ++ [edge_key e]))) as [IH1 IH2];
        [simpl; apply List.NoDup_app; [done|repeat constructor; by intros []|by intros x Hx [<-|[]]]..|].
      simpl in IH1, IH2. split; [destruct (read_edges _ _ _ _); [|done]; by rewrite <- !app_assoc in IH1|].
      rewrite IH2, !NoDup_snoc_app. split.
      * intros ([_ ?]&[_ ?]&Hl). split_and!; [done|done|]. intros e' [<-|He']; auto.
      * intros (?&?&Hl). split_and!; auto.
    + split; [done|]. split; [by intros []|]. intros (H1&H2&Hl). destruct He as [_ He]. apply He.
      destruct (Hl e) as (?&?&?); [by left|]. split_and!; [done| | |done|done].
      * intros Hx. apply NoDup_remove_2 in H1. apply H1, in_app_iff. by left.
      * intros Hx. apply NoDup_remove_2 in H2. apply H2, in_app_iff. by left.
Qed.

Lemma omap_none {A B} (f : A → option B) l : head (omap f l) = None ↔ ∀ x, In x l → f x = None.
Proof.
  induction l as [|x l IH]; simpl; [split; [by intros _ ? []|done]|]. destruct (f x) eqn:E; simpl.
  - split; [done|]. intros H. specialize (H x (or_introl eq_refl)). congruence.
  - rewrite IH. split; [intros H y [<-|Hy]; auto|auto].
Qed.

Lemma connected_spec g i o :
  connected fmt g (mkRead i o) = true ↔ ∀ id port, has_out fmt g id port → In (id, port) o.
Proof.
  unfold connected, has_out. simpl. rewrite forallb_forall. split.
  - intros H id port (n&Hn&<-&Hp). specialize (H n Hn). rewrite forallb_forall in H. by apply outputs_has_spec, H.
  - intros H n Hn. rewrite forallb_forall. intros port Hp. apply outputs_has_spec, H. by exists n.
Qed.

(** The two measures of the graph itself *)
Lemma measures_spec g start :
  named_well g → List.NoDup (ids_of g) → In start (ids_of g) →
  (∀ e, In e (g_edges g) → In (source e) (ids_of g)) → (∀ e t, In e (g_edges g) → target e = Some t → In t (ids_of g)) →
  let adjacency := adjacency_of (g_edges g) in
  (length (kahn (targets_of adjacency) (ids_of g) (JMap.keys adjacency)) = length (ids_of g)
     ↔ ∀ x, ¬ tc (edge_rel (g_edges g)) x x)
  ∧ (length (reachableNodes g (Some start)) = length (ids_of g)
     ↔ ∀ x, In x (ids_of g) → rtc (edge_rel (g_edges g)) start x).
Proof.
  intros [Hgood _] Hnd Hstart Hsrc Htgt adjacency. unfold adjacency.
  destruct (adjacency_spec (g_edges g)) as (Hadj&Hk&Hks).
  assert (∀ x, In x (ids_of g) → good_id x) as Hgd by (intros x Hx; rewrite Forall_forall in Hgood; by apply Hgood, list_elem_of_In).
  assert (named (g_edges g)) as Hn.
  { intros e He Ht. by apply (good_not_empty _ (Hgd _ (Htgt e _ He Ht))). }
  assert (∀ x y, edge_rel (g_edges g) x y → In y (ids_of g)) as Hin by (intros x y (e&He&_&Ht); by eapply Htgt).
  split.
  - rewrite kahn_acyclic; [|done|done|apply adjacency_keys|intros s (e&He&<-)%Hks; auto].
    split; intros H x Hx; apply (H x); (eapply tc_mono; [|exact Hx]).
    + intros a b Hab. unfold graph_edge. pose proof Hab as (e&He&Ha&Ht). split; [|split].
      * destruct (in_dec String.string_dec a (JMap.keys (adjacency_of (g_edges g)))) as [|Hno]; [done|].
        apply adjacency_keys in Hno. assert (In b (targets_of (adjacency_of (g_edges g)) a)) as Hb by (by apply heads_rel).
        by rewrite Hno in Hb.
      * by apply (Hin a).
      * by apply heads_rel.
    + intros a b (_&_&Hab). by apply heads_rel.
  - assert (∀ x, In x (reachableNodes g (Some start)) ↔ rtc (edge_rel (g_edges g)) start x) as Hr.
    { intros x. rewrite reachable_spec by done. rewrite truthy_good by auto. naive_solver. }
    assert (List.NoDup (reachableNodes g (Some start))) as Hndr by (apply walk_NoDup; constructor).
    assert (incl (reachableNodes g (Some start)) (ids_of g)) as Hincl.
    { intros x [<-|(y&_&Hy)]%Hr%rtc_inv_r; [done|by eapply Hin]. }
    split.
    + intros Hlen x Hx. apply Hr. assert (incl (ids_of g) (reachableNodes g (Some start))) as Hi
        by (apply NoDup_length_incl; [done|lia|done]).
      by apply Hi.
    + intros Hall. apply Nat.le_antisymm; apply NoDup_incl_length; [done|done|done|]. intros x Hx. by apply Hr, Hall.
Qed.

Lemma graphReadIssue_spec g :
  named_well g →
  (graphReadIssue fmt g = None ↔ sound fmt g ∧ ∀ n, In n (g_nodes g) → node_issue n = None).
Proof.
  intros Hw. pose proof Hw as [Hgood Hblank]. rewrite Forall_forall in Hgood.
  assert (∀ e, In e (g_edges g) → edge_id e ≠ "") as Hne.
  { intros e He E. rewrite Forall_forall in Hblank. assert (blank (edge_id e) = false) as Hb by by apply Hblank, list_elem_of_In.
    by rewrite E in Hb. }
  unfold graphReadIssue. fold (ids_of g). split.
  - destruct (_ || _) eqn:E1; [done|]. rewrite !orb_false_iff, !negb_false_iff in E1. destruct E1 as [[[_ _] Hnd] Hst].
    apply Nat.eqb_eq, dedup_length in Hnd. destruct (head _) eqn:E2; [done|]. rewrite omap_none in E2.
    destruct (read_edges_spec g (g_edges g) (mkRead [] []) Hnd) as [H1 H2]; [constructor..|]. simpl in H1, H2.
    destruct (read_edges _ _ _ _) as [st|]; [|done]. destruct H2 as [(Hei&Hek&He) _]; [by eexists|]. subst st.
    destruct (g_start g) as [s|] eqn:Hs; [|done]. unfold truthy_target in Hst.
    destruct (String.eqb s ""); [done|]. apply String_in_spec in Hst.
    destruct (measures_spec g s Hw Hnd Hst) as [Hkahn Hreach].
    { intros e Hin. destruct (He e Hin) as (_&(n&Hn&<-&_)&_). by apply in_map. }
    { intros e t Hin. by apply (He e Hin). }
    destruct (_ || _) eqn:E3; [done|]. intros _.
    rewrite !orb_false_iff, !negb_false_iff, connected_spec, !Nat.eqb_eq, Hkahn, Hreach in E3. destruct E3 as [[Htot Hac] Hr].
    split; [|done]. split; try done.
    + apply Forall_forall. intros x Hx. by apply Hgood.
    + intros e Hin. by apply (He e Hin).
    + intros e t Hin. by apply (He e Hin).
    + by exists s.
  - intros [Hs Hnodes]. pose proof (so_nodup _ _ Hs) as Hnd. destruct (so_start _ _ Hs) as (s&Hgs&Hst&Hr).
    assert (∀ e, In e (g_edges g) → In (source e) (ids_of g)) as Hsrc.
    { intros e He. destruct (so_source _ _ Hs e He) as (n&Hn&<-&_). by apply in_map. }
    destruct (_ || _) eqn:E1.
    { exfalso. rewrite !orb_true_iff, !negb_true_iff, Nat.eqb_eq, Nat.eqb_neq, existsb_exists in E1.
      destruct E1 as [[[E|(x&Hx&E)]|E]|E].
      - unfold ids_of in Hst. by destruct (g_nodes g).
      - b2p. apply (good_not_empty x); [|done]. by apply Hgood, list_elem_of_In.
      - by apply E, dedup_length.
      - rewrite Hgs, truthy_good in E by (by eapply (sound_good fmt)). by apply String_in_false in E. }
    destruct (head _) eqn:E2.
    { exfalso. apply omap_none in Hnodes. congruence. }
    destruct (read_edges_spec g (g_edges g) (mkRead [] []) Hnd) as [H1 H2]; [constructor..|]. simpl in H1, H2.
    destruct (read_edges _ _ _ _) as [st|].
    2: { exfalso. destruct H2 as [_ H2]. destruct H2 as [? H2]; [|discriminate H2].
      split; [apply Hs|]. split; [apply Hs|]. intros e He. split; [by apply Hne|].
      split; [by apply (so_source _ _ Hs)|intros t; by apply (so_target _ _ Hs)]. }
    subst st. destruct (measures_spec g s Hw Hnd Hst Hsrc (so_target _ _ Hs)) as [Hkahn Hreach]. rewrite Hgs.
    rewrite (proj2 Hkahn), (proj2 Hreach), Nat.eqb_refl; [|done|apply Hs].
    assert (connected fmt g (mkRead (map edge_id (g_edges g)) (map edge_key (g_edges g))) = true) as ->; [|done].
    apply connected_spec. apply Hs.
Qed.

(** ** Accepted journeys *)

Lemma text_given s : text_ok s → given s = true.
Proof. by intros (t&->&_). Qed.
Lemma body_readable n : body_ok (gn_body n) → node_issue n = None.
Proof.
  unfold node_issue. intros H. destruct H as [m Hm| |b Hb| |]; try done; simpl.
  - destruct Hm as [p Ht Hb|e Hs Hh|a Hs Ht]; unfold message_readable; simpl; rewrite !text_given by done; done.
  - unfold branch_readable. destruct (branch_groups _ Hb) as (l&->&_&Hl). rewrite Forall_forall in Hl.
    assert (forallb group_readable l = true) as ->; [|done].
    apply forallb_forall. intros gr Hgr%list_elem_of_In%Hl. unfold group_readable.
    destruct (group_conditions _ Hgr) as (cs&->&_&Hcs). rewrite Forall_forall in Hcs.
    apply forallb_forall. intros c Hc%list_elem_of_In%Hcs. unfold condition_readable.
    destruct Hc as [e op k Hty Hev|key op Hty Hk]; (destruct c; try discriminate Hty);
      rewrite Hty; [rewrite Hev|rewrite Hk]; done.
Qed.

(** C24. The editor opens a graph, whose ids are no blank or overlong names,
    exactly when its steps can be shown and the validator finds nothing wrong
    with it; so every journey the validator accepts can be opened. *)
Theorem readable_graphs g :
  named_well g →
  (graphReadIssue fmt g = None ↔
     validateGraph fmt (definition_of g) = [] ∧ ∀ n, In n (g_nodes g) → node_issue n = None)
  ∧ (hasErrors (validateJourney fmt (definition_of g)) = false → graphReadIssue fmt g = None).
Proof.
  intros Hw. rewrite graphReadIssue_spec, sound_issues by done. split; [done|].
  intros H. pose proof H as [Hg _]%accepted_well_timed. split; [by apply sound_issues, Hg|].
  apply validateJourney_spec in H. intros n Hn. apply body_readable.
  pose proof (jo_steps _ _ H) as Hst. rewrite Forall_forall in Hst. apply (Hst (JourneyGraph.node_of n)).
  unfold nodes_of. simpl. by apply list_elem_of_In, in_map.
Qed.
End Read.

Theorem readable_graphs_witness :
  graphReadIssue (λ _, "") waits_demo = None
  ∧ graphReadIssue (λ _, "") (with_graph waits_demo (g_nodes waits_demo) (Some "later") (g_edges waits_demo)) ≠ None.
Proof.
  split.
  - apply (readable_graphs (λ _, "") waits_demo); [split; repeat constructor; vm_compute; done|vm_compute; reflexivity].
  - intros [H _]%(readable_graphs (λ _, "")); [vm_compute in H; discriminate H|split; repeat constructor; vm_compute; done].
Defined.
