(* ===== verification/InAppDb.v ===== *)
(** * In-app messaging: the shared store

    The tables of [db/postgres/upgrades/0010..0012_in_app_*.sql] that the
    in-app services read and write, the asset directory, and what a request
    reads from its environment: the two clocks, fresh random values and the
    feature switches.

    Each service method is one request run to completion on the store.  The
    methods that take several statements hold row locks inside one PostgreSQL
    transaction, whose [now()] is fixed; every [Date.now()] of a request is a
    separate reading.  Timestamps are microseconds ([Z]), which JavaScript reads
    in milliseconds. *)

From Stdlib Require Import Ascii.
From S2P Require Import Prelude JsVal.

#[global] Open Scope Z_scope.

(** ** Environment of a request *)

Record Env := mkEnv {
  Date_now : nat → Z;      (** the k-th reading of [Date.now()], in ms *)
  pg_now : Z;              (** [now()] of the transaction, in µs *)
  uuid : string;           (** [randomUUID()] *)
  secret : string;         (** [randomBytes(32)] *)
  IN_APP_ENABLED : bool;
  IN_APP_CAMPAIGNS_ENABLED : bool;
  CONTENT_PUBLIC_ORIGIN : string }.

(** [new Date(t).getTime()] of a timestamp column; [Date.parse] of an ISO text *)
Definition getTime (t : Z) : Z := t / 1000.
Definition seconds (n : Z) : Z := n * 1000000.
Definition minutes (n : Z) : Z := seconds (60 * n).
Definition day : Z := seconds 86400.

(** ** Contract types ([campaign-contract.ts]) *)

Inductive Platform := ios | android.
#[global] Instance Platform_eq_dec : EqDecision Platform.
Proof. solve_decision. Defined.

Inductive Trigger :=
| Foreground
| Launch
| Screen (name : string)
| Event (name : string).
#[global] Instance Trigger_eq_dec : EqDecision Trigger.
Proof. solve_decision. Defined.

Definition trigger_type (t : Trigger) : string :=
  match t with Foreground => "foreground" | Launch => "launch" | Screen _ => "screen" | Event _ => "event" end.
(** ["name" in t ? t.name : undefined] *)
Definition trigger_name (t : Trigger) : option string :=
  match t with Screen n | Event n => Some n | _ => None end.

Record CampaignConfig := mkConfig {
  platforms : list Platform; trigger : Trigger; time_zone : option string;
  starts_at : Z; ends_at : Z; cooldown_seconds : Z; max_per_day : Z; max_total : Z; priority : Z }.

(** The bounds of [campaignConfigSchema]. *)
Definition campaignConfig_ok (c : CampaignConfig) : bool :=
  bool_decide (1 <= Z.of_nat (length (platforms c)) <= 2)
  && bool_decide (NoDup (platforms c))
  && (match trigger_name (trigger c) with
      | Some n => negb (blank n) && (js_length n <=? 100)
      | None => true
      end)
  && (60 <=? cooldown_seconds c) && (cooldown_seconds c <=? 31536000)
  && (1 <=? max_per_day c) && (max_per_day c <=? 10)
  && (1 <=? max_total c) && (max_total c <=? 100)
  && (0 <=? priority c) && (priority c <=? 100)
  && (getTime (starts_at c) <? getTime (ends_at c)).

Record Installation := mkInstallation {
  i_id : string; i_tenant : string; i_app : string; i_platform : Platform }.

(** ** Rows *)

Record InstallationRow := mkInstRow {
  ir_id : string; ir_tenant : string; ir_app : string; ir_hash : string;
  ir_platform : Platform; ir_revoked : bool; ir_created_at : Z; ir_last_seen_at : Z }.

Inductive CampaignState := CDraft | CPublished | CPaused.
#[global] Instance CampaignState_eq_dec : EqDecision CampaignState.
Proof. solve_decision. Defined.

Record Campaign := mkCampaign {
  c_id : string; c_tenant : string; c_app : string; c_name : string; c_revision_id : string;
  c_config : CampaignConfig; c_version : Z; c_state : CampaignState; c_created_at : Z }.

Record Publication := mkPublication {
  p_tenant : string; p_app : string; p_campaign_id : string; p_version : Z;
  p_revision_id : string; p_config : CampaignConfig; p_published_by : string }.

Inductive DeliveryState := Reserved | Authorized | Presented | Completed | Failed | Cancelled | Expired.
#[global] Instance DeliveryState_eq_dec : EqDecision DeliveryState.
Proof. solve_decision. Defined.

(** [state IN ('reserved','authorized','presented')] *)
Definition active_state (s : DeliveryState) : bool :=
  match s with Reserved | Authorized | Presented => true | _ => false end.

Record Delivery := mkDelivery {
  d_id : string; d_tenant : string; d_app : string; d_installation_id : string;
  d_campaign_id : string; d_version : Z; d_revision_id : string; d_request_key : string;
  d_session_id : string; d_trigger : Trigger; d_state : DeliveryState; d_expires_at : Z;
  d_authorized_at : option Z; d_created_at : Z }.

Inductive EventKind :=
| KBridgeReady | KContentReady | KPresented | KImpression | KAction | KDismiss | KFailed
| KLog | KHideToday | KCancelled.
#[global] Instance EventKind_eq_dec : EqDecision EventKind.
Proof. solve_decision. Defined.

Record DeliveryEvent := mkEvent {
  e_tenant : string; e_app : string; e_delivery_id : string; e_event_id : string;
  e_kind : EventKind; e_detail : string; e_occurred_at : option Z }.

Record Suppression := mkSuppression {
  s_tenant : string; s_app : string; s_installation_id : string; s_campaign_id : string; s_until_at : Z }.

Record Review := mkReview {
  v_tenant : string; v_app : string; v_revision_id : string; v_platform : Platform;
  v_run_id : string; v_passed : bool; v_reviewed_by : string }.

Record Revision := mkRevision {
  r_id : string; r_tenant : string; r_app : string; r_name : string; r_source_bytes : Z;
  r_artifact_sha256 : string; r_actions : list string }.

(** [artifact.json] in the asset directory *)
Record Artifact := mkArtifact {
  a_html : string; a_actions : list string; a_artifact_sha256 : string; a_source_bytes : Z }.

Inductive DeviceState := Waiting | Claimed | Active | Revoked.
#[global] Instance DeviceState_eq_dec : EqDecision DeviceState.
Proof. solve_decision. Defined.

Record TestDevice := mkDevice {
  t_id : string; t_tenant : string; t_app : string; t_pairing_hash : string;
  t_credential_hash : option string; t_state : DeviceState; t_label : option string;
  t_platform : option Platform; t_sdk_version : option string; t_expires_at : Z;
  t_last_seen_at : option Z; t_created_at : Z }.

Inductive RunState := Queued | Preparing | RPresented | RCompleted | RFailed | RCancelled | RExpired.
#[global] Instance RunState_eq_dec : EqDecision RunState.
Proof. solve_decision. Defined.

(** [state IN ('queued','preparing','presented')] *)
Definition run_active (s : RunState) : bool :=
  match s with Queued | Preparing | RPresented => true | _ => false end.

Record TestRun := mkRun {
  n_id : string; n_tenant : string; n_app : string; n_revision_id : string; n_device_id : string;
  n_request_key : string; n_retry_of : option string; n_state : RunState;
  n_error_code : option string; n_expires_at : Z; n_created_at : Z }.

Record TestEvent := mkTestEvent {
  w_tenant : string; w_app : string; w_run_id : string; w_event_id : string;
  w_kind : string; w_detail : string }.

(** ** The store *)

Record Db := mkDb {
  apps : list (string * string);
  installations : list InstallationRow;
  campaigns : list Campaign;
  publications : list Publication;
  deliveries : list Delivery;
  delivery_events : list DeliveryEvent;
  suppressions : list Suppression;
  reviews : list Review;
  revisions : list Revision;
  files : list (string * string * string * Artifact);
  test_devices : list TestDevice;
  test_runs : list TestRun;
  test_events : list TestEvent }.

Definition set_installations (x : list InstallationRow) (d : Db) : Db :=
  mkDb (apps d) x (campaigns d) (publications d) (deliveries d) (delivery_events d) (suppressions d)
    (reviews d) (revisions d) (files d) (test_devices d) (test_runs d) (test_events d).
Definition set_campaigns (x : list Campaign) (d : Db) : Db :=
  mkDb (apps d) (installations d) x (publications d) (deliveries d) (delivery_events d) (suppressions d)
    (reviews d) (revisions d) (files d) (test_devices d) (test_runs d) (test_events d).
Definition set_publications (x : list Publication) (d : Db) : Db :=
  mkDb (apps d) (installations d) (campaigns d) x (deliveries d) (delivery_events d) (suppressions d)
    (reviews d) (revisions d) (files d) (test_devices d) (test_runs d) (test_events d).
Definition set_deliveries (x : list Delivery) (d : Db) : Db :=
  mkDb (apps d) (installations d) (campaigns d) (publications d) x (delivery_events d) (suppressions d)
    (reviews d) (revisions d) (files d) (test_devices d) (test_runs d) (test_events d).
Definition set_delivery_events (x : list DeliveryEvent) (d : Db) : Db :=
  mkDb (apps d) (installations d) (campaigns d) (publications d) (deliveries d) x (suppressions d)
    (reviews d) (revisions d) (files d) (test_devices d) (test_runs d) (test_events d).
Definition set_suppressions (x : list Suppression) (d : Db) : Db :=
  mkDb (apps d) (installations d) (campaigns d) (publications d) (deliveries d) (delivery_events d) x
    (reviews d) (revisions d) (files d) (test_devices d) (test_runs d) (test_events d).
Definition set_reviews (x : list Review) (d : Db) : Db :=
  mkDb (apps d) (installations d) (campaigns d) (publications d) (deliveries d) (delivery_events d)
    (suppressions d) x (revisions d) (files d) (test_devices d) (test_runs d) (test_events d).
Definition set_revisions (x : list Revision) (d : Db) : Db :=
  mkDb (apps d) (installations d) (campaigns d) (publications d) (deliveries d) (delivery_events d)
    (suppressions d) (reviews d) x (files d) (test_devices d) (test_runs d) (test_events d).
Definition set_files (x : list (string * string * string * Artifact)) (d : Db) : Db :=
  mkDb (apps d) (installations d) (campaigns d) (publications d) (deliveries d) (delivery_events d)
    (suppressions d) (reviews d) (revisions d) x (test_devices d) (test_runs d) (test_events d).
Definition set_test_devices (x : list TestDevice) (d : Db) : Db :=
  mkDb (apps d) (installations d) (campaigns d) (publications d) (deliveries d) (delivery_events d)
    (suppressions d) (reviews d) (revisions d) (files d) x (test_runs d) (test_events d).
Definition set_test_runs (x : list TestRun) (d : Db) : Db :=
  mkDb (apps d) (installations d) (campaigns d) (publications d) (deliveries d) (delivery_events d)
    (suppressions d) (reviews d) (revisions d) (files d) (test_devices d) x (test_events d).
Definition set_test_events (x : list TestEvent) (d : Db) : Db :=
  mkDb (apps d) (installations d) (campaigns d) (publications d) (deliveries d) (delivery_events d)
    (suppressions d) (reviews d) (revisions d) (files d) (test_devices d) (test_runs d) x.

Abbreviation DB := (M Db).

Definition NotFound : exn := NotFoundException "Not Found".
Definition Unauthorized : exn := UnauthorizedException "Unauthorized".

(** [parseInput(schema, input)]: what the schema makes of the input, or a 400. *)
Definition parseInput {A} (parsed : option A) : DB A :=
  some_or_throw parsed (BadRequestException "INVALID_INPUT").

(** PostgreSQL refuses a row that breaks a constraint (23505, 23503). *)
Definition unique_violation : exn := PlainError "23505".
Definition foreign_key_violation : exn := PlainError "23503".

(** [tenant_id=$1 AND app_id=$2] *)
Definition scope (tenant app t a : string) : bool := String.eqb t tenant && String.eqb a app.

(** ** Assets ([assets.service.ts]) *)

Section Assets.
Context (env : Env) (hash : string → string).

Definition requireEnabled : DB unit :=
  throw_if (negb (IN_APP_ENABLED env) || String.eqb (CONTENT_PUBLIC_ORIGIN env) "")
    (ServiceUnavailableException "IN_APP_DISABLED").

Definition requireLive : DB unit :=
  _ ← requireEnabled;
  throw_if (negb (IN_APP_CAMPAIGNS_ENABLED env)) (ServiceUnavailableException "IN_APP_CAMPAIGNS_DISABLED").

(** [workbench.app] *)
Definition app_of (tenant app : string) : DB unit :=
  _ ← requireEnabled;
  db ← get;
  throw_if (negb (existsb (λ '(t, a), scope tenant app t a) (apps db))) NotFound.

(** [/^[\da-f-]{36}$/i] *)
Definition hex_dash (c : Ascii.ascii) : bool :=
  is_digit c || Ascii.eqb c "-" || ((97 <=? byte c) && (byte c <=? 102)) || ((65 <=? byte c) && (byte c <=? 70)).
Definition dir_name (v : string) : bool := (String.length v =? 36)%nat && str_forallb hex_dash v.
Definition dir_ok (tenant app id : string) : bool := dir_name tenant && dir_name app && dir_name id.

Definition file_at (tenant app id : string) (db : Db) : option Artifact :=
  snd <$> List.find (λ '(t, a, i, _), String.eqb t tenant && String.eqb a app && String.eqb i id) (files db).

(** [InAppAssets.read] *)
Definition read (tenant app id : string) : DB Artifact :=
  db ← get;
  r ← some_or_throw (select1 (λ r, scope tenant app (r_tenant r) (r_app r) && String.eqb (r_id r) id) (revisions db)) NotFound;
  _ ← throw_if (negb (dir_ok tenant app id)) NotFound;
  a ← some_or_throw (file_at tenant app id db) (PlainError "ENOENT");
  _ ← throw_if (negb (String.eqb (hash (a_html a)) (r_artifact_sha256 r)))
        (ServiceUnavailableException "ASSET_HASH_MISMATCH");
  mret a.
End Assets.
