(* ===== verification/InAppCampaigns.v ===== *)
(** * In-app campaigns ([apps/api/src/in-app/campaign.service.ts])

    Drafting, reviewing, publishing and pausing a campaign.  A publication is
    an immutable row (campaign, version); every edit and every pause raises the
    campaign's version. *)

From S2P Require Import Prelude JsVal InAppDb.

#[global] Open Scope Z_scope.

(** [z.infer<typeof campaignSchema>], with [expected_version] on an update *)
Record CampaignInput := mkCampaignInput {
  ci_name : string; ci_revision_id : string; ci_config : CampaignConfig }.
Record ReviewInput := mkReviewInput {
  ri_run_id : string; ri_passed : bool; ri_layout_checked : bool; ri_close_checked : bool;
  ri_actions_checked : bool }.

Section Campaigns.
Context (env : Env) (hash : string → string).

(** [tenant_id=$1 AND app_id=$2 AND id=$3] *)
Definition campaign_is (tenant app id : string) (c : Campaign) : bool :=
  scope tenant app (c_tenant c) (c_app c) && String.eqb (c_id c) id.

Definition row_or_throw {A} (o : option A) : DB A := some_or_throw o NotFound.

(** [INSERT INTO in_app_campaigns], a fresh draft of version 1 *)
Definition insert_campaign (c : Campaign) : DB unit :=
  db ← get;
  _ ← throw_if (existsb (λ x, String.eqb (c_id x) (c_id c)) (campaigns db)) unique_violation;
  modify (set_campaigns (campaigns db ++ [c])).

Definition save_update (tenant app id : string) (value : CampaignInput) (expected_version : Z) : DB Campaign :=
  let p c := campaign_is tenant app id c && (c_version c =? expected_version)
             && negb (bool_decide (c_state c = CPublished)) in
  let upd c := mkCampaign (c_id c) (c_tenant c) (c_app c) (ci_name value) (ci_revision_id value)
                 (ci_config value) (c_version c + 1) (c_state c) (c_created_at c) in
  db ← get;
  _ ← modify (set_campaigns (update_where p upd (campaigns db)));
  r ← some_or_throw (select1 p (campaigns db)) (ConflictException "CAMPAIGN_CHANGED_OR_PUBLISHED");
  mret (upd r).

Definition save_create (tenant app : string) (value : CampaignInput) : DB Campaign :=
  transaction (
    db ← get;
    _ ← throw_if (100 <=? row_count (λ c, scope tenant app (c_tenant c) (c_app c)) (campaigns db))
          (ConflictException "CAMPAIGN_LIMIT_100");
    let c := mkCampaign (uuid env) tenant app (ci_name value) (ci_revision_id value) (ci_config value)
               1 CDraft (pg_now env) in
    _ ← insert_campaign c;
    mret c).

(** The input carries [expected_version] when an id is given (the extended schema). *)
Definition save (tenant app : string) (input : option (CampaignInput * Z)) (id : option string)
    : DB Campaign :=
  _ ← app_of env tenant app;
  b ← parseInput input;
  _ ← read hash tenant app (ci_revision_id (fst b));
  match id with
  | Some id => save_update tenant app id (fst b) (snd b)
  | None => save_create tenant app (fst b)
  end.

(** [INSERT ... ON CONFLICT (tenant_id,app_id,revision_id,platform) DO UPDATE] *)
Definition upsert_review (v : Review) : DB unit :=
  let same x := scope (v_tenant v) (v_app v) (v_tenant x) (v_app x)
                && String.eqb (v_revision_id x) (v_revision_id v) && bool_decide (v_platform x = v_platform v) in
  db ← get;
  modify (set_reviews
    (if existsb same (reviews db) then update_where same (λ _, v) (reviews db) else reviews db ++ [v])).

Definition review (tenant app member : string) (input : option ReviewInput) : DB unit :=
  _ ← app_of env tenant app;
  b ← parseInput input;
  db ← get;
  run ← row_or_throw (select1 (λ n, scope tenant app (n_tenant n) (n_app n) && String.eqb (n_id n) (ri_run_id b))
                       (test_runs db));
  device ← row_or_throw (select1 (λ t, scope tenant app (t_tenant t) (t_app t) && String.eqb (t_id t) (n_device_id run))
                          (test_devices db));
  let events := take 200 (select (λ w, scope tenant app (w_tenant w) (w_app w)
                                       && String.eqb (w_run_id w) (ri_run_id b)) (test_events db)) in
  _ ← throw_if
        (ri_passed b
         && (negb (bool_decide (n_state run = RCompleted))
             || negb (ri_layout_checked b) || negb (ri_close_checked b) || negb (ri_actions_checked b)
             || negb (existsb (λ w, String.eqb (w_kind w) "impression") events)
             || negb (existsb (λ w, String.eqb (w_kind w) "dismiss" && String.eqb (w_detail w) "close_button") events)))
        (BadRequestException "REVIEW_REQUIRES_COMPLETED_NATIVE_CLOSE_AND_CHECKLIST");
  platform ← some_or_throw (t_platform device) (PlainError "23502");
  upsert_review (mkReview tenant app (n_revision_id run) platform (n_id run) (ri_passed b) member).

(** [INSERT INTO in_app_publications]: the key is (campaign, version) *)
Definition insert_publication (p : Publication) : DB unit :=
  db ← get;
  _ ← throw_if (existsb (λ x, scope (p_tenant p) (p_app p) (p_tenant x) (p_app x)
                              && String.eqb (p_campaign_id x) (p_campaign_id p) && (p_version x =? p_version p))
                  (publications db)) unique_violation;
  modify (set_publications (publications db ++ [p])).

(** The publishing branch of [transition]. *)
Definition publish_checks (tenant app member : string) (c : Campaign) : DB unit :=
  db ← get;
  let config := c_config c in
  _ ← throw_if (getTime (ends_at config) <=? Date_now env 0) (BadRequestException "CAMPAIGN_ENDED");
  let passed := select (λ v, scope tenant app (v_tenant v) (v_app v)
                             && String.eqb (v_revision_id v) (c_revision_id c) && v_passed v) (reviews db) in
  _ ← throw_if (negb (forallb (λ p, existsb (λ r, bool_decide (v_platform r = p)) passed) (platforms config)))
        (BadRequestException "PLATFORM_REVIEW_REQUIRED");
  _ ← read hash tenant app (c_revision_id c);
  insert_publication (mkPublication tenant app (c_id c) (c_version c) (c_revision_id c) config member).

Definition with_state (publish : bool) (c : Campaign) : Campaign :=
  mkCampaign (c_id c) (c_tenant c) (c_app c) (c_name c) (c_revision_id c) (c_config c)
    (c_version c + if publish then 0 else 1) (if publish then CPublished else CPaused) (c_created_at c).

Definition set_state (s : DeliveryState) (d : Delivery) : Delivery :=
  mkDelivery (d_id d) (d_tenant d) (d_app d) (d_installation_id d) (d_campaign_id d) (d_version d)
    (d_revision_id d) (d_request_key d) (d_session_id d) (d_trigger d) s (d_expires_at d)
    (d_authorized_at d) (d_created_at d).

(** [UPDATE in_app_deliveries SET state='cancelled' ... AND campaign_id=$3 AND state IN (...)] *)
Definition cancel_deliveries (tenant app campaign : string) : DB unit :=
  db ← get;
  modify (set_deliveries (update_where
    (λ d, scope tenant app (d_tenant d) (d_app d) && String.eqb (d_campaign_id d) campaign
          && active_state (d_state d)) (set_state Cancelled) (deliveries db))).

Definition transition (tenant app id member : string) (input : option Z) (publish : bool) : DB Campaign :=
  _ ← app_of env tenant app;
  _ ← (if publish then requireLive env else mret tt);
  expected_version ← parseInput input;
  transaction (
    db ← get;
    c ← row_or_throw (select1 (campaign_is tenant app id) (campaigns db));
    _ ← throw_if (negb (c_version c =? expected_version)) (ConflictException "CAMPAIGN_CHANGED");
    if publish && bool_decide (c_state c = CPublished) then mret c
    else
      _ ← (if publish then publish_checks tenant app member c else mret tt);
      db ← get;
      _ ← modify (set_campaigns (update_where (campaign_is tenant app id) (with_state publish) (campaigns db)));
      _ ← (if publish then mret tt else cancel_deliveries tenant app id);
      mret (with_state publish c)).
End Campaigns.
