(* ===== verification/InAppDelivery.v ===== *)
(** * In-app deliveries ([apps/api/src/in-app/delivery.service.ts])

    An SDK installation registers, asks for a decision (which may reserve a
    delivery), authorises it just before display, polls its status, and reports
    events.  The states of a delivery are reserved, authorized, presented, and
    the final completed, failed, cancelled and expired. *)

From Stdlib Require Import Ascii.
From S2P Require Import Prelude JsVal InAppDb InAppCampaigns.

#[global] Open Scope Z_scope.

Definition cancellationReasons : list string :=
  ["background"; "context_changed"; "screen_changed"; "session_ended"; "disabled"; "host_destroyed";
   "host_blocked"; "campaign_paused"; "campaign_updated"; "campaign_expired"; "delivery_inactive";
   "display_timeout"; "launch_timeout"].

(** [z.infer<typeof decisionSchema>] *)
Record DecisionInput := mkDecision {
  di_request_key : string; di_session_id : string; di_trigger : Trigger }.
Record EventInput := mkEventInput {
  ei_event_id : string; ei_kind : EventKind; ei_detail : string; ei_occurred_at : option Z }.

(** What [artifact] sends for a delivery. *)
Record DeliveryPayload := mkPayload {
  dp_time_zone : string; dp_id : string; dp_revision_id : string; dp_campaign_id : string;
  dp_expires_at : Z; dp_html : string; dp_actions : list string; dp_artifact_sha256 : string }.

Inductive StatusReason :=
| SCampaignPaused | SCampaignUpdated | SCampaignExpired | SDisplayTimeout | SDeliveryInactive.

Section Delivery.
Context (env : Env) (hash : string → string).
(** PostgreSQL's calendar: the first instant of the day of [t] in a zone, and of the next day. *)
Context (day_start next_day : string → Z → Z).

(** ** Installations *)

Definition installation_is (i : Installation) (r : InstallationRow) : bool :=
  scope (i_tenant i) (i_app i) (ir_tenant r) (ir_app r) && String.eqb (ir_id r) (i_id i).

Definition register (tenant app : string) (input : option Platform) : DB (string * string) :=
  _ ← requireLive env;
  platform ← parseInput input;
  transaction (
    db ← get;
    _ ← throw_if (10000 <=? row_count (λ r, scope tenant app (ir_tenant r) (ir_app r)
                                            && (pg_now env - day <? ir_created_at r)) (installations db))
          (ConflictException "INSTALLATION_DAILY_LIMIT");
    _ ← throw_if (existsb (λ r, String.eqb (ir_id r) (uuid env)) (installations db)) unique_violation;
    _ ← modify (set_installations (installations db ++
          [mkInstRow (uuid env) tenant app (hash (secret env)) platform false (pg_now env) (pg_now env)]));
    mret (uuid env, uuid env +:+ "." +:+ secret env)).

(** [z.string().uuid()] *)
Context (is_uuid : string → bool).

Definition auth (tenant app token : string) : DB Installation :=
  _ ← requireLive env;
  match split_on "." token with
  | [id; sec] =>
      _ ← throw_if (negb (is_uuid id) || String.eqb sec "" || (100 <? js_length token)) Unauthorized;
      db ← get;
      r ← some_or_throw (select1 (λ r, scope tenant app (ir_tenant r) (ir_app r) && String.eqb (ir_id r) id
                                       && String.eqb (ir_hash r) (hash sec) && negb (ir_revoked r))
                          (installations db)) Unauthorized;
      mret (mkInstallation (ir_id r) tenant app (ir_platform r))
  | _ => throw Unauthorized
  end.

(** ** Rows of an installation *)

Definition delivery_of (i : Installation) (d : Delivery) : bool :=
  scope (i_tenant i) (i_app i) (d_tenant d) (d_app d) && String.eqb (d_installation_id d) (i_id i).
Definition delivery_is (i : Installation) (id : string) (d : Delivery) : bool :=
  delivery_of i d && String.eqb (d_id d) id.

Definition publication_config (tenant app campaign : string) (version : Z) (db : Db) : option CampaignConfig :=
  p_config <$> select1 (λ p, scope tenant app (p_tenant p) (p_app p)
                             && String.eqb (p_campaign_id p) campaign && (p_version p =? version))
                 (publications db).

(** [config.time_zone ?? "UTC"] *)
Definition zone_of (c : CampaignConfig) : string := default "UTC" (time_zone c).
(** [(publication?.config.time_zone ?? "UTC")] *)
Definition publication_zone (p : option CampaignConfig) : string := default "UTC" (p ≫= time_zone).

Definition artifact (i : Installation) (d : Delivery) : DB DeliveryPayload :=
  a ← read hash (i_tenant i) (i_app i) (d_revision_id d);
  db ← get;
  mret (mkPayload (publication_zone (publication_config (i_tenant i) (i_app i) (d_campaign_id d) (d_version d) db))
          (d_id d) (d_revision_id d) (d_campaign_id d) (d_expires_at d)
          (a_html a) (a_actions a) (a_artifact_sha256 a)).

(** ** Deciding *)

Definition set_seen (r : InstallationRow) : InstallationRow :=
  mkInstRow (ir_id r) (ir_tenant r) (ir_app r) (ir_hash r) (ir_platform r) (ir_revoked r)
    (ir_created_at r) (pg_now env).

(** The two UPDATEs at the start of a decision. *)
Definition touch_and_expire (i : Installation) (db : Db) : Db :=
  let db := set_installations (update_where (installation_is i) set_seen (installations db)) db in
  set_deliveries (update_where (λ d, delivery_of i d && active_state (d_state d) && (d_expires_at d <=? pg_now env))
                    (set_state Expired) (deliveries db)) db.

(** [ORDER BY priority DESC, created_at, id LIMIT 100] *)
Definition before (a b : Campaign) : bool :=
  (priority (c_config b) <? priority (c_config a))
  || ((priority (c_config a) =? priority (c_config b))
      && ((c_created_at a <? c_created_at b)
          || ((c_created_at a =? c_created_at b) && String.leb (c_id a) (c_id b)))).
Fixpoint insert_sorted (c : Campaign) (l : list Campaign) : list Campaign :=
  match l with
  | [] => [c]
  | x :: l' => if before c x then c :: l else x :: insert_sorted c l'
  end.
Definition order (l : list Campaign) : list Campaign := foldr insert_sorted [] l.
Definition candidates (tenant app : string) (db : Db) : list Campaign :=
  take 100 (order (select (λ c, scope tenant app (c_tenant c) (c_app c)
                                && bool_decide (c_state c = CPublished)) (campaigns db))).

(** The authorised deliveries of a campaign to the installation. *)
Definition authorized_of (i : Installation) (campaign : string) (d : Delivery) : bool :=
  delivery_of i d && String.eqb (d_campaign_id d) campaign
  && bool_decide (is_Some (d_authorized_at d)).

Definition total (i : Installation) (campaign : string) (db : Db) : Z :=
  row_count (authorized_of i campaign) (deliveries db).
Definition today (i : Installation) (campaign zone : string) (db : Db) : Z :=
  row_count (λ d, authorized_of i campaign d
    && match d_authorized_at d with Some t => day_start zone (pg_now env) <=? t | None => false end) (deliveries db).
Definition in_session (i : Installation) (campaign session : string) (db : Db) : Z :=
  row_count (λ d, authorized_of i campaign d && String.eqb (d_session_id d) session) (deliveries db).
(** [max(authorized_at)] *)
Definition last_authorized (i : Installation) (campaign : string) (db : Db) : option Z :=
  foldr (λ d m, match d_authorized_at d, m with
                | Some t, Some x => Some (Z.max t x)
                | Some t, None => Some t
                | None, m => m
                end) None (select (authorized_of i campaign) (deliveries db)).

(** The first [continue] of the candidate loop. *)
Definition not_targeted (i : Installation) (b : DecisionInput) (supportsTimeZone : bool) (now : Z)
    (cfg : CampaignConfig) : bool :=
  negb (bool_decide (i_platform i ∈ platforms cfg))
  || (negb supportsTimeZone && negb (String.eqb (zone_of cfg) "UTC"))
  || (now <? getTime (starts_at cfg))
  || (getTime (ends_at cfg) <=? now)
  || negb (String.eqb (trigger_type (trigger cfg)) (trigger_type (di_trigger b)))
  || (match trigger_name (trigger cfg) with
      | Some n => negb (bool_decide (trigger_name (di_trigger b) = Some n))
      | None => false
      end).

Definition suppressed (i : Installation) (campaign : string) (db : Db) : bool :=
  existsb (λ s, scope (i_tenant i) (i_app i) (s_tenant s) (s_app s) && String.eqb (s_installation_id s) (i_id i)
                && String.eqb (s_campaign_id s) campaign && (pg_now env <? s_until_at s)) (suppressions db).

(** The frequency [continue]. *)
Definition capped (i : Installation) (b : DecisionInput) (now : Z) (c : Campaign) (db : Db) : bool :=
  let cfg := c_config c in
  (max_total cfg <=? total i (c_id c) db)
  || (max_per_day cfg <=? today i (c_id c) (zone_of cfg) db)
  || (0 <? in_session i (c_id c) (di_session_id b) db)
  || (match last_authorized i (c_id c) db with
      | Some t => now <? getTime t + cooldown_seconds cfg * 1000
      | None => false
      end).

(** Anything authorised for the installation in the last 30 seconds *)
Definition recently (i : Installation) (db : Db) : bool :=
  existsb (λ d, delivery_of i d
    && match d_authorized_at d with Some t => pg_now env - seconds 30 <? t | None => false end) (deliveries db).

(** The candidate loop: the campaign to reserve, or none.  The k-th candidate
    takes the k-th reading of the clock. *)
Fixpoint choose (i : Installation) (b : DecisionInput) (supportsTimeZone : bool) (db : Db)
    (k : nat) (l : list Campaign) : option Campaign :=
  match l with
  | [] => None
  | c :: l =>
      let now := Date_now env k in
      if not_targeted i b supportsTimeZone now (c_config c) || suppressed i (c_id c) db || capped i b now c db
      then choose i b supportsTimeZone db (S k) l
      else if recently i db then None
      else Some c
  end.

Definition publication_is (tenant app campaign : string) (version : Z) (p : Publication) : bool :=
  scope tenant app (p_tenant p) (p_app p) && String.eqb (p_campaign_id p) campaign && (p_version p =? version).

(** [INSERT INTO in_app_deliveries] with its defaults and constraints *)
Definition insert_delivery (d : Delivery) : DB unit :=
  db ← get;
  _ ← throw_if (existsb (λ x, String.eqb (d_id x) (d_id d)
          || (scope (d_tenant d) (d_app d) (d_tenant x) (d_app x)
              && String.eqb (d_installation_id x) (d_installation_id d)
              && (String.eqb (d_request_key x) (d_request_key d) || active_state (d_state x)))) (deliveries db))
        unique_violation;
  _ ← throw_if (negb (existsb (publication_is (d_tenant d) (d_app d) (d_campaign_id d) (d_version d)) (publications db)))
        foreign_key_violation;
  modify (set_deliveries (deliveries db ++ [d])).

Definition reserve (i : Installation) (b : DecisionInput) (c : Campaign) : Delivery :=
  mkDelivery (uuid env) (i_tenant i) (i_app i) (i_id i) (c_id c) (c_version c) (c_revision_id c)
    (di_request_key b) (di_session_id b) (di_trigger b) Reserved (pg_now env + seconds 30) None (pg_now env).

(** The transaction of [decide]: a delivery to show, if any. *)
Definition decide_tx (i : Installation) (b : DecisionInput) (supportsTimeZone : bool) : DB (option Delivery) :=
  transaction (
    db ← get;
    _ ← throw_if (negb (existsb (λ r, installation_is i r && negb (ir_revoked r)) (installations db))) Unauthorized;
    _ ← modify (touch_and_expire i);
    db ← get;
    match select1 (λ d, delivery_of i d && String.eqb (d_request_key d) (di_request_key b)) (deliveries db) with
    | Some old =>
        _ ← throw_if (negb (String.eqb (d_session_id old) (di_session_id b))
                      || negb (String.eqb (trigger_type (d_trigger old)) (trigger_type (di_trigger b)))
                      || negb (bool_decide (trigger_name (d_trigger old) = trigger_name (di_trigger b))))
              (ConflictException "REQUEST_KEY_REUSED");
        let zone := publication_zone (publication_config (i_tenant i) (i_app i) (d_campaign_id old) (d_version old) db) in
        mret (if bool_decide (d_state old = Reserved) && (supportsTimeZone || String.eqb zone "UTC")
              then Some old else None)
    | None =>
        if existsb (λ d, delivery_of i d && active_state (d_state d)) (deliveries db) then mret None
        else
          match choose i b supportsTimeZone db 0 (candidates (i_tenant i) (i_app i) db) with
          | None => mret None
          | Some c =>
              let d := reserve i b c in
              _ ← insert_delivery d;
              mret (Some d)
          end
    end).

Definition decide (i : Installation) (input : option DecisionInput) (supportsTimeZone : bool)
    : DB (option DeliveryPayload) :=
  b ← parseInput input;
  d ← decide_tx i b supportsTimeZone;
  match d with
  | Some d => p ← artifact i d; mret (Some p)
  | None => mret None
  end.

(** ** Authorising *)

Definition set_authorized (c : Campaign) (d : Delivery) : Delivery :=
  mkDelivery (d_id d) (d_tenant d) (d_app d) (d_installation_id d) (d_campaign_id d) (d_version d)
    (d_revision_id d) (d_request_key d) (d_session_id d) (d_trigger d) Authorized
    (Z.min (pg_now env + minutes 5) (ends_at (c_config c))) (Some (pg_now env)) (d_created_at d).

Definition authorize (i : Installation) (id : string) : DB Z :=
  transaction (
    db ← get;
    _ ← throw_if (negb (existsb (λ r, installation_is i r && negb (ir_revoked r)) (installations db))) Unauthorized;
    d ← some_or_throw (select1 (delivery_is i id) (deliveries db)) NotFound;
    c ← some_or_throw (select1 (campaign_is (i_tenant i) (i_app i) (d_campaign_id d)) (campaigns db))
          (PlainError "TypeError");
    _ ← throw_if
          (negb (bool_decide (c_state c = CPublished))
           || negb (c_version c =? d_version d)
           || (Date_now env 0 <? getTime (starts_at (c_config c)))
           || (getTime (ends_at (c_config c)) <=? Date_now env 1)
           || (getTime (d_expires_at d) <=? Date_now env 2)
           || negb (bool_decide (d_state d = Reserved) || bool_decide (d_state d = Authorized)))
          (ConflictException "DELIVERY_NOT_ELIGIBLE");
    if bool_decide (d_state d = Authorized) then mret (d_expires_at d)
    else
      _ ← modify (set_deliveries (update_where (delivery_is i id) (set_authorized c) (deliveries db)));
      mret (d_expires_at (set_authorized c d))).

(** ** Status *)

Definition showing (s : DeliveryState) : bool := bool_decide (s = Authorized) || bool_decide (s = Presented).

Definition status (i : Installation) (id : string) : DB (option StatusReason * bool) :=
  db ← get;
  d ← some_or_throw (select1 (delivery_is i id) (deliveries db)) NotFound;
  c ← some_or_throw (select1 (campaign_is (i_tenant i) (i_app i) (d_campaign_id d)) (campaigns db)) NotFound;
  let reason :=
    if negb (bool_decide (c_state c = CPublished)) then Some SCampaignPaused
    else if negb (d_version d =? c_version c) then Some SCampaignUpdated
    else if getTime (ends_at (c_config c)) <=? Date_now env 0 then Some SCampaignExpired
    else if getTime (d_expires_at d) <=? Date_now env 1 then Some SDisplayTimeout
    else if negb (showing (d_state d)) then Some SDeliveryInactive
    else None in
  let active :=
    showing (d_state d) && bool_decide (c_state c = CPublished) && (d_version d =? c_version c)
    && (Date_now env 2 <? getTime (d_expires_at d)) && (Date_now env 3 <? getTime (ends_at (c_config c))) in
  mret (reason, active).

(** ** Events *)

Definition event_of (i : Installation) (id : string) (e : DeliveryEvent) : bool :=
  scope (i_tenant i) (i_app i) (e_tenant e) (e_app e) && String.eqb (e_delivery_id e) id.

Definition needs_presented (k : EventKind) : bool :=
  match k with KImpression | KAction | KHideToday | KDismiss => true | _ => false end.
(** The partial unique index [in_app_delivery_events_once] *)
Definition once_kind (k : EventKind) : bool :=
  match k with KPresented | KImpression | KHideToday => true | _ => false end.

(** [INSERT INTO in_app_delivery_events ... ON CONFLICT DO NOTHING] *)
Definition insert_event (e : DeliveryEvent) : DB unit :=
  db ← get;
  modify (set_delivery_events
    (if existsb (λ x, scope (e_tenant e) (e_app e) (e_tenant x) (e_app x)
                      && String.eqb (e_delivery_id x) (e_delivery_id e)
                      && (String.eqb (e_event_id x) (e_event_id e)
                          || (once_kind (e_kind e) && bool_decide (e_kind x = e_kind e)))) (delivery_events db)
     then delivery_events db else delivery_events db ++ [e])).

(** [INSERT INTO in_app_suppressions ... DO UPDATE SET until_at=GREATEST(...)] *)
Definition upsert_suppression (s : Suppression) : DB unit :=
  let same x := scope (s_tenant s) (s_app s) (s_tenant x) (s_app x)
                && String.eqb (s_installation_id x) (s_installation_id s)
                && String.eqb (s_campaign_id x) (s_campaign_id s) in
  let later x := mkSuppression (s_tenant x) (s_app x) (s_installation_id x) (s_campaign_id x)
                   (Z.max (s_until_at x) (s_until_at s)) in
  db ← get;
  modify (set_suppressions
    (if existsb same (suppressions db) then update_where same later (suppressions db) else suppressions db ++ [s])).

(** [closed] *)
Definition is_closed (now : Z) (d : Delivery) : bool :=
  negb (active_state (d_state d)) || (getTime (d_expires_at d) <=? now).

Definition next_state (now : Z) (kind : EventKind) (d : Delivery) : DeliveryState :=
  if is_closed now d then
    if (getTime (d_expires_at d) <=? now) && active_state (d_state d) then Expired else d_state d
  else match kind with
       | KPresented => Presented
       | KDismiss => Completed
       | KCancelled => Cancelled
       | KFailed => Failed
       | _ => d_state d
       end.

(** The checks between the replay test and the INSERT. *)
Definition event_checks (i : Installation) (id : string) (b : EventInput) (d : Delivery) (now : Z) : DB unit :=
  let occurred := match ei_occurred_at b with Some t => getTime t | None => now end in
  _ ← throw_if (bool_decide (ei_kind b = KCancelled) && negb (String_in (ei_detail b) cancellationReasons))
        (ConflictException "INVALID_CANCELLATION_REASON");
  _ ← throw_if (bool_decide (is_Some (ei_occurred_at b))
                && ((occurred <? now - 7 * 86400000) || (now + 120000 <? occurred)
                    || (occurred <? getTime (d_created_at d) - 120000)
                    || (getTime (d_expires_at d) + 120000 <? occurred)))
        (ConflictException "EVENT_TIME_INVALID");
  _ ← throw_if (is_closed now d && negb (bool_decide (is_Some (ei_occurred_at b)))) (ConflictException "DELIVERY_CLOSED");
  let authorized := bool_decide (is_Some (d_authorized_at d)) in
  _ ← throw_if (bool_decide (ei_kind b = KPresented) && negb authorized) (ConflictException "NOT_AUTHORIZED");
  db ← get;
  _ ← throw_if (needs_presented (ei_kind b)
                && (negb authorized
                    || negb (existsb (λ e, event_of i id e && bool_decide (e_kind e = KPresented)) (delivery_events db))))
        (ConflictException "NOT_PRESENTED");
  _ ← throw_if (200 <=? row_count (event_of i id) (delivery_events db)) (ConflictException "EVENT_LIMIT");
  if bool_decide (ei_kind b = KAction) then
    r ← some_or_throw (select1 (λ r, scope (i_tenant i) (i_app i) (r_tenant r) (r_app r)
                                     && String.eqb (r_id r) (d_revision_id d)) (revisions db)) (PlainError "TypeError");
    throw_if (negb (String_in (ei_detail b) (r_actions r))) (ConflictException "UNKNOWN_ACTION")
  else mret tt.

(** [hide_today]: until midnight in the zone of the publication that was shown *)
Definition hide_until (i : Installation) (d : Delivery) (occurred now : Z) : DB unit :=
  db ← get;
  match publication_config (i_tenant i) (i_app i) (d_campaign_id d) (d_version d) db with
  | Some cfg =>
      let until := next_day (zone_of cfg) (occurred * 1000) in
      if now <? getTime until then
        upsert_suppression (mkSuppression (i_tenant i) (i_app i) (i_id i) (d_campaign_id d) until)
      else mret tt
  | None => mret tt
  end.

Definition event (i : Installation) (id : string) (input : option EventInput) : DB unit :=
  b ← parseInput input;
  transaction (
    db ← get;
    d ← some_or_throw (select1 (delivery_is i id) (deliveries db)) NotFound;
    match select1 (λ e, event_of i id e && String.eqb (e_event_id e) (ei_event_id b)) (delivery_events db) with
    | Some old =>
        throw_if (negb (bool_decide (e_kind old = ei_kind b)) || negb (String.eqb (e_detail old) (ei_detail b))
                  || match ei_occurred_at b, e_occurred_at old with
                     | Some t, Some t' => negb (getTime t' =? getTime t)
                     | _, _ => false
                     end) (ConflictException "EVENT_ID_REUSED")
    | None =>
        let now := Date_now env 0 in
        _ ← event_checks i id b d now;
        _ ← insert_event (mkEvent (i_tenant i) (i_app i) id (ei_event_id b) (ei_kind b) (ei_detail b) (ei_occurred_at b));
        _ ← (if bool_decide (ei_kind b = KHideToday) then
               hide_until i d (match ei_occurred_at b with Some t => getTime t | None => now end) now
             else mret tt);
        db ← get;
        modify (set_deliveries (update_where (delivery_is i id) (set_state (next_state now (ei_kind b) d)) (deliveries db)))
    end).

(** ** Revoking an installation *)

Definition set_revoked (r : InstallationRow) : InstallationRow :=
  mkInstRow (ir_id r) (ir_tenant r) (ir_app r) (ir_hash r) (ir_platform r) true (ir_created_at r) (ir_last_seen_at r).

Definition revoke (i : Installation) : DB unit :=
  db ← get;
  _ ← modify (set_installations (update_where (installation_is i) set_revoked (installations db)));
  db ← get;
  modify (set_deliveries (update_where (λ d, delivery_of i d && active_state (d_state d)) (set_state Cancelled) (deliveries db))).
End Delivery.
