(* ===== verification/InAppInv.v ===== *)
(** * In-app messaging: how a request changes the store

    The effect of each service method on the tables, the life of a delivery as
    a transition relation, and the invariant of the reachable stores. *)

From S2P Require Import Prelude JsVal InAppDb InAppCampaigns InAppDelivery.

#[global] Open Scope Z_scope.

(** ** The life of a delivery *)

(** The state machine of a delivery: reserved, authorized, presented, then one
    of the final states; an active delivery may end at any time. *)
Inductive moves : DeliveryState → DeliveryState → Prop :=
| move_stay s : moves s s
| move_authorize : moves Reserved Authorized
| move_present : moves Authorized Presented
| move_end s s' : active_state s = true → active_state s' = false → moves s s'.

(** A row after a request: the same delivery, moved along the machine; the time
    of authorisation is set once, by the move to authorized. *)
Record evolves (d d' : Delivery) : Prop := {
  ev_id : d_id d' = d_id d;
  ev_tenant : d_tenant d' = d_tenant d;
  ev_app : d_app d' = d_app d;
  ev_installation : d_installation_id d' = d_installation_id d;
  ev_campaign : d_campaign_id d' = d_campaign_id d;
  ev_version : d_version d' = d_version d;
  ev_revision : d_revision_id d' = d_revision_id d;
  ev_request : d_request_key d' = d_request_key d;
  ev_session : d_session_id d' = d_session_id d;
  ev_moves : moves (d_state d) (d_state d');
  ev_authorized :
    (d_authorized_at d' = d_authorized_at d ∧ (d_state d = Reserved → d_state d' ≠ Authorized))
    ∨ (d_state d = Reserved ∧ d_state d' = Authorized ∧ is_Some (d_authorized_at d')) }.

Lemma evolves_refl d : evolves d d.
Proof. split; try done; [constructor|]. left. split; [done|]. intros H. by rewrite H. Qed.

Lemma evolves_set_state s d : moves (d_state d) s → s ≠ Authorized → evolves d (set_state s d).
Proof. intros H Hs. split; try done. by left. Qed.
Lemma evolves_keep d : evolves d (set_state (d_state d) d).
Proof. split; try done; [constructor|]. left. split; [done|]. intros H. simpl. by rewrite H. Qed.

Lemma evolves_authorized env c d : d_state d = Reserved → evolves d (set_authorized env c d).
Proof. intros H. split; try done; simpl; rewrite H; [constructor|by right; split_and!; eauto]. Qed.

Lemma Forall2_update_where {A} (R : A → A → Prop) (p : A → bool) (f : A → A) l :
  (∀ x, R x x) → (∀ x, In x l → p x = true → R x (f x)) → Forall2 R l (update_where p f l).
Proof.
  intros Hr Hf. unfold update_where. induction l as [|x l IH]; simpl; [constructor|].
  constructor; [|apply IH; intros; apply Hf; [by right|done]].
  destruct (p x) eqn:E; [apply Hf; [by left|done]|done].
Qed.

Lemma Forall2_self {A} (R : A → A → Prop) l : (∀ x, R x x) → Forall2 R l l.
Proof. intros H. induction l; by constructor. Qed.

(** ** Read-only parts *)

Lemma readonly_parseInput {A} (o : option A) : readonly (parseInput o).
Proof. apply readonly_some. Qed.
Lemma readonly_row {A} (o : option A) : readonly (row_or_throw o).
Proof. apply readonly_some. Qed.
#[export] Hint Resolve readonly_parseInput readonly_row : nudgeon.

Lemma readonly_requireEnabled env : readonly (requireEnabled env).
Proof. unfold requireEnabled. auto with nudgeon. Qed.
#[export] Hint Resolve readonly_requireEnabled : nudgeon.
Lemma readonly_requireLive env : readonly (requireLive env).
Proof. unfold requireLive. auto with nudgeon. Qed.
Lemma readonly_app_of env t a : readonly (app_of env t a).
Proof. unfold app_of. apply readonly_bind; intros; auto with nudgeon. Qed.
Lemma readonly_read hash t a id : readonly (read hash t a id).
Proof. unfold read. repeat (apply readonly_bind; intros; auto with nudgeon). Qed.
#[export] Hint Resolve readonly_requireLive readonly_app_of readonly_read : nudgeon.
Lemma readonly_artifact hash i d : readonly (artifact hash i d).
Proof. unfold artifact. repeat (apply readonly_bind; intros; auto with nudgeon). Qed.
Lemma readonly_event_checks i id b d now : readonly (event_checks i id b d now).
Proof.
  unfold event_checks. repeat (apply readonly_bind; intros; auto with nudgeon).
  case_match; auto with nudgeon.
Qed.
#[export] Hint Resolve readonly_artifact readonly_event_checks : nudgeon.

(** ** What a decision writes *)

Section Effects.
Context (env : Env) (hash : string → string) (day_start next_day : string → Z → Z).

Lemma touch_evolves i db : Forall2 evolves (deliveries db) (deliveries (touch_and_expire env i db)).
Proof.
  apply Forall2_update_where; [apply evolves_refl|]. intros d _ Hd. b2p.
  by apply evolves_set_state; [constructor|].
Qed.

Lemma choose_In i b tz db k l c :
  choose env day_start i b tz db k l = Some c →
  In c l ∧ total i (c_id c) db < max_total (c_config c) ∧ recently env i db = false.
Proof.
  revert k. induction l as [|x l IH]; intros k; simpl; [done|].
  destruct (_ || _ || _) eqn:E; [intros H; apply IH in H as (?&?&?); auto|].
  destruct (recently env i db) eqn:Er; [done|]. intros [= <-]. b2p.
  split; [by left|]. split; [|done]. unfold capped in *. b2p. lia.
Qed.

Lemma order_In l c : In c (order l) ↔ In c l.
Proof.
  unfold order. induction l as [|x l IH]; simpl; [done|]. rewrite <- IH.
  generalize (foldr insert_sorted [] l) as k. induction k as [|y k IHk]; simpl; [done|].
  destruct (before x y); simpl; [done|]. rewrite IHk. tauto.
Qed.

Lemma candidates_In t a db c :
  In c (candidates t a db) →
  In c (campaigns db) ∧ scope t a (c_tenant c) (c_app c) = true ∧ c_state c = CPublished.
Proof.
  unfold candidates. intros Hc.
  assert (In c (order (select (λ c, scope t a (c_tenant c) (c_app c)
    && bool_decide (c_state c = CPublished)) (campaigns db)))) as Hin.
  { rewrite <- (take_drop 100 (order _)). apply in_app_iff. by left. }
  apply order_In, select_In in Hin as [? Hp]. b2p. done.
Qed.

(** The rows of other tables are left alone. *)
Record same_but_deliveries (db db' : Db) : Prop := {
  sb_campaigns : campaigns db' = campaigns db;
  sb_publications : publications db' = publications db;
  sb_events : delivery_events db' = delivery_events db }.

(** A fresh reservation next to the rows [l]. *)
Record reserves (db : Db) (l : list Delivery) (d : Delivery) : Prop := {
  rs_state : d_state d = Reserved;
  rs_authorized : d_authorized_at d = None;
  rs_id : ∀ x, In x l → d_id x ≠ d_id d;
  rs_idle : ∀ x, In x l → d_tenant x = d_tenant d → d_app x = d_app d →
    d_installation_id x = d_installation_id d → d_request_key x ≠ d_request_key d ∧ active_state (d_state x) = false;
  rs_campaign : ∃ c, In c (campaigns db) ∧ c_state c = CPublished ∧ d_tenant d = c_tenant c ∧ d_app d = c_app c
    ∧ d_campaign_id d = c_id c ∧ d_version d = c_version c ∧ d_revision_id d = c_revision_id c
    ∧ row_count (authorized_of (mkInstallation (d_installation_id d) (d_tenant d) (d_app d) ios) (c_id c)) l
        < max_total (c_config c) }.

Lemma same_refl db : same_but_deliveries db db.
Proof. by split. Qed.
Lemma same_touch i db l : same_but_deliveries db (set_deliveries l (touch_and_expire env i db)).
Proof. split; reflexivity. Qed.
Lemma same_touch' i db : same_but_deliveries db (touch_and_expire env i db).
Proof. split; reflexivity. Qed.
#[local] Hint Resolve same_refl same_touch same_touch' : core.

Lemma scope_true t a t' a' : scope t a t' a' = true ↔ t' = t ∧ a' = a.
Proof. unfold scope. by rewrite andb_true_iff, !String.eqb_eq. Qed.

Lemma insert_delivery_ok d db u db' :
  insert_delivery d db = (Ok u, db') →
  db' = set_deliveries (deliveries db ++ [d]) db
  ∧ (∀ x, In x (deliveries db) → d_id x ≠ d_id d
      ∧ (d_tenant x = d_tenant d → d_app x = d_app d → d_installation_id x = d_installation_id d →
         d_request_key x ≠ d_request_key d ∧ active_state (d_state x) = false)).
Proof.
  unfold insert_delivery. intros H. minv. split; [done|]. intros x Hx.
  match goal with H : existsb _ (deliveries _) = false |- _ => rename H into Hex end.
  apply not_true_iff_false in Hex. rewrite existsb_exists in Hex.
  split.
  - intros Hid. apply Hex. exists x. rewrite Hid, String.eqb_refl. done.
  - intros Ht Ha Hi. split.
    + intros Hk. apply Hex. exists x. split; [done|].
      assert (scope (d_tenant d) (d_app d) (d_tenant x) (d_app x) = true) as -> by by apply scope_true.
      by rewrite Hi, Hk, !String.eqb_refl, orb_true_r.
    + apply not_true_iff_false. intros Hact. apply Hex. exists x. split; [done|].
      assert (scope (d_tenant d) (d_app d) (d_tenant x) (d_app x) = true) as -> by by apply scope_true.
      by rewrite Hi, Hact, String.eqb_refl, !orb_true_r.
Qed.

Lemma decide_tx_effect i b tz db r db' :
  decide_tx env day_start i b tz db = (Ok r, db') →
  let l := deliveries (touch_and_expire env i db) in
  same_but_deliveries db db'
  ∧ (deliveries db' = l ∨ ∃ d, deliveries db' = l ++ [d] ∧ reserves db l d ∧ r = Some d).
Proof.
  unfold decide_tx. intros H. minv.
  mcase Eo; [minv; split; [done|by left]|].
  mcase Ea; [minv; split; [done|by left]|].
  mcase Ec; [|minv; split; [done|by left]].
  minv. match goal with H : insert_delivery _ _ = _ |- _ => apply insert_delivery_ok in H as [-> Hfresh] end.
  split; [done|]. right. exists (reserve env i b c). split; [done|]. split; [|done].
  apply choose_In in Ec as (Hin&Htot&_). apply candidates_In in Hin as (Hin&Hsc&Hst).
  apply scope_true in Hsc as [Htt Haa].
  split; [done|done| | |].
  - intros y Hy. by apply Hfresh.
  - intros y Hy ? ? ?. by apply Hfresh.
  - exists c. split_and!; done.
Qed.

(** ** What the other requests write *)

Lemma authorize_effect i id db r db' :
  authorize env i id db = (Ok r, db') →
  db' = db
  ∨ ∃ d c, select1 (delivery_is i id) (deliveries db) = Some d ∧ d_state d = Reserved
      ∧ select1 (campaign_is (i_tenant i) (i_app i) (d_campaign_id d)) (campaigns db) = Some c
      ∧ c_state c = CPublished ∧ c_version c = d_version d
      ∧ db' = set_deliveries (update_where (delivery_is i id) (set_authorized env c) (deliveries db)) db.
Proof.
  unfold authorize. intros H. minv. b2p. mcase Es; minv; [by left|right]. b2p.
  match goal with H : _ || _ = true |- _ => apply orb_true_iff in H as [?|?]; b2p; [|done] end.
  do 2 eexists. split_and!; done.
Qed.

Lemma insert_event_ok e db u db' :
  insert_event e db = (Ok u, db') →
  ∃ l, db' = set_delivery_events l db ∧ (l = delivery_events db ∨ l = delivery_events db ++ [e]).
Proof. unfold insert_event. intros H. minv. destruct (existsb _ _); eauto. Qed.

Lemma upsert_suppression_ok s db u db' :
  upsert_suppression s db = (Ok u, db') → ∃ l, db' = set_suppressions l db.
Proof. unfold upsert_suppression. intros H. minv. eauto. Qed.

Lemma hide_until_ok i d occurred now db u db' :
  hide_until next_day i d occurred now db = (Ok u, db') → ∃ l, db' = set_suppressions l db.
Proof.
  assert (∀ x, x = set_suppressions (suppressions x) x) as Hid by by intros [].
  unfold hide_until. intros H. minv. mcase Ep; [mcase Et|].
  - eauto using upsert_suppression_ok.
  - minv. eauto.
  - minv. eauto.
Qed.

(** What the checks of an event established. *)
Record event_admitted (i : Installation) (id : string) (b : EventInput) (d : Delivery) (now : Z) (db : Db) : Prop := {
  ea_presented : ei_kind b = KPresented → is_Some (d_authorized_at d);
  ea_shown : needs_presented (ei_kind b) = true →
    is_Some (d_authorized_at d) ∧ ∃ e, In e (delivery_events db) ∧ event_of i id e = true ∧ e_kind e = KPresented;
  ea_limit : row_count (event_of i id) (delivery_events db) < 200;
  ea_open : is_closed now d = true → is_Some (ei_occurred_at b) }.

Lemma event_checks_ok i id b d now db u db' :
  event_checks i id b d now db = (Ok u, db') → event_admitted i id b d now db.
Proof.
  intros H. pose proof (readonly_state _ _ _ _ (readonly_event_checks i id b d now) H) as ->.
  unfold event_checks in H. minv.
  repeat match goal with H : (_ && _) = false |- _ => apply andb_false_iff in H end.
  split.
  - intros Hk. destruct H2 as [Hb|Hb]; b2p; done.
  - intros Hk. destruct H4 as [Hb|Hb]; [congruence|]. b2p. split; [done|].
    match goal with H : existsb _ _ = true |- _ => apply existsb_exists in H as (e&?&?) end. b2p. eauto.
  - b2p. lia.
  - intros Hc. destruct H1 as [Hb|Hb]; b2p; [congruence|done].
Qed.

Lemma hide_branch_ok (c : bool) i d occurred now db u db' :
  (if c then hide_until next_day i d occurred now else mret tt) db = (Ok u, db') →
  ∃ l, db' = set_suppressions l db.
Proof.
  destruct c; [apply hide_until_ok|]. intros H. minv. exists (suppressions db'). by destruct db'.
Qed.

Lemma event_effect i id b db r db' :
  event env next_day i id (Some b) db = (Ok r, db') →
  db' = db
  ∨ ∃ d evs, select1 (delivery_is i id) (deliveries db) = Some d
      ∧ event_admitted i id b d (Date_now env 0) db
      ∧ (evs = delivery_events db
         ∨ evs = delivery_events db ++ [mkEvent (i_tenant i) (i_app i) id (ei_event_id b) (ei_kind b)
                                           (ei_detail b) (ei_occurred_at b)])
      ∧ campaigns db' = campaigns db ∧ publications db' = publications db ∧ delivery_events db' = evs
      ∧ deliveries db' = update_where (delivery_is i id)
          (set_state (next_state (Date_now env 0) (ei_kind b) d)) (deliveries db).
Proof.
  unfold event, parseInput. intros H. minv. simplify_eq. mcase Eo; [minv; by left|]. minv. right.
  match goal with
  | H1 : event_checks _ _ _ _ _ ?s1 = (Ok _, ?s2), H2 : insert_event _ _ = (Ok _, _) |- _ =>
      pose proof (readonly_state _ _ _ _ (readonly_event_checks _ _ _ _ _) H1); subst s2;
      apply event_checks_ok in H1; apply insert_event_ok in H2 as (evs&->&Hevs)
  end.
  match goal with H : _ = (Ok _, ?s) |- context [deliveries ?s] => apply hide_branch_ok in H as (l&->) end.
  do 2 eexists. split_and!; done.
Qed.

Lemma revoke_effect i db :
  let db' := (revoke i db).2 in
  campaigns db' = campaigns db ∧ publications db' = publications db ∧ delivery_events db' = delivery_events db
  ∧ deliveries db' = update_where (λ d, delivery_of i d && active_state (d_state d)) (set_state Cancelled) (deliveries db).
Proof. by unfold revoke. Qed.

(** A publishing or pausing transition that changed something. *)
Record transitions (tenant app id : string) (publish : bool) (db db' : Db) : Prop := {
  tr_campaign : ∃ c, select1 (campaign_is tenant app id) (campaigns db) = Some c
    ∧ (publish = true → c_state c ≠ CPublished)
    ∧ publications db' = publications db ++
        (if publish then [mkPublication tenant app (c_id c) (c_version c) (c_revision_id c) (c_config c)
                            (match last (publications db') with Some p => p_published_by p | None => "" end)] else [])
    ∧ (publish = true → ∀ p, In p (publications db) → p_tenant p = tenant → p_app p = app →
         p_campaign_id p = c_id c → p_version p ≠ c_version c);
  tr_campaigns : campaigns db' = update_where (campaign_is tenant app id) (with_state publish) (campaigns db);
  tr_events : delivery_events db' = delivery_events db;
  tr_deliveries : deliveries db' =
    if publish then deliveries db
    else update_where (λ d, scope tenant app (d_tenant d) (d_app d) && String.eqb (d_campaign_id d) id
                            && active_state (d_state d)) (set_state Cancelled) (deliveries db) }.

Lemma insert_publication_ok p db u db' :
  insert_publication p db = (Ok u, db') →
  db' = set_publications (publications db ++ [p]) db
  ∧ ∀ x, In x (publications db) → p_tenant x = p_tenant p → p_app x = p_app p →
      p_campaign_id x = p_campaign_id p → p_version x ≠ p_version p.
Proof.
  unfold insert_publication. intros H. minv. split; [done|].
  intros x Hx Ht Ha Hc Hv.
  match goal with H : existsb _ _ = false |- _ => apply not_true_iff_false in H; apply H end.
  apply existsb_exists. exists x. split; [done|].
  rewrite Hc, Hv, String.eqb_refl, Z.eqb_refl. rewrite !andb_true_r. by apply scope_true.
Qed.

Lemma publish_checks_ok tenant app member c db u db' :
  publish_checks env hash tenant app member c db = (Ok u, db') →
  db' = set_publications (publications db ++ [mkPublication tenant app (c_id c) (c_version c) (c_revision_id c) (c_config c) member]) db
  ∧ ∀ x, In x (publications db) → p_tenant x = tenant → p_app x = app →
      p_campaign_id x = c_id c → p_version x ≠ c_version c.
Proof.
  unfold publish_checks. intros H. minv.
  match goal with H1 : read _ _ _ _ _ = (Ok _, ?s) |- _ =>
    pose proof (readonly_state _ _ _ _ (readonly_read _ _ _ _) H1); subst s end.
  by match goal with H : insert_publication _ _ = _ |- _ => apply insert_publication_ok in H end.
Qed.

Lemma transition_effect tenant app id member input publish db r db' :
  transition env hash tenant app id member input publish db = (Ok r, db') →
  db' = db ∨ transitions tenant app id publish db db'.
Proof.
  unfold transition, row_or_throw. intros H. minv.
  assert (readonly (if publish then requireLive env else mret ())) as Hr by (destruct publish; auto with nudgeon).
  repeat match goal with
  | H1 : app_of _ _ _ _ = (Ok _, ?s) |- _ =>
      pose proof (readonly_state _ _ _ _ (readonly_app_of _ _ _) H1); subst s; clear H1
  | H1 : (if publish then requireLive env else mret ()) _ = (Ok _, ?s) |- _ =>
      pose proof (readonly_state _ _ _ _ Hr H1); subst s; clear H1
  | H1 : parseInput _ _ = (Ok _, ?s) |- _ =>
      pose proof (readonly_state _ _ _ _ (readonly_parseInput _) H1); subst s; clear H1
  end.
  mcase Es; minv; [by left|right].
  destruct publish; simpl in *; b2p.
  - minv. match goal with H1 : publish_checks _ _ _ _ _ _ _ = _ |- _ =>
      apply publish_checks_ok in H1 as [-> Hfresh] end.
    split; simpl; try done. eexists. rewrite last_snoc. split_and!; try done.
  - minv. unfold cancel_deliveries in *. minv. split; simpl; try done.
    eexists. rewrite app_nil_r. split_and!; done.
Qed.

(** Saving writes the campaigns table only: a fresh draft, or the next version
    of a campaign that is not published. *)
Lemma save_effect tenant app input id db r db' :
  save env hash tenant app input id db = (r, db') →
  publications db' = publications db ∧ deliveries db' = deliveries db ∧ delivery_events db' = delivery_events db
  ∧ (campaigns db' = campaigns db
     ∨ (∃ c, campaigns db' = campaigns db ++ [c] ∧ c_state c = CDraft ∧ ∀ x, In x (campaigns db) → c_id x ≠ c_id c)
     ∨ ∃ p f, campaigns db' = update_where p f (campaigns db)
         ∧ ∀ c, p c = true → c_state c ≠ CPublished ∧ c_id (f c) = c_id c ∧ c_tenant (f c) = c_tenant c
             ∧ c_app (f c) = c_app c ∧ c_version (f c) = c_version c + 1 ∧ c_state (f c) = c_state c).
Proof.
  unfold save. rewrite readonly_bind_state by auto with nudgeon.
  destruct (app_of env tenant app db) as [[u|e] ?]; [|intros [= <- <-]; eauto].
  rewrite readonly_bind_state by auto with nudgeon.
  destruct (parseInput input db) as [[[v n]|e] ?]; [|intros [= <- <-]; eauto]. cbn [fst snd].
  rewrite readonly_bind_state by auto with nudgeon.
  destruct (read hash tenant app (ci_revision_id v) db) as [[a|e] ?]; [|intros [= <- <-]; eauto].
  destruct id as [id|].
  - unfold save_update. intros H.
    set (p := λ c, campaign_is tenant app id c && (c_version c =? n) && negb (bool_decide (c_state c = CPublished))) in H.
    assert (∃ f, db' = set_campaigns (update_where p f (campaigns db)) db
      ∧ ∀ c, c_id (f c) = c_id c ∧ c_tenant (f c) = c_tenant c ∧ c_app (f c) = c_app c
             ∧ c_version (f c) = c_version c + 1 ∧ c_state (f c) = c_state c) as (f&->&Hf).
    { unfold mbind, M_bind, get, modify, some_or_throw in H.
      destruct (select1 p (campaigns db)); cbn in H; injection H as <- <-; eexists; split; try done; by intros c. }
    split_and!; try done. right; right. exists p, f. split; [done|]. intros c Hp. unfold p in Hp. b2p.
    by destruct (Hf c) as (?&?&?&?&?).
  - unfold save_create. intros H. destruct r as [r|e].
    + minv. unfold insert_campaign in *. minv. split_and!; try done. right; left. eexists. split; [done|].
      split; [done|]. intros x Hx Hid.
      match goal with H : existsb _ _ = false |- _ => apply not_true_iff_false in H; apply H end.
      apply existsb_exists. exists x. split; [done|]. by apply String.eqb_eq.
    + apply transaction_throw in H as ->. eauto.
Qed.
End Effects.
