(* ===== verification/InAppProps.v ===== *)
(** * In-app messaging: the reachable stores and their properties *)

From S2P Require Import Prelude JsVal InAppDb InAppCampaigns InAppDelivery InAppInv.

#[global] Open Scope Z_scope.

(** ** Invariants of the tables *)

Definition same_installation (d d' : Delivery) : Prop :=
  d_tenant d = d_tenant d' ∧ d_app d = d_app d' ∧ d_installation_id d = d_installation_id d'.

(** The rows of [in_app_deliveries]. *)
Record rows_ok (l : list Delivery) : Prop := {
  ro_ids : List.NoDup (map d_id l);
  ro_active d d' : In d l → In d' l → same_installation d d' →
    active_state (d_state d) = true → active_state (d_state d') = true → d_id d = d_id d';
  ro_request d d' : In d l → In d' l → same_installation d d' → d_request_key d = d_request_key d' → d_id d = d_id d';
  ro_reserved d : In d l → d_state d = Reserved → d_authorized_at d = None;
  ro_shown d : In d l → showing (d_state d) = true → is_Some (d_authorized_at d) }.

(** [p] is the publication a delivery refers to. *)
Definition publication_of (p : Publication) (d : Delivery) : Prop :=
  p_tenant p = d_tenant d ∧ p_app p = d_app d ∧ p_campaign_id p = d_campaign_id d ∧ p_version p = d_version d.
(** [p] publishes a version of the campaign [c]. *)
Definition publishes (p : Publication) (c : Campaign) : Prop :=
  p_tenant p = c_tenant c ∧ p_app p = c_app c ∧ p_campaign_id p = c_id c.

Definition publication_key (p : Publication) : string * string * string * Z :=
  (p_tenant p, p_app p, p_campaign_id p, p_version p).

Record campaigns_ok (cs : list Campaign) (ps : list Publication) : Prop := {
  co_ids : List.NoDup (map c_id cs);
  co_keys : List.NoDup (map publication_key ps);
  co_version p : In p ps → ∃ c, In c cs ∧ publishes p c ∧ p_version p <= c_version c
    ∧ (c_state c ≠ CPublished → p_version p < c_version c);
  co_published c : In c cs → c_state c = CPublished →
    ∃ p, In p ps ∧ publishes p c ∧ p_version p = c_version c ∧ p_revision_id p = c_revision_id c
         ∧ p_config p = c_config c }.

(** Authorised deliveries of a campaign to an installation. *)
Definition authorized_count (d : Delivery) (l : list Delivery) : Z :=
  row_count (authorized_of (mkInstallation (d_installation_id d) (d_tenant d) (d_app d) ios) (d_campaign_id d)) l.

(** Every delivery has its publication, and a reservation is below its cap. *)
Record references_ok (l : list Delivery) (ps : list Publication) : Prop := {
  re_publication d : In d l → ∃ p, In p ps ∧ publication_of p d ∧ p_revision_id p = d_revision_id d;
  re_cap d p : In d l → d_state d = Reserved → In p ps → publication_of p d →
    authorized_count d l < max_total (p_config p) }.

Definition event_delivery (e : DeliveryEvent) (d : Delivery) : Prop :=
  d_tenant d = e_tenant e ∧ d_app d = e_app e ∧ d_id d = e_delivery_id e.

Record events_ok (l : list Delivery) (es : list DeliveryEvent) : Prop := {
  eo_shown e : In e es → e_kind e = KPresented ∨ needs_presented (e_kind e) = true →
    ∃ d, In d l ∧ event_delivery e d ∧ is_Some (d_authorized_at d);
  eo_presented e : In e es → needs_presented (e_kind e) = true →
    ∃ e', In e' es ∧ e_tenant e' = e_tenant e ∧ e_app e' = e_app e ∧ e_delivery_id e' = e_delivery_id e
          ∧ e_kind e' = KPresented;
  eo_limit i id : row_count (event_of i id) es <= 200 }.

Record inv (db : Db) : Prop := {
  inv_rows : rows_ok (deliveries db);
  inv_campaigns : campaigns_ok (campaigns db) (publications db);
  inv_references : references_ok (deliveries db) (publications db);
  inv_events : events_ok (deliveries db) (delivery_events db) }.

(** ** Rows that evolve *)

Lemma evolves_same d d' e e' : evolves d d' → evolves e e' → same_installation d' e' → same_installation d e.
Proof. intros [] [] (?&?&?). unfold same_installation. split_and!; congruence. Qed.

Lemma moves_active s s' : moves s s' → active_state s' = true → active_state s = true.
Proof. destruct 1; done || congruence. Qed.

Lemma evolves_ids l l' : Forall2 evolves l l' → map d_id l' = map d_id l.
Proof. induction 1 as [|d d' l l' H _ IH]; [done|]. simpl. rewrite IH. f_equal. apply H. Qed.

Lemma rows_ok_evolves l l' : rows_ok l → Forall2 evolves l l' → rows_ok l'.
Proof.
  intros [Hids Hact Hreq Hres Hsh] HF. split.
  - by rewrite (evolves_ids _ _ HF).
  - intros d d' Hd Hd' Hs Ha Ha'.
    destruct (Forall2_In_r _ _ _ _ HF Hd) as (x&Hx&Ex), (Forall2_In_r _ _ _ _ HF Hd') as (y&Hy&Ey).
    rewrite (ev_id _ _ Ex), (ev_id _ _ Ey). apply Hact; [done|done| | |].
    + by eapply evolves_same.
    + eapply moves_active; [apply Ex|done].
    + eapply moves_active; [apply Ey|done].
  - intros d d' Hd Hd' Hs Hk.
    destruct (Forall2_In_r _ _ _ _ HF Hd) as (x&Hx&Ex), (Forall2_In_r _ _ _ _ HF Hd') as (y&Hy&Ey).
    rewrite (ev_id _ _ Ex), (ev_id _ _ Ey). apply Hreq; [done|done|by eapply evolves_same|].
    rewrite <- (ev_request _ _ Ex), <- (ev_request _ _ Ey). done.
  - intros d Hd Hr. destruct (Forall2_In_r _ _ _ _ HF Hd) as (x&Hx&Ex).
    destruct (ev_authorized _ _ Ex) as [[-> _]|(_&?&_)]; [|congruence]. apply Hres; [done|].
    pose proof (ev_moves _ _ Ex) as Hm. rewrite Hr in Hm. by inversion Hm.
  - intros d Hd Hs. destruct (Forall2_In_r _ _ _ _ HF Hd) as (x&Hx&Ex).
    destruct (ev_authorized _ _ Ex) as [[-> Hn]|(_&_&?)]; [|done]. apply Hsh; [done|].
    pose proof (ev_moves _ _ Ex) as Hm. destruct Hm as [s| | |s s' ? He]; try done.
    + by destruct (Hn eq_refl).
    + unfold showing in Hs. by destruct s'.
Qed.

(** An evolution leaves the counts of another reservation's installation alone. *)
Lemma authorized_count_evolves l l' r :
  rows_ok l → Forall2 evolves l l' → In r l' → d_state r = Reserved →
  authorized_count r l' = authorized_count r l.
Proof.
  intros [Hids Hact _ _ _] HF Hr Hs. unfold authorized_count.
  set (i := mkInstallation _ _ _ _).
  destruct (Forall2_In_r _ _ _ _ HF Hr) as (x&Hx&Ex).
  assert (d_state x = Reserved) as Hxs.
  { pose proof (ev_moves _ _ Ex) as Hm. rewrite Hs in Hm. by inversion Hm. }
  assert (∀ d d', In d l → In d' l' → evolves d d' →
    authorized_of i (d_campaign_id r) d' = authorized_of i (d_campaign_id r) d) as Hsame.
  { intros d d' Hd Hd' E. unfold authorized_of, delivery_of.
    rewrite (ev_tenant _ _ E), (ev_app _ _ E), (ev_installation _ _ E), (ev_campaign _ _ E).
    destruct (scope _ _ _ _ && String.eqb (d_installation_id d) (i_id i)) eqn:Esc; [|done].
    destruct (ev_authorized _ _ E) as [[-> _]|(Hres&Hau&_)]; [done|]. exfalso.
    apply andb_true_iff in Esc as [Esc Ei]. apply scope_true in Esc as [Et Ea]. b2p. simpl in *.
    assert (d_id d = d_id x) as Hid.
    { apply Hact; [done|done| |by rewrite Hres|by rewrite Hxs].
      unfold same_installation. rewrite <- (ev_tenant _ _ Ex), <- (ev_app _ _ Ex), <- (ev_installation _ _ Ex). done. }
    assert (d' = r) as ->; [|congruence]. apply (NoDup_map_eq d_id l'); [|done|done|].
    - by rewrite (evolves_ids _ _ HF).
    - by rewrite (ev_id _ _ E), (ev_id _ _ Ex). }
  clear Hr Hs Hx Ex Hact Hids. unfold row_count, select.
  revert Hsame. induction HF as [|d d' l l' E HF IH]; intros Hsame; [done|]. simpl.
  rewrite (Hsame d d'); [|by left|by left|done].
  assert (length (List.filter (authorized_of i (d_campaign_id r)) l')
    = length (List.filter (authorized_of i (d_campaign_id r)) l)) as Hlen.
  { apply Nat2Z.inj, IH. intros a b ? ? ?. apply Hsame; [by right|by right|done]. }
  destruct (authorized_of i (d_campaign_id r) d); simpl; lia.
Qed.

Lemma references_evolves l l' ps :
  rows_ok l → references_ok l ps → Forall2 evolves l l' → references_ok l' ps.
Proof.
  intros Hrows [Hpub Hcap] HF. split.
  - intros d Hd. destruct (Forall2_In_r _ _ _ _ HF Hd) as (x&Hx&Ex).
    destruct (Hpub _ Hx) as (p&?&(?&?&?&?)&?). destruct Ex. exists p. unfold publication_of. split_and!; congruence.
  - intros d p Hd Hs Hp Hpd. rewrite (authorized_count_evolves l l' d) by done.
    destruct (Forall2_In_r _ _ _ _ HF Hd) as (x&Hx&Ex).
    assert (authorized_count d l = authorized_count x l) as ->.
    { unfold authorized_count.
      by rewrite (ev_tenant _ _ Ex), (ev_app _ _ Ex), (ev_installation _ _ Ex), (ev_campaign _ _ Ex). }
    apply Hcap; [done| |done|].
    + pose proof (ev_moves _ _ Ex) as Hm. rewrite Hs in Hm. by inversion Hm.
    + destruct Ex, Hpd as (?&?&?&?). unfold publication_of. split_and!; congruence.
Qed.

Lemma events_evolves l l' es : events_ok l es → Forall2 evolves l l' → events_ok l' es.
Proof.
  intros [Hs Hp Hl] HF. split; [|done|done]. intros e He Hk.
  destruct (Hs e He Hk) as (d&Hd&(?&?&?)&Ha). destruct (Forall2_In_l _ _ _ _ HF Hd) as (d'&?&E).
  exists d'. split; [done|]. split; [destruct E; unfold event_delivery; split_and!; congruence|].
  destruct (ev_authorized _ _ E) as [[-> _]|(_&_&?)]; done.
Qed.

(** ** A new reservation *)

Lemma rows_ok_reserve db l d : rows_ok l → reserves db l d → rows_ok (l ++ [d]).
Proof.
  intros [Hids Hact Hreq Hres Hsh] [Hst Hau Hid Hidle _]. split.
  - rewrite map_app. apply List.NoDup_app; [done|repeat constructor; by intros []|].
    intros x (y&<-&Hy)%in_map_iff [Heq|[]]. by apply (Hid y).
  - intros x y [Hx|[<-|[]]]%in_app_iff [Hy|[<-|[]]]%in_app_iff (?&?&?) Ha Ha'; [by apply Hact| | |done].
    + destruct (Hidle x Hx) as [_ ?]; congruence.
    + destruct (Hidle y Hy) as [_ ?]; congruence.
  - intros x y [Hx|[<-|[]]]%in_app_iff [Hy|[<-|[]]]%in_app_iff (?&?&?) Hk; [by apply Hreq| | |done].
    + destruct (Hidle x Hx) as [? _]; congruence.
    + destruct (Hidle y Hy) as [? _]; congruence.
  - intros x [Hx|[<-|[]]]%in_app_iff; [by apply Hres|done].
  - intros x [Hx|[<-|[]]]%in_app_iff; [by apply Hsh|]. unfold showing. by rewrite Hst.
Qed.

Lemma row_count_app {A} (p : A → bool) l k : row_count p (l ++ k) = row_count p l + row_count p k.
Proof. unfold row_count, select. rewrite List.filter_app, length_app. lia. Qed.

Lemma authorized_count_reserve r l d :
  d_authorized_at d = None → authorized_count r (l ++ [d]) = authorized_count r l.
Proof.
  intros H. unfold authorized_count. rewrite row_count_app.
  assert (row_count (authorized_of (mkInstallation (d_installation_id r) (d_tenant r) (d_app r) ios)
    (d_campaign_id r)) [d] = 0) as ->; [|lia].
  apply row_count_0. intros x [<-|[]]. unfold authorized_of. rewrite H.
  rewrite bool_decide_false by (by intros [? [=]]). apply andb_false_r.
Qed.

(** The publication of a published campaign's current version is its own. *)
Lemma published_config cs ps c p :
  campaigns_ok cs ps → In c cs → c_state c = CPublished → In p ps → publishes p c →
  p_version p = c_version c → p_revision_id p = c_revision_id c ∧ p_config p = c_config c.
Proof.
  intros Hok Hc Hs Hp (?&?&?) Hv. destruct (co_published _ _ Hok c Hc Hs) as (q&Hq&(?&?&?)&?&?&?).
  assert (p = q) as ->; [|done]. apply (NoDup_map_eq publication_key ps); [apply Hok|done|done|].
  unfold publication_key. congruence.
Qed.

Lemma references_reserve db l d :
  campaigns_ok (campaigns db) (publications db) → references_ok l (publications db) →
  reserves db l d → references_ok (l ++ [d]) (publications db).
Proof.
  intros Hc [Hpub Hcap] [Hst Hau _ _ (c&Hin&Hcs&?&?&?&?&?&Hcount)]. split.
  - intros x [Hx|[<-|[]]]%in_app_iff; [by apply Hpub|].
    destruct (co_published _ _ Hc c Hin Hcs) as (p&?&(?&?&?)&?&?&?).
    exists p. unfold publication_of. split_and!; congruence.
  - intros x p [Hx|[<-|[]]]%in_app_iff Hs Hp Hpd; rewrite authorized_count_reserve by done; [by apply Hcap|].
    destruct Hpd as (?&?&?&?).
    destruct (published_config _ _ c p Hc Hin Hcs Hp) as [_ ->]; [unfold publishes; split_and!; congruence|congruence|].
    unfold authorized_count. by replace (d_campaign_id d) with (c_id c).
Qed.

Lemma events_more l k es : events_ok l es → events_ok (l ++ k) es.
Proof.
  intros [Hs Hp Hl]. split; [|done|done]. intros e He Hk. destruct (Hs e He Hk) as (d&?&?).
  exists d. split; [apply in_app_iff; by left|done].
Qed.

(** ** A new event *)

Lemma events_append l es i id b d now db :
  events_ok l es → select1 (delivery_is i id) l = Some d → delivery_events db = es →
  event_admitted i id b d now db →
  events_ok l (es ++ [mkEvent (i_tenant i) (i_app i) id (ei_event_id b) (ei_kind b) (ei_detail b) (ei_occurred_at b)]).
Proof.
  intros [Hs Hp Hl] Hd <- [Hpres Hshown Hlim _].
  apply select1_Some in Hd as [Hin Hd]. unfold delivery_is, delivery_of in Hd. b2p.
  match goal with H : scope _ _ _ _ = true |- _ => apply scope_true in H as [? ?] end. split.
  - intros e [He|[<-|[]]]%in_app_iff Hk; [by apply Hs|]. exists d. split; [done|].
    split; [done|]. destruct Hk as [Hk|Hk]; [by apply Hpres|by apply Hshown].
  - intros e [He|[<-|[]]]%in_app_iff Hk.
    + destruct (Hp e He Hk) as (e'&?&?). exists e'. split; [apply in_app_iff; by left|done].
    + destruct (Hshown Hk) as (_&e'&He'&Hof&Hkp). unfold event_of in Hof. b2p.
      match goal with H : scope _ _ _ _ = true |- _ => apply scope_true in H as [? ?] end.
      exists e'. split; [apply in_app_iff; by left|done].
  - intros j id'. rewrite row_count_app. specialize (Hl j id').
    unfold row_count at 2, select. simpl.
    destruct (event_of j id' _) eqn:E; simpl; [|lia].
    unfold event_of in E. simpl in E. b2p.
    match goal with H : scope _ _ _ _ = true |- _ => apply scope_true in H as [Ht Ha] end.
    assert (row_count (event_of j id') (delivery_events db) = row_count (event_of i id) (delivery_events db)) as ->.
    { unfold event_of. rewrite <- Ht, <- Ha. by subst. }
    lia.
Qed.

(** ** Campaigns and publications *)

Lemma campaigns_ok_append cs ps c :
  campaigns_ok cs ps → c_state c = CDraft → (∀ x, In x cs → c_id x ≠ c_id c) → campaigns_ok (cs ++ [c]) ps.
Proof.
  intros [Hids Hkeys Hv Hp] Hd Hf. split.
  - rewrite map_app. apply List.NoDup_app; [done|repeat constructor; by intros []|].
    intros x (y&<-&Hy)%in_map_iff [Heq|[]]. by apply (Hf y).
  - done.
  - intros p Hin. destruct (Hv p Hin) as (x&?&?). exists x. split; [apply in_app_iff; by left|done].
  - intros x [Hx|[<-|[]]]%in_app_iff Hs; [by apply Hp|congruence].
Qed.

Lemma update_where_ids (p : Campaign → bool) f cs :
  (∀ c, p c = true → c_id (f c) = c_id c) → map c_id (update_where p f cs) = map c_id cs.
Proof.
  intros H. unfold update_where. rewrite map_map. apply map_ext. intros c.
  destruct (p c) eqn:E; [by apply H|done].
Qed.

(** An edit that raises the version of unpublished campaigns, or pauses them. *)
Lemma campaigns_ok_raise cs ps p f :
  campaigns_ok cs ps →
  (∀ c, p c = true → c_id (f c) = c_id c ∧ c_tenant (f c) = c_tenant c ∧ c_app (f c) = c_app c
     ∧ c_version (f c) = c_version c + 1 ∧ c_state (f c) ≠ CPublished) →
  campaigns_ok (update_where p f cs) ps.
Proof.
  intros [Hids Hkeys Hv Hp] Hf. split.
  - rewrite update_where_ids; [done|]. intros c Hc. by apply Hf.
  - done.
  - intros q Hq. destruct (Hv q Hq) as (c&Hc&(?&?&?)&?&?). destruct (p c) eqn:E.
    + exists (f c). split; [apply update_where_In; eauto|].
      destruct (Hf c E) as (?&?&?&?&?). unfold publishes. split_and!; try congruence; try lia.
    + exists c. split; [apply update_where_In; eauto|done].
  - intros c [(x&?&E&->)|[Hc E]]%update_where_In Hs; [|by apply Hp].
    by destruct (Hf x E) as (_&_&_&_&?).
Qed.

Lemma campaigns_ok_publish tenant app id member cs ps c :
  campaigns_ok cs ps → select1 (campaign_is tenant app id) cs = Some c → c_state c ≠ CPublished →
  campaigns_ok (update_where (campaign_is tenant app id) (with_state true) cs)
    (ps ++ [mkPublication tenant app (c_id c) (c_version c) (c_revision_id c) (c_config c) member]).
Proof.
  intros [Hids Hkeys Hv Hp] Hc Hs. apply select1_Some in Hc as [Hin Hc].
  pose proof Hc as Hc'. unfold campaign_is in Hc'. b2p.
  match goal with H : scope _ _ _ _ = true |- _ => apply scope_true in H as [Ht Ha] end.
  assert (∀ x, In x cs → campaign_is tenant app id x = true → x = c) as Huniq.
  { intros x Hx Hm. apply (NoDup_map_eq c_id cs); [done|done|done|].
    unfold campaign_is in Hm. b2p. congruence. }
  split.
  - rewrite update_where_ids; [done|]. by intros x _.
  - rewrite map_app. apply List.NoDup_app; [done|repeat constructor; by intros []|].
    intros k (q&<-&Hq)%in_map_iff [Heq|[]]. unfold publication_key in Heq. simpl in Heq.
    destruct (Hv q Hq) as (x&Hx&(?&?&Hi)&?&Hlt).
    assert (x = c) as ->; [apply (NoDup_map_eq c_id cs); [done|done|done|congruence]|].
    injection Heq as ????. specialize (Hlt Hs). lia.
  - intros q [Hq|[<-|[]]]%in_app_iff.
    + destruct (Hv q Hq) as (x&Hx&Hpb&?&Hlt). destruct (campaign_is tenant app id x) eqn:E.
      * exists (with_state true x). split; [apply update_where_In; eauto|].
        split; [exact Hpb|]. simpl. split; [lia|done].
      * exists x. split; [apply update_where_In; eauto|done].
    + exists (with_state true c). split; [apply update_where_In; eauto|].
      split; [done|]. simpl. split; [lia|done].
  - intros x [(y&Hy&E&->)|[Hx E]]%update_where_In Hst.
    + rewrite (Huniq y Hy E). eexists. split; [apply in_app_iff; right; by left|]. simpl.
      split_and!; try done. simpl. lia.
    + destruct (Hp x Hx Hst) as (q&?&?). exists q. split; [apply in_app_iff; by left|done].
Qed.

(** ** Requests *)

Inductive request :=
| RRegister (tenant app : string) (input : option Platform)
| RDecide (i : Installation) (input : option DecisionInput) (supportsTimeZone : bool)
| RAuthorize (i : Installation) (id : string)
| REvent (i : Installation) (id : string) (input : option EventInput)
| RRevoke (i : Installation)
| RSave (tenant app : string) (input : option (CampaignInput * Z)) (id : option string)
| RReview (tenant app member : string) (input : option ReviewInput)
| RTransition (tenant app id member : string) (input : option Z) (publish : bool).

Section Requests.
Context (hash : string → string) (day_start next_day : string → Z → Z).

(** The store after a request, whatever it answers. *)
Definition handle (env : Env) (r : request) (db : Db) : Db :=
  match r with
  | RRegister t a x => (register env hash t a x db).2
  | RDecide i x tz => (decide env hash day_start i x tz db).2
  | RAuthorize i id => (authorize env i id db).2
  | REvent i id x => (event env next_day i id x db).2
  | RRevoke i => (revoke i db).2
  | RSave t a x id => (save env hash t a x id db).2
  | RReview t a m x => (review env t a m x db).2
  | RTransition t a id m x p => (transition env hash t a id m x p db).2
  end.

(** What a request does to the rows of [in_app_deliveries]. *)
Definition deliveries_step (db : Db) (l' : list Delivery) : Prop :=
  ∃ l, Forall2 evolves (deliveries db) l ∧ (l' = l ∨ ∃ d, l' = l ++ [d] ∧ reserves db l d).

(** What it does to the other tables the invariant reads. *)
Inductive step_kind (db db' : Db) : Prop :=
| sk_deliveries :
    campaigns db' = campaigns db → publications db' = publications db →
    (delivery_events db' = delivery_events db ∨
     ∃ i id b d now, select1 (delivery_is i id) (deliveries db) = Some d ∧ event_admitted i id b d now db
       ∧ delivery_events db' = delivery_events db ++
           [mkEvent (i_tenant i) (i_app i) id (ei_event_id b) (ei_kind b) (ei_detail b) (ei_occurred_at b)]) →
    step_kind db db'
| sk_save :
    publications db' = publications db → deliveries db' = deliveries db → delivery_events db' = delivery_events db →
    ((∃ c, campaigns db' = campaigns db ++ [c] ∧ c_state c = CDraft ∧ ∀ x, In x (campaigns db) → c_id x ≠ c_id c)
     ∨ ∃ p f, campaigns db' = update_where p f (campaigns db)
         ∧ ∀ c, p c = true → c_state c ≠ CPublished ∧ c_id (f c) = c_id c ∧ c_tenant (f c) = c_tenant c
             ∧ c_app (f c) = c_app c ∧ c_version (f c) = c_version c + 1 ∧ c_state (f c) = c_state c) →
    step_kind db db'
| sk_transition t a id p : transitions t a id p db db' → step_kind db db'.

Lemma step_kind_same db db' :
  campaigns db' = campaigns db → publications db' = publications db → delivery_events db' = delivery_events db →
  step_kind db db'.
Proof. intros. apply sk_deliveries; auto. Qed.

Lemma deliveries_step_same db l : l = deliveries db → deliveries_step db l.
Proof. intros ->. exists (deliveries db). split; [apply Forall2_self, evolves_refl|by left]. Qed.

Lemma same_step db db' : db' = db → deliveries_step db (deliveries db') ∧ step_kind db db'.
Proof. intros ->. split; [by apply deliveries_step_same|by apply step_kind_same]. Qed.

Lemma register_step env t a x db :
  deliveries_step db (deliveries (register env hash t a x db).2) ∧ step_kind db (register env hash t a x db).2.
Proof.
  destruct (register env hash t a x db) as [r db'] eqn:H. simpl.
  destruct r as [r|e].
  - unfold register in H. minv.
    repeat match goal with
    | H1 : requireLive _ _ = (Ok _, ?s) |- _ => pose proof (readonly_state _ _ _ _ (readonly_requireLive _) H1); subst s; clear H1
    | H1 : parseInput _ _ = (Ok _, ?s) |- _ => pose proof (readonly_state _ _ _ _ (readonly_parseInput _) H1); subst s; clear H1
    end. split; [by apply deliveries_step_same|by apply step_kind_same].
  - apply same_step. revert H. apply atomic_bind; [auto with nudgeon|]. intros ?.
    apply atomic_bind; auto with nudgeon.
Qed.

Lemma decide_step env i x tz db :
  deliveries_step db (deliveries (decide env hash day_start i x tz db).2)
  ∧ step_kind db (decide env hash day_start i x tz db).2.
Proof.
  unfold decide. rewrite readonly_bind_state by auto with nudgeon.
  destruct (parseInput x db) as [[b|e] ?]; [|by apply same_step].
  destruct (decide_tx env day_start i b tz db) as [r db'] eqn:E.
  assert (((decide_tx env day_start i b tz) ≫= λ d, match d with
      | Some d => p ← artifact hash i d; mret (Some p) | None => mret None end) db =
    match r with Ok d => (match d with Some d => p ← artifact hash i d; mret (Some p) | None => mret None end) db'
               | Throw e => (Throw e, db') end) as ->.
  { unfold mbind at 1, M_bind. by rewrite E. }
  assert (deliveries_step db (deliveries db') ∧ step_kind db db') as Hstep.
  { destruct r as [r|e]; [|apply same_step; by eapply transaction_throw].
    apply decide_tx_effect in E as [[Hc Hp He] Hd]. split; [|by apply step_kind_same].
    exists (deliveries (touch_and_expire env i db)). split; [apply touch_evolves|].
    destruct Hd as [?|(dl&?&?&_)]; eauto. }
  destruct r as [[dl|]|e1]; try done.
  assert (readonly (p ← artifact hash i dl; mret (Some p) : DB (option DeliveryPayload))) as Hr
    by (apply readonly_bind; auto with nudgeon).
  by rewrite (Hr db').
Qed.

Lemma authorize_step env i id db :
  rows_ok (deliveries db) →
  deliveries_step db (deliveries (authorize env i id db).2) ∧ step_kind db (authorize env i id db).2.
Proof.
  intros Hrows. destruct (authorize env i id db) as [[r|e] db'] eqn:H; simpl.
  - apply authorize_effect in H as [->|(d&c&Hd&Hs&_&_&_&->)]; [by apply same_step|].
    split; [|by apply step_kind_same]. eexists. split; [|left; reflexivity].
    apply Forall2_update_where; [apply evolves_refl|]. intros y Hy Hp.
    apply select1_Some in Hd as [Hin Hd]. apply evolves_authorized.
    assert (y = d) as ->; [|done]. apply (NoDup_map_eq d_id (deliveries db)); [apply Hrows|done|done|].
    unfold delivery_is in *. b2p. congruence.
  - apply same_step. unfold authorize in H. by eapply transaction_throw.
Qed.

Lemma next_state_evolves i id b d now db :
  rows_ok (deliveries db) → In d (deliveries db) → event_admitted i id b d now db →
  evolves d (set_state (next_state now (ei_kind b) d) d).
Proof.
  intros Hrows Hin [Hpres Hshown _ _]. unfold next_state.
  destruct (is_closed now d) eqn:Ec.
  - destruct (_ && _) eqn:E; [|apply evolves_keep]. b2p.
    apply evolves_set_state; [by constructor|done].
  - unfold is_closed in Ec. b2p. destruct (ei_kind b) eqn:Ek; try apply evolves_keep;
      try (apply evolves_set_state; [by constructor|done]).
    apply evolves_set_state; [|done]. specialize (Hpres eq_refl).
    destruct (d_state d) eqn:Es; [|apply move_present|apply move_stay|done..].
    rewrite (ro_reserved _ Hrows d Hin Es) in Hpres. by destruct Hpres.
Qed.

Lemma event_step env i id x db :
  rows_ok (deliveries db) →
  deliveries_step db (deliveries (event env next_day i id x db).2) ∧ step_kind db (event env next_day i id x db).2.
Proof.
  intros Hrows. destruct (event env next_day i id x db) as [[r|e] db'] eqn:H; simpl.
  - destruct x as [b|]; [|unfold event in H; minv; done].
    apply event_effect in H as [->|(d&evs&Hd&Hadm&Hevs&Hc&Hp&He&Hds)]; [by apply same_step|].
    rewrite Hds. split.
    + eexists. split; [|left; reflexivity]. apply Forall2_update_where; [apply evolves_refl|]. intros y Hy Hpy.
      pose proof Hd as Hd'. apply select1_Some in Hd' as [Hin Hdi].
      assert (y = d) as ->; [|by eapply next_state_evolves].
      apply (NoDup_map_eq d_id (deliveries db)); [apply Hrows|done|done|].
      unfold delivery_is in *. b2p. congruence.
    + apply sk_deliveries; [done|done|]. destruct Hevs as [->| ->]; [by left|right].
      exists i, id, b, d, (Date_now env 0). done.
  - apply same_step. revert H. apply atomic_bind; auto with nudgeon.
Qed.

Lemma revoke_step i db : deliveries_step db (deliveries (revoke i db).2) ∧ step_kind db (revoke i db).2.
Proof.
  destruct (revoke_effect i db) as (Hc&Hp&He&Hd). split; [|by apply step_kind_same].
  rewrite Hd. eexists. split; [|left; reflexivity].
  apply Forall2_update_where; [apply evolves_refl|]. intros y _ Hy. b2p.
  by apply evolves_set_state; [constructor|].
Qed.

Lemma save_step env t a x id db :
  deliveries_step db (deliveries (save env hash t a x id db).2) ∧ step_kind db (save env hash t a x id db).2.
Proof.
  destruct (save env hash t a x id db) as [r db'] eqn:H. simpl.
  apply save_effect in H as (Hp&Hd&He&Hc). split; [by apply deliveries_step_same|].
  destruct Hc as [Hc|Hc]; [by apply step_kind_same|]. by apply sk_save.
Qed.

Lemma review_step env t a m x db :
  deliveries_step db (deliveries (review env t a m x db).2) ∧ step_kind db (review env t a m x db).2.
Proof.
  assert (∃ l, (review env t a m x db).2 = set_reviews l db) as [l ->];
    [|split; [by apply deliveries_step_same|by apply step_kind_same]].
  assert (∃ l, db = set_reviews l db) as Hid by (exists (reviews db); by destruct db).
  unfold review. repeat first
    [ rewrite readonly_bind_state by auto with nudgeon;
      match goal with |- context [match ?m db with _ => _ end] => destruct (m db) as [[?|?] ?] end; [|done] ].
  unfold upsert_review, mbind, M_bind, get, modify. simpl. eauto.
Qed.

Lemma transition_step env t a id m x p db :
  deliveries_step db (deliveries (transition env hash t a id m x p db).2)
  ∧ step_kind db (transition env hash t a id m x p db).2.
Proof.
  destruct (transition env hash t a id m x p db) as [[r|e] db'] eqn:H; simpl.
  - apply transition_effect in H as [->|H]; [by apply same_step|].
    split; [|by eapply sk_transition]. rewrite (tr_deliveries _ _ _ _ _ _ H).
    destruct p; [by apply deliveries_step_same|]. eexists. split; [|left; reflexivity].
    apply Forall2_update_where; [apply evolves_refl|]. intros y _ Hy. b2p.
    by apply evolves_set_state; [constructor|].
  - apply same_step. revert H. apply atomic_bind; [auto with nudgeon|]. intros ?.
    apply atomic_bind; [destruct p; auto with nudgeon|]. intros ?. apply atomic_bind; auto with nudgeon.
Qed.

Lemma handle_step env r db :
  rows_ok (deliveries db) → deliveries_step db (deliveries (handle env r db)) ∧ step_kind db (handle env r db).
Proof.
  intros H. destruct r; simpl.
  - apply register_step.
  - apply decide_step.
  - by apply authorize_step.
  - by apply event_step.
  - apply revoke_step.
  - apply save_step.
  - apply review_step.
  - apply transition_step.
Qed.

(** ** The invariant of the reachable stores *)

Lemma deliveries_step_rows db l : rows_ok (deliveries db) → deliveries_step db l → rows_ok l.
Proof.
  intros H (k&HF&[->|(d&->&Hr)]); [by eapply rows_ok_evolves|].
  eapply rows_ok_reserve; [by eapply rows_ok_evolves|done].
Qed.

Lemma deliveries_step_references db l :
  inv db → deliveries_step db l → references_ok l (publications db).
Proof.
  intros [Hr Hc Href _] (k&HF&[->|(d&->&Hres)]); [by eapply references_evolves|].
  eapply references_reserve; [done|by eapply references_evolves|done].
Qed.

Lemma deliveries_step_events db l es : events_ok (deliveries db) es → deliveries_step db l → events_ok l es.
Proof.
  intros H (k&HF&[->|(d&->&_)]); [by eapply events_evolves|]. by apply events_more, (events_evolves (deliveries db)).
Qed.

Lemma references_publish l ps p :
  references_ok l ps →
  (∀ q, In q ps → p_tenant q = p_tenant p → p_app q = p_app p → p_campaign_id q = p_campaign_id p →
     p_version q ≠ p_version p) →
  references_ok l (ps ++ [p]).
Proof.
  intros [Hpub Hcap] Hf. split.
  - intros d Hd. destruct (Hpub d Hd) as (q&?&?). exists q. split; [apply in_app_iff; by left|done].
  - intros d q Hd Hs [Hq|[<-|[]]]%in_app_iff Hpd; [by apply Hcap|].
    destruct (Hpub d Hd) as (q&Hq&(?&?&?&?)&_), Hpd as (?&?&?&?).
    exfalso. apply (Hf q Hq); congruence.
Qed.

Lemma transition_campaigns t a id publish db db' :
  campaigns_ok (campaigns db) (publications db) → transitions t a id publish db db' →
  campaigns_ok (campaigns db') (publications db').
Proof.
  intros Hc [(c&Hsel&Hst&Hpub&_) Hcs _ _]. rewrite Hcs. destruct publish.
  - rewrite Hpub. by apply campaigns_ok_publish; [..|apply Hst].
  - rewrite app_nil_r in Hpub. rewrite Hpub. apply campaigns_ok_raise; [done|].
    intros x _. split_and!; done.
Qed.

Lemma inv_handle env r db : inv db → inv (handle env r db).
Proof.
  intros Hinv. pose proof Hinv as [Hr Hc Href Hev].
  destruct (handle_step env r db Hr) as [Hd Hk].
  pose proof (deliveries_step_rows _ _ Hr Hd) as Hr'.
  pose proof (deliveries_step_references _ _ Hinv Hd) as Href'.
  pose proof (deliveries_step_events _ _ _ Hev Hd) as Hev'.
  revert Hd Hk Hr' Href' Hev'. generalize (handle env r db) as db'. intros db' Hd Hk Hr' Href' Hev'.
  destruct Hk as [Hcs Hps Hes|Hps Hds Hes Hcs|t a id p Ht].
  - split; [done|by rewrite Hcs, Hps|by rewrite Hps|].
    destruct Hes as [->|(i&id&b&d&now&Hsel&Hadm&Hes)]; [done|]. rewrite Hes.
    eapply deliveries_step_events; [|done]. eapply events_append; done.
  - rewrite Hds in *. split; [by rewrite Hds| |by rewrite Hps, Hds|by rewrite Hds, Hes].
    rewrite Hps. destruct Hcs as [(c&->&?&?)|(q&f&->&Hf)]; [by apply campaigns_ok_append|].
    apply campaigns_ok_raise; [done|]. intros c Hq. destruct (Hf c Hq) as (?&?&?&?&?&?).
    split_and!; congruence.
  - split; [done|by eapply transition_campaigns| |by rewrite (tr_events _ _ _ _ _ _ Ht)].
    destruct Ht as [(c&_&_&Hpub&Hfresh) _ _ _]. rewrite Hpub. destruct p; [|by rewrite app_nil_r].
    apply references_publish; [done|]. intros q ? ? ? ?. simpl in *. by apply Hfresh.
Qed.

(** The stores reachable from one without campaigns, publications, deliveries
    and delivery events, whatever its other tables hold. *)
Definition initial (db : Db) : Prop :=
  campaigns db = [] ∧ publications db = [] ∧ deliveries db = [] ∧ delivery_events db = [].
Definition step (db db' : Db) : Prop := ∃ env r, db' = handle env r db.
Definition reachable (db : Db) : Prop := ∃ db0, initial db0 ∧ rtc step db0 db.

Lemma inv_initial db : initial db → inv db.
Proof.
  intros (Hc&Hp&Hd&He). split; rewrite ?Hc, ?Hp, ?Hd, ?He; split; try done; try constructor.
Qed.

Lemma inv_rtc db db' : inv db → rtc step db db' → inv db'.
Proof. intros H Hr. induction Hr as [|x y z (env&r&->) _ IH]; [done|]. by apply IH, inv_handle. Qed.

Lemma inv_reachable db : reachable db → inv db.
Proof. intros (db0&H0&Hr). eapply inv_rtc; [by apply inv_initial|done]. Qed.

(** ** Properties *)

(** C8. The life of a delivery: under any request, of any kind, the rows of
    [in_app_deliveries] stay, keep their identity, and move only along
    reserved → authorized → presented or from an active state to a final one;
    a row's authorisation time is set once, by the move to authorized; and at
    most one row is added, a reservation for an idle installation. *)
Theorem delivery_lifecycle env r db :
  reachable db →
  ∃ l, Forall2 evolves (deliveries db) l
       ∧ (deliveries (handle env r db) = l
          ∨ ∃ d, deliveries (handle env r db) = l ++ [d] ∧ d_state d = Reserved ∧ d_authorized_at d = None
                 ∧ ∀ x, In x l → same_installation x d → active_state (d_state x) = false).
Proof.
  intros Hinv%inv_reachable. destruct (handle_step env r db (inv_rows _ Hinv)) as [(l&HF&Hd) _].
  exists l. split; [done|]. destruct Hd as [?|(d&?&[? ? _ Hidle _])]; [by left|right].
  exists d. split_and!; try done. intros x Hx (?&?&?). by apply Hidle.
Qed.

(** At any time an installation has at most one active delivery, and one
    delivery per request key. *)
Theorem one_active_delivery db d d' :
  reachable db → In d (deliveries db) → In d' (deliveries db) → same_installation d d' →
  (active_state (d_state d) = true ∧ active_state (d_state d') = true) ∨ d_request_key d = d_request_key d' →
  d = d'.
Proof.
  intros [Hr _ _ _]%inv_reachable Hd Hd' Hs H. apply (NoDup_map_eq d_id (deliveries db)); [apply Hr|done|done|].
  destruct H as [[? ?]|?]; [by apply (ro_active _ Hr)|by apply (ro_request _ Hr)].
Qed.

Lemma row_count_update_one {A B} (key : A → B) (p q : A → bool) f (l : list A) x :
  List.NoDup (map key l) → In x l → p x = true → (∀ y, p y = true → key y = key x) →
  q x = false → q (f x) = true → row_count q (update_where p f l) = row_count q l + 1.
Proof.
  intros Hnd Hx Hp Hkey Hq Hfq. unfold row_count, select, update_where.
  induction l as [|y l IH]; [done|]. cbn [map] in *. apply NoDup_cons_iff in Hnd as [Hy Hnd].
  destruct Hx as [->|Hx].
  - rewrite Hp. simpl. rewrite Hfq, Hq.
    assert (map (λ r, if p r then f r else r) l = l) as ->; [|simpl; lia].
    rewrite <- (map_id l) at 2. apply map_ext_in. intros z Hz. destruct (p z) eqn:Ez; [|done].
    destruct Hy. rewrite <- (Hkey z Ez). by apply in_map.
  - destruct (p y) eqn:Ey; [destruct Hy; rewrite (Hkey y Ey); by apply in_map|].
    simpl. destruct (q y); simpl; rewrite ?Nat2Z.inj_succ, IH by done; lia.
Qed.

Lemma scoped_delivery i id d :
  delivery_is i id d = true ↔
  d_tenant d = i_tenant i ∧ d_app d = i_app i ∧ d_installation_id d = i_id i ∧ d_id d = id.
Proof.
  unfold delivery_is, delivery_of. rewrite !andb_true_iff, !String.eqb_eq, scope_true. tauto.
Qed.
Lemma scoped_campaign t a id c :
  campaign_is t a id c = true ↔ c_tenant c = t ∧ c_app c = a ∧ c_id c = id.
Proof. unfold campaign_is. rewrite andb_true_iff, String.eqb_eq, scope_true. tauto. Qed.
Lemma authorized_of_true i campaign d :
  authorized_of i campaign d = true ↔
  d_tenant d = i_tenant i ∧ d_app d = i_app i ∧ d_installation_id d = i_id i ∧ d_campaign_id d = campaign
  ∧ is_Some (d_authorized_at d).
Proof.
  unfold authorized_of, delivery_of.
  rewrite !andb_true_iff, !String.eqb_eq, scope_true, bool_decide_eq_true. tauto.
Qed.

(** Authorising a reservation counts it. *)
Lemma authorize_total env i id d c db :
  rows_ok (deliveries db) → In d (deliveries db) → delivery_is i id d = true → d_state d = Reserved →
  total i (d_campaign_id d) (set_deliveries (update_where (delivery_is i id) (set_authorized env c) (deliveries db)) db)
  = total i (d_campaign_id d) db + 1.
Proof.
  intros Hr Hin Hdi Hs. unfold total. simpl. apply (row_count_update_one d_id _ _ _ _ d); [apply Hr|done|done| | |].
  - intros y Hy. apply scoped_delivery in Hy, Hdi. intuition congruence.
  - apply not_true_is_false. rewrite authorized_of_true, (ro_reserved _ Hr d Hin Hs). by intros (_&_&_&_&[? [=]]).
  - apply authorized_of_true. apply scoped_delivery in Hdi. simpl. split_and!; intuition eauto.
Qed.

(** C6. The frequency cap: an authorisation never takes the number of
    authorised deliveries of a campaign to an installation above the campaign's
    [max_total]; it adds exactly one, however many decisions, expiries, edits and
    pauses happened since the reservation. *)
Theorem authorize_respects_cap env i id db expires db' :
  reachable db → authorize env i id db = (Ok expires, db') → db' ≠ db →
  ∃ c d, In c (campaigns db) ∧ c_state c = CPublished ∧ In d (deliveries db) ∧ d_id d = id
    ∧ d_campaign_id d = c_id c ∧ d_version d = c_version c ∧ d_state d = Reserved
    ∧ total i (c_id c) db' = total i (c_id c) db + 1
    ∧ total i (c_id c) db' <= max_total (c_config c).
Proof.
  intros [Hr Hc Href _]%inv_reachable H Hne.
  apply authorize_effect in H as [->|(d&c&Hd&Hs&Hcs&Hpub&Hv&->)]; [done|].
  apply select1_Some in Hd as [Hin Hdi]. apply select1_Some in Hcs as [Hcin Hci].
  apply scoped_campaign in Hci as (Hct&Hca&Hcid).
  pose proof (authorize_total env i id d c db Hr Hin Hdi Hs) as Ht. rewrite <- Hcid in Ht.
  apply scoped_delivery in Hdi as (?&?&?&?).
  exists c, d. split_and!; try done. rewrite Ht.
  assert (total i (c_id c) db = authorized_count d (deliveries db)) as ->.
  { unfold total, authorized_count, row_count, select. f_equal. f_equal. apply filter_ext. intros x.
    unfold authorized_of, delivery_of. simpl. congruence. }
  destruct (co_published _ _ Hc c Hcin Hpub) as (p&Hp&(?&?&?)&?&?&<-).
  assert (authorized_count d (deliveries db) < max_total (p_config p)); [|lia].
  apply (re_cap _ _ Href); [done|done|done|]. unfold publication_of. split_and!; congruence.
Qed.

(** *** What later requests keep *)

(** Once final, always final. *)
Lemma final_stays env r db d :
  inv db → In d (deliveries db) → active_state (d_state d) = false →
  ∃ d', In d' (deliveries (handle env r db)) ∧ d_id d' = d_id d ∧ d_state d' = d_state d.
Proof.
  intros Hinv Hd Hs. destruct (handle_step env r db (inv_rows _ Hinv)) as [(l&HF&Hl) _].
  destruct (Forall2_In_l _ _ _ _ HF Hd) as (d'&Hd'&E). exists d'. split.
  - destruct Hl as [->|(x&->&_)]; [done|]. apply in_app_iff. by left.
  - split; [apply E|]. pose proof (ev_moves _ _ E) as Hm. destruct Hm; try done. congruence.
Qed.

Lemma final_stays_rtc db db' d :
  inv db → rtc step db db' → In d (deliveries db) → active_state (d_state d) = false →
  ∃ d', In d' (deliveries db') ∧ d_id d' = d_id d ∧ d_state d' = d_state d.
Proof.
  intros Hinv Hr. revert d Hinv. induction Hr as [x|x y z (env&r&->) _ IH]; intros d Hinv Hd Hs; [eauto|].
  destruct (final_stays env r x d Hinv Hd Hs) as (d1&Hd1&Hid&Hs1).
  destruct (IH d1 (inv_handle env r x Hinv) Hd1) as (d2&?&?&?); [congruence|].
  exists d2. split_and!; congruence || done.
Qed.

Lemma authorize_final env i id db d :
  inv db → In d (deliveries db) → d_id d = id → active_state (d_state d) = false →
  ∃ e, authorize env i id db = (Throw e, db).
Proof.
  intros Hinv Hd Hid Hs. destruct (authorize env i id db) as [[x|e] db'] eqn:H.
  - exfalso. unfold authorize in H. minv.
    match goal with H : select1 (delivery_is i _) (deliveries ?s) = Some ?y |- _ =>
      apply select1_Some in H as [Hy Hyi]; apply scoped_delivery in Hyi;
      assert (y = d) as -> by (apply (NoDup_map_eq d_id (deliveries s)); [apply Hinv|done|done|tauto]) end.
    b2p. match goal with H : bool_decide _ || bool_decide _ = true |- _ => apply orb_true_iff in H as [H|H]; b2p;
      rewrite H in Hs; done end.
  - exists e. f_equal. unfold authorize in H. by eapply transaction_throw.
Qed.

(** C12. Pausing is final for what was under way: after a successful pause every
    delivery of the campaign is in a final state, stays in it under all later
    requests (a later publication included), and can never be authorised. *)
Theorem pause_is_final env tenant app id member v db c db' db'' d :
  reachable db → transition env hash tenant app id member v false db = (Ok c, db') → rtc step db' db'' →
  In d (deliveries db') → d_tenant d = tenant → d_app d = app → d_campaign_id d = id →
  active_state (d_state d) = false
  ∧ (∃ d', In d' (deliveries db'') ∧ d_id d' = d_id d ∧ d_state d' = d_state d)
  ∧ ∀ env' i, ∃ e, authorize env' i (d_id d) db'' = (Throw e, db'').
Proof.
  intros Hinv%inv_reachable H Hr Hd Ht Ha Hcid.
  assert (inv db') as Hinv'.
  { pose proof (inv_handle env (RTransition tenant app id member v false) db Hinv) as Hi. simpl in Hi. by rewrite H in Hi. }
  assert (active_state (d_state d) = false) as Hs.
  { unfold transition, row_or_throw in H. minv.
    match goal with H : (if false && _ then _ else _) _ = _ |- _ => simpl in H end. minv.
    unfold cancel_deliveries in *. minv. simpl in *.
    apply update_where_In in Hd as [(dl&_&_&->)|[_ Hdl]]; [done|].
    apply not_true_is_false. intros Hact.
    unfold scope in Hdl. by rewrite Hact, !String.eqb_refl in Hdl. }
  split; [done|]. destruct (final_stays_rtc db' db'' d Hinv' Hr Hd Hs) as (d'&Hd'&Hid&Hst).
  split; [eauto|]. intros env' i. eapply authorize_final; [by eapply inv_rtc|done|done|congruence].
Qed.

(** The evidence of a display: every recorded impression, action, dismissal
    or hide-today belongs to a delivery that was authorised and has a recorded
    presentation, and a delivery has at most 200 recorded events. *)
Theorem display_evidence db :
  reachable db →
  (∀ e, In e (delivery_events db) → needs_presented (e_kind e) = true →
     (∃ d, In d (deliveries db) ∧ event_delivery e d ∧ is_Some (d_authorized_at d))
     ∧ ∃ e', In e' (delivery_events db) ∧ e_delivery_id e' = e_delivery_id e ∧ e_kind e' = KPresented)
  ∧ ∀ i id, row_count (event_of i id) (delivery_events db) <= 200.
Proof.
  intros [_ _ _ [Hs Hp Hl]]%inv_reachable. split; [|done]. intros e He Hk. split.
  - apply (Hs e He). by right.
  - destruct (Hp e He Hk) as (e'&?&_&_&?&?). eauto.
Qed.

(** *** Publications *)

Lemma publications_grow env r db :
  rows_ok (deliveries db) → publications db `prefix_of` publications (handle env r db).
Proof.
  intros Hr. destruct (handle_step env r db Hr) as [_ Hk].
  destruct Hk as [_ -> _| -> _ _ _|t a id p [(c&_&_&->&_) _ _ _]]; [done..|]. by eexists.
Qed.

(** Events are only ever appended. *)
Lemma events_grow env r db :
  rows_ok (deliveries db) → delivery_events db `prefix_of` delivery_events (handle env r db).
Proof.
  intros Hr. destruct (handle_step env r db Hr) as [_ Hk].
  destruct Hk as [_ _ [->|(?&?&?&?&?&_&_&->)]|_ _ -> _|t a id p [_ _ -> _]]; try done. by eexists.
Qed.

Lemma publish_never_collides env t a id m v db db' :
  inv db → transition env hash t a id m v true db ≠ (Throw unique_violation, db').
Proof.
  intros [_ Hc _ _] H.
  unfold transition, row_or_throw, publish_checks, insert_publication, app_of, requireLive, requireEnabled,
    parseInput, read in H.
  tinv; simplify_eq; minv.
  mcase Es; tinv; simplify_eq; minv.
  match goal with H : existsb _ (publications _) = true |- _ => apply existsb_exists in H as (p&Hp&Hk) end.
  simpl in *. b2p. match goal with H : scope _ _ _ _ = true |- _ => apply scope_true in H as [? ?] end.
  match goal with H : select1 _ (campaigns ?s) = Some ?y |- _ =>
    apply select1_Some in H as [Hy Hyc]; apply scoped_campaign in Hyc end.
  destruct (co_version _ _ Hc p Hp) as (c&Hcin&(?&?&?)&_&Hlt).
  match goal with H : In ?y (campaigns ?s) |- _ =>
    assert (c = y) as -> by (apply (NoDup_map_eq c_id (campaigns s)); [apply Hc|done|done|intuition congruence]) end.
  match goal with H : c_state _ ≠ CPublished |- _ => specialize (Hlt H) end. lia.
Qed.

(** Publications are immutable: no request changes or removes one, a
    published campaign runs exactly what its publication records, and publishing
    never collides with an earlier publication. *)
Theorem publications_immutable env r db :
  reachable db →
  publications db `prefix_of` publications (handle env r db)
  ∧ (∀ c, In c (campaigns db) → c_state c = CPublished →
       ∃ p, In p (publications db) ∧ publishes p c ∧ p_version p = c_version c
            ∧ p_revision_id p = c_revision_id c ∧ p_config p = c_config c)
  ∧ (∀ env' t a id m v db', transition env' hash t a id m v true db ≠ (Throw unique_violation, db')).
Proof.
  intros Hinv%inv_reachable. split; [apply publications_grow, Hinv|].
  split; [apply (co_published _ _ (inv_campaigns _ Hinv))|]. intros. by apply publish_never_collides.
Qed.

(** *** Replays *)

Lemma prefix_rtc {A} (f : Db → list A) :
  (∀ env r db, inv db → f db `prefix_of` f (handle env r db)) →
  ∀ db db', inv db → rtc step db db' → f db `prefix_of` f db'.
Proof.
  intros Hf db db' Hinv Hr. induction Hr as [x|x y z (env&r&->) _ IH]; [done|].
  etrans; [by apply (Hf env r)|]. by apply IH, inv_handle.
Qed.

Lemma delivery_stays_rtc db db' d :
  inv db → rtc step db db' → In d (deliveries db) →
  ∃ d', In d' (deliveries db') ∧ ∀ i id, delivery_is i id d' = delivery_is i id d.
Proof.
  intros Hinv Hr. revert d Hinv. induction Hr as [x|x y z (env&r&->) _ IH]; intros d Hinv Hd; [eauto|].
  destruct (handle_step env r x (inv_rows _ Hinv)) as [(l&HF&Hl) _].
  destruct (Forall2_In_l _ _ _ _ HF Hd) as (d1&Hd1&E).
  destruct (IH d1 (inv_handle env r x Hinv)) as (d2&?&H2).
  - destruct Hl as [->|(w&->&_)]; [done|]. apply in_app_iff. by left.
  - exists d2. split; [done|]. intros i id. rewrite H2. unfold delivery_is, delivery_of.
    by rewrite (ev_tenant _ _ E), (ev_app _ _ E), (ev_installation _ _ E), (ev_id _ _ E).
Qed.

Definition same_event (b : EventInput) (old : DeliveryEvent) : bool :=
  negb (negb (bool_decide (e_kind old = ei_kind b)) || negb (String.eqb (e_detail old) (ei_detail b))
        || match ei_occurred_at b, e_occurred_at old with
           | Some t, Some t' => negb (getTime t' =? getTime t)
           | _, _ => false
           end).

Definition recorded (i : Installation) (id : string) (b : EventInput) (db : Db) : Prop :=
  (∃ d, In d (deliveries db) ∧ delivery_is i id d = true)
  ∧ ∃ e, select1 (λ e, event_of i id e && String.eqb (e_event_id e) (ei_event_id b)) (delivery_events db) = Some e
         ∧ same_event b e = true.

(** The answer to an event whose id is recorded with the same content. *)
Lemma event_recorded env i id b db :
  recorded i id b db → event env next_day i id (Some b) db = (Ok tt, db).
Proof.
  intros [(d&Hd&Hdi) (e&He&Hs)]. destruct (select1_is_Some _ _ _ Hd Hdi) as (y&Hy).
  unfold event, parseInput, transaction, mbind, M_bind, get, some_or_throw, mret, M_ret.
  rewrite Hy. unfold mret. rewrite He. unfold same_event in Hs. apply negb_true_iff in Hs.
  by rewrite Hs.
Qed.

Lemma recorded_after env i id b db db' :
  event env next_day i id (Some b) db = (Ok tt, db') →
  (once_kind (ei_kind b) = false ∨
     ∀ e, In e (delivery_events db) → event_of i id e = true → e_kind e ≠ ei_kind b) →
  recorded i id b db'.
Proof.
  unfold event, parseInput. intros H Honce. minv. simplify_eq.
  match goal with H : select1 (delivery_is i id) _ = Some ?y |- _ => pose proof H as Hsel; apply select1_Some in H as [Hy Hyi] end.
  mcase Eo.
  - minv. split; [eauto|]. eexists. split; [done|]. unfold same_event. by apply negb_true_iff.
  - minv.
    match goal with
    | H1 : event_checks _ _ _ _ _ ?s1 = (Ok _, ?s2) |- _ =>
        pose proof (readonly_state _ _ _ _ (readonly_event_checks _ _ _ _ _) H1); subst s2; clear H1 end.
    match goal with H : (if _ then hide_until _ _ _ _ _ else _) _ = (Ok _, _) |- _ =>
      apply hide_branch_ok in H as (l&->) end.
    unfold insert_event in *. minv. split.
    + exists (set_state (next_state (Date_now env 0) (ei_kind x) x3) x3). split; [|exact Hyi].
      apply update_where_In. left. eauto.
    + simpl. destruct (existsb _ _) eqn:Ee.
      * exfalso. apply existsb_exists in Ee as (e&He&Hc). simpl in Hc. b2p.
        assert (event_of i id e = true) as Hof.
        { unfold event_of. match goal with H : scope _ _ _ _ = true |- _ => rewrite H end.
          by match goal with H : e_delivery_id e = id |- _ => rewrite H, String.eqb_refl end. }
        match goal with H : _ || _ = true |- _ => apply orb_true_iff in H as [Hid|Hkind] end.
        -- rewrite select1_None in Eo. specialize (Eo e He). by rewrite Hof, Hid in Eo.
        -- b2p. destruct Honce as [?|Hn]; [congruence|]. by apply (Hn e He Hof).
      * eexists. split.
        -- apply select1_append; [exact Eo|]. unfold event_of. simpl. unfold scope. by rewrite !String.eqb_refl.
        -- unfold same_event. simpl. rewrite bool_decide_true, String.eqb_refl by done.
           destruct (ei_occurred_at x); [by rewrite Z.eqb_refl|done].
Qed.

(** Events are idempotent: an accepted event (of a kind recorded more than
    once per delivery, or new to the delivery) can be sent again at any later
    time, whatever happened in between, and is answered the same way without
    changing the store. *)
Theorem event_replay env i id b db db' env' db'' :
  reachable db → event env next_day i id (Some b) db = (Ok tt, db') →
  (once_kind (ei_kind b) = false ∨
     ∀ e, In e (delivery_events db) → event_of i id e = true → e_kind e ≠ ei_kind b) →
  rtc step db' db'' →
  event env' next_day i id (Some b) db'' = (Ok tt, db'').
Proof.
  intros Hinv%inv_reachable H Honce Hr.
  assert (inv db') as Hinv'.
  { pose proof (inv_handle env (REvent i id (Some b)) db Hinv) as Hi. simpl in Hi. by rewrite H in Hi. }
  destruct (recorded_after env i id b db db' H Honce) as [(d&Hd&Hdi) (e&He&Hs)].
  apply event_recorded. split.
  - destruct (delivery_stays_rtc db' db'' d Hinv' Hr Hd) as (d'&Hd'&Heq). exists d'. by rewrite Heq.
  - exists e. split; [|done]. eapply select1_prefix; [|exact He].
    apply (prefix_rtc delivery_events); [|done|done]. intros. by apply events_grow, inv_rows.
Qed.

(** *** Asking again *)

Lemma choose_zone env i b tz db k l c :
  choose env day_start i b tz db k l = Some c → tz || String.eqb (zone_of (c_config c)) "UTC" = true.
Proof.
  revert k. induction l as [|x l IH]; intros k; simpl; [done|].
  destruct (_ || _ || _) eqn:E; [apply IH|]. destruct (recently env i db); [done|]. intros [= <-].
  unfold not_targeted in E. b2p.
  match goal with H : negb tz && _ = false |- _ => apply andb_false_iff in H as [H|H]; b2p end;
    [by match goal with H : tz = true |- _ => rewrite H end|].
  match goal with H : zone_of _ = _ |- _ => rewrite H end. apply orb_true_r.
Qed.

Definition old_matches (i : Installation) (b : DecisionInput) (tz : bool) (db : Db) (d : Delivery) : Prop :=
  delivery_of i d = true ∧ d_request_key d = di_request_key b ∧ d_session_id d = di_session_id b
  ∧ d_trigger d = di_trigger b ∧ d_state d = Reserved
  ∧ tz || String.eqb (publication_zone (publication_config (i_tenant i) (i_app i) (d_campaign_id d) (d_version d) db)) "UTC" = true.

Lemma trigger_eq a b : trigger_type a = trigger_type b → trigger_name a = trigger_name b → a = b.
Proof. destruct a, b; simpl; intros; simplify_eq; done. Qed.

Lemma live_after_seen env i l :
  existsb (λ r, installation_is i r && negb (ir_revoked r)) l = true →
  existsb (λ r, installation_is i r && negb (ir_revoked r)) (update_where (installation_is i) (set_seen env) l) = true.
Proof.
  rewrite !existsb_exists. intros (r&Hr&[Hi Hv]%andb_true_iff). exists (set_seen env r). split.
  - apply update_where_In. left. eauto.
  - apply andb_true_iff. by split.
Qed.

(** What a decision that shows something leaves behind. *)
Lemma decide_tx_matches env i b tz db d db' :
  inv db → decide_tx env day_start i b tz db = (Ok (Some d), db') →
  In d (deliveries db') ∧ old_matches i b tz db' d
  ∧ existsb (λ r, installation_is i r && negb (ir_revoked r)) (installations db') = true.
Proof.
  intros Hinv H. unfold decide_tx in H. minv.
  match goal with H : negb (existsb _ (installations _)) = false |- _ =>
    apply negb_false_iff, (live_after_seen env) in H; rename H into Hlive end.
  mcase Eo; [|mcase Ea; [minv; done|]; mcase Ec; [|minv; done]]; minv.
  - apply select1_Some in Eo as [Hin Hk]. case_match eqn:Em; [|done]. simplify_eq. b2p.
    split; [done|]. split; [|exact Hlive]. split_and!; try done. by apply trigger_eq.
  - simplify_eq. match goal with H : insert_delivery _ _ = _ |- _ => apply insert_delivery_ok in H as [-> _] end.
    simpl. split; [apply in_app_iff; right; by left|]. split; [|exact Hlive].
    split_and!; try done.
    + unfold delivery_of. simpl. unfold scope. by rewrite !String.eqb_refl.
    + pose proof (choose_zone _ _ _ _ _ _ _ _ Ec) as Hz.
      apply choose_In in Ec as (Hin&_). apply candidates_In in Hin as (Hin&Hsc&Hst).
      apply scope_true in Hsc as [Ht Ha].
      destruct (co_published _ _ (inv_campaigns _ Hinv) _ Hin Hst) as (p&Hp&(?&?&?)&?&_&Hcfg).
      unfold publication_config. simpl.
      destruct (select1 _ (publications _)) as [q|] eqn:Eq.
      * apply select1_Some in Eq as [Hq Hqk]. b2p.
        match goal with H : scope _ _ _ _ = true |- _ => apply scope_true in H as [? ?] end.
        assert (q = p) as ->; [|simpl; rewrite Hcfg; done].
        apply (NoDup_map_eq publication_key (publications x0)); [apply Hinv|done|done|].
        unfold publication_key. congruence.
      * rewrite select1_None in Eq. specialize (Eq p Hp). cbv beta in Eq.
        rewrite (proj2 (scope_true _ _ _ _)) in Eq by (split; congruence).
        rewrite (proj2 (String.eqb_eq _ _)), (proj2 (Z.eqb_eq _ _)) in Eq by congruence. done.
Qed.

(** A decision is idempotent in its request key: asked again before the
    reservation expires, by any clock, it returns the same delivery and reserves
    nothing new. *)
Theorem decide_replay env env' i b tz db d db' :
  reachable db → decide_tx env day_start i b tz db = (Ok (Some d), db') → pg_now env' < d_expires_at d →
  ∃ db'', decide_tx env' day_start i b tz db' = (Ok (Some d), db'')
    ∧ map d_id (deliveries db'') = map d_id (deliveries db').
Proof.
  intros Hinv%inv_reachable H Hexp.
  destruct (decide_tx_matches _ _ _ _ _ _ _ Hinv H) as (Hd&(Hof&Hk&Hses&Htr&Hst&Hz)&Hlive).
  assert (rows_ok (deliveries db')) as Hr'.
  { pose proof (decide_tx_effect _ _ _ _ _ _ _ _ H) as [_ Hl]. eapply deliveries_step_rows; [apply Hinv|].
    exists (deliveries (touch_and_expire env i db)). split; [apply touch_evolves|].
    destruct Hl as [?|(x&?&?&_)]; eauto. }
  set (db1 := touch_and_expire env' i db').
  assert (In d (deliveries db1)) as Hd1.
  { apply update_where_In. right. split; [done|]. rewrite (proj2 (Z.leb_gt _ _)) by done. apply andb_false_r. }
  assert (select1 (λ d, delivery_of i d && String.eqb (d_request_key d) (di_request_key b)) (deliveries db1) = Some d) as Hsel.
  { destruct (select1_is_Some (λ d, delivery_of i d && String.eqb (d_request_key d) (di_request_key b)) _ _ Hd1) as (y&Hy).
    { by rewrite Hof, Hk, String.eqb_refl. }
    rewrite Hy. f_equal. apply select1_Some in Hy as [Hyin Hyk]. b2p.
    pose proof (rows_ok_evolves _ _ Hr' (touch_evolves env' i db')) as [Hids _ Hreq _ _].
    apply (NoDup_map_eq d_id (deliveries db1)); [done|done|done|]. apply Hreq; [done|done| |congruence].
    unfold delivery_of in *. b2p.
    repeat match goal with H : scope _ _ _ _ = true |- _ => apply scope_true in H as [? ?] end.
    unfold same_installation. split_and!; congruence. }
  exists db1. split.
  - unfold decide_tx, transaction, mbind, M_bind, get, modify, throw_if, mret, M_ret, throw.
    rewrite Hlive. cbn [negb]. fold db1. unfold mret. rewrite Hsel, Hses, Htr, !String.eqb_refl, bool_decide_true by done.
    cbn [negb orb]. rewrite Hst, (bool_decide_true (Reserved = Reserved)) by done.
    replace (publications db1) with (publications db') by done.
    assert (publication_config (i_tenant i) (i_app i) (d_campaign_id d) (d_version d) db1
      = publication_config (i_tenant i) (i_app i) (d_campaign_id d) (d_version d) db') as -> by done.
    by rewrite Hz.
  - apply evolves_ids, touch_evolves.
Qed.
End Requests.

(** ** A run of the service

    One campaign is drafted, published, decided, authorised, shown and paused;
    the witnesses below are taken along this run. *)

Module Run.
Definition T : string := "aaaaaaaa-aaaa-4aaa-8aaa-aaaaaaaaaaaa".
Definition A : string := "bbbbbbbb-bbbb-4bbb-8bbb-bbbbbbbbbbbb".
Definition R : string := "cccccccc-cccc-4ccc-8ccc-cccccccccccc".
Definition hash (s : string) : string := "h" +:+ s.
Definition day_start (_ : string) (t : Z) : Z := t - t mod day.
Definition next_day (_ : string) (t : Z) : Z := t - t mod day + day.

(** A request at second [s]. *)
Definition at_ (s : Z) (id : string) : Env :=
  mkEnv (λ _, s * 1000) (seconds s) id "secret" true true "https://content.example".

Definition config : CampaignConfig :=
  mkConfig [ios] Foreground None (seconds 0) (seconds 100000) 60 2 1 0.
Definition db0 : Db :=
  mkDb [(T, A)] [] [] [] [] [] [] [mkReview T A R ios "run" true "m"] [mkRevision R T A "n" 10 "h<p>" ["buy"]]
    [(T, A, R, mkArtifact "<p>" ["buy"] "h<p>" 10)] [] [] [].
Definition inst : Installation := mkInstallation "inst" T A ios.
Definition ask : DecisionInput := mkDecision "key" "ses" Foreground.
Definition shown : EventInput := mkEventInput "ev1" KPresented "" None.
Definition tapped : EventInput := mkEventInput "ev2" KAction "buy" None.

Definition requests : list (Env * request) :=
  [(at_ 10 "inst", RRegister T A (Some ios));
   (at_ 11 "camp", RSave T A (Some (mkCampaignInput "Sale" R config, 0)) None);
   (at_ 12 "x", RTransition T A "camp" "m" (Some 1) true);
   (at_ 13 "del", RDecide inst (Some ask) true);
   (at_ 14 "x", RAuthorize inst "del");
   (at_ 15 "x", REvent inst "del" (Some shown));
   (at_ 16 "x", REvent inst "del" (Some tapped));
   (at_ 17 "x", RTransition T A "camp" "m" (Some 1) false)].

(** The store after the first [n] requests. *)
Definition store (n : nat) : Db :=
  fold_left (λ db '(env, r), handle hash day_start next_day env r db) (take n requests) db0.

Lemma reachable_fold l db :
  rtc (step hash day_start next_day) db (fold_left (λ db '(env, r), handle hash day_start next_day env r db) l db).
Proof.
  revert db. induction l as [|[env r] l IH]; intros db; simpl; [done|].
  eapply rtc_l; [by exists env, r|]. apply IH.
Qed.
Lemma store_reachable n : reachable hash day_start next_day (store n).
Proof. exists db0. split; [done|]. apply reachable_fold. Qed.
End Run.

Example run_ends_cancelled :
  map (λ d, (d_id d, d_state d, d_authorized_at d)) (deliveries (Run.store 8)) = [("del", Cancelled, Some (seconds 14))]
  ∧ map (λ d, d_state d) (deliveries (Run.store 7)) = [Presented]
  ∧ map (λ p, p_version p) (publications (Run.store 8)) = [1].
Proof. vm_compute. done. Qed.

Lemma delivery_lifecycle_witness :
  reachable Run.hash Run.day_start Run.next_day (Run.store 4)
  ∧ ∃ l, Forall2 evolves (deliveries (Run.store 4)) l ∧ map d_state l = [Authorized].
Proof.
  split; [apply Run.store_reachable|].
  destruct (delivery_lifecycle Run.hash Run.day_start Run.next_day (Run.at_ 14 "x") (RAuthorize Run.inst "del")
    (Run.store 4) (Run.store_reachable 4)) as (l&HF&[Hl|(d&Hl&_)]); exists l; (split; [exact HF|]).
  - rewrite <- Hl. vm_compute. reflexivity.
  - apply Forall2_length in HF. apply (f_equal length) in Hl. rewrite length_app, <- HF in Hl.
    vm_compute in Hl. discriminate.
Defined.

Lemma one_active_delivery_witness :
  ∃ d, In d (deliveries (Run.store 4)) ∧ active_state (d_state d) = true
    ∧ ∀ d', In d' (deliveries (Run.store 4)) → same_installation d d' → active_state (d_state d') = true → d = d'.
Proof.
  destruct (deliveries (Run.store 4)) as [|d l] eqn:E; [vm_compute in E; discriminate|].
  exists d. assert (active_state (d_state d) = true) as Ha by (vm_compute in E; injection E as <- _; reflexivity).
  split; [by left|]. split; [exact Ha|]. intros d' Hd' Hs Ha'. rewrite <- E in Hd'.
  apply (one_active_delivery Run.hash Run.day_start Run.next_day (Run.store 4) d d'
    (Run.store_reachable 4)); [rewrite E; by left|exact Hd'|exact Hs|left; by split].
Defined.

Lemma authorize_respects_cap_witness :
  ∃ db', authorize (Run.at_ 14 "x") Run.inst "del" (Run.store 4) = (Ok (seconds 314), db')
    ∧ total Run.inst "camp" db' <= 1.
Proof.
  destruct (authorize (Run.at_ 14 "x") Run.inst "del" (Run.store 4)) as [r db'] eqn:E.
  assert (r = Ok (seconds 314)) as -> by (apply (f_equal fst) in E; vm_compute in E; by rewrite <- E).
  exists db'. split; [done|].
  assert (db' ≠ Run.store 4) as Hne.
  { intros Heq. apply (f_equal snd) in E. rewrite Heq in E.
    apply (f_equal (λ db, map d_state (deliveries db))) in E. vm_compute in E. discriminate. }
  destruct (authorize_respects_cap Run.hash Run.day_start Run.next_day _ _ _ _ _ _ (Run.store_reachable 4) E Hne)
    as (c&d&Hc&_&_&_&_&_&_&_&Hcap).
  assert (c_id c = "camp" ∧ max_total (c_config c) = 1) as [Hid Hmax].
  { vm_compute in Hc. destruct Hc as [<-|[]]. split; reflexivity. }
  rewrite Hid, Hmax in Hcap. exact Hcap.
Defined.

Lemma pause_is_final_witness :
  ∃ c db', transition (Run.at_ 17 "x") Run.hash Run.T Run.A "camp" "m" (Some 1) false (Run.store 7) = (Ok c, db')
    ∧ ∀ d, In d (deliveries db') → d_tenant d = Run.T → d_app d = Run.A → d_campaign_id d = "camp" →
        ∀ env i, ∃ e, authorize env i (d_id d) db' = (Throw e, db').
Proof.
  destruct (transition (Run.at_ 17 "x") Run.hash Run.T Run.A "camp" "m" (Some 1) false (Run.store 7)) as [r db'] eqn:E.
  destruct r as [c|e]; [|apply (f_equal fst) in E; vm_compute in E; discriminate].
  exists c, db'. split; [done|]. intros d Hd Ht Ha Hc env i.
  apply (pause_is_final Run.hash Run.day_start Run.next_day _ _ _ _ _ _ _ c db' db' d
    (Run.store_reachable 7) E (rtc_refl _ _) Hd Ht Ha Hc).
Defined.

Lemma display_evidence_witness :
  reachable Run.hash Run.day_start Run.next_day (Run.store 7)
  ∧ (∀ i id, row_count (event_of i id) (delivery_events (Run.store 7)) <= 200)
  ∧ map e_kind (delivery_events (Run.store 7)) = [KPresented; KAction].
Proof.
  split; [apply Run.store_reachable|].
  split; [apply (display_evidence _ _ _ _ (Run.store_reachable 7))|]. vm_compute. reflexivity.
Defined.

Lemma publications_immutable_witness :
  publications (Run.store 7) `prefix_of`
    publications (handle Run.hash Run.day_start Run.next_day (Run.at_ 17 "x") (RTransition Run.T Run.A "camp" "m" (Some 1) false) (Run.store 7))
  ∧ length (publications (Run.store 7)) = 1%nat.
Proof.
  split; [|vm_compute; reflexivity].
  apply (publications_immutable _ _ _ _ (RTransition Run.T Run.A "camp" "m" (Some 1) false) _ (Run.store_reachable 7)).
Defined.

Lemma event_replay_witness :
  ∃ db', event (Run.at_ 16 "x") Run.next_day Run.inst "del" (Some Run.tapped) (Run.store 6) = (Ok tt, db')
    ∧ ∀ env, event env Run.next_day Run.inst "del" (Some Run.tapped) db' = (Ok tt, db').
Proof.
  destruct (event (Run.at_ 16 "x") Run.next_day Run.inst "del" (Some Run.tapped) (Run.store 6)) as [r db'] eqn:E.
  assert (r = Ok tt) as -> by (apply (f_equal fst) in E; vm_compute in E; by rewrite <- E).
  exists db'. split; [done|]. intros env.
  apply (event_replay Run.hash Run.day_start Run.next_day _ _ _ _ _ db' env db' (Run.store_reachable 6) E
    (or_introl eq_refl) (rtc_refl _ _)).
Defined.

Lemma decide_replay_witness :
  ∃ d db', decide_tx (Run.at_ 13 "del") Run.day_start Run.inst Run.ask true (Run.store 3) = (Ok (Some d), db')
    ∧ ∃ db'', decide_tx (Run.at_ 20 "del2") Run.day_start Run.inst Run.ask true db' = (Ok (Some d), db'')
        ∧ map d_id (deliveries db'') = map d_id (deliveries db').
Proof.
  destruct (decide_tx (Run.at_ 13 "del") Run.day_start Run.inst Run.ask true (Run.store 3)) as [r db'] eqn:E.
  pose proof (f_equal fst E) as E1. destruct r as [[d|]|e]; [|vm_compute in E1; discriminate..].
  exists d, db'. split; [done|].
  assert (pg_now (Run.at_ 20 "del2") < d_expires_at d) as Hexp.
  { vm_compute in E1. injection E1 as <-. vm_compute. reflexivity. }
  apply (decide_replay Run.hash Run.day_start Run.next_day _ _ _ _ _ _ _ _ (Run.store_reachable 3) E Hexp).
Defined.
