(* ===== verification/Workbench.v ===== *)
(** * The in-app workbench

    [in-app/workbench.service.ts], [sdk.controller.ts] and the file writes of
    [assets.service.ts]: revisions are stored once, a device is paired by a
    code its user confirms, and a test run moves from queued over preparing and
    presented to its end.

    The bundle validator ([validate.ts], [bundle.ts]) is a function of the
    source; a request's parsed input is [None] where its schema fails.  The
    confirmation code shown to the user and the list queries are left out. *)

From Stdlib Require Import Ascii.
From S2P Require Import Prelude JsVal InAppDb.

#[global] Open Scope Z_scope.

(** ** Assets *)

Definition file_is (tenant app id : string) (f : string * string * string * Artifact) : bool :=
  let '(t, a, i, _) := f in String.eqb t tenant && String.eqb a app && String.eqb i id.

Section Workbench.
Context (env : Env) (hash : string → string) (is_uuid : string → bool).

(** [InAppAssets.store]: the artifact appears by one [rename]; a directory that
    exists already is not replaced. *)
Definition store (tenant app id : string) (artifact : Artifact) : DB unit :=
  _ ← requireEnabled env;
  _ ← throw_if (negb (dir_ok tenant app id)) NotFound;
  db ← get;
  _ ← throw_if (existsb (file_is tenant app id) (files db)) (PlainError "ENOTEMPTY");
  modify (set_files (files db ++ [(tenant, app, id, artifact)])).

Definition remove (tenant app id : string) : DB unit :=
  _ ← throw_if (negb (dir_ok tenant app id)) NotFound;
  modify (λ db, set_files (delete_where (file_is tenant app id) (files db)) db).

(** ** Revisions *)

(** [sourceSchema]: the trimmed name, and what was supplied *)
Record Source := mkSource {
  sc_name : string; sc_files : option (list (string * string)); sc_archive : option string; sc_manifest : jsval }.

Context (validateBundle : Source → string + Artifact).

Definition source_bytes_of (tenant : string) (db : Db) : Z :=
  fold_right Z.add 0 (map r_source_bytes (select (λ r, String.eqb (r_tenant r) tenant) (revisions db))).

Definition insert_revision (r : Revision) : DB unit :=
  db ← get;
  _ ← throw_if (existsb (λ x, String.eqb (r_id x) (r_id r)) (revisions db)) unique_violation;
  modify (set_revisions (revisions db ++ [r])).

(** The transaction covers the tables; the file is removed by hand. *)
Definition save_revision (tenant app id : string) (body : Source) (artifact : Artifact) : DB string := λ db,
  match (_ ← throw_if (1073741824 <? source_bytes_of tenant db + a_source_bytes artifact)
               (BadRequestException "Tenant asset quota exceeded (1 GiB)");
         _ ← store tenant app id artifact;
         insert_revision (mkRevision id tenant app (sc_name body) (a_source_bytes artifact)
           (a_artifact_sha256 artifact) (a_actions artifact))) db with
  | (Ok _, db') => (Ok id, db')
  | (Throw e, db') =>
      match remove tenant app id (set_files (files db') db) with
      | (Ok _, db'') => (Throw e, db'')
      | (Throw e', db'') => (Throw e', db'')
      end
  end.

Definition create (tenant app : string) (input : option Source) : DB string :=
  _ ← app_of env tenant app;
  body ← parseInput input;
  _ ← throw_if (Bool.eqb (bool_decide (is_Some (sc_files body)))
                  (match sc_archive body with Some s => negb (String.eqb s "") | None => false end))
        (BadRequestException "Supply files or archive_base64");
  artifact ← match validateBundle body with
             | inr a => mret a
             | inl code => throw (BadRequestException code)
             end;
  save_revision tenant app (uuid env) body artifact.

(** ** Devices *)

Definition device_at (tenant app id : string) (d : TestDevice) : bool :=
  scope tenant app (t_tenant d) (t_app d) && String.eqb (t_id d) id.

(** The pairing token *)
Definition pairing (tenant app : string) : DB string :=
  _ ← app_of env tenant app;
  db ← get;
  _ ← throw_if (20 <=? row_count (λ d, scope tenant app (t_tenant d) (t_app d)
                  && (pg_now env - minutes 5 <? t_created_at d)) (test_devices db))
        (BadRequestException "PAIRING_LIMIT");
  _ ← throw_if (existsb (λ d, String.eqb (t_id d) (uuid env)) (test_devices db)) unique_violation;
  _ ← modify (set_test_devices (test_devices db ++
        [mkDevice (uuid env) tenant app (hash (secret env)) None Waiting None None None
           (pg_now env + minutes 5) None (pg_now env)]));
  mret (uuid env +:+ "." +:+ secret env).

(** a device's row with another state *)
Definition with_state (st : DeviceState) (expires : Z) (d : TestDevice) : TestDevice :=
  mkDevice (t_id d) (t_tenant d) (t_app d) (t_pairing_hash d) (t_credential_hash d) st (t_label d) (t_platform d)
    (t_sdk_version d) expires (t_last_seen_at d) (t_created_at d).

Definition confirmable (tenant app id : string) (d : TestDevice) : bool :=
  device_at tenant app id d && bool_decide (t_state d = Claimed) && (pg_now env <? t_expires_at d).

Definition confirm (tenant app id : string) : DB unit :=
  db ← get;
  _ ← modify (set_test_devices (update_where (confirmable tenant app id)
        (with_state Active (pg_now env + minutes 30)) (test_devices db)));
  throw_if (row_count (confirmable tenant app id) (test_devices db) =? 0)
    (ConflictException "Pairing expired or not claimed").

(** ** Runs *)

Definition run_at (tenant app id : string) (r : TestRun) : bool :=
  scope tenant app (n_tenant r) (n_app r) && String.eqb (n_id r) id.

(** [SET state=..., error_code=..., expires_at=...] *)
Definition run_to (st : RunState) (error : option string) (expires : Z) (r : TestRun) : TestRun :=
  mkRun (n_id r) (n_tenant r) (n_app r) (n_revision_id r) (n_device_id r) (n_request_key r) (n_retry_of r) st error
    expires (n_created_at r).

Definition update_runs (p : TestRun → bool) (f : TestRun → TestRun) : DB unit :=
  modify (λ db, set_test_runs (update_where p f (test_runs db)) db).

Definition to_cancelled (r : TestRun) : TestRun := run_to RCancelled (n_error_code r) (n_expires_at r) r.

Definition revoke (tenant app id : string) : DB unit :=
  _ ← modify (λ db, set_test_devices (update_where (device_at tenant app id)
        (λ d, with_state Revoked (t_expires_at d) d) (test_devices db)) db);
  update_runs (λ r, scope tenant app (n_tenant r) (n_app r) && String.eqb (n_device_id r) id && run_active (n_state r))
    to_cancelled.

Definition expire (tenant app : string) : DB unit :=
  update_runs (λ r, scope tenant app (n_tenant r) (n_app r) && (n_expires_at r <=? pg_now env) && run_active (n_state r))
    (λ r, run_to RExpired (Some "RUN_EXPIRED") (n_expires_at r) r).

Definition cancel (tenant app id : string) : DB unit :=
  update_runs (λ r, run_at tenant app id r && run_active (n_state r)) to_cancelled.

Record RunInput := mkRunInput {
  ri_revision_id : string; ri_device_id : string; ri_request_key : string; ri_retry_of : option string }.

Definition same_input (body : RunInput) (r : TestRun) : bool :=
  String.eqb (n_device_id r) (ri_device_id body) && String.eqb (n_revision_id r) (ri_revision_id body)
  && bool_decide (n_retry_of r = ri_retry_of body).

Definition keyed (tenant app key : string) (r : TestRun) : bool :=
  scope tenant app (n_tenant r) (n_app r) && String.eqb (n_request_key r) key.

(** primary key, [UNIQUE (tenant_id, app_id, request_key)] and
    [in_app_test_runs_one_active] *)
Definition insert_run (r : TestRun) : DB TestRun :=
  db ← get;
  _ ← throw_if (existsb (λ x, String.eqb (n_id x) (n_id r)
          || keyed (n_tenant r) (n_app r) (n_request_key r) x
          || scope (n_tenant r) (n_app r) (n_tenant x) (n_app x) && String.eqb (n_device_id x) (n_device_id r)
             && run_active (n_state x) && run_active (n_state r)) (test_runs db)) unique_violation;
  _ ← modify (set_test_runs (test_runs db ++ [r]));
  mret r.

Definition new_run (tenant app : string) (body : RunInput) : DB TestRun :=
  db ← get;
  _ ← throw_if (negb (existsb (λ d, device_at tenant app (ri_device_id body) d && bool_decide (t_state d = Active)
                                    && (pg_now env <? t_expires_at d)) (test_devices db)))
        (BadRequestException "DEVICE_OFFLINE");
  _ ← throw_if (negb (existsb (λ r, scope tenant app (r_tenant r) (r_app r) && String.eqb (r_id r) (ri_revision_id body))
                        (revisions db))) NotFound;
  _ ← throw_if (match ri_retry_of body with
                | Some id => negb (existsb (run_at tenant app id) (test_runs db))
                | None => false end) NotFound;
  insert_run (mkRun (uuid env) tenant app (ri_revision_id body) (ri_device_id body) (ri_request_key body)
    (ri_retry_of body) Queued None (pg_now env + minutes 2) (pg_now env)).

(** The transaction of [run], and what a unique violation is answered with *)
Definition queue_run (tenant app : string) (body : RunInput) : DB TestRun := λ db,
  match transaction (new_run tenant app body) db with
  | (Ok r, db') => (Ok r, db')
  | (Throw e, db') =>
      if bool_decide (e = unique_violation) then
        match select1 (keyed tenant app (ri_request_key body)) (test_runs db') with
        | Some retry =>
            if same_input body retry then (Ok retry, db')
            else (Throw (ConflictException "A test is already active, or the request key has changed input"), db')
        | None => (Throw (ConflictException "A test is already active, or the request key has changed input"), db')
        end
      else (Throw e, db')
  end.

(** [meanwhile]: what other requests commit between the look-up of the request
    key and the transaction. *)
Definition run (meanwhile : Db → Db) (tenant app : string) (input : option RunInput) : DB TestRun :=
  _ ← app_of env tenant app;
  _ ← expire tenant app;
  body ← parseInput input;
  db ← get;
  match select1 (keyed tenant app (ri_request_key body)) (test_runs db) with
  | Some old =>
      _ ← throw_if (negb (same_input body old)) (ConflictException "Idempotency key reused for different input");
      mret old
  | None =>
      _ ← modify meanwhile;
      queue_run tenant app body
  end.

(** ** The SDK's side ([InAppTestSdkController]) *)

Definition token_char (c : ascii) : bool :=
  is_digit c || is_lower c || is_upper c || Ascii.eqb c "_" || Ascii.eqb c "-".
(** [/^[A-Za-z0-9_-]{43}$/] *)
Definition token_format (t : string) : bool := (String.length t =? 43)%nat && str_forallb token_char t.

Definition session_of (tenant app token : string) (d : TestDevice) : bool :=
  scope tenant app (t_tenant d) (t_app d) && bool_decide (t_credential_hash d = Some (hash token))
  && (pg_now env <? t_expires_at d) && match t_state d with Claimed | Active => true | _ => false end.

Definition seen (d : TestDevice) : TestDevice :=
  mkDevice (t_id d) (t_tenant d) (t_app d) (t_pairing_hash d) (t_credential_hash d) (t_state d) (t_label d) (t_platform d)
    (t_sdk_version d) (t_expires_at d) (Some (pg_now env)) (t_created_at d).

(** The device of the request *)
Definition auth (tenant app : string) (token : option string) : DB TestDevice :=
  _ ← requireEnabled env;
  let t := default "" token in
  _ ← throw_if (negb (token_format t)) Unauthorized;
  db ← get;
  _ ← modify (set_test_devices (update_where (session_of tenant app t) seen (test_devices db)));
  d ← some_or_throw (select1 (session_of tenant app t) (test_devices db)) (UnauthorizedException "TEST_SESSION_EXPIRED");
  mret (seen d).

Record PairInput := mkPair { pi_token : string; pi_label : string; pi_platform : Platform; pi_sdk_version : string }.

Definition pairable (tenant app id secret : string) (d : TestDevice) : bool :=
  device_at tenant app id d && String.eqb (t_pairing_hash d) (hash secret) && bool_decide (t_state d = Waiting)
  && (pg_now env <? t_expires_at d).

(** The credential of the paired device *)
Definition pair (tenant app : string) (input : option PairInput) : DB string :=
  _ ← requireEnabled env;
  body ← parseInput input;
  match split_on "." (pi_token body) with
  | [id; sec] =>
      _ ← throw_if (negb (is_uuid id) || String.eqb sec "") Unauthorized;
      let credential := secret env in
      db ← get;
      _ ← modify (set_test_devices (update_where (pairable tenant app id sec)
            (λ d, mkDevice (t_id d) (t_tenant d) (t_app d) (t_pairing_hash d) (Some (hash credential)) Claimed
                    (Some (pi_label body)) (Some (pi_platform body)) (Some (pi_sdk_version body)) (t_expires_at d)
                    (Some (pg_now env)) (t_created_at d)) (test_devices db)));
      _ ← throw_if (row_count (pairable tenant app id sec) (test_devices db) =? 0)
            (UnauthorizedException "PAIRING_EXPIRED_OR_USED");
      mret credential
  | _ => throw Unauthorized
  end.

(** [ORDER BY created_at LIMIT 1] *)
Definition oldest (l : list TestRun) : option TestRun :=
  fold_left (λ best r, match best with
    | Some b => if n_created_at r <? n_created_at b then Some r else best
    | None => Some r end) l None.

Definition commands (tenant app : string) (token : option string) : DB (DeviceState * option TestRun) :=
  d ← auth tenant app token;
  _ ← expire (t_tenant d) (t_app d);
  if negb (bool_decide (t_state d = Active)) then mret (t_state d, None)
  else
    db ← get;
    mret (t_state d, oldest (select (λ r, scope (t_tenant d) (t_app d) (n_tenant r) (n_app r)
      && String.eqb (n_device_id r) (t_id d) && run_active (n_state r)) (test_runs db))).

Definition claimable (d : TestDevice) (id : string) (r : TestRun) : bool :=
  run_at (t_tenant d) (t_app d) id r && String.eqb (n_device_id r) (t_id d) && bool_decide (n_state r = Queued)
  && (pg_now env <? n_expires_at r).

Definition claim (tenant app : string) (token : option string) (id : string) : DB Artifact :=
  d ← auth tenant app token;
  _ ← throw_if (negb (bool_decide (t_state d = Active))) Unauthorized;
  db ← get;
  _ ← update_runs (claimable d id) (λ r, run_to Preparing (n_error_code r) (pg_now env + minutes 5) r);
  r ← some_or_throw (select1 (claimable d id) (test_runs db)) (ConflictException "RUN_ALREADY_CLAIMED_OR_EXPIRED");
  read hash (t_tenant d) (t_app d) (n_revision_id r).

Definition event_kinds : list string :=
  ["bridge_ready"; "content_ready"; "presented"; "impression"; "action"; "dismiss"; "failed"; "log"].
Record RunEvent := mkRunEvent { re_event_id : string; re_kind : string; re_detail : string }.

Definition event_at (tenant app run : string) (e : TestEvent) : bool :=
  scope tenant app (w_tenant e) (w_app e) && String.eqb (w_run_id e) run.

(** [INSERT ... ON CONFLICT DO NOTHING]: the key, and [in_app_test_events_once] *)
Definition insert_event (e : TestEvent) : DB unit :=
  db ← get;
  if existsb (λ x, event_at (w_tenant e) (w_app e) (w_run_id e) x
       && (String.eqb (w_event_id x) (w_event_id e)
           || String.eqb (w_kind x) (w_kind e) && String_in (w_kind e) ["presented"; "impression"])) (test_events db)
  then mret tt
  else modify (set_test_events (test_events db ++ [e])).

Definition next_state (kind : string) (s : RunState) : RunState :=
  if String.eqb kind "presented" then RPresented
  else if String.eqb kind "dismiss" then RCompleted
  else if String.eqb kind "failed" then RFailed
  else s.

(** The transaction of [event] for the device [d] *)
Definition record_event (d : TestDevice) (id : string) (body : RunEvent) : DB unit :=
  db ← get;
  run ← some_or_throw (select1 (λ r, run_at (t_tenant d) (t_app d) id r && String.eqb (n_device_id r) (t_id d)) (test_runs db))
          NotFound;
  match select1 (λ e, event_at (t_tenant d) (t_app d) id e && String.eqb (w_event_id e) (re_event_id body)) (test_events db) with
  | Some old =>
      throw_if (negb (String.eqb (w_kind old) (re_kind body) && String.eqb (w_detail old) (re_detail body)))
        (ConflictException "EVENT_ID_REUSED")
  | None =>
      _ ← throw_if (negb (bool_decide (n_state run = Preparing) || bool_decide (n_state run = RPresented))
                    || (getTime (n_expires_at run) <=? Date_now env 0)) (ConflictException "RUN_CLOSED");
      _ ← throw_if (200 <=? row_count (event_at (t_tenant d) (t_app d) id) (test_events db)) (ConflictException "EVENT_LIMIT");
      _ ← throw_if (String_in (re_kind body) ["impression"; "action"] && negb (bool_decide (n_state run = RPresented)))
            (ConflictException "NOT_PRESENTED");
      _ ← insert_event (mkTestEvent (t_tenant d) (t_app d) id (re_event_id body) (re_kind body) (re_detail body));
      update_runs (run_at (t_tenant d) (t_app d) id)
        (λ r, run_to (next_state (re_kind body) (n_state run))
                (if String.eqb (re_kind body) "failed" then Some (re_detail body) else None) (n_expires_at r) r)
  end.

Definition event (tenant app : string) (token : option string) (id : string) (input : option RunEvent) : DB unit :=
  d ← auth tenant app token;
  _ ← throw_if (negb (bool_decide (t_state d = Active))) Unauthorized;
  body ← parseInput (e ← input; if String_in (re_kind e) event_kinds then Some e else None);
  transaction (record_event d id body).

Definition end_session (tenant app : string) (token : option string) : DB unit :=
  d ← auth tenant app token;
  revoke (t_tenant d) (t_app d) (t_id d).
End Workbench.
