(* ===== verification/WorkbenchProps.v ===== *)
(** * The in-app workbench: the life of a test run

    [evolves]: every request keeps the invariant [bench_ok] of runs and events
    and moves runs forward only.  The requests of console and SDK are one type
    with one step function; a request to start a run carries the requests that
    other sessions have committed while it was under way. *)

From S2P Require Import Prelude JsVal InAppDb Workbench.

#[global] Open Scope Z_scope.

(** ** The order of a run's states *)

Definition rank (s : RunState) : nat :=
  match s with Queued => 0 | Preparing => 1 | RPresented => 2 | _ => 3 end.
(** queued, preparing, presented, then one of four ends *)
Definition later (s s' : RunState) : Prop := s' = s ∨ run_active s = true ∧ (rank s <= rank s')%nat.

Lemma later_trans s1 s2 s3 : later s1 s2 → later s2 s3 → later s1 s3.
Proof.
  unfold later. intros [->|[H1 H2]] [->|[H3 H4]]; auto. right. split; [done|lia].
Qed.

(** What a run keeps, and where its state may go *)
Record moves (r r' : TestRun) : Prop := {
  mv_id : n_id r' = n_id r; mv_tenant : n_tenant r' = n_tenant r; mv_app : n_app r' = n_app r;
  mv_revision : n_revision_id r' = n_revision_id r; mv_device : n_device_id r' = n_device_id r;
  mv_key : n_request_key r' = n_request_key r; mv_retry : n_retry_of r' = n_retry_of r;
  mv_created : n_created_at r' = n_created_at r; mv_state : later (n_state r) (n_state r') }.

#[global] Instance moves_preorder : PreOrder moves.
Proof.
  split; [intros r; split; try done; by left|].
  intros r1 r2 r3 [] []. split; try congruence. by eapply later_trans.
Qed.

Lemma run_moves_active r r' : moves r r' → run_active (n_state r') = true → run_active (n_state r) = true.
Proof. intros H Ha. destruct (mv_state _ _ H) as [E|[? _]]; [by rewrite <- E|done]. Qed.

(** ** The invariant *)

Definition shown (s : RunState) : bool := (2 <=? rank s)%nat.

Record bench_ok (d : Db) : Prop := {
  bo_ids : List.NoDup (map n_id (test_runs d));
  bo_active : ∀ r r', In r (test_runs d) → In r' (test_runs d) →
    n_tenant r = n_tenant r' → n_app r = n_app r' → n_device_id r = n_device_id r' →
    run_active (n_state r) = true → run_active (n_state r') = true → n_id r = n_id r';
  bo_keys : ∀ r r', In r (test_runs d) → In r' (test_runs d) →
    n_tenant r = n_tenant r' → n_app r = n_app r' → n_request_key r = n_request_key r' → n_id r = n_id r';
  bo_events : ∀ t a i, row_count (event_at t a i) (test_events d) <= 200;
  bo_event_ids : ∀ t a i e, row_count (λ x, event_at t a i x && String.eqb (w_event_id x) e) (test_events d) <= 1;
  bo_once : ∀ t a i k, String_in k ["presented"; "impression"] = true →
    row_count (λ x, event_at t a i x && String.eqb (w_kind x) k) (test_events d) <= 1;
  bo_shown : ∀ e, In e (test_events d) → String_in (w_kind e) ["impression"; "action"] = true →
    ∃ r, In r (test_runs d) ∧ run_at (w_tenant e) (w_app e) (w_run_id e) r = true ∧ shown (n_state r) = true }.

Definition runs_move (d d' : Db) : Prop :=
  ∃ old new, test_runs d' = old ++ new ∧ Forall2 moves (test_runs d) old.

Definition evolves (d d' : Db) : Prop := bench_ok d → bench_ok d' ∧ runs_move d d'.

Lemma runs_move_same d d' : test_runs d' = test_runs d → runs_move d d'.
Proof.
  intros E. exists (test_runs d), []. rewrite app_nil_r. split; [done|]. by apply Forall_Forall2_diag, Forall_forall.
Qed.

Lemma runs_move_trans d1 d2 d3 : runs_move d1 d2 → runs_move d2 d3 → runs_move d1 d3.
Proof.
  intros (o1&w1&E1&F1) (o2&w2&E2&F2). rewrite E1 in F2.
  apply Forall2_app_inv_l in F2 as (a&b&Fa&Fb&->). exists a, (b ++ w2). split; [by rewrite E2, <- app_assoc|].
  eapply Forall2_trans; [|exact F1|exact Fa]. intros x y z. apply moves_preorder.
Qed.

#[global] Instance evolves_preorder : PreOrder evolves.
Proof.
  split; [intros d Hd; split; [done|by apply runs_move_same]|].
  intros d1 d2 d3 H12 H23 H1. destruct (H12 H1) as [H2 M12]. destruct (H23 H2) as [H3 M23].
  split; [done|by eapply runs_move_trans].
Qed.

Lemma run_at_moves t a i r r' : moves r r' → run_at t a i r' = run_at t a i r.
Proof. intros H. unfold run_at. by rewrite (mv_tenant _ _ H), (mv_app _ _ H), (mv_id _ _ H). Qed.

Lemma shown_moves r r' : moves r r' → shown (n_state r) = true → shown (n_state r') = true.
Proof.
  intros H. unfold shown. rewrite !Nat.leb_le. destruct (mv_state _ _ H) as [->|[_ ?]]; [done|lia].
Qed.

(** Writes that leave runs and events alone *)
Lemma evolves_frame d d' : test_runs d' = test_runs d → test_events d' = test_events d → evolves d d'.
Proof.
  intros Hr He [H1 H2 H3 H4 H5 H6 H7]. split.
  - split; rewrite ?Hr, ?He; done.
  - by apply runs_move_same.
Qed.

(** Writes that move runs *)
Lemma evolves_moves d d' : Forall2 moves (test_runs d) (test_runs d') → test_events d' = test_events d → evolves d d'.
Proof.
  intros HF He Hok. split; [|exists (test_runs d'), []; by rewrite app_nil_r].
  assert (∀ r', In r' (test_runs d') → ∃ r, In r (test_runs d) ∧ moves r r') as Hback by (intros; by eapply Forall2_In_r).
  split; rewrite ?He.
  - replace (map n_id (test_runs d')) with (map n_id (test_runs d)); [apply Hok|].
    induction HF as [|x y l l' Hxy HF IH]; [done|]. simpl. f_equal; [by rewrite (mv_id _ _ Hxy)|].
    clear -HF. induction HF as [|x y l l' Hxy HF IH]; [done|]. simpl. f_equal; [by rewrite (mv_id _ _ Hxy)|done].
  - intros x y Hx Hy. destruct (Hback x Hx) as (x0&Hx0&Mx), (Hback y Hy) as (y0&Hy0&My).
    rewrite (mv_id _ _ Mx), (mv_id _ _ My), (mv_tenant _ _ Mx), (mv_tenant _ _ My), (mv_app _ _ Mx), (mv_app _ _ My),
      (mv_device _ _ Mx), (mv_device _ _ My). intros ??? Ax Ay.
    apply (bo_active _ Hok); try done; by eapply run_moves_active.
  - intros x y Hx Hy. destruct (Hback x Hx) as (x0&Hx0&Mx), (Hback y Hy) as (y0&Hy0&My).
    rewrite (mv_id _ _ Mx), (mv_id _ _ My), (mv_tenant _ _ Mx), (mv_tenant _ _ My), (mv_app _ _ Mx), (mv_app _ _ My),
      (mv_key _ _ Mx), (mv_key _ _ My). intros. by apply (bo_keys _ Hok).
  - apply Hok.
  - apply Hok.
  - apply Hok.
  - intros e Hin Hk. destruct (bo_shown _ Hok e Hin Hk) as (r&Hr&Hat&Hs).
    destruct (Forall2_In_l _ _ _ _ HF Hr) as (r'&Hr'&M). exists r'. split; [done|]. split.
    + by rewrite (run_at_moves _ _ _ _ _ M).
    + by eapply shown_moves.
Qed.

Lemma update_where_Forall2 {A} (R : A → A → Prop) `{!Reflexive R} p f (l : list A) :
  (∀ x, In x l → p x = true → R x (f x)) → Forall2 R l (update_where p f l).
Proof.
  unfold update_where. induction l as [|x l IH]; intros H; simpl; constructor.
  - destruct (p x) eqn:E; [apply H; [by left|done]|reflexivity].
  - apply IH. intros y Hy. apply H. by right.
Qed.

Lemma within_update_runs p f : (∀ r, p r = true → moves r (f r)) → within evolves (update_runs p f).
Proof.
  intros H. apply within_modify. intros d. apply evolves_moves; [|done].
  apply update_where_Forall2; [apply _|]. intros x _. apply H.
Qed.

(** An active run may end, in any way *)
Lemma moves_to s e x r : run_active (n_state r) = true → (rank (n_state r) <= rank s)%nat → moves r (run_to s e x r).
Proof. intros Ha Hr. split; try done. right. done. Qed.

Lemma rank_end s : rank s = 3%nat → ∀ s', (rank s' <= rank s)%nat.
Proof. intros -> s'. destruct s'; simpl; lia. Qed.

(** ** The operations *)

Section Ops.
Context (env : Env) (hash : string → string) (is_uuid : string → bool) (validateBundle : Source → string + Artifact).
Abbreviation within_ := (within evolves).

Lemma within_frame f : (∀ d, test_runs (f d) = test_runs d ∧ test_events (f d) = test_events d) → within_ (modify f).
Proof. intros H. apply within_modify. intros d. by apply evolves_frame; apply H. Qed.

Lemma within_requireEnabled : within_ (requireEnabled env).
Proof. unfold requireEnabled. within_tac. Qed.
Lemma within_app_of t a : within_ (app_of env t a).
Proof. unfold app_of, requireEnabled. within_tac. Qed.
Lemma within_parse {A} (p : option A) : within_ (parseInput p).
Proof. unfold parseInput. within_tac. Qed.
Lemma within_read t a i : within_ (read hash t a i).
Proof. unfold read. within_tac. Qed.
#[local] Hint Resolve within_requireEnabled within_app_of within_read : within.
#[local] Hint Extern 1 (within _ (parseInput _)) => apply within_parse : within.
#[local] Hint Extern 2 (within _ (modify _)) => apply within_frame; intros; split; reflexivity : within.

Lemma within_store t a i x : within_ (store env t a i x).
Proof. unfold store. within_tac. Qed.
Lemma within_file_remove t a i : within_ (remove t a i).
Proof. unfold remove. within_tac. Qed.
Lemma within_insert_revision r : within_ (insert_revision r).
Proof. unfold insert_revision. within_tac. Qed.
#[local] Hint Resolve within_store within_insert_revision : within.

Lemma within_save t a i body x : within_ (save_revision env t a i body x).
Proof.
  intros db. unfold save_revision.
  match goal with |- context [match ?m db with _ => _ end] => assert (within_ m) as Hm by within_tac;
    specialize (Hm db); destruct (m db) as [[u|e] db'] end; [done|].
  pose proof (within_file_remove t a i (set_files (files db') db)) as Hr.
  assert (evolves db (set_files (files db') db)) as Hf by (by apply evolves_frame).
  destruct (remove t a i (set_files (files db') db)) as [[u|e'] db'']; (etrans; [exact Hf|exact Hr]).
Qed.
#[local] Hint Resolve within_save : within.

Lemma within_create_revision t a input : within_ (create env validateBundle t a input).
Proof. unfold create. within_tac. Qed.
Lemma within_pairing t a : within_ (pairing env hash t a).
Proof. unfold pairing. within_tac. Qed.
Lemma within_confirm t a i : within_ (confirm env t a i).
Proof. unfold confirm. within_tac. Qed.
Lemma within_auth t a tok : within_ (auth env hash t a tok).
Proof. unfold auth. within_tac. Qed.
Lemma within_pair t a input : within_ (pair env hash is_uuid t a input).
Proof. unfold pair. within_tac. Qed.

Lemma within_revoke_device t a i : within_ (revoke t a i).
Proof.
  unfold revoke. within_step; [within_tac|]. apply within_update_runs. intros r [_ Ha]%andb_true_iff.
  apply moves_to; [done|]. by apply rank_end.
Qed.
Lemma within_expire t a : within_ (expire env t a).
Proof.
  apply within_update_runs. intros r [_ Ha]%andb_true_iff. apply moves_to; [done|]. by apply rank_end.
Qed.
Lemma within_cancel t a i : within_ (cancel t a i).
Proof.
  apply within_update_runs. intros r [_ Ha]%andb_true_iff. apply moves_to; [done|]. by apply rank_end.
Qed.
#[local] Hint Resolve within_auth within_revoke_device within_expire : within.

Lemma within_commands t a tok : within_ (commands env hash t a tok).
Proof. unfold commands. within_tac. Qed.
Lemma within_end t a tok : within_ (end_session env hash t a tok).
Proof. unfold end_session. within_tac. Qed.

Lemma within_run_claim t a tok i : within_ (claim env hash t a tok i).
Proof.
  unfold claim. do 3 (within_step; [within_tac|]). within_step; [|within_tac].
  apply within_update_runs. intros r Hr. unfold claimable in Hr. b2p.
  match goal with H : n_state r = Queued |- _ => apply moves_to; rewrite H; simpl; [done|lia] end.
Qed.

(** A new run: its row passed the unique checks. *)
Lemma evolves_insert r d : n_state r = Queued →
  existsb (λ x, String.eqb (n_id x) (n_id r)
          || keyed (n_tenant r) (n_app r) (n_request_key r) x
          || scope (n_tenant r) (n_app r) (n_tenant x) (n_app x) && String.eqb (n_device_id x) (n_device_id r)
             && run_active (n_state x) && run_active (n_state r)) (test_runs d) = false →
  evolves d (set_test_runs (test_runs d ++ [r]) d).
Proof.
  intros Hq Hfree Hok.
  assert (∀ x, In x (test_runs d) → n_id x ≠ n_id r ∧
    (n_tenant x = n_tenant r → n_app x = n_app r → n_request_key x ≠ n_request_key r ∧
       (n_device_id x = n_device_id r → run_active (n_state x) = false))) as Hx.
  { intros x Hin. pose proof (existsb_fresh _ _ Hfree x Hin) as Hf. simpl in Hf.
    apply orb_false_iff in Hf as [[Hid Hkey]%orb_false_iff Hact]. apply String.eqb_neq in Hid.
    split; [done|]. intros Ht Ha. unfold keyed, scope in Hkey, Hact. rewrite Ht, Ha, !String.eqb_refl in Hkey, Hact.
    simpl in Hkey, Hact. apply String.eqb_neq in Hkey. split; [done|]. intros Hd.
    rewrite Hd, String.eqb_refl, Hq, andb_true_r in Hact. done. }
  split.
  - split; cbn [test_runs test_events set_test_runs]; try apply Hok.
    + apply NoDup_key_snoc; [apply Hok|]. intros y Hy. by apply Hx.
    + intros x y [Hxi|[<-|[]]]%in_app_iff [Hyi|[<-|[]]]%in_app_iff Ht Ha Hd Ax Ay; try done.
      * by apply (bo_active _ Hok).
      * destruct (Hx x Hxi) as [_ H]. destruct (H Ht Ha) as [_ H']. rewrite H' in Ax; done.
      * destruct (Hx y Hyi) as [_ H]. destruct (H (eq_sym Ht) (eq_sym Ha)) as [_ H']. rewrite H' in Ay; done.
    + intros x y [Hxi|[<-|[]]]%in_app_iff [Hyi|[<-|[]]]%in_app_iff Ht Ha Hk; try done.
      * by apply (bo_keys _ Hok).
      * destruct (Hx x Hxi) as [_ H]. by destruct (H Ht Ha).
      * destruct (Hx y Hyi) as [_ H]. by destruct (H (eq_sym Ht) (eq_sym Ha)).
    + intros e He Hk. destruct (bo_shown _ Hok e He Hk) as (y&Hy&?). exists y. split; [apply in_app_iff; by left|done].
  - exists (test_runs d), [r]. split; [done|]. apply Forall_Forall2_diag, Forall_forall. done.
Qed.

Lemma within_new_run t a body : within_ (new_run env t a body).
Proof.
  unfold new_run. do 4 (within_step; [within_tac|]). unfold insert_run. apply within_get. intros d.
  unfold throw_if. destruct (existsb _ _) eqn:E; [reflexivity|]. by apply evolves_insert.
Qed.

Lemma within_queue t a body : within_ (queue_run env t a body).
Proof.
  intros d. unfold queue_run. pose proof (within_transaction evolves (new_run env t a body) (within_new_run t a body) d) as H.
  destruct (transaction (new_run env t a body) d) as [[r|e] d']; [done|].
  repeat case_match; done.
Qed.

Lemma within_run_test meanwhile t a input : (∀ d, evolves d (meanwhile d)) → within_ (run env meanwhile t a input).
Proof.
  intros Hm. unfold run. do 4 (within_step; [within_tac|]). within_step; [within_tac|].
  within_step; [by apply within_modify|apply within_queue].
Qed.
(** ** Events *)

Lemma event_at_eq t a i x e :
  event_at t a i x = true → event_at t a i e = event_at (w_tenant x) (w_app x) (w_run_id x) e.
Proof. unfold event_at, scope. intros H. b2p. by subst. Qed.

Lemma row_count_one {R} (p : R → bool) l : existsb p l = false → row_count p l = 0.
Proof. intros H. apply row_count_0. by apply existsb_fresh. Qed.

Lemma insert_event_cases e d :
  (insert_event e d).2 = d ∨
  (insert_event e d).2 = set_test_events (test_events d ++ [e]) d ∧
  ∀ x, In x (test_events d) → event_at (w_tenant e) (w_app e) (w_run_id e) x = true →
    String.eqb (w_event_id x) (w_event_id e) = false ∧
    (String_in (w_kind e) ["presented"; "impression"] = true → String.eqb (w_kind x) (w_kind e) = false).
Proof.
  unfold insert_event, mbind, M_bind, get. destruct (existsb _ _) eqn:E; [by left|]. right. split; [done|].
  intros x Hx Hat. pose proof (existsb_fresh _ _ E x Hx) as H. simpl in H. rewrite Hat in H. simpl in H.
  apply orb_false_iff in H as [H1 H2]. split; [done|]. intros Hk. by rewrite Hk, andb_true_r in H2.
Qed.

Lemma evolves_insert_event e d :
  row_count (event_at (w_tenant e) (w_app e) (w_run_id e)) (test_events d) < 200 →
  (String_in (w_kind e) ["impression"; "action"] = true →
     ∃ r, In r (test_runs d) ∧ run_at (w_tenant e) (w_app e) (w_run_id e) r = true ∧ shown (n_state r) = true) →
  evolves d (insert_event e d).2 ∧ test_runs (insert_event e d).2 = test_runs d.
Proof.
  intros Hn Hsh. destruct (insert_event_cases e d) as [->|[-> Hnew]]; [split; [reflexivity|done]|].
  split; [|done]. intros Hok. split; [|by apply runs_move_same].
  (* no row of the same group has the new row's mark *)
  assert (∀ (mark : TestEvent → string) t a i k, mark e = k →
    (∀ x, In x (test_events d) → event_at (w_tenant e) (w_app e) (w_run_id e) x = true → String.eqb (mark x) k = false) →
    event_at t a i e = true → row_count (λ x, event_at t a i x && String.eqb (mark x) k) (test_events d) = 0) as Hgroup.
  { intros mark t a i k _ Hm Hat. apply row_count_0. intros x Hx.
    destruct (event_at t a i x) eqn:Ex; [|done]. simpl. apply Hm; [done|].
    rewrite (event_at_eq _ _ _ x e Ex) in Hat. unfold event_at, scope in Hat |- *. b2p.
    repeat match goal with H : _ = _ |- _ => rewrite H end. by rewrite !String.eqb_refl. }
  split; cbn [test_runs test_events set_test_events]; try apply Hok.
  - intros t a i. rewrite row_count_snoc. pose proof (bo_events _ Hok t a i).
    destruct (event_at t a i e) eqn:E; [|lia].
    assert (row_count (event_at t a i) (test_events d) < 200); [|lia].
    unfold event_at, scope in E. b2p. subst. done.
  - intros t a i k. rewrite row_count_snoc. pose proof (bo_event_ids _ Hok t a i k).
    destruct (event_at t a i e && String.eqb (w_event_id e) k) eqn:E; [|lia].
    apply andb_true_iff in E as [E <-%String.eqb_eq]. pose proof (Hgroup w_event_id t a i _ eq_refl (λ x Hx Hat, proj1 (Hnew x Hx Hat)) E). lia.
  - intros t a i k Hk. rewrite row_count_snoc. pose proof (bo_once _ Hok t a i k Hk).
    destruct (event_at t a i e && String.eqb (w_kind e) k) eqn:E; [|lia].
    apply andb_true_iff in E as [E <-%String.eqb_eq]. pose proof (Hgroup w_kind t a i _ eq_refl (λ x Hx Hat, proj2 (Hnew x Hx Hat) Hk) E). lia.
  - intros x [Hx|[<-|[]]]%in_app_iff Hk; [by apply (bo_shown _ Hok)|by apply Hsh].
Qed.

Lemma insert_test_event_ok e d : insert_event e d = (Ok tt, (insert_event e d).2).
Proof. unfold insert_event, mbind, M_bind, get. by case_match. Qed.

Lemma next_state_rank k s : s = Preparing ∨ s = RPresented → (rank s <= rank (next_state k s))%nat.
Proof. unfold next_state. intros [-> | ->]; repeat case_match; simpl; lia. Qed.

(** The last two writes of [record_event], for a run that is under way *)
Lemma evolves_record d id body r db :
  In r (test_runs db) → run_at (t_tenant d) (t_app d) id r = true →
  n_state r = Preparing ∨ n_state r = RPresented →
  row_count (event_at (t_tenant d) (t_app d) id) (test_events db) < 200 →
  (String_in (re_kind body) ["impression"; "action"] = true → n_state r = RPresented) →
  evolves db ((_ ← insert_event (mkTestEvent (t_tenant d) (t_app d) id (re_event_id body) (re_kind body) (re_detail body));
    update_runs (run_at (t_tenant d) (t_app d) id)
      (λ r0, run_to (next_state (re_kind body) (n_state r))
              (if String.eqb (re_kind body) "failed" then Some (re_detail body) else None) (n_expires_at r0) r0)) db).2.
Proof.
  intros Hr Hat Hst Hn Hsh Hok. set (e := mkTestEvent _ _ _ _ _ _).
  assert (evolves db (insert_event e db).2 ∧ test_runs (insert_event e db).2 = test_runs db) as [He Hruns].
  { apply evolves_insert_event; [done|]. intros Hk. exists r. split; [done|]. split; [done|]. by rewrite (Hsh Hk). }
  unfold mbind, M_bind. rewrite insert_test_event_ok.
  match goal with |- context [update_runs ?p ?f ?d1] => assert (evolves d1 (update_runs p f d1).2) as Hu end.
  - apply evolves_moves; [|done]. apply update_where_Forall2; [apply _|]. rewrite Hruns. intros x Hx Hp.
    assert (x = r) as ->.
    { eapply (NoDup_map_eq n_id); [apply (bo_ids _ Hok)|done|done|]. unfold run_at in Hat, Hp. b2p. congruence. }
    apply moves_to; [by destruct Hst as [-> | ->]|by apply next_state_rank].
  - exact ((transitivity He Hu : evolves _ _) Hok).
Qed.

Lemma within_record_event d i body : within_ (record_event env d i body).
Proof.
  intros db. unfold record_event. unfold mbind at 1, M_bind at 1, get.
  destruct (select1 (λ r, run_at _ _ _ _ && _) (test_runs db)) as [r|] eqn:Er; [|reflexivity].
  apply select1_Some in Er as [Hr [Hat _]%andb_true_iff].
  unfold mbind at 1, M_bind at 1, some_or_throw, mret, M_ret.
  destruct (select1 _ (test_events db)) as [old|]; [unfold throw_if; by case_match|].
  unfold throw_if. destruct (negb _ || _) eqn:Eopen; [reflexivity|].
  destruct (200 <=? _) eqn:En; [reflexivity|]. destruct (String_in _ _ && _) eqn:Ek; [reflexivity|].
  apply (evolves_record d i body r); [done|done| | |].
  - b2p. destruct (bool_decide_reflect (n_state r = Preparing)); [by left|]. right. simpl in *.
    destruct (bool_decide_reflect (n_state r = RPresented)); [done|]. done.
  - by apply Z.leb_gt.
  - intros Hk. rewrite Hk in Ek. simpl in Ek. apply negb_false_iff in Ek. by apply bool_decide_eq_true in Ek.
Qed.

Lemma within_event t a tok i input : within_ (event env hash t a tok i input).
Proof.
  unfold event. do 3 (within_step; [within_tac|]). apply within_transaction; [apply _|]. apply within_record_event.
Qed.
End Ops.

(** ** Requests *)

Inductive Call :=
| QCreate (t a : string) (input : option Source)
| QPairing (t a : string)
| QConfirm (t a id : string)
| QRevoke (t a id : string)
| QRuns (t a : string)
| QCancel (t a id : string)
| QPair (t a : string) (input : option PairInput)
| QCommands (t a : string) (token : option string)
| QClaim (t a : string) (token : option string) (id : string)
| QEvent (t a : string) (token : option string) (id : string) (input : option RunEvent)
| QEnd (t a : string) (token : option string).

(** A request with its environment; a [run] with the requests that others
    complete between its look-up and its transaction. *)
Inductive Op :=
| OCall (env : Env) (c : Call)
| ORun (env : Env) (others : list Op) (t a : string) (input : option RunInput).

Section Exec.
Context (hash : string → string) (is_uuid : string → bool) (validateBundle : Source → string + Artifact).

Definition exec_call (env : Env) (c : Call) (d : Db) : Db :=
  match c with
  | QCreate t a input => (create env validateBundle t a input d).2
  | QPairing t a => (pairing env hash t a d).2
  | QConfirm t a id => (confirm env t a id d).2
  | QRevoke t a id => (revoke t a id d).2
  | QRuns t a => ((_ ← app_of env t a; expire env t a) d).2
  | QCancel t a id => (cancel t a id d).2
  | QPair t a input => (pair env hash is_uuid t a input d).2
  | QCommands t a token => (commands env hash t a token d).2
  | QClaim t a token id => (claim env hash t a token id d).2
  | QEvent t a token id input => (event env hash t a token id input d).2
  | QEnd t a token => (end_session env hash t a token d).2
  end.

Fixpoint exec (q : Op) (d : Db) : Db :=
  match q with
  | OCall env c => exec_call env c d
  | ORun env others t a input => (run env (λ d, fold_left (λ d q, exec q d) others d) t a input d).2
  end.
Definition exec_all (qs : list Op) (d : Db) : Db := fold_left (λ d q, exec q d) qs d.

Lemma exec_call_evolves env c d : evolves d (exec_call env c d).
Proof.
  destruct c; simpl.
  - apply within_create_revision.
  - apply within_pairing.
  - apply within_confirm.
  - apply within_revoke_device.
  - apply within_bind; [apply _|apply within_app_of|intros; apply within_expire].
  - apply within_cancel.
  - apply within_pair.
  - apply within_commands.
  - apply within_run_claim.
  - apply within_event.
  - apply within_end.
Qed.

Lemma fold_evolves (qs : list Op) : Forall (λ q, ∀ d, evolves d (exec q d)) qs → ∀ d, evolves d (exec_all qs d).
Proof.
  induction 1 as [|q qs Hq Hqs IH]; intros d; [reflexivity|]. unfold exec_all. cbn [fold_left].
  etrans; [apply Hq|apply IH].
Qed.

Fixpoint exec_evolves (q : Op) : ∀ d, evolves d (exec q d).
Proof.
  destruct q as [env c|env others t a input]; intros d; cbn [exec]; [apply exec_call_evolves|].
  apply within_run_test. apply fold_evolves.
  induction others as [|q others IH]; constructor; [apply exec_evolves|exact IH].
Qed.

Lemma exec_all_evolves qs d : evolves d (exec_all qs d).
Proof. apply fold_evolves, Forall_forall. intros q _. apply exec_evolves. Qed.

(** ** The same request key *)

Definition keyed_run (t a : string) (body : RunInput) (d : Db) (r : TestRun) : Prop :=
  In r (test_runs d) ∧ keyed t a (ri_request_key body) r = true ∧ same_input body r = true.

Lemma keyed_unique t a k d r r' : bench_ok d → In r (test_runs d) → In r' (test_runs d) →
  keyed t a k r = true → keyed t a k r' = true → r' = r.
Proof.
  intros Hok Hr Hr' Hk Hk'. unfold keyed, scope in Hk, Hk'. b2p.
  eapply (NoDup_map_eq n_id); [apply (bo_ids _ Hok)|done|done|].
  apply (bo_keys _ Hok); try done; congruence.
Qed.

Lemma keyed_moves t a body d d' r : runs_move d d' → keyed_run t a body d r →
  ∃ r', keyed_run t a body d' r' ∧ moves r r'.
Proof.
  intros (old&new&E&HF) (Hr&Hk&Hs). destruct (Forall2_In_l _ _ _ _ HF Hr) as (r'&Hr'&M). exists r'. split; [|done].
  split; [rewrite E; apply in_app_iff; by left|]. unfold keyed, same_input in *.
  by rewrite (mv_tenant _ _ M), (mv_app _ _ M), (mv_key _ _ M), (mv_device _ _ M), (mv_revision _ _ M), (mv_retry _ _ M).
Qed.

Lemma same_key_same_run env meanwhile t a body d r : bench_ok d → keyed_run t a body d r →
  match run env meanwhile t a (Some body) d with
  | (Ok r', _) => moves r r'
  | (Throw e, _) => ∃ s, app_of env t a d = (Throw e, s)
  end.
Proof.
  intros Hok Hr. unfold run. rewrite (readonly_bind_state (app_of env t a)); [|unfold app_of, requireEnabled; auto with nudgeon].
  destruct (app_of env t a d) as [[u|e] s]; [|eauto].
  unfold mbind at 1, M_bind at 1. destruct (expire env t a d) as [oe d1] eqn:Ee.
  assert (oe = Ok tt) as -> by (unfold expire, update_runs, modify in Ee; by injection Ee as <- _).
  pose proof (within_expire env t a d) as He. rewrite Ee in He. destruct (He Hok) as [Hok1 Hm1]. cbn [snd] in *.
  destruct (keyed_moves _ _ _ _ _ _ Hm1 Hr) as (r1&(Hin1&Hk1&Hs1)&M1).
  unfold parseInput, some_or_throw, mbind, M_bind, mret, M_ret, get.
  destruct (select1 (keyed t a (ri_request_key body)) (test_runs d1)) as [old|] eqn:Eo.
  - apply select1_Some in Eo as [Ho Hko].
    rewrite (keyed_unique _ _ _ _ _ _ Hok1 Hin1 Ho Hk1 Hko). unfold throw_if. rewrite Hs1. done.
  - by rewrite (proj1 (select1_None _ _) Eo r1 Hin1) in Hk1.
Qed.

(** ** A claim *)

Lemma auth_inv env t a token d dev d' : auth env hash t a token d = (Ok dev, d') →
  ∃ dev0, In dev0 (test_devices d) ∧ session_of env hash t a (default "" token) dev0 = true ∧ dev = seen env dev0 ∧
    test_runs d' = test_runs d.
Proof.
  unfold auth. intros H. apply bind_ok in H as (u&s1&[_ ->]%throw_if_ok&H).
  apply bind_ok in H as ([]&s2&[_ ->]%throw_if_ok&H). apply bind_ok in H as (dg&s3&[= <- <-]&H).
  apply bind_ok in H as ([]&s4&[= <-]&H). apply bind_ok in H as (dev0&s5&[Hs ->]%some_or_throw_ok&[= <- <-]).
  apply select1_Some in Hs as [Hin Hs]. by exists dev0.
Qed.

Lemma claim_inv env t a token id d art d' : claim env hash t a token id d = (Ok art, d') →
  ∃ dev r, In dev (test_devices d) ∧ session_of env hash t a (default "" token) dev = true ∧ t_state dev = Active ∧
    In r (test_runs d) ∧ run_at t a id r = true ∧ n_device_id r = t_id dev ∧ n_state r = Queued ∧ pg_now env < n_expires_at r.
Proof.
  unfold claim. intros H. apply bind_ok in H as (dev&s1&Ha&H). apply auth_inv in Ha as (dev0&Hd&Hs&->&Hruns).
  apply bind_ok in H as ([]&s2&[Hact ->]%throw_if_ok&H). apply bind_ok in H as (dg&s3&[= <- <-]&H).
  apply bind_ok in H as ([]&s4&[= <-]&H). apply bind_ok in H as (r&s5&[Hr ->]%some_or_throw_ok&_).
  apply select1_Some in Hr as [Hin Hc]. rewrite Hruns in Hin. exists dev0, r.
  apply negb_false_iff, bool_decide_eq_true in Hact.
  pose proof Hs as Hs'. unfold session_of, scope in Hs'. unfold claimable, run_at, scope in Hc. simpl in Hc, Hact. b2p.
  unfold run_at, scope. repeat split; try done. rewrite !andb_true_iff, !String.eqb_eq. repeat split; congruence.
Qed.
End Exec.

(** ** Property *)

(** C31. The life of a test run.  From a store that satisfies the invariant,
    any requests of console and SDK, concurrent starts included, lead to one
    that does: a device has at most one run under way, a request key names one
    run, a run has at most two hundred events and one impression, and only a
    run that was presented has impressions or actions.  Runs are never lost
    and move only forward (queued, preparing, presented, one of four ends).
    Asking again with the same key and input returns the same run, wherever it
    is by then; a run is handed out only while queued, and only to its device
    with live credentials and the user's confirmation. *)
Theorem test_run_lifecycle hash is_uuid validateBundle qs d (Hok : bench_ok d) :
  let d' := exec_all hash is_uuid validateBundle qs d in
  bench_ok d' ∧ runs_move d d' ∧
  (∀ env meanwhile t a body r, keyed_run t a body d r →
     match run env meanwhile t a (Some body) d' with
     | (Ok r', _) => moves r r'
     | (Throw e, _) => ∃ s, app_of env t a d' = (Throw e, s)
     end) ∧
  (∀ env t a token id art s, claim env hash t a token id d' = (Ok art, s) →
     ∃ dev r, In dev (test_devices d') ∧ session_of env hash t a (default "" token) dev = true ∧ t_state dev = Active ∧
       In r (test_runs d') ∧ run_at t a id r = true ∧ n_device_id r = t_id dev ∧ n_state r = Queued ∧ pg_now env < n_expires_at r).
Proof.
  intros d'. destruct (exec_all_evolves hash is_uuid validateBundle qs d Hok) as [Hok' Hm].
  split; [done|]. split; [done|]. split.
  - intros env meanwhile t a body r Hr. destruct (keyed_moves _ _ _ _ _ _ Hm Hr) as (r1&Hr1&M1).
    pose proof (same_key_same_run env meanwhile t a body d' r1 Hok' Hr1) as H.
    destruct (run env meanwhile t a (Some body) d') as [[r'|e] s]; [by etrans|done].
  - intros env t a token id art s. apply claim_inv.
Qed.

(** ** A run *)

Module Bench.
Definition env_at (id : string) (secret : string) (ms : Z) : Env :=
  mkEnv (λ _, ms) (ms * 1000) id secret true true "https://content.example".
Definition hash (s : string) : string := "#" +:+ s.
Definition exec_ := exec_all hash (λ _, true) (λ _, inl "INVALID_BUNDLE").

Definition uuid1 : string := "11111111-1111-4111-8111-111111111111".
Definition token : string := "abcdefghijklmnopqrstuvwxyzabcdefghijklmnopq".
Definition start : Db :=
  mkDb [("t", "a")] [] [] [] [] [] [] [] [mkRevision "rev" "t" "a" "welcome" 10 "#<p>" []] [] [] [] [].
Definition body : RunInput := mkRunInput "rev" uuid1 "key1" None.
Definition body2 : RunInput := mkRunInput "rev" uuid1 "key2" None.

(** A device is paired and confirmed; two sessions start a run on it at once;
    the device claims it, shows it and reports. *)
Definition requests : list Op :=
  [OCall (env_at uuid1 "secret" 1000) (QPairing "t" "a");
   OCall (env_at "x" token 2000) (QPair "t" "a" (Some (mkPair (uuid1 +:+ ".secret") "phone" ios "1.0")));
   OCall (env_at "x" "x" 3000) (QConfirm "t" "a" uuid1);
   ORun (env_at "run2" "x" 4000) [ORun (env_at "run1" "x" 4000) [] "t" "a" (Some body)] "t" "a" (Some body2);
   OCall (env_at "x" "x" 5000) (QClaim "t" "a" (Some token) "run1");
   OCall (env_at "x" "x" 6000) (QEvent "t" "a" (Some token) "run1" (Some (mkRunEvent "e0" "impression" "")));
   OCall (env_at "x" "x" 6000) (QEvent "t" "a" (Some token) "run1" (Some (mkRunEvent "e1" "presented" "")));
   OCall (env_at "x" "x" 7000) (QEvent "t" "a" (Some token) "run1" (Some (mkRunEvent "e2" "impression" "")));
   OCall (env_at "x" "x" 8000) (QEvent "t" "a" (Some token) "run1" (Some (mkRunEvent "e3" "dismiss" "")))].

Lemma start_ok : bench_ok start.
Proof. split; simpl; try done; try constructor. Qed.

Lemma test_run_lifecycle_witness :
  map (λ r, (n_id r, n_state r)) (test_runs (exec_ requests start)) = [("run1", RCompleted)] ∧
  map (λ e, (w_event_id e, w_kind e)) (test_events (exec_ requests start)) = [("e1", "presented"); ("e2", "impression"); ("e3", "dismiss")] ∧
  bench_ok (exec_ requests start) ∧ runs_move start (exec_ requests start).
Proof.
  split; [vm_compute; reflexivity|]. split; [vm_compute; reflexivity|].
  destruct (test_run_lifecycle hash (λ _, true) (λ _, inl "INVALID_BUNDLE") requests start start_ok) as (Hok&Hm&_).
  split; [exact Hok|exact Hm].
Defined.
End Bench.
