(* ===== verification/InAppScope.v ===== *)
(** * In-app messages: an operation stays in its app

    [outside tenant app]: the store without the rows of one app of a tenant.
    Every operation of the in-app services leaves it as it was ([stays]). *)

From S2P Require Import Prelude JsVal InAppDb InAppCampaigns InAppDelivery InAppInv Workbench.

#[global] Open Scope Z_scope.

Section Scope.
Context (t a : string).

Definition beyond {R} (tenant app : R → string) (l : list R) : list R :=
  select (λ r, negb (scope t a (tenant r) (app r))) l.
Definition outside (db : Db) : Db := mkDb
  (apps db)
  (beyond ir_tenant ir_app (installations db)) (beyond c_tenant c_app (campaigns db))
  (beyond p_tenant p_app (publications db)) (beyond d_tenant d_app (deliveries db))
  (beyond e_tenant e_app (delivery_events db)) (beyond s_tenant s_app (suppressions db))
  (beyond v_tenant v_app (reviews db)) (beyond r_tenant r_app (revisions db))
  (beyond (λ f, f.1.1.1) (λ f, f.1.1.2) (files db))
  (beyond t_tenant t_app (test_devices db)) (beyond n_tenant n_app (test_runs db))
  (beyond w_tenant w_app (test_events db)).

Definition stays (db db' : Db) : Prop := outside db' = outside db.
#[global] Instance stays_preorder : PreOrder stays.
Proof. split; [done|]. unfold stays. intros x y z -> ->. done. Qed.

(** ** Statements *)

Lemma beyond_snoc {R} (tn ap : R → string) l r : tn r = t → ap r = a → beyond tn ap (l ++ [r]) = beyond tn ap l.
Proof.
  intros Ht Ha. unfold beyond, select. rewrite List.filter_app. simpl. unfold scope. rewrite Ht, Ha, !String.eqb_refl. apply app_nil_r.
Qed.
Lemma beyond_update {R} (tn ap : R → string) (p : R → bool) f l :
  (∀ r, p r = true → scope t a (tn r) (ap r) = true ∧ scope t a (tn (f r)) (ap (f r)) = true) →
  beyond tn ap (update_where p f l) = beyond tn ap l.
Proof.
  intros Hp. unfold beyond, select, update_where. induction l as [|r l IH]; [done|]. simpl. destruct (p r) eqn:E.
  - destruct (Hp r E) as [-> ->]. exact IH.
  - destruct (scope t a (tn r) (ap r)); simpl; by rewrite IH.
Qed.
Lemma beyond_delete {R} (tn ap : R → string) (p : R → bool) l :
  (∀ r, p r = true → scope t a (tn r) (ap r) = true) → beyond tn ap (delete_where p l) = beyond tn ap l.
Proof.
  intros Hp. unfold beyond, select, delete_where. induction l as [|r l IH]; [done|]. simpl. destruct (p r) eqn:E; simpl.
  - by rewrite (Hp r E).
  - destruct (scope t a (tn r) (ap r)); simpl; by rewrite IH.
Qed.
Lemma scope_refl : scope t a t a = true.
Proof. unfold scope. by rewrite !String.eqb_refl. Qed.
End Scope.

(** a row in the WHERE clause is of the app *)
Create HintDb in_scope.
#[local] Hint Unfold campaign_is device_at run_at set_state InAppCampaigns.with_state Workbench.with_state run_to : in_scope.
Ltac in_scope :=
  let r := fresh "r" in let H := fresh "H" in
  intros r H; repeat autounfold with in_scope in H |- *; cbn in H |- *;
  rewrite ?andb_true_iff in H; destruct_and?; rewrite ?scope_refl; by repeat split.
Ltac table :=
  unfold stays, outside; cbn; f_equal;
  first [apply beyond_snoc; by cbn | apply beyond_update; in_scope | apply beyond_delete; in_scope].

(** Reads the store, passes the checks, and is at the statement that writes. *)
Lemma within_get_at {S A} (R : S → S → Prop) (f : S → M S A) s : R s (f s s).2 → R s ((s ← get; f s) s).2.
Proof. done. Qed.
Lemma within_check_at {S A B} (R : S → S → Prop) `{!PreOrder R} (m : M S A) (f : A → M S B) s :
  readonly m → (∀ x, R s (f x s).2) → R s ((m ≫= f) s).2.
Proof.
  intros Hm Hf. rewrite readonly_bind_state by done. destruct (m s) as [[x|e] s']; [apply Hf|reflexivity].
Qed.
Lemma within_readonly_at {S A} (R : S → S → Prop) `{!PreOrder R} (m : M S A) s : readonly m → R s (m s).2.
Proof. intros Hm. rewrite Hm. reflexivity. Qed.

Ltac at_step :=
  match goal with
  | |- within _ _ => let s := fresh "db" in intros s
  | |- _ ?s ((get ≫= _) ?s).2 => apply within_get_at; cbv beta zeta
  | |- _ ?s (transaction _ ?s).2 => apply within_transaction_at; [apply _|]
  | |- _ ?s ((match ?x with _ => _ end) ?s).2 => destruct x eqn:?
  | |- _ ?s ((_ ≫= _) ?s).2 => apply within_check_at; [apply _|solve [auto with nudgeon]|intros; cbv beta zeta]
  | |- _ ?s (_ ?s).2 => apply within_readonly_at; [apply _|solve [auto with nudgeon]]
  end.
(** a write, then the rest *)
Ltac at_write := apply within_bind_at; [apply _| |intros].

#[local] Hint Resolve readonly_parseInput readonly_row readonly_requireEnabled readonly_requireLive readonly_app_of readonly_read
  readonly_artifact readonly_event_checks : nudgeon.

Section Ops.
Context (t a : string) (env : Env) (hash : string → string) (is_uuid : string → bool).
Abbreviation stay := (within (stays t a)).

(** ** Campaigns *)

Lemma stay_save input id : stay (save env hash t a input id).
Proof.
  unfold save. repeat at_step.
  - unfold save_update. repeat at_step. at_write; [|within_tac]. table.
  - unfold save_create. repeat at_step. at_write; [|within_tac]. unfold insert_campaign. repeat at_step. table.
Qed.
Lemma stay_review member input : stay (review env t a member input).
Proof.
  unfold review. repeat at_step. unfold upsert_review. repeat at_step. destruct (existsb _ _); table.
Qed.
Lemma stay_publish_checks member c : stay (publish_checks env hash t a member c).
Proof. unfold publish_checks. repeat at_step. unfold insert_publication. repeat at_step. table. Qed.
Lemma stay_transition id member input publish : stay (transition env hash t a id member input publish).
Proof.
  unfold transition. at_step. at_step. apply within_check_at; [apply _|destruct publish; auto with nudgeon|intros].
  repeat at_step. apply within_bind_at; [apply _|destruct publish; [apply stay_publish_checks|reflexivity]|intros].
  apply within_get. intros db'. at_write.
  - table.
  - apply within_bind; [apply _| |intros; within_tac]. destruct publish; [within_tac|].
    unfold cancel_deliveries. repeat at_step. table.
Qed.

(** ** The workbench *)

Context (validateBundle : Source → string + Artifact).

Lemma stay_store id artifact : stay (store env t a id artifact).
Proof. unfold store. repeat at_step. table. Qed.
Lemma stay_remove id : stay (remove t a id).
Proof.
  unfold remove. repeat at_step. unfold stays, outside. cbn. f_equal. apply beyond_delete.
  intros [[[tn ap] i] art] H. cbn in *. unfold scope. rewrite !andb_true_iff in H. by destruct H as [[-> ->] _].
Qed.
Lemma stay_save_revision id body artifact : stay (save_revision env t a id body artifact).
Proof.
  intros db. unfold save_revision. set (run := mbind _ _). assert (stay run) as Hrun.
  { unfold run. apply within_bind; [apply _|within_tac|intros]. apply within_bind; [apply _|apply stay_store|intros].
    unfold insert_revision. repeat at_step. table. }
  specialize (Hrun db). destruct (run db) as [[x|e] db1]; [exact Hrun|]. cbn [snd] in Hrun.
  assert (stays t a db (set_files (files db1) db)) as Hfiles.
  { unfold stays, outside in *. cbn in *. injection Hrun. intros. by f_equal. }
  pose proof (stay_remove id (set_files (files db1) db)) as Hr.
  destruct (remove t a id (set_files (files db1) db)) as [[y|e'] db2]; cbn [snd] in *; by etrans.
Qed.
Lemma stay_create input : stay (create env validateBundle t a input).
Proof.
  unfold create. do 4 at_step. apply within_check_at; [apply _|case_match; auto with nudgeon|intros]. apply stay_save_revision.
Qed.

Lemma stay_pairing : stay (pairing env hash t a).
Proof. unfold pairing. repeat at_step. at_write; [|within_tac]. table. Qed.
Lemma stay_confirm id : stay (confirm env t a id).
Proof. unfold confirm. repeat at_step. at_write; [|within_tac]. unfold confirmable. table. Qed.

Lemma stay_update_runs (p : TestRun → bool) f :
  (∀ r, p r = true → scope t a (n_tenant r) (n_app r) = true ∧ scope t a (n_tenant (f r)) (n_app (f r)) = true) →
  stay (update_runs p f).
Proof. intros Hp db. unfold update_runs, stays, outside. cbn. f_equal. by apply beyond_update. Qed.
Lemma stay_revoke_device id : stay (Workbench.revoke t a id).
Proof.
  unfold Workbench.revoke. intros db. at_write; [table|]. apply stay_update_runs. unfold to_cancelled. in_scope.
Qed.
Lemma stay_expire : stay (expire env t a).
Proof. unfold expire. apply stay_update_runs. in_scope. Qed.
Lemma stay_cancel id : stay (cancel t a id).
Proof. unfold cancel. apply stay_update_runs. unfold to_cancelled. in_scope. Qed.

Lemma stay_insert_run r : n_tenant r = t → n_app r = a → stay (insert_run r).
Proof. intros Ht Ha. unfold insert_run. repeat at_step. at_write; [|within_tac]. table. Qed.
Lemma stay_run meanwhile input : (∀ db, stays t a db (meanwhile db)) → stay (run env meanwhile t a input).
Proof.
  intros Hmw. unfold run. apply within_bind; [apply _|within_tac; apply within_readonly; [apply _|auto with nudgeon]|intros].
  apply within_bind; [apply _|apply stay_expire|intros]. at_step. apply within_check_at; [apply _|auto with nudgeon|intros body]. repeat at_step.
  at_write; [apply Hmw|]. intros db0. unfold queue_run.
  assert (stay (transaction (new_run env t a body))) as Hnew.
  { apply within_transaction; [apply _|]. unfold new_run. repeat at_step. by apply stay_insert_run. }
  specialize (Hnew db0). destruct (transaction _ db0) as [[y|e] db1]; [exact Hnew|]. repeat case_match; exact Hnew.
Qed.

(** *** The device's side *)

Lemma stay_auth token : stay (Workbench.auth env hash t a token).
Proof. unfold Workbench.auth. repeat at_step. at_write; [|within_tac]. unfold session_of, seen. table. Qed.
Lemma auth_of token db d db' : Workbench.auth env hash t a token db = (Ok d, db') → t_tenant d = t ∧ t_app d = a.
Proof.
  unfold Workbench.auth. intros E. apply bind_ok in E as (?&?&_&E). apply bind_ok in E as (?&?&_&E).
  apply bind_ok in E as (?&?&_&E). apply bind_ok in E as (?&?&_&E). apply bind_ok in E as (r&?&[Hr ->]%some_or_throw_ok&E).
  injection E as <- _. apply select1_Some in Hr as [_ Hr]. unfold session_of in Hr. rewrite !andb_true_iff in Hr.
  destruct_and?. by apply scope_true in H.
Qed.
(** what a session does with its device *)
Lemma stay_session {A} token (f : TestDevice → DB A) :
  (∀ d, t_tenant d = t → t_app d = a → stay (f d)) → stay (d ← Workbench.auth env hash t a token; f d).
Proof.
  intros Hf db. pose proof (stay_auth token db) as Ha. unfold mbind, M_bind.
  destruct (Workbench.auth env hash t a token db) as [[d|e] db1] eqn:E; [|exact Ha].
  apply auth_of in E as [Ht Hp]. etrans; [exact Ha|]. by apply Hf.
Qed.

Lemma stay_pair input : stay (pair env hash is_uuid t a input).
Proof.
  unfold pair. do 2 at_step. repeat case_match; repeat at_step. at_write; [|within_tac]. unfold pairable. table.
Qed.
Lemma stay_commands token : stay (commands env hash t a token).
Proof.
  unfold commands. apply stay_session. intros d -> ->. apply within_bind; [apply _|apply stay_expire|intros].
  repeat at_step.
Qed.
Lemma stay_claim token id : stay (claim env hash t a token id).
Proof.
  unfold claim. apply stay_session. intros d Ht Ha. repeat at_step. at_write.
  - apply stay_update_runs. unfold claimable. rewrite Ht, Ha. in_scope.
  - intros db'. apply within_check_at; [apply _|auto with nudgeon|intros]. rewrite Ht, Ha. apply within_readonly_at; [apply _|auto with nudgeon].
Qed.
Lemma stay_test_event token id input : stay (Workbench.event env hash t a token id input).
Proof.
  unfold Workbench.event. apply stay_session. intros d Ht Ha. do 2 at_step. at_step. at_step. unfold record_event.
  rewrite Ht, Ha. repeat at_step. apply within_bind_at; [apply _| |intros].
  - unfold Workbench.insert_event. cbn. repeat at_step. table.
  - apply stay_update_runs. in_scope.
Qed.
Lemma stay_end_session token : stay (end_session env hash t a token).
Proof. unfold end_session. apply stay_session. intros d -> ->. apply stay_revoke_device. Qed.

(** ** Deliveries *)

Context (day_start next_day : string → Z → Z).

Lemma stay_register input : stay (register env hash t a input).
Proof. unfold register. repeat at_step. at_write; [|within_tac]. table. Qed.
Lemma readonly_auth token : readonly (InAppDelivery.auth env hash is_uuid t a token).
Proof.
  unfold InAppDelivery.auth. apply readonly_bind; [auto with nudgeon|intros]. repeat case_match; auto with nudgeon.
Qed.
Lemma installation_of token db i db' :
  InAppDelivery.auth env hash is_uuid t a token db = (Ok i, db') → i_tenant i = t ∧ i_app i = a.
Proof.
  unfold InAppDelivery.auth. intros E. apply bind_ok in E as (?&?&_&E). destruct (split_on _ _) as [|s1 [|s2 [|]]]; try done.
  apply bind_ok in E as (?&?&_&E). apply bind_ok in E as (?&?&_&E). apply bind_ok in E as (r&?&_&E). by injection E as <- _.
Qed.
(** what a request does for its installation *)
Lemma stay_live {A} token (f : Installation → DB A) :
  (∀ i, i_tenant i = t → i_app i = a → stay (f i)) → stay (i ← InAppDelivery.auth env hash is_uuid t a token; f i).
Proof.
  intros Hf db. pose proof (readonly_auth token db) as Hr. unfold mbind, M_bind.
  destruct (InAppDelivery.auth env hash is_uuid t a token db) as [[i|e] db1] eqn:E; simpl in Hr; subst db1; [|reflexivity].
  apply installation_of in E as [Ht Hp]. by apply Hf.
Qed.

Section Installation.
Context (i : Installation) (Ht : i_tenant i = t) (Ha : i_app i = a).

Lemma stay_touch db : stays t a db (touch_and_expire env i db).
Proof.
  unfold stays, outside, touch_and_expire. cbn. f_equal.
  - apply beyond_update. unfold installation_is. rewrite Ht, Ha. in_scope.
  - apply beyond_update. unfold delivery_of. rewrite Ht, Ha. in_scope.
Qed.
Lemma stay_insert_delivery d : d_tenant d = t → d_app d = a → stay (insert_delivery d).
Proof. intros Hdt Hda. unfold insert_delivery. repeat at_step. table. Qed.
Lemma stay_decide input tz : stay (decide env hash day_start i input tz).
Proof.
  unfold decide. apply within_bind; [apply _|within_tac; apply within_readonly; [apply _|auto with nudgeon]|intros b].
  apply within_bind; [apply _| |intros [d|]; [apply within_readonly; [apply _|]|within_tac]].
  - unfold decide_tx. apply within_transaction; [apply _|]. repeat at_step. apply within_bind_at; [apply _|apply stay_touch|intros].
    repeat at_step. at_write; [|within_tac]. by apply stay_insert_delivery.
  - apply readonly_bind; auto with nudgeon.
Qed.
Lemma stay_authorize id : stay (authorize env i id).
Proof. unfold authorize. repeat at_step. at_write; [|within_tac]. unfold delivery_is, delivery_of, set_authorized. rewrite Ht, Ha. table. Qed.
Lemma stay_status id : stay (status env i id).
Proof. unfold status. repeat at_step. Qed.
Lemma stay_event id input : stay (InAppDelivery.event env next_day i id input).
Proof.
  unfold InAppDelivery.event. repeat at_step. apply within_bind_at; [apply _| |intros].
  - unfold InAppDelivery.insert_event. repeat at_step. case_match; [done|]. table.
  - apply within_bind; [apply _| |intros].
    + destruct (bool_decide _); [|within_tac]. unfold hide_until. repeat at_step. unfold upsert_suppression. cbn.
      repeat at_step. rewrite Ht, Ha. destruct (existsb _ (suppressions _)); table.
    + intros db'. at_step. unfold delivery_is, delivery_of. rewrite Ht, Ha. table.
Qed.
Lemma stay_revoke : stay (InAppDelivery.revoke i).
Proof.
  unfold InAppDelivery.revoke. repeat at_step. at_write.
  - unfold installation_is, set_revoked. rewrite Ht, Ha. table.
  - intros db'. at_step. unfold delivery_of. rewrite Ht, Ha. table.
Qed.
End Installation.
End Ops.
