(* ===== verification/JsNumber.v ===== *)
(** * [Number(text)]

    The conversion of a string to a number as the language defines it
    (StringToNumber): surrounding white space is dropped, the empty string is
    0, and what remains is a decimal literal, a prefixed hexadecimal, octal or
    binary integer, or a signed [Infinity]; anything else is NaN.  The value is
    the exact rational the literal denotes.

    Below it, the doubles arithmetic rounds to ([to_double], ties to even),
    the quotient and the rounding the read views compute with. *)

From Stdlib Require Import Ascii QArith Qround Lqa.
From S2P Require Import Prelude JsVal.

#[global] Open Scope Z_scope.

(** The value of a digit in base 16 or below. *)
Definition digit_value (c : ascii) : option Z :=
  if is_digit c then Some (byte c - 48)
  else if is_lower c && (byte c <=? 102) then Some (byte c - 87)
  else if is_upper c && (byte c <=? 70) then Some (byte c - 55)
  else None.

(** Reads digits of [base] from the front of [s]: their value and number
    (added to [acc] and [n]), and the rest. *)
Fixpoint read_digits (base : Z) (s : string) (acc n : Z) : Z * Z * string :=
  match s with
  | EmptyString => (acc, n, s)
  | String c s' =>
      match digit_value c with
      | Some d => if d <? base then read_digits base s' (acc * base + d) (n + 1) else (acc, n, s)
      | None => (acc, n, s)
      end
  end.

(** [10 ^ e] *)
Definition pow10 (e : Z) : Q := if 0 <=? e then inject_Z (10 ^ e) else 1 # Z.to_pos (10 ^ (- e)).

(** An optional sign. *)
Definition read_sign (s : string) : Z * string :=
  match s with
  | String "-" s' => (-1, s')
  | String "+" s' => (1, s')
  | _ => (1, s)
  end.

(** What follows the mantissa [m * 10^(-k)]: nothing, or an exponent. *)
Definition read_exponent (m k : Z) (s : string) : num :=
  match s with
  | EmptyString => NFin (inject_Z m * pow10 (- k))%Q
  | String c s1 =>
      if Ascii.eqb c "e" || Ascii.eqb c "E" then
        let '(sign, s2) := read_sign s1 in
        match read_digits 10 s2 0 0 with
        | (e, n, EmptyString) => if n =? 0 then NNaN else NFin (inject_Z m * pow10 (sign * e - k))%Q
        | _ => NNaN
        end
      else NNaN
  end.

(** An unsigned decimal literal. *)
Definition read_decimal (s : string) : num :=
  if String.eqb s "Infinity" then NInf false else
  let '(m, n, s1) := read_digits 10 s 0 0 in
  match s1 with
  | String "." s2 =>
      let '(m', n', s3) := read_digits 10 s2 m 0 in
      if n + n' =? 0 then NNaN else read_exponent m' n' s3
  | _ => if n =? 0 then NNaN else read_exponent m 0 s1
  end.

Definition num_opp (n : num) : num :=
  match n with NNaN => NNaN | NInf b => NInf (negb b) | NFin q => NFin (- q)%Q end.

Definition read_prefixed (base : Z) (s : string) : num :=
  match read_digits base s 0 0 with
  | (v, n, EmptyString) => if n =? 0 then NNaN else NInt v
  | _ => NNaN
  end.

Definition Number (text : string) : num :=
  let s := js_trim text in
  match s with
  | EmptyString => NInt 0
  | String "0" (String "x" s') | String "0" (String "X" s') => read_prefixed 16 s'
  | String "0" (String "o" s') | String "0" (String "O" s') => read_prefixed 8 s'
  | String "0" (String "b" s') | String "0" (String "B" s') => read_prefixed 2 s'
  | String "-" s' => num_opp (read_decimal s')
  | String "+" s' => read_decimal s'
  | _ => read_decimal s
  end.

(** [Number(v)] of an environment variable: an unset one is [undefined]. *)
Definition Number_of (v : option string) : num := match v with Some s => Number s | None => NNaN end.

Example Number_examples :
  (Number " 12 ", Number "", Number "1e3", Number ".5", Number "0x10", Number "-Infinity", Number "1_0", Number "1.")
  = (NInt 12, NInt 0, NFin (1 * 1000)%Q, NFin (5 # 10)%Q, NInt 16, NInf true, NNaN, NInt 1).
Proof. vm_compute. reflexivity. Qed.

(** ** Division of counts in doubles

    [a / b], [x * k] and [Math.round] as the language computes them on finite
    numbers that are not negative: the exact result, rounded to the nearest
    double, ties to even.  The counts divided here are far from the subnormal
    and the overflow range. *)
(** the integer nearest to [x], the even one of two *)
Definition nearest (x : Q) : Z :=
  let f := Qfloor x in
  let r := (x - inject_Z f)%Q in
  match (r ?= 1 # 2)%Q with
  | Lt => f
  | Gt => f + 1
  | Eq => if Z.even f then f else f + 1
  end.

(** [2 ^ e] for any integer [e] *)
Definition pow2 (e : Z) : Q := if 0 <=? e then inject_Z (2 ^ e) else (1 # Z.to_pos (2 ^ (- e)))%Q.

(** the exponent of [q > 0]: [2 ^ exponent q <= q] *)
Definition exponent (q : Q) : Z :=
  let e := Z.log2 (Qnum q) - Z.log2 (Zpos (Qden q)) in
  if Qle_bool (pow2 e) q then e else e - 1.

(** the double nearest to [q] *)
Definition to_double (q : Q) : Q :=
  if Qle_bool q 0 then 0
  else let e := exponent q - 52 in Qred (inject_Z (nearest (q * pow2 (- e))) * pow2 e).

Definition js_div (a b : Z) : Q := to_double (inject_Z a / inject_Z b).
(** [Math.round(x * k) / k] *)
Definition Math_round (x : Q) : Z := Qfloor (x + (1 # 2)).
Definition round_to (k : Z) (x : Q) : Q := js_div (Math_round (to_double (x * inject_Z k))) k.

Example a_third : js_div 1 3 = (6004799503160661 # 18014398509481984)%Q.
Proof. vm_compute. reflexivity. Qed.
Example one_tenth : js_div 1 10 = (3602879701896397 # 36028797018963968)%Q.
Proof. vm_compute. reflexivity. Qed.
Example large : to_double (inject_Z (2 ^ 53 + 1)) = inject_Z (2 ^ 53).
Proof. vm_compute. reflexivity. Qed.

(** ** Bounds *)

Lemma nearest_le x n : (x <= inject_Z n)%Q → nearest x <= n.
Proof.
  intros H. unfold nearest. pose proof (Qfloor_le x) as Hf.
  assert (Qfloor x <= n) as Hle by (rewrite <- (Qfloor_Z n); by apply Qfloor_resp_le).
  destruct (Z.eq_dec (Qfloor x) n) as [->|Hne].
  - assert (x - inject_Z n <= 0)%Q as Hr by lra.
    destruct (Qcompare_spec (x - inject_Z n) (1 # 2)) as [E|E|E]; lra || lia.
  - destruct (_ ?= _)%Q; try destruct (Z.even _); lia.
Qed.

Lemma nearest_nonneg x : (0 <= x)%Q → 0 <= nearest x.
Proof.
  intros H. unfold nearest. assert (0 <= Qfloor x) by (rewrite <- (Qfloor_Z 0); by apply Qfloor_resp_le).
  destruct (_ ?= _)%Q; try destruct (Z.even _); lia.
Qed.

Lemma pow2_pos e : (0 < pow2 e)%Q.
Proof.
  unfold pow2. destruct (Z.leb_spec 0 e) as [H|H]; [|done].
  change 0%Q with (inject_Z 0). rewrite <- Zlt_Qlt. by apply Z.pow_pos_nonneg.
Qed.

Lemma pow2_inv e : (pow2 e * pow2 (- e) == 1)%Q.
Proof.
  unfold pow2. destruct (Z.leb_spec 0 e) as [H|H], (Z.leb_spec 0 (- e)) as [H'|H'].
  - replace e with 0 by lia. done.
  - rewrite Z.opp_involutive. assert (0 < 2 ^ e) by (by apply Z.pow_pos_nonneg).
    unfold Qeq, Qmult, inject_Z. cbn [Qnum Qden]. rewrite Pos.mul_1_l, Z2Pos.id by done. lia.
  - assert (0 < 2 ^ (- e)) by (by apply Z.pow_pos_nonneg).
    unfold Qeq, Qmult, inject_Z. cbn [Qnum Qden]. rewrite Pos.mul_1_r, Z2Pos.id by done. lia.
  - lia.
Qed.

Lemma exponent_le q : (0 < q)%Q → (pow2 (exponent q) <= q)%Q.
Proof.
  intros Hq. unfold exponent. destruct (Qle_bool _ q) eqn:E; [by apply Qle_bool_iff|].
  set (e := Z.log2 (Qnum q) - Z.log2 (Zpos (Qden q))) in *.
  assert (0 < Qnum q) as Hn by (unfold Qlt in Hq; simpl in Hq; lia).
  destruct (Z.log2_spec (Qnum q) Hn) as [Hn1 _]. destruct (Z.log2_spec (Zpos (Qden q))) as [_ Hd2]; [lia|].
  pose proof (Z.log2_nonneg (Qnum q)) as Ha. pose proof (Z.log2_nonneg (Zpos (Qden q))) as Hb.
  set (a := Z.log2 (Qnum q)) in *. set (b := Z.log2 (Zpos (Qden q))) in *.
  assert (0 < 2 ^ a) as Hpa by (apply Z.pow_pos_nonneg; lia). assert (0 < 2 ^ Z.succ b) as Hpb by (apply Z.pow_pos_nonneg; lia).
  unfold pow2. destruct (Z.leb_spec 0 (e - 1)) as [He|He]; unfold Qle, inject_Z; cbn [Qnum Qden].
  - assert (2 ^ (e - 1) * 2 ^ Z.succ b = 2 ^ a) as Hx by (rewrite <- Z.pow_add_r by lia; f_equal; lia). nia.
  - assert (0 < 2 ^ (- (e - 1))) as Hpe by (apply Z.pow_pos_nonneg; lia). rewrite Z2Pos.id by done.
    assert (2 ^ a * 2 ^ (- (e - 1)) = 2 ^ Z.succ b) as Hx by (rewrite <- Z.pow_add_r by lia; f_equal; lia). nia.
Qed.

Lemma to_double_nonneg q : (0 <= to_double q)%Q.
Proof.
  unfold to_double. destruct (Qle_bool q 0) eqn:E; [done|]. rewrite Qred_correct.
  set (e := exponent q - 52). pose proof (pow2_pos e). pose proof (pow2_pos (- e)).
  assert (0 < q)%Q as Hq. { apply Qnot_le_lt. intros Hle. apply Qle_bool_iff in Hle. congruence. }
  apply Qmult_le_0_compat; [|lra]. change 0%Q with (inject_Z 0). rewrite <- Zle_Qle.
  apply nearest_nonneg, Qmult_le_0_compat; lra.
Qed.

(** rounding does not pass a whole number below [2 ^ 53] *)
Lemma to_double_le q n : n < 2 ^ 53 → 0 <= n → (q <= inject_Z n)%Q → (to_double q <= inject_Z n)%Q.
Proof.
  intros Hn Hn0 Hle. assert (0 <= inject_Z n)%Q as H0 by (change 0%Q with (inject_Z 0); by rewrite <- Zle_Qle).
  unfold to_double. destruct (Qle_bool q 0) eqn:E; [done|]. rewrite Qred_correct.
  assert (0 < q)%Q as Hq. { apply Qnot_le_lt. intros Hx. apply Qle_bool_iff in Hx. congruence. }
  set (e := exponent q - 52). pose proof (exponent_le q Hq) as Hexp.
  pose proof (pow2_pos e) as Hp. pose proof (pow2_pos (- e)) as Hm. pose proof (pow2_inv e) as Hi.
  destruct (Z.leb_spec e 0) as [He|He].
  - assert (nearest (q * pow2 (- e)) <= n * 2 ^ (- e)) as Hnear.
    { apply nearest_le. rewrite inject_Z_mult. 
      assert (pow2 (- e) = inject_Z (2 ^ (- e))) as <- by (unfold pow2; by rewrite (proj2 (Z.leb_le 0 (- e))) by lia).
      apply Qmult_le_compat_r; [done|lra]. }
    rewrite Zle_Qle, inject_Z_mult in Hnear.
    assert (pow2 (- e) = inject_Z (2 ^ (- e))) as Heq by (unfold pow2; by rewrite (proj2 (Z.leb_le 0 (- e))) by lia).
    rewrite <- Heq in Hnear.
    apply Qle_trans with (inject_Z n * pow2 (- e) * pow2 e)%Q; [apply Qmult_le_compat_r; [done|lra]|].
    rewrite <- Qmult_assoc, (Qmult_comm (pow2 (- e))), Hi. lra.
  - exfalso. assert (inject_Z (2 ^ 53) <= q)%Q as Hbig.
    { apply Qle_trans with (pow2 (exponent q)); [|done]. unfold pow2.
      rewrite (proj2 (Z.leb_le 0 (exponent q))) by lia. rewrite <- Zle_Qle. apply Z.pow_le_mono_r; lia. }
    apply (Qle_trans _ _ _ Hbig) in Hle. rewrite <- Zle_Qle in Hle. lia.
Qed.

Lemma js_div_bounds a b : 0 <= a <= b → 0 < b → (0 <= js_div a b <= 1)%Q.
Proof.
  intros H Hb. split; [apply to_double_nonneg|]. apply (to_double_le _ 1); [done|done|].
  apply Qle_shift_div_r; [change 0%Q with (inject_Z 0); by rewrite <- Zlt_Qlt|].
  rewrite Qmult_1_l, <- Zle_Qle. lia.
Qed.

(** a share rounded to a decimal is a share *)
Lemma round_to_bounds k x : 0 < k < 2 ^ 53 → (0 <= x <= 1)%Q → (0 <= round_to k x <= 1)%Q.
Proof.
  intros Hk [H0 H1]. unfold round_to. assert (0 < inject_Z k)%Q as Hkq by (change 0%Q with (inject_Z 0); rewrite <- Zlt_Qlt; lia).
  assert (to_double (x * inject_Z k) <= inject_Z k)%Q as Hle.
  { apply to_double_le; [lia|lia|]. rewrite <- (Qmult_1_l (inject_Z k)) at 2. apply Qmult_le_compat_r; [done|lra]. }
  pose proof (to_double_nonneg (x * inject_Z k)) as Hnn. apply js_div_bounds; [|lia]. unfold Math_round. split.
  - rewrite <- (Qfloor_Z 0). apply Qfloor_resp_le. change (inject_Z 0) with 0%Q. lra.
  - apply Z.lt_succ_r. rewrite Zlt_Qlt. pose proof (Qfloor_le (to_double (x * inject_Z k) + (1 # 2))) as Hf.
    rewrite <- Z.add_1_r, inject_Z_plus. change (inject_Z 1) with 1%Q. lra.
Qed.
