(* ===== verification/Crypto.v ===== *)
(** * Envelope encryption and one-time passwords

    [apps/api/src/crypto/envelope.ts] (the sealed layout of credentials and of
    TOTP secrets), the packing of an envelope in [auth/totp.service.ts], and
    [auth/totp.ts] (RFC 4648 base32, RFC 4226 HOTP, RFC 6238 TOTP, backup
    codes).  The ciphers and hashes are those of OpenSSL and of the argon2
    package: the class [Crypto] names them and [CryptoLaws] states what the
    code relies on. *)

From Stdlib Require Import Ascii.
From stdpp Require Import pretty.
From S2P Require Import Prelude JsVal.

#[global] Open Scope Z_scope.

(** A [Buffer]: a list of bytes. *)
Abbreviation bytes := (list Z).
Definition is_byte (b : Z) : Prop := 0 <= b < 256.

(** [Buffer.from(s, "utf8")] and [buf.toString("utf8")] (of valid UTF-8) *)
Fixpoint bytes_of_string (s : string) : bytes :=
  match s with EmptyString => [] | String c s' => byte c :: bytes_of_string s' end.
Fixpoint string_of_bytes (l : bytes) : string :=
  match l with [] => EmptyString | b :: l' => String (ascii_of_N (Z.to_N b)) (string_of_bytes l') end.

(** [buf.subarray(i, j)] with [0 <= i] *)
Definition subarray (b : bytes) (i j : nat) : bytes := drop i (take j b).

(** [ToInt32] and [ToUint32] *)
Definition to_int32 (z : Z) : Z := (z + 2 ^ 31) mod 2 ^ 32 - 2 ^ 31.
Definition to_uint32 (z : Z) : Z := z mod 2 ^ 32.

(** [buf.writeUInt32BE(n)]: [ERR_OUT_OF_RANGE] outside 0..2^32-1 *)
Definition writeUInt32BE (n : Z) : option bytes :=
  if (0 <=? n) && (n <? 2 ^ 32)
  then Some [n / 2 ^ 24; (n / 2 ^ 16) mod 256; (n / 2 ^ 8) mod 256; n mod 256]
  else None.
Definition readUInt32BE (b : bytes) : option Z :=
  match b with
  | b0 :: b1 :: b2 :: b3 :: _ => Some (b0 * 2 ^ 24 + b1 * 2 ^ 16 + b2 * 2 ^ 8 + b3)
  | _ => None
  end.

(** ** Base 64 ([Buffer] encoding "base64") *)

Definition B64 : string := "ABCDEFGHIJKLMNOPQRSTUVWXYZabcdefghijklmnopqrstuvwxyz0123456789+/".
Definition b64_char (d : Z) : ascii := default "A"%char (String.get (Z.to_nat d) B64).

Fixpoint base64_encode (l : bytes) : string :=
  match l with
  | [] => EmptyString
  | [a] => String (b64_char (a / 4)) (String (b64_char ((a mod 4) * 16)) "==")
  | [a; b] =>
      String (b64_char (a / 4)) (String (b64_char ((a mod 4) * 16 + b / 16))
        (String (b64_char ((b mod 16) * 4)) "="))
  | a :: b :: c :: l' =>
      String (b64_char (a / 4)) (String (b64_char ((a mod 4) * 16 + b / 16))
        (String (b64_char ((b mod 16) * 4 + c / 64)) (String (b64_char (c mod 64)) (base64_encode l'))))
  end.

(** Node reads both alphabets, skips other characters and stops at "=". *)
Definition b64_digit (c : ascii) : option Z :=
  let b := byte c in
  if is_upper c then Some (b - 65)
  else if is_lower c then Some (b - 71)
  else if is_digit c then Some (b + 4)
  else if (b =? 43) || (b =? 45) then Some 62
  else if (b =? 47) || (b =? 95) then Some 63
  else None.
Fixpoint b64_digits (s : string) : list Z :=
  match s with
  | EmptyString => []
  | String c s' =>
      if Ascii.eqb c "=" then []
      else match b64_digit c with Some d => d :: b64_digits s' | None => b64_digits s' end
  end.
Fixpoint b64_bytes (l : list Z) : bytes :=
  match l with
  | d1 :: d2 :: d3 :: d4 :: l' =>
      (d1 * 4 + d2 / 16) :: ((d2 mod 16) * 16 + d3 / 4) :: ((d3 mod 4) * 64 + d4) :: b64_bytes l'
  | [d1; d2; d3] => [d1 * 4 + d2 / 16; (d2 mod 16) * 16 + d3 / 4]
  | [d1; d2] => [d1 * 4 + d2 / 16]
  | _ => []
  end.
Definition base64_decode (s : string) : bytes := b64_bytes (b64_digits s).

(** ** Primitives of the platform *)

Class Crypto := {
  (** AES-256-GCM: body and authentication tag; opening fails on a wrong tag *)
  gcm_seal : bytes → bytes → bytes → bytes * bytes;
  gcm_open : bytes → bytes → bytes → bytes → option bytes;
  hmac_sha1 : bytes → bytes → bytes;
  (** [createHash("sha256").update(s).digest("hex")] *)
  sha256_hex : string → string;
  (** [argon2.hash] with the salt it draws; [argon2.verify(...).catch(() => false)] *)
  argon2_hash : string → string → string;
  argon2_verify : string → string → bool }.

Class CryptoLaws `{Crypto} := {
  gcm_open_seal key nonce p :
    gcm_open key nonce (gcm_seal key nonce p).1 (gcm_seal key nonce p).2 = Some p;
  gcm_tag_length key nonce p : length (gcm_seal key nonce p).2 = 16%nat;
  hmac_sha1_length key m : length (hmac_sha1 key m) = 20%nat;
  hmac_sha1_bytes key m : Forall is_byte (hmac_sha1 key m) }.

Section Crypto.
Context `{Crypto}.

(** ** Sealed values ([crypto/envelope.ts]) *)

Definition NONCE_LEN : nat := 12.

(** [loadMasterKey]: the inline variable, else the key file's contents *)
Definition loadMasterKey (inline file : option string) : outcome bytes :=
  match inline with
  | Some t =>
      if negb (String.eqb t "") then
        let key := base64_decode t in
        if Nat.eqb (length key) 32 then Ok key else Throw (PlainError "NUDGEON_MASTER_KEY")
      else match file with
           | Some f => let key := base64_decode (js_trim f) in
               if Nat.eqb (length key) 32 then Ok key else Throw (PlainError "KMS_MASTER_KEY_FILE")
           | None => Throw (PlainError "no master key")
           end
  | None =>
      match file with
      | Some f => let key := base64_decode (js_trim f) in
          if Nat.eqb (length key) 32 then Ok key else Throw (PlainError "KMS_MASTER_KEY_FILE")
      | None => Throw (PlainError "no master key")
      end
  end.

(** [nonce] is the fresh [randomBytes(NONCE_LEN)]. *)
Definition seal (nonce key plaintext : bytes) : bytes :=
  let c := gcm_seal key nonce plaintext in nonce ++ c.1 ++ c.2.

Definition open (key sealed : bytes) : option bytes :=
  let nonce := subarray sealed 0 NONCE_LEN in
  let tag := drop (length sealed - 16) sealed in
  let body := subarray sealed NONCE_LEN (length sealed - 16) in
  gcm_open key nonce body tag.

Record Envelope := mkEnvelope { ciphertext : bytes; dekWrapped : bytes }.

(** the random bytes [encryptEnvelope] draws *)
Record Entropy := mkEntropy { dek : bytes; nonce1 : bytes; nonce2 : bytes }.

Definition encryptEnvelope (r : Entropy) (masterKey : bytes) (plaintext : string) : Envelope :=
  mkEnvelope (seal (nonce1 r) (dek r) (bytes_of_string plaintext)) (seal (nonce2 r) masterKey (dek r)).

Definition decryptEnvelope (masterKey : bytes) (env : Envelope) : option string :=
  d ← open masterKey (dekWrapped env);
  string_of_bytes <$> open d (ciphertext env).

(** [[len32(ciphertext)][ciphertext][dekWrapped]] *)
Definition packEnvelope (env : Envelope) : option bytes :=
  len ← writeUInt32BE (Z.of_nat (length (ciphertext env)));
  Some (len ++ ciphertext env ++ dekWrapped env).
Definition unpackEnvelope (buf : bytes) : option Envelope :=
  n ← readUInt32BE buf;
  Some (mkEnvelope (subarray buf 4 (4 + Z.to_nat n)) (drop (4 + Z.to_nat n) buf)).
Definition decryptSecret (masterKey : bytes) (buf : bytes) : option bytes :=
  env ← unpackEnvelope buf; base64_decode <$> decryptEnvelope masterKey env.

(** ** Base 32 ([auth/totp.ts]) *)

Definition TOTP_PERIOD : Z := 30.
Definition TOTP_DIGITS : nat := 6.
Definition TOTP_WINDOW : Z := 1.
Definition SECRET_BYTES : nat := 20.
Definition B32 : string := "ABCDEFGHIJKLMNOPQRSTUVWXYZ234567".
Definition b32_char (d : Z) : string :=
  match String.get (Z.to_nat d) B32 with Some c => String c EmptyString | None => "undefined" end.

(** [while (bits >= 5)]: at most two turns, as [bits] is below 13 *)
Fixpoint b32_drain (fuel : nat) (value bits : Z) (out : string) : Z * string :=
  match fuel with
  | O => (bits, out)
  | S n =>
      if 5 <=? bits
      then b32_drain n value (bits - 5)
             (out +:+ b32_char (Z.land (Z.shiftr (to_uint32 value) (bits - 5)) 31))
      else (bits, out)
  end.

(** the body of [for (const byte of buf)]: [value] is an int32 *)
Definition b32_step (st : Z * Z * string) (b : Z) : Z * Z * string :=
  let '(value, bits, out) := st in
  let value := Z.lor (to_int32 (Z.shiftl value 8)) b in
  let '(bits, out) := b32_drain 3 value (bits + 8) out in
  (value, bits, out).

Definition base32Encode (buf : bytes) : string :=
  let '(value, bits, out) := fold_left b32_step buf (0, 0, EmptyString) in
  if 0 <? bits then out +:+ b32_char (Z.land (to_int32 (Z.shiftl value (5 - bits))) 31) else out.

(** ** HOTP and TOTP *)

Definition pad_start (n : nat) (c : ascii) (s : string) : string :=
  String.string_of_list_ascii (replicate (n - String.length s) c) +:+ s.

Definition nth_byte (h : bytes) (i : Z) : Z := nth (Z.to_nat i) h 0.

(** [None]: [writeUInt32BE] throws a RangeError *)
Definition hotp (secret : bytes) (counter : Z) (digits : nat) : option string :=
  hi ← writeUInt32BE (counter / 2 ^ 32);
  lo ← writeUInt32BE (to_uint32 counter);
  let h := hmac_sha1 secret (hi ++ lo) in
  let offset := Z.land (nth_byte h (Z.of_nat (length h) - 1)) 15 in
  let bin :=
    Z.lor (Z.lor (Z.lor (to_int32 (Z.shiftl (Z.land (nth_byte h offset) 127) 24))
                        (to_int32 (Z.shiftl (Z.land (nth_byte h (offset + 1)) 255) 16)))
                 (to_int32 (Z.shiftl (Z.land (nth_byte h (offset + 2)) 255) 8)))
          (Z.land (nth_byte h (offset + 3)) 255) in
  Some (pad_start digits "0" (pretty (bin mod 10 ^ Z.of_nat digits))).

Definition counterAt (epochMs : Z) : Z := epochMs / 1000 / TOTP_PERIOD.
Definition totpAt (secret : bytes) (epochMs : Z) : option string := hotp secret (counterAt epochMs) TOTP_DIGITS.

Record VerifyResult := mkVerify { vr_ok : bool; vr_counter : Z }.
Definition rejected : VerifyResult := mkVerify false (-1).

(** [s.replace(/\s/g, "")] *)
Fixpoint remove_ws_fuel (n : nat) (s : string) : string :=
  match n, s with
  | O, _ | _, EmptyString => EmptyString
  | S n', String c s' =>
      match strip_ws s with
      | Some r => remove_ws_fuel n' r
      | None => String c (remove_ws_fuel n' s')
      end
  end.
Definition remove_ws (s : string) : string := remove_ws_fuel (String.length s) s.

(** the loop over the steps of the window *)
Fixpoint verify_steps (secret : bytes) (clean : string) (digits : nat) (after : Z) (cs : list Z) : option VerifyResult :=
  match cs with
  | [] => Some rejected
  | c :: cs' =>
      if c <=? after then verify_steps secret clean digits after cs'
      else
        expected ← hotp secret c digits;
        if String.eqb expected clean then Some (mkVerify true c)
        else verify_steps secret clean digits after cs'
  end.

Definition verifyTotp (secret : bytes) (token : string) (epochMs afterCounter : Z) : option VerifyResult :=
  let clean := remove_ws token in
  if negb (js_length clean =? Z.of_nat TOTP_DIGITS) || String.eqb clean "" || negb (str_forallb is_digit clean)
  then Some rejected
  else
    let base := counterAt epochMs in
    verify_steps secret clean TOTP_DIGITS afterCounter (seqZ (base - TOTP_WINDOW) (2 * TOTP_WINDOW + 1)).

(** ** Backup codes *)

(** [toUpper] is [String.prototype.toUpperCase]. *)
Definition normalizeBackupCode (toUpper : string → string) (code : string) : string :=
  toUpper (str_filter (λ c, negb (Ascii.eqb c "-")) (remove_ws code)).

(** one code from the seven random bytes drawn for it *)
Definition backupCode (random : bytes) : string :=
  let raw := String.substring 0 10 (base32Encode random) in
  String.substring 0 5 raw +:+ "-" +:+ String.substring 5 5 raw.
Definition generateBackupCodes (randoms : list bytes) : list string := map backupCode randoms.

(** ** Enrolment URI *)

Definition hex_digit (d : Z) : ascii := default "0"%char (String.get (Z.to_nat d) "0123456789ABCDEF").
Definition percent (c : ascii) : string :=
  String "%" (String (hex_digit (byte c / 16)) (String (hex_digit (byte c mod 16)) EmptyString)).
Definition alnum (c : ascii) : bool := is_digit c || is_lower c || is_upper c.
Fixpoint encodeURIComponent (s : string) : string :=
  match s with
  | EmptyString => EmptyString
  | String c s' =>
      (if alnum c || existsb (Ascii.eqb c) (String.list_ascii_of_string "-_.!~*'()")
       then String c EmptyString else percent c) +:+ encodeURIComponent s'
  end.
(** the form encoding of [URLSearchParams] *)
Fixpoint form_encode (s : string) : string :=
  match s with
  | EmptyString => EmptyString
  | String c s' =>
      (if Ascii.eqb c " " then "+"
       else if alnum c || existsb (Ascii.eqb c) (String.list_ascii_of_string "*-._")
       then String c EmptyString else percent c) +:+ form_encode s'
  end.
Definition otpauthUri (accountLabel secretBase32 : string) : string :=
  let params := map (λ p, fst p +:+ "=" +:+ form_encode (snd p))
    [("secret", secretBase32); ("issuer", "NudgeOn"); ("algorithm", "SHA1");
     ("digits", pretty TOTP_DIGITS); ("period", pretty TOTP_PERIOD)] in
  "otpauth://totp/" +:+ encodeURIComponent ("NudgeOn:" +:+ accountLabel) +:+ "?" +:+ join "&" params.
End Crypto.

(** ** Laws of the encodings *)

Lemma string_bytes_id s : string_of_bytes (bytes_of_string s) = s.
Proof.
  induction s as [|c s IH]; simpl; [done|]. rewrite IH. f_equal.
  unfold byte. by rewrite N2Z.id, ascii_N_embedding.
Qed.

Lemma read_write_UInt32BE n l rest : writeUInt32BE n = Some l → readUInt32BE (l ++ rest) = Some n.
Proof.
  unfold writeUInt32BE. case_match eqn:E; [|done]. b2p. intros [= <-]. cbn [app readUInt32BE]. f_equal.
  change (2 ^ 24) with (256 * 2 ^ 16). change (2 ^ 16) with (256 * 2 ^ 8). change (2 ^ 8) with 256.
  rewrite <- !Z.div_div by lia.
  pose proof (Z.div_mod n 256). pose proof (Z.div_mod (n / 256) 256).
  pose proof (Z.div_mod (n / 256 / 256) 256). lia.
Qed.

Lemma writeUInt32BE_length n l : writeUInt32BE n = Some l → length l = 4%nat.
Proof. unfold writeUInt32BE. case_match; [|done]. by intros [= <-]. Qed.

Lemma unpack_pack env buf : packEnvelope env = Some buf → unpackEnvelope buf = Some env.
Proof.
  unfold packEnvelope. intros (l&Hl&[= <-])%bind_Some. unfold unpackEnvelope.
  rewrite (read_write_UInt32BE _ _ _ Hl). cbn [mbind option_bind].
  rewrite Nat2Z.id. apply writeUInt32BE_length in Hl as Hlen.
  destruct l as [|a [|b [|c [|d [|]]]]]; try done. unfold subarray. simpl.
  rewrite take_app_length, drop_app_length, drop_0. by destruct env.
Qed.

Lemma b64_char_digit d : 0 <= d < 64 →
  b64_digit (b64_char d) = Some d ∧ Ascii.eqb (b64_char d) "=" = false.
Proof.
  intros Hd. assert (forallb (λ d, bool_decide (b64_digit (b64_char d) = Some d) &&
    negb (Ascii.eqb (b64_char d) "=")) (seqZ 0 64) = true) as HF by (vm_compute; done).
  rewrite forallb_forall in HF. specialize (HF d). rewrite andb_true_iff, bool_decide_eq_true, negb_true_iff in HF.
  apply HF, list_elem_of_In, elem_of_seqZ. lia.
Qed.

Lemma b64_digits_char d s : 0 <= d < 64 → b64_digits (String (b64_char d) s) = d :: b64_digits s.
Proof. intros [H1 H2]%b64_char_digit. cbn [b64_digits]. by rewrite H2, H1. Qed.

(** The 24 bits of three bytes, as four digits and back. *)
Lemma base64_group a b c : is_byte a → is_byte b → is_byte c →
  let d1 := a / 4 in let d2 := (a mod 4) * 16 + b / 16 in
  let d3 := (b mod 16) * 4 + c / 64 in let d4 := c mod 64 in
  (0 <= d1 < 64 ∧ 0 <= d2 < 64 ∧ 0 <= d3 < 64 ∧ 0 <= d4 < 64) ∧
  d1 * 4 + d2 / 16 = a ∧ (d2 mod 16) * 16 + d3 / 4 = b ∧ (d3 mod 4) * 64 + d4 = c.
Proof.
  unfold is_byte. intros Ha Hb Hc. cbv zeta.
  rewrite (Z.add_comm (a mod 4 * 16)), (Z.add_comm (b mod 16 * 4)).
  rewrite !Z_div_plus_full, !Z_mod_plus_full by lia.
  pose proof (Z.div_mod a 4). pose proof (Z.div_mod b 16). pose proof (Z.div_mod c 64).
  pose proof (Z.mod_pos_bound a 4). pose proof (Z.mod_pos_bound b 16). pose proof (Z.mod_pos_bound c 64).
  assert (0 <= a / 4 < 64 ∧ 0 <= b / 16 < 16 ∧ 0 <= c / 64 < 4) as (?&?&?) by lia.
  rewrite (Z.div_small (b / 16)), (Z.mod_small (b / 16)), (Z.div_small (c / 64)), (Z.mod_small (c / 64)) by lia.
  lia.
Qed.

Lemma base64_decode_encode l : Forall is_byte l → base64_decode (base64_encode l) = l.
Proof.
  revert l. fix IH 1. intros [|a [|b [|c l]]] Hl; [done|..]; rewrite !Forall_cons in Hl;
    unfold base64_decode in *; cbn [base64_encode].
  - destruct Hl as [Ha _]. destruct (base64_group a 0 0) as ((?&?&?&?)&?&?&?); [done|by unfold is_byte..|].
    change (0 / 16) with 0 in *. rewrite Z.add_0_r in *. rewrite !b64_digits_char by done. simpl. congruence.
  - destruct Hl as (Ha&Hb&_). destruct (base64_group a b 0) as ((?&?&?&?)&?&?&?); [done|done|by unfold is_byte..|].
    change (0 / 64) with 0 in *. rewrite (Z.add_0_r (b mod 16 * 4)) in *. rewrite !b64_digits_char by done.
    simpl. congruence.
  - destruct Hl as (Ha&Hb&Hc&Hl). destruct (base64_group a b c) as ((?&?&?&?)&?&?&?); [done..|].
    rewrite !b64_digits_char by done. cbn [b64_bytes]. rewrite IH by done. congruence.
Qed.

(** *** The text of base 64 *)

Lemma b64_char_in p d : str_forallb p B64 = true → p (b64_char d) = true.
Proof.
  intros HB. unfold b64_char. destruct (String.get (Z.to_nat d) B64) as [c|] eqn:E.
  - revert E HB. generalize (Z.to_nat d). generalize B64. intros s. induction s as [|x s IH]; intros [|n] E HB; try done;
      cbn [str_forallb] in HB; apply andb_true_iff in HB as [Hx Hs]; [by injection E as <-|by apply (IH n)].
  - unfold B64 in HB. cbn [str_forallb] in HB. by apply andb_true_iff in HB as [HA _].
Qed.
Lemma base64_chars p l : str_forallb p B64 = true → p "="%char = true → str_forallb p (base64_encode l) = true.
Proof.
  intros HB He. remember (length l) as n eqn:Hn. revert l Hn. induction n as [n IH] using lt_wf_ind. intros l ->.
  destruct l as [|a [|b [|c l]]]; [done|cbn [base64_encode str_forallb]; by rewrite !(b64_char_in p), He by done..|].
  cbn [base64_encode str_forallb]. rewrite !(b64_char_in p) by done. simpl. eapply IH; [|done]. simpl. lia.
Qed.
Lemma base64_length l : (String.length (base64_encode l) <= 2 * length l + 2)%nat.
Proof.
  remember (length l) as n eqn:Hn. revert l Hn. induction n as [n IH] using lt_wf_ind. intros l ->.
  destruct l as [|a [|b [|c l]]]; [simpl; lia..|]. cbn [base64_encode String.length length].
  specialize (IH (length l) ltac:(simpl; lia) l eq_refl). lia.
Qed.

Section CryptoLawful.
Context `{CryptoLaws}.

Lemma open_seal nonce key p : length nonce = NONCE_LEN → open key (seal nonce key p) = Some p.
Proof.
  intros Hn. unfold open, seal, subarray. pose proof (gcm_tag_length key nonce p) as Ht.
  set (c := gcm_seal key nonce p) in *. destruct c as [body tag] eqn:E. cbn [fst snd] in *.
  rewrite !length_app, Hn, Ht. replace (NONCE_LEN + (length body + 16) - 16)%nat with (NONCE_LEN + length body)%nat by lia.
  rewrite <- Hn, take_app_length, drop_0, take_app_add', take_app_length', drop_app_length by done.
  rewrite drop_app_add', drop_app_length by done.
  pose proof (gcm_open_seal key nonce p) as Ho. subst c. by rewrite E in Ho.
Qed.

(** What [startEnrollment] stores is what [verifyForLogin] reads back. *)
Lemma decryptSecret_spec key r secret buf :
  Forall is_byte secret → length (nonce1 r) = NONCE_LEN → length (nonce2 r) = NONCE_LEN →
  packEnvelope (encryptEnvelope r key (base64_encode secret)) = Some buf → decryptSecret key buf = Some secret.
Proof.
  intros Hs H1 H2 Hp%unpack_pack. unfold decryptSecret. rewrite Hp. cbn [mbind option_bind].
  unfold decryptEnvelope, encryptEnvelope. cbn [ciphertext dekWrapped].
  rewrite open_seal by done. cbn [mbind option_bind]. rewrite open_seal by done. cbn [fmap option_fmap option_map].
  by rewrite string_bytes_id, base64_decode_encode.
Qed.
End CryptoLawful.

(** ** Base 32 against RFC 4648 *)

(** The big-endian number a buffer denotes, and the number a base32 text denotes. *)
Definition be_value (l : bytes) : Z := fold_left (λ v b, 256 * v + b) l 0.
Definition b32_digit (c : ascii) : Z := if is_upper c then byte c - 65 else byte c - 24.
Definition b32_value (s : string) : Z :=
  fold_left (λ v c, 32 * v + b32_digit c) (String.list_ascii_of_string s) 0.
Definition b32_alphabet (c : ascii) : bool := is_upper c || (50 <=? byte c) && (byte c <=? 55).

Lemma lor_low k b n : 0 <= n → 0 <= b < 2 ^ n → Z.lor (k * 2 ^ n) b = k * 2 ^ n + b.
Proof.
  intros Hn Hb. rewrite <- Z.add_lor_land. assert (Z.land (k * 2 ^ n) b = 0) as ->; [|lia].
  apply Z.bits_inj'. intros i Hi. rewrite Z.land_spec, Z.bits_0.
  destruct (Z.lt_ge_cases i n).
  - by rewrite Z.mul_pow2_bits_low.
  - rewrite <- (Z.mod_small b (2 ^ n)), Z.mod_pow2_bits_high by lia. apply andb_false_r.
Qed.

Lemma mod_div_mod N a k m : 0 <= k → 0 <= m → k + m <= a →
  (N mod 2 ^ a / 2 ^ k) mod 2 ^ m = (N / 2 ^ k) mod 2 ^ m.
Proof.
  intros. apply Z.bits_inj'. intros i Hi. destruct (Z.lt_ge_cases i m).
  - rewrite !Z.mod_pow2_bits_low, !Z.div_pow2_bits, Z.mod_pow2_bits_low by lia. done.
  - by rewrite !Z.mod_pow2_bits_high by lia.
Qed.

Lemma to_int32_mod z n : 0 <= n <= 32 → to_int32 z mod 2 ^ n = z mod 2 ^ n.
Proof.
  intros Hn. unfold to_int32. rewrite Zminus_mod.
  assert (2 ^ 32 = 2 ^ (32 - n) * 2 ^ n) as E by (rewrite <- Z.pow_add_r by lia; f_equal; lia).
  assert (∀ x, (x mod 2 ^ 32) mod 2 ^ n = x mod 2 ^ n) as ->.
  { intros x. pose proof (mod_div_mod x 32 0 n). rewrite Z.pow_0_r, !Z.div_1_r in *. auto with lia. }
  rewrite <- Zminus_mod. f_equal. lia.
Qed.

Lemma b32_char_digit d : 0 <= d < 32 →
  ∃ c, b32_char d = String c EmptyString ∧ b32_digit c = d ∧ b32_alphabet c = true.
Proof.
  intros Hd. assert (Forall (λ d, match b32_char d with
    | String c EmptyString => b32_digit c = d ∧ b32_alphabet c = true | _ => False end) (seqZ 0 32)) as HF.
  { change (seqZ 0 32) with (map Z.of_nat (seq 0 32)). vm_compute. repeat constructor. }
  rewrite Forall_forall in HF. specialize (HF d ltac:(apply elem_of_seqZ; lia)).
  destruct (b32_char d) as [|c [|]]; try done. exists c. naive_solver.
Qed.

(** What has been emitted: its value, its length in bits and its alphabet. *)
Definition b32_emitted (out : string) (v n : Z) : Prop :=
  b32_value out = v ∧ 5 * Z.of_nat (String.length out) = n ∧ str_forallb b32_alphabet out = true.

Lemma b32_emit out v n d : b32_emitted out v n → 0 <= d < 32 → b32_emitted (out +:+ b32_char d) (32 * v + d) (n + 5).
Proof.
  intros (<-&<-&Ha) (c&->&<-&Hc)%b32_char_digit. repeat split.
  - unfold b32_value. enough (String.list_ascii_of_string (out +:+ String c "") = String.list_ascii_of_string out ++ [c]) as ->
      by by rewrite fold_left_app.
    clear. induction out as [|a out IH]; [done|]. rewrite str_app_cons. simpl. by rewrite IH.
  - rewrite str_length_app. simpl. lia.
  - clear - Ha Hc. induction out as [|a out IH]; [simpl; by rewrite Hc|]. rewrite str_app_cons. simpl in *.
    b2p. rewrite H, IH; done.
Qed.

Lemma b32_drain_spec fuel value N bits out n :
  to_uint32 value = N mod 2 ^ 32 → 0 <= bits < 5 * Z.of_nat (S fuel) → bits <= 32 → b32_emitted out (N / 2 ^ bits) n →
  ∃ bits' out', b32_drain (S fuel) value bits out = (bits', out') ∧ 0 <= bits' < 5 ∧
    b32_emitted out' (N / 2 ^ bits') (n + bits - bits').
Proof.
  revert bits out n. induction fuel as [|fuel IH]; intros bits out n Hv Hb H32 Ho; cbn [b32_drain];
    (destruct (5 <=? bits) eqn:E; b2p; [|exists bits, out; split_and!; [done|lia..|by replace (n + bits - bits) with n by lia]]); [lia|].
  assert (b32_emitted (out +:+ b32_char (Z.land (Z.shiftr (to_uint32 value) (bits - 5)) 31)) (N / 2 ^ (bits - 5)) (n + 5)) as Ho'.
  { change 31 with (Z.ones 5). rewrite Z.land_ones, Z.shiftr_div_pow2, Hv by lia. rewrite mod_div_mod by lia.
    replace (N / 2 ^ (bits - 5)) with (32 * (N / 2 ^ bits) + (N / 2 ^ (bits - 5)) mod 2 ^ 5) at 2.
    - apply b32_emit; [done|]. apply Z.mod_pos_bound. lia.
    - replace (2 ^ bits) with (2 ^ (bits - 5) * 2 ^ 5) by (rewrite <- Z.pow_add_r by lia; f_equal; lia).
      rewrite <- Z.div_div by lia. change 32 with (2 ^ 5). symmetry. apply Z.div_mod. lia. }
  destruct (IH (bits - 5) _ _ Hv ltac:(lia) ltac:(lia) Ho') as (b'&o'&He&Hb'&Hs). exists b', o'.
  split_and!; [done|lia..|]. by replace (n + bits - b') with (n + 5 + (bits - 5) - b') by lia.
Qed.

Definition b32_state (l : bytes) (st : Z * Z * string) : Prop :=
  let '(value, bits, out) := st in
  to_uint32 value = be_value l mod 2 ^ 32 ∧ 0 <= bits < 5 ∧
  b32_emitted out (be_value l / 2 ^ bits) (8 * Z.of_nat (length l) - bits).

Lemma be_value_snoc l b : be_value (l ++ [b]) = 256 * be_value l + b.
Proof. unfold be_value. by rewrite fold_left_app. Qed.

Lemma b32_step_state l st b : is_byte b → b32_state l st → b32_state (l ++ [b]) (b32_step st b).
Proof.
  destruct st as [[value bits] out]. intros Hb (Hv&Hbits&Ho). unfold is_byte in Hb. cbn [b32_step].
  set (v' := Z.lor _ b).
  assert (to_uint32 v' = be_value (l ++ [b]) mod 2 ^ 32) as Hv'.
  { subst v'. rewrite be_value_snoc, Z.shiftl_mul_pow2 by lia.
    assert (to_int32 (value * 2 ^ 8) = to_int32 (value * 2 ^ 8) / 2 ^ 8 * 2 ^ 8) as ->.
    { pose proof (to_int32_mod (value * 2 ^ 8) 8 ltac:(lia)) as Hm. rewrite Z_mod_mult in Hm.
      pose proof (Z.div_mod (to_int32 (value * 2 ^ 8)) (2 ^ 8)). lia. }
    rewrite lor_low by lia.
    assert (to_int32 (value * 2 ^ 8) / 2 ^ 8 * 2 ^ 8 = to_int32 (value * 2 ^ 8)) as ->.
    { pose proof (to_int32_mod (value * 2 ^ 8) 8 ltac:(lia)) as Hm. rewrite Z_mod_mult in Hm.
      pose proof (Z.div_mod (to_int32 (value * 2 ^ 8)) (2 ^ 8)). lia. }
    unfold to_uint32 in *. rewrite Zplus_mod, (to_int32_mod _ 32), <- Zplus_mod by lia.
    rewrite (Zplus_mod (256 * _)), (Zmult_mod 256), <- Hv, <- Zmult_mod, <- Zplus_mod. f_equal. lia. }
  assert (b32_emitted out (be_value (l ++ [b]) / 2 ^ (bits + 8)) (8 * Z.of_nat (length l) - bits)) as Ho'.
  { rewrite be_value_snoc, Z.pow_add_r, (Z.mul_comm (2 ^ bits)), <- Z.div_div by lia.
    replace ((256 * be_value l + b) / 2 ^ 8) with (be_value l); [done|].
    rewrite Z.add_comm, Z.mul_comm, Z_div_plus_full, Z.div_small; lia. }
  destruct (b32_drain_spec 2 v' _ (bits + 8) out _ Hv' ltac:(lia) ltac:(lia)
    Ho') as (b'&o'&->&?&?).
  split_and!; [done|lia..|]. rewrite length_app. cbn [length].
  by replace (8 * Z.of_nat (length l + 1) - b') with (8 * Z.of_nat (length l) - bits + (bits + 8) - b') by lia.
Qed.

(** The text denotes the buffer's bits, padded on the right with zeros to a
    whole number of five-bit digits. *)
Lemma base32Encode_value l : Forall is_byte l →
  let pad := 5 * Z.of_nat (String.length (base32Encode l)) - 8 * Z.of_nat (length l) in
  0 <= pad < 5 ∧ b32_value (base32Encode l) = be_value l * 2 ^ pad ∧
  str_forallb b32_alphabet (base32Encode l) = true.
Proof.
  intros Hl. assert (b32_state l (fold_left b32_step l (0, 0, EmptyString))) as Hst.
  { induction l as [|b l IH] using rev_ind.
    - repeat split; lia.
    - rewrite Forall_app, Forall_singleton in Hl. destruct Hl. rewrite fold_left_app. apply b32_step_state; [done|]. by apply IH. }
  cbv zeta. unfold base32Encode. destruct (fold_left b32_step l _) as [[value bits] out]. destruct Hst as (Hv&Hbits&Ho).
  destruct (0 <? bits) eqn:E; b2p.
  - assert (Z.land (to_int32 (Z.shiftl value (5 - bits))) 31 = (be_value l mod 2 ^ bits) * 2 ^ (5 - bits)) as ->.
    { change 31 with (Z.ones 5). rewrite Z.land_ones, Z.shiftl_mul_pow2, to_int32_mod by lia.
      replace (2 ^ 5) with (2 ^ bits * 2 ^ (5 - bits)) by (rewrite <- Z.pow_add_r by lia; f_equal; lia).
      rewrite Zmult_mod_distr_r. f_equal. pose proof (mod_div_mod value 32 0 bits ltac:(lia) ltac:(lia) ltac:(lia)) as H1.
      pose proof (mod_div_mod (be_value l) 32 0 bits ltac:(lia) ltac:(lia) ltac:(lia)) as H2.
      rewrite Z.pow_0_r, !Z.div_1_r in *. unfold to_uint32 in Hv. congruence. }
    assert (2 ^ 5 = 2 ^ bits * 2 ^ (5 - bits)) as E5 by (rewrite <- Z.pow_add_r by lia; f_equal; lia).
    pose proof (Z.mod_pos_bound (be_value l) (2 ^ bits) ltac:(lia)) as Hm.
    destruct (b32_emit _ _ _ (be_value l mod 2 ^ bits * 2 ^ (5 - bits)) Ho) as (H1&H2&H3).
    { split; [lia|]. change 32 with (2 ^ 5). rewrite E5. apply Z.mul_lt_mono_pos_r; lia. }
    assert (5 * Z.of_nat (String.length (out +:+ b32_char (be_value l mod 2 ^ bits * 2 ^ (5 - bits)))) -
      8 * Z.of_nat (length l) = 5 - bits) as -> by lia.
    split_and!; [lia..| |done]. rewrite H1. pose proof (Z.div_mod (be_value l) (2 ^ bits) ltac:(lia)) as Hd.
    transitivity ((2 ^ bits * (be_value l / 2 ^ bits) + be_value l mod 2 ^ bits) * 2 ^ (5 - bits)); [|by rewrite <- Hd].
    change 32 with (2 ^ 5). rewrite E5. ring.
  - destruct Ho as (Ho1&Ho2&Ho3). assert (bits = 0) as -> by lia.
    replace (5 * _ - _) with 0 by lia. rewrite Ho1, Z.pow_0_r, Z.div_1_r. split_and!; [lia..|done].
Qed.

(** ** One-time passwords against RFC 4226 *)

(** The 31-bit number read at the offset the last nibble of the MAC selects. *)
Definition dynamic_truncation (h : bytes) : Z :=
  let o := nth_byte h (Z.of_nat (length h) - 1) mod 16 in
  (nth_byte h o mod 128) * 2 ^ 24 + nth_byte h (o + 1) * 2 ^ 16 + nth_byte h (o + 2) * 2 ^ 8 + nth_byte h (o + 3).

Lemma nth_byte_range h i : Forall is_byte h → is_byte (nth_byte h i).
Proof.
  intros Hh. unfold nth_byte. destruct (nth_in_or_default (Z.to_nat i) h 0) as [Hin|Hd].
  - rewrite Forall_forall in Hh. apply Hh, list_elem_of_In, Hin.
  - unfold is_byte. set (n := nth _ _ _) in *. lia.
Qed.

Lemma to_int32_small z : 0 <= z < 2 ^ 31 → to_int32 z = z.
Proof. intros. unfold to_int32. rewrite Z.mod_small; lia. Qed.

Lemma lor_add_pow2 x y n : 0 <= n → 0 <= y < 2 ^ n → x mod 2 ^ n = 0 → Z.lor x y = x + y.
Proof.
  intros Hn Hy Hx. assert (x = x / 2 ^ n * 2 ^ n) as Ex by (pose proof (Z.div_mod x (2 ^ n)); lia).
  rewrite Ex. by apply lor_low.
Qed.

(** The four bytes joined by shifts and ors, as a sum. *)
Lemma join_bytes a b c d : is_byte a → is_byte b → is_byte c → is_byte d →
  Z.lor (Z.lor (Z.lor (to_int32 (Z.shiftl (Z.land a 127) 24)) (to_int32 (Z.shiftl (Z.land b 255) 16)))
    (to_int32 (Z.shiftl (Z.land c 255) 8))) (Z.land d 255) =
  (a mod 128) * 2 ^ 24 + b * 2 ^ 16 + c * 2 ^ 8 + d.
Proof.
  unfold is_byte. intros. change 127 with (Z.ones 7). change 255 with (Z.ones 8).
  rewrite !Z.land_ones, !Z.shiftl_mul_pow2 by lia. change (2 ^ 7) with 128. change (2 ^ 8) with 256.
  rewrite (Z.mod_small b), (Z.mod_small c), (Z.mod_small d) by lia.
  pose proof (Z.mod_pos_bound a 128 ltac:(lia)). rewrite !to_int32_small by lia.
  rewrite (lor_add_pow2 (_ * 2 ^ 24) _ 24); [|lia..|apply Z_mod_mult].
  rewrite (lor_add_pow2 _ (c * 256) 16); [|lia..|].
  2:{ replace (a mod 128 * 2 ^ 24 + b * 2 ^ 16) with ((a mod 128 * 2 ^ 8 + b) * 2 ^ 16) by lia. apply Z_mod_mult. }
  rewrite (lor_add_pow2 _ d 8); [lia|lia|lia|].
  replace (a mod 128 * 2 ^ 24 + b * 2 ^ 16 + c * 256) with ((a mod 128 * 2 ^ 16 + b * 2 ^ 8 + c) * 2 ^ 8) by lia.
  apply Z_mod_mult.
Qed.

Lemma writeUInt32BE_value n l : writeUInt32BE n = Some l → 
  length l = 4%nat ∧ Forall is_byte l ∧ be_value l = n.
Proof.
  unfold writeUInt32BE. case_match eqn:E; [|done]. b2p. intros [= <-]. split; [done|].
  change (2 ^ 24) with (256 * (256 * 256)). change (2 ^ 16) with (256 * 256). change (2 ^ 8) with 256.
  rewrite <- !Z.div_div by lia.
  pose proof (Z.div_mod n 256). pose proof (Z.div_mod (n / 256) 256). pose proof (Z.div_mod (n / 256 / 256) 256).
  pose proof (Z.mod_pos_bound n 256). pose proof (Z.mod_pos_bound (n / 256) 256).
  pose proof (Z.mod_pos_bound (n / 256 / 256) 256). split.
  - repeat constructor; unfold is_byte; lia.
  - unfold be_value. cbn [fold_left]. lia.
Qed.

(** Decimal digits of a number below [10 ^ n]. *)
Lemma pretty_N_go_shape (n : nat) x s :
  (x < 10 ^ N.of_nat n)%N → str_forallb is_digit s = true →
  str_forallb is_digit (pretty_N_go x s) = true ∧
  (String.length (pretty_N_go x s) <= n + String.length s)%nat.
Proof.
  revert x s. induction n as [|n IH]; intros x s Hx Hs.
  - assert (x = 0)%N as -> by (simpl in Hx; lia). rewrite pretty_N_go_0. split; [done|lia].
  - destruct (decide (0 < x)%N) as [Hp|]; [|assert (x = 0)%N as -> by lia; rewrite pretty_N_go_0; split; [done|lia]].
    rewrite pretty_N_go_step by done. rewrite Nat2N.inj_succ, N.pow_succ_r' in Hx.
    assert (is_digit (pretty_N_char (x mod 10)) = true) as Hd.
    { assert (x mod 10 < 10)%N as Hm by (apply N.mod_lt; lia). revert Hm. generalize (x mod 10)%N. intros m Hm.
      destruct (decide (m = 0 ∨ m = 1 ∨ m = 2 ∨ m = 3 ∨ m = 4)%N) as [?|?]; [naive_solver|].
      assert (m = 5 ∨ m = 6 ∨ m = 7 ∨ m = 8 ∨ m = 9)%N by lia. naive_solver. }
    destruct (IH (x `div` 10)%N (String (pretty_N_char (x mod 10)) s)) as [H1 H2].
    + apply N.Div0.div_lt_upper_bound; lia.
    + simpl. by rewrite Hd.
    + split; [done|]. simpl in H2. lia.
Qed.

Lemma pretty_Z_shape (n : nat) z : (0 < n)%nat → 0 <= z < 10 ^ Z.of_nat n →
  str_forallb is_digit (pretty z) = true ∧ (String.length (pretty z) <= n)%nat.
Proof.
  intros Hn Hz. assert (pretty z = pretty (Z.to_N z)) as ->.
  { destruct z; try done. lia. }
  unfold pretty, pretty_N. destruct (decide _) as [E|E]; [split; [done|simpl; lia]|].
  destruct (pretty_N_go_shape n (Z.to_N z) "") as [H1 H2].
  - apply N2Z.inj_lt. rewrite Z2N.id, N2Z.inj_pow, nat_N_Z by lia. lia.
  - done.
  - split; [done|]. simpl in H2. lia.
Qed.

Lemma pad_start_shape n s :
  str_forallb is_digit s = true → (String.length s <= n)%nat →
  str_forallb is_digit (pad_start n "0" s) = true ∧ String.length (pad_start n "0" s) = n.
Proof.
  intros Hd Hl. unfold pad_start. rewrite str_length_app.
  assert (∀ k, str_forallb is_digit (String.string_of_list_ascii (replicate k "0"%char) +:+ s) = true ∧
    String.length (String.string_of_list_ascii (replicate k "0"%char)) = k) as H.
  { induction k as [|k [IH1 IH2]]; [done|]. split; simpl; [exact IH1|by rewrite IH2]. }
  destruct (H (n - String.length s)%nat) as [-> ->]. split; [done|lia].
Qed.

Section OneTime.
Context `{CryptoLaws}.

Lemma hotp_spec secret c : 0 <= c < 2 ^ 64 →
  ∃ buf code, length buf = 8%nat ∧ Forall is_byte buf ∧ be_value buf = c ∧
    hotp secret c TOTP_DIGITS = Some code ∧
    code = pad_start 6 "0" (pretty (dynamic_truncation (hmac_sha1 secret buf) mod 10 ^ 6)) ∧
    String.length code = 6%nat ∧ str_forallb is_digit code = true.
Proof.
  intros Hc. unfold hotp, to_uint32.
  assert (0 <= c / 2 ^ 32 < 2 ^ 32) as Hhi by (split; [apply Z.div_pos; lia|apply Z.div_lt_upper_bound; lia]).
  pose proof (Z.mod_pos_bound c (2 ^ 32) ltac:(lia)) as Hlo.
  destruct (writeUInt32BE (c / 2 ^ 32)) as [hi|] eqn:Ehi;
    [|unfold writeUInt32BE in Ehi; case_match eqn:E; [done|]; apply andb_false_iff in E as []; b2p; lia].
  destruct (writeUInt32BE (c mod 2 ^ 32)) as [lo|] eqn:Elo;
    [|unfold writeUInt32BE in Elo; case_match eqn:E; [done|]; apply andb_false_iff in E as []; b2p; lia].
  apply writeUInt32BE_value in Ehi as (Hh1&Hh2&Hh3), Elo as (Hl1&Hl2&Hl3). cbn [mbind option_bind].
  eexists (hi ++ lo), _. split_and!; [rewrite length_app; lia|by apply Forall_app| |reflexivity|..].
  - unfold be_value. rewrite fold_left_app. fold (be_value hi). rewrite Hh3.
    destruct lo as [|b0 [|b1 [|b2 [|b3 [|]]]]]; try done. unfold be_value in Hl3. cbn [fold_left] in *.
    pose proof (Z.div_mod c (2 ^ 32)). lia.
  - unfold dynamic_truncation. change 15 with (Z.ones 4). rewrite Z.land_ones, join_bytes by (lia || apply nth_byte_range, hmac_sha1_bytes).
    done.
  - apply pad_start_shape; apply (pretty_Z_shape TOTP_DIGITS); [unfold TOTP_DIGITS; lia|apply Z.mod_pos_bound; unfold TOTP_DIGITS; lia|..].
    + unfold TOTP_DIGITS; lia.
    + apply Z.mod_pos_bound. unfold TOTP_DIGITS; lia.
  - apply pad_start_shape; apply (pretty_Z_shape TOTP_DIGITS); [unfold TOTP_DIGITS; lia|apply Z.mod_pos_bound; unfold TOTP_DIGITS; lia|..].
    + unfold TOTP_DIGITS; lia.
    + apply Z.mod_pos_bound. unfold TOTP_DIGITS; lia.
Qed.

Lemma verify_steps_spec secret clean after cs :
  (∀ c, In c cs → after < c → 0 <= c < 2 ^ 64) →
  ∃ r, verify_steps secret clean TOTP_DIGITS after cs = Some r ∧
    ((r = rejected ∧ ∀ c, In c cs → after < c → hotp secret c TOTP_DIGITS ≠ Some clean) ∨
     (∃ c, r = mkVerify true c ∧ In c cs ∧ after < c ∧ hotp secret c TOTP_DIGITS = Some clean)).
Proof.
  induction cs as [|c cs IH]; intros Hcs; cbn [verify_steps].
  - exists rejected. split; [done|]. left. split; [done|]. by intros ? [].
  - destruct IH as (r&Hr&HIH); [intros; apply Hcs; [by right|done]|].
    destruct (c <=? after) eqn:E; b2p.
    + exists r. split; [done|]. destruct HIH as [[-> Hno]|(c'&->&Hin&?&?)]; [left|right].
      * split; [done|]. intros c' [<-|Hin] Hc'; [lia|auto].
      * exists c'. split_and!; try done. by right.
    + destruct (hotp_spec secret c) as (_&code&_&_&_&Hcode&_); [apply Hcs; [by left|done]|].
      rewrite Hcode. cbn [mbind option_bind]. destruct (String.eqb code clean) eqn:Ec; b2p.
      * subst. exists (mkVerify true c). split; [done|]. right. exists c. split_and!; try done. by left.
      * exists r. split; [done|]. destruct HIH as [[-> Hno]|(c'&->&Hin&?&?)]; [left|right].
        -- split; [done|]. intros c' [<-|Hin] Hc'; [|auto]. rewrite Hcode. by intros [= ->].
        -- exists c'. split_and!; try done. by right.
Qed.

(** A code is accepted exactly when it is the code of a step of the window
    after the last accepted one; the step is returned. *)
Lemma verifyTotp_spec secret token epochMs after :
  -1 <= after → epochMs < 2 ^ 64 →
  ∃ r, verifyTotp secret token epochMs after = Some r ∧
    (vr_ok r = false → r = rejected) ∧
    (vr_ok r = true → after < vr_counter r ∧ Z.abs (vr_counter r - counterAt epochMs) <= TOTP_WINDOW ∧
       hotp secret (vr_counter r) TOTP_DIGITS = Some (remove_ws token)) ∧
    (∀ c, after < c → Z.abs (c - counterAt epochMs) <= TOTP_WINDOW →
       hotp secret c TOTP_DIGITS = Some (remove_ws token) → js_length (remove_ws token) = 6 → vr_ok r = true).
Proof.
  intros Hafter Hms. unfold verifyTotp.
  assert (counterAt epochMs < 2 ^ 62) as Hc.
  { unfold counterAt, TOTP_PERIOD. repeat (apply Z.div_lt_upper_bound; [lia|]). lia. }
  destruct (negb _ || _ || _) eqn:E.
  - exists rejected. split_and!; [done..|]. intros c Hc1 Hc2 Hcode Hlen. exfalso.
    unfold TOTP_WINDOW in *. destruct (hotp_spec secret c) as (_&code&_&_&_&Hcode'&_&Hl&Hd); [lia|].
    rewrite Hcode in Hcode'. injection Hcode' as <-.
    rewrite Hd, Hlen in E. destruct (remove_ws token); done.
  - destruct (verify_steps_spec secret (remove_ws token) after (seqZ (counterAt epochMs - TOTP_WINDOW) (2 * TOTP_WINDOW + 1)))
      as (r&Hr&Hcase).
    { intros c Hin%list_elem_of_In%elem_of_seqZ Hc'. unfold TOTP_WINDOW in *. lia. }
    exists r. split; [done|]. destruct Hcase as [[-> Hno]|(c&->&Hin&Hc1&Hc2)]; split_and!; try done.
    + intros c Hc1 Hc2 Hcode _. exfalso. apply (Hno c); [|done..].
      apply list_elem_of_In, elem_of_seqZ. unfold TOTP_WINDOW in *. lia.
    + intros _. simpl. apply list_elem_of_In, elem_of_seqZ in Hin. split_and!; [done|unfold TOTP_WINDOW in *; lia|done].
Qed.
End OneTime.

(** ** Round trip and equivalence *)

(** The [n] bytes of a number, most significant first. *)
Fixpoint be_bytes (n : nat) (v : Z) : bytes :=
  match n with O => [] | S n' => be_bytes n' (v / 256) ++ [v mod 256] end.

Lemma be_bytes_value l : Forall is_byte l → be_bytes (length l) (be_value l) = l.
Proof.
  induction l as [|b l IH] using rev_ind; [done|]. rewrite Forall_app, Forall_singleton. intros [Hl Hb].
  unfold is_byte in Hb. rewrite length_app, Nat.add_1_r, be_value_snoc. cbn [be_bytes].
  assert ((256 * be_value l + b) / 256 = be_value l ∧ (256 * be_value l + b) mod 256 = b) as [-> ->].
  { rewrite Z.add_comm, Z.mul_comm, Z_div_plus_full, Z_mod_plus_full, Z.div_small, Z.mod_small by lia. lia. }
  by rewrite IH.
Qed.

(** The reference decoder: the whole bytes among the bits of the text. *)
Definition base32Decode (s : string) : bytes :=
  let bits := 5 * Z.of_nat (String.length s) in
  be_bytes (Z.to_nat (bits / 8)) (b32_value s / 2 ^ (bits mod 8)).

(** Base 32 loses nothing: the text of a buffer is in the RFC 4648 alphabet
    and decodes to the buffer, in spite of the 32-bit accumulator. *)
Theorem base32_round_trip l :
  Forall is_byte l →
  str_forallb b32_alphabet (base32Encode l) = true ∧ base32Decode (base32Encode l) = l.
Proof.
  intros Hl. destruct (base32Encode_value l Hl) as (Hpad&Hval&Ha). split; [done|]. unfold base32Decode.
  set (bits := 5 * Z.of_nat (String.length (base32Encode l))) in *.
  assert (bits / 8 = Z.of_nat (length l) ∧ bits mod 8 = bits - 8 * Z.of_nat (length l)) as [-> ->].
  { pose proof (Z.div_mod bits 8). pose proof (Z.mod_pos_bound bits 8). lia. }
  rewrite Hval, Z.div_mul by lia. rewrite Nat2Z.id. by apply be_bytes_value.
Qed.

(** The one-time code of a step is RFC 4226's: the MAC of the step as eight
    big-endian bytes, truncated at the offset its last nibble selects to a
    31-bit number, modulo a million, in exactly six decimal digits. *)
Theorem hotp_is_rfc4226 `{CryptoLaws} secret c :
  0 <= c < 2 ^ 64 →
  ∃ code, hotp secret c TOTP_DIGITS = Some code
    ∧ code = pad_start 6 "0" (pretty (dynamic_truncation (hmac_sha1 secret (be_bytes 8 c)) mod 10 ^ 6))
    ∧ String.length code = 6%nat ∧ str_forallb is_digit code = true.
Proof.
  intros Hc. destruct (hotp_spec secret c Hc) as (buf&code&Hlen&Hb&Hv&Hcode&Heq&Hl&Hd).
  exists code. rewrite <- (be_bytes_value buf), Hlen, Hv in Heq by done. done.
Qed.
