(* ===== verification/Json.v ===== *)
(** * JSON text and request schemas

    [JSON.stringify], and zod's schemas as parsers of the JSON body: [None]
    where the schema fails.  The formats zod checks with regular expressions of
    its own are the operations of the class [Zod]. *)

From Stdlib Require Import Ascii QArith.
From stdpp Require Import pretty.
From S2P Require Import Prelude JsVal Crypto.

#[global] Open Scope Z_scope.

(** ** [JSON.stringify] *)

(** [JSON.stringify] of a string *)
Definition hex4 (c : ascii) : string :=
  "\u00" +:+ to_lower (String (hex_digit (byte c / 16)) (String (hex_digit (byte c mod 16)) EmptyString)).
Definition json_escape (c : ascii) : string :=
  if byte c =? 34 then String "\" (String c EmptyString)
  else if byte c =? 92 then String "\" (String "\" EmptyString)
  else if byte c =? 8 then "\b" else if byte c =? 9 then "\t" else if byte c =? 10 then "\n"
  else if byte c =? 12 then "\f" else if byte c =? 13 then "\r"
  else if byte c <? 32 then hex4 c
  else String c EmptyString.
Fixpoint json_chars (s : string) : string :=
  match s with EmptyString => EmptyString | String c s' => json_escape c +:+ json_chars s' end.
Definition json_quote (s : string) : string := String "034" (json_chars s +:+ String "034" EmptyString).

Section Stringify.
Context (fmt : Q → string).

Fixpoint JSON_stringify (v : jsval) : string :=
  match v with
  | JUndef | JNull => "null"
  | JBool b => if b then "true" else "false"
  | JNum (NFin q) => num_to_string fmt (NFin q)
  | JNum _ => "null"
  | JStr s => json_quote s
  | JArr l => "[" +:+ join "," (map JSON_stringify l) +:+ "]"
  | JObj fields =>
      "{" +:+ join "," (map (λ p, json_quote (fst p) +:+ ":" +:+ JSON_stringify (snd p)) fields) +:+ "}"
  end.
End Stringify.

(** ** Schema combinators *)

(** zod's string formats *)
Class Zod := {
  zod_uuid : string → bool;
  zod_datetime : string → bool;   (** [datetime({ offset: true })] *)
  number_format : Q → string }.   (** how a double is printed *)

Definition Parser (A : Type) := jsval → option A.

Definition z_string (lo hi : Z) : Parser string := λ v,
  match v with JStr s => if (lo <=? js_length s) && (js_length s <=? hi) then Some s else None | _ => None end.
Definition z_format (ok : string → bool) : Parser string := λ v,
  match v with JStr s => if ok s then Some s else None | _ => None end.
Definition z_enum {A} (values : list (string * A)) : Parser A := λ v,
  match v with JStr s => JMap.get values s | _ => None end.
Definition z_optional {A} (p : Parser A) : Parser (option A) := λ v,
  match v with JUndef => Some None | _ => Some <$> p v end.
Definition z_nullish {A} (p : Parser A) : Parser (option A) := λ v,
  match v with JUndef | JNull => Some None | _ => Some <$> p v end.
Definition z_record : Parser (list (string * jsval)) := λ v,
  match v with JObj fields => Some fields | _ => None end.
(** [z.array(p).min(lo).max(hi)] *)
Definition z_array {A} (lo hi : Z) (p : Parser A) : Parser (list A) := λ v,
  match v with
  | JArr l => if (lo <=? Z.of_nat (length l)) && (Z.of_nat (length l) <=? hi) then mapM p l else None
  | _ => None
  end.
(** [z.object({...}).strict()]: the field reader of an object without other keys *)
Definition z_strict (keys : list string) (v : jsval) : option (string → jsval) :=
  match v with
  | JObj fields =>
      if forallb (λ p, String_in (fst p) keys) fields then Some (λ k, default JUndef (JMap.get fields k)) else None
  | _ => None
  end.
Definition z_uuid `{Zod} : Parser string := z_format zod_uuid.
