(* ===== verification/JsonParse.v ===== *)
(** * [JSON.parse]

    The grammar of ECMA-404 by recursive descent, and the round trip with
    [JSON.stringify].  A repeated key keeps its first place and its last value.
    An escaped lone surrogate has no UTF-8 form and is refused here; the value
    of a number is the exact rational of its literal.

    The fuel is the length of the text: every call consumes a character. *)

From Stdlib Require Import Ascii QArith.
From stdpp Require Import pretty.
From S2P Require Import Prelude JsVal JsNumber Crypto Json.

#[global] Open Scope Z_scope.

Definition json_ws (c : ascii) : bool := (byte c =? 32) || (byte c =? 9) || (byte c =? 10) || (byte c =? 13).
Fixpoint skip_ws (s : string) : string :=
  match s with String c s' => if json_ws c then skip_ws s' else s | EmptyString => EmptyString end.

(** [s] without the word [w] in front of it *)
Fixpoint strip (w s : string) : option string :=
  match w, s with
  | EmptyString, _ => Some s
  | String a w', String b s' => if Ascii.eqb a b then strip w' s' else None
  | _, EmptyString => None
  end.

(** ** Strings *)

Definition char_of (z : Z) : ascii := ascii_of_N (Z.to_N z).
(** A code point in UTF-8 *)
Definition utf8_char (p : Z) : string :=
  if p <? 128 then String (char_of p) EmptyString
  else if p <? 2048 then String (char_of (192 + p / 64)) (String (char_of (128 + p mod 64)) EmptyString)
  else if p <? 65536 then
    String (char_of (224 + p / 4096)) (String (char_of (128 + (p / 64) mod 64)) (String (char_of (128 + p mod 64)) EmptyString))
  else
    String (char_of (240 + p / 262144)) (String (char_of (128 + (p / 4096) mod 64))
      (String (char_of (128 + (p / 64) mod 64)) (String (char_of (128 + p mod 64)) EmptyString))).

Definition hex_value (s : string) : option (Z * string) :=
  match s with
  | String a (String b (String c (String d r))) =>
      a ← digit_value a; b ← digit_value b; c ← digit_value c; d ← digit_value d;
      Some (a * 4096 + b * 256 + c * 16 + d, r)
  | _ => None
  end.
(** what follows [\u] *)
Definition unicode_escape (s : string) : option (string * string) :=
  '(u, r) ← hex_value s;
  if (55296 <=? u) && (u <? 56320) then
    r ← strip "\u" r; '(l, r) ← hex_value r;
    if (56320 <=? l) && (l <? 57344) then Some (utf8_char (65536 + (u - 55296) * 1024 + (l - 56320)), r) else None
  else if (56320 <=? u) && (u <? 57344) then None
  else Some (utf8_char u, r).

Definition simple_escapes : list (ascii * Z) :=
  [("034"%char, 34); ("\"%char, 92); ("/"%char, 47); ("b"%char, 8); ("f"%char, 12); ("n"%char, 10); ("r"%char, 13); ("t"%char, 9)].
Definition simple_escape (c : ascii) : option Z := snd <$> List.find (λ p, Ascii.eqb (fst p) c) simple_escapes.

(** The rest of a string after its opening quote *)
Fixpoint pstring (n : nat) (s : string) : option (string * string) :=
  match n, s with
  | S n, String c s1 =>
      if byte c =? 34 then Some (EmptyString, s1)
      else if byte c <? 32 then None
      else if byte c =? 92 then
        match s1 with
        | String e s2 =>
            if Ascii.eqb e "u" then '(t, r) ← unicode_escape s2; '(u, r) ← pstring n r; Some (t +:+ u, r)
            else z ← simple_escape e; '(u, r) ← pstring n s2; Some (String (char_of z) u, r)
        | EmptyString => None
        end
      else '(u, r) ← pstring n s1; Some (String c u, r)
  | _, _ => None
  end.

(** ** Numbers *)

(** [e12], [E-3]: the exponent, and the rest *)
Definition pexponent (s : string) : option (Z * string) :=
  match s with
  | String c s1 =>
      if Ascii.eqb c "e" || Ascii.eqb c "E" then
        let '(sign, s2) := read_sign s1 in
        let '(e, n, r) := read_digits 10 s2 0 0 in
        if n =? 0 then None else Some (sign * e, r)
      else Some (0, s)
  | EmptyString => Some (0, s)
  end.
(** [.25]: the digits read so far, and the number of those after the point *)
Definition pfraction (m : Z) (s : string) : option (Z * Z * string) :=
  match s with
  | String "." s1 =>
      let d := read_digits 10 s1 m 0 in
      if snd (fst d) =? 0 then None else Some d
  | _ => Some (m, 0, s)
  end.
Definition punsigned (sign : Z) (s : string) : option (jsval * string) :=
  let '(m, n, s1) := match s with String "0" s1 => (0, 1, s1) | _ => read_digits 10 s 0 0 end in
  if n =? 0 then None
  else
    '(m, k, s2) ← pfraction m s1;
    '(e, r) ← pexponent s2;
    Some (JNum (if e - k =? 0 then NInt (sign * m) else NFin (inject_Z (sign * m) * pow10 (e - k))%Q), r).
Definition pnumber (s : string) : option (jsval * string) :=
  match s with String "-" s1 => punsigned (-1) s1 | _ => punsigned 1 s end.

(** ** Values *)

Definition pliteral (s : string) : option (jsval * string) :=
  match strip "null" s with Some r => Some (JNull, r) | None =>
  match strip "true" s with Some r => Some (JBool true, r) | None =>
  match strip "false" s with Some r => Some (JBool false, r) | None => pnumber s end end end.

Fixpoint pvalue (n : nat) (s : string) : option (jsval * string) :=
  match n with
  | O => None
  | S n =>
      match skip_ws s with
      | String c s1 =>
          if byte c =? 34 then '(t, r) ← pstring (S (String.length s1)) s1; Some (JStr t, r)
          else if Ascii.eqb c "[" then
            match skip_ws s1 with
            | String "]" r => Some (JArr [], r)
            | _ => '(l, r) ← pelements n s1; Some (JArr l, r)
            end
          else if Ascii.eqb c "{" then
            match skip_ws s1 with
            | String "}" r => Some (JObj [], r)
            | _ => '(f, r) ← pmembers n s1 []; Some (JObj f, r)
            end
          else pliteral (String c s1)
      | EmptyString => None
      end
  end
with pelements (n : nat) (s : string) : option (list jsval * string) :=
  match n with
  | O => None
  | S n =>
      '(v, r) ← pvalue n s;
      match skip_ws r with
      | String "," r => '(l, r) ← pelements n r; Some (v :: l, r)
      | String "]" r => Some ([v], r)
      | _ => None
      end
  end
with pmembers (n : nat) (s : string) (acc : list (string * jsval)) : option (list (string * jsval) * string) :=
  match n with
  | O => None
  | S n =>
      match skip_ws s with
      | String c s1 =>
          if byte c =? 34 then
            '(k, r) ← pstring (S (String.length s1)) s1;
            match skip_ws r with
            | String ":" r =>
                '(v, r) ← pvalue n r;
                match skip_ws r with
                | String "," r => pmembers n r (JMap.set acc k v)
                | String "}" r => Some (JMap.set acc k v, r)
                | _ => None
                end
            | _ => None
            end
          else None
      | EmptyString => None
      end
  end.

(** [JSON.parse(s)], [None] for a [SyntaxError] *)
Definition JSON_parse (s : string) : option jsval :=
  '(v, r) ← pvalue (S (String.length s)) s;
  if String.eqb (skip_ws r) "" then Some v else None.

(** * The round trip *)

(** ** Numbers *)

Definition stops (s : string) : Prop :=
  match s with EmptyString => True | String c _ => c = ","%char ∨ c = "]"%char ∨ c = "}"%char end.

Lemma digit_char (x : N) :
  (x < 10)%N → digit_value (pretty_N_char x) = Some (Z.of_N x)
  ∧ is_digit (pretty_N_char x) = true ∧ (x ≠ 0%N → pretty_N_char x ≠ "0"%char).
Proof.
  intros Hx. assert (x = 0 ∨ x = 1 ∨ x = 2 ∨ x = 3 ∨ x = 4 ∨ x = 5 ∨ x = 6 ∨ x = 7 ∨ x = 8 ∨ x = 9)%N as H by lia.
  destruct H as [->|[->|[->|[->|[->|[->|[->|[->|[->| ->]]]]]]]]]; vm_compute; naive_solver.
Qed.

Lemma read_pretty (x : N) s acc n :
  ∃ k, 0 <= k ∧ (x = 0%N ∨ 0 < k)
    ∧ read_digits 10 (pretty_N_go x s) acc n = read_digits 10 s (acc * 10 ^ k + Z.of_N x) (n + k).
Proof.
  revert s acc n. induction (N.lt_wf_0 x) as [x _ IH]. intros s acc n.
  destruct (decide (x = 0)%N) as [->|Hx].
  - exists 0. rewrite pretty_N_go_0, Z.pow_0_r. replace (acc * 1 + Z.of_N 0) with acc by lia.
    split; [lia|]. split; [by left|]. by rewrite Z.add_0_r.
  - rewrite pretty_N_go_step by lia.
    destruct (IH (x / 10)%N) with (s := String (pretty_N_char (x `mod` 10)) s) (acc := acc) (n := n) as (k&Hk&_&->);
      [apply N.div_lt; lia|].
    exists (k + 1). split; [lia|]. split; [right; lia|]. cbn [read_digits].
    assert (x `mod` 10 < 10)%N as Hm by (apply N.mod_lt; lia). destruct (digit_char _ Hm) as (->&_).
    assert ((Z.of_N (x `mod` 10) <? 10) = true) as -> by (apply Z.ltb_lt; lia). f_equal; [|lia].
    pose proof (N.div_mod x 10). rewrite Z.pow_add_r by lia. change (10 ^ 1) with 10. lia.
Qed.

Lemma pretty_first (x : N) s :
  (0 < x)%N → ∃ c t, pretty_N_go x s = String c t ∧ is_digit c = true ∧ c ≠ "0"%char.
Proof.
  revert s. induction (N.lt_wf_0 x) as [x _ IH]. intros s Hx. rewrite pretty_N_go_step by done.
  destruct (decide (x / 10 = 0)%N) as [E|Hne].
  - rewrite E, pretty_N_go_0. assert (x < 10)%N as Hlt by (apply N.div_small_iff; [lia|done]).
    rewrite N.mod_small by done. destruct (digit_char x Hlt) as (_&Hd&Hz). eexists _, _. split; [done|]. split; [done|apply Hz; lia].
  - apply IH; [apply N.div_lt; lia|by apply N.neq_0_lt_0].
Qed.

Lemma read_stops s acc n : stops s → read_digits 10 s acc n = (acc, n, s).
Proof. destruct s as [|c s]; [done|]. by intros [->|[->| ->]]. Qed.

Lemma punsigned_pretty sign (x : N) s :
  stops s → punsigned sign (pretty x +:+ s) = Some (JNum (NInt (sign * Z.of_N x)), s).
Proof.
  intros Hs. assert (∀ m n, n ≠ 0 → (if n =? 0 then None else
      '(m, k, s2) ← pfraction m s; '(e, r) ← pexponent s2;
      Some (JNum (if e - k =? 0 then NInt (sign * m) else NFin (inject_Z (sign * m) * pow10 (e - k))%Q), r))
    = Some (JNum (NInt (sign * m)), s)) as Hrest.
  { intros m n Hn%Z.eqb_neq. rewrite Hn. unfold pfraction, pexponent.
    destruct s as [|c s]; [done|]. by destruct Hs as [->|[->| ->]]. }
  unfold pretty, pretty_N. destruct (decide (x = 0%N)) as [->|Hx]; [by apply (Hrest 0 1)|].
  assert (pretty_N_go x "" +:+ s = pretty_N_go x s) as ->.
  { clear. enough (∀ t, pretty_N_go x t +:+ s = pretty_N_go x (t +:+ s)) as H by apply (H "").
    induction (N.lt_wf_0 x) as [x _ IH]. intros t. destruct (decide (x = 0%N)) as [->|Hx]; [by rewrite !pretty_N_go_0|].
    rewrite (pretty_N_go_step x t), (pretty_N_go_step x (t +:+ s)), IH by (try apply N.div_lt; lia). done. }
  destruct (pretty_first x s) as (c&t&E&Hd&Hc); [lia|].
  destruct (read_pretty x s 0 0) as (k&_&Hk&Hr). rewrite (read_stops s) in Hr by done.
  unfold punsigned. rewrite E in Hr |- *.
  assert (match String c t with String "0" s1 => (0, 1, s1) | _ => read_digits 10 (String c t) 0 0 end
    = read_digits 10 (String c t) 0 0) as ->.
  { clear -Hc. destruct c as [[] [] [] [] [] [] [] []]; done. }
  rewrite Hr, Z.mul_0_l, Z.add_0_l. rewrite Hrest; [done|]. destruct Hk; lia.
Qed.

Lemma pretty_Z_cases (z : Z) :
  pretty z = if 0 <=? z then pretty (Z.to_N z) else "-" +:+ pretty (Z.to_N (- z)).
Proof. by destruct z. Qed.

Lemma pnumber_pretty (z : Z) s : stops s → pnumber (pretty z +:+ s) = Some (JNum (NInt z), s).
Proof.
  intros Hs. rewrite pretty_Z_cases. destruct (0 <=? z) eqn:E; b2p.
  - assert (pnumber (pretty (Z.to_N z) +:+ s) = punsigned 1 (pretty (Z.to_N z) +:+ s)) as ->.
    { unfold pnumber, pretty, pretty_N. destruct (decide (Z.to_N z = 0%N)); [done|].
      destruct (pretty_first (Z.to_N z) "") as (c&t&->&Hd&_); [lia|].
      change (String c t +:+ s) with (String c (t +:+ s)). by destruct c as [[] [] [] [] [] [] [] []]. }
    rewrite punsigned_pretty by done. do 3 f_equal. unfold NInt. do 2 f_equal. lia.
  - change (("-" +:+ pretty (Z.to_N (- z))) +:+ s) with (String "-" (pretty (Z.to_N (- z)) +:+ s)). unfold pnumber.
    rewrite punsigned_pretty by done. do 3 f_equal. unfold NInt. do 2 f_equal. lia.
Qed.

(** The first character of a printed integer *)
Lemma pretty_head (z : Z) : ∃ c t, pretty z = String c t ∧ (is_digit c = true ∨ c = "-"%char).
Proof.
  rewrite pretty_Z_cases. destruct (0 <=? z); [|by eexists _, _; split; [|right]].
  unfold pretty, pretty_N. destruct (decide (Z.to_N z = 0%N)); [by eexists _, _; split; [|left]|].
  destruct (pretty_first (Z.to_N z) "") as (c&t&->&Hd&_); [lia|]. eexists _, _. split; [done|by left].
Qed.

(** ** Strings *)

Lemma byte_char c k : byte c = k → c = char_of k.
Proof. intros <-. unfold char_of, byte. by rewrite N2Z.id, ascii_N_embedding. Qed.

Lemma hex4_read c tail :
  (byte c <? 32) = true → unicode_escape (String.substring 2 4 (hex4 c) +:+ tail) = Some (String c EmptyString, tail).
Proof. destruct c as [[] [] [] [] [] [] [] []]; intros H; try discriminate H; reflexivity. Qed.
Lemma hex4_shape c tail : hex4 c +:+ tail = String "\" (String "u" (String.substring 2 4 (hex4 c) +:+ tail)).
Proof. reflexivity. Qed.

(** One character, as [JSON.stringify] writes it *)
Lemma pstring_escape c n tail s r :
  pstring n tail = Some (s, r) → pstring (S n) (json_escape c +:+ tail) = Some (String c s, r).
Proof.
  intros H. unfold json_escape.
  repeat match goal with
  | |- context [if byte c =? ?k then _ else _] =>
      destruct (byte c =? k) eqn:?; [b2p; match goal with E : byte c = k |- _ => apply byte_char in E as -> end;
        rewrite !str_app_cons; change ("" +:+ tail) with tail; cbn [pstring]; simpl; rewrite H; reflexivity|]
  end.
  destruct (byte c <? 32) eqn:E.
  - cbn iota. rewrite hex4_shape. cbn [pstring]. change (byte "\" =? 34) with false. change (byte "\" <? 32) with false.
    change (byte "\" =? 92) with true. change (Ascii.eqb "u" "u") with true. cbn iota.
    rewrite hex4_read by done. simpl. by rewrite H.
  - cbn iota. change (String c "" +:+ tail) with (String c tail). cbn [pstring].
    repeat match goal with E : (byte c =? _) = false |- _ => rewrite ?E; clear E end. rewrite E. by rewrite H.
Qed.

Lemma pstring_chars (s rest : string) n :
  (String.length s < n)%nat → pstring n (json_chars s +:+ String "034" rest) = Some (s, rest).
Proof.
  revert n. induction s as [|c s IH]; intros [|n] Hn; simpl in Hn; try lia; [done|].
  cbn [json_chars]. rewrite <- str_app_assoc. apply pstring_escape, IH. lia.
Qed.

Lemma json_chars_length k : (String.length k <= String.length (json_chars k))%nat.
Proof.
  induction k as [|c k IH]; simpl; [lia|]. rewrite str_length_app.
  assert (1 <= String.length (json_escape c))%nat; [|lia]. unfold json_escape, hex4. repeat case_match; simpl; lia.
Qed.

(** ** Values *)

(** An induction principle for the nested lists *)
Section jsval_nested.
Context (P : jsval → Prop).
Context (Hundef : P JUndef) (Hnull : P JNull) (Hbool : ∀ b, P (JBool b)) (Hnum : ∀ n, P (JNum n)) (Hstr : ∀ s, P (JStr s)).
Context (Harr : ∀ l, Forall P l → P (JArr l)) (Hobj : ∀ f, Forall (λ p, P (snd p)) f → P (JObj f)).
Fixpoint jsval_nested_ind (v : jsval) : P v :=
  match v with
  | JUndef => Hundef | JNull => Hnull | JBool b => Hbool b | JNum n => Hnum n | JStr s => Hstr s
  | JArr l => Harr l ((fix go (l : list jsval) : Forall P l :=
      match l with [] => Forall_nil_2 _ | x :: l => Forall_cons_2 _ _ _ (jsval_nested_ind x) (go l) end) l)
  | JObj f => Hobj f ((fix go (f : list (string * jsval)) : Forall (λ p, P (snd p)) f :=
      match f with [] => Forall_nil_2 _ | p :: f => Forall_cons_2 _ _ _ (jsval_nested_ind (snd p)) (go f) end) f)
  end.
End jsval_nested.

(** The values whose text is theirs alone: no [undefined], integers printed in
    full, no repeated key *)
Fixpoint plain (v : jsval) : bool :=
  match v with
  | JUndef => false
  | JNum (NFin q) => bool_decide (q = inject_Z (q_trunc q)) && (Z.abs (q_trunc q) <? 10 ^ 21)
  | JNum _ => false
  | JArr l => forallb plain l
  | JObj f => bool_decide (NoDup (map fst f)) && forallb (λ p, plain (snd p)) f
  | _ => true
  end.
Fixpoint need (v : jsval) : nat :=
  match v with
  | JArr l => S (list_sum (map (λ x, S (need x)) l))
  | JObj f => S (list_sum (map (λ p, S (need (snd p))) f))
  | _ => 1
  end.

Lemma set_absent {V} (m : list (string * V)) k v : ¬ In k (JMap.keys m) → JMap.set m k v = m ++ [(k, v)].
Proof.
  induction m as [|[k' v'] m IH]; [done|]. simpl. intros Hk. destruct (String.eqb k' k) eqn:E; b2p; [tauto|].
  rewrite IH; [done|tauto].
Qed.

Section RoundTrip.
Context (fmt : Q → string).
Abbreviation str := (JSON_stringify fmt).

Lemma str_head v : ∃ c t, str v = String c t ∧ json_ws c = false ∧ c ≠ "]"%char ∧ c ≠ "}"%char ∨ plain v = false.
Proof.
  destruct v as [| |[]|[| |q]|s|l|f]; try (eexists _, _; left; split; [reflexivity|done]); try (eexists "a"%char, ""; by right).
  simpl. destruct (bool_decide _ && _) eqn:E; [|eexists "a"%char, ""; by right].
  apply andb_true_iff in E as [E%bool_decide_eq_true E1]. rewrite E, q_is_int_inject, q_trunc_inject, E1. simpl.
  destruct (pretty_head (q_trunc q)) as (c&t&->&Hc). exists c, t. left. split; [done|].
  destruct Hc as [Hc| ->]; [|done]. by destruct c as [[] [] [] [] [] [] [] []].
Qed.

Definition reads (v : jsval) : Prop := plain v = true → ∀ n rest,
  (need v <= n)%nat → stops rest → pvalue n (str v +:+ rest) = Some (v, rest).

Lemma pelements_str l rest n :
  Forall reads l → forallb plain l = true → l ≠ [] → (list_sum (map (λ x, S (need x)) l) <= n)%nat →
  pelements n (join "," (map str l) +:+ String "]" rest) = Some (l, rest).
Proof.
  intros Hl. revert n. induction Hl as [|x l Hx Hl IH]; intros n Hp Hne Hn; [done|].
  simpl in Hp. apply andb_true_iff in Hp as [Hpx Hpl]. cbn [map list_sum foldr] in Hn. destruct n as [|n]; [simpl in Hn; lia|].
  cbn [pelements]. destruct l as [|y l].
  - change (join "," (map str [x])) with (str x). rewrite Hx; [|done|simpl in Hn; lia|by right; left]. done.
  - cbn [map]. rewrite join_cons, <- !str_app_assoc. change ("," +:+ ?x) with (String "," x).
    rewrite Hx; [|done|simpl in Hn; lia|by left]. simpl. cbn [map] in IH. rewrite IH; [done|done|done|]. unfold list_sum in *. simpl in *. lia.
Qed.

Definition member (p : string * jsval) : string := json_quote (fst p) +:+ ":" +:+ str (snd p).

Lemma pmembers_str f rest acc n :
  Forall (λ p, reads (snd p)) f → forallb (λ p, plain (snd p)) f = true → f ≠ [] →
  List.NoDup (JMap.keys (acc ++ f)) → (list_sum (map (λ p, S (need (snd p))) f) <= n)%nat →
  pmembers n (join "," (map member f) +:+ String "}" rest) acc = Some (acc ++ f, rest).
Proof.
  intros Hf. revert n acc. induction Hf as [|[k v] f Hv Hf IH]; intros n acc Hp Hne Hnd Hn; [done|].
  simpl in Hp, Hv. apply andb_true_iff in Hp as [Hpx Hpl]. cbn [map list_sum foldr snd] in Hn. destruct n as [|n]; [simpl in Hn; lia|].
  assert (¬ In k (JMap.keys acc) ∧ List.NoDup (JMap.keys ((acc ++ [(k, v)]) ++ f))) as [Hk Hnd'].
  { rewrite <- app_assoc. split; [|done]. unfold JMap.keys in Hnd. rewrite map_app in Hnd. apply NoDup_remove_2 in Hnd.
    intros Hin. apply Hnd, in_app_iff. by left. }
  assert (∀ tail, stops tail → member (k, v) +:+ tail = String "034" (json_chars k +:+ String "034" (String ":" (str v +:+ tail)))) as Hm.
  { intros tail _. unfold member, json_quote. simpl fst. simpl snd. rewrite !str_app_cons, <- !str_app_assoc. done. }
  assert (∀ tail, stops tail → (n ≥ need v)%nat → ∃ s1, member (k, v) +:+ tail = String "034" s1
    ∧ pstring (S (String.length s1)) s1 = Some (k, String ":" (str v +:+ tail))
    ∧ pvalue n (str v +:+ tail) = Some (v, tail)) as Hone.
  { intros tail Ht Hge. rewrite Hm by done. eexists. split; [done|]. split; [|by apply Hv].
    apply pstring_chars. rewrite str_length_app. assert (String.length k <= String.length (json_chars k))%nat; [|lia].
    apply json_chars_length. }
  cbn [pmembers]. destruct f as [|p f].
  - change (join "," (map member [(k, v)])) with (member (k, v)).
    destruct (Hone (String "}" rest)) as (s1&->&H1&H2); [by right; right|simpl in Hn; lia|]. simpl skip_ws. change (byte "034" =? 34) with true.
    cbn iota. rewrite H1. simpl. rewrite H2. simpl. by rewrite set_absent.
  - cbn [map]. rewrite join_cons, <- !str_app_assoc. change ("," +:+ ?x) with (String "," x).
    remember (join "," (member p :: map member f) +:+ String "}" rest) as tail eqn:Etail.
    destruct (Hone (String "," tail)) as (s1&->&H1&H2);
      [by left|simpl in Hn; lia|]. simpl skip_ws. change (byte "034" =? 34) with true.
    cbn iota. rewrite H1. simpl. rewrite H2. simpl. rewrite set_absent by done. cbn [map] in IH. rewrite Etail.
    rewrite (IH n (acc ++ [(k, v)])); [by rewrite <- app_assoc|done|done|done|unfold list_sum in *; simpl in *; lia].
Qed.

Lemma pvalue_str v : reads v.
Proof.
  induction v as [| |b|n|s|l Hl|f Hf] using jsval_nested_ind; intros Hp n' rest Hn Hs; destruct n' as [|n']; try (simpl in Hn; lia).
  - done.
  - done.
  - by destruct b.
  - destruct n as [| |q]; try done. simpl in Hp. apply andb_true_iff in Hp as [E%bool_decide_eq_true E1].
    assert (str (JNum (NFin q)) = pretty (q_trunc q)) as ->.
    { simpl. rewrite E, q_is_int_inject, q_trunc_inject, E1. done. }
    pose proof (pnumber_pretty (q_trunc q) rest Hs) as Hread. unfold NInt in Hread. rewrite <- E in Hread.
    destruct (pretty_head (q_trunc q)) as (c&t&Et&Hc). rewrite Et in Hread |- *. rewrite !str_app_cons in *.
    cbn [pvalue]. assert (skip_ws (String c (t +:+ rest)) = String c (t +:+ rest)
      ∧ (byte c =? 34) = false ∧ Ascii.eqb c "[" = false ∧ Ascii.eqb c "{" = false
      ∧ pliteral (String c (t +:+ rest)) = pnumber (String c (t +:+ rest))) as (->&->&->&->&->); [|done].
    destruct Hc as [Hc| ->]; [|done]. by destruct c as [[] [] [] [] [] [] [] []].
  - change (str (JStr s)) with (json_quote s). unfold json_quote. rewrite !str_app_cons, <- str_app_assoc. cbn [pvalue].
    change (skip_ws (String "034" ?x)) with (String "034" x). cbv iota. change (byte "034" =? 34) with true. cbv iota.
    rewrite !str_app_cons. change ("" +:+ rest) with rest. rewrite pstring_chars; [done|].
    rewrite str_length_app. assert (String.length s <= String.length (json_chars s))%nat as Hlen by apply json_chars_length. lia.
  - simpl in Hp. destruct l as [|x l]; [done|].
    assert (str (JArr (x :: l)) +:+ rest = String "[" (join "," (map str (x :: l)) +:+ String "]" rest)) as ->.
    { change (str (JArr (x :: l))) with ("[" +:+ join "," (map str (x :: l)) +:+ "]"). rewrite !str_app_cons, <- !str_app_assoc. done. }
    pose proof (pelements_str (x :: l) rest n' Hl Hp) as He. simpl in Hn.
    cbn [pvalue]. change (skip_ws (String "[" ?y)) with (String "[" y). cbv iota.
    change (byte "[" =? 34) with false. change (Ascii.eqb "[" "[") with true. cbv iota.
    simpl in Hp. destruct (str_head x) as (c&t&[(Hx&Hw&Hb&_)|Hx]); [|by rewrite Hx in Hp].
    assert (∃ tail, join "," (map str (x :: l)) +:+ String "]" rest = String c tail) as [tail Et].
    { destruct l as [|y l]; cbn [map]; [change (join "," [str x]) with (str x)|rewrite join_cons]; rewrite Hx; by eexists. }
    rewrite Et in He |- *. cbn [skip_ws]. rewrite Hw. rewrite He; [|done|unfold list_sum; simpl; unfold list_sum in Hn; lia].
    destruct c as [[] [] [] [] [] [] [] []]; done.
  - simpl in Hp. apply andb_true_iff in Hp as [Hnd%bool_decide_eq_true Hp]. destruct f as [|p f]; [done|].
    assert (str (JObj (p :: f)) +:+ rest = String "{" (join "," (map member (p :: f)) +:+ String "}" rest)) as ->.
    { change (str (JObj (p :: f))) with ("{" +:+ join "," (map member (p :: f)) +:+ "}"). rewrite !str_app_cons, <- !str_app_assoc. done. }
    pose proof (pmembers_str (p :: f) rest [] n' Hf Hp) as He. simpl in Hn.
    cbn [pvalue]. change (skip_ws (String "{" ?y)) with (String "{" y). cbv iota.
    change (byte "{" =? 34) with false. change (Ascii.eqb "{" "[") with false. change (Ascii.eqb "{" "{") with true. cbv iota.
    assert (∃ tail, join "," (map member (p :: f)) +:+ String "}" rest = String "034" tail) as [tail Et].
    { destruct f as [|q f]; cbn [map]; [change (join "," [member p]) with (member p)|rewrite join_cons]; by eexists. }
    rewrite Et in He |- *. change (skip_ws (String "034" tail)) with (String "034" tail). cbv iota.
    rewrite He; [done|done|by apply NoDup_ListNoDup|unfold list_sum; simpl; unfold list_sum in Hn; lia].
Qed.

Lemma list_sum_cons x l : list_sum (x :: l) = (x + list_sum l)%nat.
Proof. done. Qed.

(** The fuel of [JSON_parse] is enough for what [JSON.stringify] prints. *)
Lemma need_length v : plain v = true → (need v <= String.length (str v))%nat.
Proof.
  assert (∀ sep l, (list_sum (map String.length l) + length l <= S (String.length (join (String sep EmptyString) l)))%nat) as Hjoin.
  { intros sep l. induction l as [|x [|y l] IH]; unfold list_sum in *; cbn [map foldr length]; [lia|unfold join; simpl; lia|].
    change (join ?sep (x :: y :: l)) with (x +:+ sep +:+ join sep (y :: l)).
    rewrite !str_length_app. simpl in *. lia. }
  induction v as [| |b|n|s|l Hl|f Hf] using jsval_nested_ind; intros Hp; simpl in Hp.
  - done.
  - simpl. lia.
  - destruct b; simpl; lia.
  - destruct (str_head (JNum n)) as (c&t&[(->&_)|E]); [simpl; lia|by simpl in E; rewrite E in Hp].
  - simpl. rewrite str_length_app. simpl. lia.
  - change (str (JArr l)) with ("[" +:+ join "," (map str l) +:+ "]"). rewrite !str_length_app.
    pose proof (Hjoin ","%char (map str l)) as Hj. rewrite length_map in Hj. simpl in *.
    assert (list_sum (map (λ x, S (need x)) l) <= list_sum (map String.length (map str l)) + length l)%nat; [|lia].
    clear Hj. induction Hl as [|x l Hx Hl IH]; [done|]. simpl in Hp. apply andb_true_iff in Hp as [Hp1 Hp2].
    specialize (Hx Hp1). specialize (IH Hp2). cbn [map length]. rewrite !list_sum_cons. lia.
  - apply andb_true_iff in Hp as [_ Hp]. change (str (JObj f)) with ("{" +:+ join "," (map member f) +:+ "}"). rewrite !str_length_app.
    pose proof (Hjoin ","%char (map member f)) as Hj. rewrite length_map in Hj. simpl in *.
    assert (list_sum (map (λ p, S (need (snd p))) f) <= list_sum (map String.length (map member f)) + length f)%nat; [|lia].
    clear Hj. induction Hf as [|p f Hx Hf IH]; [done|]. simpl in Hp. apply andb_true_iff in Hp as [Hp1 Hp2].
    specialize (Hx Hp1). specialize (IH Hp2). cbn [map length]. rewrite !list_sum_cons.
    assert (need (snd p) <= String.length (member p))%nat; [|lia]. unfold member. rewrite !str_length_app. lia.
Qed.

Lemma JSON_parse_stringify v : plain v = true → JSON_parse (str v) = Some v.
Proof.
  intros Hp. unfold JSON_parse. pose proof (pvalue_str v Hp (S (String.length (str v))) "") as H.
  rewrite str_app_nil_r in H. rewrite H; [done| |done]. pose proof (need_length v Hp). lia.
Qed.
End RoundTrip.
