(* ===== verification/DatabaseSetup.v ===== *)
(** * The first-run setup of the database password
    ([deploy/setup-status/database-setup.mjs] and the route
    [/setup-status/v1/database] of [deploy/setup-status/server.mjs])

    Before the platform starts, a page asks for the password of PostgreSQL and
    the in-app settings; the installer reads them from a file.  A submission is
    written to a temporary file and published with [link], which fails when the
    file exists.  Submissions run concurrently: each goes on by one file
    operation at a time ([Phase]), in any order, and any operation may fail.

    The URL parser is the platform's ([UrlParser]); the file system is the
    published file and the temporary ones.  The names of temporary files are
    fresh ([randomUUID]): here the number of the request. *)

From Stdlib Require Import Ascii QArith.
From S2P Require Import Prelude JsVal BranchCondition Crypto Json JsonParse.

#[global] Open Scope Z_scope.

(** ** Checks of a submission *)

(** [[...value].length] *)
Fixpoint code_points (s : string) : Z :=
  match s with
  | EmptyString => 0
  | String c s' => (if (128 <=? byte c) && (byte c <? 192) then 0 else 1) + code_points s'
  end.
Definition control (c : ascii) : bool := (byte c <=? 31) || (byte c =? 127).
Definition password_ok (s : string) : bool :=
  (12 <=? code_points s) && (code_points s <=? 128) && str_forallb (λ c, negb (control c)) s.
Definition validPassword (v : jsval) : bool := match v with JStr s => password_ok s | _ => false end.

Definition hex (c : ascii) : bool := is_digit c || ((97 <=? byte c) && (byte c <=? 102)) || ((65 <=? byte c) && (byte c <=? 70)).
Definition variant (c : ascii) : bool := (byte c =? 56) || (byte c =? 57) || (byte c =? 97) || (byte c =? 98) || (byte c =? 65) || (byte c =? 66).
Fixpoint matches (ps : list (ascii → bool)) (s : string) : bool :=
  match ps, s with
  | [], EmptyString => true
  | p :: ps, String c s => p c && matches ps s
  | _, _ => false
  end.
(** the regular expression of version 4 identifiers *)
Definition request_id_re : list (ascii → bool) :=
  let h n := replicate n hex in let dash := [Ascii.eqb "-"%char] in
  h 8%nat ++ dash ++ h 4%nat ++ dash ++ [Ascii.eqb "4"%char] ++ h 3%nat ++ dash ++ [variant] ++ h 3%nat ++ dash ++ h 12%nat.

(** *** In-app settings *)

Record Url := mkUrl {
  u_protocol : string; u_hostname : string; u_port : option Z; u_username : string; u_password : string;
  u_pathname : string; u_search : string; u_hash : string; u_origin : string }.

(** [new URL(x)], [None] where it throws *)
Class UrlParser := { parse_url : jsval → option Url }.

Record InApp := mkInApp { ia_enabled : bool; ia_campaigns : bool; ia_origin : string; ia_port : Z }.
Definition disabled : InApp := mkInApp false false "" 8082.

Definition host_char (c : ascii) : bool := is_lower c || is_upper c || is_digit c || Ascii.eqb c "." || Ascii.eqb c "-".
Definition host_ok (h : string) : bool := (negb (String.eqb h "") && str_forallb host_char h) || String.eqb h "[::1]".
Definition nonempty (s : string) : bool := negb (String.eqb s "").

Record Submission := mkSubmission { sub_request_id : string; sub_password : string; sub_in_app : InApp }.

(** status and [error], or ["submitted"] *)
Definition Reply : Type := Z * string.

Section Setup.
Context `{UrlParser} `{Crypto} (fmt : Q → string).

Definition console_port (u : Url) : Z := default (if String.eqb (u_protocol u) "https:" then 443 else 80) (u_port u).

Definition bad_origin (u consoleURL : Url) : bool :=
  (253 <? js_length (u_hostname u)) || negb (host_ok (u_hostname u)) || String.eqb (u_hostname u) (u_hostname consoleURL)
  || nonempty (u_username u) || nonempty (u_password u) || nonempty (u_search u) || nonempty (u_hash u)
  || negb (String.eqb (u_pathname u) "/")
  || negb (String.eqb (u_protocol u) "https:"
           || (String.eqb (u_protocol u) "http:" && String_in (u_hostname u) ["localhost"; "127.0.0.1"; "[::1]"])).
Definition good_port (v : jsval) (consoleURL : Url) : option Z :=
  match v with
  | JNum n =>
      if negb (Number_isInteger n) then None
      else
        let port := num_to_Z n in
        if (port <? 1024) || (65535 <? port) || (port =? console_port consoleURL) then None else Some port
  | _ => None
  end.

(** [None] where it throws *)
Definition normalizeInApp (value : jsval) (consoleOrigin : string) : option InApp :=
  match value with
  | JUndef | JNull => Some disabled
  | JObj _ | JArr _ =>
      match prop value "enabled", prop value "campaigns" with
      | JBool enabled, JBool campaigns =>
          if negb enabled then Some disabled
          else
            u ← parse_url (prop value "origin");
            consoleURL ← parse_url (JStr consoleOrigin);
            if bad_origin u consoleURL then None
            else port ← good_port (prop value "port") consoleURL; Some (mkInApp true campaigns (u_origin u) port)
      | _, _ => None
      end
  | _ => None
  end.

(** *** [submit], up to the file operations *)

Record SetupEnv := mkSetupEnv {
  required : bool;                (** [NUDGEON_DATABASE_SETUP_REQUIRED === "true"] *)
  public_origin : option string;  (** [NUDGEON_PUBLIC_ORIGIN] *)
  token_file : option string }.   (** its contents, [None] where it cannot be read *)

Definition token_matches (token : string) (v : jsval) : bool :=
  match v with
  | JStr t => negb (256 <? js_length t) && String.eqb (sha256_hex t) (sha256_hex token)
  | _ => false
  end.

Definition submit_checks (env : SetupEnv) (origin : option string) (body : jsval) : Reply + Submission :=
  if negb (required env) then inl (409, "setup_closed")
  else
    match public_origin env with
    | Some expected =>
        if String.eqb expected "" || negb (bool_decide (origin = Some expected)) then inl (403, "invalid_origin")
        else
          match token_file env with
          | None => inl (503, "setup_unavailable")
          | Some file =>
              let token := js_trim file in
              if String.eqb token "" || negb (token_matches token (prop body "token")) then inl (403, "invalid_token")
              else
                match prop body "password", prop body "request_id" with
                | JStr password, JStr request_id =>
                    if negb (password_ok password) || negb (matches request_id_re request_id) then inl (400, "invalid_password")
                    else
                      match normalizeInApp (prop body "in_app") expected with
                      | None => inl (400, "invalid_in_app")
                      | Some inApp => inr (mkSubmission request_id password inApp)
                      end
                | _, _ => inl (400, "invalid_password")
                end
          end
    | None => inl (403, "invalid_origin")
    end.

(** *** The published file *)

Definition in_app_value (a : InApp) : jsval :=
  JObj [("enabled", JBool (ia_enabled a)); ("campaigns", JBool (ia_campaigns a)); ("origin", JStr (ia_origin a)); ("port", JNum (NInt (ia_port a)))].
Definition submission_value (d : Submission) : jsval :=
  JObj [("request_id", JStr (sub_request_id d)); ("password", JStr (sub_password d)); ("in_app", in_app_value (sub_in_app d))].
Definition text (d : Submission) : string := JSON_stringify fmt (submission_value d).

(** [read()], and that a property of it can be read *)
Definition read_saved (file : option string) : option jsval :=
  t ← file;
  saved ← JSON_parse t;
  if is_nullish saved then None else Some saved.

(** [readForInstaller], [readInAppForInstaller], [status] *)
Definition readForInstaller (env : SetupEnv) (file : option string) : outcome string :=
  if negb (required env) then Throw (PlainError "setup_closed")
  else
    match read_saved file with
    | Some saved =>
        match prop saved "password" with
        | JStr s => if password_ok s then Ok s else Throw (PlainError "invalid_password")
        | _ => Throw (PlainError "invalid_password")
        end
    | None => Throw (PlainError "read")
    end.
Definition readInAppForInstaller (env : SetupEnv) (file : option string) : outcome InApp :=
  if negb (required env) then Throw (PlainError "setup_closed")
  else
    match saved ← read_saved file; origin ← public_origin env; normalizeInApp (prop saved "in_app") origin with
    | Some cfg => Ok cfg
    | None => Throw (PlainError "invalid_in_app")
    end.
Definition status (env : SetupEnv) (file : option string) : bool * bool :=
  if negb (required env) then (false, false)
  else (true, match read_saved file with Some saved => validPassword (prop saved "password") | None => false end).

(** the comparison with a file that was there first: [None] where it throws *)
Definition same_as_saved (env : SetupEnv) (file : option string) (d : Submission) : option bool :=
  saved ← read_saved file;
  origin ← public_origin env;
  inApp ← normalizeInApp (prop saved "in_app") origin;
  if negb (String.eqb (JSON_stringify fmt (in_app_value inApp)) (JSON_stringify fmt (in_app_value (sub_in_app d)))) then Some false
  else if negb (match prop saved "request_id" with JStr s => String.eqb s (sub_request_id d) | _ => false end) then Some false
  else
    match prop saved "password" with
    | JStr s => Some (String.eqb (sha256_hex s) (sha256_hex (sub_password d)))
    | _ => None
    end.

(** ** Concurrent submissions *)

Inductive Phase :=
| Writing (d : Submission) | Linking (d : Submission) | Comparing (d : Submission)
| Unlinking (d : Submission) (r : Reply) | Answered (r : Reply).

Record World := mkWorld { file : option string; temps : gmap nat string; requests : list Phase }.
Definition fresh_world : World := mkWorld None ∅ [].

Definition submitted : Reply := (200, "submitted").
Definition save_failed : Reply := (503, "save_failed").

(** the next file operation of the request [i]; [io]: it does not fail *)
Definition proceed (env : SetupEnv) (i : nat) (io : bool) (w : World) : World :=
  let goto ph w := mkWorld (file w) (temps w) (<[i := ph]> (requests w)) in
  match requests w !! i with
  | Some (Writing d) =>
      if io then goto (Linking d) (mkWorld (file w) (<[i := text d]> (temps w)) (requests w))
      else goto (Unlinking d save_failed) w
  | Some (Linking d) =>
      if negb io then goto (Unlinking d save_failed) w
      else
        match file w with
        | None => goto (Unlinking d submitted) (mkWorld (temps w !! i) (temps w) (requests w))
        | Some _ => goto (Comparing d) w
        end
  | Some (Comparing d) =>
      if negb io then goto (Unlinking d save_failed) w
      else
        match same_as_saved env (file w) d with
        | Some true => goto (Unlinking d submitted) w
        | Some false => goto (Unlinking d (409, "already_submitted")) w
        | None => goto (Unlinking d save_failed) w
        end
  | Some (Unlinking d r) =>
      goto (Answered r) (mkWorld (file w) (if io then delete i (temps w) else temps w) (requests w))
  | _ => w
  end.

Definition arrive (env : SetupEnv) (origin : option string) (body : jsval) (w : World) : World :=
  mkWorld (file w) (temps w) (requests w ++
    [match submit_checks env origin body with inl r => Answered r | inr d => Writing d end]).

Inductive Event := Arrives (origin : option string) (body : jsval) | Proceeds (i : nat) (io : bool).
Definition step (env : SetupEnv) (w : World) (e : Event) : World :=
  match e with Arrives o b => arrive env o b w | Proceeds i io => proceed env i io w end.
Definition run (env : SetupEnv) (es : list Event) : World := fold_left (step env) es fresh_world.

(** ** The route *)

(** what [POST /setup-status/v1/database] answers before [submit] *)
Definition post_checks (content_type : option string) (size : Z) (body : string) : Reply + jsval :=
  if negb (match content_type with
           | Some t => String.eqb (js_trim (default "" (head (split_on ";" t)))) "application/json"
           | None => false end) then inl (415, "json_required")
  else if 4096 <? size then inl (413, "body_too_large")
  else
    match JSON_parse body with
    | Some (JObj f) => inr (JObj f)
    | _ => inl (400, "invalid_request")
    end.
End Setup.

(** ** The first password is the one

    Submissions race; the file that was published first stays, everyone who was
    told "submitted" submitted what it holds, and the installer reads that. *)
(** What the code relies on: the origin of an http(s) URL is itself a URL, with the same
    host and port and nothing else *)
Class UrlLaws `{UrlParser} := parse_origin v u : parse_url v = Some u → u_protocol u = "https:" ∨ u_protocol u = "http:" →
  parse_url (JStr (u_origin u)) = Some (mkUrl (u_protocol u) (u_hostname u) (u_port u) "" "" "/" "" "" (u_origin u)).

Ltac solve_nodup := apply (bool_decide_unpack _); vm_compute; exact I.

Section Saved.
Context `{UrlLaws} `{Crypto} (fmt : Q → string) (env : SetupEnv).

Lemma bad_origin_false u c : bad_origin u c = false →
  (u_protocol u = "https:" ∨ u_protocol u = "http:")
  ∧ bad_origin (mkUrl (u_protocol u) (u_hostname u) (u_port u) "" "" "/" "" "" (u_origin u)) c = false.
Proof.
  unfold bad_origin. rewrite !orb_false_iff, !negb_false_iff, orb_true_iff, andb_true_iff.
  cbn [u_protocol u_hostname u_username u_password u_search u_hash u_pathname]. rewrite !String.eqb_eq.
  change (nonempty "") with false. intuition.
  all: repeat match goal with Hp : ?x = _ |- context [?x] => rewrite Hp end; reflexivity.
Qed.
Lemma good_port_inv v c port : good_port v c = Some port → 1024 <= port <= 65535 ∧ good_port (JNum (NInt port)) c = Some port.
Proof.
  unfold good_port. destruct v; try done. destruct (negb (Number_isInteger n)); [done|].
  destruct (_ || _) eqn:E; [done|]. intros [= <-]. rewrite Number_isInteger_NInt. cbn [negb].
  assert (num_to_Z (NInt (num_to_Z n)) = num_to_Z n) as -> by (unfold num_to_Z at 1, NInt; apply q_trunc_inject).
  rewrite E. split; [|done]. apply orb_false_iff in E as [[E1 E2]%orb_false_iff _]. lia.
Qed.

(** What was stored reads back as the same settings. *)
Lemma normalize_twice v o a : normalizeInApp v o = Some a →
  normalizeInApp (in_app_value a) o = Some a ∧ 1024 <= ia_port a <= 65535.
Proof.
  assert (normalizeInApp (in_app_value disabled) o = Some disabled ∧ 1024 <= ia_port disabled <= 65535) as Hd by (split; [done|cbn; lia]).
  assert (∀ w : jsval, (match prop w "enabled", prop w "campaigns" with
    | JBool enabled, JBool campaigns => if negb enabled then Some disabled else
       u ← parse_url (prop w "origin"); consoleURL ← parse_url (JStr o);
       if bad_origin u consoleURL then None
       else port ← good_port (prop w "port") consoleURL; Some (mkInApp true campaigns (u_origin u) port)
    | _, _ => None end) = Some a → normalizeInApp (in_app_value a) o = Some a ∧ 1024 <= ia_port a <= 65535) as Hobj.
  { intros w. destruct (prop w "enabled") as [| |[]| | | |]; try done; destruct (prop w "campaigns"); try done; cbn [negb];
      [|by intros [= <-]].
    intros (u&Hu&Hn)%bind_Some. apply bind_Some in Hn as (c&Hc&Hn).
    destruct (bad_origin u c) eqn:Eb; [done|]. apply bind_Some in Hn as (port&Hp&[= <-]). apply good_port_inv in Hp as [Hr Hp].
    apply bad_origin_false in Eb as [Hproto Eb]. split; [|exact Hr]. unfold normalizeInApp, in_app_value. cbn [prop].
    cbn -[parse_url bad_origin good_port NInt]. rewrite (parse_origin _ u Hu Hproto). cbn -[parse_url bad_origin good_port NInt].
    rewrite Hc. cbn -[bad_origin good_port NInt]. by rewrite Eb, Hp. }
  destruct v; cbn [normalizeInApp]; try done; try (by intros [= <-]); apply Hobj.
Qed.

Definition accepted (d : Submission) : Prop := ∃ o b, submit_checks env o b = inr d.

Lemma accepted_inv d : accepted d → required env = true ∧ password_ok (sub_password d) = true
  ∧ ∃ o, public_origin env = Some o ∧ normalizeInApp (in_app_value (sub_in_app d)) o = Some (sub_in_app d)
  ∧ 1024 <= ia_port (sub_in_app d) <= 65535.
Proof.
  intros (o&b&E). unfold submit_checks in E. destruct (required env); [|done]. destruct (public_origin env) as [expected|]; [|done].
  destruct (_ || _); [done|]. destruct (token_file env); [|done]. destruct (_ || _); [done|].
  destruct (prop b "password"); try done. destruct (prop b "request_id"); try done. destruct (_ || _) eqn:Ep; [done|].
  destruct (normalizeInApp _ _) as [a|] eqn:En; [|done]. injection E as <-. cbn [sub_password sub_in_app].
  apply orb_false_iff in Ep as [Ep%negb_false_iff _]. apply normalize_twice in En. eauto.
Qed.

Lemma in_app_plain a : 1024 <= ia_port a <= 65535 → plain (in_app_value a) = true.
Proof.
  intros Hp. unfold in_app_value. cbn [plain map fst snd forallb NInt]. rewrite (bool_decide_eq_true_2 (NoDup _)) by solve_nodup.
  rewrite q_trunc_inject, bool_decide_eq_true_2 by done. cbn [andb]. rewrite andb_true_r. lia.
Qed.
Lemma submission_plain d : 1024 <= ia_port (sub_in_app d) <= 65535 → plain (submission_value d) = true.
Proof.
  intros Hp. unfold submission_value. cbn [plain map fst snd forallb]. rewrite (bool_decide_eq_true_2 (NoDup _)) by solve_nodup.
  by rewrite in_app_plain.
Qed.
Lemma in_app_value_inj a b : in_app_value a = in_app_value b → a = b.
Proof. destruct a, b. unfold in_app_value, NInt. by intros [= -> -> -> ->]. Qed.
Lemma in_app_text_inj a b : 1024 <= ia_port a <= 65535 → 1024 <= ia_port b <= 65535 →
  JSON_stringify fmt (in_app_value a) = JSON_stringify fmt (in_app_value b) → a = b.
Proof.
  intros Ha%in_app_plain Hb%in_app_plain E. apply in_app_value_inj.
  pose proof (JSON_parse_stringify fmt _ Ha) as Pa. pose proof (JSON_parse_stringify fmt _ Hb) as Pb. 
  exact (Some_inj _ _ (eq_trans (eq_sym Pa) (eq_trans (f_equal JSON_parse E) Pb))).
Qed.
Lemma read_saved_some t v : JSON_parse t = Some v → is_nullish v = false → read_saved (Some t) = Some v.
Proof. intros Hp Hn. unfold read_saved. cbn [mbind option_bind]. rewrite Hp. cbn [mbind option_bind]. by rewrite Hn. Qed.
Lemma saved_text d : accepted d → read_saved (Some (text fmt d)) = Some (submission_value d).
Proof.
  intros (_&_&_&_&_&Hp)%accepted_inv. apply read_saved_some; [|done]. by apply JSON_parse_stringify, submission_plain.
Qed.

Lemma submission_value_inj d d' : submission_value d = submission_value d' → d = d'.
Proof. destruct d, d'. unfold submission_value. intros [= -> -> Hi]. f_equal. by apply in_app_value_inj; unfold in_app_value; congruence. Qed.
Lemma text_inj d d' : accepted d → accepted d' → text fmt d = text fmt d' → d = d'.
Proof.
  intros Hd Hd' E. apply submission_value_inj.
  exact (Some_inj _ _ (eq_trans (eq_sym (saved_text d Hd)) (eq_trans (f_equal (λ t, read_saved (Some t)) E) (saved_text d' Hd')))).
Qed.

(** [d] is what the file [f] holds, up to the digest of the password *)
Definition agrees (f : option string) (d : Submission) : Prop :=
  ∃ d0, f = Some (text fmt d0) ∧ accepted d0 ∧ sub_request_id d = sub_request_id d0 ∧ sub_in_app d = sub_in_app d0
    ∧ sha256_hex (sub_password d) = sha256_hex (sub_password d0).

Lemma agrees_text d0 d : accepted d0 → agrees (Some (text fmt d0)) d ↔
  sub_request_id d = sub_request_id d0 ∧ sub_in_app d = sub_in_app d0 ∧ sha256_hex (sub_password d) = sha256_hex (sub_password d0).
Proof.
  intros Hd0. split; [|by intros (?&?&?); exists d0].
  intros (d1&E%Some_inj&Hd1&Hs). by rewrite (text_inj d0 d1 Hd0 Hd1 E).
Qed.
Lemma same_as_saved_spec d0 d : accepted d0 → accepted d →
  ∃ b, same_as_saved fmt env (Some (text fmt d0)) d = Some b
    ∧ (b = true ↔ sub_request_id d = sub_request_id d0 ∧ sub_in_app d = sub_in_app d0
        ∧ sha256_hex (sub_password d) = sha256_hex (sub_password d0)).
Proof.
  intros H0' Hd. unfold same_as_saved. rewrite saved_text by done. cbn [mbind option_bind].
  apply accepted_inv in H0' as (_&_&o&Ho&Hn&Hp0), Hd as (_&_&o'&Ho'&_&Hp). rewrite Ho. cbn [mbind option_bind].
  change (prop (submission_value d0) "in_app") with (in_app_value (sub_in_app d0)). rewrite Hn. cbn [mbind option_bind].
  change (prop (submission_value d0) "request_id") with (JStr (sub_request_id d0)).
  change (prop (submission_value d0) "password") with (JStr (sub_password d0)).
  destruct (String.eqb _ _) eqn:E1; cbn [negb]; b2p;
    [|exists false; split; [done|]; split; [done|]; intros (_&Heq&_); rewrite Heq in E1; done].
  apply in_app_text_inj in E1; [|done..].
  destruct (String.eqb (sub_request_id d0) _) eqn:E2; cbn [negb]; b2p;
    [|exists false; split; [done|]; split; [done|]; intros (Heq&_&_); by rewrite Heq in E2].
  eexists. split; [reflexivity|]. rewrite String.eqb_eq. intuition congruence.
Qed.
Lemma installer_reads d : accepted d →
  readForInstaller env (Some (text fmt d)) = Ok (sub_password d) ∧ readInAppForInstaller env (Some (text fmt d)) = Ok (sub_in_app d)
  ∧ status env (Some (text fmt d)) = (true, true).
Proof.
  intros Hd. pose proof (accepted_inv d Hd) as (Hr&Hp&o&Ho&Hn&_).
  unfold readForInstaller, readInAppForInstaller, status. rewrite Hr, saved_text by done. cbn [negb mbind option_bind].
  change (prop (submission_value d) "in_app") with (in_app_value (sub_in_app d)).
  change (prop (submission_value d) "password") with (JStr (sub_password d)). rewrite Ho. cbn [mbind option_bind validPassword].
  by rewrite Hp, Hn.
Qed.
End Saved.

(** ** Racing submissions *)

(** what the checks said of the requests, in the order they arrived *)
Definition checked `{UrlParser} `{Crypto} (env : SetupEnv) (es : list Event) : list (Reply + Submission) :=
  omap (λ e, match e with Arrives o b => Some (submit_checks env o b) | Proceeds _ _ => None end) es.

Section Race.
Context `{UrlLaws} `{Crypto} (fmt : Q → string) (env : SetupEnv).

(** what the request of [d] may be told while the file is [f] *)
Definition told (f : option string) (d : Submission) (r : Reply) : Prop :=
  (r = submitted ∧ agrees fmt env f d) ∨ (r = (409, "already_submitted") ∧ is_Some f ∧ ¬ agrees fmt env f d) ∨ r = save_failed.

Definition fits (f : option string) (temp : option string) (s : Reply + Submission) (ph : Phase) : Prop :=
  match s, ph with
  | inl r, Answered r' => r' = r
  | inr d, Writing d' => d' = d
  | inr d, Linking d' => d' = d ∧ temp = Some (text fmt d)
  | inr d, Comparing d' => d' = d ∧ is_Some f
  | inr d, Unlinking d' r => d' = d ∧ told f d r
  | inr d, Answered r => told f d r
  | _, _ => False
  end.
Definition published (f : option string) : Prop := f = None ∨ ∃ d, accepted env d ∧ f = Some (text fmt d).

Record Inv (ss : list (Reply + Submission)) (w : World) : Prop := {
  inv_length : length (requests w) = length ss;
  inv_phase i s ph : ss !! i = Some s → requests w !! i = Some ph → fits (file w) (temps w !! i) s ph;
  inv_file : published (file w) }.

Lemma fits_frame f f' temp s ph : f' = f ∨ f = None → fits f temp s ph → fits f' temp s ph.
Proof.
  intros [->| ->]; [done|]. assert (∀ d r, told None d r → told f' d r) as Ht.
  { unfold told, agrees. intros d r [[_ (?&?&_)]|[(_&[? ?]&_)|Hr]]; [done|done|auto]. }
  destruct s as [r|d], ph; simpl; try done; [by intros [-> [? ?]]|intros [-> Hr]; auto|auto].
Qed.

Lemma goto_inv ss w i s ph ph' f' temps' : Inv ss w → ss !! i = Some s → requests w !! i = Some ph →
  f' = file w ∨ file w = None → published f' → (∀ j, j ≠ i → temps' !! j = temps w !! j) →
  fits f' (temps' !! i) s ph' → Inv ss (mkWorld f' temps' (<[i := ph']> (requests w))).
Proof.
  intros [Hl Hp Hf] Hs Hr Hf' Hpub Ht Hfit. split; cbn [requests file temps]; [by rewrite length_insert| |done].
  intros j s' ph1 Hs' Hr'. destruct (decide (j = i)) as [->|Hne].
  - rewrite list_lookup_insert_eq in Hr' by by eapply lookup_lt_Some. injection Hr' as <-. by rewrite Hs in Hs'; injection Hs' as <-.
  - rewrite list_lookup_insert_ne in Hr' by done. rewrite Ht by done. eapply fits_frame; [|by eapply Hp]. tauto.
Qed.

Lemma accepted_at ss es i d : ss = checked env es → ss !! i = Some (inr d) → accepted env d.
Proof.
  intros -> Hi%list_elem_of_lookup_2. apply list_elem_of_omap in Hi as ([o b|j io]&_&[= Hc]). by exists o, b.
Qed.
Lemma agrees_refl d : accepted env d → agrees fmt env (Some (text fmt d)) d.
Proof. intros Hd. by exists d. Qed.

(** the phase of request [i] moves on *)
Ltac move_on :=
  match goal with Hi : Inv _ _, Hs : checked _ _ !! _ = Some _, Er : requests _ !! _ = Some _ |- _ =>
    refine (goto_inv _ _ _ _ _ _ _ _ Hi Hs Er _ _ _ _); cbn [file]; auto; try (by intros ? ?)
  end.
Lemma proceed_inv es i io w : Inv (checked env es) w → Inv (checked env es) (proceed fmt env i io w).
Proof.
  intros Hi. unfold proceed. destruct (requests w !! i) as [ph|] eqn:Er; [|done].
  destruct (lookup_lt_is_Some_2 (checked env es) i) as [s Hs]; [rewrite <- (inv_length _ _ Hi); by eapply lookup_lt_Some|].
  pose proof (inv_phase _ _ Hi i s ph Hs Er) as Hfit. pose proof (inv_file _ _ Hi) as Hpub.
  destruct ph as [d|d|d|d r|r]; destruct s as [r0|d0]; try done; simpl in Hfit; [| | | |done..].
  - subst d. destruct io; move_on; cbn [temps]; [intros; by rewrite lookup_insert_ne|split; [done|]; by rewrite lookup_insert_eq|].
    split; [done|]. by right; right.
  - destruct Hfit as [-> Htemp]. pose proof (accepted_at _ es i d0 eq_refl Hs) as Ha. destruct io; cbn [negb].
    + destruct (file w) as [t|] eqn:Ef; cbn [file]; rewrite ?Htemp; rewrite <- ?Ef; move_on; rewrite ?Ef; simpl; eauto.
      * by right; exists d0.
      * split; [done|]. left. split; [done|]. by apply agrees_refl.
    + move_on. split; [done|]. by right; right.
  - destruct Hfit as [-> Hsome]. pose proof (accepted_at _ es i d0 eq_refl Hs) as Ha. destruct io; cbn [negb].
    + pose proof Hpub as [Hn|(d1&Ha1&Hf)]; [rewrite Hn in Hsome; by destruct Hsome|].
      destruct (same_as_saved_spec fmt env d1 d0 Ha1 Ha) as (b&Hb&Hiff). rewrite <- Hf in Hb. rewrite Hb.
      rewrite <- (agrees_text fmt env d1 d0 Ha1), <- Hf in Hiff.
      destruct b; move_on; (split; [done|]); [left|right; left]; naive_solver.
    + move_on. split; [done|]. by right; right.
  - destruct Hfit as [-> Ht]. move_on. cbn [temps]. destruct io; intros; by rewrite ?lookup_delete_ne.
Qed.
Lemma arrive_inv es o b w : Inv (checked env es) w → Inv (checked env (es ++ [Arrives o b])) (arrive env o b w).
Proof.
  intros [Hl Hp Hf]. unfold checked in *. rewrite omap_app. cbn [omap list_omap]. split; cbn [requests arrive file temps]; [by rewrite !length_app, Hl| |done].
  intros i s ph Hs Hr. destruct (decide (i < length (requests w))%nat) as [Hi|Hi].
  - rewrite lookup_app_l in Hr by done. rewrite lookup_app_l in Hs by lia. by eapply Hp.
  - rewrite lookup_app_r in Hr by lia. rewrite lookup_app_r in Hs by lia. rewrite Hl in Hr.
    apply list_lookup_singleton_Some in Hr as [Hz <-]. rewrite Hz in Hs. injection Hs as <-. by destruct (submit_checks env o b).
Qed.
Lemma run_inv es : Inv (checked env es) (run fmt env es).
Proof.
  unfold run. induction es as [|e es IH] using rev_ind; [split; [done|done|by left]|]. rewrite fold_left_app. cbn [fold_left].
  destruct e as [o b|i io]; cbn [step]; [by apply arrive_inv|].
  unfold checked. rewrite omap_app. cbn [omap list_omap]. rewrite app_nil_r. by apply proceed_inv.
Qed.

Lemma step_file e w : file w ≠ None → file (step fmt env w e) = file w.
Proof.
  intros Hf. destruct e as [o b|i io]; [done|]. cbn [step]. unfold proceed.
  destruct (requests w !! i) as [[d|d|d|d r|r]|]; try done; destruct io; try done; cbn [negb].
  - by destruct (file w) eqn:E.
  - destruct (same_as_saved _ _ _ _) as [[]|]; done.
Qed.
Lemma steps_file es w : file w ≠ None → file (fold_left (step fmt env) es w) = file w.
Proof.
  revert w. induction es as [|e es IH]; intros w Hf; [done|]. cbn [fold_left]. rewrite IH; [by apply step_file|]. by rewrite step_file.
Qed.

(** a request whose operations do not fail, run to its end *)
Definition alone (o : option string) (b : jsval) (w : World) : World :=
  let i := length (requests w) in
  fold_left (step fmt env) [Arrives o b; Proceeds i true; Proceeds i true; Proceeds i true; Proceeds i true] w.

Lemma snoc_lookup (l : list Phase) x : (l ++ [x]) !! length l = Some x.
Proof. by rewrite lookup_app_r, Nat.sub_diag. Qed.
Lemma snoc_insert (l : list Phase) x y : <[length l := y]> (l ++ [x]) = l ++ [y].
Proof. by rewrite insert_app_r_alt, Nat.sub_diag. Qed.

Lemma writes d i f ts l : l !! i = Some (Writing d) →
  proceed fmt env i true (mkWorld f ts l) = mkWorld f (<[i := text fmt d]> ts) (<[i := Linking d]> l).
Proof. intros Hi. unfold proceed. cbn [requests]. by rewrite Hi. Qed.
Lemma links d i ts l : l !! i = Some (Linking d) → ts !! i = Some (text fmt d) →
  proceed fmt env i true (mkWorld None ts l) = mkWorld (Some (text fmt d)) ts (<[i := Unlinking d submitted]> l).
Proof. intros Hi Ht. unfold proceed. cbn [requests]. rewrite Hi. cbn [negb file temps]. by rewrite Ht. Qed.
Lemma link_exists d i t ts l : l !! i = Some (Linking d) →
  proceed fmt env i true (mkWorld (Some t) ts l) = mkWorld (Some t) ts (<[i := Comparing d]> l).
Proof. intros Hi. unfold proceed. cbn [requests]. by rewrite Hi. Qed.
Lemma compares d i f ts l ok : l !! i = Some (Comparing d) → same_as_saved fmt env f d = Some ok →
  proceed fmt env i true (mkWorld f ts l)
  = mkWorld f ts (<[i := Unlinking d (if ok : bool then submitted else (409, "already_submitted"))]> l).
Proof. intros Hi Hs. unfold proceed. cbn [requests]. rewrite Hi. cbn [negb file]. rewrite Hs. by destruct ok. Qed.
Lemma unlinks d r i f ts l : l !! i = Some (Unlinking d r) →
  proceed fmt env i true (mkWorld f ts l) = mkWorld f (delete i ts) (<[i := Answered r]> l).
Proof. intros Hi. unfold proceed. cbn [requests]. by rewrite Hi. Qed.
Lemma answered r i w : requests w !! i = Some (Answered r) → proceed fmt env i true w = w.
Proof. intros Hi. unfold proceed. by rewrite Hi. Qed.

Lemma alone_answer o b d w : submit_checks env o b = inr d → published (file w) →
  let w' := alone o b w in
  (agrees fmt env (file w) d ∨ file w = None → requests w' !! length (requests w) = Some (Answered submitted))
  ∧ (file w ≠ None → ¬ agrees fmt env (file w) d → requests w' !! length (requests w) = Some (Answered (409, "already_submitted"))).
Proof.
  intros Hc Hpub. assert (accepted env d) as Hd by (by exists o, b). unfold alone. cbn [fold_left step]. unfold arrive. rewrite Hc.
  rewrite (writes d), snoc_insert by apply snoc_lookup. destruct w as [f ts l]. cbn [requests file temps] in *.
  destruct Hpub as [->|(d0&Hd0&->)].
  - rewrite (links d), snoc_insert by (apply snoc_lookup || apply lookup_insert_eq).
    rewrite (unlinks d submitted), snoc_insert by apply snoc_lookup. rewrite (answered submitted) by apply snoc_lookup.
    cbn [requests]. split; [intros _; apply snoc_lookup|done].
  - rewrite (link_exists d), snoc_insert by apply snoc_lookup.
    destruct (same_as_saved_spec fmt env d0 d Hd0 Hd) as (ok&Hok&Hiff). rewrite <- (agrees_text fmt env d0 d Hd0) in Hiff.
    rewrite (compares d _ _ _ _ ok), snoc_insert by (apply snoc_lookup || done).
    erewrite unlinks by apply snoc_lookup. cbn [requests]. rewrite snoc_insert, snoc_lookup.
    destruct ok; split; [done|intros _ Hno; by destruct Hno; apply Hiff|intros [Ha|[=]]; by apply Hiff in Ha|done].
Qed.
End Race.

(** ** The property *)

(** C32. The first password submitted is the one the platform starts with.
    However submissions race and whichever of their file operations fail: once a file is
    published it never changes; it holds a submission that passed every check,
    and the installer reads exactly that submission's password and settings; whoever is told
    "submitted" submitted the file's request, settings and password (up to SHA-256),
    and whoever is told "already submitted" did not.  A request whose operations do
    not fail is answered accordingly: the first one and each repetition of it
    with "submitted", any other with "already submitted". *)
Theorem first_password_wins `{UrlLaws} `{Crypto} fmt env es es' :
  let w := run fmt env es in let w' := run fmt env (es ++ es') in
  (file w ≠ None → file w' = file w)
  ∧ (∀ t, file w = Some t → ∃ o b d, submit_checks env o b = inr d ∧ t = text fmt d
       ∧ readForInstaller env (file w) = Ok (sub_password d) ∧ readInAppForInstaller env (file w) = Ok (sub_in_app d)
       ∧ status env (file w) = (true, true))
  ∧ (∀ i d r, checked env es !! i = Some (inr d) → requests w !! i = Some (Answered r) →
       (r = submitted → agrees fmt env (file w) d) ∧ (r = (409, "already_submitted") → file w ≠ None ∧ ¬ agrees fmt env (file w) d))
  ∧ (∀ o b d, submit_checks env o b = inr d →
       let answer := requests (alone fmt env o b w) !! length (requests w) in
       (agrees fmt env (file w) d ∨ file w = None → answer = Some (Answered submitted))
       ∧ (file w ≠ None → ¬ agrees fmt env (file w) d → answer = Some (Answered (409, "already_submitted")))).
Proof.
  pose proof (run_inv fmt env es) as [Hl Hp Hf]. cbv zeta. split; [|split; [|split]].
  - intros Hsome. unfold run. rewrite fold_left_app. by apply steps_file.
  - intros t Ht. destruct Hf as [Hn|(d&Hd&Hf)]; [by rewrite Hn in Ht|]. rewrite Hf in Ht. apply Some_inj in Ht.
    pose proof Hd as (o&b&Hc). exists o, b, d. rewrite Hf. split; [done|]. split; [done|]. by apply installer_reads.
  - intros i d r Hs Hr. specialize (Hp i _ _ Hs Hr). simpl in Hp.
    destruct Hp as [[-> Ha]|[(->&Hsome&Hno)| ->]]; split; try done. intros _. split; [|done]. by destruct (file _); [|destruct Hsome].
  - intros o b d Hc. destruct (alone_answer fmt env o b d (run fmt env es) Hc Hf) as [Ha Hb]. by split.
Qed.

(** ** Two browsers *)

Module SetupDemo.
Definition is_text (s : string) (v : jsval) : bool := match v with JStr t => String.eqb s t | _ => false end.
Definition console : Url := mkUrl "http:" "localhost" (Some 8080) "" "" "/" "" "" "http://localhost:8080".
Definition content : Url := mkUrl "https:" "content.example" None "" "" "/" "" "" "https://content.example".
#[local] Instance toy_urls : UrlParser := {| parse_url v :=
  if is_text (u_origin console) v then Some console else if is_text (u_origin content) v then Some content else None |}.
#[local] Instance toy_laws : UrlLaws.
Proof.
  intros v u Hv _. cbn [parse_url toy_urls] in Hv.
  destruct (is_text (u_origin console) v); [by injection Hv as <-|]. destruct (is_text (u_origin content) v); [|done]. by injection Hv as <-.
Qed.
#[local] Instance toy_crypto : Crypto := {
  gcm_seal _ _ p := (p, replicate 16 0); gcm_open _ _ body _ := Some body; hmac_sha1 _ _ := replicate 20 0;
  sha256_hex s := s; argon2_hash _ p := p; argon2_verify h p := String.eqb h p }.
Definition env : SetupEnv := mkSetupEnv true (Some "http://localhost:8080") (Some "token").
Definition body (id password : string) : jsval :=
  JObj [("token", JStr "token"); ("password", JStr password); ("request_id", JStr id);
        ("in_app", JObj [("enabled", JBool true); ("campaigns", JBool false); ("origin", JStr "https://content.example"); ("port", JNum (NInt 8082))])].
Definition one : jsval := body "11111111-1111-4111-8111-111111111111" "correct horse".
Definition two : jsval := body "22222222-2222-4222-9222-222222222222" "battery staple".
Definition race : list Event :=
  [Arrives (Some "http://localhost:8080") one; Arrives (Some "http://localhost:8080") two; Proceeds 1 true; Proceeds 0 true;
   Proceeds 1 true; Proceeds 0 true; Proceeds 0 true; Proceeds 0 true; Proceeds 1 true].

Lemma first_password_wins_witness :
  requests (run (λ _, "") env race) = [Answered (409, "already_submitted"); Answered submitted]
  ∧ readForInstaller env (file (run (λ _, "") env race)) = Ok "battery staple"
  ∧ ∃ d, checked env race !! 1%nat = Some (inr d) ∧ agrees (λ _, "") env (file (run (λ _, "") env race)) d.
Proof.
  split; [vm_compute; reflexivity|]. split; [vm_compute; reflexivity|].
  destruct (first_password_wins (λ _, "") env race []) as (_&_&Ha&_).
  eexists. split; [vm_compute; reflexivity|]. refine (proj1 (Ha 1%nat _ submitted _ _) eq_refl); vm_compute; reflexivity.
Defined.
End SetupDemo.
