(* ===== verification/Preview.v ===== *)
(** * Preview links ([in-app/assets.service.ts])

    The signed link under which the content server shows a revision for ten
    minutes.  The checks of the server's own origin at start
    are left out.  [hmac_sha256] and the master key are parameters; the moment a
    link expires is kept in milliseconds ([Date.parse] of the [toISOString] it
    is printed as). *)

From Stdlib Require Import Ascii QArith.
From stdpp Require Import pretty.
From S2P Require Import Prelude JsVal InAppDb InAppCampaigns InAppDelivery InAppInv JsNumber Crypto BranchCondition Json JsonParse.

#[global] Open Scope Z_scope.

(** ** base64url *)

Definition url_digit (c : ascii) : ascii :=
  if Ascii.eqb c "+" then "-" else if Ascii.eqb c "/" then "_" else c.
(** [buf.toString("base64url")]: the other alphabet, without the padding *)
Fixpoint to_url (s : string) : string :=
  match s with
  | EmptyString => EmptyString
  | String c s' => if Ascii.eqb c "=" then EmptyString else String (url_digit c) (to_url s')
  end.
Definition base64url_encode (b : bytes) : string := to_url (base64_encode b).
(** [Buffer.from(s, "base64url")]: the decoder reads both alphabets. *)
Definition base64url_decode (s : string) : bytes := base64_decode s.

Class PreviewKey := {
  hmac_sha256 : bytes → bytes → bytes;
  preview_master : outcome bytes }.    (** [loadMasterKey()] *)

Section Preview.
Context `{PreviewKey}.
Context (env : Env) (hash : string → string) (fmt : Q → string).

(** ** Links *)

(** [private key()] *)
Definition preview_key : outcome bytes :=
  k ← preview_master; mret (hmac_sha256 k (bytes_of_string "nudgeon-in-app-preview-v1")).

Definition preview_payload (tenant app id : string) (exp : Z) : string :=
  base64url_encode (bytes_of_string (JSON_stringify fmt
    (JObj [("tenant", JStr tenant); ("app", JStr app); ("id", JStr id); ("exp", JNum (NInt exp))]))).

(** the URL and the moment it expires *)
Definition preview (tenant app id : string) : DB (string * Z) :=
  _ ← requireEnabled env;
  let exp := Date_now env 0 + 600000 in
  let payload := preview_payload tenant app id exp in
  key ← match preview_key with Ok k => mret k | Throw e => throw e end;
  let sig := base64url_encode (hmac_sha256 key (bytes_of_string payload)) in
  mret (CONTENT_PUBLIC_ORIGIN env +:+ "/preview/" +:+ payload +:+ "." +:+ sig, exp).

(** ** The content server *)

Record Response := mkResponse { rs_status : Z; rs_content_type : option string; rs_body : string }.
Definition unavailable : Response := mkResponse 404 None "Preview unavailable or expired".

Definition fails : exn := PlainError "Error".
Definition link_data (payload sig : string) (now : Z) : DB jsval :=
  key ← match preview_key with Ok k => mret k | Throw e => throw e end;
  let expected := hmac_sha256 key (bytes_of_string payload) in
  _ ← throw_if (negb (bool_decide (base64url_decode sig = expected))) fails;
  data ← some_or_throw (JSON_parse (string_of_bytes (base64url_decode payload))) fails;
  _ ← throw_if (match prop data "exp" with JNum n => num_ltb n (NInt now) | _ => true end) fails;
  mret data.

(** an id of the link; another value than a text makes the query fail *)
Definition id_text (v : jsval) : DB string := match v with JStr s => mret s | _ => throw fails end.

Definition serve_preview (url : string) (now : Z) : DB Response :=
  _ ← throw_if (2048 <? js_length url) fails;
  match split_on "." (String.substring 9 (String.length url - 9) url) with
  | [payload; sig] =>
      data ← link_data payload sig now;
      tenant ← id_text (prop data "tenant");
      app ← id_text (prop data "app");
      id ← id_text (prop data "id");
      artifact ← read hash tenant app id;
      mret (mkResponse 200 (Some "text/html; charset=utf-8") (a_html artifact))
  | _ => throw fails
  end.

(** the request handler of the server; [now] is [Date.now()] *)
Definition content_server (method : string) (url : string) (now : Z) : DB Response := λ db,
  if String.eqb method "GET" && String.eqb url "/healthz" then (Ok (mkResponse 200 None "ok"), db)
  else
    match (_ ← throw_if (negb (String.eqb method "GET") || negb (starts_with "/preview/" url)) fails; serve_preview url now) db with
    | (Ok r, db) => (Ok r, db)
    | (Throw _, db) => (Ok unavailable, db)
    end.
End Preview.

(** ** Preview links: what a link opens

    The link [preview] makes opens its revision until it expires, and the server
    shows a document only for a link with the key's signature. *)
(** ** base64url *)

Lemma url_digit_value c : b64_digit (url_digit c) = b64_digit c ∧ (Ascii.eqb c "=" = false → Ascii.eqb (url_digit c) "=" = false).
Proof.
  unfold url_digit. destruct (Ascii.eqb c "+") eqn:E1; [apply Ascii.eqb_eq in E1 as ->; done|].
  destruct (Ascii.eqb c "/") eqn:E2; [apply Ascii.eqb_eq in E2 as ->; done|done].
Qed.
Lemma to_url_digits s : b64_digits (to_url s) = b64_digits s.
Proof.
  induction s as [|c s IH]; [done|]. cbn [to_url b64_digits]. destruct (Ascii.eqb c "=") eqn:E; [done|].
  destruct (url_digit_value c) as [Hd Hu]. cbn [b64_digits]. by rewrite Hu, Hd, IH.
Qed.
Lemma base64url_round_trip b : Forall is_byte b → base64url_decode (base64url_encode b) = b.
Proof.
  intros Hb. unfold base64url_decode, base64url_encode, base64_decode. rewrite to_url_digits. by apply base64_decode_encode.
Qed.

Definition not_dot (c : ascii) : bool := negb (Ascii.eqb "." c).
Lemma base64url_no_dot b : str_forallb not_dot (base64url_encode b) = true.
Proof.
  unfold base64url_encode. assert (str_forallb not_dot (base64_encode b) = true) as H by (apply base64_chars; [vm_compute|]; reflexivity).
  revert H. generalize (base64_encode b). intros s. induction s as [|c s IH]; [done|]. cbn [str_forallb to_url].
  intros [Hc Hs]%andb_true_iff. destruct (Ascii.eqb c "="); [done|]. cbn [str_forallb]. rewrite IH, andb_true_r by done.
  unfold url_digit. destruct (Ascii.eqb c "+"); [done|]. by destruct (Ascii.eqb c "/").
Qed.
Lemma base64url_length b : (String.length (base64url_encode b) <= 2 * length b + 2)%nat.
Proof.
  etrans; [|apply base64_length]. unfold base64url_encode. generalize (base64_encode b). intros s.
  induction s as [|c s IH]; [done|]. cbn [to_url]. destruct (Ascii.eqb c "="); simpl; lia.
Qed.

Lemma bytes_are_bytes s : Forall is_byte (bytes_of_string s).
Proof.
  induction s as [|c s IH]; constructor; [|done]. unfold is_byte, byte. pose proof (N_ascii_bounded c). lia.
Qed.
Lemma bytes_length s : length (bytes_of_string s) = String.length s.
Proof. induction s as [|c s IH]; simpl; [done|]. by rewrite IH. Qed.

(** ** The length of a link *)

Lemma pretty_length (x : N) k s : (x < 10 ^ N.of_nat k)%N → (String.length (pretty_N_go x s) <= k + String.length s)%nat.
Proof.
  revert x s. induction k as [|k IH]; intros x s Hx.
  - assert (x = 0)%N as -> by (simpl in Hx; lia). by rewrite pretty_N_go_0.
  - destruct (base.decide (x = 0)%N) as [->|Hne]; [rewrite pretty_N_go_0; lia|]. rewrite pretty_N_go_step by lia.
    etrans; [apply IH|simpl; lia]. apply N.Div0.div_lt_upper_bound. replace (10 * 10 ^ N.of_nat k)%N with (10 ^ N.of_nat (S k))%N; [done|].
    rewrite Nat2N.inj_succ, N.pow_succ_r'. done.
Qed.
Lemma pretty_time z : 0 <= z < 10 ^ 16 → (String.length (pretty z) <= 16)%nat.
Proof.
  intros Hz. rewrite pretty_Z_cases. assert ((0 <=? z) = true) as -> by lia. unfold pretty, pretty_N.
  destruct (base.decide (Z.to_N z = 0)%N); [simpl; lia|]. etrans; [apply (pretty_length _ 16)|simpl; lia].
  change (10 ^ N.of_nat 16)%N with (Z.to_N (10 ^ 16)). lia.
Qed.

Lemma plain_chars s : str_forallb hex_dash s = true → json_chars s = s.
Proof.
  induction s as [|c s IH]; [done|]. cbn [str_forallb json_chars]. intros [Hc Hs]%andb_true_iff. rewrite IH by done.
  assert (json_escape c = String c EmptyString) as ->; [|done]. clear -Hc. by destruct c as [[] [] [] [] [] [] [] []].
Qed.
Lemma dir_name_quote v : dir_name v = true → String.length (json_quote v) = 38%nat.
Proof.
  unfold dir_name. intros [Hl%Nat.eqb_eq Hc]%andb_true_iff. unfold json_quote. rewrite plain_chars by done.
  cbn [String.length]. rewrite str_length_app, Hl. done.
Qed.

(** ** What a document needs *)

Lemma prefix_split p s : starts_with p s = true → s = p +:+ String.substring (String.length p) (String.length s - String.length p) s.
Proof.
  revert s. induction p as [|a p IH]; intros s Hp.
  - simpl. rewrite Nat.sub_0_r. by rewrite substring_all.
  - destruct s as [|c s]; [done|]. rewrite starts_with_cons in Hp. apply andb_true_iff in Hp as [->%Ascii.eqb_eq Hp].
    rewrite str_app_cons. f_equal. cbn [String.length]. rewrite Nat.sub_succ. exact (IH s Hp).
Qed.
Lemma split_on_nil c s : split_on c s ≠ [].
Proof. destruct s as [|d s]; simpl; [done|]. destruct (Ascii.eqb c d); [done|]. by destruct (split_on c s). Qed.
Lemma split_on_one c s x : split_on c s = [x] → s = x.
Proof.
  revert x. induction s as [|d s IH]; intros x E; cbn [split_on] in E; [by injection E|]. pose proof (split_on_nil c s) as Hn.
  destruct (Ascii.eqb c d); [by destruct (split_on c s)|]. destruct (split_on c s) as [|y l]; [done|].
  injection E as <- ->. f_equal. by apply IH.
Qed.
Lemma split_on_two c s a b : split_on c s = [a; b] → s = a +:+ String c b.
Proof.
  revert a. induction s as [|d s IH]; intros a E; [done|]. cbn [split_on] in E. destruct (Ascii.eqb c d) eqn:Ec.
  - apply Ascii.eqb_eq in Ec as <-. injection E as <- E. change (EmptyString +:+ String c b) with (String c b). f_equal. by apply split_on_one in E.
  - pose proof (split_on_nil c s) as Hn. destruct (split_on c s) as [|x l]; [done|]. injection E as <- ->. rewrite str_app_cons. f_equal. by apply IH.
Qed.

Section Preview.
Context `{PreviewKey} (env : Env) (hash : string → string) (fmt : Q → string).
Context (Hbytes : ∀ k m, Forall is_byte (hmac_sha256 k m)) (Hlength : ∀ k m, length (hmac_sha256 k m) = 32%nat).

Definition link_value (tenant app id : string) (exp : Z) : jsval :=
  JObj [("tenant", JStr tenant); ("app", JStr app); ("id", JStr id); ("exp", JNum (NInt exp))].

Lemma payload_length tenant app id exp :
  dir_ok tenant app id = true → 0 <= exp < 10 ^ 16 → (String.length (preview_payload fmt tenant app id exp) <= 400)%nat.
Proof.
  intros Hd Hexp. unfold dir_ok in Hd. apply andb_true_iff in Hd as [[Ht Ha]%andb_true_iff Hi].
  unfold preview_payload. etrans; [apply base64url_length|]. rewrite bytes_length.
  assert (JSON_stringify fmt (link_value tenant app id exp)
    = "{" +:+ (json_quote "tenant" +:+ ":" +:+ json_quote tenant) +:+ "," +:+ (json_quote "app" +:+ ":" +:+ json_quote app) +:+ ","
      +:+ (json_quote "id" +:+ ":" +:+ json_quote id) +:+ "," +:+ (json_quote "exp" +:+ ":" +:+ pretty exp) +:+ "}") as E.
  { unfold link_value. cbn [JSON_stringify map fst snd]. unfold num_to_string, NInt. rewrite q_is_int_inject, q_trunc_inject.
    assert ((Z.abs exp <? 10 ^ 21) = true) as -> by lia. cbn [andb]. rewrite !join_cons.
    change (join "," [?x]) with x. by rewrite <- !str_app_assoc. }
  unfold link_value in E. rewrite E, !str_length_app, (dir_name_quote tenant), (dir_name_quote app), (dir_name_quote id) by done. pose proof (pretty_time exp Hexp).
  change (String.length (json_quote "tenant")) with 8%nat. change (String.length (json_quote "app")) with 5%nat.
  change (String.length (json_quote "id")) with 4%nat. change (String.length (json_quote "exp")) with 5%nat. simpl. lia.
Qed.

Definition link_path (key : bytes) (payload : string) : string :=
  "/preview/" +:+ payload +:+ "." +:+ base64url_encode (hmac_sha256 key (bytes_of_string payload)).

(** What a visitor sees of the revision *)
Definition shown (tenant app id : string) (db : Db) : Response :=
  match read hash tenant app id db with
  | (Ok a, _) => mkResponse 200 (Some "text/html; charset=utf-8") (a_html a)
  | (Throw _, _) => unavailable
  end.

Lemma link_value_plain tenant app id exp : 0 <= exp < 10 ^ 16 → plain (link_value tenant app id exp) = true.
Proof.
  intros Hexp. unfold link_value. cbn [plain forallb snd fst map]. unfold NInt. rewrite q_trunc_inject.
  assert (bool_decide (inject_Z exp = inject_Z exp) = true) as -> by (by apply bool_decide_eq_true).
  assert ((Z.abs exp <? 10 ^ 21) = true) as -> by lia. done.
Qed.
Lemma link_data_run key tenant app id exp now db (payload := preview_payload fmt tenant app id exp) :
  preview_key = Ok key → 0 <= exp < 10 ^ 16 →
  link_data payload (base64url_encode (hmac_sha256 key (bytes_of_string payload))) now db
    = (if exp <? now then Throw fails else Ok (link_value tenant app id exp), db).
Proof.
  intros Hkey Hexp. unfold link_data, mbind, M_bind. rewrite Hkey. unfold mret, M_ret.
  rewrite base64url_round_trip by done. rewrite bool_decide_true by done. cbn [negb throw_if]. unfold mret, M_ret.
  assert (base64url_decode payload = bytes_of_string (JSON_stringify fmt (link_value tenant app id exp))) as ->
    by (apply base64url_round_trip, bytes_are_bytes).
  rewrite string_bytes_id, JSON_parse_stringify by (by apply link_value_plain). cbn [some_or_throw]. unfold mret, M_ret.
  cbn [prop link_value]. simpl. rewrite (num_ltb_int _ now (Number_isInteger_NInt exp)), num_to_Z_NInt. by destruct (exp <? now).
Qed.

Lemma link_run key tenant app id exp now db :
  preview_key = Ok key → dir_ok tenant app id = true → 0 <= exp < 10 ^ 16 →
  content_server hash "GET" (link_path key (preview_payload fmt tenant app id exp)) now db
    = (Ok (if exp <? now then unavailable else shown tenant app id db), db).
Proof.
  intros Hkey Hdir Hexp. unfold content_server, link_path. set (payload := preview_payload fmt tenant app id exp).
  set (sig := base64url_encode (hmac_sha256 key (bytes_of_string payload))). set (tail := payload +:+ "." +:+ sig).
  assert (String.eqb ("/preview/" +:+ tail) "/healthz" = false) as -> by done. rewrite andb_false_r.
  rewrite starts_with_app. change (String.eqb "GET" "GET") with true. cbn [negb orb throw_if].
  unfold mbind at 1, M_bind at 1. unfold mret at 1, M_ret at 1. unfold serve_preview.
  assert ((2048 <? js_length ("/preview/" +:+ tail)) = false) as ->.
  { apply Z.ltb_ge. etrans; [apply js_length_bound|]. unfold tail. rewrite !str_length_app.
    change (String.length "/preview/") with 9%nat. change (String.length ".") with 1%nat.
    pose proof (payload_length tenant app id exp Hdir Hexp) as Hp. fold payload in Hp.
    pose proof (base64url_length (hmac_sha256 key (bytes_of_string payload))) as Hs. fold sig in Hs. rewrite Hlength in Hs. lia. }
  unfold throw_if at 1. unfold mbind at 1, M_bind at 1. unfold mret at 1, M_ret at 1.
  assert (String.substring 9 (String.length ("/preview/" +:+ tail) - 9) ("/preview/" +:+ tail) = tail) as ->.
  { rewrite str_length_app. change (String.length "/preview/") with 9%nat. replace (9 + String.length tail - 9)%nat with (String.length tail) by lia.
    change (String.substring 0 (String.length tail) tail = tail). apply substring_all. }
  unfold tail. change ("." +:+ sig) with (String "." sig).
  rewrite split_on_app by apply base64url_no_dot. rewrite split_on_none by apply base64url_no_dot.
  unfold mbind at 1, M_bind at 1. unfold payload at 1. unfold sig, payload. rewrite link_data_run by done.
  destruct (exp <? now); [done|]. unfold shown. pose proof (readonly_read hash tenant app id db) as Hr.
  unfold mbind, M_bind. cbn [prop link_value]. simpl. destruct (read hash tenant app id db) as [[a|e] db']; simpl in *; by subst.
Qed.

(** ** What a document needs *)

(** A link with the key's signature over data that names the revision and has not expired *)
Definition signed_link (url : string) (now : Z) (tenant app id : string) : Prop :=
  ∃ payload sig key data,
    url = "/preview/" +:+ payload +:+ "." +:+ sig ∧ preview_key = Ok key
    ∧ base64url_decode sig = hmac_sha256 key (bytes_of_string payload)
    ∧ JSON_parse (string_of_bytes (base64url_decode payload)) = Some data
    ∧ prop data "tenant" = JStr tenant ∧ prop data "app" = JStr app ∧ prop data "id" = JStr id
    ∧ ∃ n, prop data "exp" = JNum n ∧ num_ltb n (NInt now) = false.

Lemma link_data_ok payload sig now db data db' :
  link_data payload sig now db = (Ok data, db') →
  db' = db ∧ ∃ key n, preview_key = Ok key ∧ base64url_decode sig = hmac_sha256 key (bytes_of_string payload)
    ∧ JSON_parse (string_of_bytes (base64url_decode payload)) = Some data ∧ prop data "exp" = JNum n ∧ num_ltb n (NInt now) = false.
Proof.
  unfold link_data. intros E. apply bind_ok in E as (key&d1&Ek&E).
  assert (preview_key = Ok key ∧ d1 = db) as [Hk ->] by (destruct preview_key; [by injection Ek as <- <-|done]).
  apply bind_ok in E as (u&d2&[Hs ->]%throw_if_ok&E). apply bind_ok in E as (v&d3&[Hv ->]%some_or_throw_ok&E).
  apply bind_ok in E as (u1&d4&[Hx ->]%throw_if_ok&E). injection E as -> <-.
  apply negb_false_iff, bool_decide_eq_true in Hs. destruct (prop data "exp") as [| | |n| | |] eqn:En; try done. eauto 10.
Qed.
Lemma id_text_ok v db s db' : id_text v db = (Ok s, db') → v = JStr s ∧ db' = db.
Proof. destruct v; try done. by intros [= -> ->]. Qed.

Lemma document_needs_signature method url now db :
  ∃ r, content_server hash method url now db = (Ok r, db)
    ∧ (r = mkResponse 200 None "ok" ∨ r = unavailable
       ∨ ∃ tenant app id a, method = "GET" ∧ signed_link url now tenant app id
           ∧ read hash tenant app id db = (Ok a, db) ∧ r = mkResponse 200 (Some "text/html; charset=utf-8") (a_html a)).
Proof.
  unfold content_server. destruct (_ && _); [eauto 10|].
  set (run := mbind _ _). assert (readonly run) as Hro.
  { unfold run. apply readonly_bind; [auto with nudgeon|]. intros _. unfold serve_preview.
    apply readonly_bind; [auto with nudgeon|]. intros _. repeat case_match; auto with nudgeon.
    apply readonly_bind.
    { unfold link_data. apply readonly_bind; [destruct preview_key; auto with nudgeon|]. intros k.
      apply readonly_bind; [auto with nudgeon|]. intros _. apply readonly_bind; [auto with nudgeon|]. intros v.
      apply readonly_bind; auto with nudgeon. }
    assert (∀ v, readonly (id_text v)) as Hid by (intros v; destruct v; unfold id_text; auto with nudgeon).
    intros data. do 3 (apply readonly_bind; [done|]; intros ?). apply readonly_bind; [apply readonly_read|auto with nudgeon]. }
  specialize (Hro db). destruct (run db) as [[r|e] db'] eqn:E; cbn [snd] in Hro; subst db'; [|by eauto]. exists r. split; [done|]. right; right.
  unfold run in E. apply bind_ok in E as (u&d&[Hm ->]%throw_if_ok&E). apply orb_false_iff in Hm as [Hm Hp].
  apply negb_false_iff in Hm, Hp. apply String.eqb_eq in Hm. apply prefix_split in Hp.
  unfold serve_preview in E. apply bind_ok in E as (u1&d1&[_ ->]%throw_if_ok&E).
  change (String.length "/preview/") with 9%nat in Hp. set (rest := String.substring 9 (String.length url - 9) url) in *.
  destruct (split_on "." rest) as [|payload [|sig [|]]] eqn:Es; try done. apply split_on_two in Es.
  apply bind_ok in E as (data&d2&(->&key&n&Hk&Hsig&Hdata&Hn&Hexp)%link_data_ok&E).
  apply bind_ok in E as (tenant&d3&[Ht ->]%id_text_ok&E). apply bind_ok in E as (app&d4&[Ha ->]%id_text_ok&E).
  apply bind_ok in E as (id&d5&[Hi ->]%id_text_ok&E). apply bind_ok in E as (a&d6&Hread&E). injection E as <- ->.
  exists tenant, app, id, a. split_and!; try done. exists payload, sig, key, data. rewrite Hp, Es. eauto 10.
Qed.

(** ** The property *)

(** A preview link opens its revision and nothing else: whatever the tables have
    become since the console made it, the content server answers the link with the
    document of the revision it names (or that it is unavailable, when [read] refuses
    it) until the moment that was announced, ten minutes later, and with
    404 after it.  Whatever the method, the address and
    the tables, the server changes nothing and shows a document only for a link
    with the key's signature whose payload has not expired, the document of the revision the payload
    names. *)
Theorem preview_links tenant app id db u exp db' :
  dir_ok tenant app id = true → 0 <= Date_now env 0 < 10 ^ 15 →
  preview env fmt tenant app id db = (Ok (u, exp), db') →
  db' = db ∧ exp = Date_now env 0 + 600000
  ∧ (∃ path, u = CONTENT_PUBLIC_ORIGIN env +:+ path
     ∧ ∀ now later, content_server hash "GET" path now later
         = (Ok (if exp <? now then unavailable else shown tenant app id later), later))
  ∧ ∀ method url now later, ∃ r, content_server hash method url now later = (Ok r, later)
    ∧ (r = mkResponse 200 None "ok" ∨ r = unavailable
       ∨ ∃ tenant' app' id' a, method = "GET" ∧ signed_link url now tenant' app' id'
           ∧ read hash tenant' app' id' later = (Ok a, later) ∧ r = mkResponse 200 (Some "text/html; charset=utf-8") (a_html a)).
Proof.
  intros Hdir Hnow E. unfold preview in E. apply bind_ok in E as (v&d&Hen&E).
  assert (d = db) as -> by (unfold requireEnabled in Hen; by apply throw_if_ok in Hen as [_ ->]).
  apply bind_ok in E as (key&d1&Ek&E).
  assert (preview_key = Ok key ∧ d1 = db) as [Hk ->] by (destruct preview_key; [by injection Ek as <- <-|done]).
  injection E as <- <- <-. split_and!; [done|done| |intros; apply document_needs_signature].
  eexists. split; [reflexivity|]. intros now later. apply (link_run key); [done|done|lia].
Qed.
End Preview.

(** ** A link to a revision *)

Module Demo.
Definition toy_key : PreviewKey := {|
  hmac_sha256 key m := replicate 32 (Z.of_nat (length m) mod 256); preview_master := Ok [7] |}.
#[local] Existing Instance toy_key.
Definition tenant : string := "00000000-0000-4000-8000-000000000001".
Definition app : string := "00000000-0000-4000-8000-000000000002".
Definition id : string := "00000000-0000-4000-8000-000000000003".
Definition html : string := "<p>hello</p>".
Definition env : Env := mkEnv (λ _, 1000) 1000000 "u" "s" true true "https://c".
Definition db : Db := mkDb [(tenant, app)] [] [] [] [] [] [] []
  [mkRevision id tenant app "R" 12 html []] [(tenant, app, id, mkArtifact html [] html 12)] [] [] [].

Lemma preview_links_witness : ∃ u,
  preview env (λ _, "0") tenant app id db = (Ok (u, 601000), db)
  ∧ ∃ path, u = "https://c" +:+ path
      ∧ content_server (λ s, s) "GET" path 601000 db = (Ok (mkResponse 200 (Some "text/html; charset=utf-8") html), db)
      ∧ content_server (λ s, s) "GET" path 601001 db = (Ok unavailable, db).
Proof.
  destruct (preview env (λ _, "0") tenant app id db) as [[[u e]|x] db'] eqn:E; [|vm_compute in E; discriminate E].
  assert (∀ k m, Forall is_byte (@hmac_sha256 toy_key k m)) as Hbytes.
  { intros k m. apply Forall_replicate. unfold is_byte, byte. apply Z.mod_pos_bound. lia. }
  destruct (preview_links env (λ s, s) (λ _, "0") Hbytes (λ k m, eq_refl) tenant app id db u e db') as (->&->&(path&->&Hrun)&_);
    [reflexivity|vm_compute; split; [discriminate|reflexivity]|exact E|].
  eexists. split; [reflexivity|]. exists path. split; [reflexivity|]. rewrite !Hrun. split; vm_compute; reflexivity.
Defined.
End Demo.
