(* ===== verification/Schema.v ===== *)
(** * zod schemas that keep the JSON value

    The schemas of [journey-contract.ts] are used for what they return: the
    body without the keys they do not name and with their defaults.  A schema
    is a function from the JSON value to the value [safeParse] returns, [None]
    where it fails; an absent property is [JUndef].  The lemmas give the
    combinators' idempotence: what a schema returns, it returns again. *)

From Stdlib Require Import Ascii QArith.
From S2P Require Import Prelude JsVal Crypto Json BranchCondition.

#[global] Open Scope Z_scope.

Definition Schema : Type := Parser jsval.

(** ** Scalars *)

(** A schema that accepts or refuses, and changes nothing *)
Definition s_check (p : jsval → bool) : Schema := λ v, if p v then Some v else None.

Definition string_check (p : string → bool) (v : jsval) : bool :=
  match v with JStr s => p s | _ => false end.
(** [z.string().min(lo).max(hi)] *)
Definition s_string (lo hi : Z) : Schema :=
  s_check (string_check (λ s, (lo <=? js_length s) && (js_length s <=? hi))).
Definition s_any_string : Schema := s_check (string_check (λ _, true)).
Definition s_enum (values : list string) : Schema := s_check (string_check (λ s, String_in s values)).
Definition s_literal (s : string) : Schema := s_enum [s].
(** [z.union([z.literal(a), z.literal(b), ...])] of numbers *)
Definition s_numbers (values : list Z) : Schema :=
  s_check (λ v, match v with JNum n => existsb (λ z, num_eqb n (NInt z)) values | _ => false end).
(** [z.number().int()] *)
Definition s_int : Schema :=
  s_check (λ v, match v with JNum n => Number_isInteger n | _ => false end).

(** ** Combinators *)

Definition s_optional (s : Schema) : Schema := λ v, match v with JUndef => Some JUndef | _ => s v end.
Definition s_nullable (s : Schema) : Schema := λ v, match v with JNull => Some JNull | _ => s v end.
(** [s.default(d)] *)
Definition s_default (s : Schema) (d : jsval) : Schema := λ v, match v with JUndef => s d | _ => s v end.
(** [s.superRefine(...)], an issue being a failure *)
Definition s_refine (s : Schema) (p : jsval → bool) : Schema := λ v,
  o ← s v; if p o then Some o else None.
(** [z.array(s).max(hi)] *)
Definition s_array (hi : Z) (s : Schema) : Schema := λ v,
  match v with
  | JArr l => if Z.of_nat (length l) <=? hi then JArr <$> mapM s l else None
  | _ => None
  end.
(** [z.record(s)] *)
Definition s_record (s : Schema) : Schema := λ v,
  match v with
  | JObj fields => JObj <$> mapM (λ p, o ← s (snd p); Some (fst p, o)) fields
  | _ => None
  end.
(** [z.union([s, t])] *)
Definition s_union (s t : Schema) : Schema := λ v,
  match s v with Some o => Some o | None => t v end.

Definition Shape : Type := list (string * Schema).
(** The properties named by the shape, in its order; an undefined one is left out. *)
Definition s_fields (shape : Shape) (v : jsval) : option (list (string * jsval)) :=
  List.filter (λ p, negb (is_undef (snd p))) <$>
  mapM (λ '(k, s), o ← (s : Schema) (prop v k); Some (k, o)) shape.
(** [z.object(shape)] and [z.object(shape).strict()] *)
Definition s_object (strict : bool) (shape : Shape) : Schema := λ v,
  match v with
  | JObj fields =>
      if strict && negb (forallb (λ p, String_in (fst p) (map fst shape)) fields) then None
      else JObj <$> s_fields shape v
  | _ => None
  end.
(** [z.discriminatedUnion("type", [...])] *)
Definition s_discriminated (key : string) (options : list (string * Schema)) : Schema := λ v,
  match prop v key with
  | JStr tag => s ← JMap.get options tag; (s : Schema) v
  | _ => None
  end.

(** * Facts *)

Definition stable (s : Schema) : Prop := ∀ v o, s v = Some o → s o = Some o.

Create HintDb schema.

Lemma stable_check p : stable (s_check p).
Proof. unfold s_check. intros v o H. case_match; simplify_eq. by rewrite H0. Qed.
Lemma check_keeps p v o : s_check p v = Some o → o = v ∧ p v = true.
Proof. unfold s_check. intros H. by case_match; simplify_eq. Qed.
Lemma stable_optional s : stable s → stable (s_optional s).
Proof.
  intros Hs v o H. assert (o = JUndef ∨ s o = Some o) as [-> |Ho]; [|done|].
  - destruct v; simpl in H; eauto; left; by simplify_eq.
  - by destruct o.
Qed.
Lemma stable_nullable s : stable s → stable (s_nullable s).
Proof.
  intros Hs v o H. assert (o = JNull ∨ s o = Some o) as [-> |Ho]; [|done|].
  - destruct v; simpl in H; eauto; left; by simplify_eq.
  - by destruct o.
Qed.
(** ... where the schema never returns [undefined]. *)
Lemma stable_default s d : stable s → (∀ v, s v ≠ Some JUndef) → stable (s_default s d).
Proof.
  intros Hs Hu v o H. assert (s o = Some o) as Ho by (destruct v; simpl in H; eauto).
  destruct o; try done. by destruct (Hu JUndef).
Qed.
Lemma stable_refine s p : stable s → stable (s_refine s p).
Proof.
  unfold s_refine. intros Hs v o (o'&Ho&Hp)%bind_Some. case_match eqn:Ep; simplify_eq.
  rewrite (Hs _ _ Ho). simpl. by rewrite Ep.
Qed.

Lemma mapM_stable {A} (f : A → option A) l l' :
  (∀ x y, f x = Some y → f y = Some y) → mapM f l = Some l' → mapM f l' = Some l'.
Proof.
  intros Hf. rewrite !mapM_Some. induction 1; constructor; eauto.
Qed.
Lemma stable_array hi s : stable s → stable (s_array hi s).
Proof.
  intros Hs v o H. destruct v as [| | | | |l|]; try done. simpl in H. case_match eqn:El; [|done].
  apply fmap_Some in H as (l'&Hl&->). simpl. rewrite <- (length_mapM _ _ _ Hl), El.
  by rewrite (mapM_stable s l l').
Qed.
Lemma stable_record s : stable s → stable (s_record s).
Proof.
  intros Hs v o H. destruct v as [| | | | | |fields]; try done. simpl in H.
  apply fmap_Some in H as (l'&Hl&->). simpl. rewrite (mapM_stable _ fields l'); [done| |done].
  intros [k x] [k' y] (o&Ho&[= <- <-])%bind_Some. simpl. by rewrite (Hs _ _ Ho).
Qed.

(** ** Objects *)

Definition stable_shape (shape : Shape) : Prop := Forall (λ p, stable (snd p)) shape.

Lemma s_fields_nil v : s_fields [] v = Some [].
Proof. done. Qed.
Lemma s_fields_cons k s shape v l :
  s_fields ((k, s) :: shape) v = Some l ↔
  ∃ o l', s (prop v k) = Some o ∧ s_fields shape v = Some l'
          ∧ l = if is_undef o then l' else (k, o) :: l'.
Proof.
  unfold s_fields. simpl. split.
  - intros (l0&(p&(o&Ho&[= <-])%bind_Some&(l1&Hl1&[= <-])%bind_Some)%bind_Some&->)%fmap_Some.
    exists o, (List.filter (λ p, negb (is_undef (snd p))) l1). rewrite Hl1. split_and!; [done|done|].
    simpl. by destruct o.
  - intros (o&l'&Ho&(l1&Hl1&->)%fmap_Some&->). rewrite Ho. simpl. rewrite Hl1. simpl. by destruct o.
Qed.

Lemma s_fields_prop shape v l k s :
  List.NoDup (map fst shape) → s_fields shape v = Some l → In (k, s) shape → s (prop v k) = Some (prop (JObj l) k).
Proof.
  assert (∀ shape l, s_fields shape v = Some l → ∀ k', ¬ In k' (map fst shape) → JMap.get l k' = None) as Hout.
  { clear. intros shape. induction shape as [|[k1 s1] shape IH]; intros l; [intros [= <-]; done|].
    intros (o&l'&Ho&Hl&->)%s_fields_cons k' Hk'. simpl in Hk'.
    assert (JMap.get l' k' = None) by (apply IH; tauto).
    destruct (is_undef o); [done|]. rewrite JMap.get_cons. destruct (String.eqb k1 k') eqn:E; b2p; [tauto|done]. }
  revert l. induction shape as [|[k1 s1] shape IH]; intros l; [intros _ _ []|].
  cbn [map]. intros [Hn Hd]%NoDup_cons_iff (o&l'&Ho&Hl&->)%s_fields_cons [[= <- <-]|Hin].
  - rewrite Ho. f_equal. specialize (Hout _ _ Hl _ Hn). cbn [fst] in Hout.
    destruct (is_undef o) eqn:Eo.
    + simpl. rewrite Hout. by destruct o.
    + simpl. by rewrite JMap.get_cons, String.eqb_refl.
  - rewrite (IH l' Hd Hl Hin). f_equal. destruct (is_undef o); [done|]. simpl.
    rewrite JMap.get_cons. destruct (String.eqb k1 k) eqn:E; b2p; [|done]. subst.
    destruct Hn. apply in_map_iff. by exists (k, s).
Qed.

Lemma s_fields_keys shape v l : s_fields shape v = Some l → ∀ p, In p l → In (fst p) (map fst shape).
Proof.
  revert l. induction shape as [|[k s] shape IH]; intros l; [by intros [= <-]|].
  intros (o&l'&Ho&Hl&->)%s_fields_cons p. destruct (is_undef o); simpl; [|intros [<-|]; [by left|]]; eauto.
Qed.

Lemma s_fields_stable shape v l :
  List.NoDup (map fst shape) → stable_shape shape → s_fields shape v = Some l → s_fields shape (JObj l) = Some l.
Proof.
  intros Hd Hs Hl. 
  assert (∀ k s, In (k, s) shape → s (prop (JObj l) k) = s (prop v k)) as Hp.
  { intros k s Hin. pose proof (s_fields_prop _ _ _ _ _ Hd Hl Hin) as H. rewrite H.
    eapply Forall_forall in Hs; [|by apply list_elem_of_In]. by apply (Hs (prop v k)). }
  revert Hl Hp. generalize (JObj l). clear. intros w. revert l. induction shape as [|[k s] shape IH]; intros l; [done|].
  intros (o&l'&Ho&Hl&->)%s_fields_cons Hp. apply s_fields_cons. exists o, l'.
  rewrite (Hp k s) by (by left). split_and!; [done| |done]. apply IH; [done|]. intros. apply Hp. by right.
Qed.

Lemma stable_object strict shape :
  bool_decide (NoDup (map fst shape)) = true → stable_shape shape → stable (s_object strict shape).
Proof.
  intros Hd%bool_decide_eq_true%NoDup_ListNoDup Hs v o H. destruct v as [| | | | | |fields]; try done.
  unfold s_object in H. case_match; [done|]. apply fmap_Some in H as (l&Hl&->).
  unfold s_object. rewrite (s_fields_stable shape _ l Hd Hs Hl).
  assert (forallb (λ p, String_in (fst p) (map fst shape)) l = true) as ->; [|by destruct strict].
  apply forallb_forall. intros p Hp. apply String_in_spec. by eapply s_fields_keys.
Qed.

(** What an object schema returns, property by property. *)
Lemma s_object_prop strict shape v o k s :
  bool_decide (NoDup (map fst shape)) = true → s_object strict shape v = Some o → In (k, s) shape →
  s (prop v k) = Some (prop o k).
Proof.
  intros Hd%bool_decide_eq_true%NoDup_ListNoDup H Hin. destruct v as [| | | | | |fields]; try done.
  unfold s_object in H. case_match; [done|]. apply fmap_Some in H as (l&Hl&->). by eapply s_fields_prop.
Qed.

(** A variant of the union keeps its tag. *)
Lemma stable_discriminated key options :
  Forall (λ '(tag, s), stable s ∧ ∀ v o, s v = Some o → prop o key = prop v key) options →
  stable (s_discriminated key options).
Proof.
  intros Hs v o H. unfold s_discriminated in *. destruct (prop v key) as [| | | |tag| |] eqn:Ek; try done.
  apply bind_Some in H as (s&Hg&Hv). apply JMap.get_In in Hg as Hin. eapply Forall_forall in Hs; [|by apply list_elem_of_In].
  destruct Hs as [Hst Hk]. rewrite (Hk _ _ Hv), Ek. rewrite Hg. simpl. eauto.
Qed.

#[export] Hint Resolve stable_check stable_optional stable_nullable stable_refine stable_array stable_record : schema.
