(* ===== verification/BundleFiles.v ===== *)
(** * In-app bundles: files and archives

    The first half of [apps/api/src/in-app/bundle.ts]: the names a bundle's
    files may have, the check of a ZIP's central directory, the limits on what
    its entries expand to, and the check of every file against its extension.
    [bridge.ts] is the script every document starts with.

    The inflater ([Unzip] of fflate) is a parameter: what it does with an
    archive is the sequence of callbacks it makes, and an exception it may
    throw at the end.  Of a message only the fixed part is kept. *)

From Stdlib Require Import Ascii.
From S2P Require Import Prelude JsVal Crypto.

#[global] Open Scope Z_scope.

(** [throw new BundleError("INVALID_BUNDLE", message)] *)
Definition fail {A} (message : string) : outcome A := Throw (PlainError ("INVALID_BUNDLE: " +:+ message)).
Definition fail_if (c : bool) (message : string) : outcome unit := if c then fail message else mret tt.

Lemma fail_if_ok c m u : fail_if c m = Ok u ↔ c = false.
Proof. destruct c, u; done. Qed.

Definition MAX_FILE : Z := 8 * 1024 * 1024.
Definition MAX_TOTAL : Z := 30 * 1024 * 1024.
Definition MAX_ARCHIVE : Z := 10 * 1024 * 1024.

(** ** Paths *)

Definition types : list (string * string) :=
  [("html", "text/html"); ("css", "text/css"); ("js", "text/javascript"); ("json", "application/json");
   ("png", "image/png"); ("jpg", "image/jpeg"); ("jpeg", "image/jpeg"); ("webp", "image/webp"); ("gif", "image/gif");
   ("woff2", "font/woff2")].
(** The properties every object inherits whose names are in lower case *)
Definition inherited : list string := ["constructor"; "__proto__"].
(** [!types[ext]] *)
Definition has_type (ext : string) : bool := JMap.has types ext || String_in ext inherited.

(** [path.split(".").pop()!.toLowerCase()] *)
Definition extension (path : string) : string := to_lower (List.last (split_on "." path) "").

(** [/^[a-zA-Z0-9_./-]+$/] *)
Definition path_char (c : ascii) : bool :=
  is_lower c || is_upper c || is_digit c || Ascii.eqb c "_" || Ascii.eqb c "." || Ascii.eqb c "/" || Ascii.eqb c "-".
Definition bad_part (p : string) : bool := String.eqb p "" || String.eqb p "." || String.eqb p "..".

Definition safePath (path : string) : outcome string :=
  _ ← fail_if (negb (str_forallb path_char path && negb (String.eqb path "")) || starts_with "/" path
               || existsb bad_part (split_on "/" path) || (200 <? js_length path)) "Invalid path";
  _ ← fail_if (negb (has_type (extension path))) "Unsupported file";
  mret path.

Record SourceFile := mkSource { path : string; base64 : string }.

(** ** Archives *)

Definition out_of_range {A} : outcome A := Throw (PlainError "ERR_OUT_OF_RANGE").
Definition byte_at (b : bytes) (i : Z) : Z := List.nth (Z.to_nat i) b 0.
Definition readUInt16LE (b : bytes) (i : Z) : outcome Z :=
  if (0 <=? i) && (i + 2 <=? Z.of_nat (length b)) then Ok (byte_at b i + byte_at b (i + 1) * 2 ^ 8) else out_of_range.
Definition readUInt32LE (b : bytes) (i : Z) : outcome Z :=
  if (0 <=? i) && (i + 4 <=? Z.of_nat (length b))
  then Ok (byte_at b i + byte_at b (i + 1) * 2 ^ 8 + byte_at b (i + 2) * 2 ^ 16 + byte_at b (i + 3) * 2 ^ 24)
  else out_of_range.

(** The end record: the search of at most [n] offsets, downwards from [i] *)
Fixpoint find_end (n : nat) (b : bytes) (i : Z) : outcome (option Z) :=
  match n with
  | O => mret None
  | S n =>
      v ← readUInt32LE b i;
      if v =? 0x06054b50 then mret (Some i) else find_end n b (i - 1)
  end.
(** [for (let i = length - 22; i >= Math.max(0, length - 65557); i--)] *)
Definition end_offsets (b : bytes) : nat :=
  let len := Z.of_nat (length b) in Z.to_nat (len - 22 - Z.max 0 (len - 65557) + 1).

(** One record of the central directory; the offset of the next *)
Definition directory_record (b : bytes) (stop cursor : Z) : outcome Z :=
  _ ← fail_if (stop <? cursor + 46) "Invalid ZIP directory";
  signature ← readUInt32LE b cursor;
  _ ← fail_if (negb (signature =? 0x02014b50)) "Invalid ZIP directory";
  flags ← readUInt16LE b (cursor + 8);
  _ ← fail_if (negb (Z.land flags 1 =? 0)) "Encrypted ZIP is unsupported";
  attributes ← readUInt32LE b (cursor + 38);
  _ ← fail_if (Z.land (Z.shiftr attributes 16) 0xf000 =? 0xa000) "ZIP symlinks are unsupported";
  name ← readUInt16LE b (cursor + 28);
  extra ← readUInt16LE b (cursor + 30);
  comment ← readUInt16LE b (cursor + 32);
  mret (cursor + (46 + name + extra + comment)).
Fixpoint directory (n : nat) (b : bytes) (stop cursor : Z) : outcome unit :=
  match n with O => mret tt | S n => next ← directory_record b stop cursor; directory n b stop next end.

Definition inspect (b : bytes) : outcome unit :=
  _ ← fail_if (MAX_ARCHIVE <? Z.of_nat (length b)) "ZIP exceeds 10 MiB";
  found ← find_end (end_offsets b) b (Z.of_nat (length b) - 22);
  match found with
  | None => fail "Invalid ZIP directory"
  | Some stop =>
      entries ← readUInt16LE b (stop + 10);
      cursor ← readUInt32LE b (stop + 16);
      disk ← readUInt16LE b (stop + 4);
      start ← readUInt16LE b (stop + 6);
      _ ← fail_if ((200 <? entries) || negb (disk =? 0) || negb (start =? 0)) "Too many entries or multi-part ZIP";
      directory (Z.to_nat entries) b stop cursor
  end.

(** *** What the inflater reports *)

Inductive ZipEvent :=
| ZFile (name : string)                                 (** the callback of [new Unzip] *)
| ZData (file : nat) (data : bytes) (final : bool)      (** [file.ondata(null, data, final)] *)
| ZError (file : nat).                                  (** [file.ondata(error, ...)] *)

(** A file that was opened: its name and the data it has received; a directory is not read. *)
Record OpenFile := mkOpen { of_name : string; of_chunks : bytes }.
Record Unpacking := mkUnpacking {
  up_total : Z; up_opened : list (option OpenFile); up_files : list SourceFile }.

Definition open_entry (st : Unpacking) (name : string) : outcome Unpacking :=
  _ ← fail_if (200 <? Z.of_nat (length (up_opened st)) + 1) "Too many ZIP entries";
  if ends_with "/" name then
    _ ← fail_if (existsb (λ p, String.eqb p "..") (split_on "/" name) || starts_with "/" name) "Invalid directory";
    mret (mkUnpacking (up_total st) (up_opened st ++ [None]) (up_files st))
  else
    _ ← safePath name;
    mret (mkUnpacking (up_total st) (up_opened st ++ [Some (mkOpen name [])]) (up_files st)).

Definition receive (st : Unpacking) (file : nat) (data : bytes) (final : bool) : outcome Unpacking :=
  match up_opened st !! file with
  | Some (Some f) =>
      let total := up_total st + Z.of_nat (length data) in
      let chunks := of_chunks f ++ data in
      _ ← fail_if ((MAX_FILE <? Z.of_nat (length chunks)) || (MAX_TOTAL <? total)) "Expanded ZIP exceeds size limit";
      mret (mkUnpacking total (<[file := Some (mkOpen (of_name f) chunks)]> (up_opened st))
              (if final then up_files st ++ [mkSource (of_name f) (base64_encode chunks)] else up_files st))
  | _ => mret st
  end.

Definition zip_event (st : Unpacking) (e : ZipEvent) : outcome Unpacking :=
  match e with
  | ZFile name => open_entry st name
  | ZData file data final => receive st file data final
  | ZError _ => fail "Invalid or encrypted ZIP"
  end.
Fixpoint zip_events (st : Unpacking) (l : list ZipEvent) : outcome Unpacking :=
  match l with [] => mret st | e :: l => st ← zip_event st e; zip_events st l end.

(** [unzip]: the callbacks for the archive, and what the library throws after them *)
Definition unpackArchive (unzip : bytes → list ZipEvent * option exn) (b : bytes) : outcome (list SourceFile) :=
  _ ← inspect b;
  st ← zip_events (mkUnpacking 0 [] []) (unzip b).1;
  _ ← match (unzip b).2 with Some e => Throw e | None => mret tt end;
  _ ← fail_if (Nat.eqb (length (up_files st)) 0) "Empty or invalid ZIP";
  mret (up_files st).

(** ** Files of a bundle *)

(** [/^(?:[A-Za-z0-9+/]{4})*(?:[A-Za-z0-9+/]{2}==|[A-Za-z0-9+/]{3}=)?$/] *)
Definition b64_text_char (c : ascii) : bool :=
  is_upper c || is_lower c || is_digit c || Ascii.eqb c "+" || Ascii.eqb c "/".
Fixpoint base64_text (s : string) : bool :=
  match s with
  | EmptyString => true
  | String a (String b (String c (String d s'))) =>
      b64_text_char a && b64_text_char b
      && (b64_text_char c && b64_text_char d && base64_text s'
          || String.eqb s' "" && Ascii.eqb d "=" && (b64_text_char c || Ascii.eqb c "="))
  | _ => false
  end.

(** [magic.toString("ascii", i, j)]: the low seven bits of each byte *)
Definition ascii_text (b : bytes) (i j : nat) : string := string_of_bytes (map (λ x, x mod 128) (subarray b i j)).
Definition content_matches (ext : string) (data : bytes) : bool :=
  let magic := take 12 data in
  if String.eqb ext "png" then bool_decide (take 8 magic = [137; 80; 78; 71; 13; 10; 26; 10])
  else if String.eqb ext "jpg" || String.eqb ext "jpeg" then bool_decide (take 3 magic = [255; 216; 255])
  else if String.eqb ext "gif" then
    starts_with "GIF87a" (ascii_text magic 0 12) || starts_with "GIF89a" (ascii_text magic 0 12)
  else if String.eqb ext "webp" then
    String.eqb (ascii_text magic 0 4) "RIFF" && String.eqb (ascii_text magic 8 12) "WEBP"
  else if String.eqb ext "woff2" then String.eqb (ascii_text magic 0 4) "wOF2"
  else true.

(** [/\.(html|css|js|json)$/i] *)
Definition text_file (path : string) : bool :=
  existsb (λ e, ends_with ("." +:+ e) (to_lower path)) ["html"; "css"; "js"; "json"].

Record Loaded := mkLoaded { ld_files : list (string * bytes); ld_names : list string; ld_total : Z }.

Definition load_file (st : Loaded) (file : SourceFile) : outcome Loaded :=
  _ ← safePath (path file);
  _ ← fail_if (String_in (to_lower (path file)) (ld_names st)) "Duplicate path";
  _ ← fail_if (negb (base64_text (base64 file))) "Invalid base64";
  let data := base64_decode (base64 file) in
  let size := Z.of_nat (length data) in
  let total := ld_total st + size in
  _ ← fail_if ((MAX_FILE <? size) || (MAX_TOTAL <? total)) "Files exceed size limit";
  _ ← fail_if (text_file (path file) && (1024 * 1024 <? size)) "Text exceeds 1 MiB";
  _ ← fail_if (negb (content_matches (extension (path file)) data)) "File content does not match extension";
  mret (mkLoaded (JMap.set (ld_files st) (path file) data) (ld_names st ++ [to_lower (path file)]) total).
Fixpoint load_files (st : Loaded) (l : list SourceFile) : outcome Loaded :=
  match l with [] => mret st | f :: l => st ← load_file st f; load_files st l end.

(** ** Text *)

Definition continuation (lo hi b : Z) : bool := (lo <=? b) && (b <=? hi).
Definition trail (b : Z) : bool := continuation 128 191 b.
(** The decoder of the Encoding standard, in fatal mode *)
Fixpoint utf8_valid (l : bytes) : bool :=
  match l with
  | [] => true
  | a :: l1 =>
      if a <? 128 then utf8_valid l1
      else match l1 with
      | b :: l2 =>
          if continuation 194 223 a then trail b && utf8_valid l2
          else match l2 with
          | c :: l3 =>
              if continuation 224 239 a then
                continuation (if a =? 224 then 160 else 128) (if a =? 237 then 159 else 191) b && trail c && utf8_valid l3
              else match l3 with
              | d :: l4 =>
                  continuation 240 244 a
                  && continuation (if a =? 240 then 144 else 128) (if a =? 244 then 143 else 191) b
                  && trail c && trail d && utf8_valid l4
              | [] => false
              end
          | [] => false
          end
      | [] => false
      end
  end.
(** [new TextDecoder("utf-8", { fatal: true }).decode(data)]: a byte order mark is dropped *)
Definition TextDecoder_decode (data : bytes) : option string :=
  if utf8_valid data
  then Some (string_of_bytes (match data with 239 :: 187 :: 191 :: rest => rest | _ => data end))
  else None.

(** ** The bridge *)

Definition bridgeBootstrap : string :=
"(()=>{
  'use strict';
  let session=null,port=null,seq=0;const pending=new Map();
  function emit(method,payload){
    if(!session)return Promise.reject(new Error('BRIDGE_NOT_READY'));
    const request_id=String(++seq),message={protocol:1,request_id,execution_id:session.execution_id,nonce:session.nonce,method,payload};
    return new Promise((resolve,reject)=>{
      const timer=setTimeout(()=>{pending.delete(request_id);reject(new Error('BRIDGE_TIMEOUT'));},5000);
      pending.set(request_id,{resolve,reject,timer});
      if(port)port.postMessage(message);
      else if(window.webkit&&window.webkit.messageHandlers.nudgeon)window.webkit.messageHandlers.nudgeon.postMessage(JSON.stringify(message));
      else if(window.NudgeOnNative)window.NudgeOnNative.postMessage(JSON.stringify(message));
      else {clearTimeout(timer);pending.delete(request_id);reject(new Error('NO_HOST'));}
    });
  }
  function receive(result){const p=pending.get(result.request_id);if(!p)return;clearTimeout(p.timer);pending.delete(result.request_id);result.ok?p.resolve(result.result):p.reject(new Error(result.error&&result.error.code||'ACTION_FAILED'));}
  const api=Object.freeze({get timeZone(){return session?.time_zone||'UTC';},ready:()=>emit('ready',{}),performAction:action_id=>emit('performAction',{action_id}),dismiss:reason=>emit('dismiss',{reason:reason||'close_button'}),hideToday:()=>emit('hideToday',{})});
  Object.defineProperty(window,'nudgeonBridge',{value:api,writable:false});
  window.__nudgeonReply=receive;
  window.__nudgeonConnect=function(execution_id,nonce,context){
    if(session)return;session={execution_id,nonce,time_zone:typeof context?.time_zone==='string'?context.time_zone:'UTC'};window.dispatchEvent(new Event('nudgeon:ready'));
    const ready=()=>Promise.all(Array.from(document.images).map(i=>i.decode?i.decode():Promise.resolve())).then(()=>document.fonts?document.fonts.ready:null).then(()=>api.ready()).catch(()=>emit('log',{code:'RESOURCE_ERROR'}).catch(()=>{}));
    document.readyState==='loading'?document.addEventListener('DOMContentLoaded',ready,{once:true}):ready();
  };
  window.addEventListener('message',event=>{
    if(event.source!==parent||session||event.data?.type!=='nudgeon:init'||!event.ports[0])return;
    port=event.ports[0];port.onmessage=e=>receive(e.data);port.start();window.__nudgeonConnect(event.data.execution_id,event.data.nonce);
  });
  window.addEventListener('error',()=>{if(session)emit('log',{code:'JS_ERROR'}).catch(()=>{});});
  window.addEventListener('unhandledrejection',()=>{if(session)emit('log',{code:'JS_REJECTION'}).catch(()=>{});});
  if(parent!==window)parent.postMessage({type:'nudgeon:hello'},'*');
})();".
