(* ===== verification/TemplateZip.v ===== *)
(** * Importing e-mail templates from an archive
    ([apps/console/src/app/journeys/email-template-zip.ts])

    The console opens a ZIP in the browser, chooses its HTML page, puts the
    style sheets, images and fonts of the archive into the page and removes
    what a mail may not have.

    Parameters: the inflater of fflate ([Zip]: the directory of an archive and
    the contents of the entries the filter let through), the HTML parser and
    serializer of the browser ([Html]), the collation and case folding of the
    language.  The document object model is a tree ([dom]): the content of a
    [template] element is apart from its children, as in a browser, where
    [querySelectorAll] does not see it; attributes are in order, each name once.
    Regular expressions are written out as the matches they make; on UTF-8 bytes
    they match where they match on code units, as their characters are ASCII.
    Of an error or a warning only the key is kept, and the reference of a
    warning.  A [style] element inside another one is not visited twice. *)

From Stdlib Require Import Ascii.
From stdpp Require Import sorting.
From S2P Require Import Prelude JsVal Crypto JsonParse BundleFiles.

#[global] Open Scope Z_scope.

Definition MAX_ZIP_BYTES : Z := 5 * 1024 * 1024.
Definition MAX_ENTRY_BYTES : Z := 8 * 1024 * 1024.
Definition MAX_EXPANDED_BYTES : Z := 15 * 1024 * 1024.
Definition MAX_FILE_COUNT : Z := 80.
Definition MAX_FINAL_HTML_CHARS : Z := 1000000.

(** [archiveError(key)] *)
Definition archiveError (key : string) : exn := PlainError key.

(** ** Paths *)

Fixpoint slashes (s : string) : string :=
  match s with EmptyString => EmptyString | String c s' => String (if Ascii.eqb c "\" then "/" else c) (slashes s') end.
Definition letter (c : ascii) : bool := is_lower c || is_upper c.
(** [/^[a-zA-Z]:\//] *)
Definition drive (s : string) : bool :=
  match s with String c s' => letter c && starts_with ":/" s' | EmptyString => false end.

Definition kept_part (p : string) : bool := negb (String.eqb p "") && negb (String.eqb p ".").
Definition normalizeArchivePath (input : string) : option string :=
  let slashed := slashes input in
  if String.eqb slashed "" || starts_with "/" slashed || drive slashed then None
  else
    let parts := split_on "/" slashed in
    if existsb (String.eqb "..") parts then None
    else
      let normalized := join "/" (List.filter kept_part parts) in
      if String.eqb normalized "" then None else Some normalized.

Definition isMetadataPath (path : string) : bool :=
  starts_with "__MACOSX/" path || ends_with "/.DS_Store" path || String.eqb path ".DS_Store".

(** the text without a word of lower-case letters in front of it, in any case *)
Fixpoint strip_ci (w s : string) : option string :=
  match w, s with
  | EmptyString, _ => Some s
  | String a w', String b s' => if Ascii.eqb a (ascii_lower b) then strip_ci w' s' else None
  | _, EmptyString => None
  end.
Definition starts_ci (w s : string) : bool := match strip_ci w s with Some _ => true | None => false end.
Definition ends_ci (w s : string) : bool := ends_with w (to_lower s).

(** ** The archive *)

Record Entry := mkEntry { en_name : string; en_size : Z; en_originalSize : Z }.

(** what [unzip] finds in the bytes: it throws, reports an error, or reads a directory *)
Inductive Opened := Throws | Corrupt | Directory (entries : list Entry).
Class Zip := {
  zip_open : bytes → Opened;
  (** the entries that passed the filter, by their name; [None]: an error *)
  zip_inflate : bytes → list Entry → option (list (string * bytes)) }.

(** the variables of [unzipArchive] and the entries let through *)
Record Filtering := mkFiltering { fileCount : Z; expandedBytes : Z; rejected : option exn; accepted : list Entry }.

Definition reject (key : string) (st : Filtering) : Filtering :=
  mkFiltering (fileCount st) (expandedBytes st) (Some (default (archiveError key) (rejected st))) (accepted st).
Definition filter_entry (st : Filtering) (entry : Entry) : Filtering :=
  match normalizeArchivePath (en_name entry) with
  | None => reject "zip.unsafePath" st
  | Some path =>
      if ends_with "/" (en_name entry) || isMetadataPath path then st
      else
        let st := mkFiltering (fileCount st + 1) (expandedBytes st + en_originalSize entry) (rejected st) (accepted st) in
        if MAX_FILE_COUNT <? fileCount st then reject "zip.tooManyFiles" st
        else if MAX_ENTRY_BYTES <? en_originalSize entry then reject "zip.entryTooLarge" st
        else if MAX_EXPANDED_BYTES <? expandedBytes st then reject "zip.expandedTooLarge" st
        else if (1024 * 1024 <? en_originalSize entry) && (0 <? en_size entry) && (100 * en_size entry <? en_originalSize entry)
        then reject "zip.suspiciousRatio" st
        else if ends_ci ".zip" path then reject "zip.nestedZip" st
        else mkFiltering (fileCount st) (expandedBytes st) (rejected st) (accepted st ++ [entry])
  end.

Definition Files : Type := list (string * bytes).

Section TemplateImport.
Context `{Zip} (fold : string → string) (localeCompare_le code_units_le : string → string → bool).

(** the loop over the extracted entries; [seen]: [caseInsensitivePaths] *)
Fixpoint collect (l : list (string * bytes)) (files : Files) (seen : list string) : outcome Files :=
  match l with
  | [] => Ok files
  | (rawPath, data) :: l =>
      match normalizeArchivePath rawPath with
      | None => collect l files seen
      | Some path =>
          if isMetadataPath path then collect l files seen
          else
            let foldedPath := fold path in
            if JMap.has files path || String_in foldedPath seen then Throw (archiveError "zip.duplicatePath")
            else collect l (JMap.set files path data) (set_add seen foldedPath)
      end
  end.

Definition unzipArchive (data : bytes) : outcome Files :=
  match zip_open data with
  | Throws => Throw (archiveError "zip.cannotOpenFormat")
  | Corrupt => Throw (archiveError "zip.cannotOpenCorrupt")
  | Directory entries =>
      let st := fold_left filter_entry entries (mkFiltering 0 0 None []) in
      match rejected st, zip_inflate data (accepted st) with
      | Some e, _ => Throw e
      | None, None => Throw (archiveError "zip.cannotOpenCorrupt")
      | None, Some l => collect l [] []
      end
  end.

(** [/\.html?$/i], [/(^|\/)index\.html?$/i] *)
Definition is_html (path : string) : bool := ends_ci ".htm" path || ends_ci ".html" path.
Definition is_index (path : string) : bool :=
  let file := to_lower (List.last (split_on "/" path) "") in String.eqb file "index.htm" || String.eqb file "index.html".

Definition depth (path : string) : nat := length (split_on "/" path).
Definition before (a b : string) : Prop :=
  (depth a < depth b)%nat ∨ depth a = depth b ∧ localeCompare_le a b = true.
#[global] Instance before_dec a b : Decision (before a b).
Proof. unfold before. apply _. Defined.

Definition pickEntryPath (paths : list string) : outcome string :=
  let htmlFiles := List.filter is_html paths in
  match htmlFiles with
  | [] => Throw (archiveError "zip.noHtml")
  | _ =>
      let indexFiles := List.filter is_index htmlFiles in
      match indexFiles, htmlFiles with
      | [], _ :: _ :: _ => Throw (archiveError "zip.multipleHtml")
      | _, _ =>
          let candidates := match indexFiles with [] => htmlFiles | _ => indexFiles end in
          match merge_sort before candidates with
          | path :: _ => Ok path
          | [] => Throw (PlainError "undefined")
          end
      end
  end.

(** ** References *)

(** the text before the last slash *)
Definition dirname (path : string) : string :=
  match rev (split_on "/" path) with _ :: dirs => join "/" (rev dirs) | [] => "" end.

Definition hex_value (c : ascii) : option Z :=
  if is_digit c then Some (byte c - 48)
  else if (97 <=? byte c) && (byte c <=? 102) then Some (byte c - 87)
  else if (65 <=? byte c) && (byte c <=? 70) then Some (byte c - 55) else None.
(** the bytes of the escapes in front of [s], and the rest; [None]: a broken escape *)
Fixpoint escapes (n : nat) (s : string) : option (bytes * string) :=
  match n, s with
  | S n, String c (String a (String b s')) =>
      if Ascii.eqb c "%" then
        x ← hex_value a; y ← hex_value b; '(l, r) ← escapes n s'; Some (16 * x + y :: l, r)
      else Some ([], s)
  | S n, String c _ => if Ascii.eqb c "%" then None else Some ([], s)
  | _, _ => Some ([], s)
  end.
(** [decodeURIComponent(s)]; [None] for the [URIError] *)
Fixpoint uri_decode (n : nat) (s : string) : option string :=
  match n, s with
  | S n, String c s' =>
      if Ascii.eqb c "%" then
        '(l, r) ← escapes (String.length s) s;
        if utf8_valid l then t ← uri_decode n r; Some (string_of_bytes l +:+ t) else None
      else t ← uri_decode n s'; Some (String c t)
  | _, _ => Some ""
  end.
Definition decodeURIComponent (s : string) : option string := uri_decode (String.length s) s.

(** [/^(?:data:|blob:|https?:|mailto:|tel:|cid:|\/\/)/i] *)
Definition outside (s : string) : bool :=
  existsb (λ w, starts_ci w s) ["data:"; "blob:"; "http:"; "https:"; "mailto:"; "tel:"; "cid:"; "//"].
(** [s.split(/[?#]/, 1)[0]] *)
Fixpoint before_suffix (s : string) : string :=
  match s with
  | EmptyString => EmptyString
  | String c s' => if Ascii.eqb c "?" || Ascii.eqb c "#" then EmptyString else String c (before_suffix s')
  end.
Definition resolveArchiveReference (fromPath reference : string) : option string :=
  let trimmed := js_trim reference in
  if String.eqb trimmed "" || starts_with "#" trimmed || outside trimmed then None
  else
    let withoutSuffix := before_suffix trimmed in
    let decoded := default withoutSuffix (decodeURIComponent withoutSuffix) in
    let base := if starts_with "/" decoded then String.substring 1 (String.length decoded - 1) decoded
                else join "/" (List.filter (λ p, negb (String.eqb p "")) [dirname fromPath; decoded]) in
    normalizeArchivePath base.

Definition mimes : list (string * string) :=
  [("png", "image/png"); ("jpg", "image/jpeg"); ("jpeg", "image/jpeg"); ("gif", "image/gif"); ("webp", "image/webp");
   ("woff", "font/woff"); ("woff2", "font/woff2"); ("ttf", "font/ttf"); ("otf", "font/otf")].
Definition mimeForPath (path : string) : option string := JMap.get mimes (extension path).

Definition dataUri (path : string) (data : bytes) : option string :=
  mime ← mimeForPath path; Some ("data:" +:+ mime +:+ ";base64," +:+ base64_encode data).

(** ** Markup that is refused *)

Definition word_char (c : ascii) : bool := is_lower c || is_upper c || is_digit c || Ascii.eqb c "_".
(** [\b] after a word *)
Definition word_end (s : string) : bool := match s with String c _ => negb (word_char c) | EmptyString => true end.
Fixpoint any_suffix (p : string → bool) (s : string) : bool :=
  p s || match s with String _ s' => any_suffix p s' | EmptyString => false end.
Fixpoint before_gt (p : string → bool) (s : string) : bool :=
  p s || match s with String c s' => if Ascii.eqb c ">" then false else before_gt p s' | EmptyString => false end.

(** [<\s*(?:script|iframe|object|embed|applet|form)\b] *)
Definition opens_tag (s : string) : bool :=
  match s with
  | String c s' =>
      Ascii.eqb c "<" && existsb (λ w, match strip_ci w (trim_start s') with Some r => word_end r | None => false end)
                           ["script"; "iframe"; "object"; "embed"; "applet"; "form"]
  | EmptyString => false
  end.
Fixpoint skip_letters (s : string) : string :=
  match s with String c s' => if letter c then skip_letters s' else s | EmptyString => EmptyString end.
(** [\son[a-z]+\s*=] *)
Definition handler_attribute (s : string) : bool :=
  match strip_ws s ≫= strip_ci "on" with
  | Some (String c s') => letter c && starts_with "=" (trim_start (skip_letters s'))
  | _ => false
  end.
(** [javascript\s*:] *)
Definition script_url (s : string) : bool :=
  match strip_ci "javascript" s with Some r => starts_with ":" (trim_start r) | None => false end.
Definition unquote (s : string) : string :=
  match s with String c s' => if Ascii.eqb c "034" || Ascii.eqb c "'" then s' else s | EmptyString => s end.
(** [<meta\b[^>]*http-equiv\s*=\s*[quote]?refresh] *)
Definition refresh_meta (s : string) : bool :=
  match strip_ci "<meta" s with
  | Some r =>
      word_end r && before_gt (λ t, match strip_ci "http-equiv" t with
        | Some t => match strip "=" (trim_start t) with
                    | Some t => let t := trim_start t in starts_ci "refresh" t || starts_ci "refresh" (unquote t)
                    | None => false
                    end
        | None => false end) r
  | None => false
  end.
Definition hasUnsafeEmailMarkup (html : string) : bool :=
  any_suffix (λ s, opens_tag s || handler_attribute s || script_url s || refresh_meta s) html.

(** ** Style sheets *)

(** [WarningSet]: keys, with the reference of a missing one *)
Definition Warnings : Type := list (string * option string).
Definition W : Type → Type := M Warnings.
Definition warn (key : string) (reference : option string) : W unit :=
  modify (λ l, if bool_decide ((key, reference) ∈ l) then l else l ++ [(key, reference)]).

Fixpoint after_semicolon (s : string) : string :=
  match s with String c s' => if Ascii.eqb c ";" then s' else after_semicolon s' | EmptyString => EmptyString end.
(** [/@import\s+(?:url\()?[^;]+;?/i] at the front: what follows it *)
Definition match_import (s : string) : option string :=
  r ← strip_ci "@import" s;
  r ← strip_ws r;
  match r with String c _ => if Ascii.eqb c ";" then None else Some (after_semicolon r) | EmptyString => None end.
Fixpoint remove_imports (n : nat) (css : string) : W string :=
  match n, css with
  | S n, String c s =>
      match match_import css with
      | Some r => _ ← warn "zip.warning.removedStyleImport" None; remove_imports n r
      | None => t ← remove_imports n s; mret (String c t)
      end
  | _, _ => mret ""
  end.

(** what [.] does not match, at the front *)
Definition line_terminator (s : string) : bool :=
  match s with String a _ => (byte a =? 10) || (byte a =? 13) | EmptyString => false end
  || match s with
     | String a (String b (String c _)) => (byte a =? 226) && (byte b =? 128) && ((byte c =? 168) || (byte c =? 169))
     | _ => false
     end.
(** [.*?] up to where [close] matches: the text and what follows the match *)
Fixpoint lazily (close : string → option string) (s : string) : option (string * string) :=
  match close s with
  | Some r => Some ("", r)
  | None =>
      if line_terminator s then None
      else match s with String c s' => '(t, r) ← lazily close s'; Some (String c t, r) | EmptyString => None end
  end.
Definition closing (quote : string) (s : string) : option string := r ← strip quote s; strip ")" (trim_start r).
(** [/url\(\s*(quote?)(.*?)\1\s*\)/i] at the front: the reference and what follows *)
Definition match_url (s : string) : option (string * string) :=
  r ← strip_ci "url(" s;
  let r := trim_start r in
  let bare := lazily (closing "") r in
  match r with
  | String c r' =>
      if Ascii.eqb c "034" || Ascii.eqb c "'" then
        match lazily (closing (String c "")) r' with Some m => Some m | None => bare end
      else bare
  | EmptyString => None
  end.

Section Css.
Context (files : Files).

Definition blank_url : string := "url(" +:+ String "034" (String "034" ")").
(** the replacement of one [url()]; [full]: its text *)
Definition rewrite_url (fromPath full rawReference : string) : W string :=
  let reference := js_trim rawReference in
  if String.eqb reference "" || starts_with "data:" reference || starts_with "#" reference then mret full
  else
    match resolveArchiveReference fromPath reference with
    | None => _ ← warn "zip.warning.blockedExternalAssets" None; mret blank_url
    | Some path =>
        match JMap.get files path ≫= dataUri path with
        | None => _ ← warn "zip.warning.missingReference" (Some reference); mret blank_url
        | Some uri => mret ("url(" +:+ String "034" (uri +:+ String "034" ")"))
        end
    end.
Fixpoint rewrite_urls (n : nat) (fromPath css : string) : W string :=
  match n, css with
  | S n, String c s =>
      match match_url css with
      | Some (raw, r) =>
          u ← rewrite_url fromPath (String.substring 0 (String.length css - String.length r) css) raw;
          t ← rewrite_urls n fromPath r;
          mret (u +:+ t)
      | None => t ← rewrite_urls n fromPath s; mret (String c t)
      end
  | _, _ => mret ""
  end.
Definition rewriteCssAssets (css fromPath : string) : W string :=
  withoutImports ← remove_imports (String.length css) css;
  rewrite_urls (String.length withoutImports) fromPath withoutImports.
End Css.

(** ** The document *)

Definition Attrs : Type := list (string * string).
(** [content]: what a [template] holds *)
Inductive dom :=
| Text (value : string)
| Comment (data : string)
| Element (tag : string) (attrs : Attrs) (content kids : list dom).

Class Html := { parseFromString : string → dom; outerHTML : dom → string }.

Definition mapM {A B} (f : A → W B) : list A → W (list B) :=
  fix go l := match l with [] => mret [] | x :: l => y ← f x; k ← go l; mret (y :: k) end.

(** [document.querySelectorAll("*").forEach(...)], for what it does to the attributes of an element *)
Fixpoint each (f : string → Attrs → W Attrs) (n : dom) : W dom :=
  match n with
  | Element tag attrs content kids =>
      attrs ← f tag attrs;
      kids ← mapM (each f) kids;
      mret (Element tag attrs content kids)
  | _ => mret n
  end.

Definition removed_tags : list string := ["script"; "iframe"; "object"; "embed"; "applet"; "form"; "base"].
Definition is_refresh (tag : string) (attrs : Attrs) : bool :=
  String.eqb tag "meta" && match JMap.get attrs "http-equiv" with Some v => String.eqb (to_lower v) "refresh" | None => false end.
Definition is_removed (n : dom) : bool :=
  match n with Element tag attrs _ _ => String_in tag removed_tags || is_refresh tag attrs | _ => false end.
(** [querySelectorAll("script, iframe, ...").forEach((node) => node.remove())] *)
Fixpoint prune (n : dom) : dom :=
  match n with
  | Element tag attrs content kids =>
      Element tag attrs content
        ((fix go l := match l with [] => [] | k :: l => if is_removed k then go l else prune k :: go l end) kids)
  | _ => n
  end.

Section Build.
Context `{Html} (files : Files).

(** the attributes of an element, cleaned *)
Definition scripted (name : string) : bool := starts_ci "on" name || String.eqb (to_lower name) "srcdoc".
Definition clean_attrs (entryPath tag : string) (attrs : Attrs) : W Attrs :=
  let attrs := List.filter (λ a, negb (scripted (fst a))) attrs in
  match JMap.get attrs "style" with
  | None | Some "" => mret attrs
  | Some style => css ← rewriteCssAssets files style entryPath; mret (JMap.set attrs "style" css)
  end.

(** the words of [rel] *)
Definition ascii_ws (c : ascii) : bool := (byte c =? 32) || (byte c =? 9) || (byte c =? 10) || (byte c =? 12) || (byte c =? 13).
Fixpoint words (s : string) : list string :=
  match s with
  | EmptyString => [EmptyString]
  | String c s' =>
      if ascii_ws c then EmptyString :: words s'
      else match words s' with x :: l => String c x :: l | [] => [String c EmptyString] end
  end.
(** [link[rel~='stylesheet' i]] *)
Definition is_stylesheet (n : dom) : option Attrs :=
  match n with
  | Element tag attrs _ _ =>
      if String.eqb tag "link" && match JMap.get attrs "rel" with
                                  | Some rel => existsb (λ w, String.eqb (to_lower w) "stylesheet") (words rel)
                                  | None => false
                                  end
      then Some attrs else None
  | _ => None
  end.
(** the [style] element that takes the place of a link, if any *)
Definition import_link (entryPath : string) (attrs : Attrs) : W (list dom) :=
  let reference := default "" (JMap.get attrs "href") in
  match resolveArchiveReference entryPath reference with
  | None => _ ← warn "zip.warning.removedExternalStylesheet" None; mret []
  | Some path =>
      match JMap.get files path with
      | None => _ ← warn "zip.warning.removedExternalStylesheet" None; mret []
      | Some data =>
          text ← some_or_throw (TextDecoder_decode data) (archiveError "zip.cssNotUtf8");
          css ← rewriteCssAssets files text path;
          mret [Element "style" [] [] [Text css]]
      end
  end.
Fixpoint import_links (entryPath : string) (n : dom) : W dom :=
  match n with
  | Element tag attrs content kids =>
      kids ← (fix go l := match l with
        | [] => mret []
        | k :: l =>
            k ← match is_stylesheet k with
                | Some link => import_link entryPath link
                | None => k ← import_links entryPath k; mret [k]
                end;
            l ← go l;
            mret (k ++ l)
        end) kids;
      mret (Element tag attrs content kids)
  | _ => mret n
  end.

Fixpoint textContent (n : dom) : string :=
  match n with
  | Text t => t
  | Comment _ => ""
  | Element _ _ _ kids => String.concat "" (map textContent kids)
  end.
Definition set_text (t : string) : list dom := if String.eqb t "" then [] else [Text t].
Fixpoint rewrite_styles (entryPath : string) (n : dom) : W dom :=
  match n with
  | Element tag attrs content kids =>
      if String.eqb tag "style" then
        css ← rewriteCssAssets files (textContent n) entryPath;
        mret (Element tag attrs content (set_text css))
      else
        kids ← mapM (rewrite_styles entryPath) kids;
        mret (Element tag attrs content kids)
  | _ => mret n
  end.

(** [img[src], source[src], [background]] *)
Definition embed_image (entryPath tag : string) (attrs : Attrs) : W Attrs :=
  if (String_in tag ["img"; "source"] && JMap.has attrs "src") || JMap.has attrs "background" then
    let attribute := if JMap.has attrs "src" then "src" else "background" in
    let reference := default "" (JMap.get attrs attribute) in
    if starts_with "data:" reference || starts_with "cid:" reference then mret attrs
    else
      match resolveArchiveReference entryPath reference ≫= λ path, JMap.get files path ≫= dataUri path with
      | None => _ ← warn "zip.warning.blockedExternalImages" None; mret (JMap.delete attrs attribute)
      | Some uri => mret (JMap.set attrs attribute uri)
      end
  else mret attrs.

Definition drop_srcset (_ : string) (attrs : Attrs) : W Attrs := mret (JMap.delete attrs "srcset").

(** [/^(?:https?:|mailto:|tel:|#)/i] *)
Definition allowed_href (href : string) : bool := existsb (λ w, starts_ci w href) ["http:"; "https:"; "mailto:"; "tel:"; "#"].
Definition guard_anchor (tag : string) (attrs : Attrs) : W Attrs :=
  match JMap.get attrs "href" with
  | Some href =>
      if String.eqb tag "a" then
        let attrs := if allowed_href (js_trim href) then attrs else JMap.delete attrs "href" in
        mret (JMap.set attrs "rel" "noopener noreferrer")
      else mret attrs
  | None => mret attrs
  end.

Definition is_tag (t : string) (n : dom) : bool := match n with Element tag _ _ _ => String.eqb tag t | _ => false end.
(** [n.querySelector("meta[charset]")] among the descendants *)
Fixpoint has_charset (n : dom) : bool :=
  match n with
  | Element tag attrs _ kids => (String.eqb tag "meta" && JMap.has attrs "charset") || existsb has_charset kids
  | _ => false
  end.
Definition charset_meta : dom := Element "meta" [("charset", "utf-8")] [] [].
(** the first [head] among the children of the root *)
Fixpoint declare_charset (l : list dom) : option (list dom) :=
  match l with
  | [] => None
  | Element tag attrs content kids as n :: l =>
      if String.eqb tag "head" then
        Some ((if existsb has_charset kids then n else Element tag attrs content (charset_meta :: kids)) :: l)
      else l' ← declare_charset l; Some (n :: l')
  | n :: l => l' ← declare_charset l; Some (n :: l')
  end.
Definition with_charset (n : dom) : W dom :=
  match n with
  | Element tag attrs content kids =>
      kids ← some_or_throw (declare_charset kids) (PlainError "TypeError");
      mret (Element tag attrs content kids)
  | _ => throw (PlainError "TypeError")
  end.

(** [buildStandaloneHtml], up to the serialization *)
Definition build_document (entryPath : string) (document : dom) : W dom :=
  document ← each (clean_attrs entryPath) (prune document);
  document ← import_links entryPath document;
  document ← rewrite_styles entryPath document;
  document ← each (embed_image entryPath) document;
  document ← each drop_srcset document;
  document ← each guard_anchor document;
  with_charset document.

Definition newline : string := String "010" "".
Definition buildStandaloneHtml (rawHtml entryPath : string) : outcome (string * Warnings) :=
  if hasUnsafeEmailMarkup rawHtml then Throw (archiveError "zip.unsafeHtml")
  else
    match build_document entryPath (parseFromString rawHtml) [] with
    | (Ok document, warnings) => Ok ("<!doctype html>" +:+ newline +:+ outerHTML document, warnings)
    | (Throw e, _) => Throw e
    end.
End Build.

(** ** The preview *)

Fixpoint through_gt (s : string) : option (string * string) :=
  match s with
  | String c s' => if Ascii.eqb c ">" then Some (String c "", s') else '(t, r) ← through_gt s'; Some (String c t, r)
  | EmptyString => None
  end.
(** a [head] tag, with or without attributes, at the front: its text and what follows *)
Definition match_head (s : string) : option (string * string) :=
  r ← strip_ci "<head" s;
  match r with
  | String c _ => if Ascii.eqb c ">" || (match strip_ws r with Some _ => true | None => false end)
                  then '(t, rest) ← through_gt r; Some (String.substring 0 5 s +:+ t, rest) else None
  | EmptyString => None
  end.
Fixpoint insert_after_head (csp s : string) : option string :=
  match match_head s with
  | Some (head, rest) => Some (head +:+ csp +:+ rest)
  | None => match s with String c s' => t ← insert_after_head csp s'; Some (String c t) | EmptyString => None end
  end.
Definition quoted (s : string) : string := String "034" (s +:+ String "034" "").
Definition csp : string :=
  "<meta http-equiv=" +:+ quoted "Content-Security-Policy" +:+ " content="
  +:+ quoted "default-src 'none'; img-src data:; style-src 'unsafe-inline' data:; font-src data:; base-uri 'none'; form-action 'none'" +:+ ">".
Definition createSandboxPreviewHtml (html : string) : string :=
  match insert_after_head csp html with
  | Some t => t
  | None => "<!doctype html><html><head>" +:+ csp +:+ "<meta charset=" +:+ quoted "utf-8" +:+ "></head><body>" +:+ html +:+ "</body></html>"
  end.

(** ** The import *)

Record ImportedEmailTemplate := mkImported {
  archiveName : string; archiveSize : Z; entryPath : string; file_count : Z; imageCount : Z; html : string;
  previewHtml : string; file_names : list string; warnings : Warnings }.

Definition units_before (a b : string) : Prop := code_units_le a b = true.
#[global] Instance units_before_dec a b : Decision (units_before a b).
Proof. unfold units_before. apply _. Defined.

Definition is_image (path : string) : bool := match mimeForPath path with Some m => starts_with "image/" m | None => false end.

Definition importEmailTemplateZipBytes `{Html} (data : bytes) (name : string) (size : Z) : outcome ImportedEmailTemplate :=
  if (MAX_ZIP_BYTES <? size) || (MAX_ZIP_BYTES <? Z.of_nat (length data)) then Throw (archiveError "zip.zipTooLarge")
  else
    files ← unzipArchive data;
    if Nat.eqb (length files) 0 then Throw (archiveError "zip.noUsableFiles")
    else
      let paths := merge_sort units_before (JMap.keys files) in
      entry ← pickEntryPath paths;
      match JMap.get files entry ≫= TextDecoder_decode with
      | None => Throw (archiveError "zip.htmlNotUtf8")
      | Some rawHtml =>
          '(text, warned) ← buildStandaloneHtml files rawHtml entry;
          if MAX_FINAL_HTML_CHARS <? js_length text then Throw (archiveError "zip.finalTooLarge")
          else Ok (mkImported name size entry (Z.of_nat (length files)) (Z.of_nat (length (List.filter is_image paths))) text
                     (createSandboxPreviewHtml text) paths warned)
      end.
Definition importEmailTemplateZip `{Html} (name : string) (size : Z) (data : bytes) : outcome ImportedEmailTemplate :=
  if negb (ends_ci ".zip" name) then Throw (archiveError "zip.selectZip")
  else if MAX_ZIP_BYTES <? size then Throw (archiveError "zip.zipTooLarge")
  else importEmailTemplateZipBytes data name size.
End TemplateImport.

(** ** Paths of an archive *)

Definition no_slash (s : string) : bool := str_forallb (λ c, negb (Ascii.eqb "/" c)) s.
(** a relative path that goes down only *)
Definition safe_path (p : string) : Prop := Forall (λ part, part ≠ "" ∧ part ≠ "." ∧ part ≠ "..") (split_on "/" p).

Lemma split_parts_of c s : Forall (λ x, str_forallb (λ d, negb (Ascii.eqb c d)) x = true) (split_on c s).
Proof.
  induction s as [|d s IH]; simpl; [by repeat constructor|].
  destruct (Ascii.eqb c d) eqn:E; [by constructor|].
  destruct (split_on c s) as [|x l]; [repeat constructor; simpl; by rewrite E|].
  inversion IH; subst. constructor; [|done]. simpl. by rewrite E.
Qed.
Lemma split_parts s : Forall (λ x, no_slash x = true) (split_on "/" s).
Proof. apply split_parts_of. Qed.

Lemma split_join l : l ≠ [] → Forall (λ x, no_slash x = true) l → split_on "/" (join "/" l) = l.
Proof.
  intros Hne H. induction H as [|x l Hx Hl IH]; [done|]. destruct l as [|y l].
  - change (join "/" [x]) with x. by apply split_on_none.
  - rewrite join_cons. change ("/" +:+ join "/" (y :: l)) with (String "/" (join "/" (y :: l))).
    rewrite split_on_app by done. by rewrite IH.
Qed.

Lemma normalize_safe input p : normalizeArchivePath input = Some p → safe_path p.
Proof.
  unfold normalizeArchivePath. destruct (_ || _); [done|]. destruct (existsb _ _) eqn:Hd; [done|].
  set (parts := List.filter kept_part _). destruct (String.eqb_spec (join "/" parts) "") as [|Hne]; [done|]. intros [= <-].
  assert (Forall (λ x, no_slash x = true ∧ x ≠ "" ∧ x ≠ "." ∧ x ≠ "..") parts) as Hp.
  { apply List.Forall_forall. intros x [Hin Hk]%filter_In. unfold kept_part in Hk. b2p.
    pose proof (split_parts (slashes input)) as Hs. rewrite List.Forall_forall in Hs.
    apply (existsb_fresh _ _ Hd) in Hin as Hdd. apply String.eqb_neq in Hdd. split_and!; auto. }
  unfold safe_path. rewrite split_join.
  - eapply Forall_impl; [exact Hp|]. simpl. tauto.
  - intros E. apply Hne. by rewrite E.
  - eapply Forall_impl; [exact Hp|]. simpl. tauto.
Qed.

(** ** The filter *)

(** What the inflater promises: the sizes a directory declares are unsigned, and
    each file comes from an entry that was let through and bears its name.  The
    length of a file need not be the declared one. *)
Class ZipLaws `{Zip} := {
  zip_sizes data l : zip_open data = Directory l → Forall (λ e, 0 <= en_originalSize e) l;
  zip_files data l fs : zip_inflate data l = Some fs → ∃ k, k ⊆+ l ∧ map fst fs = map en_name k }.

(** the entries that are files of the template *)
Definition is_file (e : Entry) : bool :=
  match normalizeArchivePath (en_name e) with
  | Some path => negb (ends_with "/" (en_name e)) && negb (isMetadataPath path)
  | None => false
  end.
(** an entry whose name goes down only *)
Definition safe_name (e : Entry) : Prop := ∃ path, normalizeArchivePath (en_name e) = Some path ∧ safe_path path.
(** a file of a declared size that is let through *)
Record moderate (e : Entry) : Prop := mkModerate {
  md_size : 0 <= en_originalSize e <= MAX_ENTRY_BYTES;
  md_ratio : 1024 * 1024 < en_originalSize e → 0 < en_size e → en_originalSize e <= 100 * en_size e;
  md_nested path : normalizeArchivePath (en_name e) = Some path → ends_ci ".zip" path = false }.

Definition total (l : list Z) : Z := foldr Z.add 0 l.
Lemma total_app a b : total (a ++ b) = total a + total b.
Proof. unfold total. induction a as [|x a IH]; simpl; [done|]. rewrite IH. lia. Qed.
Record within_limits (l : list Entry) (st : Filtering) : Prop := mkWithin {
  wl_names : Forall safe_name l;
  wl_files : accepted st = List.filter is_file l;
  wl_count : fileCount st = Z.of_nat (length (accepted st)) ∧ fileCount st <= MAX_FILE_COUNT;
  wl_bytes : expandedBytes st = total (map en_originalSize (accepted st)) ∧ expandedBytes st <= MAX_EXPANDED_BYTES;
  wl_each : Forall moderate (accepted st) }.

Lemma filter_entry_rejected st e : rejected st ≠ None → rejected (filter_entry st e) ≠ None.
Proof. intros H. unfold filter_entry, reject. destruct (normalizeArchivePath _); repeat case_match; simpl; done. Qed.

Lemma filter_entry_within l st e :
  0 <= en_originalSize e → rejected (filter_entry st e) = None → within_limits l st → within_limits (l ++ [e]) (filter_entry st e).
Proof.
  intros He Hr [Hn Hf [Hc1 Hc2] [Hb1 Hb2] Hall]. unfold filter_entry, reject in *.
  destruct (normalizeArchivePath (en_name e)) as [path|] eqn:Hp; [|done].
  assert (Forall safe_name (l ++ [e])) as Hn'.
  { apply Forall_app. split; [done|]. constructor; [|constructor]. exists path. split; [done|]. by eapply normalize_safe. }
  assert (is_file e = negb (ends_with "/" (en_name e) || isMetadataPath path)) as Hi by (unfold is_file; by rewrite Hp, negb_orb).
  cbv zeta in *. cbn [fileCount expandedBytes rejected accepted] in *.
  destruct (ends_with _ _ || _).
  { split; try done. rewrite List.filter_app, <- Hf. simpl. by rewrite Hi, app_nil_r. }
  destruct (Z.ltb_spec MAX_FILE_COUNT (fileCount st + 1)); [done|]. destruct (Z.ltb_spec MAX_ENTRY_BYTES (en_originalSize e)); [done|].
  destruct (Z.ltb_spec MAX_EXPANDED_BYTES (expandedBytes st + en_originalSize e)); [done|].
  destruct (_ && _) eqn:Hratio; [done|]. destruct (ends_ci _ _) eqn:Hzip; [done|].
  split; cbn [fileCount expandedBytes rejected accepted]; [done|..].
  - rewrite List.filter_app, <- Hf. simpl. by rewrite Hi.
  - rewrite length_app. simpl. lia.
  - rewrite map_app, total_app. change (total (map en_originalSize [e])) with (en_originalSize e + 0). lia.
  - apply Forall_app. split; [done|]. constructor; [|constructor]. split; [done| |congruence].
    intros G1%Z.ltb_lt G2%Z.ltb_lt. rewrite G1, G2 in Hratio. simpl in Hratio. apply Z.ltb_ge in Hratio. lia.
Qed.

Lemma filter_within l st k :
  Forall (λ e, 0 <= en_originalSize e) l → within_limits k st → rejected (fold_left filter_entry l st) = None →
  within_limits (k ++ l) (fold_left filter_entry l st).
Proof.
  revert st k. induction l as [|e l IH]; intros st k Hl Hw Hr; [by rewrite app_nil_r|]. simpl in *. inversion Hl; subst.
  change (e :: l) with ([e] ++ l). rewrite app_assoc. apply IH; [done| |done]. apply filter_entry_within; [done| |done].
  destruct (rejected (filter_entry st e)) eqn:E; [|done]. exfalso. revert Hr.
  assert (∀ l st, rejected st ≠ None → rejected (fold_left filter_entry l st) ≠ None) as Hk.
  { clear. induction l as [|e l IH]; intros st H; [done|]. simpl. apply IH, filter_entry_rejected, H. }
  intros Hr. apply (Hk l (filter_entry st e)); congruence.
Qed.

(** *** The files *)

Section Archive.
Context `{Zip} (fold : string → string).

(** [p] is the normal form of the name of one of [names] *)
Definition named (names : list string) (p : string) : Prop := ∃ n, In n names ∧ normalizeArchivePath n = Some p.

Lemma collect_spec l files seen r :
  collect fold l files seen = Ok r →
  Forall safe_path (JMap.keys files) → List.NoDup (map fold (JMap.keys files)) → (∀ x, In x (map fold (JMap.keys files)) → In x seen) →
  Forall safe_path (JMap.keys r) ∧ List.NoDup (map fold (JMap.keys r))
  ∧ ∃ k, JMap.keys r = JMap.keys files ++ k ∧ Forall (named (map fst l)) k ∧ (length k <= length l)%nat.
Proof.
  assert (∀ raw (data : bytes) l k, Forall (named (map fst l)) k ∧ (length k <= length l)%nat →
    Forall (named (map fst ((raw, data) :: l))) k ∧ (length k <= length ((raw, data) :: l))%nat) as Hmore.
  { intros raw data l' k [H1 H2]. split; [|simpl; lia]. eapply Forall_impl; [exact H1|]. intros p (n&Hn&Hp). exists n. split; [by right|done]. }
  revert files seen. induction l as [|[raw data] l IH]; intros files seen; cbn [collect].
  { intros [= <-] H1 H2 H3. split_and!; [done|done|]. exists []. rewrite app_nil_r. split_and!; [done|constructor|simpl; lia]. }
  destruct (normalizeArchivePath raw) as [path|] eqn:Hp.
  2: { intros E H1 H2 H3. destruct (IH _ _ E H1 H2 H3) as (?&?&k&?&?). split_and!; try done. exists k. split; [done|]. by apply Hmore. }
  destruct (isMetadataPath path).
  { intros E H1 H2 H3. destruct (IH _ _ E H1 H2 H3) as (?&?&k&?&?). split_and!; try done. exists k. split; [done|]. by apply Hmore. }
  destruct (JMap.has files path) eqn:Hh; [done|]. destruct (String_in (fold path) seen) eqn:Hs; [done|]. simpl.
  intros E H1 H2 H3. apply String_in_false in Hs. rewrite JMap.set_fresh in E by done.
  apply normalize_safe in Hp as Hsafe. destruct (IH _ _ E) as (Ha&Hb&k&Hk&Hsub).
  - unfold JMap.keys. rewrite map_app. apply Forall_app. split; [done|]. by repeat constructor.
  - unfold JMap.keys. rewrite !map_app. apply List.NoDup_app; [done|constructor; [by intros []|constructor]|]. intros x Hx [<-|[]].
    by apply Hs, H3.
  - intros x. unfold JMap.keys. rewrite !map_app, in_app_iff, set_add_In. intros [Hx|[<-|[]]]; auto.
  - split_and!; [done|done|]. exists (path :: k). rewrite Hk. unfold JMap.keys. rewrite map_app, <- app_assoc. split; [done|].
    pose proof (proj1 (Hmore raw data l k Hsub)). split; [|simpl; destruct Hsub; lia].
    constructor; [exists raw; split; [by left|done]|done].
Qed.

Context `{!ZipLaws}.
(** what an archive that is opened declares, and the files it gives *)
Lemma unzip_spec data files :
  unzipArchive fold data = Ok files →
  ∃ entries, zip_open data = Directory entries
    ∧ Forall safe_name entries
    ∧ (let declared := List.filter is_file entries in
       Z.of_nat (length declared) <= MAX_FILE_COUNT ∧ Forall moderate declared
       ∧ total (map en_originalSize declared) <= MAX_EXPANDED_BYTES
       ∧ (length files <= length declared)%nat ∧ Forall (named (map en_name declared)) (JMap.keys files))
    ∧ Forall safe_path (JMap.keys files) ∧ List.NoDup (map fold (JMap.keys files)).
Proof.
  unfold unzipArchive. destruct (zip_open data) as [| |entries] eqn:Ho; [done..|].
  set (st := fold_left _ _ _). destruct (rejected st) eqn:Hr; [done|]. destruct (zip_inflate data (accepted st)) as [l|] eqn:Hi; [|done].
  intros Hc. apply collect_spec in Hc as (H1&H2&k&Hk&Hn&Hl); [|constructor|constructor|done]. simpl in Hk. subst k.
  assert (within_limits entries st) as [Hnames Hfiles [Hn1 Hn2] [Hb1 Hb2] Hall].
  { apply (filter_within entries _ []); [by eapply zip_sizes| |done]. by split. }
  apply zip_files in Hi as (k&Hk&Hf). exists entries. cbv zeta. rewrite <- Hfiles.
  assert (∀ x, In x k → In x (accepted st)) as Hin.
  { intros x. rewrite <- !list_elem_of_In. intros Hx. by eapply elem_of_submseteq. }
  split_and!; [done|done|lia|done|lia| | |done|done].
  - apply submseteq_length in Hk. apply (f_equal length) in Hf. rewrite (length_map fst), (length_map en_name) in Hf.
    unfold JMap.keys in Hl. rewrite length_map in Hl. lia.
  - eapply Forall_impl; [exact Hn|]. intros p (n&Hx&Hp). exists n. split; [|done]. rewrite Hf in Hx.
    apply in_map_iff in Hx as (e&<-&He). apply in_map, Hin, He.
Qed.
End Archive.

(** ** Trees *)

Section DomInd.
Context (P : dom → Prop) (HText : ∀ t, P (Text t)) (HComment : ∀ t, P (Comment t))
        (HElement : ∀ tag attrs content kids, Forall P kids → P (Element tag attrs content kids)).
Fixpoint dom_nested (n : dom) : P n :=
  match n with
  | Text t => HText t
  | Comment t => HComment t
  | Element tag attrs content kids =>
      HElement tag attrs content kids
        ((fix go l : Forall P l := match l with [] => Forall_nil_2 _ | k :: l => Forall_cons_2 _ _ _ (dom_nested k) (go l) end) kids)
  end.
End DomInd.

(** every element that [querySelectorAll] sees *)
Fixpoint every (P : string → Attrs → Prop) (n : dom) : Prop :=
  match n with
  | Element tag attrs _ kids => P tag attrs ∧ (fix go l := match l with [] => True | k :: l => every P k ∧ go l end) kids
  | _ => True
  end.

Lemma every_element P tag attrs content kids :
  every P (Element tag attrs content kids) ↔ P tag attrs ∧ Forall (every P) kids.
Proof.
  simpl. f_equiv. induction kids as [|k kids IH]; [split; [by constructor|done]|]. by rewrite IH, Forall_cons.
Qed.

Lemma every_impl (P Q : string → Attrs → Prop) n : (∀ tag attrs, P tag attrs → Q tag attrs) → every P n → every Q n.
Proof.
  intros H. induction n as [t|t|tag attrs content kids IH] using dom_nested; [done..|]. rewrite !every_element.
  intros [HP Hk]. split; [auto|]. rewrite Forall_forall in *. auto.
Qed.

Lemma mapM_ok {A B} (f : A → W B) l s k s' :
  mapM f l s = (Ok k, s') → Forall2 (λ x y, ∃ t t', f x t = (Ok y, t')) l k.
Proof.
  revert s k s'. induction l as [|x l IH]; intros s k s'; cbn; [by intros [= <- _]; constructor|].
  intros (y&s1&Hy&(ys&s2&Hl&[= <- _])%bind_ok)%bind_ok. constructor; [by exists s, s1|]. by eapply IH.
Qed.

Lemma each_every f (P Q : string → Attrs → Prop) n s n' s' :
  (∀ tag attrs t attrs' t', P tag attrs → f tag attrs t = (Ok attrs', t') → Q tag attrs') →
  each f n s = (Ok n', s') → every P n → every Q n'.
Proof.
  intros Hf. revert s n' s'. induction n as [t|t|tag attrs content kids IH] using dom_nested; intros s n' s'.
  - by intros [= <- _].
  - by intros [= <- _].
  - cbn [each]. intros (attrs'&s1&Ha&(kids'&s2&Hk&[= <- _])%bind_ok)%bind_ok. rewrite !every_element. intros [HP Hall].
    split; [by eapply Hf|]. apply mapM_ok in Hk. clear -Hk IH Hall.
    induction Hk as [|k k' ks ks' (t&t'&Hk) Hks IHk]; [constructor|]. inversion IH; subst. inversion Hall; subst.
    constructor; [eauto|auto].
Qed.

Lemma every_prune P n : every P n → every P (prune n).
Proof.
  induction n as [t|t|tag attrs content kids IH] using dom_nested; [done..|].
  cbn [prune]. rewrite !every_element. intros [HP Hall]. split; [done|]. clear HP.
  induction IH as [|k ks Hk _ IHk]; [constructor|]. inversion Hall; subst. destruct (is_removed k); [by apply IHk|]. constructor; auto.
Qed.

Lemma prune_every P n :
  (∀ tag attrs content kids, is_removed (Element tag attrs content kids) = false → P tag attrs) →
  is_removed n = false → every P (prune n).
Proof.
  intros HP. induction n as [t|t|tag attrs content kids IH] using dom_nested; [done..|].
  intros Hr. cbn [prune]. rewrite every_element. split; [by eapply HP|]. clear Hr.
  induction IH as [|k ks Hk _ IHk]; [constructor|]. destruct (is_removed k); [exact IHk|]. constructor; [by apply Hk|exact IHk].
Qed.

Section Steps.
Context (files : Files) (entryPath : string).

Lemma import_links_every (P : string → Attrs → Prop) n s n' s' :
  P "style" [] → import_links files entryPath n s = (Ok n', s') → every P n →
  (is_stylesheet n = None) → every (λ tag attrs, P tag attrs ∧ is_stylesheet (Element tag attrs [] []) = None) n'.
Proof.
  intros HS. revert s n' s'. induction n as [t|t|tag attrs content kids IH] using dom_nested; intros s n' s'.
  - by intros [= <- _].
  - by intros [= <- _].
  - cbn [import_links]. intros (kids'&s1&Hk&[= <- _])%bind_ok. rewrite !every_element. intros [HP Hall] Hn. split; [done|].
    revert s kids' s1 Hk. clear HP Hn. induction kids as [|k ks IHk]; intros s kids' s1; cbn beta iota.
    { by intros [= <- _]. }
    inversion IH as [|? ? IHx IHxs]; subst. inversion Hall; subst.
    intros (one&s2&Hone&(rest&s3&Hrest&[= <- _])%bind_ok)%bind_ok. apply Forall_app. split; [|by eapply IHk].
    destruct (is_stylesheet k) as [link|] eqn:Hlink.
    + unfold import_link in Hone. destruct (resolveArchiveReference _ _) as [path|].
      2: { apply bind_ok in Hone as (?&?&_&[= <- _]). constructor. }
      destruct (JMap.get files path) as [data|].
      2: { apply bind_ok in Hone as (?&?&_&[= <- _]). constructor. }
      apply bind_ok in Hone as (text&?&_&(css&?&_&[= <- _])%bind_ok). repeat constructor. done.
    + apply bind_ok in Hone as (k'&?&Hk'&[= <- _]). constructor; [|constructor]. by eapply IHx.
Qed.

Lemma rewrite_styles_every P n s n' s' : rewrite_styles files entryPath n s = (Ok n', s') → every P n → every P n'.
Proof.
  revert s n' s'. induction n as [t|t|tag attrs content kids IH] using dom_nested; intros s n' s'.
  - by intros [= <- _].
  - by intros [= <- _].
  - cbn [rewrite_styles]. destruct (String.eqb tag "style").
    + intros (css&s1&_&[= <- _])%bind_ok. rewrite !every_element. intros [HP _]. split; [done|].
      unfold set_text. destruct (String.eqb css ""); by repeat constructor.
    + intros (kids'&s1&Hk&[= <- _])%bind_ok. rewrite !every_element. intros [HP Hall]. split; [done|].
      apply mapM_ok in Hk. clear -Hk IH Hall. induction Hk as [|k k' ks ks' (t&t'&Hk) Hks IHk]; [constructor|].
      inversion IH; subst. inversion Hall; subst. constructor; [eauto|auto].
Qed.

Lemma with_charset_every P n s n' s' : P "meta" [("charset", "utf-8")] → with_charset n s = (Ok n', s') → every P n → every P n'.
Proof.
  intros HM. destruct n as [t|t|tag attrs content kids]; [done..|]. simpl with_charset.
  intros (kids'&s1&[Hk ->]%some_or_throw_ok&[= <- _])%bind_ok. rewrite !every_element. intros [HP Hall]. split; [done|].
  revert kids' Hk. clear HP. induction kids as [|k ks IH]; intros kids' Hk; [done|]. inversion Hall; subst. cbn [declare_charset] in Hk.
  assert (∀ l, declare_charset ks ≫= (λ l', Some (k :: l')) = Some l → Forall (every P) l) as Hrest.
  { intros l (l'&Hl'&[= <-])%bind_Some. constructor; auto. }
  destruct k as [t|t|tag' attrs' content' kids'']; [by apply Hrest..|]. destruct (String.eqb tag' "head"); [|by apply Hrest].
  injection Hk as <-. constructor; [|done]. destruct (existsb has_charset kids''); [done|].
  match goal with H : every P (Element _ _ _ kids'') |- _ => rewrite every_element in H; destruct H as [? ?] end.
  rewrite every_element. split; [done|]. constructor; [|done]. unfold charset_meta. rewrite every_element. by split.
Qed.
End Steps.

(** ** What is left in the document *)

(** an image is part of the document or of the mail *)
Definition embedded (v : string) : bool := starts_with "data:" v || starts_with "cid:" v.

Record contained (tag : string) (attrs : Attrs) : Prop := mkContained {
  ct_tag : String_in tag removed_tags = false;
  ct_refresh : is_refresh tag attrs = false;
  ct_scripts : Forall (λ a, scripted (fst a) = false ∧ fst a ≠ "srcset") attrs;
  ct_sheet : is_stylesheet (Element tag attrs [] []) = None;
  ct_image v : String_in tag ["img"; "source"] = true → JMap.get attrs "src" = Some v → embedded v = true;
  ct_anchor v : tag = "a" → JMap.get attrs "href" = Some v →
    allowed_href (js_trim v) = true ∧ JMap.get attrs "rel" = Some "noopener noreferrer" }.

(** an element without both addresses of an image; one without an external background *)
Definition one_address (_ : string) (attrs : Attrs) : Prop := JMap.has attrs "src" = true → JMap.has attrs "background" = false.
Definition inner_background (_ : string) (attrs : Attrs) : Prop := ∀ v, JMap.get attrs "background" = Some v → embedded v = true.

(** the stages *)
Definition Clean (tag : string) (attrs : Attrs) : Prop :=
  String_in tag removed_tags = false ∧ is_refresh tag attrs = false ∧ Forall (λ a, scripted (fst a) = false) attrs.
Definition Linked (tag : string) (attrs : Attrs) : Prop := Clean tag attrs ∧ is_stylesheet (Element tag attrs [] []) = None.
Definition Embedded (tag : string) (attrs : Attrs) : Prop :=
  Linked tag attrs ∧ ∀ v, String_in tag ["img"; "source"] = true → JMap.get attrs "src" = Some v → embedded v = true.
Definition Plain (tag : string) (attrs : Attrs) : Prop := Embedded tag attrs ∧ Forall (λ a, fst a ≠ "srcset") attrs.

(** changing one other attribute keeps what the predicates look at *)
Lemma refresh_get tag a b : JMap.get a "http-equiv" = JMap.get b "http-equiv" → is_refresh tag a = is_refresh tag b.
Proof. unfold is_refresh. by intros ->. Qed.
Lemma sheet_get tag a b : JMap.get a "rel" = JMap.get b "rel" ∨ tag ≠ "link" →
  is_stylesheet (Element tag a [] []) = None → is_stylesheet (Element tag b [] []) = None.
Proof.
  unfold is_stylesheet. intros [->|Hne%String.eqb_neq]; [|by rewrite Hne]. by destruct (_ && _).
Qed.
Lemma get_set_other (m : Attrs) k v k' : k ≠ k' → JMap.get (JMap.set m k v) k' = JMap.get m k'.
Proof. intros H%String.eqb_neq. by rewrite JMap.get_set, H. Qed.
Lemma get_filter (m : Attrs) p k : (∀ v, p (k, v) = true) → JMap.get (List.filter p m) k = JMap.get m k.
Proof.
  intros H. induction m as [|[k' v] m IH]; [done|]. simpl. rewrite JMap.get_cons.
  destruct (String.eqb_spec k' k) as [->|Hne]; [by rewrite H, JMap.get_cons, String.eqb_refl|].
  destruct (p (k', v)); [|done]. rewrite JMap.get_cons, IH. by rewrite (proj2 (String.eqb_neq k' k)).
Qed.

Lemma Forall_set (Q : string → Prop) (m : Attrs) k v :
  Q k → Forall (λ a, Q (fst a)) m → Forall (λ a, Q (fst a)) (JMap.set m k v).
Proof.
  rewrite !List.Forall_forall. intros Hk Hm p [Hp| ->]%JMap.set_In; [by apply Hm|done].
Qed.
Lemma Forall_delete (Q : string → Prop) (m : Attrs) k : Forall (λ a, Q (fst a)) m → Forall (λ a, Q (fst a)) (JMap.delete m k).
Proof. rewrite !List.Forall_forall. intros Hm p [Hp _]%JMap.delete_In. by apply Hm. Qed.

Section Attributes.
Context (files : Files) (entryPath : string).

Lemma clean_attrs_ok tag attrs s attrs' s' :
  String_in tag removed_tags = false ∧ is_refresh tag attrs = false →
  clean_attrs files entryPath tag attrs s = (Ok attrs', s') → Clean tag attrs'.
Proof.
  intros [Ht Hr] E. unfold clean_attrs in E. set (kept := List.filter _ attrs) in E.
  assert (Clean tag kept) as Hk.
  { split_and!; [done| |].
    - erewrite refresh_get; [exact Hr|]. apply get_filter. by intros v.
    - apply List.Forall_forall. intros a [_ H%negb_true_iff]%filter_In. done. }
  destruct (JMap.get kept "style") as [[|c t]|]; [by injection E as <- _| |by injection E as <- _].
  apply bind_ok in E as (css&s1&_&[= <- _]). destruct Hk as (_&H1&H2). split_and!; [done| |].
  - erewrite refresh_get; [exact H1|]. by apply get_set_other.
  - by apply (Forall_set (λ k, scripted k = false)).
Qed.

Lemma linked_set tag attrs k v : Linked tag attrs → scripted k = false → k ≠ "http-equiv" → k ≠ "rel" ∨ tag ≠ "link" →
  Linked tag (JMap.set attrs k v).
Proof.
  intros [(H1&H2&H3) H4] Hk Hn Hr. split; [split_and!|]; [done| | |].
  - erewrite refresh_get; [exact H2|]. by apply get_set_other.
  - by apply (Forall_set (λ k, scripted k = false)).
  - eapply sheet_get; [|exact H4]. destruct Hr; [|by right]. left. by rewrite get_set_other.
Qed.
Lemma linked_delete tag attrs k : Linked tag attrs → k ≠ "http-equiv" → k ≠ "rel" → Linked tag (JMap.delete attrs k).
Proof.
  intros [(H1&H2&H3) H4] Hn Hr. split; [split_and!|]; [done| | |].
  - erewrite refresh_get; [exact H2|]. by apply JMap.get_delete.
  - by apply (Forall_delete (λ k, scripted k = false)).
  - eapply sheet_get; [|exact H4]. left. by rewrite JMap.get_delete.
Qed.

Lemma get_deleted (m : Attrs) k : JMap.get (JMap.delete m k) k = None.
Proof.
  destruct (JMap.get (JMap.delete m k) k) as [v|] eqn:E; [|done]. by apply JMap.get_In, JMap.delete_In in E as [_ []].
Qed.

Lemma dataUri_embedded path data uri : dataUri path data = Some uri → embedded uri = true.
Proof.
  unfold dataUri. intros (m&_&[= <-])%bind_Some. unfold embedded. by rewrite starts_with_app.
Qed.

Lemma embed_image_ok tag attrs s attrs' s' :
  Linked tag attrs → embed_image files entryPath tag attrs s = (Ok attrs', s') → Embedded tag attrs'.
Proof.
  intros HL E. unfold embed_image in E. destruct (_ || _) eqn:Hsel.
  2: { injection E as <- _. apply orb_false_iff in Hsel as [Hs _]. split; [done|].
       intros v Ht Hg. rewrite Ht in Hs. unfold JMap.has in Hs. by rewrite Hg in Hs. }
  set (attribute := if JMap.has attrs "src" then "src" else "background") in E.
  assert (attribute = "src" ∨ attribute = "background" ∧ JMap.get attrs "src" = None) as Ha.
  { unfold attribute, JMap.has. destruct (JMap.get attrs "src"); auto. }
  destruct (starts_with "data:" _ || starts_with "cid:" _) eqn:Hd.
  { injection E as <- _. split; [done|]. intros v _ Hg. destruct Ha as [->|[_ Hn]]; [|congruence]. by rewrite Hg in Hd. }
  destruct (_ ≫= _) as [uri|] eqn:Hu.
  - injection E as <- _. split; [apply linked_set; [done|by destruct Ha as [->|[-> _]]..|left; by destruct Ha as [->|[-> _]]]|].
    apply bind_Some in Hu as (path&_&(data&_&Hu)%bind_Some). apply dataUri_embedded in Hu.
    intros v _ Hg. destruct Ha as [->|[-> Hn]]; rewrite JMap.get_set in Hg; simpl in Hg; congruence.
  - apply bind_ok in E as (?&?&_&[= <- _]). split; [apply linked_delete; [done|by destruct Ha as [->|[-> _]]..]|].
    intros v _ Hg. destruct Ha as [->|[-> Hn]]; [by rewrite get_deleted in Hg|]. rewrite JMap.get_delete in Hg by done. congruence.
Qed.

Lemma drop_srcset_ok tag attrs s attrs' s' : Embedded tag attrs → drop_srcset tag attrs s = (Ok attrs', s') → Plain tag attrs'.
Proof.
  intros [HL Hi] [= <- _]. split.
  - split; [by apply linked_delete|]. intros v. rewrite JMap.get_delete by done. apply Hi.
  - apply List.Forall_forall. by intros p [_ Hp]%JMap.delete_In.
Qed.

Lemma plain_contained tag attrs :
  Plain tag attrs →
  (∀ v, tag = "a" → JMap.get attrs "href" = Some v →
     allowed_href (js_trim v) = true ∧ JMap.get attrs "rel" = Some "noopener noreferrer") → contained tag attrs.
Proof.
  intros [[[(H1&H2&H3) H4] H5] H6] H7. split; try done. rewrite List.Forall_forall in *. auto.
Qed.

Lemma guard_anchor_get tag attrs s attrs' s' k :
  guard_anchor tag attrs s = (Ok attrs', s') → k ≠ "href" → k ≠ "rel" → JMap.get attrs' k = JMap.get attrs k.
Proof.
  intros E Hh Hr. unfold guard_anchor in E. destruct (JMap.get attrs "href"); [|by injection E as <- _].
  destruct (String.eqb tag "a"); [|by injection E as <- _]. injection E as <- _. rewrite get_set_other by done.
  destruct (allowed_href _); [done|]. by apply JMap.get_delete.
Qed.

Lemma guard_anchor_ok tag attrs s attrs' s' : Plain tag attrs → guard_anchor tag attrs s = (Ok attrs', s') → contained tag attrs'.
Proof.
  intros HP E. unfold guard_anchor in E. destruct (JMap.get attrs "href") as [href|] eqn:Hh.
  2: { injection E as <- _. apply plain_contained; [done|]. congruence. }
  destruct (String.eqb_spec tag "a") as [->|Hne].
  2: { injection E as <- _. by apply plain_contained. }
  injection E as <- _. set (attrs1 := if allowed_href _ then attrs else _).
  assert (Plain "a" attrs1 ∧ ∀ v, JMap.get attrs1 "href" = Some v → allowed_href (js_trim v) = true) as [[[HL1 _] Hs1] Hv1].
  { unfold attrs1. destruct (allowed_href (js_trim href)) eqn:Ha; [split; [done|]; intros v Hg; by simplify_eq|].
    destruct HP as [[HL Hi] Hs]. split; [|intros v Hg; by rewrite get_deleted in Hg].
    split; [split; [by apply linked_delete|done]|]. by apply (Forall_delete (λ k, k ≠ "srcset")). }
  apply plain_contained.
  - split; [split; [apply linked_set; [done..|by right]|done]|]. by apply (Forall_set (λ k, k ≠ "srcset")).
  - intros v _. rewrite get_set_other by done. intros Hg. split; [by apply Hv1|]. by rewrite JMap.get_set.
Qed.

(** *** Backgrounds *)

Lemma has_get (m : Attrs) k : JMap.has m k = true ↔ JMap.get m k ≠ None.
Proof. unfold JMap.has. by destruct (JMap.get m k). Qed.
Lemma get_filter_none (m : Attrs) p k : JMap.get m k = None → JMap.get (List.filter p m) k = None.
Proof.
  intros H. destruct (JMap.get (List.filter p m) k) as [v|] eqn:E; [|done].
  assert (is_Some (JMap.get m k)) as [? ?]; [|congruence]. apply JMap.get_In, filter_In in E as [E _].
  apply JMap.get_keys. apply in_map_iff. by exists (k, v).
Qed.

Lemma clean_attrs_address tag attrs s attrs' s' :
  one_address tag attrs → clean_attrs files entryPath tag attrs s = (Ok attrs', s') → one_address tag attrs'.
Proof.
  intros H E. unfold clean_attrs in E. set (kept := List.filter _ attrs) in E.
  assert (one_address tag kept) as Hk.
  { intros Hs. destruct (JMap.has kept "background") eqn:Hb; [|done]. apply has_get in Hs, Hb.
    assert (∀ k, JMap.get kept k ≠ None → JMap.has attrs k = true) as Hin.
    { intros k Hn. apply has_get. intros Hn'. by apply Hn, get_filter_none. }
    specialize (H (Hin _ Hs)). by rewrite (Hin _ Hb) in H. }
  destruct (JMap.get kept "style") as [[|c t]|]; [by injection E as <- _| |by injection E as <- _].
  apply bind_ok in E as (css&s1&_&[= <- _]). unfold one_address, JMap.has in *. by rewrite !get_set_other.
Qed.

Lemma embed_image_background tag attrs s attrs' s' :
  one_address tag attrs → embed_image files entryPath tag attrs s = (Ok attrs', s') → inner_background tag attrs'.
Proof.
  intros H E v Hv. unfold embed_image in E. destruct (JMap.has attrs "background") eqn:Hb.
  2: { exfalso. assert (JMap.get attrs "background" = None) as Hn by (unfold JMap.has in Hb; by destruct (JMap.get attrs "background")).
       destruct (JMap.has attrs "src"); [|rewrite andb_false_r in E; injection E as <- _; congruence].
       destruct (_ || _); [|injection E as <- _; congruence]. cbv zeta in E.
       destruct (starts_with _ _ || _); [injection E as <- _; congruence|].
       destruct (_ ≫= _); [injection E as <- _; by rewrite get_set_other, Hn in Hv|].
       apply bind_ok in E as (?&?&_&[= <- _]). by rewrite JMap.get_delete, Hn in Hv. }
  destruct (JMap.has attrs "src") eqn:Hs; [by rewrite H in Hb|]. rewrite orb_true_r in E.
  destruct (starts_with "data:" _ || starts_with "cid:" _) eqn:Hd; [injection E as <- _; by rewrite Hv in Hd|].
  destruct (_ ≫= _) as [uri|] eqn:Hu.
  - injection E as <- _. rewrite JMap.get_set in Hv. injection Hv as <-.
    apply bind_Some in Hu as (path&_&(data&_&Hu)%bind_Some). by apply dataUri_embedded in Hu.
  - apply bind_ok in E as (?&?&_&[= <- _]). by rewrite get_deleted in Hv.
Qed.
End Attributes.

(** the root of a parsed document *)
Class HtmlLaws `{Html} := { html_root t : ∃ attrs content kids, parseFromString t = Element "html" attrs content kids }.

Lemma contained_new : contained "meta" [("charset", "utf-8")] ∧ Linked "style" [].
Proof. split; [split|split; [split_and!|]]; try done; by repeat constructor. Qed.

Lemma each_root f tag attrs content kids s n s' :
  each f (Element tag attrs content kids) s = (Ok n, s') → ∃ attrs' kids', n = Element tag attrs' content kids'.
Proof. cbn [each]. intros (attrs'&s1&_&(kids'&s2&_&[= <- _])%bind_ok)%bind_ok. eauto. Qed.

Lemma build_contained files entryPath attrs content kids s document s' :
  build_document files entryPath (Element "html" attrs content kids) s = (Ok document, s') → every contained document.
Proof.
  unfold build_document. intros (d1&s1&E1&(d2&s2&E2&(d3&s3&E3&(d4&s4&E4&(d5&s5&E5&(d6&s6&E6&E7)%bind_ok)%bind_ok)%bind_ok)%bind_ok)%bind_ok)%bind_ok.
  eapply with_charset_every; [apply contained_new|exact E7|]. clear E7.
  eapply each_every; [|exact E6|]; [intros ? ? ? ? ?; apply guard_anchor_ok|].
  eapply each_every; [|exact E5|]; [intros ? ? ? ? ?; apply drop_srcset_ok|].
  eapply each_every; [|exact E4|]; [intros ? ? ? ? ?; apply (embed_image_ok files entryPath)|].
  eapply rewrite_styles_every; [exact E3|].
  assert (is_stylesheet d1 = None) as Hroot.
  { cbn [prune] in E1. by apply each_root in E1 as (attrs'&kids'&->). }
  apply (every_impl (λ tag attrs, Clean tag attrs ∧ is_stylesheet (Element tag attrs [] []) = None)); [done|].
  eapply import_links_every; [apply contained_new|exact E2| |exact Hroot].
  eapply each_every; [|exact E1|]; [intros ? ? ? ? ?; apply (clean_attrs_ok files entryPath)|].
  apply prune_every; [|done]. intros tag a c k H. cbn [is_removed] in H. by apply orb_false_iff in H.
Qed.

Lemma build_backgrounds files entryPath attrs content kids s document s' :
  build_document files entryPath (Element "html" attrs content kids) s = (Ok document, s') →
  every one_address (Element "html" attrs content kids) → every inner_background document.
Proof.
  unfold build_document. intros (d1&s1&E1&(d2&s2&E2&(d3&s3&E3&(d4&s4&E4&(d5&s5&E5&(d6&s6&E6&E7)%bind_ok)%bind_ok)%bind_ok)%bind_ok)%bind_ok)%bind_ok Hone.
  eapply with_charset_every; [|exact E7|]; [by intros v|]. clear E7.
  eapply (each_every _ inner_background); [|exact E6|].
  { intros tag a t a' t' Hi E v. rewrite (guard_anchor_get _ _ _ _ _ "background" E) by done. apply Hi. }
  eapply (each_every _ inner_background); [|exact E5|]; [intros tag a t a' t' Hi [= <- _] v; rewrite JMap.get_delete by done; apply Hi|].
  eapply (each_every _ one_address); [|exact E4|]; [intros ? ? ? ? ?; apply (embed_image_background files entryPath)|].
  eapply rewrite_styles_every; [exact E3|].
  assert (is_stylesheet d1 = None) as Hroot.
  { cbn [prune] in E1. by apply each_root in E1 as (attrs'&kids'&->). }
  apply (every_impl (λ tag attrs, one_address tag attrs ∧ is_stylesheet (Element tag attrs [] []) = None)); [by intros ? ? []|].
  eapply import_links_every; [|exact E2| |exact Hroot]; [done|].
  eapply (each_every _ one_address); [|exact E1|]; [intros ? ? ? ? ?; apply (clean_attrs_address files entryPath)|]. by apply every_prune.
Qed.

Lemma pick_entry le paths e :
  pickEntryPath le paths = Ok e → In e paths ∧ is_html e = true ∧ (∀ p, In p paths → is_html p = true → is_index p = true → is_index e = true).
Proof.
  unfold pickEntryPath. destruct (List.filter is_html paths) as [|h hs] eqn:Hf; [done|].
  set (candidates := match List.filter is_index (h :: hs) with [] => h :: hs | _ => _ end).
  assert (∀ x, In x candidates → In x (h :: hs) ∧ ((∃ p, In p (h :: hs) ∧ is_index p = true) → is_index x = true)) as Hc.
  { unfold candidates. intros x. destruct (List.filter is_index (h :: hs)) as [|i is_] eqn:Hi.
    - intros Hx. split; [done|]. intros (p&Hp&Hip). exfalso.
      assert (In p (List.filter is_index (h :: hs))) as Hin by (by apply filter_In). by rewrite Hi in Hin.
    - rewrite <- Hi. by intros [? ?]%filter_In. }
  intros E. assert (In e candidates) as He.
  { assert (match merge_sort (before le) candidates with path :: _ => Ok path | [] => Throw (PlainError "undefined") end = Ok e) as E'.
    { unfold candidates. destruct (List.filter is_index (h :: hs)); [|exact E]. by destruct hs. }
    destruct (merge_sort (before le) candidates) as [|x l] eqn:Hs; [done|]. injection E' as ->.
    apply list_elem_of_In. rewrite <- (merge_sort_Permutation (before le) candidates), Hs. by left. }
  apply Hc in He as [He Hidx]. rewrite <- Hf in He, Hidx. apply filter_In in He as [He1 He2]. split_and!; [done|done|].
  intros p Hp1 Hp2 Hp3. apply Hidx. exists p. split; [|done]. by apply filter_In.
Qed.

Lemma through_gt_text s t r : through_gt s = Some (t, r) → s = t +:+ r.
Proof.
  revert t r. induction s as [|c s IH]; intros t r; cbn [through_gt]; [done|].
  destruct (Ascii.eqb_spec c ">") as [->|]; [by intros [= <- <-]|].
  intros ([t' r']&Ht&[= <- <-])%bind_Some. by rewrite (IH t' r').
Qed.
Lemma strip_ci_text w s r : strip_ci w s = Some r → s = String.substring 0 (String.length w) s +:+ r.
Proof.
  revert s r. induction w as [|a w IH]; intros s r; [intros [= ->]; by destruct r|].
  destruct s as [|b s]; [done|]. cbn [strip_ci]. destruct (Ascii.eqb a (ascii_lower b)); [|done].
  intros H. cbn [String.length String.substring]. rewrite str_app_cons. f_equal. by apply IH.
Qed.
Lemma match_head_text s h r : match_head s = Some (h, r) → s = h +:+ r.
Proof.
  unfold match_head. intros (r1&H1&H2)%bind_Some. apply strip_ci_text in H1. destruct r1 as [|c r1]; [done|].
  destruct (_ || _); [|done]. apply bind_Some in H2 as ([t r2]&Ht%through_gt_text&[= <- <-]).
  rewrite H1 at 1. rewrite Ht. by rewrite str_app_assoc.
Qed.
Lemma insert_after_head_text c s t : insert_after_head c s = Some t → ∃ a b, s = a +:+ b ∧ t = a +:+ (c +:+ b).
Proof.
  revert t. induction s as [|d s IH]; intros t; cbn [insert_after_head]; [by destruct (match_head "") as [[]|] eqn:E|].
  destruct (match_head (String d s)) as [[h r]|] eqn:E; [intros [= <-]; apply match_head_text in E; eauto|].
  intros (t'&Ht&[= <-])%bind_Some. destruct (IH t' Ht) as (a&b&->&->). exists (String d a), b. by rewrite !str_app_cons.
Qed.
Lemma preview_guarded text : ∃ a b, createSandboxPreviewHtml text = a +:+ (csp +:+ b).
Proof.
  unfold createSandboxPreviewHtml. destruct (insert_after_head csp text) as [t|] eqn:E.
  - apply insert_after_head_text in E as (a&b&_&->). eauto.
  - by eexists _, _.
Qed.

(** C30. An imported template comes from an archive within its limits and what it
    refers to is contained, as far as the import looks. The archive has at most
    5 MiB; every name in its directory goes down only; its files (the entries that
    are neither folders nor metadata) number 1 to 80, none is an archive or has a
    suspicious ratio, and they declare at most 8 MiB each and 15 MiB together
    (declared: the bytes a file gives are not counted). The paths of the files come
    from names of the directory and differ also when case is ignored; the page is
    one of them, an index page if there is one. The stored text has at most a
    million characters and is the serialization of a document made from that page,
    in which no element that a selector sees is a script, a frame, an object, a
    form or a base, refreshes the page, has a handler, a [srcdoc] or a [srcset],
    or links a style sheet; the [src] of every image is a data URI or an
    attachment, every anchor goes to http, https, mailto, tel or within the page
    and has the [rel] that cuts it off; and if no element of the page had both a
    [src] and a [background], every background is a data URI or an attachment. The
    preview has the policy in it. Not contained are the [background] beside a
    [src], the [href] of elements other than anchors, the content of [template]
    elements ([ZipDemo.leftovers_stay]) and imports in a style sheet that the
    pattern misses ([ZipDemo.import_survives]). *)
Theorem imported_template_is_contained `{ZipLaws} `{HtmlLaws} fold collates units name size data t :
  importEmailTemplateZip fold collates units name size data = Ok t →
  size <= MAX_ZIP_BYTES ∧ Z.of_nat (length data) <= MAX_ZIP_BYTES
  ∧ ∃ entries files raw document,
    zip_open data = Directory entries ∧ Forall safe_name entries
    ∧ (let declared := List.filter is_file entries in
       Z.of_nat (length declared) <= MAX_FILE_COUNT ∧ Forall moderate declared
       ∧ total (map en_originalSize declared) <= MAX_EXPANDED_BYTES
       ∧ (length files <= length declared)%nat ∧ Forall (named (map en_name declared)) (JMap.keys files))
    ∧ unzipArchive fold data = Ok files ∧ 1 <= Z.of_nat (length files) ∧ file_count t = Z.of_nat (length files)
    ∧ Forall safe_path (JMap.keys files) ∧ List.NoDup (map fold (JMap.keys files))
    ∧ file_names t ≡ₚ JMap.keys files
    ∧ is_html (entryPath t) = true ∧ JMap.get files (entryPath t) ≫= TextDecoder_decode = Some raw
    ∧ (∀ p, In p (JMap.keys files) → is_html p = true → is_index p = true → is_index (entryPath t) = true)
    ∧ html t = "<!doctype html>" +:+ newline +:+ outerHTML document ∧ js_length (html t) <= MAX_FINAL_HTML_CHARS
    ∧ every contained document
    ∧ (every one_address (parseFromString raw) → every inner_background document)
    ∧ ∃ a b, previewHtml t = a +:+ (csp +:+ b).
Proof.
  unfold importEmailTemplateZip, importEmailTemplateZipBytes. destruct (negb _); [done|]. intros E.
  destruct (Z.ltb_spec MAX_ZIP_BYTES size); [done|]. simpl in E. destruct (Z.ltb_spec MAX_ZIP_BYTES (Z.of_nat (length data))); [done|].
  apply outcome_bind_ok in E as (files&Hf&E). destruct (Nat.eqb_spec (length files) 0) as [|Hne]; [done|].
  apply outcome_bind_ok in E as (entry&Hp&E). destruct (_ ≫= TextDecoder_decode) as [raw|] eqn:Hraw; [|done].
  apply outcome_bind_ok in E as ([text warned]&Hb&E). destruct (Z.ltb_spec MAX_FINAL_HTML_CHARS (js_length text)); [done|].
  injection E as <-. apply unzip_spec in Hf as Hspec; [|done]. destruct Hspec as (entries&L1&L2&L3&L4&L5).
  apply pick_entry in Hp as (P1&P2&P3).
  assert (∀ x, In x (merge_sort (units_before units) (JMap.keys files)) ↔ In x (JMap.keys files)) as Hsort.
  { intros x. rewrite <- !list_elem_of_In. by rewrite merge_sort_Permutation. }
  unfold buildStandaloneHtml in Hb. destruct (hasUnsafeEmailMarkup raw); [done|].
  destruct (html_root raw) as (attrs&content&kids&Hr). rewrite Hr in Hb.
  destruct (build_document _ _ _ _) as [[document|e] w'] eqn:Hd; [|done]. injection Hb as <- <-.
  pose proof (build_backgrounds _ _ _ _ _ _ _ _ Hd) as Hbg. apply build_contained in Hd.
  split; [done|]. split; [done|]. exists entries, files, raw, document. rewrite Hr. simpl.
  repeat (split; [try done; try lia|]); [apply merge_sort_Permutation|intros p Hp; apply P3; by apply Hsort|apply preview_guarded].
Qed.

(** ** An archive with a page, a style sheet and an image *)

Module ZipDemo.
Definition contents : list (string * string) :=
  [("mail/index.html", "<p>Hello</p>"); ("mail/css/site.css", "@import 'x.css'; p { background: url( 'dot.png' ) } a { background: url(//cdn/x.png) }");
   ("mail/css/dot.png", "PNG"); ("mail/logo.png", "LOGO")].
(** the size that is declared for the logo is not the size it has *)
Definition declared_size (f : string * string) : Z :=
  if String.eqb (fst f) "mail/logo.png" then 1 else Z.of_nat (String.length (snd f)).
Definition directory : list Entry :=
  mkEntry "mail/" 0 0 :: mkEntry "__MACOSX/mail/logo.png" 1 1 :: map (λ f, mkEntry (fst f) 1 (declared_size f)) contents.
#[export] Instance demo_zip : Zip := {
  zip_open data := match data with [] => Corrupt | _ => Directory directory end;
  zip_inflate _ l := Some (map (λ e, (en_name e, bytes_of_string (default "" (JMap.get contents (en_name e))))) l) }.
#[export] Instance demo_zip_laws : ZipLaws.
Proof.
  split.
  - intros [|b data] l; [done|]. intros [= <-]. repeat (constructor; [by vm_compute|]). constructor.
  - intros data l fs [= <-]. exists l. split; [done|]. by rewrite map_map.
Qed.

Definition page : dom :=
  Element "html" [] [] [
    Element "head" [] [] [Element "link" [("rel", "StyleSheet"); ("href", "css/site.css")] [] []; Element "script" [] [] [Text "x()"]];
    Element "body" [("onload", "x()")] [] [
      Element "img" [("src", "logo.png"); ("srcset", "http://cdn/2x.png 2x")] [] []; Element "img" [("src", "http://t/1.gif")] [] [];
      Element "a" [("href", "https://example.org"); ("target", "_blank")] [] [Text "Go"]; Element "a" [("href", "file:///etc")] [] []]].
Fixpoint print (n : dom) : string :=
  match n with
  | Text t => t
  | Comment _ => ""
  | Element tag attrs _ kids =>
      "<" +:+ tag +:+ String.concat "" (map (λ a, " " +:+ fst a +:+ "='" +:+ snd a +:+ "'") attrs) +:+ ">"
      +:+ String.concat "" (map print kids) +:+ "</" +:+ tag +:+ ">"
  end.
#[export] Instance demo_html : Html := { parseFromString _ := page; outerHTML := print }.
#[export] Instance demo_html_laws : HtmlLaws.
Proof. split. intros t. by eexists _, _, _. Qed.

Definition import (name : string) : outcome ImportedEmailTemplate :=
  importEmailTemplateZip to_lower String.leb String.leb name 4 [80; 75; 3; 4].
Definition imported_html : string :=
  "<!doctype html>" +:+ newline +:+ "<html><head><meta charset='utf-8'></meta><style> p { background: url(" +:+ quoted "data:image/png;base64,UE5H"
  +:+ ") } a { background: url(" +:+ quoted "" +:+ ") }</style></head><body><img src='data:image/png;base64,TE9HTw=='></img><img></img>"
  +:+ "<a href='https://example.org' target='_blank' rel='noopener noreferrer'>Go</a><a rel='noopener noreferrer'></a></body></html>".
Definition imported : ImportedEmailTemplate :=
  mkImported "mail.ZIP" 4 "mail/index.html" 4 2 imported_html (createSandboxPreviewHtml imported_html)
    ["mail/css/dot.png"; "mail/css/site.css"; "mail/index.html"; "mail/logo.png"]
    [("zip.warning.removedStyleImport", None); ("zip.warning.blockedExternalAssets", None); ("zip.warning.blockedExternalImages", None)].
Lemma import_mail : import "mail.ZIP" = Ok imported.
Proof. vm_compute. reflexivity. Qed.

Lemma imported_template_is_contained_witness :
  import "mail.ZIP" = Ok imported
  ∧ (∃ document, html imported = "<!doctype html>" +:+ newline +:+ outerHTML document ∧ every contained document)
  ∧ import "mail.tar" = Throw (archiveError "zip.selectZip").
Proof.
  split_and!; [exact import_mail| |vm_compute; reflexivity].
  destruct (imported_template_is_contained to_lower String.leb String.leb "mail.ZIP" 4 [80; 75; 3; 4] imported import_mail)
    as (_&_&entries&files&raw&document&_&_&_&_&_&_&_&_&_&_&_&_&H1&_&H2&_).
  exists document. split; [exact H1|exact H2].
Defined.

(** Removing imports once leaves those that appear when others are removed, and
    those without a space before the address. *)
Lemma import_survives :
  fst (rewriteCssAssets [] "@im@import x;port 'http://t/a.css';" "index.html" []) = Ok "@import 'http://t/a.css';"
  ∧ fst (rewriteCssAssets [] "@import'http://t/a.css';" "index.html" []) = Ok "@import'http://t/a.css';".
Proof. split; vm_compute; reflexivity. Qed.

(** A background beside a source, the address of an area and the content of a
    [template] stay as they are, whatever they refer to. *)
Definition leftovers : dom :=
  Element "html" [] [] [Element "head" [] [] [charset_meta]; Element "body" [] [] [
    Element "td" [("src", "cid:1"); ("background", "http://t/1.gif")] [] [];
    Element "area" [("href", "javascript:x()")] [] [];
    Element "template" [] [Element "img" [("src", "http://t/2.gif"); ("onerror", "x()")] [] []] []]].
Lemma leftovers_stay : build_document [] "index.html" leftovers [] = (Ok leftovers, []).
Proof. vm_compute. reflexivity. Qed.

(** A style sheet in a folder cannot name an image beside the folder. *)
Lemma parent_is_blocked : resolveArchiveReference "mail/css/site.css" "../logo.png" = None.
Proof. vm_compute. reflexivity. Qed.
End ZipDemo.
