(* ===== verification/Bundle.v ===== *)
(** * In-app bundles: the compiled document

    [compileBundle] of [apps/api/src/in-app/bundle.ts]: a bundle's files and
    manifest become one HTML document, with every asset inlined and a content
    security policy that names its scripts by their hashes.

    The HTML parser and serializer (parse5), the CSS parsers (postcss and
    postcss-value-parser), [createHash] and Zod's URL check are the
    operations of the class [Web]; a CSS text is seen through what the code asks of it: the
    names of its at-rules, the values of its declarations, and in a value the
    references of its [url()] functions. *)

From Stdlib Require Import Ascii QArith.
From S2P Require Import Prelude JsVal Crypto BranchCondition Json JsonParse Schema BundleFiles.

#[global] Open Scope Z_scope.

(** ** The document *)

Record Attr := mkAttr { at_name : string; at_value : string }.
(** A node of parse5's default tree; [Other] is a comment or a document type. *)
Inductive dom :=
| Root (children : list dom)
| Elem (tagName : string) (attrs : list Attr) (children : list dom)
| Text (value : string)
| Other (nodeName data : string).

Class Web := {
  html_parse : string → dom;
  html_serialize : dom → string;
  CssRoot : Type;
  css_parse : string → option CssRoot;
  at_rules : CssRoot → list string;
  declarations : CssRoot → list string;
  css_print : CssRoot → list string → string;        (** [root.toString()], with these values *)
  value_urls : string → list string;                  (** the contents of the [url()]s of a value *)
  value_print : string → list string → string;       (** the value, with these strings in its [url()]s *)
  sha256_base64 : string → string;
  sha256_hex_of : string → string;
  zod_url : string → bool }.

(** ** The manifest *)

Definition scheme_char (c : ascii) : bool :=
  is_lower c || is_upper c || is_digit c || Ascii.eqb c "+" || Ascii.eqb c "." || Ascii.eqb c "-".
(** what follows the scheme of [/^[a-z][a-z0-9+.-]*:\/\//i] *)
Fixpoint scheme_rest (s : string) : bool :=
  match s with
  | EmptyString => false
  | String c s' => if Ascii.eqb c ":" then starts_with "//" s' else scheme_char c && scheme_rest s'
  end.
Definition has_scheme (s : string) : bool :=
  match s with String c s' => (is_lower c || is_upper c) && scheme_rest s' | EmptyString => false end.
(** [/^(javascript|data|file|content|intent|http):/i] *)
Definition refused_schemes : list string := ["javascript:"; "data:"; "file:"; "content:"; "intent:"; "http:"].
Definition refused_scheme (s : string) : bool := existsb (λ p, starts_with p (to_lower s)) refused_schemes.

Definition word_char (c : ascii) : bool := is_lower c || is_upper c || is_digit c || Ascii.eqb c "_".
(** [/^[a-zA-Z][\w-]{0,63}$/] *)
Definition action_name (s : string) : bool :=
  match s with
  | String c s' => (is_lower c || is_upper c) && str_forallb (λ x, word_char x || Ascii.eqb x "-") s'
                   && Nat.leb (String.length s') 63
  | EmptyString => false
  end.

Section Bundle.
Context `{Web}.

Definition deep_link_url (s : string) : bool :=
  (js_length s <=? 2048) && has_scheme s && negb (refused_scheme s).
Definition open_url_ok (s : string) : bool :=
  zod_url s && (js_length s <=? 2048) && starts_with "https://" s.

Definition actionSchema : Schema := s_discriminated "type"
  [("dismiss", s_object true [("type", s_literal "dismiss")]);
   ("deep_link", s_object true [("type", s_literal "deep_link"); ("url", s_check (string_check deep_link_url))]);
   ("open_url", s_object true [("type", s_literal "open_url"); ("url", s_check (string_check open_url_ok))]);
   ("copy", s_object true [("type", s_literal "copy"); ("text", s_string 0 1000)])].

(** [z.record(z.string().regex(...), actionSchema).refine((v) => Object.keys(v).length <= 20)] *)
Definition actions_ok (v : jsval) : bool :=
  match v with
  | JObj fields => forallb (λ p, action_name (fst p)) fields && Nat.leb (length fields) 20
  | _ => false
  end.
(** [z.number().min(0).max(0.7)] *)
Definition opacity : jsval → bool := λ v,
  match v with JNum n => num_leb (NInt 0) n && num_leb n (NFin (7 # 10)) | _ => false end.
Definition displaySchema : Schema := s_object false
  [("type", s_default (s_enum ["modal"; "fullscreen"; "bottom"; "transparent"]) (JStr "modal"));
   ("backdrop_opacity", s_default (s_check opacity) (JNum (NFin (4 # 10))))].
Definition manifestSchema : Schema := s_object true
  [("format_version", s_default (s_numbers [1]) (JNum (NInt 1)));
   ("entrypoint", s_default (s_literal "index.html") (JStr "index.html"));
   ("bridge_version", s_default (s_numbers [1]) (JNum (NInt 1)));
   ("display", s_default displaySchema (JObj []));
   ("actions", s_default (s_refine (s_record actionSchema) actions_ok) (JObj []))].

(** ** References *)

(** [posix.dirname] of a relative path *)
Definition dirname (p : string) : string :=
  match split_on "/" p with
  | [_] => "."
  | parts => join "/" (removelast parts)
  end.
(** One component of [posix.normalize]; [out] is the path so far, reversed. *)
Definition normal_step (out : list string) (part : string) : list string :=
  if String.eqb part "" || String.eqb part "." then out
  else if String.eqb part ".." then
    match out with
    | [] => [".."]
    | top :: rest => if String.eqb top ".." then ".." :: out else rest
    end
  else part :: out.
(** [posix.normalize] of a relative path *)
Definition normalize (p : string) : string :=
  let out := join "/" (rev (fold_left normal_step (split_on "/" p) [])) in
  let out := if String.eqb out "" then "." else out in
  if ends_with "/" p then out +:+ "/" else out.
(** [posix.join(a, b)] *)
Definition path_join (a b : string) : string := normalize (a +:+ "/" +:+ b).

(** [/[:?#\\%]/] *)
Definition url_char (c : ascii) : bool :=
  Ascii.eqb c ":" || Ascii.eqb c "?" || Ascii.eqb c "#" || Ascii.eqb c "\" || Ascii.eqb c "%".

Section Files.
Context (files : list (string * bytes)).

Definition text (p : string) : outcome string :=
  match JMap.get files p with
  | None => fail "Missing asset"
  | Some b => match TextDecoder_decode b with Some t => Ok t | None => fail "Invalid UTF-8" end
  end.

Definition resolve (ref from : string) : outcome string :=
  _ ← fail_if (String.eqb ref "" || negb (str_forallb (λ c, negb (url_char c)) ref) || starts_with "/" ref)
        "Use relative bundled assets";
  let p := normalize (path_join (dirname from) ref) in
  _ ← safePath p;
  _ ← fail_if (negb (JMap.has files p)) "Missing asset";
  mret p.

Definition asset_types : list string := ["png"; "jpg"; "jpeg"; "webp"; "gif"; "woff2"].
Definition data_uri (ref from : string) : outcome string :=
  p ← resolve ref from;
  let ext := extension p in
  _ ← fail_if (negb (String_in ext asset_types)) "Invalid image/font";
  mret ("data:" +:+ default "" (JMap.get types ext) +:+ ";base64," +:+ base64_encode (default [] (JMap.get files p))).

(** the reference without a quote at either end *)
Definition is_quote (c : ascii) : bool := (byte c =? 34) || (byte c =? 39).
Fixpoint drop_last_quote (s : string) : string :=
  match s with
  | EmptyString => EmptyString
  | String c EmptyString => if is_quote c then EmptyString else s
  | String c s' => String c (drop_last_quote s')
  end.
Definition unquote (s : string) : string :=
  match s with String c s' => if is_quote c then drop_last_quote s' else drop_last_quote s | EmptyString => EmptyString end.

Fixpoint oforeach {A B} (f : A → outcome B) (l : list A) : outcome (list B) :=
  match l with [] => mret [] | x :: l => y ← f x; k ← oforeach f l; mret (y :: k) end.

(** [css(content, from)] *)
Definition css (content from : string) : outcome string :=
  match css_parse content with
  | None => fail "Invalid CSS"
  | Some root =>
      _ ← fail_if (existsb (λ name, String.eqb (to_lower name) "import") (at_rules root)) "Bundle CSS locally";
      values ← oforeach (λ value,
          urls ← oforeach (λ ref, data_uri (unquote ref) from) (value_urls value);
          mret (value_print value urls)) (declarations root);
      mret (css_print root values)
  end.

(** ** Scripts *)

(** [/<\/script/i] *)
Fixpoint contains (p s : string) : bool :=
  starts_with p s || match s with EmptyString => false | String _ s' => contains p s' end.
(** what may follow [import]: white space, then a quote, a parenthesis, a brace or a star *)
Definition import_follows (s : string) : bool :=
  match trim_start s with String c _ => is_quote c || Ascii.eqb c "(" || Ascii.eqb c "{" || Ascii.eqb c "*" | EmptyString => false end.
(** [word]: the character before is a word character *)
Fixpoint has_import (word : bool) (s : string) : bool :=
  negb word && starts_with "import" s && import_follows (String.substring 6 (String.length s - 6) s)
  || match s with EmptyString => false | String c s' => has_import (word_char c) s' end.

(** The hashes of the scripts, in the order they are met *)
Definition V : Type → Type := M (list string).
Definition lift {A} (r : outcome A) : V A := λ s, (r, s).

Definition checkJs (js : string) : V string :=
  _ ← lift (fail_if (contains "</script" (to_lower js) || has_import false js)
        "ES modules/dynamic import are not supported; use a classic bundle");
  _ ← modify (λ hashes, hashes ++ ["'sha256-" +:+ sha256_base64 js +:+ "'"]);
  mret js.

(** ** The visit *)

Definition unsupported_elements : list string :=
  ["iframe"; "frame"; "frameset"; "object"; "embed"; "base"; "form"; "svg"; "math"; "template"; "video"; "audio"].
Definition unsupported_attributes : list string :=
  ["srcdoc"; "srcset"; "ping"; "action"; "formaction"; "target"; "download"; "nonce"].
(** [/^on/i.test(name)] *)
Definition is_handler (name : string) : bool := starts_with "on" (to_lower name).

Definition find_attr (name : string) (attrs : list Attr) : option string :=
  at_value <$> List.find (λ a, String.eqb (at_name a) name) attrs.

Definition node_text (n : dom) : string := match n with Text v => v | _ => "" end.
(** [el.childNodes.map((n) => ("value" in n ? n.value : "")).join("")] *)
Definition inner_text (children : list dom) : string := join "" (map node_text children).

Definition visit_attr (tag : string) (a : Attr) : outcome Attr :=
  _ ← fail_if (is_handler (at_name a) || String_in (at_name a) unsupported_attributes) "Unsupported attribute";
  value ← (if String.eqb (at_name a) "style" then css (at_value a) "index.html" else mret (at_value a));
  _ ← fail_if (String.eqb (at_name a) "href" && negb (String.eqb tag "link") && negb (starts_with "#" value))
        "Use a registered action for navigation";
  value ← (if String.eqb (at_name a) "src" && negb (String.eqb tag "script")
           then _ ← fail_if (negb (String.eqb tag "img")) "Unsupported src"; data_uri value "index.html"
           else mret value);
  mret (mkAttr (at_name a) value).

Definition visit_checks (tag : string) (attrs : list Attr) : outcome unit :=
  _ ← fail_if (String_in tag unsupported_elements) "Unsupported element";
  _ ← fail_if (String.eqb tag "meta" && existsb (λ a, String.eqb (at_name a) "http-equiv") attrs)
        "http-equiv is managed by NudgeOn";
  fail_if (String.eqb tag "input"
    && existsb (λ a, String.eqb (at_name a) "type" && String.eqb (to_lower (at_value a)) "file") attrs)
    "File inputs are not supported".

(** The element and its text, where [setText] replaced its children *)
Definition visit_element (tag : string) (attrs : list Attr) (children : list dom)
    : V (string * list Attr * option string) :=
  _ ← lift (visit_checks tag attrs);
  attrs ← lift (oforeach (visit_attr tag) attrs);
  if String.eqb tag "link" then
    href ← lift (match find_attr "href" attrs with
      | Some href =>
          if bool_decide (find_attr "rel" attrs = Some "stylesheet") && negb (String.eqb href "") then mret href
          else fail "Only bundled stylesheets are supported"
      | None => fail "Only bundled stylesheets are supported"
      end);
    p ← lift (resolve href "index.html");
    sheet ← lift (text p);
    style ← lift (css sheet p);
    mret ("style", [], Some style)
  else if String.eqb tag "style" then
    style ← lift (css (inner_text children) "index.html");
    mret (tag, attrs, Some style)
  else if String.eqb tag "script" then
    _ ← lift (fail_if (existsb (λ a, String.eqb (at_name a) "type"
          && negb (String_in (at_value a) ["text/javascript"; "application/javascript"])) attrs) "Use classic JavaScript");
    js ← lift (match find_attr "src" attrs with
      | Some src => if String.eqb src "" then mret (inner_text children) else p ← resolve src "index.html"; text p
      | None => mret (inner_text children)
      end);
    js ← checkJs js;
    mret (tag, [], Some js)
  else mret (tag, attrs, None).

(** [nodes.forEach(f)], keeping what [f] leaves of each *)
Definition mapV {A B} (f : A → V B) : list A → V (list B) :=
  fix go l := match l with [] => mret [] | x :: l => y ← f x; k ← go l; mret (y :: k) end.

(** [visit]: the document it leaves.  A text that replaced the children is a
    leaf, and visiting it does nothing. *)
Fixpoint visit (n : dom) : V dom :=
  match n with
  | Root children =>
      children ← mapV visit children;
      mret (Root children)
  | Elem tag attrs children =>
      e ← visit_element tag attrs children;
      match e with
      | (tag, attrs, Some t) => mret (Elem tag attrs [Text t])
      | (tag, attrs, None) =>
          children ← mapV visit children;
          mret (Elem tag attrs children)
      end
  | Text _ | Other _ _ => mret n
  end.
End Files.

(** ** The bundle *)

Record Artifact := mkArtifact {
  html : string; manifest : jsval; artifact_sha256 : string; source_bytes : Z; artifact_files : list SourceFile }.

Definition policy (hashes : list string) : string :=
  "default-src 'none'; script-src " +:+ join " " hashes
  +:+ "; style-src 'unsafe-inline'; img-src data:; font-src data:; connect-src 'none'; frame-src 'none'; worker-src 'none'; object-src 'none'; base-uri 'none'; form-action 'none'".
Definition dq : string := String "034" EmptyString.
Definition head_with_policy (hashes : list string) : string :=
  "<head><meta http-equiv=" +:+ dq +:+ "Content-Security-Policy" +:+ dq +:+ " content=" +:+ dq +:+ policy hashes +:+ dq
  +:+ "><meta name=" +:+ dq +:+ "referrer" +:+ dq +:+ " content=" +:+ dq +:+ "no-referrer" +:+ dq
  +:+ "><script>" +:+ bridgeBootstrap +:+ "</script>".

(** [s.replace(p, r)]: the first occurrence ([r] has no [$]) *)
Fixpoint replace_first (p r s : string) : string :=
  if starts_with p s then r +:+ String.substring (String.length p) (String.length s - String.length p) s
  else match s with EmptyString => EmptyString | String c s' => String c (replace_first p r s') end.

Definition manifest_of (files : list (string * bytes)) (manifestInput : jsval) : outcome jsval :=
  input ← (if is_nullish manifestInput then
      (if JMap.has files "nudgeon.json" then
         match text files "nudgeon.json" with
         | Ok t => match JSON_parse t with Some v => Ok v | None => fail "Invalid nudgeon.json or action settings" end
         | Throw _ => fail "Invalid nudgeon.json or action settings"
         end
       else Ok (JObj []))
    else Ok manifestInput);
  match manifestSchema input with Some m => Ok m | None => fail "Invalid nudgeon.json or action settings" end.

(** the document and the hashes of its scripts, the bridge last *)
Definition compile_document (files : list (string * bytes)) : V dom :=
  source ← lift (text files "index.html");
  doc ← visit files (html_parse source);
  _ ← checkJs bridgeBootstrap;
  mret doc.

Definition compileBundle (source : list SourceFile) (manifestInput : jsval) : outcome Artifact :=
  _ ← fail_if (Nat.eqb (length source) 0 || (200 <? Z.of_nat (length source))) "Use 1–200 files";
  st ← load_files (mkLoaded [] [] 0) source;
  m ← manifest_of (ld_files st) manifestInput;
  match compile_document (ld_files st) [] with
  | (Throw e, _) => Throw e
  | (Ok doc, hashes) =>
      let html := replace_first "<head>" (head_with_policy hashes) (html_serialize doc) in
      _ ← fail_if (MAX_TOTAL <? byte_length html) "Compiled document exceeds 30 MiB";
      mret (mkArtifact html m (sha256_hex_of html) (ld_total st) source)
  end.

(** The worker: an upload gives its files, or an archive. *)
Definition validate_worker (unzip : bytes → list ZipEvent * option exn) (files : option (list SourceFile))
    (archive_base64 : string) (manifestInput : jsval) : outcome Artifact :=
  source ← match files with
           | Some files => Ok files
           | None => unpackArchive unzip (base64_decode archive_base64)
           end;
  compileBundle source manifestInput.
End Bundle.
