(* ===== verification/BundleProps.v ===== *)
(** * In-app bundles: what an accepted bundle is

    [unpackArchive] stays within its limits whatever the inflater reports, and
    every node of a document [compileBundle] accepts is free of what the code
    refuses: the policy's hashes are those of its scripts, its images are files
    of the bundle.  The policy itself is put in front of the first [<head>] of
    the text, which need not be the document's. *)

From Stdlib Require Import Ascii QArith.
From S2P Require Import Prelude JsVal Crypto BranchCondition Json JsonParse Schema BundleFiles Bundle.

#[global] Open Scope Z_scope.

(** ** Archives *)

Definition sumZ (l : list Z) : Z := fold_right Z.add 0 l.

Lemma sumZ_nonneg l : Forall (λ x, 0 <= x) l → 0 <= sumZ l.
Proof. induction 1; simpl; lia. Qed.
Lemma sumZ_app l k : sumZ (l ++ k) = sumZ l + sumZ k.
Proof. induction l as [|x l IH]; simpl; [done|]. rewrite IH. lia. Qed.
Lemma sumZ_insert l i x y : l !! i = Some x → sumZ (<[i := y]> l) = sumZ l - x + y.
Proof. revert i. induction l as [|z l IH]; intros [|i]; simpl; [done|done|intros [= ->]; lia|]. intros H. rewrite (IH _ H). lia. Qed.

(** Values at distinct places add up to at most the sum of the list. *)
Lemma sumZ_places l idx xs :
  Forall (λ x, 0 <= x) l → List.NoDup idx → Forall2 (λ i x, ∃ y, l !! i = Some y ∧ x <= y) idx xs → sumZ xs <= sumZ l.
Proof.
  revert l xs. induction idx as [|i idx IH]; intros l xs Hl Hnd H; inversion H as [|? x ? xs' (y&Hy&Hxy) H']; simplify_eq; simpl.
  - by apply sumZ_nonneg.
  - clear H. rename H' into H, xs' into xs. apply NoDup_cons_iff in Hnd as [Hi Hnd]. pose proof (sumZ_insert l i y 0 Hy) as Hs.
    assert (sumZ xs <= sumZ (<[i := 0]> l)); [|lia]. apply IH; [by apply Forall_insert|done|].
    clear -H Hi. induction H as [|j z idx xs (w&Hw&Hz) H IH]; constructor.
    + exists w. split; [|done]. rewrite list_lookup_insert_ne; [done|]. intros ->. apply Hi. by left.
    + apply IH. intros Hin. apply Hi. by right.
Qed.

(** the files whose last chunk was reported *)
Definition finals (l : list ZipEvent) : list nat :=
  omap (λ e, match e with ZData f _ true => Some f | _ => None end) l.

(** a name that stays below the bundle's directory *)
Definition below (p : string) : Prop :=
  starts_with "/" p = false ∧ js_length p <= 200
  ∧ ∀ part, In part (split_on "/" p) → part ≠ "" ∧ part ≠ "." ∧ part ≠ "..".

Lemma safePath_below p q : safePath p = Ok q → q = p ∧ below p ∧ has_type (extension p) = true.
Proof.
  unfold safePath. intros ([]&H1%fail_if_ok&([]&H2%fail_if_ok&[= <-])%outcome_bind_ok)%outcome_bind_ok.
  apply orb_false_iff in H1 as [H1 Hlen]. apply orb_false_iff in H1 as [H1 Hparts]. apply orb_false_iff in H1 as [_ Hs].
  apply negb_false_iff in H2. split_and!; [done| |done]. split; [done|]. split; [by apply Z.ltb_ge|].
  intros part Hin. pose proof (existsb_fresh _ _ Hparts _ Hin) as Hb. unfold bad_part in Hb. b2p. done.
Qed.

Definition opened_size (o : option OpenFile) : Z :=
  match o with Some f => Z.of_nat (length (of_chunks f)) | None => 0 end.
(** [src] holds a beginning [data] of what was received for the [i]-th file. *)
Definition snapshot (opened : list (option OpenFile)) (i : nat) (src : SourceFile) (data : bytes) : Prop :=
  ∃ f rest, opened !! i = Some (Some f) ∧ path src = of_name f ∧ base64 src = base64_encode data ∧ of_chunks f = data ++ rest.

Record unpacked_ok (ended : list nat) (st : Unpacking) : Prop := {
  un_total : up_total st = sumZ (map opened_size (up_opened st));
  un_max : up_total st <= MAX_TOTAL;
  un_count : (length (up_opened st) <= 200)%nat;
  un_names : ∀ f, In (Some f) (up_opened st) → below (of_name f) ∧ has_type (extension (of_name f)) = true;
  un_files : ∃ idx datas, List.NoDup idx ∧ (∀ i, In i idx → In i ended)
    ∧ Forall2 (λ i p, snapshot (up_opened st) i (fst p) (snd p) ∧ Z.of_nat (length (snd p)) <= MAX_FILE) idx (combine (up_files st) datas)
    ∧ length datas = length (up_files st) }.

Lemma snapshot_mono opened opened' i src data :
  (∀ f, opened !! i = Some (Some f) → ∃ rest, opened' !! i = Some (Some (mkOpen (of_name f) (of_chunks f ++ rest)))) →
  snapshot opened i src data → snapshot opened' i src data.
Proof.
  intros H (f&rest&Hf&Hp&Hb&Hc). destruct (H f Hf) as [more Hm]. exists (mkOpen (of_name f) (of_chunks f ++ more)), (rest ++ more).
  split_and!; [done|done|done|]. simpl. by rewrite Hc, app_assoc.
Qed.

Lemma combine_snoc {A B} (l : list A) (k : list B) x y :
  length k = length l → combine (l ++ [x]) (k ++ [y]) = combine l k ++ [(x, y)].
Proof. revert k. induction l as [|a l IH]; intros [|b k] H; simpl in *; try done; [lia..|]. rewrite IH; [done|lia]. Qed.

Lemma open_entry_ok ended st name st' : unpacked_ok ended st → open_entry st name = Ok st' → unpacked_ok ended st'.
Proof.
  intros [Ht Hm Hc Hn (idx&datas&Hnd&Hin&Hf&Hl)]. unfold open_entry.
  intros ([]&H1%fail_if_ok&H)%outcome_bind_ok. apply Z.ltb_ge in H1.
  assert (∃ o, st' = mkUnpacking (up_total st) (up_opened st ++ [o]) (up_files st) ∧ opened_size o = 0
    ∧ ∀ f, o = Some f → below (of_name f) ∧ has_type (extension (of_name f)) = true) as (o&->&Ho&Hbelow).
  { destruct (ends_with "/" name).
    - apply outcome_bind_ok in H as ([]&_&[= <-]). by exists None.
    - apply outcome_bind_ok in H as (q&(->&Hb)%safePath_below&[= <-]). eexists. split_and!; [done|done|]. by intros f [= <-]. }
  split; simpl.
  - rewrite map_app, sumZ_app, Ht. simpl. lia.
  - done.
  - rewrite length_app. simpl. lia.
  - intros f [Hf'|[->|[]]]%in_app_iff; [by apply Hn|by apply Hbelow].
  - exists idx, datas. split_and!; [done|done| |done]. eapply Forall2_impl; [exact Hf|]. intros i [src data] [Hs ?].
    split; [|done]. eapply snapshot_mono; [|exact Hs]. intros f Hi. exists []. rewrite app_nil_r.
    rewrite lookup_app_l by (by eapply lookup_lt_Some). rewrite Hi. by destruct f.
Qed.

Lemma receive_ok ended st i data final st' :
  unpacked_ok ended st → (final = true → ¬ In i ended) → receive st i data final = Ok st' →
  unpacked_ok (if final then ended ++ [i] else ended) st'.
Proof.
  intros Hok Hfinal. unfold receive. destruct (up_opened st !! i) as [[f|]|] eqn:Hi.
  2, 3: intros [= <-]; destruct final; [|done]; destruct Hok as [???? (idx&datas&?&Hin&?&?)]; split; try done;
    exists idx, datas; split_and!; try done; intros j Hj; apply in_app_iff; left; by apply Hin.
  destruct Hok as [Ht Hm Hc Hn (idx&datas&Hnd&Hin&Hf&Hl)].
  intros ([]&H1%fail_if_ok&[= <-])%outcome_bind_ok. apply orb_false_iff in H1 as [Hsize%Z.ltb_ge Htot%Z.ltb_ge].
  set (f' := mkOpen (of_name f) (of_chunks f ++ data)).
  assert (∀ j src d, snapshot (up_opened st) j src d → snapshot (<[i := Some f']> (up_opened st)) j src d) as Hmono.
  { intros j src d. apply snapshot_mono. intros g Hg. destruct (decide (j = i)) as [->|Hne].
    - exists data. rewrite list_lookup_insert_eq by (by eapply lookup_lt_Some). by simplify_eq.
    - exists []. rewrite list_lookup_insert_ne by done. rewrite app_nil_r, Hg. by destruct g. }
  assert (Forall2 (λ j p, snapshot (<[i := Some f']> (up_opened st)) j (fst p) (snd p) ∧ Z.of_nat (length (snd p)) <= MAX_FILE)
    idx (combine (up_files st) datas)) as Hf'.
  { eapply Forall2_impl; [exact Hf|]. intros j [src d] [Hs ?]. split; [by apply Hmono|]. done. }
  split; simpl.
  - assert (map opened_size (up_opened st) !! i = Some (Z.of_nat (length (of_chunks f)))) as Hsz
      by (change (map opened_size (up_opened st)) with (opened_size <$> up_opened st); by rewrite list_lookup_fmap, Hi).
    replace (map opened_size (<[i := Some f']> (up_opened st))) with (<[i := opened_size (Some f')]> (map opened_size (up_opened st)))
      by (symmetry; apply (list_fmap_insert opened_size)).
    rewrite (sumZ_insert _ _ _ _ Hsz), Ht. simpl. rewrite length_app. lia.
  - done.
  - by rewrite length_insert.
  - intros g Hg%list_elem_of_In%list_elem_of_lookup. destruct Hg as [j Hj]. destruct (decide (j = i)) as [->|Hne].
    + rewrite list_lookup_insert_eq in Hj by (by eapply lookup_lt_Some). injection Hj as <-. apply (Hn f).
      apply list_elem_of_In. by eapply list_elem_of_lookup_2.
    + rewrite list_lookup_insert_ne in Hj by done. apply Hn. apply list_elem_of_In. by eapply list_elem_of_lookup_2.
  - destruct final; [|by exists idx, datas]. exists (idx ++ [i]), (datas ++ [of_chunks f ++ data]). split_and!.
    + apply List.NoDup_app; [done|repeat constructor; by intros []|]. intros j Hj [<-|[]]. by apply Hfinal; [|apply Hin].
    + intros j [Hj|[<-|[]]]%in_app_iff; apply in_app_iff; [left; by apply Hin|by right; left].
    + rewrite combine_snoc by (by rewrite Hl). apply Forall2_app; [done|]. constructor; [|done]. simpl. split; [|done].
      exists f', []. rewrite list_lookup_insert_eq by (by eapply lookup_lt_Some). split_and!; try done. by rewrite app_nil_r.
    + rewrite !length_app. simpl. lia.
Qed.

Lemma zip_events_ok ended st l st' :
  unpacked_ok ended st → List.NoDup (ended ++ finals l) → zip_events st l = Ok st' → unpacked_ok (ended ++ finals l) st'.
Proof.
  revert ended st. induction l as [|e l IH]; intros ended st Hok Hnd; [intros [= <-]; by rewrite app_nil_r|].
  cbn [zip_events]. intros (st1&H1&H)%outcome_bind_ok. destruct e as [name|i data final|i]; simpl in H1; [| |done].
  - apply (IH ended) in H; [done|by eapply open_entry_ok|done].
  - eapply receive_ok in H1; [|exact Hok|].
    + destruct final; [|by apply (IH ended st1)]. change (finals (ZData i data true :: l)) with ([i] ++ finals l) in *.
      rewrite app_assoc in Hnd |- *. by apply (IH (ended ++ [i]) st1).
    + intros -> Hin. simpl in Hnd. apply NoDup_remove_2 in Hnd. apply Hnd, in_app_iff. by left.
Qed.

(** What the limits give *)
Record unpack_limits (files : list SourceFile) : Prop := {
  ul_some : files ≠ [];
  ul_count : (length files <= 200)%nat;
  ul_paths : ∀ f, In f files → below (path f) ∧ has_type (extension (path f)) = true;
  ul_sizes : ∃ datas, Forall2 (λ f d, base64 f = base64_encode d ∧ Z.of_nat (length d) <= MAX_FILE) files datas
    ∧ sumZ (map (λ d, Z.of_nat (length d)) datas) <= MAX_TOTAL }.

Lemma Forall2_combine {A B C} (R : A → B * C → Prop) idx l k :
  length k = length l → Forall2 R idx (combine l k) → Forall2 (λ x y, ∃ i, In i idx ∧ R i (x, y)) l k.
Proof.
  revert idx k. induction l as [|x l IH]; intros idx [|y k] Hlen; try done. simpl. intros H. inversion H; simplify_eq.
  constructor; [eexists; split; [by left|done]|]. eapply Forall2_impl; [apply (IH l0); [simpl in Hlen; lia|done]|].
  intros ?? (i&?&?). exists i. split; [by right|done].
Qed.
Lemma Forall2_project {A B C} (R : A → B * C → Prop) (Q : A → C → Prop) idx l k :
  (∀ i x y, R i (x, y) → Q i y) → length k = length l → Forall2 R idx (combine l k) → Forall2 Q idx k.
Proof.
  intros HR. revert idx k. induction l as [|x l IH]; intros idx [|y k] Hlen; try done; simpl; intros H; inversion H; simplify_eq; constructor; eauto.
Qed.

Lemma unpacked_limits ended st : unpacked_ok ended st → up_files st ≠ [] → unpack_limits (up_files st).
Proof.
  intros [Ht Hm Hc Hn (idx&datas&Hnd&Hin&Hf&Hl)] Hne.
  assert (∀ i src d, snapshot (up_opened st) i src d → (i < length (up_opened st))%nat) as Hlt.
  { intros i src d (f&_&Hi&_). by eapply lookup_lt_Some. }
  split; [done| | |].
  - pose proof (Forall2_length _ _ _ Hf) as Hlen. rewrite length_combine, Hl, Nat.min_id in Hlen. rewrite <- Hlen.
    assert (length idx <= length (seq 0 (length (up_opened st))))%nat; [|rewrite length_seq in *; lia].
    apply NoDup_incl_length; [done|]. intros i Hi. destruct (Forall2_In_l _ _ _ _ Hf Hi) as ([src d]&_&Hs&_).
    apply in_seq. apply Hlt in Hs. lia.
  - intros f Hfi. pose proof (Forall2_combine _ _ _ _ Hl Hf) as H2. destruct (Forall2_In_l _ _ _ _ H2 Hfi) as (d&_&i&_&Hs&_).
    destruct Hs as (g&rest&Hg&Hp&_). simpl in Hp. rewrite Hp. apply Hn, list_elem_of_In. by eapply list_elem_of_lookup_2.
  - exists datas. split.
    + eapply Forall2_impl; [by eapply Forall2_combine|]. intros f d (i&_&(g&rest&_&_&Hb&_)&Hsz). done.
    + etrans; [|exact Hm]. rewrite Ht. apply (sumZ_places _ idx).
      * apply List.Forall_forall. intros z (o&<-&_)%in_map_iff. destruct o; simpl; lia.
      * done.
      * assert (Forall2 (λ i d, ∃ y, map opened_size (up_opened st) !! i = Some y ∧ Z.of_nat (length d) <= y) idx datas) as H3.
        { eapply Forall2_project; [|exact Hl|exact Hf]. intros i src d [(g&rest&Hg&_&_&Hch) _].
          exists (opened_size (Some g)). split; [|simpl in *; rewrite Hch, length_app; lia].
          change (map opened_size (up_opened st)) with (opened_size <$> up_opened st). by rewrite list_lookup_fmap, Hg. }
        clear -H3. induction H3; simpl; constructor; done.
Qed.

(** Whatever the inflater reports for an archive, as long as it ends each
    file once, [unpackArchive] returns at least one and at most 200 files, with
    relative names that stay in the bundle and have an extension [types] answers for, of at
    most 8 MiB each and 30 MiB together, out of an archive of at most 10 MiB. *)
Theorem unpack_bounded unzip b files :
  List.NoDup (finals (unzip b).1) → unpackArchive unzip b = Ok files →
  Z.of_nat (length b) <= MAX_ARCHIVE ∧ unpack_limits files.
Proof.
  intros Hnd ([]&Hins&(st&Hst&([]&_&([]&Hf%fail_if_ok&[= <-])%outcome_bind_ok)%outcome_bind_ok)%outcome_bind_ok)%outcome_bind_ok.
  apply outcome_bind_ok in Hins as ([]&Hsize%fail_if_ok&_). apply Z.ltb_ge in Hsize. split; [done|].
  apply (zip_events_ok []) in Hst; [|by split; [|simpl; unfold MAX_TOTAL; lia|simpl; lia|intros ? []|exists [], []; split_and!; [constructor|done|constructor|done]]|done].
  apply (unpacked_limits _ _ Hst). intros E. by rewrite E in Hf.
Qed.

(** ** Documents *)

Section dom_nested.
Context (P : dom → Prop).
Context (Hroot : ∀ c, Forall P c → P (Root c)) (Helem : ∀ tag attrs c, Forall P c → P (Elem tag attrs c)).
Context (Htext : ∀ v, P (Text v)) (Hother : ∀ n d, P (Other n d)).
Fixpoint dom_nested_ind (n : dom) : P n :=
  let all := fix go (l : list dom) : Forall P l :=
    match l with [] => Forall_nil_2 _ | x :: l => Forall_cons_2 _ _ _ (dom_nested_ind x) (go l) end in
  match n with
  | Root c => Hroot c (all c)
  | Elem tag attrs c => Helem tag attrs c (all c)
  | Text v => Htext v
  | Other k d => Hother k d
  end.
End dom_nested.

Section Document.
Context `{Web} (files : list (string * bytes)).

Definition script_hash (js : string) : string := "'sha256-" +:+ sha256_base64 js +:+ "'".
(** a [data:] URI of a file of the bundle *)
Definition bundled (value : string) : Prop :=
  ∃ p data, JMap.get files p = Some data ∧ In (extension p) asset_types
    ∧ value = "data:" +:+ default "" (JMap.get types (extension p)) +:+ ";base64," +:+ base64_encode data.

Record attr_ok (tag : string) (a : Attr) : Prop := {
  ao_handler : is_handler (at_name a) = false;
  ao_name : ¬ In (at_name a) unsupported_attributes;
  ao_href : at_name a = "href" → tag ≠ "link" → starts_with "#" (at_value a) = true;
  ao_src : at_name a = "src" → tag ≠ "script" → tag = "img" ∧ bundled (at_value a);
  ao_style : at_name a = "style" → ∃ content, css files content "index.html" = Ok (at_value a) }.

Record element_ok (hashes : list string) (tag : string) (attrs : list Attr) (children : list dom) : Prop := {
  eo_tag : ¬ In tag unsupported_elements ∧ tag ≠ "link";
  eo_attrs : Forall (attr_ok tag) attrs;
  eo_meta : tag = "meta" → ∀ a, In a attrs → at_name a ≠ "http-equiv";
  eo_script : tag = "script" → attrs = []
    ∧ ∃ js, children = [Text js] ∧ In (script_hash js) hashes ∧ contains "</script" (to_lower js) = false;
  eo_style : tag = "style" → ∃ content from style, css files content from = Ok style ∧ children = [Text style] }.

(** Every element of the document is allowed, and [hashes] has every script's. *)
Inductive allowed (hashes : list string) : dom → Prop :=
| allowed_root c : Forall (allowed hashes) c → allowed hashes (Root c)
| allowed_elem tag attrs c : element_ok hashes tag attrs c → Forall (allowed hashes) c → allowed hashes (Elem tag attrs c)
| allowed_text v : allowed hashes (Text v)
| allowed_other n d : allowed hashes (Other n d).

Lemma element_ok_mono hs more tag attrs c : element_ok hs tag attrs c → element_ok (hs ++ more) tag attrs c.
Proof.
  intros []. split; try done. intros E. destruct (eo_script0 E) as (?&js&?&?&?). split; [done|].
  exists js. split_and!; [done|apply in_app_iff; by left|done].
Qed.

Lemma allowed_mono hs more n : allowed hs n → allowed (hs ++ more) n.
Proof.
  induction n as [c IH|tag attrs c IH|v|k d] using dom_nested_ind; intros Hn; inversion Hn as [? Hc|??? He Hc| |]; subst; constructor;
    [|by apply element_ok_mono|]; apply Forall_forall; intros x Hx; rewrite Forall_forall in IH, Hc; eauto.
Qed.

Lemma data_uri_bundled ref from value : data_uri files ref from = Ok value → bundled value.
Proof.
  unfold data_uri, resolve.
  intros (p&([]&_&(?&_&([]&Hhas%fail_if_ok&[= <-])%outcome_bind_ok)%outcome_bind_ok)%outcome_bind_ok&([]&Hext%fail_if_ok&[= <-])%outcome_bind_ok)%outcome_bind_ok.
  set (q := normalize _) in *. clearbody q. apply negb_false_iff in Hhas. apply negb_false_iff, String_in_spec in Hext.
  unfold JMap.has in Hhas. destruct (JMap.get files q) as [d|] eqn:Ed; [|done]. exists q, d. by split_and!.
Qed.

Lemma visit_attr_ok tag a b :
  visit_attr files tag a = Ok b → attr_ok tag b ∧ at_name b = at_name a.
Proof.
  unfold visit_attr. intros ([]&H1%fail_if_ok&(v1&Hstyle&([]&Hhref%fail_if_ok&(v2&Hsrc&[= <-])%outcome_bind_ok)%outcome_bind_ok)%outcome_bind_ok)%outcome_bind_ok.
  apply orb_false_iff in H1 as [Hh Hn]. apply String_in_false in Hn. split; [|done].
  assert (at_name a ≠ "src" → v2 = v1) as Hv2.
  { intros Hne%String.eqb_neq. rewrite Hne in Hsrc. by injection Hsrc as <-. }
  split; simpl; [done|done| | |].
  - intros E Hl%String.eqb_neq. rewrite Hv2 by (rewrite E; done). rewrite E, Hl in Hhref. simpl in Hhref. by apply negb_false_iff in Hhref.
  - intros E Hs%String.eqb_neq. rewrite E, Hs in Hsrc. simpl in Hsrc. apply outcome_bind_ok in Hsrc as ([]&Himg%fail_if_ok&Hd).
    apply negb_false_iff, String.eqb_eq in Himg. split; [done|]. by eapply data_uri_bundled.
  - intros E. rewrite Hv2 by (rewrite E; done). rewrite E in Hstyle. simpl in Hstyle. eauto.
Qed.

Lemma oforeach_ok {A B} (f : A → outcome B) l k : oforeach f l = Ok k → Forall2 (λ x y, f x = Ok y) l k.
Proof.
  revert k. induction l as [|x l IH]; intros k; [by intros [= <-]|].
  cbn [oforeach]. intros (y&Hy&(k'&Hk&[= <-])%outcome_bind_ok)%outcome_bind_ok. constructor; auto.
Qed.

Lemma lift_ok {A} (r : outcome A) a (s s' : list string) : lift r s = (Ok a, s') → r = Ok a ∧ s' = s.
Proof. unfold lift. by intros [= -> ->]. Qed.

Lemma visit_checks_ok tag attrs u :
  visit_checks tag attrs = Ok u → ¬ In tag unsupported_elements ∧ (tag = "meta" → ∀ a, In a attrs → at_name a ≠ "http-equiv").
Proof.
  unfold visit_checks. intros ([]&H1%fail_if_ok&([]&H2%fail_if_ok&_)%outcome_bind_ok)%outcome_bind_ok.
  apply String_in_false in H1. split; [done|]. intros ->. change (String.eqb "meta" "meta") with true in H2. simpl in H2.
  intros a Ha. pose proof (existsb_fresh _ _ H2 a Ha) as E. simpl in E. by apply String.eqb_neq.
Qed.

Lemma checkJs_ok js js' hs hs' :
  checkJs js hs = (Ok js', hs') → js' = js ∧ hs' = hs ++ [script_hash js] ∧ contains "</script" (to_lower js) = false.
Proof.
  unfold checkJs. intros ([]&s1&(H1%fail_if_ok&->)%lift_ok&([]&s2&[= <-]&[= <- <-])%bind_ok)%bind_ok.
  apply orb_false_iff in H1 as [H1 _]. done.
Qed.

Lemma visit_element_ok tag attrs children hs hs' tag' attrs' t :
  visit_element files tag attrs children hs = (Ok (tag', attrs', t), hs') →
  (∃ more, hs' = hs ++ more) ∧ ∀ children', (∀ v, t = Some v → children' = [Text v]) → element_ok hs' tag' attrs' children'.
Proof.
  unfold visit_element. intros ([]&s1&([Htag Hmeta]%visit_checks_ok&->)%lift_ok&(as1&s2&(Ha%oforeach_ok&->)%lift_ok&HE)%bind_ok)%bind_ok.
  assert (Forall (attr_ok tag) as1) as Hattrs.
  { clear -Ha. induction Ha as [|a b l k Hab _ IH]; constructor; [|done]. by apply visit_attr_ok in Hab as [? _]. }
  assert (tag = "meta" → ∀ a, In a as1 → at_name a ≠ "http-equiv") as Hmeta'.
  { intros E b Hb. destruct (Forall2_In_r _ _ _ _ Ha Hb) as (a&Hin&Hab). apply visit_attr_ok in Hab as [_ ->]. by apply Hmeta. }
  destruct (String.eqb tag "link") eqn:El; [|destruct (String.eqb tag "style") eqn:Es; [|destruct (String.eqb tag "script") eqn:Ec]]; b2p.
  - apply bind_ok in HE as (href&s1&(_&->)%lift_ok&HE). apply bind_ok in HE as (p&s1&(_&->)%lift_ok&HE).
    apply bind_ok in HE as (sheet&s1&(_&->)%lift_ok&HE). apply bind_ok in HE as (style&s1&(Hcss&->)%lift_ok&[= <- <- <- <-]).
    split; [exists []; by rewrite app_nil_r|]. intros c' Hc. split; try done.
    + split; [|done]. by intros Hin%String_in_spec.
    + intros _. exists sheet, p, style. split; [done|]. by apply Hc.
  - apply bind_ok in HE as (style&s1&(Hcss&->)%lift_ok&[= <- <- <- <-]). subst tag.
    split; [exists []; by rewrite app_nil_r|]. intros c' Hc. split; try done. intros _. eexists _, _, style. split; [exact Hcss|by apply Hc].
  - apply bind_ok in HE as ([]&s1&(_&->)%lift_ok&HE). apply bind_ok in HE as (js&s1&(_&->)%lift_ok&HE).
    apply bind_ok in HE as (js'&s1&(->&->&Hjs)%checkJs_ok&[= <- <- <- <-]). subst tag.
    split; [by eexists|]. intros c' Hc. split; try done. intros _. split; [done|]. exists js.
    split_and!; [by apply Hc|apply in_app_iff; right; by left|done].
  - injection HE as <- <- <- <-. split; [exists []; by rewrite app_nil_r|]. by intros c' _.
Qed.

Lemma visit_allowed n hs n' hs' :
  visit files n hs = (Ok n', hs') → (∃ more, hs' = hs ++ more) ∧ allowed hs' n'.
Proof.
  revert hs n' hs'. 
  assert (∀ c, Forall (λ n, ∀ hs n' hs', visit files n hs = (Ok n', hs') → (∃ more, hs' = hs ++ more) ∧ allowed hs' n') c →
    ∀ hs c' hs', mapV (visit files) c hs = (Ok c', hs') → (∃ more, hs' = hs ++ more) ∧ Forall (allowed hs') c') as Hall.
  { induction 1 as [|x c Hx Hc IH]; intros hs c' hs'.
    - intros [= <- <-]. split; [exists []; by rewrite app_nil_r|done].
    - cbn [mapV]. intros (y&s1&([m1 ->]&Hy)%Hx&(k&s2&([m2 ->]&Hk)%IH&[= <- <-])%bind_ok)%bind_ok.
      split; [exists (m1 ++ m2); by rewrite app_assoc|]. constructor; [by apply allowed_mono|done]. }
  induction n as [c IH|tag attrs c IH|v|k d] using dom_nested_ind; intros hs n' hs'; cbn [visit].
  - intros (c'&s1&(Hm&Hc)%(Hall _ IH)&[= <- <-])%bind_ok. split; [done|by constructor].
  - intros ([[tag' attrs'] t]&s1&([m1 ->]&He)%visit_element_ok&HE)%bind_ok. destruct t as [t|].
    + injection HE as <- <-. split; [by eexists|]. constructor; [|repeat constructor]. apply He. by intros v [= <-].
    + apply bind_ok in HE as (c'&s2&([m2 ->]&Hc)%(Hall _ IH)&[= <- <-]). split; [exists (m1 ++ m2); by rewrite app_assoc|].
      constructor; [|done]. apply element_ok_mono, He. by intros v.
  - intros [= <- <-]. split; [exists []; by rewrite app_nil_r|constructor].
  - intros [= <- <-]. split; [exists []; by rewrite app_nil_r|constructor].
Qed.
End Document.

(** *** The manifest *)

Section Manifest.
Context `{Web}.

(** An action that leaves the message: where it may lead *)
Inductive safe_action : jsval → Prop :=
| safe_dismiss v : prop v "type" = JStr "dismiss" → safe_action v
| safe_deep_link v s : prop v "type" = JStr "deep_link" → prop v "url" = JStr s →
    has_scheme s = true → refused_scheme s = false → safe_action v
| safe_open_url v s : prop v "type" = JStr "open_url" → prop v "url" = JStr s →
    starts_with "https://" s = true → safe_action v
| safe_copy v s : prop v "type" = JStr "copy" → prop v "text" = JStr s → js_length s <= 1000 → safe_action v.

Lemma literal_prop s v o : s_literal s v = Some o → o = JStr s.
Proof.
  intros [-> Hp]%check_keeps. destruct v; try done. simpl in Hp. apply String_in_spec in Hp as [->|[]]. done.
Qed.
Lemma check_string p v o : s_check (string_check p) v = Some o → ∃ s, o = JStr s ∧ p s = true.
Proof. intros [-> Hp]%check_keeps. destruct v; try done. eauto. Qed.

Lemma object_prop {strict shape v o s} k :
  s_object strict shape v = Some o → In (k, s) shape → bool_decide (NoDup (map fst shape)) = true →
  s (prop v k) = Some (prop o k).
Proof. intros Ho Hin Hd. by eapply s_object_prop. Qed.

Lemma actionSchema_safe v o : actionSchema v = Some o → safe_action o.
Proof.
  unfold actionSchema, s_discriminated. destruct (prop v "type") as [| | | |tag| |]; try done.
  intros (s&Hs&Ho)%bind_Some. apply JMap.get_In in Hs.
  destruct Hs as [[= <- <-]|[[= <- <-]|[[= <- <-]|[[= <- <-]|[]]]]];
    pose proof (object_prop "type" Ho (or_introl eq_refl) eq_refl) as Ht%literal_prop.
  - by apply safe_dismiss.
  - pose proof (object_prop "url" Ho (or_intror (or_introl eq_refl)) eq_refl) as (s&Eu&Hp)%check_string.
    unfold deep_link_url in Hp. b2p. by eapply safe_deep_link.
  - pose proof (object_prop "url" Ho (or_intror (or_introl eq_refl)) eq_refl) as (s&Eu&Hp)%check_string.
    unfold open_url_ok in Hp. b2p. by eapply safe_open_url.
  - pose proof (object_prop "text" Ho (or_intror (or_introl eq_refl)) eq_refl) as (s&Eu&Hp)%check_string.
    b2p. by eapply safe_copy.
Qed.

(** At most twenty actions, with names the bridge can call, each of them safe *)
Definition safe_actions (m : jsval) : Prop :=
  ∃ fields, prop m "actions" = JObj fields ∧ (length fields <= 20)%nat
    ∧ Forall (λ p, action_name (fst p) = true ∧ safe_action (snd p)) fields.

Lemma manifestSchema_safe v m : manifestSchema v = Some m → safe_actions m.
Proof.
  unfold manifestSchema. intros Hm.
  pose proof (object_prop "actions" Hm (or_intror (or_intror (or_intror (or_intror (or_introl eq_refl))))) eq_refl) as Ha.
  assert (∃ w, s_refine (s_record actionSchema) actions_ok w = Some (prop m "actions")) as [w Hw].
  { destruct (prop v "actions"); simpl in Ha; eauto. }
  unfold s_refine in Hw. apply bind_Some in Hw as (o&Ho&Hok). destruct (actions_ok o) eqn:E; [|done]. injection Hok as ->.
  destruct w as [| | | | | |fields]; try done. simpl in Ho. apply fmap_Some in Ho as (l&Hl&El). rewrite El in E.
  unfold actions_ok in E. apply andb_true_iff in E as [En Ec%Nat.leb_le]. exists l. split_and!; [done|done|].
  apply mapM_Some_1 in Hl. rewrite forallb_forall in En. apply List.Forall_forall. intros p Hp. split; [by apply En|].
  destruct (Forall2_In_r _ _ _ _ Hl Hp) as (q&_&(o'&Ho'&[= <-])%bind_Some). by eapply actionSchema_safe.
Qed.

Lemma manifest_of_safe files input m : manifest_of files input = Ok m → safe_actions m.
Proof.
  unfold manifest_of. intros (v&_&Hm)%outcome_bind_ok. destruct (manifestSchema v) as [m'|] eqn:E; [|done].
  injection Hm as <-. by eapply manifestSchema_safe.
Qed.

(** *** The artifact *)

Record safe_artifact (source : list SourceFile) (a : Artifact) : Prop := {
  sa_document : ∃ st doc hashes, load_files (mkLoaded [] [] 0) source = Ok st
    ∧ allowed (ld_files st) hashes doc ∧ In (script_hash bridgeBootstrap) hashes
    ∧ html a = replace_first "<head>" (head_with_policy hashes) (html_serialize doc);
  sa_size : byte_length (html a) <= MAX_TOTAL;
  sa_actions : safe_actions (manifest a) }.

(** C26. A bundle [compileBundle] accepts is safe: every element of its document
    is one the code allows, without event handlers or navigation, its images
    are files of the bundle, its styles have passed the CSS check, its scripts are inline and their hashes are
    those the policy lists, together with the bridge's; the text is at most 30
    MiB; and its actions lead to no scheme that is refused. *)
Theorem bundle_is_safe source input a : compileBundle source input = Ok a → safe_artifact source a.
Proof.
  unfold compileBundle.
  intros ([]&_&(st&Hst&(m&Hm&HE)%outcome_bind_ok)%outcome_bind_ok)%outcome_bind_ok.
  destruct (compile_document (ld_files st) []) as [[doc|e] hashes] eqn:Ed; [|done].
  apply outcome_bind_ok in HE as ([]&Hsize%fail_if_ok&[= <-]). apply Z.ltb_ge in Hsize.
  apply bind_ok in Ed as (src&s1&(_&->)%lift_ok&Ed). apply bind_ok in Ed as (doc'&s1&(_&Hdoc)%visit_allowed&Ed).
  apply bind_ok in Ed as (js&s2&(_&->&_)%checkJs_ok&[= -> <-]).
  split; simpl; [|done|by eapply manifest_of_safe].
  exists st, doc, (s1 ++ [script_hash bridgeBootstrap]). split_and!; [done|by apply allowed_mono| |done].
  apply in_app_iff. right. by left.
Qed.
End Manifest.

(** ** A concrete library *)

(** The serializer of the HTML standard, for text that needs no escapes and
    elements that are not void; the hash and the parser are stand-ins. *)
Fixpoint to_html (n : dom) : string :=
  match n with
  | Root c => join "" (map to_html c)
  | Elem tag attrs c =>
      "<" +:+ tag +:+ join "" (map (λ a, " " +:+ at_name a +:+ "=" +:+ dq +:+ at_value a +:+ dq) attrs) +:+ ">"
      +:+ join "" (map to_html c) +:+ "</" +:+ tag +:+ ">"
  | Text v => v
  | Other "#comment" data => "<!--" +:+ data +:+ "-->"
  | Other _ data => "<!DOCTYPE " +:+ data +:+ ">"
  end.
Definition demo_web (document : dom) : Web := {|
  html_parse := λ _, document; html_serialize := to_html;
  CssRoot := string; css_parse := Some; at_rules := λ _, []; declarations := λ _, []; css_print := λ s _, s;
  value_urls := λ _, []; value_print := λ s _, s;
  sha256_base64 := λ s, base64_encode [js_length s mod 256];
  sha256_hex_of := λ s, base64_encode [js_length s mod 256]; zod_url := starts_with "https://" |}.

Definition ascii_file (p content : string) : SourceFile := mkSource p (base64_encode (bytes_of_string content)).
Definition demo_source : list SourceFile :=
  [ascii_file "index.html" "<link rel=stylesheet href=a/style.css><script src=app.js></script><img src=hero.png>";
   ascii_file "a/style.css" "p { color: red }"; ascii_file "app.js" "nudgeonBridge.ready()";
   mkSource "hero.png" (base64_encode [137; 80; 78; 71; 13; 10; 26; 10; 0])].
Definition demo_document : dom :=
  Root [Elem "html" [] [
    Elem "head" [] [Elem "link" [mkAttr "rel" "stylesheet"; mkAttr "href" "a/style.css"] []; Elem "script" [mkAttr "src" "app.js"] []];
    Elem "body" [] [Elem "img" [mkAttr "src" "hero.png"] []]]].
Definition demo_manifest : jsval :=
  JObj [("actions", JObj [("open", JObj [("type", JStr "deep_link"); ("url", JStr "shop://sale")])])].

Lemma bundle_is_safe_witness : ∃ a,
  compileBundle (H := demo_web demo_document) demo_source demo_manifest = Ok a
  ∧ safe_artifact (H := demo_web demo_document) demo_source a.
Proof.
  destruct (compileBundle (H := demo_web demo_document) demo_source demo_manifest) as [a|e] eqn:E.
  - exists a. split; [reflexivity|]. exact (bundle_is_safe (H := demo_web demo_document) _ _ _ E).
  - vm_compute in E. discriminate E.
Defined.

(** An archive with one stored file, and what the inflater reports for it *)
Definition demo_archive : bytes :=
  [80; 75; 1; 2] ++ repeat 0 42 ++ [80; 75; 5; 6] ++ repeat 0 6 ++ [1; 0] ++ repeat 0 10.
Definition demo_unzip (b : bytes) : list ZipEvent * option exn := ([ZFile "index.html"; ZData 0 [60] false; ZData 0 [62] true], None).

Lemma unpack_bounded_witness : ∃ files,
  List.NoDup (finals (demo_unzip demo_archive).1) ∧ unpackArchive demo_unzip demo_archive = Ok files ∧ unpack_limits files.
Proof.
  exists [mkSource "index.html" (base64_encode [60; 62])].
  assert (List.NoDup (finals (demo_unzip demo_archive).1)) as Hnd by (repeat constructor; by intros []).
  assert (unpackArchive demo_unzip demo_archive = Ok [mkSource "index.html" (base64_encode [60; 62])]) as E by (vm_compute; reflexivity).
  split; [exact Hnd|]. split; [exact E|]. exact (proj2 (unpack_bounded demo_unzip demo_archive _ Hnd E)).
Defined.

(** *** The first [<head>] of the text

    A comment in front of the document that contains [<head>] receives the
    policy, and with it the bridge: the document that is published has neither. *)
Definition comment_document : dom :=
  Root [Other "#comment" "<head>"; Elem "html" [] [Elem "head" [] []; Elem "body" [] []]].

Theorem policy_can_be_hidden : ∃ (W : Web) source a rest,
  compileBundle source (JObj []) = Ok a
  ∧ html a = "<!--" +:+ head_with_policy [script_hash bridgeBootstrap] +:+ "-->" +:+ rest
  ∧ contains "-->" (head_with_policy [script_hash bridgeBootstrap]) = false
  ∧ contains "Content-Security-Policy" rest = false ∧ contains "nudgeonBridge" rest = false.
Proof.
  exists (demo_web comment_document), [ascii_file "index.html" "<!--<head>-->"].
  destruct (compileBundle (H := demo_web comment_document) [ascii_file "index.html" "<!--<head>-->"] (JObj [])) as [a|e] eqn:E.
  - exists a, "<html><head></head><body></body></html>". split; [done|]. split; [|vm_compute; done].
    assert (html a = match compileBundle (H := demo_web comment_document) [ascii_file "index.html" "<!--<head>-->"] (JObj []) with
      Ok a => html a | Throw _ => "" end) as -> by by rewrite E.
    vm_compute. reflexivity.
  - vm_compute in E. discriminate E.
Qed.
