(* ===== verification/Authz.v ===== *)
(** * Roles and permissions

    [apps/api/src/authz/permissions.ts] and [authz/permission.guard.ts]: the
    role matrix, deny-by-default lookup, and the guard that runs after the
    session guard. *)

From S2P Require Import Prelude.

#[global] Open Scope Z_scope.

Inductive Role := Owner | Admin | Editor | Viewer.
#[global] Instance Role_eq_dec : EqDecision Role.
Proof. solve_decision. Defined.

(** [role::text] *)
Definition role_text (r : Role) : string :=
  match r with Owner => "owner" | Admin => "admin" | Editor => "editor" | Viewer => "viewer" end.

Inductive Permission :=
| segments_read | segments_write | journeys_read | journeys_write | journeys_activate
| in_app_publish | credentials_read | credentials_write | apikeys_read | apikeys_write
| apps_read | apps_write | team_read | team_write | settings_write | billing_manage
| tenant_delete | member_reset_2fa | users_read | analytics_read.
#[global] Instance Permission_eq_dec : EqDecision Permission.
Proof. solve_decision. Defined.

Definition READ_ALL : list Permission :=
  [segments_read; journeys_read; apps_read; users_read; analytics_read].
Definition EDITOR : list Permission :=
  READ_ALL ++ [segments_write; journeys_write; journeys_activate].
Definition ADMIN : list Permission :=
  EDITOR ++ [in_app_publish; credentials_read; credentials_write; apikeys_read; apikeys_write;
             apps_write; team_read; team_write; settings_write; member_reset_2fa].
Definition OWNER : list Permission := ADMIN ++ [billing_manage; tenant_delete].

Definition ROLE_PERMISSIONS (r : Role) : list Permission :=
  match r with Viewer => READ_ALL | Editor => EDITOR | Admin => ADMIN | Owner => OWNER end.

Definition KNOWN_ROLES : list Role := [Owner; Admin; Editor; Viewer].

(** [isRole(value)], returning the role the text names *)
Definition isRole (value : string) : option Role :=
  List.find (λ r, String.eqb (role_text r) value) KNOWN_ROLES.

Definition can (role : string) (perm : Permission) : bool :=
  match isRole role with
  | None => false
  | Some r => existsb (λ p, bool_decide (p = perm)) (ROLE_PERMISSIONS r)
  end.

Definition permissionsForRole (role : string) : list Permission :=
  match isRole role with Some r => ROLE_PERMISSIONS r | None => [] end.

(** [PermissionGuard.canActivate]: [member] is the role the session guard put
    on the request, [required] the declared permission. *)
Definition PermissionGuard {S} (required : option Permission) (role : option string) : M S unit :=
  match required with
  | None => mret tt
  | Some p =>
      r ← some_or_throw role (UnauthorizedException "login required");
      throw_if (negb (can r p)) (ForbiddenException "permission denied")
  end.

Lemma isRole_text r : isRole (role_text r) = Some r.
Proof. by destruct r. Qed.
Lemma isRole_Some s r : isRole s = Some r ↔ s = role_text r.
Proof.
  split; [|by intros ->; apply isRole_text]. unfold isRole.
  intros H. apply find_some in H as [_ H]. b2p. done.
Qed.

Lemma isRole_text_inj r r' : role_text r = role_text r' → r = r'.
Proof. intros H. assert (Some r = Some r') as [=]; [|done]. by rewrite <- !isRole_text, H. Qed.

Lemma can_spec s p : can s p = true ↔ ∃ r, s = role_text r ∧ In p (ROLE_PERMISSIONS r).
Proof.
  unfold can. destruct (isRole s) as [r|] eqn:E.
  - apply isRole_Some in E as ->. rewrite existsb_exists. split; [intros (?&?&?); b2p; subst; eauto|].
    intros (r'&Hr&Hin). exists p. split; [|by apply bool_decide_eq_true]. apply isRole_text_inj in Hr. by subst.
  - split; [done|]. intros (r&->&_). by rewrite isRole_text in E.
Qed.

Lemma PermissionGuard_readonly {S} req role : readonly (S:=S) (PermissionGuard req role).
Proof.
  unfold PermissionGuard. destruct req; [|apply readonly_ret].
  apply readonly_bind; [apply readonly_some|]. intros. apply readonly_throw_if.
Qed.

Lemma PermissionGuard_ok {S} p role (s s' : S) u :
  PermissionGuard (Some p) (Some role) s = (Ok u, s') ↔ can role p = true ∧ s' = s.
Proof.
  cbn [PermissionGuard some_or_throw]. rewrite bind_ok. split.
  - intros (?&?&[= <- <-]&[H ->]%throw_if_ok). by b2p.
  - intros [H ->]. exists role, s. split; [done|]. destruct u. apply throw_if_ok. by rewrite H.
Qed.

(** The hierarchy of the matrix. *)
Definition rank (r : Role) : nat := match r with Viewer => 0 | Editor => 1 | Admin => 2 | Owner => 3 end.

Lemma rank_permissions r r' : (rank r <= rank r')%nat → incl (ROLE_PERMISSIONS r) (ROLE_PERMISSIONS r').
Proof.
  intros Hle p. destruct r, r'; simpl in Hle; try lia; intros H; simpl in *; tauto.
Qed.
