(* ===== verification/AuthDb.v ===== *)
(** * Accounts: the store and its environment

    The PostgreSQL tables behind [apps/api/src/auth], [members], [apps],
    [tenant] and [audit] ([db/postgres/schema.sql],
    [upgrades/0008_installation.sql]): rows as records, tables as lists of
    rows, unique indexes checked on insertion.  Timestamps are in microseconds,
    the resolution of the columns. *)

From stdpp Require Import pretty.
From S2P Require Import Prelude JsVal Crypto Authz.

#[global] Open Scope Z_scope.

(** ** Environment of a request *)

(** The places of the code that read [Date.now()] / [new Date()]. *)
Inductive ClockSite := LockCheck | TotpStep | SessionExpiry | LeaseCheck | LeaseExpiry | SecuredAt | KeyGrace | ClaimHit.

Inductive Mode := multi_tenant | single_tenant.
#[global] Instance Mode_eq_dec : EqDecision Mode.
Proof. solve_decision. Defined.

Record Env := mkEnv {
  Date_now : ClockSite → Z;          (** ms *)
  pg_now : Z;                        (** [now()] of the transaction, µs *)
  uuid : nat → string;               (** [gen_random_uuid()], one per inserted row *)
  random_token : nat → string;       (** [randomBytes(32).toString("base64url")] *)
  salt : nat → string;               (** the salts argon2 draws *)
  secret_random : bytes;             (** [generateSecret()] *)
  envelope_random : Entropy;
  backup_random : list bytes;        (** ten times seven bytes *)
  cfg_mode : Mode;
  cfg_sessionTtlHours : Z;
  cfg_setupToken : option string;
  cfg_version : string;
  cfg_publicBindAddress : string;
  NUDGEON_MASTER_KEY : option string;
  master_key_file : option string;   (** contents of [KMS_MASTER_KEY_FILE] *)
  ip : option string;
  user_agent : option string;
  audit_fails : bool }.               (** an insertion into the audit log fails *)

(** Unicode case mapping, zod's e-mail format and the time zone database. *)
Class Host := {
  toUpperCase : string → string;
  toLowerCase : string → string;
  pg_lower : string → string;
  zod_email : string → bool;
  known_time_zone : string → bool }.

(** [new Date(column).getTime()] *)
Definition getTime (t : Z) : Z := t / 1000.
Definition of_ms (ms : Z) : Z := ms * 1000.
Definition seconds (n : Z) : Z := n * 1000000.
Definition minutes (n : Z) : Z := seconds (60 * n).
Definition days (n : Z) : Z := seconds (86400 * n).

(** ** Rows *)

Record Tenant := mkTenant {
  tn_id : string; tn_name : string; tn_require_2fa : bool;
  tn_delete_requested_at : option Z; tn_purge_after : option Z }.

Inductive MemberStatus := MActive | MInvited | MDisabled.
#[global] Instance MemberStatus_eq_dec : EqDecision MemberStatus.
Proof. solve_decision. Defined.

Record Totp := mkTotp {
  secret_enc : option bytes; enabled_at : option Z; last_counter : option Z;
  failed_count : Z; locked_until : option Z }.
Definition no_totp : Totp := mkTotp None None None 0 None.

Record Member := mkMember {
  m_id : string; m_tenant : string; m_email : string; m_password_hash : option string;
  m_name : string; m_role : Role; m_status : MemberStatus; m_totp : Totp; m_created_at : Z }.

Definition is_active (m : Member) : bool := bool_decide (m_status m = MActive).
Definition is_owner (m : Member) : bool := bool_decide (m_role m = Owner).

Record BackupCode := mkBackup {
  bc_id : string; bc_tenant : string; bc_member : string; bc_hash : string; bc_used_at : option Z }.

Record Session := mkSession {
  se_tenant : string; se_member : string; se_token_hash : string; se_ip : option string;
  se_user_agent : option string; se_expires_at : Z; se_revoked_at : option Z }.

Record App := mkApp { ap_id : string; ap_tenant : string; ap_name : string; ap_timezone : string }.

Inductive KeyKind := Sdk | Server.
#[global] Instance KeyKind_eq_dec : EqDecision KeyKind.
Proof. solve_decision. Defined.
Inductive KeyScope := Full | IngestOnly.
#[global] Instance KeyScope_eq_dec : EqDecision KeyScope.
Proof. solve_decision. Defined.
Inductive KeyStatus := KActive | KRotating | KRevoked.
#[global] Instance KeyStatus_eq_dec : EqDecision KeyStatus.
Proof. solve_decision. Defined.

Record ApiKey := mkKey {
  k_id : string; k_tenant : string; k_app : string; k_kind : KeyKind; k_scope : KeyScope;
  k_prefix : string; k_hash : string; k_status : KeyStatus; k_grace_expires_at : option Z;
  k_last_used_at : option Z; k_revoked_at : option Z }.

Record AuditLog := mkAudit {
  al_tenant : string; al_actor : option string; al_actor_email : option string; al_action : string;
  al_target_type : option string; al_target : option string; al_detail : jsval; al_ip : option string }.

Inductive InstallState := Unclaimed | Claimed | Secured | RecoveryRequired.
#[global] Instance InstallState_eq_dec : EqDecision InstallState.
Proof. solve_decision. Defined.

Record SetupResult := mkSetupResult {
  sr_tenant_id : string; sr_app_id : string; sr_member_id : string;
  sr_installation_id : string; sr_secured_at : Z }.

Record Installation := mkInstallation {
  in_id : string; in_state : InstallState; in_token_hash : option string; in_token_version : Z;
  in_claim_session : option string; in_claim_expires_at : option Z; in_claimed_at : option Z;
  in_idempotency_hash : option string; in_request_hash : option string;
  in_result : option SetupResult; in_record_version : Z }.

(** ** The store *)

Record Db := mkDb {
  tenants : list Tenant;
  members : list Member;
  backup_codes : list BackupCode;
  sessions : list Session;
  apps : list App;
  api_keys : list ApiKey;
  audit_logs : list AuditLog;
  installation : option Installation }.

Definition empty_db : Db := mkDb [] [] [] [] [] [] [] None.

Definition set_tenants x (d : Db) : Db :=
  mkDb x (members d) (backup_codes d) (sessions d) (apps d) (api_keys d) (audit_logs d) (installation d).
Definition set_members x (d : Db) : Db :=
  mkDb (tenants d) x (backup_codes d) (sessions d) (apps d) (api_keys d) (audit_logs d) (installation d).
Definition set_backup_codes x (d : Db) : Db :=
  mkDb (tenants d) (members d) x (sessions d) (apps d) (api_keys d) (audit_logs d) (installation d).
Definition set_sessions x (d : Db) : Db :=
  mkDb (tenants d) (members d) (backup_codes d) x (apps d) (api_keys d) (audit_logs d) (installation d).
Definition set_apps x (d : Db) : Db :=
  mkDb (tenants d) (members d) (backup_codes d) (sessions d) x (api_keys d) (audit_logs d) (installation d).
Definition set_api_keys x (d : Db) : Db :=
  mkDb (tenants d) (members d) (backup_codes d) (sessions d) (apps d) x (audit_logs d) (installation d).
Definition set_audit_logs x (d : Db) : Db :=
  mkDb (tenants d) (members d) (backup_codes d) (sessions d) (apps d) (api_keys d) x (installation d).
Definition set_installation x (d : Db) : Db :=
  mkDb (tenants d) (members d) (backup_codes d) (sessions d) (apps d) (api_keys d) (audit_logs d) x.

(** ** Statements *)

(** [WHERE tenant_id = $1 AND id = $2] *)
Definition member_at (tenant id : string) (m : Member) : bool :=
  String.eqb (m_tenant m) tenant && String.eqb (m_id m) id.
Definition member_id (id : string) (m : Member) : bool := String.eqb (m_id m) id.

Definition update_members (p : Member → bool) (f : Member → Member) : M Db unit :=
  modify (λ d, set_members (update_where p f (members d)) d).

Definition set_totp (t : Totp) (m : Member) : Member :=
  mkMember (m_id m) (m_tenant m) (m_email m) (m_password_hash m) (m_name m) (m_role m) (m_status m) t (m_created_at m).
Definition set_role (r : Role) (m : Member) : Member :=
  mkMember (m_id m) (m_tenant m) (m_email m) (m_password_hash m) (m_name m) r (m_status m) (m_totp m) (m_created_at m).
Definition set_status (s : MemberStatus) (m : Member) : Member :=
  mkMember (m_id m) (m_tenant m) (m_email m) (m_password_hash m) (m_name m) (m_role m) s (m_totp m) (m_created_at m).

(** SQLSTATE 23505 *)
Definition unique_violation : exn := PlainError "23505 unique_violation".

Section Inserts.
Context `{Host}.

Definition insert_tenant (t : Tenant) : M Db unit :=
  d ← get;
  _ ← throw_if (existsb (λ x, String.eqb (tn_id x) (tn_id t)) (tenants d)) unique_violation;
  modify (λ d, set_tenants (tenants d ++ [t]) d).

(** primary key, [UNIQUE (tenant_id, email)] and [members_email_login_idx] *)
Definition insert_member (m : Member) : M Db unit :=
  d ← get;
  _ ← throw_if (existsb (λ x, String.eqb (m_id x) (m_id m)
         || String.eqb (pg_lower (m_email x)) (pg_lower (m_email m))
         || String.eqb (m_tenant x) (m_tenant m) && String.eqb (m_email x) (m_email m)) (members d)) unique_violation;
  modify (λ d, set_members (members d ++ [m]) d).

Definition insert_app (a : App) : M Db unit :=
  d ← get;
  _ ← throw_if (existsb (λ x, String.eqb (ap_id x) (ap_id a)
         || String.eqb (ap_tenant x) (ap_tenant a) && String.eqb (ap_name x) (ap_name a)) (apps d)) unique_violation;
  modify (λ d, set_apps (apps d ++ [a]) d).

Definition insert_key (k : ApiKey) : M Db unit :=
  d ← get;
  _ ← throw_if (existsb (λ x, String.eqb (k_id x) (k_id k) || String.eqb (k_hash x) (k_hash k)) (api_keys d)) unique_violation;
  modify (λ d, set_api_keys (api_keys d ++ [k]) d).

Definition insert_session (s : Session) : M Db unit :=
  d ← get;
  _ ← throw_if (existsb (λ x, String.eqb (se_token_hash x) (se_token_hash s)) (sessions d)) unique_violation;
  modify (λ d, set_sessions (sessions d ++ [s]) d).

Definition insert_backup (b : BackupCode) : M Db unit :=
  d ← get;
  _ ← throw_if (existsb (λ x, String.eqb (bc_id x) (bc_id b)) (backup_codes d)) unique_violation;
  modify (λ d, set_backup_codes (backup_codes d ++ [b]) d).
End Inserts.

(** The member a session belongs to ([SessionMember]). *)
Record SessionMember := mkSessionMember {
  sm_memberId : string; sm_tenantId : string; sm_email : string; sm_name : string;
  sm_role : string; sm_totpEnabled : bool; sm_requires2fa : bool }.

(** [AuditService.record]: an insertion that fails is logged and swallowed. A time
    of the detail is its number of microseconds. *)
Definition append_audit (fails : bool) (e : AuditLog) (log : list AuditLog) : list AuditLog :=
  if fails then log else log ++ [e].
Definition record (env : Env) (e : AuditLog) : M Db unit :=
  modify (λ d, set_audit_logs (append_audit (audit_fails env) e (audit_logs d)) d).
Definition recordAs (env : Env) (actor : SessionMember) (action : string)
    (targetType targetId : option string) (detail : list (string * jsval)) : M Db unit :=
  record env (mkAudit (sm_tenantId actor) (Some (sm_memberId actor)) (Some (sm_email actor)) action targetType targetId
                (JObj detail) (ip env)).
