(* ===== verification/JourneyContract.v ===== *)
(** * The HTTP contract of journeys ([apps/api/src/journeys/journey-contract.ts])

    The zod schemas of a journey's definition (as the value they return), the
    canonical form and revision of a draft, and the reading of a stored
    definition as the [JourneyDefinition] of the model.

    A definition is stored as JSON and read back as such ([jsval]).  JSONB does
    not keep the order of an object's keys; the lemma [canonical_same] says the
    revision does not depend on it. *)

From Stdlib Require Import Ascii QArith.
From stdpp Require Import sorting pretty.
From S2P Require Import Prelude JsVal Crypto Json Schema Graph BranchCondition JourneyModel.

#[global] Open Scope Z_scope.

(** ** Definitions *)

Section Contract.
Context `{Zod}.

Definition s_uuid : Schema := s_check (string_check zod_uuid).

Definition identifierSchema : Schema :=
  s_check (string_check (λ s, (1 <=? js_length s) && (js_length s <=? 128) && (byte_length s <=? 128))).

Definition node_shape (type : string) (shape : Shape) : Schema :=
  s_object true (("id", s_optional identifierSchema) :: ("type", s_literal type) :: shape).

Definition pushSchema : Schema := s_object false
  [("title", s_string 0 256); ("body", s_string 0 2048);
   ("image_url", s_optional s_any_string); ("deep_link", s_optional s_any_string)].
Definition emailSchema : Schema := s_object false
  [("subject", s_string 1 998); ("html", s_string 1 1000000);
   ("provider", s_optional (s_enum ["email_smtp"; "email_nhn"; "email_resend"]))].
Definition fallbackSchema : Schema := s_object true
  [("type", s_enum ["SMS"; "LMS"]); ("title", s_optional (s_string 0 64)); ("text", s_string 1 2000)].
Definition alimtalkSchema : Schema := s_object true
  [("sender_id", s_uuid); ("template_code", s_string 1 20);
   ("variables", s_optional (s_record (s_string 0 4000))); ("fallback", s_optional fallbackSchema)].
Definition variantSchema : Schema := s_object true
  [("id", identifierSchema); ("label", s_string 0 100); ("weight", s_int)].

Definition is_object (v : jsval) : bool := match v with JObj _ => true | _ => false end.

Definition nodeSchema : Schema := s_discriminated "type"
  [("message", node_shape "message"
      [("push", s_optional pushSchema); ("email", s_optional emailSchema); ("alimtalk", s_optional alimtalkSchema)]);
   ("delay", node_shape "delay" [("duration_seconds", s_int)]);
   ("branch", node_shape "branch" [("condition", s_check is_object)]);
   ("event_wait", node_shape "event_wait" [("event_name", s_string 0 200); ("timeout_seconds", s_int)]);
   ("ab_split", node_shape "ab_split" [("variants", s_array 4 variantSchema)])].

Definition entrySchema : Schema := s_object false
  [("type", s_enum ["blast"; "trigger"]); ("segment_id", s_optional s_uuid);
   ("trigger_event", s_optional (s_string 0 200))].
Definition edgeSchema : Schema := s_object true
  [("id", identifierSchema); ("source", identifierSchema); ("source_port", identifierSchema);
   ("target", s_nullable identifierSchema)].
Definition exitSchema : Schema := s_object false [("conversion_event", s_optional (s_string 0 200))].
(** [z.number().int().positive()] *)
Definition s_positive : Schema :=
  s_check (λ v, match v with JNum n => Number_isInteger n && num_ltb (NInt 0) n | _ => false end).
Definition reentrySchema : Schema :=
  s_union (s_enum ["never"; "always"]) (s_object false [("after_days", s_positive)]).
Definition settingsSchema : Schema := s_object false
  [("category", s_enum ["marketing"; "transactional"]); ("reentry", s_default reentrySchema (JStr "never"))].

(** the elements of an array property, none when it is absent *)
Definition items (v : jsval) : list jsval := match v with JArr l => l | _ => [] end.

(** The cross-field rules of [superRefine] *)
Definition version_rule (def : jsval) : bool :=
  if is_number_eq (prop def "schema_version") 2 then
    negb (is_undef (prop def "start_node_id") || negb (truthy (prop def "edges"))
          || existsb (λ node, negb (truthy (prop node "id"))) (items (prop def "nodes")))
  else
    negb (negb (is_undef (prop def "edges")) || negb (is_undef (prop def "start_node_id"))
          || existsb (λ node, negb (includes ["message"; "delay"] (prop node "type"))) (items (prop def "nodes"))).
Definition channel_count (node : jsval) : nat :=
  length (List.filter (λ k, truthy (prop node k)) ["push"; "email"; "alimtalk"]).
Definition channel_rule (node : jsval) : bool :=
  if includes ["message"] (prop node "type") then Nat.eqb (channel_count node) 1 else true.
Definition definition_rules (def : jsval) : bool :=
  version_rule def && forallb channel_rule (items (prop def "nodes")).

Definition definition_shape : Shape :=
  [("schema_version", s_optional (s_numbers [1; 2]));
   ("entry", entrySchema);
   ("nodes", s_array 65535 nodeSchema);
   ("start_node_id", s_optional (s_nullable identifierSchema));
   ("edges", s_optional (s_array 262140 edgeSchema));
   ("exit", s_default exitSchema (JObj []));
   ("settings", settingsSchema)].
Definition definitionSchema : Schema := s_refine (s_object true definition_shape) definition_rules.

(** [z.string().trim().min(1).max(200)], and the definition *)
Record Upsert := mkUpsert { up_name : string; up_definition : jsval }.
Definition upsertSchema (body : jsval) : option Upsert :=
  match body with
  | JObj _ =>
      match prop body "name" with
      | JStr s =>
          let name := js_trim s in
          if (1 <=? js_length name) && (js_length name <=? 200) then
            definition ← definitionSchema (prop body "definition"); Some (mkUpsert name definition)
          else None
      | _ => None
      end
  | _ => None
  end.

Definition hex_lower (c : ascii) : bool := is_digit c || ((97 <=? byte c) && (byte c <=? 102)).
(** [/^[a-f0-9]{64}$/] *)
Definition revision_text (s : string) : bool := Nat.eqb (String.length s) 64 && str_forallb hex_lower s.
(** [Some revision] for a body the schema accepts *)
Definition activationSchema (body : jsval) : option (option string) :=
  match body with
  | JObj _ =>
      match prop body "revision" with
      | JUndef => Some None
      | JStr s => if revision_text s then Some (Some s) else None
      | _ => None
      end
  | _ => None
  end.
End Contract.

(** ** The canonical form of a draft *)

(** ICU's collation, as [String.prototype.localeCompare] of the process *)
Class Collation := { localeCompare : string → string → comparison }.

(** [Object.entries(v).sort(([a], [b]) => a.localeCompare(b))], a stable sort *)
Definition collates `{Collation} (a b : string) : bool :=
  match localeCompare a b with Gt => false | _ => true end.
Definition key_le `{Collation} (p q : string * jsval) : Prop := collates (fst p) (fst q) = true.
#[global] Instance key_le_dec `{Collation} p q : Decision (key_le p q).
Proof. unfold key_le. solve_decision. Defined.

(** An array index as a property key: its keys come first, in ascending order. *)
Definition digit_value (s : string) : Z :=
  fold_left (λ n c, 10 * n + (byte c - 48)) (String.list_ascii_of_string s) 0.
Definition array_index (k : string) : option Z :=
  match k with
  | EmptyString => None
  | String c rest =>
      if str_forallb is_digit k && (negb (Ascii.eqb c "0") || String.eqb rest "")
         && (Nat.leb (String.length k) 10) && (digit_value k <? 2 ^ 32 - 1)
      then Some (digit_value k) else None
  end.
Definition index_le (p q : string * jsval) : Prop :=
  default 0 (array_index (fst p)) <= default 0 (array_index (fst q)).
#[global] Instance index_le_dec p q : Decision (index_le p q).
Proof. unfold index_le. solve_decision. Defined.
Definition has_index (p : string * jsval) : bool :=
  match array_index (fst p) with Some _ => true | None => false end.
(** [Object.fromEntries(l)], [l] without two entries of one key *)
Definition fromEntries (l : list (string * jsval)) : list (string * jsval) :=
  merge_sort index_le (List.filter has_index l) ++ List.filter (λ p, negb (has_index p)) l.

Section Revision.
Context `{Zod} `{Crypto} `{Collation}.

(** The entries are mapped before they are sorted; the order is that of the keys alone. *)
Fixpoint canonical (value : jsval) : jsval :=
  match value with
  | JArr l => JArr (map canonical l)
  | JObj fields => JObj (fromEntries (merge_sort key_le (map (λ p, (fst p, canonical (snd p))) fields)))
  | v => v
  end.

Definition draftRevision (name : string) (definition : jsval) : string :=
  sha256_hex (JSON_stringify number_format (canonical (JObj [("name", JStr name); ("definition", definition)]))).
End Revision.

(** [journeyCapabilities] *)
Definition supported_node_types (graphV2 : bool) : list string :=
  if graphV2 then ["message"; "delay"; "branch"; "event_wait"; "ab_split"] else ["message"; "delay"].

(** ** Reading a stored definition *)

Definition string_of (v : jsval) : option string := match v with JStr s => Some s | _ => None end.
Definition number_of (v : jsval) : num := match v with JNum n => n | _ => NNaN end.
Definition object_of {A} (f : jsval → A) (v : jsval) : option A :=
  match v with JObj _ => Some (f v) | _ => None end.
Definition array_of {A} (f : jsval → A) (v : jsval) : option (list A) :=
  match v with JArr l => Some (map f l) | _ => None end.
Definition text_of (v : jsval) : string := default "" (string_of v).

Definition push_of (v : jsval) : PushContent :=
  mkPush (string_of (prop v "title")) (string_of (prop v "body"))
    (string_of (prop v "image_url")) (string_of (prop v "deep_link")).
Definition email_of (v : jsval) : EmailContent :=
  mkEmail (string_of (prop v "subject")) (string_of (prop v "html")) (string_of (prop v "provider")).
Definition variables_of (v : jsval) : list (string * string) :=
  match v with JObj fields => map (λ p, (fst p, text_of (snd p))) fields | _ => [] end.
Definition fallback_of (v : jsval) : Fallback :=
  mkFallback (text_of (prop v "type")) (string_of (prop v "text")) (string_of (prop v "title")).
Definition alimtalk_of (v : jsval) : AlimtalkContent :=
  mkAlimtalk (string_of (prop v "sender_id")) (string_of (prop v "template_code"))
    (variables_of (prop v "variables")) (object_of fallback_of (prop v "fallback")).
Definition variant_of (v : jsval) : ABVariant :=
  mkVariant (text_of (prop v "id")) (text_of (prop v "label")) (number_of (prop v "weight")).

Definition body_of (v : jsval) : NodeBody :=
  let type := text_of (prop v "type") in
  if String.eqb type "message" then
    NMessage (mkMessage (object_of push_of (prop v "push")) (object_of email_of (prop v "email"))
                (object_of alimtalk_of (prop v "alimtalk")))
  else if String.eqb type "delay" then NDelay (mkDelay (number_of (prop v "duration_seconds")))
  else if String.eqb type "branch" then NBranch (mkBranch (prop v "condition"))
  else if String.eqb type "event_wait" then
    NEventWait (mkWait (string_of (prop v "event_name")) (number_of (prop v "timeout_seconds")))
  else if String.eqb type "ab_split" then NABSplit (mkSplit (array_of variant_of (prop v "variants")))
  else NUnknown type.
Definition node_of (v : jsval) : JourneyNode := mkNode (string_of (prop v "id")) (body_of v).
Definition edge_of (v : jsval) : JourneyEdge :=
  mkEdge (text_of (prop v "id")) (text_of (prop v "source")) (text_of (prop v "source_port"))
    (string_of (prop v "target")).
Definition entry_of (v : jsval) : EntryRule :=
  mkEntry (string_of (prop v "type")) (string_of (prop v "segment_id")) (string_of (prop v "trigger_event")).
Definition reentry_of (v : jsval) : Reentry :=
  match v with
  | JStr s => if String.eqb s "never" then RNever else if String.eqb s "always" then RAlways else ROther
  | JObj _ => RAfterDays (number_of (prop v "after_days"))
  | _ => ROther
  end.
Definition settings_of (v : jsval) : JourneySettings :=
  mkSettings (string_of (prop v "category")) (reentry_of (prop v "reentry")).

(** [draft_definition as JourneyDefinition], of a value the schema returned *)
Definition journey_of (v : jsval) : JourneyDefinition :=
  mkDefinition (match prop v "schema_version" with JNum n => Some n | _ => None end)
    (object_of entry_of (prop v "entry")) (array_of node_of (prop v "nodes"))
    (string_of (prop v "start_node_id")) (array_of edge_of (prop v "edges"))
    (object_of (λ e, mkExit (string_of (prop e "conversion_event"))) (prop v "exit"))
    (object_of settings_of (prop v "settings")).

(** * Facts *)

(** ** The schemas return what they return *)

Section Stable.
Context `{Zod}.

Lemma stable_reentry : stable reentrySchema.
Proof.
  intros v o Hv. unfold reentrySchema, s_union in Hv.
  destruct (s_enum ["never"; "always"] v) as [x|] eqn:E.
  - simplify_eq. unfold reentrySchema, s_union. unfold s_enum in *. by rewrite (stable_check _ _ _ E).
  - assert (stable (s_object false [("after_days", s_positive)])) as Hs.
    { apply stable_object; [by vm_compute|]. repeat constructor. apply stable_check. }
    assert (∃ l, o = JObj l) as [l ->].
    { destruct v; try done. simpl in Hv. apply fmap_Some in Hv as (?&_&->). eauto. }
    exact (Hs _ _ Hv).
Qed.

Lemma object_defined strict shape v : s_object strict shape v ≠ Some JUndef.
Proof.
  destruct v; try done. unfold s_object. case_match; [done|]. intros (?&_&?)%fmap_Some. done.
Qed.
Lemma reentry_defined v : reentrySchema v ≠ Some JUndef.
Proof.
  unfold reentrySchema, s_union. destruct (s_enum ["never"; "always"] v) as [x|] eqn:E.
  - intros [= ->]. apply check_keeps in E as [<- E]. done.
  - apply object_defined.
Qed.
End Stable.

(** Objects of stable shapes, and the union of nodes *)
Ltac schema_tac :=
  repeat match goal with
  | |- stable (s_object _ _) => apply stable_object; [by vm_compute|]
  | |- stable (node_shape _ _) => unfold node_shape
  | |- stable (s_default reentrySchema _) => apply stable_default; [apply stable_reentry|apply reentry_defined]
  | |- stable (s_default (s_object _ _) _) => apply stable_default; [|apply object_defined]
  | |- stable (s_default exitSchema _) => unfold exitSchema
  | |- stable_shape _ => unfold stable_shape
  | |- Forall _ (_ :: _) => constructor; cbn [snd]
  | |- Forall _ [] => constructor
  | |- stable (s_check _) => apply stable_check
  | |- stable (s_optional _) => apply stable_optional
  | |- stable (s_nullable _) => apply stable_nullable
  | |- stable (s_array _ _) => apply stable_array
  | |- stable (s_record _) => apply stable_record
  | |- stable (s_refine _ _) => apply stable_refine
  | |- stable ?s => progress unfold s
  | |- stable (?s _) => progress unfold s
  | |- stable (?s _ _) => progress unfold s
  end.

Section Resave.
Context `{Zod}.

Lemma node_shape_type type shape v o :
  bool_decide (NoDup (map fst (("id", s_optional identifierSchema) :: ("type", s_literal type) :: shape))) = true →
  node_shape type shape v = Some o → prop o "type" = prop v "type".
Proof.
  intros Hd Ho. eapply s_object_prop in Ho; [|done|right; by left]. simpl in Ho.
  by apply check_keeps in Ho as [-> _].
Qed.

Lemma stable_node : stable nodeSchema.
Proof.
  apply stable_discriminated. repeat (constructor; [split; [by schema_tac|intros v o; apply node_shape_type; by vm_compute]|]).
  constructor.
Qed.

Lemma stable_definition : stable definitionSchema.
Proof.
  unfold definitionSchema, definition_shape. apply stable_refine, stable_object; [by vm_compute|].
  pose proof stable_node. repeat (constructor; cbn [snd]); schema_tac. done.
Qed.
End Resave.

(** ** The canonical form forgets the order of keys *)

(** The same JSON value with the keys of its objects in another order *)
Inductive reordered : jsval → jsval → Prop :=
| reordered_perm f g : f ≡ₚ g → reordered (JObj f) (JObj g)
| reordered_item l1 v w l2 : reordered v w → reordered (JArr (l1 ++ v :: l2)) (JArr (l1 ++ w :: l2))
| reordered_field f1 k v w f2 : reordered v w → reordered (JObj (f1 ++ (k, v) :: f2)) (JObj (f1 ++ (k, w) :: f2))
| reordered_refl v : reordered v v
| reordered_trans u v w : reordered u v → reordered v w → reordered u w.

(** What is documented of [localeCompare]: a total order of the texts that
    compare differently. *)
Class CollationLaws `{Collation} := {
  collate_total a b : collates a b = true ∨ collates b a = true;
  collate_trans a b c : collates a b = true → collates b c = true → collates a c = true }.

Section Canonical.
Context `{CollationLaws}.

#[local] Instance key_le_total : Total key_le.
Proof. intros p q. apply collate_total. Qed.
#[local] Instance key_le_trans : Transitive key_le.
Proof. intros p q r. apply collate_trans. Qed.

(** The two keys do not compare as equal. *)
Definition apart (p q : string * jsval) : bool :=
  negb (collates (fst p) (fst q) && collates (fst q) (fst p)).
Fixpoint all_apart (l : list (string * jsval)) : bool :=
  match l with [] => true | p :: l => forallb (apart p) l && all_apart l end.

(** No object of the value has two keys that compare as equal. *)
Fixpoint separated (v : jsval) : bool :=
  match v with
  | JArr l => forallb separated l
  | JObj f => all_apart f && forallb (λ p, separated (snd p)) f
  | _ => true
  end.

Lemma apart_sym p q : apart p q = apart q p.
Proof. unfold apart. by rewrite andb_comm. Qed.

Lemma all_apart_keys f g : map fst f = map fst g → all_apart f = all_apart g.
Proof.
  revert g. induction f as [|p f IH]; intros [|q g] E; try done. cbn [map] in E. injection E as Ep Ef. simpl.
  rewrite (IH g Ef). f_equal.
  assert (∀ f g, map fst f = map fst g → forallb (apart p) f = forallb (apart q) g) as Ha; [|by apply Ha].
  clear f g IH Ef. induction f as [|x f IH]; intros [|y g] E; try done. cbn [map] in E. injection E as Ex Ef. simpl.
  rewrite (IH g Ef). f_equal. unfold apart. by rewrite Ep, Ex.
Qed.

Lemma forallb_perm {A} (p : A → bool) l l' : l ≡ₚ l' → forallb p l = forallb p l'.
Proof. induction 1; simpl; try congruence. by destruct (p x), (p y). Qed.

Lemma all_apart_perm f g : f ≡ₚ g → all_apart f = all_apart g.
Proof.
  induction 1 as [|x f g Hp IH|x y f|]; simpl; try congruence.
  - by rewrite IH, (forallb_perm _ _ _ Hp).
  - rewrite (apart_sym x y). destruct (apart y x), (forallb (apart x) f), (forallb (apart y) f); done.
Qed.

Lemma separated_reordered v w : reordered v w → separated v = separated w.
Proof.
  induction 1 as [f g Hp|l1 v w l2 Hr IH|f1 k v w f2 Hr IH| |]; simpl; try congruence.
  - by rewrite (all_apart_perm _ _ Hp), (forallb_perm _ _ _ Hp).
  - by rewrite !forallb_app; simpl; rewrite IH.
  - rewrite !forallb_app. simpl. rewrite IH.
    by rewrite (all_apart_keys (f1 ++ (k, v) :: f2) (f1 ++ (k, w) :: f2)) by (by rewrite !map_app).
Qed.

Lemma all_apart_unique f p q : all_apart f = true → In p f → In q f → key_le p q → key_le q p → p = q.
Proof.
  intros Hf Hp Hq Hpq Hqp.
  assert (apart p q = false) as Hn by (unfold apart; by rewrite Hpq, Hqp).
  induction f as [|x f IH]; [done|]. simpl in Hf. b2p.
  assert (∀ y, In y f → apart x y = true) as Hx by (by apply forallb_forall).
  destruct Hp as [-> |Hp], Hq as [-> |Hq]; [done| | |auto].
  - by rewrite Hx in Hn.
  - rewrite apart_sym, Hx in Hn; done.
Qed.

Lemma sorted_keys_unique f g : all_apart f = true → f ≡ₚ g → merge_sort key_le f = merge_sort key_le g.
Proof.
  intros Hf Hp. apply (StronglySorted_unique_strong key_le).
  - intros p q Hin Hin'. rewrite merge_sort_Permutation in Hin, Hin'. rewrite <- Hp in Hin'.
    apply (all_apart_unique f); [done| |]; by apply list_elem_of_In.
  - apply StronglySorted_merge_sort; apply _.
  - apply StronglySorted_merge_sort; apply _.
  - by rewrite !merge_sort_Permutation.
Qed.

(** Values that differ only in the order of keys have one canonical form. *)
Lemma canonical_same v w : reordered v w → separated v = true → canonical v = canonical w.
Proof.
  induction 1 as [f g Hp|l1 v w l2 Hr IH|f1 k v w f2 Hr IH| |u v w Huv IH1 Hvw IH2]; intros Hs; [| | |done|].
  - cbn [canonical]. do 2 f_equal. apply sorted_keys_unique; [|by apply Permutation_map].
    simpl in Hs. b2p. rewrite <- H1. apply all_apart_keys. rewrite map_map. by apply map_ext.
  - simpl in Hs |- *. rewrite forallb_app in Hs. simpl in Hs. b2p. rewrite !map_app. simpl. by rewrite IH.
  - simpl in Hs |- *. rewrite forallb_app in Hs. simpl in Hs. b2p. rewrite !map_app. simpl. by rewrite IH.
  - rewrite IH1 by done. apply IH2. by rewrite <- (separated_reordered _ _ Huv).
Qed.
End Canonical.
