(* ===== verification/ContractProps.v ===== *)
(** * The journey contract: what an accepted definition is

    A body [journey-contract.ts] accepts, read as the model's
    [JourneyDefinition]: its steps are of known types, a message has one channel,
    and a v1 list or a v2 graph has the parts its version needs. *)

From Stdlib Require Import Ascii QArith.
From stdpp Require Import sorting pretty.
From S2P Require Import Prelude JsVal Crypto Json Schema Graph BranchCondition JourneyModel JourneyContract.

#[global] Open Scope Z_scope.

Section Accepted.
Context `{Zod}.

(** A property that is absent or an object *)
Definition optional_object (v : jsval) : Prop := v = JUndef ∨ ∃ f, v = JObj f.

Lemma optional_object_schema shape v strict :
  s_optional (s_object strict shape) v = Some v → optional_object v.
Proof. destruct v; try done; [by left|]. intros _. right. eauto. Qed.

Definition known (b : NodeBody) : Prop := match b with NUnknown _ => False | _ => True end.
(** What the contract gives of one step *)
Record step_shape (n : jsval) : Prop := {
  sh_known : known (body (node_of n));
  sh_channel : channel_rule n = true → ∀ m, body (node_of n) = NMessage m → messageChannel m ≠ None;
  sh_linear : includes ["message"; "delay"] (prop n "type") = true → is_message (node_of n) || is_delay (node_of n) = true;
  sh_id : truthy (prop n "id") = true → ∃ id, node_id (node_of n) = Some id ∧ id ≠ "" }.

Lemma node_shape_id type shape n :
  bool_decide (NoDup (map fst (("id", s_optional identifierSchema) :: ("type", s_literal type) :: shape))) = true →
  node_shape type shape n = Some n →
  truthy (prop n "id") = true → ∃ id, node_id (node_of n) = Some id ∧ id ≠ "".
Proof.
  intros Hd Hn Ht. eapply s_object_prop in Hn; [|done|by left]. destruct (prop n "id") eqn:E; try done.
  exists s. simpl. rewrite E. split; [done|]. intros ->. done.
Qed.

Lemma node_step n : nodeSchema n = Some n → step_shape n.
Proof.
  unfold nodeSchema, s_discriminated. destruct (prop n "type") as [| | | |tag| |] eqn:Et; try done.
  intros (s&Hs%JMap.get_In&Hn)%bind_Some.
  destruct Hs as [[= <- <-]|[[= <- <-]|[[= <- <-]|[[= <- <-]|[[= <- <-]|[]]]]]];
    (eassert (body (node_of n) = _) as Hb by (unfold node_of, body_of; cbn [body]; rewrite Et; reflexivity); simpl in Hb;
     change (body_of n) with (body (node_of n)) in Hb;
     split; [by rewrite Hb| |unfold is_message, is_delay; by rewrite Hb, Et|eapply node_shape_id; [|exact Hn]; by vm_compute]);
    rewrite Hb; try done.
  intros Hrule m [= <-]. unfold channel_rule in Hrule. rewrite Et in Hrule. simpl in Hrule. apply Nat.eqb_eq in Hrule.
  assert (∀ k s, In (k, s) [("push", s_optional pushSchema); ("email", s_optional emailSchema); ("alimtalk", s_optional alimtalkSchema)] →
    s (prop n k) = Some (prop n k)) as Hp.
  { intros k s Hin. eapply s_object_prop; [|exact Hn|]; [by vm_compute|]. right. by right. }
  assert (optional_object (prop n "push")) as H1 by (eapply optional_object_schema, Hp; by left).
  assert (optional_object (prop n "email")) as H2 by (eapply optional_object_schema, Hp; right; by left).
  assert (optional_object (prop n "alimtalk")) as H3 by (eapply optional_object_schema, Hp; right; right; by left).
  unfold channel_count in Hrule. simpl in Hrule. unfold messageChannel. simpl.
  destruct H1 as [E1|[? E1]], H2 as [E2|[? E2]], H3 as [E3|[? E3]]; rewrite E1, E2, E3 in *; done.
Qed.

Lemma array_items hi s v : stable s → s_array hi s v = Some v → ∃ l, v = JArr l ∧ Forall (λ x, s x = Some x) l.
Proof.
  intros Hst. destruct v as [| | | | |l|]; try done. simpl. case_match; [|done]. intros (l'&Hl&[= <-])%fmap_Some.
  exists l. split; [done|]. apply mapM_Some in Hl. apply Forall_forall. intros x Hx%list_elem_of_In.
  eapply Forall2_In_r in Hl as (y&_&Hy); [|exact Hx]. by apply (Hst y).
Qed.

(** C22. A definition the contract accepts is returned as it is when it is sent
    again; read as a journey, its steps are of the known types and every message
    has exactly one channel; a v2 definition has edges and an id on every step,
    any other is a list of messages and delays without graph parts. *)
Theorem accepted_definition v d :
  definitionSchema v = Some d →
  definitionSchema d = Some d
  ∧ let def := journey_of d in
    Forall (λ n, known (body n) ∧ ∀ m, body n = NMessage m → messageChannel m ≠ None) (nodes_of def)
    ∧ if version_is def 2
      then Forall (λ n, ∃ id, node_id n = Some id ∧ id ≠ "") (nodes_of def) ∧ edges def ≠ None
      else Forall (λ n, is_message n || is_delay n = true) (nodes_of def) ∧ edges def = None ∧ start_node_id def = None.
Proof.
  intros Hv%stable_definition. split; [done|]. unfold definitionSchema, s_refine in Hv.
  apply bind_Some in Hv as (d'&Hd&Hr). destruct (definition_rules d') eqn:Er; [|done]. simplify_eq.
  assert (∀ k s, In (k, s) definition_shape → s (prop d k) = Some (prop d k)) as Hp.
  { intros k s Hin. eapply s_object_prop; [|exact Hd|done]. by vm_compute. }
  destruct (array_items 65535 nodeSchema (prop d "nodes") stable_node) as (l&Hl&Hnodes); [apply Hp; unfold definition_shape; simpl; tauto|].
  assert (nodes_of (journey_of d) = map node_of l) as Hn by (unfold nodes_of; simpl; by rewrite Hl).
  unfold definition_rules in Er. rewrite Hl in Er. apply andb_true_iff in Er as [Hver Hch]. rewrite forallb_forall in Hch.
  assert (Forall (λ n, step_shape n) l) as Hsh by (eapply Forall_impl; [exact Hnodes|by apply node_step]).
  assert (version_is (journey_of d) 2 = is_number_eq (prop d "schema_version") 2) as Hv2.
  { unfold version_is. simpl. by destruct (prop d "schema_version"). }
  cbv zeta. rewrite Hn, Hv2. split.
  - apply Forall_map, Forall_forall. intros n Hin. rewrite Forall_forall in Hsh. destruct (Hsh n Hin). split; [done|].
    apply sh_channel0, Hch, list_elem_of_In, Hin.
  - unfold version_rule in Hver. rewrite Hl in Hver. simpl in Hver. destruct (is_number_eq _ _); b2p.
    + split.
      * apply Forall_map, Forall_forall. intros n Hin. rewrite Forall_forall in Hsh. apply (Hsh n Hin).
        destruct (truthy (prop n "id")) eqn:Ei; [done|]. exfalso.
        match goal with H : existsb _ l = false |- _ => apply existsb_fresh with (x := n) in H; [|by apply list_elem_of_In] end.
        by rewrite Ei in *.
      * assert (s_optional (s_array 262140 edgeSchema) (prop d "edges") = Some (prop d "edges")) as He
          by (apply Hp; unfold definition_shape; simpl; tauto).
        simpl. by destruct (prop d "edges").
    + split; [|split].
      * apply Forall_map, Forall_forall. intros n Hin. rewrite Forall_forall in Hsh. apply (Hsh n Hin).
        match goal with H : existsb _ l = false |- _ =>
          apply existsb_fresh with (x := n) in H; [|by apply list_elem_of_In]; by apply negb_false_iff in H end.
      * simpl. by destruct (prop d "edges").
      * simpl. by destruct (prop d "start_node_id").
Qed.
End Accepted.
