(* ===== verification/JourneyDb.v ===== *)
(** * Journeys and segments: the store

    The tables behind [journeys/journeys.controller.ts] and
    [segments/segments.controller.ts] ([db/postgres/schema.sql]), the
    statements they share, the commands sent to ClickHouse and the preview cache
    of Redis.  A PostgreSQL transaction rolls back the tables alone. *)

From Stdlib Require Import QArith.
From stdpp Require Import sorting pretty.
From S2P Require Import Prelude JsVal SegmentDsl JourneyModel Crypto Json Schema Authz AuthDb JourneyContract.

#[global] Open Scope Z_scope.

(** ** Rows *)

Inductive JourneyStatus := JDraft | JActive | JPaused | JArchived.
#[global] Instance JourneyStatus_eq_dec : EqDecision JourneyStatus.
Proof. solve_decision. Defined.
Definition status_text (s : JourneyStatus) : string :=
  match s with JDraft => "draft" | JActive => "active" | JPaused => "paused" | JArchived => "archived" end.

Record Journey := mkJourney {
  j_id : string; j_tenant : string; j_app : string; j_name : string; j_status : JourneyStatus;
  j_category : string; j_draft : jsval; j_active_version : option Z;
  j_created_by : string; j_updated_at : Z }.

Record Version := mkVersion { v_journey : string; v_version : Z; v_definition : jsval }.

Inductive RunStatus := RunActive | RunWaiting | RunClaimed | RunCompleted | RunExited | RunFailed.
#[global] Instance RunStatus_eq_dec : EqDecision RunStatus.
Proof. solve_decision. Defined.
Record JourneyState := mkState {
  js_id : string; js_tenant : string; js_app : string; js_journey : string; js_version : Z;
  js_user : string; js_status : RunStatus; js_claim_token : option string; js_claimed_by : option string;
  js_claimed_at : option Z; js_next_wake_at : option Z }.

Inductive NodeStatus := Arrived | NWaiting | Retrying | Resolved | NFailed | NExited.
#[global] Instance NodeStatus_eq_dec : EqDecision NodeStatus.
Proof. solve_decision. Defined.
Record NodeExecution := mkExecution {
  ex_state : string; ex_tenant : string; ex_app : string; ex_journey : string; ex_node : string;
  ex_status : NodeStatus; ex_resolved_at : option Z }.

Record OutboxRow := mkOutbox {
  ob_tenant : string; ob_app : string; ob_stream : string; ob_key : string; ob_payload : jsval }.

Inductive SegmentStatus := SActive | SBroken.
#[global] Instance SegmentStatus_eq_dec : EqDecision SegmentStatus.
Proof. solve_decision. Defined.
(** A stored DSL has the properties of its TypeScript type. *)
Record Segment := mkSegment {
  sg_id : string; sg_tenant : string; sg_app : string; sg_name : string; sg_definition : SegmentDSL;
  sg_status : SegmentStatus; sg_status_detail : option string; sg_created_by : string; sg_updated_at : Z }.

(** ** The store *)

Record Db := mkDb {
  app_rows : list App;
  journeys : list Journey;
  journey_versions : list Version;
  journey_states : list JourneyState;
  node_executions : list NodeExecution;
  journey_outbox : list OutboxRow;
  segments : list Segment }.

Definition set_journeys x (d : Db) : Db :=
  mkDb (app_rows d) x (journey_versions d) (journey_states d) (node_executions d) (journey_outbox d) (segments d).
Definition set_versions x (d : Db) : Db :=
  mkDb (app_rows d) (journeys d) x (journey_states d) (node_executions d) (journey_outbox d) (segments d).
Definition set_states x (d : Db) : Db :=
  mkDb (app_rows d) (journeys d) (journey_versions d) x (node_executions d) (journey_outbox d) (segments d).
Definition set_executions x (d : Db) : Db :=
  mkDb (app_rows d) (journeys d) (journey_versions d) (journey_states d) x (journey_outbox d) (segments d).
Definition set_outbox x (d : Db) : Db :=
  mkDb (app_rows d) (journeys d) (journey_versions d) (journey_states d) (node_executions d) x (segments d).
Definition set_segments x (d : Db) : Db :=
  mkDb (app_rows d) (journeys d) (journey_versions d) (journey_states d) (node_executions d) (journey_outbox d) x.

(** The cached preview of a segment, with the second it expires at *)
Record Preview := mkPreview { approx_count : num; sample : list (string * option string * list string) }.

Record World := mkWorld {
  pg : Db;
  ch_commands : list ClickHouseQuery;           (** what ClickHouse was told to insert *)
  preview_cache : gmap string (Preview * Z) }.

Definition set_pg (f : Db → Db) (w : World) : World := mkWorld (f (pg w)) (ch_commands w) (preview_cache w).

(** The environment of a request *)
Record Env := mkEnv {
  gen_uuid : nat → string;          (** [gen_random_uuid()] of a row, [randomUUID()] *)
  now : Z;
  journeyGraphV2Enabled : bool }.

(** What ClickHouse answers: [Number(rows[0]?.c ?? 0)] of a count, and the
    rows of a sample. *)
Class ClickHouse := {
  ch_count : ClickHouseQuery → num;
  ch_sample : ClickHouseQuery → list (string * string * list string) }.

Definition W : Type → Type := M World.

Definition db_get : W Db := w ← get; mret (pg w).
Definition db_modify (f : Db → Db) : W unit := modify (set_pg f).

(** [BEGIN ... COMMIT], [ROLLBACK] on an exception *)
Definition pg_transaction {A} (m : W A) : W A := λ w,
  match m w with
  | (Ok a, w') => (Ok a, w')
  | (Throw e, w') => (Throw e, set_pg (λ _, pg w) w')
  end.

(** ** Shared by the two controllers *)

Definition scope (tenant app t a : string) : bool := String.eqb t tenant && String.eqb a app.

(** [SELECT 1 FROM apps WHERE id = $1 AND tenant_id = $2] *)
Definition assertApp (appId : string) (member : SessionMember) : W unit :=
  d ← db_get;
  throw_if (row_count (λ a, String.eqb (ap_id a) appId && String.eqb (ap_tenant a) (sm_tenantId member)) (app_rows d) =? 0)
    (NotFoundException "앱을 찾을 수 없습니다").

Definition EDITOR_ROLES : list string := ["owner"; "admin"; "editor"].
Definition assertEditor (message : string) (member : SessionMember) : W unit :=
  throw_if (negb (String_in (sm_role member) EDITOR_ROLES)) (ForbiddenException message).

(** [parse]: a body the schema refuses is a 400 *)
Definition parse {A} (parsed : option A) : W A := some_or_throw parsed (BadRequestException "flattened issues").

(** The text of a [CompileError] *)
Definition compile_failed : exn := PlainError "CompileError".
Definition compiled_or_throw {A} (r : A + CompileError) (e : exn) : W A :=
  match r with inl c => mret c | inr _ => throw e end.

(** [category as Category] *)
Definition category_of (c : string) : Category :=
  if String.eqb c "transactional" then transactional else marketing.
