(* ===== verification/SegmentsApi.v ===== *)
(** * Segments ([apps/api/src/segments/segments.controller.ts])

    The handlers of the segment builder.  The zod schema of a DSL fixes its
    version, its operators and that a group has conditions; the conditions are
    then cast to their TypeScript type, and the compiler checks them.  A body is
    taken here with the properties of that type. *)

From Stdlib Require Import QArith.
From stdpp Require Import sorting pretty.
From S2P Require Import Prelude JsVal SegmentDsl JourneyModel Crypto Json Schema Authz AuthDb JourneyContract JourneyDb.

#[global] Open Scope Z_scope.

(** ** Schemas *)

Definition dslSchema (d : SegmentDSL) : bool :=
  version_ok (dsl_version d) && String_in (dsl_operator d) ["AND"; "OR"]
  && forallb (λ g, String_in (sg_operator g) ["AND"; "OR"] && Nat.leb 1 (length (sg_conditions g))) (dsl_groups d).

Record SegmentUpsert := mkSegmentUpsert { su_name : string; su_definition : SegmentDSL }.
Definition segmentSchema (b : SegmentUpsert) : option SegmentUpsert :=
  if (1 <=? js_length (su_name b)) && (js_length (su_name b) <=? 200) && dslSchema (su_definition b)
  then Some b else None.

Record PreviewBody := mkPreviewBody { pv_definition : SegmentDSL; pv_category : option string }.
Definition previewSchema (b : PreviewBody) : option (SegmentDSL * string) :=
  let category := default "marketing" (pv_category b) in
  if dslSchema (pv_definition b) && String_in category ["marketing"; "transactional"]
  then Some (pv_definition b, category) else None.

Definition PREVIEW_CACHE_TTL : Z := 60.

Section Segments.
Context `{Zod} `{Crypto} `{ClickHouse}.

(** ** Reading *)

Definition segment_scope (appId : string) (member : SessionMember) (s : Segment) : bool :=
  scope (sm_tenantId member) appId (sg_tenant s) (sg_app s).
Definition segment_at (appId id : string) (member : SessionMember) (s : Segment) : bool :=
  String.eqb (sg_id s) id && segment_scope appId member s.

Definition updated_desc (a b : Segment) : Prop := sg_updated_at b <= sg_updated_at a.
#[global] Instance updated_desc_dec a b : Decision (updated_desc a b).
Proof. unfold updated_desc. solve_decision. Defined.

Definition list_segments (appId : string) (member : SessionMember) : W (list Segment) :=
  _ ← assertApp appId member;
  d ← db_get;
  mret (merge_sort updated_desc (select (segment_scope appId member) (segments d))).

Definition get_segment (appId id : string) (member : SessionMember) : W Segment :=
  _ ← assertApp appId member;
  d ← db_get;
  some_or_throw (select1 (segment_at appId id member) (segments d)) (NotFoundException "Not Found").

(** ** Writing *)

Definition assertCompiles (definition : SegmentDSL) (tenantId appId : string) : W unit :=
  _ ← compiled_or_throw (compile number_format definition tenantId appId marketing)
        (BadRequestException "DSL 컴파일 실패");
  mret tt.

Definition same_name : exn := BadRequestException "같은 이름의 세그먼트가 이미 있습니다".

(** the primary key and [UNIQUE (app_id, name)] *)
Definition insert_segment (s : Segment) : W unit :=
  d ← db_get;
  _ ← throw_if (existsb (λ x, String.eqb (sg_id x) (sg_id s)
          || String.eqb (sg_app x) (sg_app s) && String.eqb (sg_name x) (sg_name s)) (segments d)) same_name;
  db_modify (λ d, set_segments (segments d ++ [s]) d).

Definition segment_editor : string := "세그먼트 편집은 Editor 이상만 가능합니다".

Definition create_segment (env : Env) (appId : string) (body : SegmentUpsert) (member : SessionMember) : W string :=
  _ ← assertApp appId member;
  _ ← assertEditor segment_editor member;
  data ← parse (segmentSchema body);
  _ ← assertCompiles (su_definition data) (sm_tenantId member) appId;
  _ ← insert_segment (mkSegment (gen_uuid env 0) (sm_tenantId member) appId (su_name data) (su_definition data)
                        SActive None (sm_memberId member) (now env));
  mret (gen_uuid env 0).

Definition renamed (env : Env) (data : SegmentUpsert) (s : Segment) : Segment :=
  mkSegment (sg_id s) (sg_tenant s) (sg_app s) (su_name data) (su_definition data) SActive None
    (sg_created_by s) (now env).

Definition update_segment (env : Env) (appId id : string) (body : SegmentUpsert) (member : SessionMember) : W unit :=
  _ ← assertApp appId member;
  _ ← assertEditor segment_editor member;
  data ← parse (segmentSchema body);
  _ ← assertCompiles (su_definition data) (sm_tenantId member) appId;
  d ← db_get;
  let rows := row_count (segment_at appId id member) (segments d) in
  _ ← throw_if ((0 <? rows)
         && existsb (λ x, negb (String.eqb (sg_id x) id) && String.eqb (sg_app x) appId
                          && String.eqb (sg_name x) (su_name data)) (segments d)) same_name;
  _ ← db_modify (λ d, set_segments (update_where (segment_at appId id member) (renamed env data) (segments d)) d);
  throw_if (rows =? 0) (NotFoundException "Not Found").

Definition remove_segment (appId id : string) (member : SessionMember) : W unit :=
  _ ← assertApp appId member;
  _ ← assertEditor segment_editor member;
  d ← db_get;
  let rows := row_count (segment_at appId id member) (segments d) in
  _ ← db_modify (λ d, set_segments (delete_where (segment_at appId id member) (segments d)) d);
  throw_if (rows =? 0) (NotFoundException "Not Found").

(** ** Preview *)

(** [toClickHouse({ sql, args })], an error of which is not caught *)
Definition to_query (c : Compiled) : W ClickHouseQuery :=
  match toClickHouse c with inl q => mret q | inr _ => throw compile_failed end.

Definition cache_key (member : SessionMember) (c : Compiled) : string :=
  "seg:preview:" +:+ sm_tenantId member +:+ ":"
  +:+ sha256_hex (sql c +:+ JSON_stringify number_format (JArr (args c))).

Definition count_query (c : Compiled) (name : string) : Compiled :=
  mkCompiled ("SELECT uniqCombined(user_id) AS " +:+ name +:+ " FROM (" +:+ sql c +:+ ")") (args c).
Definition sample_query (c : Compiled) : Compiled :=
  mkCompiled ("SELECT user_id, external_id, platforms
              FROM profiles_mirror FINAL
             WHERE user_id IN (" +:+ sql c +:+ ")
             LIMIT 10") (args c).

(** [GET] of a key with a time to live, at second [t] *)
Definition cached (t : Z) (key : string) (w : World) : option Preview :=
  '(p, expires) ← preview_cache w !! key; if t <? expires then Some p else None.
Definition cache_set (t : Z) (key : string) (p : Preview) (w : World) : World :=
  mkWorld (pg w) (ch_commands w) (<[key := (p, t + PREVIEW_CACHE_TTL)]> (preview_cache w)).

(** [s.external_id || null] *)
Definition or_null (s : string) : option string := if String.eqb s "" then None else Some s.

Definition compute_preview (env : Env) (key : string) (c : Compiled) : W Preview :=
  countQuery ← to_query (count_query c "approx");
  sampleQuery ← to_query (sample_query c);
  let result := mkPreview (ch_count countQuery)
                  (map (λ '(user, external, platforms), (user, or_null external, platforms)) (ch_sample sampleQuery)) in
  _ ← modify (cache_set (now env / 1000000) key result);
  mret result.

Definition preview_segment (env : Env) (appId : string) (body : PreviewBody) (member : SessionMember) : W Preview :=
  _ ← assertApp appId member;
  '(definition, category) ← parse (previewSchema body);
  compiled ← compiled_or_throw (compile number_format definition (sm_tenantId member) appId (category_of category))
               (BadRequestException "CompileError");
  w ← get;
  match cached (now env / 1000000) (cache_key member compiled) w with
  | Some p => mret p
  | None => compute_preview env (cache_key member compiled) compiled
  end.
End Segments.
