(* ===== verification/JourneyApi.v ===== *)
(** * Journeys ([apps/api/src/journeys/journeys.controller.ts])

    The handlers of the journey editor: drafts, validation, activation (a
    version snapshot, the audience of a blast and its entry job), pausing and
    archiving. *)

From Stdlib Require Import QArith.
From stdpp Require Import sorting pretty.
From S2P Require Import Prelude JsVal SegmentDsl Graph BranchCondition JourneyModel Crypto Json Schema Authz AuthDb JourneyContract JourneyDb SegmentsApi.

#[global] Open Scope Z_scope.

Section Journeys.
Context `{Zod} `{Crypto} `{Collation} `{ClickHouse}.

(** ** Statements *)

Definition journey_scope (appId : string) (member : SessionMember) (j : Journey) : bool :=
  scope (sm_tenantId member) appId (j_tenant j) (j_app j).
(** [WHERE id = $1 AND tenant_id = $2 AND app_id = $3] *)
Definition journey_at (appId id : string) (member : SessionMember) (j : Journey) : bool :=
  String.eqb (j_id j) id && journey_scope appId member j.

Definition journey_name_taken : exn := BadRequestException "같은 이름의 저니가 이미 있습니다".

Definition insert_journey (j : Journey) : W unit :=
  d ← db_get;
  _ ← throw_if (existsb (λ x, String.eqb (j_id x) (j_id j)
          || String.eqb (j_app x) (j_app j) && String.eqb (j_name x) (j_name j)) (journeys d)) journey_name_taken;
  db_modify (λ d, set_journeys (journeys d ++ [j]) d).

(** [SELECT v.definition FROM journey_versions v JOIN journeys j ...] *)
Definition versions_of (appId id : string) (member : SessionMember) (d : Db) : list Version :=
  if existsb (journey_at appId id member) (journeys d)
  then select (λ v, String.eqb (v_journey v) id) (journey_versions d) else [].
Definition version_le (a b : Version) : Prop := v_version a <= v_version b.
#[global] Instance version_le_dec a b : Decision (version_le a b).
Proof. unfold version_le. solve_decision. Defined.

Definition publishedABNodes (appId id : string) (member : SessionMember) (d : Db) : PublishedABNodes :=
  collectPublishedABNodes
    (map (λ v, journey_of (v_definition v)) (merge_sort version_le (versions_of appId id member d))).

Definition graph_disabled : ValidationIssue :=
  mkIssue Error "모든 워커를 업데이트한 뒤 JOURNEY_GRAPH_V2_ENABLED=true로 활성화하세요" None None None
    (Some "schema_version").

Definition definitionIssues (env : Env) (appId id : string) (member : SessionMember) (def : JourneyDefinition) (d : Db)
    : list ValidationIssue :=
  validateJourney number_format def
  ++ when (version_is def 2 && negb (journeyGraphV2Enabled env)) [graph_disabled]
  ++ validatePublishedABNodes def (publishedABNodes appId id member d).

(** ** Segments of a blast *)

Definition compileSegment (tenantId appId segmentId category : string) : W Compiled :=
  d ← db_get;
  s ← some_or_throw (select1 (λ s, String.eqb (sg_id s) segmentId && scope tenantId appId (sg_tenant s) (sg_app s))
         (segments d)) (BadRequestException "세그먼트를 찾을 수 없습니다");
  _ ← throw_if (bool_decide (sg_status s = SBroken)) (BadRequestException "broken 세그먼트로는 활성화할 수 없습니다");
  compiled_or_throw (compile number_format (sg_definition s) tenantId appId (category_of category)) compile_failed.

Definition audience_sql (c : Compiled) : Compiled :=
  mkCompiled ("INSERT INTO campaign_audiences (audience_ref, tenant_id, app_id, user_id, created_at)
              SELECT {aref:UUID}, {tid:UUID}, {aid:UUID}, user_id, now64(3)
                FROM (" +:+ sql c +:+ ")") (args c).

Definition snapshotAudience (env : Env) (tenantId appId segmentId category : string) : W string :=
  compiled ← compileSegment tenantId appId segmentId category;
  let audienceRef := gen_uuid env 1 in
  insert ← to_query (audience_sql compiled);
  _ ← modify (λ w, mkWorld (pg w)
        (ch_commands w ++ [mkQuery (query insert)
           (query_params insert ++ [("aref", JStr audienceRef); ("tid", JStr tenantId); ("aid", JStr appId)])])
        (preview_cache w));
  mret audienceRef.

Definition audienceCount (tenantId appId segmentId category : string) : W num :=
  compiled ← compileSegment tenantId appId segmentId category;
  q ← to_query (count_query compiled "c");
  mret (ch_count q).

(** ** Drafts *)

Definition newer_first (a b : Journey) : Prop := j_updated_at b <= j_updated_at a.
#[global] Instance newer_first_dec a b : Decision (newer_first a b).
Proof. unfold newer_first. solve_decision. Defined.

Definition list_journeys (env : Env) (appId : string) (member : SessionMember) : W (list Journey * list string) :=
  _ ← assertApp appId member;
  d ← db_get;
  mret (merge_sort newer_first (select (journey_scope appId member) (journeys d)),
        supported_node_types (journeyGraphV2Enabled env)).

(** the row, the draft's revision, the published allocations and the node types *)
Definition get_journey (env : Env) (appId id : string) (member : SessionMember)
    : W (Journey * string * PublishedABNodes * list string) :=
  _ ← assertApp appId member;
  d ← db_get;
  j ← some_or_throw (select1 (journey_at appId id member) (journeys d)) (NotFoundException "Not Found");
  mret (j, draftRevision (j_name j) (j_draft j), publishedABNodes appId id member d,
        supported_node_types (journeyGraphV2Enabled env)).

Definition journey_editor : string := "저니 편집·활성화는 Editor 이상만 가능합니다".

(** [data.definition.settings.category] *)
Definition category_in (definition : jsval) : string := text_of (prop (prop definition "settings") "category").

Definition create_journey (env : Env) (appId : string) (body : jsval) (member : SessionMember) : W (string * string) :=
  _ ← assertApp appId member;
  _ ← assertEditor journey_editor member;
  data ← parse (upsertSchema body);
  _ ← insert_journey (mkJourney (gen_uuid env 0) (sm_tenantId member) appId (up_name data) JDraft
         (category_in (up_definition data)) (up_definition data) None (sm_memberId member) (now env));
  mret (gen_uuid env 0, draftRevision (up_name data) (up_definition data)).

Definition editable (j : Journey) : bool := bool_decide (j_status j = JDraft ∨ j_status j = JPaused).
Definition edited (env : Env) (data : Upsert) (j : Journey) : Journey :=
  mkJourney (j_id j) (j_tenant j) (j_app j) (up_name data) (j_status j) (category_in (up_definition data))
    (up_definition data) (j_active_version j) (j_created_by j) (now env).

Definition update_journey (env : Env) (appId id : string) (body : jsval) (member : SessionMember) : W string :=
  _ ← assertApp appId member;
  _ ← assertEditor journey_editor member;
  data ← parse (upsertSchema body);
  d ← db_get;
  let p := λ j, journey_at appId id member j && editable j in
  let rows := row_count p (journeys d) in
  _ ← throw_if ((0 <? rows)
         && existsb (λ x, negb (String.eqb (j_id x) id) && String.eqb (j_app x) appId
                          && String.eqb (j_name x) (up_name data)) (journeys d)) journey_name_taken;
  _ ← db_modify (λ d, set_journeys (update_where p (edited env data) (journeys d)) d);
  _ ← throw_if (rows =? 0) (NotFoundException "수정 가능한 저니를 찾을 수 없습니다 (활성 저니는 새 버전으로만 변경)");
  mret (draftRevision (up_name data) (up_definition data)).

(** [load] *)
Definition load (appId id : string) (member : SessionMember) : W Journey :=
  d ← db_get;
  some_or_throw (select1 (journey_at appId id member) (journeys d)) (NotFoundException "저니를 찾을 수 없습니다").

(** [def.entry.type === "blast" && def.entry.segment_id], the segment *)
Definition blast_segment (def : JourneyDefinition) : option string :=
  match entry def with
  | Some e =>
      if bool_decide (entry_type e = Some "blast") && negb (falsy (segment_id e)) then segment_id e else None
  | None => None
  end.

Definition validate_journey (env : Env) (appId id : string) (member : SessionMember)
    : W (list ValidationIssue * option num * string) :=
  j ← load appId id member;
  d ← db_get;
  let def := journey_of (j_draft j) in
  let issues := definitionIssues env appId id member def d in
  let revision := draftRevision (j_name j) (j_draft j) in
  match blast_segment def with
  | Some segment =>
      if hasErrors issues then mret (issues, None, revision)
      else n ← audienceCount (sm_tenantId member) appId segment (category_in (j_draft j));
           mret (issues, Some n, revision)
  | None => mret (issues, None, revision)
  end.

(** ** Activation *)

Definition next_version (appId id : string) (member : SessionMember) (d : Db) : Z :=
  foldr Z.max 0 (map v_version (versions_of appId id member d)) + 1.

Definition insert_version (v : Version) : W unit :=
  d ← db_get;
  _ ← throw_if (existsb (λ x, String.eqb (v_journey x) (v_journey v) && (v_version x =? v_version v)) (journey_versions d))
        unique_violation;
  db_modify (λ d, set_versions (journey_versions d ++ [v]) d).

Definition activated (env : Env) (version : Z) (j : Journey) : Journey :=
  mkJourney (j_id j) (j_tenant j) (j_app j) (j_name j) JActive (j_category j) (j_draft j) (Some version)
    (j_created_by j) (now env).

Definition STREAM_journeyEntry : string := "stream:journey.entry".
Definition entry_key (id : string) (version : Z) : string := "v2:entry:" +:+ id +:+ ":" +:+ pretty version.
Definition entry_job (id : string) (version : Z) (audienceRef : string) : jsval :=
  JObj [("journey_id", JStr id); ("version", JNum (NInt version)); ("source", JStr "blast");
        ("audience_ref", JStr audienceRef)].

(** the partial unique index of the outbox *)
Definition deduplicated (key : string) : bool := starts_with "v2:" key || starts_with "event." key.
(** [INSERT ... ON CONFLICT DO NOTHING] *)
Definition add_outbox (r : OutboxRow) (d : Db) : Db :=
  if deduplicated (ob_key r)
     && existsb (λ x, scope (ob_tenant r) (ob_app r) (ob_tenant x) (ob_app x) && String.eqb (ob_key x) (ob_key r))
          (journey_outbox d)
  then d else set_outbox (journey_outbox d ++ [r]) d.
Definition insert_outbox (r : OutboxRow) : W unit := db_modify (add_outbox r).

(** The version, its activation and the entry job of its audience *)
Definition publish_version (env : Env) (appId id : string) (member : SessionMember) (j : Journey)
    (version : Z) (audienceRef : option string) : W unit :=
  _ ← insert_version (mkVersion id version (j_draft j));
  _ ← db_modify (λ d, set_journeys (update_where (journey_at appId id member) (activated env version) (journeys d)) d);
  match audienceRef with
  | Some ref =>
      insert_outbox (mkOutbox (sm_tenantId member) appId STREAM_journeyEntry (entry_key id version)
        (entry_job id version ref))
  | None => mret tt
  end.

Definition snapshot_if (env : Env) (appId : string) (member : SessionMember) (j : Journey) : W (option string) :=
  match blast_segment (journey_of (j_draft j)) with
  | Some segment =>
      ref ← snapshotAudience env (sm_tenantId member) appId segment (category_in (j_draft j)); mret (Some ref)
  | None => mret None
  end.

Definition stale_revision (revision : option string) (j : Journey) : bool :=
  let given := negb (falsy revision) in
  (version_is (journey_of (j_draft j)) 2 && negb given)
  || given && negb (bool_decide (revision = Some (draftRevision (j_name j) (j_draft j)))).

Definition activate_locked (env : Env) (appId id : string) (member : SessionMember) (revision : option string)
    : W (Z * option string) :=
  j ← load appId id member;
  _ ← throw_if (negb (editable j)) (ConflictException "초안 또는 일시정지 상태에서만 활성화할 수 있습니다");
  _ ← throw_if (stale_revision revision j) (ConflictException "검증 이후 초안이 변경되었습니다. 다시 검증해 주세요");
  d ← db_get;
  _ ← throw_if (hasErrors (definitionIssues env appId id member (journey_of (j_draft j)) d))
        (BadRequestException "검증 실패로 활성화할 수 없습니다");
  let version := next_version appId id member d in
  audienceRef ← snapshot_if env appId member j;
  _ ← publish_version env appId id member j version audienceRef;
  mret (version, audienceRef).

(** [activationSchema.safeParse(body ?? {})] *)
Definition activation_body (body : jsval) : jsval := if is_nullish body then JObj [] else body.

Definition activate_journey (env : Env) (appId id : string) (body : jsval) (member : SessionMember)
    : W (Z * option string) :=
  _ ← assertEditor journey_editor member;
  _ ← assertApp appId member;
  revision ← parse (activationSchema (activation_body body));
  pg_transaction (activate_locked env appId id member revision).

(** ** Pausing and archiving *)

Definition with_status (env : Env) (s : JourneyStatus) (j : Journey) : Journey :=
  mkJourney (j_id j) (j_tenant j) (j_app j) (j_name j) s (j_category j) (j_draft j) (j_active_version j)
    (j_created_by j) (now env).

Definition setStatus (env : Env) (appId id : string) (member : SessionMember) (to : JourneyStatus)
    (from : list JourneyStatus) : W unit :=
  _ ← assertApp appId member;
  d ← db_get;
  let p := λ j, journey_at appId id member j && existsb (λ s, bool_decide (j_status j = s)) from in
  _ ← db_modify (λ d, set_journeys (update_where p (with_status env to) (journeys d)) d);
  throw_if (row_count p (journeys d) =? 0)
    (ConflictException ("현재 상태에서 " +:+ status_text to +:+ "로 전환할 수 없습니다")).

Definition pause_journey (env : Env) (appId id : string) (member : SessionMember) : W unit :=
  _ ← assertEditor journey_editor member;
  setStatus env appId id member JPaused [JActive].

Definition live_state (s : RunStatus) : bool := bool_decide (s = RunActive ∨ s = RunWaiting ∨ s = RunClaimed).
Definition exit_state (s : JourneyState) : JourneyState :=
  mkState (js_id s) (js_tenant s) (js_app s) (js_journey s) (js_version s) (js_user s) RunExited None None None None.
Definition open_execution (s : NodeStatus) : bool := bool_decide (s = Arrived ∨ s = NWaiting ∨ s = Retrying).
Definition exit_execution (env : Env) (x : NodeExecution) : NodeExecution :=
  mkExecution (ex_state x) (ex_tenant x) (ex_app x) (ex_journey x) (ex_node x) NExited (Some (now env)).

Definition archive_journey (env : Env) (appId id : string) (member : SessionMember) : W unit :=
  _ ← assertEditor journey_editor member;
  _ ← assertApp appId member;
  pg_transaction (
    _ ← load appId id member;
    _ ← db_modify (λ d, set_journeys (update_where (journey_at appId id member) (with_status env JArchived) (journeys d)) d);
    _ ← db_modify (λ d, set_states (update_where (λ s, String.eqb (js_journey s) id
            && scope (sm_tenantId member) appId (js_tenant s) (js_app s) && live_state (js_status s))
            exit_state (journey_states d)) d);
    db_modify (λ d, set_executions (update_where (λ x, String.eqb (ex_journey x) id
            && scope (sm_tenantId member) appId (ex_tenant x) (ex_app x) && open_execution (ex_status x))
            (exit_execution env) (node_executions d)) d)).
End Journeys.
