(* ===== verification/JourneyMachine.v ===== *)
(** * Journeys: the machine the handlers implement

    The abstract machine of published journeys ([move]): a draft is added, a
    journey is edited, paused or archived, a version is published with the entry
    job of its audience, and everything else leaves the published state alone.
    The handlers of [JourneyApi] (and of [SegmentsApi]) only make such moves;
    the invariant [wf] is preserved by each of them. *)

From Stdlib Require Import Ascii QArith.
From stdpp Require Import sorting pretty.
From S2P Require Import Prelude JsVal SegmentDsl Graph BranchCondition JourneyModel JourneyProps Crypto Json Schema Authz AuthDb JourneyContract JourneyDb SegmentsApi JourneyApi.

#[global] Open Scope Z_scope.

Section Machine.
Context `{Zod} `{Crypto} `{Collation} `{ClickHouse}.

(** ** The published state *)

(** The versions of a journey, in the order of their insertion *)
Definition history (id : string) (d : Db) : list Version :=
  select (λ v, String.eqb (v_journey v) id) (journey_versions d).
Definition definitions (l : list Version) : list JourneyDefinition := map (λ v, journey_of (v_definition v)) l.

Definition is_entry_job (r : OutboxRow) : bool := starts_with "v2:entry:" (ob_key r).
(** The jobs under the key of a version *)
Definition jobs_of (id : string) (n : Z) (d : Db) : list OutboxRow :=
  select (λ r, String.eqb (ob_key r) (entry_key id n)) (journey_outbox d).

(** ClickHouse was told to fill the audience [ref] from a definition compiled
    for this tenant and application. *)
Definition scoped_audience (tenant app ref : string) (cmds : list ClickHouseQuery) : Prop :=
  ∃ dsl cat c q, compile number_format dsl tenant app cat = inl c ∧ toClickHouse (audience_sql c) = inl q
    ∧ In (mkQuery (query q) (query_params q ++ [("aref", JStr ref); ("tid", JStr tenant); ("aid", JStr app)])) cmds.

(** The entry jobs a version of a blast needs, and those it has *)
Definition jobs_ok (j : Journey) (v : Version) (w : World) : Prop :=
  match blast_segment (journey_of (v_definition v)) with
  | Some _ => ∃ ref, jobs_of (j_id j) (v_version v) (pg w)
      = [mkOutbox (j_tenant j) (j_app j) STREAM_journeyEntry (entry_key (j_id j) (v_version v))
           (entry_job (j_id j) (v_version v) ref)]
      ∧ scoped_audience (j_tenant j) (j_app j) ref (ch_commands w)
  | None => jobs_of (j_id j) (v_version v) (pg w) = []
  end.

(** ** Moves *)

(** What an update of a journey leaves alone *)
Definition legal (j j' : Journey) : Prop :=
  j_id j' = j_id j ∧ j_tenant j' = j_tenant j ∧ j_app j' = j_app j ∧ j_active_version j' = j_active_version j
  ∧ (j_status j' = JActive → j_status j = JActive) ∧ (j_status j' = JDraft → j_status j = JDraft)
  ∧ (j_status j = JArchived → j_status j' = JArchived ∧ j_draft j' = j_draft j).

Definition published (env : Env) (appId id : string) (member : SessionMember) (j : Journey) (job : option OutboxRow)
    (d : Db) : Db :=
  let n := next_version appId id member d in
  let d1 := set_versions (journey_versions d ++ [mkVersion id n (j_draft j)]) d in
  let d2 := set_journeys (update_where (journey_at appId id member) (activated env n) (journeys d)) d1 in
  match job with Some r => add_outbox r d2 | None => d2 end.

(** The job published with a version: that of the blast's audience *)
Definition job_for (j : Journey) (n : Z) (job : option OutboxRow) (cmds : list ClickHouseQuery) : Prop :=
  match blast_segment (journey_of (j_draft j)) with
  | Some _ => ∃ ref, job = Some (mkOutbox (j_tenant j) (j_app j) STREAM_journeyEntry (entry_key (j_id j) n)
                                  (entry_job (j_id j) n ref))
                     ∧ scoped_audience (j_tenant j) (j_app j) ref cmds
  | None => job = None
  end.

Inductive move (w w' : World) : Prop :=
| move_other :
    journeys (pg w') = journeys (pg w) → journey_versions (pg w') = journey_versions (pg w) →
    select is_entry_job (journey_outbox (pg w')) = select is_entry_job (journey_outbox (pg w)) →
    ch_commands w `prefix_of` ch_commands w' → move w w'
| move_add j :
    j_status j = JDraft → j_active_version j = None → (∀ x, In x (journeys (pg w)) → j_id x ≠ j_id j) →
    w' = set_pg (λ d, set_journeys (journeys d ++ [j]) d) w → move w w'
| move_edit p f :
    (∀ j, p j = true → legal j (f j)) →
    w' = set_pg (λ d, set_journeys (update_where p f (journeys d)) d) w → move w w'
| move_publish env appId id member j job :
    In j (journeys (pg w)) → journey_at appId id member j = true → editable j = true →
    hasErrors (definitionIssues env appId id member (journey_of (j_draft j)) (pg w)) = false →
    ch_commands w `prefix_of` ch_commands w' → job_for j (next_version appId id member (pg w)) job (ch_commands w') →
    pg w' = published env appId id member j job (pg w) → move w w'.

(** ** The invariant *)

Definition numbered (l : list Version) : Prop := ∀ i v, l !! i = Some v → v_version v = Z.of_nat i + 1.

Record wf (w : World) : Prop := {
  wf_ids : List.NoDup (map j_id (journeys (pg w)));
  wf_owned : ∀ v, In v (journey_versions (pg w)) → ∃ j, In j (journeys (pg w)) ∧ j_id j = v_journey v;
  wf_numbered : ∀ id, numbered (history id (pg w));
  wf_active : ∀ j, In j (journeys (pg w)) →
    let n := length (history (j_id j) (pg w)) in
    j_active_version j = (if Nat.eqb n 0 then None else Some (Z.of_nat n))
    ∧ (j_status j = JActive → n ≠ 0%nat) ∧ (j_status j = JDraft → n = 0%nat);
  wf_valid : ∀ v, In v (journey_versions (pg w)) →
    hasErrors (validateJourney number_format (journey_of (v_definition v))) = false;
  wf_history : ∀ id, published_history (List.filter (λ def, version_is def 2) (definitions (history id (pg w))));
  wf_jobs : ∀ j v, In j (journeys (pg w)) → In v (history (j_id j) (pg w)) → jobs_ok j v w;
  wf_keys : ∀ r, In r (journey_outbox (pg w)) → is_entry_job r = true →
    ∃ v, In v (journey_versions (pg w)) ∧ ob_key r = entry_key (v_journey v) (v_version v) }.

(** ** Versions *)

Lemma numbered_snoc l v : numbered (l ++ [v]) ↔ numbered l ∧ v_version v = Z.of_nat (length l) + 1.
Proof.
  split.
  - intros Hn. split; [|apply Hn, list_lookup_middle; done]. intros i x Hi. apply Hn. by apply lookup_app_l_Some.
  - intros [Hn Hv] i x [Hi|[Hge Hi]]%lookup_app_Some; [auto|].
    apply list_lookup_singleton_Some in Hi as [Hi <-]. rewrite Hv. lia.
Qed.

Lemma numbered_bound l v : numbered l → In v l → 1 <= v_version v <= Z.of_nat (length l).
Proof.
  intros Hn Hin. apply list_elem_of_In, list_elem_of_lookup in Hin as [i Hi].
  rewrite (Hn _ _ Hi). apply lookup_lt_Some in Hi. lia.
Qed.

Lemma numbered_inj l v v' : numbered l → In v l → In v' l → v_version v = v_version v' → v = v'.
Proof.
  intros Hn Hin Hin' He. apply list_elem_of_In, list_elem_of_lookup in Hin as [i Hi], Hin' as [k Hk].
  pose proof (Hn _ _ Hi). pose proof (Hn _ _ Hk). assert (i = k) by lia. congruence.
Qed.

#[local] Instance version_le_trans : Transitive version_le.
Proof. intros x y z. unfold version_le. lia. Qed.
#[local] Instance version_le_total : Total version_le.
Proof. intros x y. unfold version_le. lia. Qed.

Lemma numbered_sorted l : numbered l → merge_sort version_le l = l.
Proof.
  intros Hn. apply (StronglySorted_unique_strong version_le).
  - intros v v' Hin Hin' Hle Hle'. rewrite merge_sort_Permutation in Hin. unfold version_le in *.
    apply (numbered_inj l); [done| | |lia]; by apply list_elem_of_In.
  - apply StronglySorted_merge_sort; apply _.
  - induction l as [|v l IH] using rev_ind; [constructor|]. apply numbered_snoc in Hn as [Hn Hv].
    apply StronglySorted_app_2; [|by apply IH|repeat constructor].
    intros x y Hx ->%list_elem_of_singleton. apply list_elem_of_In in Hx.
    pose proof (numbered_bound _ _ Hn Hx). unfold version_le. lia.
  - apply merge_sort_Permutation.
Qed.

Lemma numbered_max l : numbered l → foldr Z.max 0 (map v_version l) = Z.of_nat (length l).
Proof.
  assert (∀ (l : list Z) x, 0 <= x → foldr Z.max x l = Z.max x (foldr Z.max 0 l)) as Hf.
  { clear. induction l as [|y l IH]; intros x Hx; simpl; [lia|]. rewrite (IH x Hx). lia. }
  induction l as [|v l IH] using rev_ind; [done|]. intros [Hn Hv]%numbered_snoc.
  rewrite map_app, foldr_app. simpl. rewrite Hf, (IH Hn), length_app by lia. simpl. lia.
Qed.

(** A list of steps publishes no allocation. *)
Lemma collect_linear p def :
  version_is def 2 = false → hasErrors (validateJourney number_format def) = false →
  fold_left collect_node (nodes_of def) p = p.
Proof.
  intros Hv [_ _ _ _ Hlin _ _ _]%validateJourney_spec. specialize (Hlin Hv). clear Hv.
  revert p. induction Hlin as [|n l Hn _ IH]; intros p; [done|]. simpl.
  assert (collect_node p n = p) as ->; [|apply IH].
  unfold collect_node, is_message, is_delay in *. by destruct (body n).
Qed.

Lemma collect_graphs l :
  Forall (λ def, hasErrors (validateJourney number_format def) = false) l →
  collectPublishedABNodes l = collectPublishedABNodes (List.filter (λ def, version_is def 2) l).
Proof.
  unfold collectPublishedABNodes. intros Hl. generalize (@nil (string * list ABVariant)).
  induction Hl as [|def l Hd _ IH]; intros p; [done|]. simpl.
  destruct (version_is def 2) eqn:Ev; simpl; [apply IH|]. by rewrite (collect_linear p def Ev Hd).
Qed.

Lemma versions_of_history appId id member j d :
  In j (journeys d) → journey_at appId id member j = true → versions_of appId id member d = history id d.
Proof.
  intros Hin Hat. unfold versions_of.
  assert (existsb (journey_at appId id member) (journeys d) = true) as ->; [|done].
  apply existsb_exists. eauto.
Qed.

Lemma history_snoc d id v : history id (set_versions (journey_versions d ++ [v]) d)
  = history id d ++ (if String.eqb (v_journey v) id then [v] else []).
Proof. unfold history, select. simpl. rewrite List.filter_app. simpl. by case_match. Qed.

Lemma history_In id d v : In v (history id d) ↔ In v (journey_versions d) ∧ v_journey v = id.
Proof. unfold history. rewrite select_In. by rewrite String.eqb_eq. Qed.

(** The check of an activation, against the history of the journey *)
Lemma issues_checked w env appId id member j :
  wf w → In j (journeys (pg w)) → journey_at appId id member j = true →
  hasErrors (definitionIssues env appId id member (journey_of (j_draft j)) (pg w)) = false →
  let def := journey_of (j_draft j) in
  hasErrors (validateJourney number_format def) = false
  ∧ validatePublishedABNodes def
      (collectPublishedABNodes (List.filter (λ def, version_is def 2) (definitions (history id (pg w))))) = []
  ∧ next_version appId id member (pg w) = Z.of_nat (length (history id (pg w))) + 1.
Proof.
  intros [] Hin Hat He. unfold definitionIssues, publishedABNodes in He.
  rewrite (versions_of_history _ _ _ _ _ Hin Hat), numbered_sorted in He by done.
  unfold next_version. rewrite (versions_of_history _ _ _ _ _ Hin Hat), numbered_max by done.
  rewrite <- collect_graphs.
  2: { apply Forall_forall. intros def (v&<-&Hv)%list_elem_of_In%in_map_iff. apply history_In in Hv as [Hv _]. auto. }
  unfold hasErrors in He |- *. rewrite !existsb_app in He. apply orb_false_iff in He as [He1 He].
  apply orb_false_iff in He as [_ He2]. split_and!; [done| |done].
  apply not_true_iff_false in He2. unfold definitions.
  match goal with |- ?l = [] => destruct l as [|i rest] eqn:El; [done|] end. destruct He2.
  apply existsb_exists. exists i. split; [by left|].
  assert (In i (i :: rest)) as Hi by (by left). rewrite <- El in Hi. unfold validatePublishedABNodes in Hi.
  apply in_concat in Hi as (l&Hl&Hi). apply list_elem_of_In, list_elem_of_lookup in Hl as [k Hk].
  rewrite list_lookup_imap in Hk. apply fmap_Some in Hk as (node&_&->).
  repeat case_match; try done. by destruct Hi as [<-|[]].
Qed.

(** ** Keys *)

Lemma digits_no_colon s : str_forallb is_digit s = true → str_count ":" s = 0%nat.
Proof.
  induction s as [|c s IH]; [done|]. cbn [str_forallb str_count]. intros [Hc Hs]%andb_true_iff. rewrite (IH Hs).
  destruct (Ascii.eqb ":" c) eqn:E; [|done]. apply Ascii.eqb_eq in E as <-. done.
Qed.
Lemma pretty_no_colon n : 0 <= n → str_count ":" (pretty n) = 0%nat.
Proof.
  intros Hn. apply digits_no_colon, (pretty_Z_shape (S (Z.to_nat n))); [lia|]. split; [done|].
  rewrite Nat2Z.inj_succ, Z2Nat.id by done. pose proof (Z.pow_gt_lin_r 10 (Z.succ n)). lia.
Qed.
Lemma last_colon a b p q :
  str_count ":" p = 0%nat → str_count ":" q = 0%nat → a +:+ ":" +:+ p = b +:+ ":" +:+ q → a = b ∧ p = q.
Proof.
  intros Hp Hq. change (":" +:+ p) with (String ":" p). change (":" +:+ q) with (String ":" q).
  revert b. induction a as [|c a IH]; intros [|c' b] E; rewrite ?str_app_cons in E.
  - by injection E as ->.
  - exfalso. change ("" +:+ String ":" p) with (String ":" p) in E. injection E as _ ->.
    rewrite str_count_app in Hp. simpl in Hp. lia.
  - exfalso. change ("" +:+ String ":" q) with (String ":" q) in E. injection E as _ <-.
    rewrite str_count_app in Hq. simpl in Hq. lia.
  - injection E as -> E. by destruct (IH b E) as [-> ->].
Qed.
Lemma entry_key_inj id n id' n' :
  0 <= n → 0 <= n' → entry_key id n = entry_key id' n' → id = id' ∧ n = n'.
Proof.
  unfold entry_key. intros Hn Hn' E%(inj (String.append _)).
  apply last_colon in E as [Hid E]; [|by apply pretty_no_colon..]. apply (inj pretty) in E. by split.
Qed.
Lemma entry_key_job r id n : ob_key r = entry_key id n → is_entry_job r = true.
Proof. unfold is_entry_job, entry_key. intros ->. apply starts_with_app. Qed.

Lemma jobs_of_entry id n d :
  jobs_of id n d = select (λ r, String.eqb (ob_key r) (entry_key id n)) (select is_entry_job (journey_outbox d)).
Proof.
  unfold jobs_of, select. induction (journey_outbox d) as [|r l IH]; [done|]. simpl.
  destruct (String.eqb (ob_key r) (entry_key id n)) eqn:E.
  - apply String.eqb_eq in E as E'. rewrite (entry_key_job r id n E'). simpl. by rewrite E, IH.
  - rewrite IH. destruct (is_entry_job r); [|done]. simpl. by rewrite E.
Qed.

(** ** The invariant holds at the start and after every move *)

Definition initial (w : World) : Prop :=
  journeys (pg w) = [] ∧ journey_versions (pg w) = [] ∧ select is_entry_job (journey_outbox (pg w)) = [].

Lemma wf_initial w : initial w → wf w.
Proof.
  intros (Hj&Hv&Ho). split; rewrite ?Hj, ?Hv; try done.
  - constructor.
  - intros id i v Hi. unfold history in Hi. by rewrite Hv in Hi.
  - intros id. unfold history. rewrite Hv. constructor.
  - intros r Hr He. assert (In r (select is_entry_job (journey_outbox (pg w)))) as Hin by (by apply select_In).
    by rewrite Ho in Hin.
Qed.

Lemma scoped_audience_mono t a ref l l' : l `prefix_of` l' → scoped_audience t a ref l → scoped_audience t a ref l'.
Proof.
  intros [k ->] (dsl&cat&c&q&?&?&?). exists dsl, cat, c, q. split_and!; [done|done|]. apply in_app_iff. by left.
Qed.
Lemma jobs_ok_mono j v w w' :
  jobs_of (j_id j) (v_version v) (pg w') = jobs_of (j_id j) (v_version v) (pg w) →
  ch_commands w `prefix_of` ch_commands w' → jobs_ok j v w → jobs_ok j v w'.
Proof.
  unfold jobs_ok. intros -> Hp. case_match; [|done]. intros (ref&Hr&Ha). exists ref. split; [done|].
  by eapply scoped_audience_mono.
Qed.

Lemma wf_other w w' :
  journeys (pg w') = journeys (pg w) → journey_versions (pg w') = journey_versions (pg w) →
  select is_entry_job (journey_outbox (pg w')) = select is_entry_job (journey_outbox (pg w)) →
  ch_commands w `prefix_of` ch_commands w' → wf w → wf w'.
Proof.
  intros Hj Hv Ho Hc [].
  assert (∀ id, history id (pg w') = history id (pg w)) as Hh by (intros id; unfold history; by rewrite Hv).
  split; rewrite ?Hj, ?Hv; try done.
  - intros id. by rewrite Hh.
  - intros j Hin. rewrite Hh. auto.
  - intros id. by rewrite Hh.
  - intros j v Hin Hin'. rewrite Hh in Hin'. apply (jobs_ok_mono _ _ w); [by rewrite !jobs_of_entry, Ho|done|auto].
  - intros r Hr He. apply wf_keys0; [|done].
    assert (In r (select is_entry_job (journey_outbox (pg w')))) as Hin by (by apply select_In).
    rewrite Ho in Hin. by apply select_In in Hin as [? _].
Qed.

(** Journeys that keep their identity and version; [l] is the table after. *)
Lemma wf_journeys w l :
  List.NoDup (map j_id l) →
  (∀ j, In j (journeys (pg w)) → ∃ j', In j' l ∧ j_id j' = j_id j) →
  (∀ j', In j' l → (∃ j, In j (journeys (pg w)) ∧ legal j j')
     ∨ j_status j' = JDraft ∧ j_active_version j' = None ∧ ∀ j, In j (journeys (pg w)) → j_id j ≠ j_id j') →
  wf w → wf (set_pg (set_journeys l) w).
Proof.
  intros Hd Hk Hl []. split; simpl; try done.
  - intros v (j&Hj&Hid)%wf_owned0. destruct (Hk _ Hj) as (j'&?&?). exists j'. split; [done|congruence].
  - intros j' Hj'. destruct (Hl _ Hj') as [(j&Hj&(Hid&_&_&Hav&Ha&Hdr&_))|(Hs&Hav&Hf)].
    + destruct (wf_active0 _ Hj) as (?&?&?). change (history (j_id j') _) with (history (j_id j') (pg w)).
      rewrite Hid, Hav. split_and!; auto.
    + assert (history (j_id j') (pg w) = []) as Hh.
      { destruct (history (j_id j') (pg w)) as [|v h] eqn:E; [done|].
        assert (In v (history (j_id j') (pg w))) as Hv by (rewrite E; by left).
        apply history_In in Hv as [Hv Hvj]. destruct (wf_owned0 _ Hv) as (j&Hj&Hjv). destruct (Hf j Hj). congruence. }
      change (history (j_id j') _) with (history (j_id j') (pg w)). rewrite Hh, Hs, Hav. done.
  - intros j' v Hj' Hv. change (history (j_id j') _) with (history (j_id j') (pg w)) in Hv.
    destruct (Hl _ Hj') as [(j&Hj&(Hid&Ht&Ha&_))|(_&_&Hf)].
    + rewrite Hid in Hv. specialize (wf_jobs0 _ _ Hj Hv). unfold jobs_ok in *. by rewrite Hid, Ht, Ha.
    + apply history_In in Hv as [Hv Hvj]. destruct (wf_owned0 _ Hv) as (j&Hj&Hjv). destruct (Hf j Hj). congruence.
Qed.

Lemma wf_add w j :
  j_status j = JDraft → j_active_version j = None → (∀ x, In x (journeys (pg w)) → j_id x ≠ j_id j) →
  wf w → wf (set_pg (λ d, set_journeys (journeys d ++ [j]) d) w).
Proof.
  intros Hs Ha Hf Hw. change (wf (set_pg (set_journeys (journeys (pg w) ++ [j])) w)). apply wf_journeys; [| | |done].
  - apply NoDup_key_snoc; [apply Hw|done].
  - intros x Hx. exists x. split; [|done]. apply in_app_iff. by left.
  - intros x [Hx|[<-|[]]]%in_app_iff; [left|by right]. exists x. split; [done|]. unfold legal. tauto.
Qed.

Lemma wf_edit w p f :
  (∀ j, p j = true → legal j (f j)) → wf w → wf (set_pg (λ d, set_journeys (update_where p f (journeys d)) d) w).
Proof.
  intros Hf Hw. change (wf (set_pg (set_journeys (update_where p f (journeys (pg w)))) w)).
  assert (∀ j, legal j (if p j then f j else j)) as Hl.
  { intros j. destruct (p j) eqn:E; [by apply Hf|]. unfold legal. tauto. }
  apply wf_journeys; [| | |done].
  - unfold update_where. rewrite map_map. rewrite (map_ext _ j_id); [apply Hw|]. intros j. apply Hl.
  - intros j Hj. exists (if p j then f j else j). split; [|apply Hl]. unfold update_where. apply in_map_iff. eauto.
  - intros j' (j&<-&Hj)%in_map_iff. left. exists j. split; [done|apply Hl].
Qed.

(** *** Publishing *)

Lemma no_job_ahead w id n :
  wf w → Z.of_nat (length (history id (pg w))) < n → jobs_of id n (pg w) = [].
Proof.
  intros [] Hn. destruct (jobs_of id n (pg w)) as [|r l] eqn:E; [done|].
  assert (In r (jobs_of id n (pg w))) as Hr by (rewrite E; by left).
  apply select_In in Hr as [Hr Hk%String.eqb_eq].
  destruct (wf_keys0 r Hr (entry_key_job _ _ _ Hk)) as (v&Hv&Hkv).
  assert (In v (history (v_journey v) (pg w))) as Hin by (by apply history_In).
  pose proof (numbered_bound _ _ (wf_numbered0 _) Hin) as Hb.
  rewrite Hk in Hkv. apply entry_key_inj in Hkv as [-> ->]; lia.
Qed.

(** What later moves keep of a journey *)
Definition kept (w w' : World) (j : Journey) : Prop :=
  ∃ j', In j' (journeys (pg w')) ∧ j_id j' = j_id j ∧ j_tenant j' = j_tenant j ∧ j_app j' = j_app j
    ∧ history (j_id j) (pg w) `prefix_of` history (j_id j) (pg w')
    ∧ (j_status j = JArchived → j_status j' = JArchived ∧ j_draft j' = j_draft j
         ∧ history (j_id j) (pg w') = history (j_id j) (pg w)).

Section Publishing.
Context (w w' : World) (env : Env) (appId id : string) (member : SessionMember) (j : Journey) (job : option OutboxRow).
Context (Hw : wf w) (Hj : In j (journeys (pg w))) (Hat : journey_at appId id member j = true).
Context (He : hasErrors (definitionIssues env appId id member (journey_of (j_draft j)) (pg w)) = false).
Context (Hch : ch_commands w `prefix_of` ch_commands w').
Context (Hjob : job_for j (next_version appId id member (pg w)) job (ch_commands w')).
Context (Hpg : pg w' = published env appId id member j job (pg w)).

Definition next_n : Z := Z.of_nat (length (history id (pg w))) + 1.
Definition new_version : Version := mkVersion id next_n (j_draft j).

Lemma pub_id : j_id j = id ∧ j_tenant j = sm_tenantId member ∧ j_app j = appId.
Proof. unfold journey_at, journey_scope, scope in Hat. b2p. done. Qed.
Lemma pub_next : next_version appId id member (pg w) = next_n.
Proof. by destruct (issues_checked w env appId id member j Hw Hj Hat He) as (_&_&?). Qed.
Lemma pub_unique x : In x (journeys (pg w)) → j_id x = id → x = j.
Proof. intros Hx Hid. destruct pub_id as (Hjid&_). eapply (NoDup_map_eq j_id); [apply Hw|done|done|congruence]. Qed.

Lemma pub_outbox :
  journey_outbox (pg w') = journey_outbox (pg w) ++ (match job with Some r => [r] | None => [] end)
  ∧ journeys (pg w') = update_where (journey_at appId id member) (activated env next_n) (journeys (pg w))
  ∧ journey_versions (pg w') = journey_versions (pg w) ++ [new_version].
Proof.
  rewrite Hpg. unfold published. rewrite pub_next. destruct job as [r|]; [|by rewrite app_nil_r].
  unfold job_for in Hjob. destruct (blast_segment _); [|done]. destruct Hjob as (ref&[= ->]&_). rewrite pub_next.
  unfold add_outbox. destruct pub_id as (->&_).
  match goal with |- context [if ?c && existsb ?p ?l then _ else _] => assert (existsb p l = false) as -> end.
  { apply not_true_iff_false. intros (x&Hx&Hk)%existsb_exists. b2p.
    assert (In x (jobs_of id next_n (pg w))) as Hin by (apply select_In; split; [done|by apply String.eqb_eq]).
    rewrite (no_job_ahead w id next_n Hw) in Hin; [done|]. unfold next_n. lia. }
  by rewrite andb_false_r.
Qed.

Lemma pub_history id' : history id' (pg w') = history id' (pg w) ++ (if String.eqb id id' then [new_version] else []).
Proof.
  destruct pub_outbox as (_&_&Hv). unfold history, select. rewrite Hv, List.filter_app. simpl. by case_match.
Qed.

(** A journey after the publication, and the one it was *)
Lemma pub_journeys x :
  In x (journeys (pg w')) → ∃ y, In y (journeys (pg w)) ∧ j_id x = j_id y ∧ j_tenant x = j_tenant y ∧ j_app x = j_app y
    ∧ (j_id y = id ∧ y = j ∧ j_active_version x = Some next_n ∧ j_status x = JActive ∨ j_id y ≠ id ∧ x = y).
Proof.
  destruct pub_outbox as (_&-> &_). intros (y&<-&Hy)%in_map_iff. exists y. split; [done|].
  destruct (journey_at appId id member y) eqn:Ey.
  - assert (j_id y = id) as Hid by (unfold journey_at in Ey; by b2p). simpl.
    split_and!; try done. left. split_and!; try done. by apply pub_unique.
  - split_and!; try done. right. split; [|done]. intros Hid. rewrite (pub_unique y Hy Hid) in Ey. congruence.
Qed.

Lemma pub_jobs id' m :
  jobs_of id' m (pg w') = jobs_of id' m (pg w)
    ++ match job with Some r => if String.eqb (ob_key r) (entry_key id' m) then [r] else [] | None => [] end.
Proof.
  destruct pub_outbox as (Ho&_). unfold jobs_of, select. rewrite Ho, List.filter_app. f_equal.
  destruct job as [r|]; [|done]. simpl. by case_match.
Qed.

Lemma pub_job_key r : job = Some r → ob_key r = entry_key id next_n.
Proof.
  intros E. unfold job_for in Hjob. rewrite pub_next, E in Hjob. destruct (blast_segment _); [|done].
  destruct Hjob as (ref&[= ->]&_). destruct pub_id as (->&_). done.
Qed.

Lemma pub_old_jobs x v0 : In v0 (history (j_id x) (pg w)) → jobs_of (j_id x) (v_version v0) (pg w') = jobs_of (j_id x) (v_version v0) (pg w).
Proof.
  intros Hv0. rewrite pub_jobs. pose proof pub_job_key as Hkey. destruct job as [r|]; [|by rewrite app_nil_r].
  rewrite (Hkey r eq_refl). pose proof (numbered_bound _ _ (wf_numbered _ Hw _) Hv0) as Hb.
  destruct (String.eqb _ _) eqn:E; [|by rewrite app_nil_r]. apply String.eqb_eq, entry_key_inj in E as [E Hn]; [|unfold next_n; lia..].
  exfalso. rewrite <- E in Hb. unfold next_n in Hn. lia.
Qed.

Lemma pub_new_job x : j_id x = id → j_tenant x = j_tenant j → j_app x = j_app j → jobs_ok x new_version w'.
Proof.
  intros Hid Ht Ha. unfold jobs_ok. simpl. rewrite pub_jobs, Hid, (no_job_ahead w id next_n Hw) by (unfold next_n; lia).
  destruct pub_id as (Hjid&_). unfold job_for in Hjob. rewrite pub_next, Hjid in Hjob. simpl. destruct (blast_segment _).
  - destruct Hjob as (ref&->&Hsc). exists ref. simpl. rewrite String.eqb_refl, Ht, Ha. done.
  - by rewrite Hjob.
Qed.

Lemma pub_kept y : editable j = true → In y (journeys (pg w)) → kept w w' y.
Proof.
  intros Hed Hy. destruct pub_outbox as (_&Hjs&_). pose proof (pub_history (j_id y)) as Hh.
  exists (if journey_at appId id member y then activated env next_n y else y).
  assert (j_status y = JArchived → j_id y ≠ id) as Hne.
  { intros Ha Hid. rewrite (pub_unique y Hy Hid) in Ha. unfold editable in Hed. apply bool_decide_eq_true in Hed.
    rewrite Ha in Hed. by destruct Hed. }
  split; [rewrite Hjs; unfold update_where; apply in_map_iff; eauto|].
  split_and!; [by destruct (journey_at appId id member y)..|rewrite Hh; by apply prefix_app_r|].
  intros Ha. specialize (Hne Ha).
  assert (journey_at appId id member y = false) as ->.
  { unfold journey_at. apply String.eqb_neq in Hne. by rewrite Hne. }
  destruct (String.eqb id (j_id y)) eqn:E; [b2p; congruence|]. rewrite app_nil_r in Hh. done.
Qed.

Lemma wf_publish : wf w'.
Proof.
  destruct pub_outbox as (Ho&Hjs&Hvs).
  destruct (issues_checked w env appId id member j Hw Hj Hat He) as (Hok&Hab&_). split.
  - rewrite Hjs. unfold update_where. rewrite map_map. rewrite (map_ext _ j_id); [apply Hw|].
    intros x. by destruct (journey_at appId id member x).
  - intros x Hx. rewrite Hvs in Hx.
    assert (∃ y, In y (journeys (pg w)) ∧ j_id y = v_journey x) as (y&Hy&Hid).
    { apply in_app_iff in Hx as [Hx|[<-|[]]]; [by apply Hw|]. exists j. split; [done|]. apply pub_id. }
    rewrite Hjs. eexists. split; [apply in_map_iff; exists y; split; [reflexivity|done]|].
    by destruct (journey_at appId id member y).
  - intros id'. rewrite pub_history. destruct (String.eqb id id') eqn:E; [|rewrite app_nil_r; apply Hw].
    apply String.eqb_eq in E as <-. apply numbered_snoc. split; [apply Hw|done].
  - intros x (y&Hy&Hid&_&_&Hcase)%pub_journeys. rewrite pub_history, Hid.
    destruct Hcase as [(Hyid&->&Hav&Hs)|(Hne&->)].
    + rewrite Hyid, String.eqb_refl, length_app, Hs, Hav. simpl. rewrite Nat.add_1_r. simpl. unfold next_n.
      split_and!; [f_equal; lia|lia|done].
    + destruct (String.eqb id (j_id y)) eqn:E; [b2p; congruence|]. rewrite app_nil_r. by apply Hw.
  - intros x Hx. rewrite Hvs in Hx. apply in_app_iff in Hx as [Hx|[<-|[]]]; [by apply Hw|done].
  - intros id'. rewrite pub_history. destruct (String.eqb id id') eqn:E; [|rewrite app_nil_r; apply Hw].
    apply String.eqb_eq in E as <-. unfold definitions. rewrite map_app, List.filter_app. simpl.
    destruct (version_is (journey_of (j_draft j)) 2) eqn:E2; [|rewrite app_nil_r; apply Hw].
    apply history_publish; [apply Hw| |done]. apply validateJourney_spec in Hok as [_ _ _ _ _ _ Hg _].
    by destruct (Hg E2) as [[_ Hnd] _].
  - intros x v0 Hx Hv0. apply pub_journeys in Hx as (y&Hy&Hid&Ht&Ha&_). rewrite Hid, pub_history in Hv0.
    apply in_app_iff in Hv0 as [Hv0|Hv0].
    + apply (jobs_ok_mono _ _ w); [rewrite Hid; by apply pub_old_jobs|done|].
      pose proof (wf_jobs _ Hw _ _ Hy Hv0) as Hjo. unfold jobs_ok in *. by rewrite Hid, Ht, Ha.
    + destruct (String.eqb id (j_id y)) eqn:E; [|done]. apply String.eqb_eq in E. destruct Hv0 as [<-|[]].
      assert (y = j) as -> by (by apply pub_unique). by apply pub_new_job; [congruence|..].
  - intros r Hr Hk. rewrite Ho in Hr. rewrite Hvs. apply in_app_iff in Hr as [Hr|Hr].
    + destruct (wf_keys _ Hw r Hr Hk) as (x&Hx&?). exists x. split; [|done]. apply in_app_iff. by left.
    + pose proof pub_job_key as Hkey. destruct job as [r'|]; [|done]. destruct Hr as [<-|[]]. exists new_version.
      split; [apply in_app_iff; right; by left|by apply Hkey].
Qed.
End Publishing.

Lemma wf_move w w' : move w w' → wf w → wf w'.
Proof.
  intros [|j Hs Ha Hf ->|p f Hf ->|env appId id member j job Hj Hat _ He Hch Hjob Hpg] Hw.
  - by apply (wf_other w).
  - by apply wf_add.
  - by apply wf_edit.
  - by eapply wf_publish.
Qed.

Lemma kept_move w w' j : wf w → move w w' → In j (journeys (pg w)) → kept w w' j.
Proof.
  intros Hw Hm Hj. destruct Hm as [Hjs Hvs _ _|x _ _ _ ->|p f Hf ->|env a i m x job Hx Hat Hed He Hch Hjob Hpg].
  - exists j. unfold history. rewrite Hjs, Hvs. split_and!; done.
  - exists j. split; [simpl; apply in_app_iff; by left|]. split_and!; done.
  - exists (if p j then f j else j). split; [simpl; unfold update_where; apply in_map_iff; eauto|].
    assert (legal j (if p j then f j else j)) as (?&?&?&_&_&_&Hl) by (destruct (p j) eqn:E; [by apply Hf|unfold legal; tauto]).
    split_and!; try done. intros Ha. destruct (Hl Ha) as [? ?]. done.
  - by apply (pub_kept w w' env a i m x job).
Qed.

Lemma kept_moves w w' j : wf w → rtc move w w' → In j (journeys (pg w)) → kept w w' j.
Proof.
  intros Hw Hr. revert j. induction Hr as [w|w w1 w2 Hm _ IH]; intros j Hj.
  - exists j. split_and!; done.
  - destruct (kept_move w w1 j Hw Hm Hj) as (j1&Hj1&Hid&Ht&Ha&Hp&Har).
    destruct (IH (wf_move _ _ Hm Hw) j1 Hj1) as (j2&Hj2&Hid2&Ht2&Ha2&Hp2&Har2). rewrite Hid in Hp2, Har2.
    exists j2. split_and!; [done|congruence..|by etrans|].
    intros Harch. destruct (Har Harch) as (Hs&Hd&Hh). destruct (Har2 Hs) as (?&?&?). split_and!; congruence.
Qed.

Lemma wf_moves w w' : rtc move w w' → wf w → wf w'.
Proof. induction 1; eauto using wf_move. Qed.
End Machine.
