(* ===== verification/JourneyApiProps.v ===== *)
(** * Journeys: what the handlers guarantee

    Every handler of the journey and segment controllers makes moves of
    [JourneyMachine]; its invariant is then that of every store the service can
    reach. *)

From Stdlib Require Import Ascii QArith.
From stdpp Require Import sorting pretty.
From S2P Require Import Prelude JsVal SegmentDsl Graph BranchCondition JourneyModel JourneyProps Crypto Json Schema Authz AuthDb JourneyContract JourneyDb SegmentsApi JourneyApi JourneyMachine.

#[global] Open Scope Z_scope.

Section Handlers.
Context `{Zod} `{Crypto} `{Collation} `{ClickHouse}.

Abbreviation moves := (rtc move).

(** ** Programs that only read, or write elsewhere *)

Lemma db_get_readonly : readonly db_get.
Proof. intros w. done. Qed.
Lemma assertApp_readonly a m : readonly (assertApp a m).
Proof. apply readonly_bind; [apply db_get_readonly|]. intros. apply readonly_throw_if. Qed.
Lemma assertEditor_readonly s m : readonly (assertEditor s m).
Proof. apply readonly_throw_if. Qed.
Lemma parse_readonly {A} (p : option A) : readonly (JourneyDb.parse p).
Proof. apply readonly_some. Qed.
Lemma compiled_readonly {A} (r : A + CompileError) e : readonly (compiled_or_throw r e).
Proof. destruct r; [apply readonly_ret|apply readonly_throw]. Qed.
Lemma to_query_readonly c : readonly (to_query c).
Proof. unfold to_query. case_match; [apply readonly_ret|apply readonly_throw]. Qed.
Lemma load_readonly a i m : readonly (load a i m).
Proof. apply readonly_bind; [apply db_get_readonly|]. intros. apply readonly_some. Qed.
#[local] Hint Resolve db_get_readonly assertApp_readonly assertEditor_readonly parse_readonly compiled_readonly
  to_query_readonly load_readonly : nudgeon.

Lemma compileSegment_readonly t a s c : readonly (compileSegment t a s c).
Proof. unfold compileSegment. eauto 10 with nudgeon. Qed.
#[local] Hint Resolve compileSegment_readonly : nudgeon.
Lemma audienceCount_readonly t a s c : readonly (audienceCount t a s c).
Proof. unfold audienceCount. eauto 10 with nudgeon. Qed.
#[local] Hint Resolve audienceCount_readonly : nudgeon.

#[local] Hint Extern 2 (within _ _) => apply within_readonly; [apply _|solve [eauto 10 with nudgeon]] : within.

Definition untouched (d d' : Db) : Prop :=
  journeys d' = journeys d ∧ journey_versions d' = journey_versions d
  ∧ select is_entry_job (journey_outbox d') = select is_entry_job (journey_outbox d).

Lemma within_untouched f : (∀ d, untouched d (f d)) → within moves (db_modify f).
Proof.
  intros Hf. apply within_modify. intros w. destruct (Hf (pg w)) as (?&?&?).
  by apply rtc_once, move_other.
Qed.
Lemma within_cache f : (∀ w, pg (f w) = pg w ∧ ch_commands (f w) = ch_commands w) → within moves (modify f).
Proof.
  intros Hf. apply within_modify. intros w. destruct (Hf w) as (Hp&Hc).
  apply rtc_once, move_other; by rewrite ?Hp, ?Hc.
Qed.
#[local] Hint Extern 3 (within _ (db_modify _)) => apply within_untouched; intros; split_and!; reflexivity : within.
#[local] Hint Extern 3 (within _ (modify _)) => apply within_cache; intros; split; reflexivity : within.

Lemma moves_commands w w' : moves w w' → ch_commands w `prefix_of` ch_commands w'.
Proof.
  induction 1 as [w|w w1 w2 Hm _ IH]; [done|]. etrans; [|exact IH].
  destruct Hm as [| j _ _ _ -> | p f _ -> |]; done.
Qed.

Lemma rolled_back w w' : ch_commands w `prefix_of` ch_commands w' → moves w (set_pg (λ _, pg w) w').
Proof. intros Hc. by apply rtc_once, move_other. Qed.

Lemma within_pg_transaction {A} (m : W A) : within moves m → within moves (pg_transaction m).
Proof.
  intros Hm w. specialize (Hm w). unfold pg_transaction. destruct (m w) as [[a|e] w'] eqn:E; [done|].
  by apply rolled_back, moves_commands.
Qed.
#[local] Hint Resolve within_pg_transaction : within.

(** ** Segments *)

Lemma within_insert_segment s : within moves (insert_segment s).
Proof. unfold insert_segment. within_tac. Qed.
#[local] Hint Resolve within_insert_segment : within.
Lemma within_create_segment env a b m : within moves (create_segment env a b m).
Proof. unfold create_segment, assertCompiles. within_tac. Qed.
Lemma within_update_segment env a i b m : within moves (update_segment env a i b m).
Proof. unfold update_segment, assertCompiles. within_tac. Qed.
Lemma within_remove_segment a i m : within moves (remove_segment a i m).
Proof. unfold remove_segment. within_tac. Qed.
Lemma within_compute env k c : within moves (compute_preview env k c).
Proof. unfold compute_preview. within_tac. Qed.
#[local] Hint Resolve within_compute : within.
Lemma within_preview env a b m : within moves (preview_segment env a b m).
Proof. unfold preview_segment. within_tac. Qed.

(** ** Drafts, pausing and archiving *)

Lemma within_edit p f :
  (∀ j, p j = true → legal j (f j)) → within moves (db_modify (λ d, set_journeys (update_where p f (journeys d)) d)).
Proof. intros Hf. apply within_modify. intros w. by eapply rtc_once, move_edit. Qed.

Lemma within_insert_journey j : j_status j = JDraft → j_active_version j = None → within moves (insert_journey j).
Proof.
  intros Hs Ha w. unfold insert_journey, mbind, M_bind, db_get, get, throw_if. simpl.
  match goal with |- context [if ?c then throw _ else _] => destruct c eqn:Ec; [done|] end.
  simpl. eapply rtc_once, (move_add _ _ j); try done. intros x Hx Hid.
  apply (existsb_fresh _ _ Ec) in Hx. apply orb_false_iff in Hx as [Hx _]. by apply String.eqb_neq in Hx.
Qed.

Lemma within_create_journey env a b m : within moves (create_journey env a b m).
Proof.
  unfold create_journey. do 3 (apply within_bind; [apply _|eauto with within|intros]).
  apply within_bind; [apply _|by apply within_insert_journey|intros; within_tac].
Qed.

Lemma legal_edit env data j : editable j = true → legal j (edited env data j).
Proof.
  unfold editable, legal. simpl. intros He%bool_decide_eq_true. split_and!; try done.
  intros Ha. rewrite Ha in He. by destruct He.
Qed.

Lemma within_update env a i b m : within moves (update_journey env a i b m).
Proof.
  unfold update_journey. do 5 (apply within_bind; [apply _|eauto with within|intros]).
  apply within_bind; [apply _| |intros; within_tac]. apply within_edit. intros j Hj. apply legal_edit. by b2p.
Qed.

Lemma within_validate env a i m : within moves (validate_journey env a i m).
Proof. unfold validate_journey. within_tac. Qed.

Lemma within_pause env a i m : within moves (pause_journey env a i m).
Proof.
  unfold pause_journey, setStatus. do 3 (apply within_bind; [apply _|eauto with within|intros]).
  apply within_bind; [apply _| |intros; within_tac]. apply within_edit. intros j Hj. b2p.
  simpl in *. rewrite orb_false_r in *. b2p. unfold legal. simpl. split_and!; congruence.
Qed.

Lemma within_archive env a i m : within moves (archive_journey env a i m).
Proof.
  unfold archive_journey. do 2 (apply within_bind; [apply _|eauto with within|intros]).
  apply within_pg_transaction. apply within_bind; [apply _|eauto with within|intros].
  apply within_bind; [apply _| |intros; within_tac]. apply within_edit. intros j _. by unfold legal.
Qed.

(** ** Activation *)

Lemma snapshot_run env t a s c w ref w' :
  snapshotAudience env t a s c w = (Ok ref, w') →
  pg w' = pg w ∧ ch_commands w `prefix_of` ch_commands w' ∧ scoped_audience t a ref (ch_commands w').
Proof.
  unfold snapshotAudience. intros (compiled&w1&Hc&E)%bind_ok.
  pose proof (compileSegment_readonly t a s c w) as Hr. rewrite Hc in Hr. simpl in Hr. subst w1.
  apply bind_ok in E as (q&w2&Hq&E). unfold to_query in Hq. destruct (toClickHouse (audience_sql compiled)) as [q'|] eqn:Eq; [|done].
  injection Hq as <- <-. apply bind_ok in E as (u&w3&Hm&E). injection Hm as _ <-. injection E as <- <-. simpl.
  split; [done|]. split; [by eexists|].
  unfold compileSegment in Hc. apply bind_ok in Hc as (d&w1&_&Hc). apply bind_ok in Hc as (seg&w2&_&Hc).
  apply bind_ok in Hc as (u'&w4&_&Hc). unfold compiled_or_throw in Hc.
  destruct (compile _ _ _ _ _) as [c'|] eqn:Ec; [|done]. injection Hc as -> _.
  exists (sg_definition seg), (category_of c), compiled, q'. split_and!; [done|done|].
  apply in_app_iff. right. by left.
Qed.

(** Nothing is taken back from ClickHouse. *)
Definition grows (w w' : World) : Prop := ch_commands w `prefix_of` ch_commands w'.
#[local] Instance grows_preorder : PreOrder grows.
Proof. split; [by intros w; unfold grows|]. unfold grows. intros x y z ? ?. by etrans. Qed.
Lemma grows_pg f : within grows (db_modify f).
Proof. apply within_modify. intros w. by unfold grows. Qed.
#[local] Hint Resolve grows_pg : within.

Lemma snapshot_grows env t a s c : within grows (snapshotAudience env t a s c).
Proof.
  unfold snapshotAudience. within_tac. apply within_modify. intros w. unfold grows. simpl. by apply prefix_app_r.
Qed.

#[local] Hint Resolve snapshot_grows : within.

Lemma snapshot_if_run env a m j w ref w' :
  j_tenant j = sm_tenantId m → j_app j = a →
  snapshot_if env a m j w = (Ok ref, w') →
  pg w' = pg w ∧ ch_commands w `prefix_of` ch_commands w'
  ∧ job_for j (next_version a (j_id j) m (pg w))
      ((λ r, mkOutbox (sm_tenantId m) a STREAM_journeyEntry (entry_key (j_id j) (next_version a (j_id j) m (pg w)))
               (entry_job (j_id j) (next_version a (j_id j) m (pg w)) r)) <$> ref) (ch_commands w').
Proof.
  intros Ht Ha. unfold snapshot_if, job_for. destruct (blast_segment _) as [segment|].
  - intros (r&w1&(Hp&Hc&Hs)%snapshot_run&E)%bind_ok. injection E as <- <-. split_and!; [done|done|].
    exists r. rewrite Ht, Ha. done.
  - intros [= <- <-]. done.
Qed.

Lemma publish_version_run env a i m j n ref w u w' :
  publish_version env a i m j n ref w = (Ok u, w') → n = next_version a i m (pg w) →
  ch_commands w' = ch_commands w
  ∧ pg w' = published env a i m j
      ((λ r, mkOutbox (sm_tenantId m) a STREAM_journeyEntry (entry_key i n) (entry_job i n r)) <$> ref) (pg w).
Proof.
  unfold publish_version, published, insert_version. intros (u1&w1&E1&E)%bind_ok Hn.
  apply bind_ok in E1 as (d&w2&Hd&E1). injection Hd as <- <-.
  apply bind_ok in E1 as (u2&w3&[_ ->]%throw_if_ok&E1). injection E1 as _ <-.
  apply bind_ok in E as (u3&w4&E2&E). injection E2 as _ <-. rewrite <- Hn.
  destruct ref as [r|]; injection E as _ <-; done.
Qed.

(** What a successful activation has checked and done *)
Lemma activate_run env a i m rev w r w' :
  activate_locked env a i m rev w = (Ok r, w') →
  ∃ j, In j (journeys (pg w)) ∧ journey_at a i m j = true ∧ editable j = true ∧ stale_revision rev j = false
    ∧ hasErrors (definitionIssues env a i m (journey_of (j_draft j)) (pg w)) = false
    ∧ fst r = next_version a i m (pg w) ∧ ch_commands w `prefix_of` ch_commands w'
    ∧ job_for j (fst r) ((λ x, mkOutbox (sm_tenantId m) a STREAM_journeyEntry (entry_key i (fst r))
                                 (entry_job i (fst r) x)) <$> snd r) (ch_commands w')
    ∧ pg w' = published env a i m j ((λ x, mkOutbox (sm_tenantId m) a STREAM_journeyEntry (entry_key i (fst r))
                                 (entry_job i (fst r) x)) <$> snd r) (pg w).
Proof.
  unfold activate_locked, load. intros (j&w1&Hj&E)%bind_ok.
  apply bind_ok in Hj as (d&w2&Hd&Hj). injection Hd as <- <-. apply some_or_throw_ok in Hj as [Hj ->].
  apply select1_Some in Hj as [Hin Hat]. exists j.
  apply bind_ok in E as (u&w3&[He ->]%throw_if_ok&E). apply bind_ok in E as (u1&w4&[Hst ->]%throw_if_ok&E).
  apply bind_ok in E as (d&w5&Hd&E). injection Hd as <- <-. apply bind_ok in E as (u2&w6&[Herr ->]%throw_if_ok&E).
  apply bind_ok in E as (ref&w7&Hs&E). apply bind_ok in E as (u3&w8&Hp&E). injection E as <- <-. simpl.
  assert (j_id j = i ∧ j_tenant j = sm_tenantId m ∧ j_app j = a) as (Hid&Ht&Ha)
    by (unfold journey_at, journey_scope, scope in Hat; by b2p).
  apply (snapshot_if_run env a m j w ref w7 Ht Ha) in Hs as (Hpg&Hch&Hjob). rewrite Hid in Hjob.
  apply publish_version_run in Hp as [Hch' Hpg']; [|by rewrite Hpg]. rewrite Hpg in Hpg'. rewrite Hch'.
  b2p. split_and!; done.
Qed.

Lemma activate_grows env a i m rev :
  within grows (activate_locked env a i m rev).
Proof. unfold activate_locked, snapshot_if, publish_version, insert_version, insert_outbox. within_tac. Qed.

Lemma within_activate env a i b m : within moves (activate_journey env a i b m).
Proof.
  unfold activate_journey. do 3 (apply within_bind; [apply _|eauto with within|intros]).
  intros w. unfold pg_transaction. pose proof (activate_grows env a i m a2 w) as Hg.
  destruct (activate_locked env a i m a2 w) as [[r|e] w'] eqn:E; [|by apply rolled_back].
  apply activate_run in E as (j&Hin&Hat&Hed&_&Herr&Hn&Hch&Hjob&Hpg). rewrite Hn in *.
  by eapply rtc_once, move_publish.
Qed.

(** ** Runs *)

(** The calls of the two controllers *)
Inductive jcall :=
| CallCreate (env : Env) (appId : string) (body : jsval) (member : SessionMember)
| CallUpdate (env : Env) (appId id : string) (body : jsval) (member : SessionMember)
| CallValidate (env : Env) (appId id : string) (member : SessionMember)
| CallActivate (env : Env) (appId id : string) (body : jsval) (member : SessionMember)
| CallPause (env : Env) (appId id : string) (member : SessionMember)
| CallArchive (env : Env) (appId id : string) (member : SessionMember)
| CallCreateSegment (env : Env) (appId : string) (body : SegmentUpsert) (member : SessionMember)
| CallUpdateSegment (env : Env) (appId id : string) (body : SegmentUpsert) (member : SessionMember)
| CallRemoveSegment (appId id : string) (member : SessionMember)
| CallPreview (env : Env) (appId : string) (body : PreviewBody) (member : SessionMember).

Definition handle (c : jcall) (w : World) : World :=
  match c with
  | CallCreate env a b m => (create_journey env a b m w).2
  | CallUpdate env a i b m => (update_journey env a i b m w).2
  | CallValidate env a i m => (validate_journey env a i m w).2
  | CallActivate env a i b m => (activate_journey env a i b m w).2
  | CallPause env a i m => (pause_journey env a i m w).2
  | CallArchive env a i m => (archive_journey env a i m w).2
  | CallCreateSegment env a b m => (create_segment env a b m w).2
  | CallUpdateSegment env a i b m => (update_segment env a i b m w).2
  | CallRemoveSegment a i m => (remove_segment a i m w).2
  | CallPreview env a b m => (preview_segment env a b m w).2
  end.

(** A step of the system: a call, or a write of another service (the worker's
    states and executions, its outbox rows under keys of their own, the apps),
    which leaves journeys, versions and entry jobs alone. *)
Inductive jstep (w : World) : World → Prop :=
| step_call c : jstep w (handle c w)
| step_elsewhere w' : untouched (pg w) (pg w') → ch_commands w `prefix_of` ch_commands w' → jstep w w'.

Definition reachable (w : World) : Prop := ∃ w0, initial w0 ∧ rtc jstep w0 w.

Lemma handle_moves c w : moves w (handle c w).
Proof.
  destruct c; [apply within_create_journey|apply within_update|apply within_validate|apply within_activate|apply within_pause
    |apply within_archive|apply within_create_segment|apply within_update_segment|apply within_remove_segment
    |apply within_preview].
Qed.

Lemma jsteps_moves w w' : rtc jstep w w' → moves w w'.
Proof.
  induction 1 as [w|w w1 w2 Hs _ IH]; [done|]. etrans; [|exact IH].
  destruct Hs as [c|w1 (?&?&?) Hc]; [apply handle_moves|]. by apply rtc_once, move_other.
Qed.

Lemma reachable_wf w : reachable w → wf w.
Proof. intros (w0&Hi&Hr%jsteps_moves). by eapply wf_moves, wf_initial. Qed.

(** ** Histories *)

Lemma allocated_graph def id a :
  hasErrors (validateJourney number_format def) = false → allocated def id a → version_is def 2 = true.
Proof.
  intros [_ _ _ _ Hlin _ _ _]%validateJourney_spec (node&n&Hin&_&Hb&_).
  destruct (version_is def 2); [done|]. specialize (Hlin eq_refl). rewrite Forall_forall in Hlin.
  specialize (Hlin node (proj2 (list_elem_of_In _ _) Hin)). unfold is_message, is_delay in Hlin. by rewrite Hb in Hlin.
Qed.

Lemma allocations_agree w j v1 v2 id a1 a2 :
  wf w → In v1 (history (j_id j) (pg w)) → In v2 (history (j_id j) (pg w)) →
  allocated (journey_of (v_definition v1)) id a1 → allocated (journey_of (v_definition v2)) id a2 → a1 = a2.
Proof.
  intros Hw H1' H2' A1 A2. pose proof (history_faithful _ (wf_history _ Hw (j_id j))) as Hf.
  assert (∀ v a, In v (history (j_id j) (pg w)) → allocated (journey_of (v_definition v)) id a →
    In (journey_of (v_definition v))
      (List.filter (λ def, version_is def 2) (definitions (history (j_id j) (pg w))))) as Hin.
  { intros v a Hv Ha. apply filter_In. split; [unfold definitions; apply in_map_iff; eauto|].
    eapply allocated_graph; [|done]. apply history_In in Hv as [Hv _]. by apply (wf_valid _ Hw). }
  destruct (Hf _ _ _ (Hin _ _ H1' A1) A1) as (x1&E1&<-), (Hf _ _ _ (Hin _ _ H2' A2) A2) as (x2&E2&<-). congruence.
Qed.


(** C5. The published versions of a journey, in every reachable store: they are
    numbered from one without a gap, each of them passed the validator, the
    journey's active version is the last of them (and exists when the journey is
    active; a draft has none), and two versions with the same A/B step agree on
    its allocation. *)
Theorem journey_versions_sound w j :
  reachable w → In j (journeys (pg w)) →
  let h := history (j_id j) (pg w) in
  (∀ i v, h !! i = Some v → v_version v = Z.of_nat i + 1
     ∧ hasErrors (validateJourney number_format (journey_of (v_definition v))) = false)
  ∧ j_active_version j = (if Nat.eqb (length h) 0 then None else Some (Z.of_nat (length h)))
  ∧ (j_status j = JActive → h ≠ []) ∧ (j_status j = JDraft → h = [])
  ∧ (∀ v1 v2 id a1 a2, In v1 h → In v2 h → allocated (journey_of (v_definition v1)) id a1 →
       allocated (journey_of (v_definition v2)) id a2 → a1 = a2).
Proof.
  intros Hw%reachable_wf Hj. simpl. destruct (wf_active _ Hw j Hj) as (Hav&Hac&Hdr). split_and!.
  - intros i v Hv. split; [by apply (wf_numbered _ Hw (j_id j))|]. apply (wf_valid _ Hw).
    apply list_elem_of_lookup_2, list_elem_of_In, history_In in Hv. apply Hv.
  - exact Hav.
  - intros Ha%Hac Hh. by rewrite Hh in Ha.
  - intros Hd%Hdr. by apply nil_length_inv.
  - intros v1 v2 id a1 a2. by apply allocations_agree.
Qed.

(** What later calls keep: a journey never disappears or changes tenant or
    application, its published versions stay what they were (later ones only
    come after them), and an archived journey stays archived, with its draft
    and its versions. *)
Theorem published_versions_kept w w' j :
  reachable w → rtc jstep w w' → In j (journeys (pg w)) → kept w w' j.
Proof. intros Hw%reachable_wf Hr%jsteps_moves Hj. by apply kept_moves. Qed.

(** C11. Entry jobs: in every reachable store each published version of a blast
    has exactly one entry job, in the outbox of its journey's tenant and
    application, whose audience ClickHouse was told to fill from a query
    compiled for them; a version with another entry has none, and every entry
    job is that of a version. *)
Theorem entry_jobs_exactly_once w :
  reachable w →
  (∀ j v, In j (journeys (pg w)) → In v (history (j_id j) (pg w)) → jobs_ok j v w)
  ∧ (∀ r, In r (journey_outbox (pg w)) → is_entry_job r = true →
       ∃ v, In v (journey_versions (pg w)) ∧ ob_key r = entry_key (v_journey v) (v_version v)).
Proof. intros Hw%reachable_wf. split; [apply Hw|intros r; by apply Hw]. Qed.

(** ** From validation to activation *)

(** A digest prints as 64 lower-case hexadecimal digits. *)
Class DigestLaw := { sha256_text s : revision_text (sha256_hex s) = true }.

Lemma bind_run {S A B} {m : M S A} {f : A → M S B} {s a s'} : m s = (Ok a, s') → (m ≫= f) s = f a s'.
Proof. unfold mbind, M_bind. by intros ->. Qed.

Lemma audience_compiled t a s c w n w' :
  audienceCount t a s c w = (Ok n, w') →
  ∀ env, ∃ ref w1, snapshotAudience env t a s c w = (Ok ref, w1) ∧ pg w1 = pg w.
Proof.
  unfold audienceCount, snapshotAudience. intros (compiled&w1&Hc&_)%bind_ok env.
  pose proof (compileSegment_readonly t a s c w) as Hr. rewrite Hc in Hr. simpl in Hr. subst w1.
  assert (∃ dsl cat, compile number_format dsl t a cat = inl compiled) as (dsl&cat&Hcomp).
  { unfold compileSegment in Hc. apply bind_ok in Hc as (d&w1&_&Hc). apply bind_ok in Hc as (seg&w2&_&Hc).
    apply bind_ok in Hc as (u'&w4&_&Hc). unfold compiled_or_throw in Hc.
    destruct (compile _ _ _ _ _) as [c'|] eqn:Ec; [|done]. injection Hc as -> _. eauto. }
  apply compile_placeholders in Hcomp.
  assert (placeholders (sql (audience_sql compiled)) = length (args (audience_sql compiled))) as Hp.
  { cbn [audience_sql sql args]. unfold placeholders in *. rewrite !str_count_app, Hcomp.
    simpl. lia. }
  apply toClickHouse_spec in Hp as (q&Hq&_).
  eexists _, _. rewrite (bind_run Hc). unfold to_query. rewrite Hq. done.
Qed.

Lemma throw_if_false {S} e (s : S) : throw_if false e s = (Ok tt, s).
Proof. done. Qed.

Lemma activate_locked_succeeds env a i m w j n :
  wf w → select1 (journey_at a i m) (journeys (pg w)) = Some j → editable j = true →
  hasErrors (definitionIssues env a i m (journey_of (j_draft j)) (pg w)) = false →
  n = draftRevision (j_name j) (j_draft j) → n ≠ "" →
  (∃ ref w1, snapshot_if env a m j w = (Ok ref, w1) ∧ pg w1 = pg w) →
  ∃ ref w', activate_locked env a i m (Some n) w = (Ok (Z.of_nat (length (history i (pg w))) + 1, ref), w').
Proof.
  intros Hw Hsel Hed He -> Hne (ref&w1&Hs&Hp). apply select1_Some in Hsel as Hj. destruct Hj as [Hin Hat].
  destruct (issues_checked w env a i m j Hw Hin Hat He) as (_&_&Hn).
  assert (load a i m w = (Ok j, w)) as Hl by (unfold load, mbind, M_bind, db_get, get; simpl; by rewrite Hsel).
  exists ref. unfold activate_locked. rewrite (bind_run Hl), Hed. cbn [negb]. rewrite (bind_run (throw_if_false _ w)).
  assert (stale_revision (Some (draftRevision (j_name j) (j_draft j))) j = false) as ->.
  { unfold stale_revision. apply String.eqb_neq in Hne. cbn [falsy]. rewrite Hne, bool_decide_eq_true_2 by done.
    by destruct (version_is _ _). }
  rewrite (bind_run (throw_if_false _ w)). change ((db_get ≫= ?f) w) with (f (pg w) w). cbv beta. rewrite He.
  rewrite (bind_run (throw_if_false _ w)), (bind_run Hs), Hn.
  unfold publish_version, insert_version.
  assert (existsb (λ x, String.eqb (v_journey x) i && (v_version x =? Z.of_nat (length (history i (pg w))) + 1))
            (journey_versions (pg w)) = false) as Hf.
  { apply not_true_iff_false. intros (x&Hx&Hb)%existsb_exists. b2p.
    assert (In x (history i (pg w))) as Hxh by (by apply history_In).
    pose proof (numbered_bound _ _ (wf_numbered _ Hw i) Hxh). lia. }
  destruct ref; eexists; unfold mbind, M_bind, db_get, db_modify, modify, get, throw_if; simpl; rewrite Hp, Hf; reflexivity.
Qed.

(** C10. A validated draft can be activated: when [validate] reports no error
    for an editable journey, activating it with the revision [validate]
    returned, before any other change, succeeds for an editor; the new version is the next
    number, holds the draft, and is the active one. *)
Theorem validated_draft_activates `{DigestLaw} env env' a i m w issues count revision w1 j :
  reachable w → validate_journey env a i m w = (Ok (issues, count, revision), w1) → hasErrors issues = false →
  select1 (journey_at a i m) (journeys (pg w)) = Some j → editable j = true →
  String_in (sm_role m) EDITOR_ROLES = true → (assertApp a m w).1 = Ok tt →
  journeyGraphV2Enabled env' = journeyGraphV2Enabled env →
  ∃ n ref w', activate_journey env' a i (JObj [("revision", JStr revision)]) m w = (Ok (n, ref), w')
    ∧ n = Z.of_nat (length (history i (pg w))) + 1
    ∧ history i (pg w') = history i (pg w) ++ [mkVersion i n (j_draft j)]
    ∧ In (activated env' n j) (journeys (pg w')).
Proof.
  intros Hw%reachable_wf Hv He Hsel Hed Hrole Happ Hflag.
  unfold validate_journey in Hv. apply bind_ok in Hv as (j'&w2&Hl&Hv).
  assert (load a i m w = (Ok j, w)) as Hl' by (unfold load, mbind, M_bind, db_get, get; simpl; by rewrite Hsel).
  rewrite Hl' in Hl. injection Hl as <- <-. change ((db_get ≫= ?f) w) with (f (pg w) w) in Hv. cbv beta zeta in Hv.
  set (iss := definitionIssues env a i m (journey_of (j_draft j)) (pg w)) in *.
  assert (definitionIssues env' a i m (journey_of (j_draft j)) (pg w) = iss) as Hiss
    by (unfold iss, definitionIssues; by rewrite Hflag).
  assert (issues = iss ∧ revision = draftRevision (j_name j) (j_draft j)
    ∧ ∃ ref w1, snapshot_if env' a m j w = (Ok ref, w1) ∧ pg w1 = pg w) as (->&->&Hsnap).
  { unfold snapshot_if. destruct (blast_segment (journey_of (j_draft j))) as [segment|] eqn:Eb.
    - destruct (hasErrors iss) eqn:Eh; [injection Hv as <- _ _; congruence|].
      apply bind_ok in Hv as (c&w3&Hc&Hv). injection Hv as <- _ <- _. split; [done|]. split; [done|].
      destruct (audience_compiled _ _ _ _ _ _ _ Hc env') as (ref&w4&Hs&Hp). exists (Some ref), w4.
      by rewrite (bind_run Hs).
    - injection Hv as <- _ <- _. split; [done|]. split; [done|]. by exists None, w. }
  pose proof (sha256_text (JSON_stringify number_format
    (canonical (JObj [("name", JStr (j_name j)); ("definition", j_draft j)])))) as Htext.
  fold (draftRevision (j_name j) (j_draft j)) in Htext.
  assert (draftRevision (j_name j) (j_draft j) ≠ "") as Hne by (intros E; by rewrite E in Htext).
  rewrite <- Hiss in He.
  destruct (activate_locked_succeeds env' a i m w j _ Hw Hsel Hed He eq_refl Hne Hsnap) as (ref&w'&Hact).
  exists (Z.of_nat (length (history i (pg w))) + 1), ref, w'.
  apply activate_run in Hact as Hrun. destruct Hrun as (j'&Hin&Hat&_&_&He'&Hn&_&Hjob&Hpg). cbn [fst snd] in *.
  apply select1_Some in Hsel as [Hinj Hatj].
  assert (j' = j) as ->.
  { eapply (pub_unique w a i m j Hw Hinj Hatj); [done|]. by apply pub_id in Hat as [? _]. }
  split; [|split; [done|]].
  - unfold activate_journey, assertEditor. rewrite Hrole. cbn [negb]. rewrite (bind_run (throw_if_false _ w)).
    pose proof (assertApp_readonly a m w) as Hra. destruct (assertApp a m w) as [o w0] eqn:Ea. simpl in Happ, Hra. subst.
    rewrite (bind_run Ea).
    assert (activationSchema (activation_body (JObj [("revision", JStr (draftRevision (j_name j) (j_draft j)))]))
            = Some (Some (draftRevision (j_name j) (j_draft j)))) as ->.
    { cbn. by rewrite Htext. }
    unfold JourneyDb.parse. cbn [some_or_throw]. unfold pg_transaction. unfold mbind, M_bind, mret, M_ret. by rewrite Hact.
  - rewrite Hn in Hjob, Hpg.
    destruct (pub_outbox w w' env' a i m j _ Hw Hin Hat He' Hjob Hpg) as (_&Hjs&_). split.
    + rewrite (pub_history w w' env' a i m j _ Hw Hin Hat He' Hjob Hpg i), String.eqb_refl. done.
    + rewrite Hjs. unfold update_where. apply in_map_iff. exists j. by rewrite Hat.
Qed.
End Handlers.
