(* ===== verification/JourneyRun.v ===== *)
(** * A run of the journey service

    An editor's session on concrete platform operations: a segment, an A/B blast
    over it, two activations with an edit between them, and the archive.  The
    witnesses of the journey properties evaluate it. *)

From Stdlib Require Import Ascii QArith.
From stdpp Require Import sorting pretty.
From S2P Require Import Prelude JsVal SegmentDsl Graph BranchCondition JourneyModel JourneyProps Crypto Json Schema Authz AuthDb JourneyContract ContractProps JourneyDb SegmentsApi JourneyApi JourneyMachine JourneyApiProps.

#[global] Open Scope Z_scope.

Module Editor.

(** ** The platform *)

Definition nibble (k : Z) : ascii := ascii_lower (hex_digit k).
Fixpoint hex_text (len : nat) (k : Z) : string :=
  match len with O => EmptyString | S len => String (nibble (k mod 16)) (hex_text len (k / 16)) end.
Fixpoint checksum (s : string) (k : Z) : Z :=
  match s with EmptyString => k | String c s => checksum s (Z.land (257 * k + byte c + 1) 4294967295) end.

#[export] Instance zod : Zod := { zod_uuid _ := true; zod_datetime _ := true; number_format _ := "" }.
#[export] Instance crypto : Crypto := {
  gcm_seal _ _ p := (p, []); gcm_open _ _ body _ := Some body; hmac_sha1 _ _ := [];
  sha256_hex s := hex_text 64 (checksum s 0);
  argon2_hash _ p := p; argon2_verify h p := String.eqb h p }.
#[export] Instance collation : Collation := { localeCompare := String.compare }.
#[export] Instance clickhouse : ClickHouse := { ch_count _ := NInt 5; ch_sample _ := [] }.

Lemma nibble_hex k : 0 <= k < 16 → hex_lower (nibble k) = true.
Proof.
  intros Hk. assert (forallb (λ i, hex_lower (nibble (Z.of_nat i))) (seq 0 16) = true) as H by (vm_compute; reflexivity).
  rewrite forallb_forall in H. rewrite <- (Z2Nat.id k) by lia. apply H, in_seq. lia.
Qed.
Lemma hex_text_shape len k : String.length (hex_text len k) = len ∧ str_forallb hex_lower (hex_text len k) = true.
Proof.
  revert k. induction len as [|len IH]; intros k; [done|]. simpl. destruct (IH (k / 16)) as [-> ->].
  by rewrite nibble_hex by (apply Z.mod_pos_bound; lia).
Qed.
#[export] Instance digest : DigestLaw.
Proof. constructor. intros s. unfold revision_text. cbn [sha256_hex crypto]. by destruct (hex_text_shape 64 (checksum s 0)) as [-> ->]. Qed.

(** ** The session *)

Definition editor : SessionMember := mkSessionMember "member" "tenant" "e@x" "E" "editor" false false.
Definition env_of (name : string) (now : Z) : Env := mkEnv (λ k, name +:+ "-" +:+ pretty k) now true.

Definition everyone : SegmentDSL := mkDSL (JNum (NInt 1)) "AND" [].
Definition push_node (id title : string) : jsval :=
  JObj [("id", JStr id); ("type", JStr "message"); ("push", JObj [("title", JStr title); ("body", JStr "text")])].
Definition edge (id source port : string) (target : jsval) : jsval :=
  JObj [("id", JStr id); ("source", JStr source); ("source_port", JStr port); ("target", target)].
Definition variant (id label : string) : jsval :=
  JObj [("id", JStr id); ("label", JStr label); ("weight", JNum (NInt 50))].
Definition definition (label : string) : jsval :=
  JObj [("schema_version", JNum (NInt 2));
        ("entry", JObj [("type", JStr "blast"); ("segment_id", JStr "segment-0")]);
        ("nodes", JArr [JObj [("id", JStr "x"); ("type", JStr "ab_split");
                              ("variants", JArr [variant "a" label; variant "b" "B"])];
                        push_node "m1" "one"; push_node "m2" "two"]);
        ("start_node_id", JStr "x");
        ("edges", JArr [edge "e1" "x" "a" (JStr "m1"); edge "e2" "x" "b" (JStr "m2");
                        edge "e3" "m1" "next" JNull; edge "e4" "m2" "next" JNull]);
        ("exit", JObj []);
        ("settings", JObj [("category", JStr "marketing"); ("reentry", JStr "never")])].
Definition body (label : string) : jsval := JObj [("name", JStr " launch "); ("definition", definition label)].
Definition revision (label : string) : jsval :=
  JObj [("revision", JStr (draftRevision "launch" (definition label)))].

Definition start : World := mkWorld (mkDb [mkApp "app" "tenant" "App" "UTC"] [] [] [] [] [] []) [] ∅.
Definition run (calls : list jcall) (w : World) : World := fold_left (λ w c, handle c w) calls w.

Definition launch : list jcall :=
  [CallCreateSegment (env_of "segment" 1) "app" (mkSegmentUpsert "all" everyone) editor;
   CallCreate (env_of "journey" 2) "app" (body "A") editor].
Definition first : list jcall := [CallActivate (env_of "first" 3) "app" "journey-0" (revision "A") editor].
Definition second : list jcall :=
  [CallPause (env_of "pause" 4) "app" "journey-0" editor;
   CallUpdate (env_of "edit" 5) "app" "journey-0" (body "A2") editor;
   CallActivate (env_of "second" 6) "app" "journey-0" (revision "A2") editor].
Definition archive : list jcall := [CallArchive (env_of "archive" 7) "app" "journey-0" editor].

Lemma start_initial : initial start.
Proof. split_and!; reflexivity. Qed.
Lemma run_steps calls w : rtc jstep w (run calls w).
Proof.
  revert w. induction calls as [|c calls IH]; intros w; [apply rtc_refl|].
  exact (rtc_l _ _ _ _ (step_call w c) (IH (handle c w))).
Qed.
Lemma run_reachable calls : reachable (run calls start).
Proof. exists start. split; [apply start_initial|apply run_steps]. Qed.
Lemma run_app l l' w : run (l ++ l') w = run l' (run l w).
Proof. apply fold_left_app. Qed.

Definition journey (w : World) : Journey :=
  hd (mkJourney "" "" "" "" JDraft "" JUndef None "" 0) (journeys (pg w)).
Lemma journey_In w : length (journeys (pg w)) = 1%nat → In (journey w) (journeys (pg w)).
Proof. unfold journey. destruct (journeys (pg w)); [done|]. intros _. by left. Qed.

Definition version (w : World) : Version := List.last (journey_versions (pg w)) (mkVersion "" 0 JUndef).

(** What the evaluations below read off a store *)
Definition summary (w : World) : list string * list (JourneyStatus * option Z) * list Z :=
  (map j_id (journeys (pg w)), map (λ j, (j_status j, j_active_version j)) (journeys (pg w)),
   map v_version (journey_versions (pg w))).

Definition archived : World := run (launch ++ first ++ second ++ archive) start.
Lemma archived_summary : summary archived = (["journey-0"], [(JArchived, Some 2)], [1; 2]).
Proof. vm_compute. reflexivity. Qed.

Definition relaunched : World := run (launch ++ first ++ second) start.
Lemma relaunched_summary : summary relaunched = (["journey-0"], [(JActive, Some 2)], [1; 2]).
Proof. vm_compute. reflexivity. Qed.

(** ... and off its last version *)
Definition version_summary (w : World) : nat * string * Z * option string * string * string :=
  (length (journey_versions (pg w)), v_journey (version w), v_version (version w),
   blast_segment (journey_of (v_definition (version w))), j_tenant (journey w), j_app (journey w)).
Lemma relaunched_version :
  version_summary relaunched = (2%nat, "journey-0", 2, Some "segment-0", "tenant", "app").
Proof. vm_compute. reflexivity. Qed.
Lemma last_version w j n segment t a :
  version_summary w = (2%nat, j, n, segment, t, a) →
  In (version w) (journey_versions (pg w)) ∧ v_journey (version w) = j ∧ v_version (version w) = n
  ∧ blast_segment (journey_of (v_definition (version w))) = segment ∧ j_tenant (journey w) = t ∧ j_app (journey w) = a.
Proof.
  unfold version_summary, version. destruct (journey_versions (pg w)) as [|x [|y [|]]]; try done.
  intros E. injection E as E1 E2 E3 E4 E5. simpl. split_and!; [right; by left|done..].
Qed.
End Editor.
Import Editor.

Lemma summary_journey w st n l :
  Editor.summary w = (["journey-0"], [(st, n)], l) →
  In (Editor.journey w) (journeys (pg w)) ∧ j_id (Editor.journey w) = "journey-0" ∧ j_status (Editor.journey w) = st.
Proof.
  unfold Editor.summary, Editor.journey. destruct (journeys (pg w)) as [|j [|]]; try done.
  intros [= <- <- _ _]. split_and!; [by left|done..].
Qed.

(** ** Witnesses *)

Lemma journey_versions_sound_witness :
  reachable Editor.relaunched ∧ j_status (Editor.journey Editor.relaunched) = JActive
  ∧ history (j_id (Editor.journey Editor.relaunched)) (pg Editor.relaunched) ≠ [].
Proof.
  destruct (summary_journey _ _ _ _ Editor.relaunched_summary) as (Hin&_&Hs).
  assert (reachable Editor.relaunched) as Hr by apply Editor.run_reachable.
  split; [exact Hr|]. split; [exact Hs|].
  destruct (journey_versions_sound Editor.relaunched (Editor.journey Editor.relaunched) Hr Hin) as (_&_&Ha&_).
  exact (Ha Hs).
Defined.

Lemma published_versions_kept_witness :
  j_status (Editor.journey Editor.archived) = JArchived
  ∧ history "journey-0" (pg (Editor.run Editor.first Editor.archived)) = history "journey-0" (pg Editor.archived).
Proof.
  destruct (summary_journey _ _ _ _ Editor.archived_summary) as (Hin&Hid&Hs).
  split; [exact Hs|].
  destruct (published_versions_kept Editor.archived (Editor.run Editor.first Editor.archived) (Editor.journey Editor.archived)
    (Editor.run_reachable _) (Editor.run_steps _ _) Hin) as (j'&_&_&_&_&_&Ha).
  rewrite Hid in Ha. destruct (Ha Hs) as (_&_&Hh). exact Hh.
Defined.

Lemma jobs_of_last w :
  (∀ j v, In j (journeys (pg w)) → In v (history (j_id j) (pg w)) → jobs_ok j v w) →
  summary w = (["journey-0"], [(JActive, Some 2)], [1; 2]) →
  version_summary w = (2%nat, "journey-0", 2, Some "segment-0", "tenant", "app") →
  ∃ ref, jobs_of "journey-0" 2 (pg w)
    = [mkOutbox "tenant" "app" STREAM_journeyEntry "v2:entry:journey-0:2" (entry_job "journey-0" 2 ref)].
Proof.
  intros Hj (Hin&Hid&_)%summary_journey (Hv&Hvj&Ev&Eb&Et&Ea)%last_version.
  assert (In (version w) (history (j_id (journey w)) (pg w))) as Hh by (rewrite Hid; by apply history_In).
  specialize (Hj _ _ Hin Hh). unfold jobs_ok in Hj. rewrite Eb, Hid, Et, Ea, Ev in Hj.
  destruct Hj as (ref&Hjobs&_). exists ref. exact Hjobs.
Qed.

Lemma entry_jobs_exactly_once_witness :
  reachable relaunched
  ∧ ∃ ref, jobs_of "journey-0" 2 (pg relaunched)
      = [mkOutbox "tenant" "app" STREAM_journeyEntry "v2:entry:journey-0:2" (entry_job "journey-0" 2 ref)].
Proof.
  assert (reachable relaunched) as Hr by apply run_reachable. split; [exact Hr|].
  destruct (entry_jobs_exactly_once relaunched Hr) as [Hj _].
  exact (jobs_of_last relaunched Hj relaunched_summary relaunched_version).
Defined.

Lemma validated_draft_activates_witness :
  is_ok (validate_journey (Editor.env_of "check" 3) "app" "journey-0" Editor.editor (Editor.run Editor.launch Editor.start)).1 = true
  ∧ ∃ ref w', activate_journey (Editor.env_of "go" 4) "app" "journey-0" (Editor.revision "A") Editor.editor
      (Editor.run Editor.launch Editor.start) = (Ok (1, ref), w').
Proof.
  set (w := Editor.run Editor.launch Editor.start).
  assert (∃ w1, validate_journey (Editor.env_of "check" 3) "app" "journey-0" Editor.editor w
    = (Ok ([], Some (NInt 5), draftRevision "launch" (Editor.definition "A")), w1)) as [w1 Hv]
    by (eexists; vm_compute; reflexivity).
  split; [rewrite Hv; reflexivity|].
  assert (select1 (journey_at "app" "journey-0" Editor.editor) (journeys (pg w)) = Some (Editor.journey w)) as Hsel
    by (vm_compute; reflexivity).
  destruct (validated_draft_activates (Editor.env_of "check" 3) (Editor.env_of "go" 4) "app" "journey-0" Editor.editor w
    [] (Some (NInt 5)) (draftRevision "launch" (Editor.definition "A")) w1 (Editor.journey w)
    (Editor.run_reachable _) Hv eq_refl Hsel) as (n&ref&w'&Ha&Hn&_).
  - vm_compute; reflexivity.
  - vm_compute; reflexivity.
  - vm_compute; reflexivity.
  - reflexivity.
  - exists ref, w'. assert (n = 1) as -> by (rewrite Hn; vm_compute; reflexivity). exact Ha.
Defined.

Lemma accepted_definition_witness :
  definitionSchema (Editor.definition "A") = Some (Editor.definition "A")
  ∧ Forall (λ n, ∃ id, node_id n = Some id ∧ id ≠ "") (nodes_of (journey_of (Editor.definition "A"))).
Proof.
  assert (definitionSchema (Editor.definition "A") = Some (Editor.definition "A")) as H by (vm_compute; reflexivity).
  split; [exact H|].
  destruct (accepted_definition (Editor.definition "A") (Editor.definition "A") H) as (_&_&Hg).
  destruct Hg as [Hids _]. exact Hids.
Defined.
