(* ===== verification/Reports.v ===== *)
(** * The console's read views

    [analytics/analytics.controller.ts], [messaging/message-log.controller.ts],
    [users/users.controller.ts] and [audit/audit.controller.ts]: queries over PostgreSQL and ClickHouse, and
    what is computed from their rows.

    A table is the list of the rows a query sees (a table of ClickHouse may hold
    a row more than once).  The order of a query without [ORDER BY], of rows
    that compare equal and of groups is unspecified; here it is the order of the
    table.  An id stands for its canonical text. *)

From Stdlib Require Import Ascii QArith.
From stdpp Require Import sorting.
From S2P Require Import Prelude JsVal JsNumber BranchCondition JourneyModel Crypto Json Schema Authz AuthDb.

#[global] Open Scope Z_scope.

(** ** Tables *)

Record AppRec := mkApp { ap_id : string; ap_tenant : string }.
(** [pf_shown]: the columns that are only shown *)
Record Profile := mkProfile {
  pf_id : string; pf_tenant : string; pf_app : string; pf_external_id : option string; pf_email : option string;
  pf_status : string; pf_shown : jsval }.
Record DeviceRec := mkDeviceRec {
  dr_id : string; dr_tenant : string; dr_app : string; dr_user : string; dr_push_token : option string;
  dr_token_status : string; dr_last_active_at : option Z; dr_shown : jsval }.
Record JourneyRec := mkJourneyRec {
  jr_id : string; jr_tenant : string; jr_app : string; jr_name : string; jr_status : string; jr_active_version : option Z }.
Record VersionRec := mkVersionRec { vr_journey : string; vr_version : Z; vr_created_at : Z; vr_definition : JourneyDefinition }.
Record StateRec := mkStateRec {
  st_tenant : string; st_app : string; st_journey : string; st_version : Z; st_user : string; st_current_node : Z;
  st_status : string; st_next_wake_at : option Z; st_entered_at : Z }.
Record Execution := mkExecution {
  ex_tenant : string; ex_app : string; ex_journey : string; ex_version : Z; ex_node : string; ex_user : string;
  ex_status : string; ex_output_port : option string }.
(** [mg_shown]: the columns that are only shown *)
Record MessageRec := mkMessageRec {
  mg_tenant : string; mg_app : string; mg_message_id : string; mg_journey : string; mg_journey_version : Z;
  mg_node_index : Z; mg_campaign_ref : string; mg_user : string; mg_status : string; mg_sent_at : Z; mg_shown : jsval }.
Record EventRec := mkEventRec {
  ev_tenant : string; ev_app : string; ev_name : string; ev_user : string; ev_properties : string; ev_server_ts : Z }.
Record LifecycleRec := mkLifecycle { lc_tenant : string; lc_app : string; lc_message_id : string; lc_status : string }.
Record SendsRec := mkSends { us_tenant : string; us_app : string; us_day : Z; us_channel : string; us_status : string; us_sends : Z }.
Record UninstallRec := mkUninstall { ui_tenant : string; ui_app : string; ui_detected_at : Z }.

Section Reports.
(** the states that [uniqCombinedState] stores and [uniqCombinedMerge] counts *)
Context (Uniq : Type) (uniqCombinedMerge : list Uniq → Z).

Record ActiveRec := mkActive { au_tenant : string; au_app : string; au_day : Z; au_users : Uniq }.

Record Store := mkStore {
  apps : list AppRec; profiles : list Profile; devices : list DeviceRec; journeys : list JourneyRec;
  versions : list VersionRec; states : list StateRec; executions : list Execution; message_log : list MessageRec;
  events : list EventRec; message_lifecycle : list LifecycleRec; usage_active : list ActiveRec;
  usage_sends : list SendsRec; app_uninstalls : list UninstallRec }.

(** ClickHouse: [now()] in ms, [today()], [formatDateTime], [JSONExtractString];
    the request: who asks, and zod's and the pipe's idea of a UUID *)
Context (ch_now today : Z) (formatDateTime : Z → string → string) (JSONExtractString : string → string → string)
        (member : SessionMember) (is_uuid zod_uuid : string → bool).

Definition toDate (ms : Z) : Z := ms / 86400000.
(** [uniqExact] *)
Definition uniqExact (l : list string) : Z := Z.of_nat (length (dedup l)).
Definition count {A} (l : list A) : Z := Z.of_nat (length l).

(** [GROUP BY]: the groups of the rows with one key *)
Definition group_by {A K} `{EqDecision K} (key : A → K) (l : list A) : list (K * list A) :=
  map (λ k, (k, List.filter (λ x, bool_decide (key x = k)) l)) (remove_dups (map key l)).

(** [ORDER BY key DESC] on a number or a text, [NULLS LAST] *)
Definition z_desc {A} (key : A → Z) (a b : A) : Prop := key b <= key a.
Definition text_desc {A} (key : A → string) (a b : A) : Prop := Is_true (String.leb (key b) (key a)).
Definition opt_desc {A} (key : A → option Z) (a b : A) : Prop :=
  match key b, key a with None, _ => True | Some _, None => False | Some y, Some x => y <= x end.
#[global] Instance z_desc_dec {A} (key : A → Z) a b : Decision (z_desc key a b).
Proof. unfold z_desc. apply _. Defined.
#[global] Instance text_desc_dec {A} (key : A → string) a b : Decision (text_desc key a b).
Proof. unfold text_desc. apply _. Defined.
#[global] Instance opt_desc_dec {A} (key : A → option Z) a b : Decision (opt_desc key a b).
Proof. unfold opt_desc. destruct (key b), (key a); apply _. Defined.

Definition scoped (appId t a : string) : bool := String.eqb t (sm_tenantId member) && String.eqb a appId.

(** ** What the controllers share *)

(** [@RequirePermission], the pipe on the path's ids *)
Definition enter {S} (perm : Permission) (ids : list string) : M S unit :=
  _ ← PermissionGuard (Some perm) (Some (sm_role member));
  throw_if (negb (forallb is_uuid ids)) (BadRequestException "Validation failed (uuid is expected)").

Definition assertApp (appId : string) : M Store unit :=
  w ← get;
  throw_if (count (select (λ a, String.eqb (ap_id a) appId && String.eqb (ap_tenant a) (sm_tenantId member)) (apps w)) =? 0)
    (NotFoundException "앱을 찾을 수 없습니다").

(** ** Users *)

Definition search (appId : string) (q : option string) : M Store (list Profile) :=
  _ ← assertApp appId;
  w ← get;
  match q with
  | None | Some "" => mret []
  | Some q =>
      mret (take 20 (select (λ u, scoped appId (pf_tenant u) (pf_app u) && String.eqb (pf_status u) "active"
        && (bool_decide (pf_external_id u = Some q) || bool_decide (pf_email u = Some q))) (profiles w)))
  end.

Record UserDetail := mkDetail {
  ud_user : Profile; ud_devices : list (DeviceRec * bool); ud_journeys : list (StateRec * string);
  ud_events : list (string * string); ud_messages : list (MessageRec * string) }.

(** [journey_states js JOIN journeys j ON j.id = js.journey_id] *)
Definition join_journeys (w : Store) (l : list StateRec) : list (StateRec * JourneyRec) :=
  flat_map (λ s, map (pair s) (select (λ j, String.eqb (jr_id j) (st_journey s)) (journeys w))) l.

(** the format of the two times on this page *)
Definition SHOWN_FORMAT : string := "%Y-%m-%dT%H:%M:%S".

Definition detail (appId id : string) : M Store UserDetail :=
  _ ← assertApp appId;
  w ← get;
  user ← some_or_throw (select1 (λ u, String.eqb (pf_id u) id && scoped appId (pf_tenant u) (pf_app u)) (profiles w))
           (NotFoundException "유저를 찾을 수 없습니다");
  let devices := merge_sort (opt_desc dr_last_active_at) (select (λ d, String.eqb (dr_user d) id) (devices w)) in
  let journeys := take 20 (merge_sort (z_desc (λ p, st_entered_at (fst p)))
    (join_journeys w (select (λ s, String.eqb (st_user s) id) (states w)))) in
  let events := take 50 (merge_sort (z_desc ev_server_ts)
    (select (λ e, scoped appId (ev_tenant e) (ev_app e) && String.eqb (ev_user e) id) (events w))) in
  (* [sent_at] names the formatted text, also in [ORDER BY] *)
  let messages := take 50 (merge_sort (text_desc snd)
    (map (λ m, (m, formatDateTime (mg_sent_at m) SHOWN_FORMAT))
       (select (λ m, scoped appId (mg_tenant m) (mg_app m) && String.eqb (mg_user m) id) (message_log w)))) in
  mret (mkDetail user (map (λ d, (d, match dr_push_token d with Some _ => true | None => false end)) devices)
          (map (λ p, (fst p, jr_name (snd p))) journeys)
          (map (λ e, (ev_name e, formatDateTime (ev_server_ts e) SHOWN_FORMAT)) events) messages).

(** ** The message log *)

Record LogFilter := mkFilter {
  fl_status : option string; fl_journey_id : option string; fl_limit : option string; fl_test_run_id : option string }.

(** [z.coerce.number().int().min(1).max(500).default(100)] *)
Definition parse_limit (limit : option string) : option Z :=
  match limit with
  | None => Some 100
  | Some s =>
      let n := Number s in
      if Number_isInteger n && num_leb (NInt 1) n && num_leb n (NInt 500) then Some (num_to_Z n) else None
  end.
Definition opt_all (p : string → bool) (o : option string) : bool := match o with Some s => p s | None => true end.
Definition parse_filter (f : LogFilter) : option Z :=
  if opt_all (λ s, js_length s <=? 64) (fl_status f) && opt_all zod_uuid (fl_journey_id f) && opt_all zod_uuid (fl_test_run_id f)
  then parse_limit (fl_limit f) else None.

(** [if (x) conds.push(...)] *)
Definition when_set (o : option string) (p : string → bool) : bool := match o with None | Some "" => true | Some s => p s end.
Definition log_where (appId : string) (f : LogFilter) (m : MessageRec) : bool :=
  scoped appId (mg_tenant m) (mg_app m)
  && when_set (fl_status f) (λ s, if String.eqb s "skipped" then starts_with "skipped_" (mg_status m) else String.eqb (mg_status m) s)
  && when_set (fl_journey_id f) (λ s, String.eqb (mg_journey m) s)
  && when_set (fl_test_run_id f) (λ s, String.eqb (mg_campaign_ref m) ("test:" +:+ s)).

Definition LOG_FORMAT : string := "%Y-%m-%d %H:%i:%S".
Record LogPage := mkPage { lp_messages : list (MessageRec * string); lp_total : Z; lp_failed : Z; lp_failure_rate : Q }.

Definition list_messages (appId : string) (f : LogFilter) : M Store LogPage :=
  _ ← assertApp appId;
  max ← some_or_throw (parse_filter f) (BadRequestException "Invalid message log filters");
  w ← get;
  (* [sent_at] names the formatted text, also in [ORDER BY] *)
  let rows := take (Z.to_nat max) (merge_sort (text_desc snd)
    (map (λ m, (m, formatDateTime (mg_sent_at m) LOG_FORMAT)) (select (log_where appId f) (message_log w)))) in
  let recent := select (λ m, scoped appId (mg_tenant m) (mg_app m) && (ch_now - 3600000 <? mg_sent_at m)) (message_log w) in
  let total := count recent in
  let failed := count (select (λ m, String.eqb (mg_status m) "failed") recent) in
  mret (mkPage rows total failed (if 0 <? total then js_div failed total else 0%Q)).

(** ** Analytics *)

Record Dashboard := mkDashboard {
  db_sent : Z; db_failed : Z; db_skipped : Z; db_by_status : list (string * Z); db_active_journeys : Z }.

(** [const o = {}; for (const r of rows) o[r.k] = Number(r.n)] *)
Definition record_of (rows : list (string * Z)) : list (string * Z) := fold_left (λ o r, JMap.set o (fst r) (snd r)) rows [].
Definition at_status (o : list (string * Z)) (k : string) : Z := default 0 (JMap.get o k).

Definition dashboard (appId : string) : M Store Dashboard :=
  _ ← assertApp appId;
  w ← get;
  let rows := select (λ m, scoped appId (mg_tenant m) (mg_app m) && (toDate (mg_sent_at m) =? today)) (message_log w) in
  let byStatus := record_of (map (λ g, (fst g, uniqExact (map mg_message_id (snd g)))) (group_by mg_status rows)) in
  let active := select (λ j, scoped appId (jr_tenant j) (jr_app j) && String.eqb (jr_status j) "active") (journeys w) in
  mret (mkDashboard (at_status byStatus "sent") (at_status byStatus "failed")
          (at_status byStatus "skipped_quiet_hours" + at_status byStatus "skipped_cap" + at_status byStatus "skipped_unreachable")
          byStatus (count active)).

Record PathReport := mkPath { pr_output_port : string; pr_executions : Z; pr_unique_users : Z }.
Record NodeReport := mkNodeReport {
  nr_node_id : option string; nr_node_index : Z; nr_type : string; nr_arrived : Z; nr_waiting : Z; nr_completed : Z;
  nr_failed : Z; nr_paths : list PathReport }.

Definition of_version (appId journeyId : string) (version : Z) (e : Execution) : bool :=
  scoped appId (ex_tenant e) (ex_app e) && String.eqb (ex_journey e) journeyId && (ex_version e =? version).

(** the counts by status of each node, from rows in any order *)
Definition counts_by_node (visits : list (string * string * Z)) : list (string * list (string * Z)) :=
  fold_left (λ m r, let '(node, status, n) := r in
    JMap.set m node (JMap.set (default [] (JMap.get m node)) status n)) visits [].
Definition paths_by_node (choices : list (string * PathReport)) : list (string * list PathReport) :=
  fold_left (λ m r, JMap.set m (fst r) (default [] (JMap.get m (fst r)) ++ [snd r])) choices [].

Definition node_report (countsByNode : list (string * list (string * Z))) (pathsByNode : list (string * list PathReport))
    (index : nat) (node : JourneyNode) : NodeReport :=
  let counts := node_id node ≫= JMap.get countsByNode in
  let at_ (status : string) := default 0 (counts ≫= λ c, JMap.get c status) in
  mkNodeReport (node_id node) (Z.of_nat index) (type_of (body node))
    (fold_left Z.add (map snd (default [] counts)) 0) (at_ "waiting") (at_ "resolved") (at_ "failed")
    (default [] (node_id node ≫= JMap.get pathsByNode)).

(** the rows of the two queries *)
Definition visits_of (rows : list Execution) : list (string * string * Z) :=
  map (λ g, (fst g, count (snd g))) (group_by (λ e, (ex_node e, ex_status e)) rows).
Definition resolved_port (e : Execution) : option string := if String.eqb (ex_status e) "resolved" then ex_output_port e else None.
Definition choices_of (rows : list Execution) : list (string * PathReport) :=
  map (λ g, (fst (fst g), mkPath (snd (fst g)) (count (snd g)) (uniqExact (map (λ p, ex_user (snd p)) (snd g)))))
    (group_by (λ p, (ex_node (snd p), fst p)) (omap (λ e, p ← resolved_port e; Some (p, e)) rows)).

Definition nodeReport (appId journeyId : string) (version : Z) (definition : JourneyDefinition) : M Store (list NodeReport) :=
  w ← get;
  let rows := select (of_version appId journeyId version) (executions w) in
  nodes ← some_or_throw (JourneyModel.nodes definition) (PlainError "TypeError");
  mret (imap (node_report (counts_by_node (visits_of rows)) (paths_by_node (choices_of rows))) nodes).

(** [/^[1-9]\d*$/] *)
Definition version_text (s : string) : bool :=
  match s with String c s' => is_digit c && negb (Ascii.eqb c "0") && str_forallb is_digit s' | EmptyString => false end.

Inductive Instrumentation := unpublished | available | unsupported.
Record JourneyReport := mkReport {
  rp_name : string; rp_status : string; rp_states : list (string * Z); rp_sends : list (string * Z * Z);
  rp_version : option num; rp_versions : list (Z * Z); rp_definition : option JourneyDefinition;
  rp_instrumentation : Instrumentation; rp_nodes : list NodeReport }.

Definition journeyReport (appId id : string) (requestedVersion : option string) : M Store JourneyReport :=
  _ ← assertApp appId;
  w ← get;
  let mine j := String.eqb (jr_id j) id && scoped appId (jr_tenant j) (jr_app j) in
  journey ← some_or_throw (select1 mine (journeys w)) (NotFoundException "");
  _ ← throw_if (match requestedVersion with Some s => negb (version_text s) | None => false end)
        (BadRequestException "올바른 저니 버전을 선택하세요");
  let versionRows := merge_sort (z_desc vr_version)
    (flat_map (λ v, map (λ _, v) (select (λ j, String.eqb (jr_id j) (vr_journey v) && mine j) (journeys w))) (versions w)) in
  let version := match requestedVersion with Some s => Some (Number s) | None => NInt <$> jr_active_version journey end in
  let selected := version ≫= λ n, List.find (λ v, num_eqb (NInt (vr_version v)) n) versionRows in
  _ ← throw_if (match requestedVersion, selected with Some _, None => true | _, _ => false end)
        (NotFoundException "저니 버전을 찾을 수 없습니다");
  let definition := vr_definition <$> selected in
  let in_version (n : Z) := match requestedVersion with
                            | Some s => num_eqb (NInt n) (Number s)
                            | None => true
                            end in
  let states := select (λ s, String.eqb (st_journey s) id && scoped appId (st_tenant s) (st_app s) && in_version (st_version s)) (states w) in
  let sends := select (λ m, scoped appId (mg_tenant m) (mg_app m) && String.eqb (mg_journey m) id && in_version (mg_journey_version m)) (message_log w) in
  let rows := merge_sort (λ a b, snd (fst a) <= snd (fst b)) (group_by (λ m, (mg_status m, mg_node_index m)) sends) in
  let instrumentation := match definition with
                         | None => unpublished
                         | Some d => if version_is d 2 then available else unsupported
                         end in
  nodes ← match instrumentation, selected with
          | available, Some v => nodeReport appId id (vr_version v) (vr_definition v)
          | _, _ => mret []
          end;
  mret (mkReport (jr_name journey) (jr_status journey) (record_of (map (λ g, (fst g, count (snd g))) (group_by st_status states)))
          (map (λ g, (fst (fst g), snd (fst g), uniqExact (map mg_message_id (snd g)))) rows)
          version (map (λ v, (vr_version v, vr_created_at v)) versionRows) definition instrumentation nodes).

(** *** Deliveries *)

Definition rate (a b : Z) : Q := if 0 <? b then round_to 1000 (js_div a b) else 0%Q.

Record DeliveryReport := mkDelivery {
  dl_sent : Z; dl_delivered : Z; dl_opened : Z; dl_clicked : Z; dl_bounced : Z; dl_delivery_rate : Q; dl_open_rate : Q }.

(** the ids of the messages of a journey that a provider accepted *)
Definition sent_ids (appId id : string) (w : Store) : list string :=
  map mg_message_id (select (λ m, scoped appId (mg_tenant m) (mg_app m) && String.eqb (mg_journey m) id
                                   && String.eqb (mg_status m) "sent") (message_log w)).
(** [if(event_name = '$push_opened', ['delivered', 'opened'], ['delivered'])] *)
Definition kinds (name : string) : list string := if String.eqb name "$push_opened" then ["delivered"; "opened"] else ["delivered"].
(** the two sources of evidence: what an app reports, and what a provider calls back *)
Definition evidence (appId id : string) (w : Store) : list (string * string) :=
  flat_map (λ e, let mid := JSONExtractString (ev_properties e) "message_id" in
      if String_in mid (sent_ids appId id w) then map (pair mid) (kinds (ev_name e)) else [])
    (select (λ e, scoped appId (ev_tenant e) (ev_app e)
                  && String_in (ev_name e) ["$push_delivered"; "$push_received"; "$push_opened"]) (events w))
  ++ map (λ l, (lc_message_id l, lc_status l))
       (select (λ l, scoped appId (lc_tenant l) (lc_app l) && String_in (lc_status l) ["delivered"; "opened"; "clicked"; "bounced"]
                     && String_in (lc_message_id l) (sent_ids appId id w)) (message_lifecycle w)).
(** [uniqExactIf(mid, kind = k)] *)
Definition uniqExactIf (l : list (string * string)) (k : string) : Z :=
  uniqExact (map fst (List.filter (λ p, String.eqb (snd p) k) l)).

Definition deliveryReport (appId id : string) : M Store DeliveryReport :=
  _ ← assertApp appId;
  w ← get;
  let sent := uniqExact (sent_ids appId id w) in
  let n := uniqExactIf (evidence appId id w) in
  mret (mkDelivery sent (n "delivered") (n "opened") (n "clicked") (n "bounced")
          (rate (n "delivered") sent) (rate (n "opened") (n "delivered"))).

(** *** Usage *)

Record Usage := mkUsage { ug_mau_30d : Z; ug_dau_today : Z; ug_sends_30d : list (string * Z) }.

Definition usage (appId : string) : M Store Usage :=
  _ ← assertApp appId;
  w ← get;
  let active p := map au_users (select (λ r, scoped appId (au_tenant r) (au_app r) && p (au_day r)) (usage_active w)) in
  let sends := select (λ r, scoped appId (us_tenant r) (us_app r) && (today - 30 <? us_day r) && String.eqb (us_status r) "sent") (usage_sends w) in
  mret (mkUsage (uniqCombinedMerge (active (λ d, today - 30 <? d))) (uniqCombinedMerge (active (Z.eqb today)))
          (map (λ g, (fst g, fold_left Z.add (map us_sends (snd g)) 0)) (group_by us_channel sends))).

Record Uninstalls := mkUninstalls { un_days : Z; un_uninstalls : Z; un_active_devices : Z; un_uninstall_rate : Q }.

(** [Math.min(Math.max(Number(days) || 30, 1), 365)] *)
Definition clamp_days (days : option string) : num :=
  let n := Number_of days in
  let n := if truthy (JNum n) then n else NInt 30 in
  if num_ltb n (NInt 1) then NInt 1 else if num_ltb (NInt 365) n then NInt 365 else n.

Definition uninstalls (appId : string) (days : option string) : M Store Uninstalls :=
  _ ← assertApp appId;
  w ← get;
  let n := clamp_days days in
  (* [{n:UInt16}] takes a whole number *)
  _ ← throw_if (negb (Number_isInteger n)) (PlainError "ClickHouseError: BAD_QUERY_PARAMETER");
  let n := num_to_Z n in
  let removed := count (select (λ u, scoped appId (ui_tenant u) (ui_app u) && (ch_now - n * 86400000 <? ui_detected_at u)) (app_uninstalls w)) in
  let active := count (flat_map (λ d, select (λ u, String.eqb (pf_id u) (dr_user d) && String.eqb (pf_app u) appId) (profiles w))
    (select (λ d, match dr_push_token d with Some _ => true | None => false end && String.eqb (dr_token_status d) "active") (devices w))) in
  let denom := active + removed in
  mret (mkUninstalls n removed active (if 0 <? denom then round_to 10000 (js_div removed denom) else 0%Q)).

(** ** The routes *)

Inductive Query :=
| QSearch (q : option string) | QDetail (id : string) | QMessages (f : LogFilter) | QDashboard
| QJourney (id : string) (version : option string) | QDelivery (id : string) | QUsage | QUninstalls (days : option string).
Inductive Answer :=
| AUsers (l : list Profile) | ADetail (d : UserDetail) | AMessages (p : LogPage) | ADashboard (d : Dashboard)
| AJourney (r : JourneyReport) | ADelivery (d : DeliveryReport) | AUsage (u : Usage) | AUninstalls (u : Uninstalls).

Definition permission_of (q : Query) : Permission := match q with QSearch _ | QDetail _ => users_read | _ => analytics_read end.
Definition ids_of (q : Query) : list string := match q with QDetail id | QJourney id _ | QDelivery id => [id] | _ => [] end.

Definition handle (appId : string) (q : Query) : M Store Answer :=
  match q with
  | QSearch t => x ← search appId t; mret (AUsers x)
  | QDetail id => x ← detail appId id; mret (ADetail x)
  | QMessages f => x ← list_messages appId f; mret (AMessages x)
  | QDashboard => x ← dashboard appId; mret (ADashboard x)
  | QJourney id v => x ← journeyReport appId id v; mret (AJourney x)
  | QDelivery id => x ← deliveryReport appId id; mret (ADelivery x)
  | QUsage => x ← usage appId; mret (AUsage x)
  | QUninstalls d => x ← uninstalls appId d; mret (AUninstalls x)
  end.

Definition serve (appId : string) (q : Query) : M Store Answer :=
  _ ← enter (permission_of q) (appId :: ids_of q); handle appId q.
End Reports.

(** ** The audit log ([AuditController.list])

    Over the store of accounts; its entries are in the order of insertion, of
    which [created_at] is the time. *)

(** [Math.min(Math.max(Number(limit) || 100, 1), 500)] *)
Definition clamp_limit (limit : option string) : num :=
  let n := Number_of limit in
  let n := if truthy (JNum n) then n else NInt 100 in
  if num_ltb n (NInt 1) then NInt 1 else if num_ltb (NInt 500) n then NInt 500 else n.

Definition list_audit (member : SessionMember) (limit : option string) : M Db (list AuditLog) :=
  _ ← PermissionGuard (Some team_read) (Some (sm_role member));
  d ← get;
  let n := clamp_limit limit in
  (* [LIMIT $2] takes a whole number *)
  _ ← throw_if (negb (Number_isInteger n)) (PlainError "invalid input syntax for type bigint");
  mret (take (Z.to_nat (num_to_Z n)) (rev (select (λ e, String.eqb (al_tenant e) (sm_tenantId member)) (audit_logs d)))).
