(* ===== verification/ReportsProps.v ===== *)
(** * What the read views promise

    A view of an app is computed from the rows of that app, and two of them also
    from rows that refer to its users; the counts of
    a delivery report are counts of accepted messages; the counts of a journey
    report add up; a page of the message log holds the first rows of the ones
    asked for. *)

From Stdlib Require Import Ascii QArith Lqa.
From stdpp Require Import sorting.
From S2P Require Import Prelude JsVal JsNumber BranchCondition JourneyModel Crypto Json Schema Authz AuthDb Reports.

#[global] Open Scope Z_scope.

Section Isolation.
Context (Uniq : Type) (uniqCombinedMerge : list Uniq → Z).
Context (ch_now today : Z) (formatDateTime : Z → string → string) (JSONExtractString : string → string → string)
        (member : SessionMember) (is_uuid zod_uuid : string → bool).
Abbreviation Store := (Store Uniq).
Abbreviation scoped := (scoped member).
Abbreviation serve := (serve Uniq uniqCombinedMerge ch_now today formatDateTime JSONExtractString member is_uuid zod_uuid).
Abbreviation handle := (handle Uniq uniqCombinedMerge ch_now today formatDateTime JSONExtractString member zod_uuid).
#[local] Arguments apps {Uniq}.
#[local] Arguments profiles {Uniq}.
#[local] Arguments devices {Uniq}.
#[local] Arguments journeys {Uniq}.
#[local] Arguments versions {Uniq}.
#[local] Arguments states {Uniq}.
#[local] Arguments executions {Uniq}.
#[local] Arguments message_log {Uniq}.
#[local] Arguments events {Uniq}.
#[local] Arguments message_lifecycle {Uniq}.
#[local] Arguments usage_active {Uniq}.
#[local] Arguments usage_sends {Uniq}.
#[local] Arguments app_uninstalls {Uniq}.
#[local] Arguments au_tenant {Uniq}.
#[local] Arguments au_app {Uniq}.

(** the rows of one app of the member's tenant *)
Definition restrict (appId : string) (w : Store) : Store :=
  mkStore Uniq (select (λ a, scoped appId (ap_tenant a) (ap_id a)) (apps w))
    (select (λ u, scoped appId (pf_tenant u) (pf_app u)) (profiles w))
    (select (λ d, scoped appId (dr_tenant d) (dr_app d)) (devices w))
    (select (λ j, scoped appId (jr_tenant j) (jr_app j)) (journeys w))
    (select (λ v, existsb (λ j, String.eqb (jr_id j) (vr_journey v) && scoped appId (jr_tenant j) (jr_app j)) (journeys w)) (versions w))
    (select (λ s, scoped appId (st_tenant s) (st_app s)) (states w))
    (select (λ e, scoped appId (ex_tenant e) (ex_app e)) (executions w))
    (select (λ m, scoped appId (mg_tenant m) (mg_app m)) (message_log w))
    (select (λ e, scoped appId (ev_tenant e) (ev_app e)) (events w))
    (select (λ l, scoped appId (lc_tenant l) (lc_app l)) (message_lifecycle w))
    (select (λ r, scoped appId (au_tenant r) (au_app r)) (usage_active w))
    (select (λ r, scoped appId (us_tenant r) (us_app r)) (usage_sends w))
    (select (λ u, scoped appId (ui_tenant u) (ui_app u)) (app_uninstalls w)).

(** [id] is a user of the app *)
Definition is_user (appId : string) (w : Store) (id : string) : bool :=
  existsb (λ u, String.eqb (pf_id u) id && String.eqb (pf_app u) appId) (profiles w).

(** What the page of a user and the rate of uninstalls are computed from: they
    look up devices and states by the user and journeys by the state, with no
    condition on the tenant or the app of those rows. *)
Definition of_users (appId : string) (w : Store) : Store :=
  mkStore Uniq (select (λ a, scoped appId (ap_tenant a) (ap_id a)) (apps w))
    (select (λ u, String.eqb (pf_app u) appId) (profiles w))
    (select (λ d, is_user appId w (dr_user d)) (devices w))
    (select (λ j, existsb (λ s, String.eqb (jr_id j) (st_journey s) && is_user appId w (st_user s)) (states w)) (journeys w))
    [] (select (λ s, is_user appId w (st_user s)) (states w)) []
    (select (λ m, scoped appId (mg_tenant m) (mg_app m)) (message_log w))
    (select (λ e, scoped appId (ev_tenant e) (ev_app e)) (events w)) [] [] []
    (select (λ u, scoped appId (ui_tenant u) (ui_app u)) (app_uninstalls w)).

Definition by_user (q : Query) : bool := match q with QDetail _ | QUninstalls _ => true | _ => false end.

(** a row that refers to another is of the same app *)
Record consistent (w : Store) : Prop := mkConsistent {
  device_user d u : In d (devices w) → In u (profiles w) → pf_id u = dr_user d → dr_tenant d = pf_tenant u ∧ dr_app d = pf_app u;
  state_user s u : In s (states w) → In u (profiles w) → pf_id u = st_user s → st_tenant s = pf_tenant u ∧ st_app s = pf_app u;
  state_journey s j : In s (states w) → In j (journeys w) → jr_id j = st_journey s → jr_tenant j = st_tenant s ∧ jr_app j = st_app s;
  profile_app u a : In u (profiles w) → In a (apps w) → ap_id a = pf_app u → ap_tenant a = pf_tenant u }.

Lemma select_select {A} (p q : A → bool) l : (∀ x, In x l → p x = true → q x = true) → select p (select q l) = select p l.
Proof.
  unfold select. induction l as [|x l IH]; intros H; [done|]. simpl. pose proof (H x) as Hx.
  destruct (q x) eqn:E; simpl; rewrite IH by (intros; apply H; [by right|done]); [done|].
  destruct (p x); [|done]. by specialize (Hx (or_introl eq_refl) eq_refl).
Qed.

Lemma flat_map_ext_In {A B} (f g : A → list B) l : (∀ x, In x l → f x = g x) → flat_map f l = flat_map g l.
Proof. induction l as [|x l IH]; intros H; simpl; [done|]. rewrite (H x), IH; [done|by intros; apply H; right|by left]. Qed.

(** rows that contribute nothing may be left out *)
Lemma flat_map_select {A B} (f : A → list B) (p : A → bool) l :
  (∀ x, In x l → p x = false → f x = []) → flat_map f (select p l) = flat_map f l.
Proof.
  unfold select. induction l as [|x l IH]; intros H; [done|]. simpl. pose proof (H x) as Hx.
  destruct (p x) eqn:E; simpl; rewrite IH by (intros; apply H; [by right|done]); [done|].
  by rewrite (Hx (or_introl eq_refl) eq_refl).
Qed.

Lemma scoped_true appId t a : scoped appId t a = true ↔ t = sm_tenantId member ∧ a = appId.
Proof. unfold Reports.scoped. by rewrite andb_true_iff, !String.eqb_eq. Qed.

(** *** The answer of a handler on the rows of the app *)

Lemma bind_get {S A} (f : S → M S A) s : (x ← get; f x) s = f s s.
Proof. done. Qed.

Section One.
Context (appId : string) (w : Store).

Definition owned : Prop := ∃ a, In a (apps w) ∧ ap_id a = appId ∧ ap_tenant a = sm_tenantId member.

Lemma after_assert_in {A} (k : M Store A) w' : apps w' = select (λ a, scoped appId (ap_tenant a) (ap_id a)) (apps w) →
  (owned → fst (k w) = fst (k w')) →
  fst ((_ ← assertApp Uniq member appId; k) w) = fst ((_ ← assertApp Uniq member appId; k) w').
Proof.
  intros Hw' Hk. unfold assertApp, mbind, M_bind, get. rewrite Hw'. clear Hw'.
  rewrite (select_select _ (λ a, scoped appId (ap_tenant a) (ap_id a))).
  2: { intros a _ [->%String.eqb_eq ->%String.eqb_eq]%andb_true_iff. by apply scoped_true. }
  destruct (count _ =? 0) eqn:E; [done|]. simpl. apply Hk. apply Z.eqb_neq in E.
  unfold count in E. destruct (select _ (apps w)) as [|a l] eqn:Hs; [done|].
  assert (In a (select (λ a, String.eqb (ap_id a) appId && String.eqb (ap_tenant a) (sm_tenantId member)) (apps w))) as Hin
    by (rewrite Hs; by left).
  apply select_In in Hin as [Hin [H1%String.eqb_eq H2%String.eqb_eq]%andb_true_iff]. by exists a.
Qed.

Lemma after_assert {A} (k : M Store A) :
  (owned → fst (k w) = fst (k (restrict appId w))) →
  fst ((_ ← assertApp Uniq member appId; k) w) = fst ((_ ← assertApp Uniq member appId; k) (restrict appId w)).
Proof. by apply after_assert_in. Qed.

Ltac in_scope := intros ? ?; unfold log_where; rewrite ?andb_true_iff; tauto.

Lemma search_one q : fst (search Uniq member appId q w) = fst (search Uniq member appId q (restrict appId w)).
Proof.
  unfold search. apply after_assert. intros _. rewrite !bind_get. destruct q as [[|c s]|]; [done| |done].
  cbn [profiles restrict]. rewrite select_select; [done|in_scope].
Qed.

Lemma join_one l : (∀ s, In s l → In s (states w) ∧ scoped appId (st_tenant s) (st_app s) = true) →
  consistent w → join_journeys Uniq w l = join_journeys Uniq (restrict appId w) l.
Proof.
  intros Hl Hw. unfold join_journeys. apply flat_map_ext_In. intros s [Hin Hs]%Hl. f_equal.
  cbn [journeys restrict]. rewrite select_select; [done|]. intros j Hj He%String.eqb_eq.
  destruct (state_journey w Hw s j) as [-> ->]; auto.
Qed.

Lemma select_comm {A} (p q : A → bool) l : select p (select q l) = select q (select p l).
Proof.
  unfold select. induction l as [|x l IH]; [done|]. simpl.
  destruct (q x) eqn:Eq, (p x) eqn:Ep; simpl; rewrite ?Eq, ?Ep, IH; done.
Qed.

Lemma detail_one id : consistent w →
  fst (detail Uniq formatDateTime member appId id w) = fst (detail Uniq formatDateTime member appId id (restrict appId w)).
Proof.
  intros Hw. unfold detail. apply after_assert. intros _. rewrite !bind_get. cbn [profiles restrict].
  unfold select1. rewrite select_select by in_scope.
  destruct (head _) as [u|] eqn:Hu; [|done]. cbn [some_or_throw].
  assert (In u (profiles w) ∧ pf_id u = id ∧ pf_tenant u = sm_tenantId member ∧ pf_app u = appId) as (Hin&Hid&Ht&Ha).
  { destruct (select _ (profiles w)) as [|x l] eqn:Hs; [done|]. injection Hu as ->.
    assert (In u (u :: l)) as Hin by (by left). rewrite <- Hs in Hin.
    apply select_In in Hin as [? [?%String.eqb_eq [? ?]%scoped_true]%andb_true_iff]. done. }
  assert (∀ s, In s (states w) → st_user s = id → scoped appId (st_tenant s) (st_app s) = true) as Hst.
  { intros s Hs He. destruct (state_user w Hw s u) as [-> ->]; [done|done|congruence|]. by apply scoped_true. }
  unfold mbind, M_bind. cbn [fst mret M_ret devices states events message_log restrict].
  rewrite (select_select _ (λ d, scoped appId (dr_tenant d) (dr_app d))).
  2: { intros d Hd He%String.eqb_eq. destruct (device_user w Hw d u) as [-> ->]; [done|done|congruence|]. by apply scoped_true. }
  rewrite (select_select _ (λ s, scoped appId (st_tenant s) (st_app s))) by (intros s Hs He%String.eqb_eq; auto).
  rewrite !select_select by in_scope.
  rewrite join_one; [done| |done]. intros s [Hs He%String.eqb_eq]%select_In. auto.
Qed.

Lemma is_user_In u : In u (profiles w) → pf_app u = appId → is_user appId w (pf_id u) = true.
Proof. intros H Ha. apply existsb_exists. exists u. by rewrite Ha, !String.eqb_refl. Qed.

Lemma detail_of_users id :
  fst (detail Uniq formatDateTime member appId id w) = fst (detail Uniq formatDateTime member appId id (of_users appId w)).
Proof.
  unfold detail. apply after_assert_in; [done|]. intros _. rewrite !bind_get. cbn [profiles of_users]. unfold select1.
  rewrite (select_select _ (λ u, String.eqb (pf_app u) appId)).
  2: { intros u _ [_ [_ ->]%scoped_true]%andb_true_iff. apply String.eqb_refl. }
  destruct (head _) as [u|] eqn:Hu; [|done]. cbn [some_or_throw].
  assert (is_user appId w id = true) as Hid.
  { destruct (select _ (profiles w)) as [|x l] eqn:Hs; [done|]. injection Hu as ->.
    assert (In u (u :: l)) as Hin by (by left). rewrite <- Hs in Hin.
    apply select_In in Hin as [? [<-%String.eqb_eq [_ ?]%scoped_true]%andb_true_iff]. by apply is_user_In. }
  unfold mbind, M_bind. cbn [fst mret M_ret devices states events message_log of_users].
  rewrite (select_select _ (λ d, is_user appId w (dr_user d))) by (intros d _ ->%String.eqb_eq; done).
  rewrite (select_select _ (λ s, is_user appId w (st_user s))) by (intros s _ ->%String.eqb_eq; done).
  rewrite !select_select by in_scope. do 2 f_equal. do 3 f_equal.
  unfold join_journeys. apply flat_map_ext_In. intros s [Hs He%String.eqb_eq]%select_In. f_equal.
  cbn [journeys of_users]. rewrite select_select; [done|]. intros j _ Hj.
  apply existsb_exists. exists s. by rewrite Hj, He, Hid.
Qed.

Lemma messages_one f :
  fst (list_messages Uniq ch_now formatDateTime member zod_uuid appId f w)
  = fst (list_messages Uniq ch_now formatDateTime member zod_uuid appId f (restrict appId w)).
Proof.
  unfold list_messages. apply after_assert. intros _. destruct (parse_filter zod_uuid f) as [n|]; [|done].
  unfold mbind, M_bind, get, some_or_throw. cbn [fst mret M_ret message_log restrict].
  by rewrite !(select_select _ (λ m, scoped appId (mg_tenant m) (mg_app m))) by in_scope.
Qed.

Lemma dashboard_one :
  fst (dashboard Uniq today member appId w) = fst (dashboard Uniq today member appId (restrict appId w)).
Proof.
  unfold dashboard. apply after_assert. intros _. rewrite !bind_get. cbn [message_log journeys restrict].
  by rewrite !select_select by in_scope.
Qed.

Lemma delivery_one id :
  fst (deliveryReport Uniq JSONExtractString member appId id w)
  = fst (deliveryReport Uniq JSONExtractString member appId id (restrict appId w)).
Proof.
  unfold deliveryReport. apply after_assert. intros _. rewrite !bind_get.
  assert (sent_ids Uniq member appId id (restrict appId w) = sent_ids Uniq member appId id w) as Hs.
  { unfold sent_ids. cbn [message_log restrict]. by rewrite select_select by in_scope. }
  assert (evidence Uniq JSONExtractString member appId id (restrict appId w) = evidence Uniq JSONExtractString member appId id w) as He.
  { unfold evidence. rewrite Hs. cbn [events message_lifecycle restrict]. by rewrite !select_select by in_scope. }
  by rewrite Hs, He.
Qed.

Lemma usage_one :
  fst (usage Uniq uniqCombinedMerge today member appId w)
  = fst (usage Uniq uniqCombinedMerge today member appId (restrict appId w)).
Proof.
  unfold usage. apply after_assert. intros _. rewrite !bind_get. cbn [usage_active usage_sends restrict].
  by rewrite !select_select by in_scope.
Qed.

Lemma uninstalls_of_users d :
  fst (uninstalls Uniq ch_now member appId d w) = fst (uninstalls Uniq ch_now member appId d (of_users appId w)).
Proof.
  unfold uninstalls. apply after_assert_in; [done|]. intros _. rewrite !bind_get.
  destruct (negb _); [done|]. unfold throw_if, mbind, M_bind. cbn [fst mret M_ret app_uninstalls devices profiles of_users].
  rewrite !(select_select _ (λ u, scoped appId (ui_tenant u) (ui_app u))) by in_scope.
  assert (∀ l, flat_map (λ d, select (λ u, String.eqb (pf_id u) (dr_user d) && String.eqb (pf_app u) appId)
                     (select (λ u, String.eqb (pf_app u) appId) (profiles w)))
      (select (λ d, is_user appId w (dr_user d)) l)
    = flat_map (λ d, select (λ u, String.eqb (pf_id u) (dr_user d) && String.eqb (pf_app u) appId) (profiles w)) l) as Hf.
  { intros l. rewrite flat_map_select.
    - apply flat_map_ext_In. intros x _. apply select_select. intros u _ [_ ?]%andb_true_iff. done.
    - intros x _ Hns. destruct (select _ _) as [|u l'] eqn:Hs; [done|].
      assert (In u (u :: l')) as Hi by (by left). rewrite <- Hs in Hi.
      apply select_In in Hi as [[Hi _]%select_In [H1%String.eqb_eq H2%String.eqb_eq]%andb_true_iff].
      rewrite <- H1, is_user_In in Hns; done. }
  by rewrite select_comm, Hf.
Qed.

Lemma uninstalls_one d : consistent w →
  fst (uninstalls Uniq ch_now member appId d w) = fst (uninstalls Uniq ch_now member appId d (restrict appId w)).
Proof.
  intros Hw. unfold uninstalls. apply after_assert. intros (a&Hin&Hid&Ht). rewrite !bind_get.
  destruct (negb _); [done|]. unfold throw_if, mbind, M_bind. cbn [fst mret M_ret app_uninstalls devices profiles restrict].
  rewrite !(select_select _ (λ u, scoped appId (ui_tenant u) (ui_app u))) by in_scope.
  assert (∀ u, In u (profiles w) → pf_app u = appId → scoped appId (pf_tenant u) (pf_app u) = true) as Hu.
  { intros u Hu Ha. apply scoped_true. split; [|done]. rewrite <- (profile_app w Hw u a); congruence. }
  assert (∀ l, (∀ x, In x l → In x (devices w)) →
    flat_map (λ d, select (λ u, String.eqb (pf_id u) (dr_user d) && String.eqb (pf_app u) appId)
                     (select (λ u, scoped appId (pf_tenant u) (pf_app u)) (profiles w)))
      (select (λ d, scoped appId (dr_tenant d) (dr_app d)) l)
    = flat_map (λ d, select (λ u, String.eqb (pf_id u) (dr_user d) && String.eqb (pf_app u) appId) (profiles w)) l) as Hf.
  { intros l Hl. rewrite flat_map_select.
    - apply flat_map_ext_In. intros x Hx. apply select_select. intros u Hin' [_ He%String.eqb_eq]%andb_true_iff. auto.
    - intros x Hx Hns. destruct (select _ _) as [|u l'] eqn:Hs; [done|].
      assert (In u (u :: l')) as Hi by (by left). rewrite <- Hs in Hi.
      apply select_In in Hi as [[Hi _]%select_In [H1%String.eqb_eq H2%String.eqb_eq]%andb_true_iff].
      destruct (device_user w Hw x u) as [E1 E2]; auto. rewrite E1, E2, Hu in Hns; done. }
  rewrite select_comm, Hf by (intros x [? _]%select_In; done). done.
Qed.

Lemma versions_one (mine : JourneyRec → bool) :
  (∀ j, mine j = true → scoped appId (jr_tenant j) (jr_app j) = true) →
  flat_map (λ v, map (λ _, v) (select (λ j, String.eqb (jr_id j) (vr_journey v) && mine j) (journeys (restrict appId w))))
    (versions (restrict appId w))
  = flat_map (λ v, map (λ _, v) (select (λ j, String.eqb (jr_id j) (vr_journey v) && mine j) (journeys w))) (versions w).
Proof.
  intros Hm. cbn [journeys versions restrict]. rewrite flat_map_select.
  - apply flat_map_ext_In. intros v Hv. rewrite select_select; [done|]. intros j _ [_ H]%andb_true_iff. auto.
  - intros v _ Hex. destruct (select _ _) as [|j l] eqn:Hs; [done|]. exfalso.
    assert (In j (j :: l)) as Hi by (by left). rewrite <- Hs in Hi.
    apply select_In in Hi as [[Hi Hsc]%select_In [H1 _]%andb_true_iff].
    apply (existsb_fresh _ _ Hex) in Hi. rewrite H1, Hsc in Hi. done.
Qed.

(** two runs of a step that reads nothing and of what follows it *)
Lemma bind_some {S A B} (o : option A) e (f : A → M S B) s s' :
  (∀ a, fst (f a s) = fst (f a s')) → fst ((x ← some_or_throw o e; f x) s) = fst ((x ← some_or_throw o e; f x) s').
Proof. intros H. destruct o; [apply H|done]. Qed.
Lemma bind_throw_if {S B} c e (f : unit → M S B) s s' :
  (∀ a, fst (f a s) = fst (f a s')) → fst ((x ← throw_if c e; f x) s) = fst ((x ← throw_if c e; f x) s').
Proof. intros H. destruct c; [done|apply H]. Qed.

Lemma bind_one {S A B} (m : M S A) (f : A → M S B) s s' :
  fst (m s) = fst (m s') → (∀ a t t', fst (f a t) = fst (f a t')) → fst ((x ← m; f x) s) = fst ((x ← m; f x) s').
Proof.
  intros H Hf. unfold mbind, M_bind. destruct (m s) as [[a|e] t], (m s') as [[a'|e'] t']; simpl in *; simplify_eq; [apply Hf|done].
Qed.

Lemma nodes_one id v d :
  fst (nodeReport Uniq member appId id v d w) = fst (nodeReport Uniq member appId id v d (restrict appId w)).
Proof.
  unfold nodeReport. rewrite !bind_get. cbn [executions restrict].
  rewrite select_select; [by apply bind_some|]. intros e _. unfold of_version. rewrite !andb_true_iff. tauto.
Qed.

Lemma journey_one id v :
  fst (journeyReport Uniq member appId id v w) = fst (journeyReport Uniq member appId id v (restrict appId w)).
Proof.
  unfold journeyReport. apply after_assert. intros _. rewrite !bind_get.
  rewrite versions_one by (intros j; rewrite andb_true_iff; tauto).
  cbn [journeys states message_log restrict]. unfold select1.
  rewrite !(select_select _ (λ j, scoped appId (jr_tenant j) (jr_app j))) by in_scope.
  rewrite (select_select _ (λ s, scoped appId (st_tenant s) (st_app s))) by in_scope.
  rewrite (select_select _ (λ m, scoped appId (mg_tenant m) (mg_app m))) by in_scope.
  apply bind_some. intros j. apply bind_throw_if. intros []. apply bind_throw_if. intros [].
  destruct (match _ <$> _ with Some d => if version_is d 2 then _ else _ | None => _ end); [done| |done].
  apply bind_one; [|done]. match goal with |- fst (match ?o with _ => _ end _) = _ => destruct o as [vr|] end; [|done].
  apply nodes_one.
Qed.

Lemma handle_one q : by_user q = false ∨ consistent w → fst (handle appId q w) = fst (handle appId q (restrict appId w)).
Proof.
  intros H. destruct q; simpl; (apply bind_one; [|done]).
  - apply search_one.
  - apply detail_one. by destruct H.
  - apply messages_one.
  - apply dashboard_one.
  - apply journey_one.
  - apply delivery_one.
  - apply usage_one.
  - apply uninstalls_one. by destruct H.
Qed.

Lemma handle_of_users q : by_user q = true → fst (handle appId q w) = fst (handle appId q (of_users appId w)).
Proof. intros H. destruct q; try done; simpl; (apply bind_one; [|done]); [apply detail_of_users|apply uninstalls_of_users]. Qed.
End One.

Lemma handle_readonly appId q : readonly (handle appId q).
Proof.
  destruct q; simpl; apply readonly_bind; auto with nudgeon;
    unfold search, detail, list_messages, dashboard, journeyReport, nodeReport, deliveryReport, usage, uninstalls, assertApp;
    repeat (apply readonly_bind || apply readonly_get || apply readonly_throw_if || apply readonly_some || apply readonly_ret
            || (progress intros) || (case_match; simplify_eq)).
Qed.

Lemma serve_ok appId q w a :
  fst (serve appId q w) = Ok a →
  can (sm_role member) (permission_of q) = true
  ∧ forallb is_uuid (appId :: ids_of q) = true
  ∧ ∃ x, In x (apps w) ∧ ap_id x = appId ∧ ap_tenant x = sm_tenantId member.
Proof.
  intros Ha. destruct (serve appId q w) as [o w'] eqn:E. simpl in Ha. subst o.
  unfold Reports.serve in E. apply bind_ok in E as (u&w1&E1&E2). unfold enter in E1.
  apply bind_ok in E1 as (u1&w2&[Hc ->]%PermissionGuard_ok&[Hn ->]%throw_if_ok). apply negb_false_iff in Hn.
  split_and!; [done|done|].
  assert (∃ x : unit, fst (assertApp Uniq member appId w) = Ok x) as [x Hx].
  { destruct (assertApp Uniq member appId w) as [[x|e] w3] eqn:Ea; [by exists x|]. exfalso.
    destruct q; simpl in E2; apply bind_ok in E2 as (y&w4&E2&_);
      unfold search, detail, list_messages, dashboard, journeyReport, deliveryReport, usage, uninstalls in E2;
      apply bind_ok in E2 as (z&w5&E2&_); congruence. }
  destruct (assertApp Uniq member appId w) as [o w3] eqn:Ea. simpl in Hx. subst o.
  unfold assertApp in Ea. apply bind_ok in Ea as (y&w4&[= <- <-]&[Hz _]%throw_if_ok).
  apply Z.eqb_neq in Hz. unfold count in Hz.
  destruct (select _ (apps w)) as [|a0 l] eqn:Hs; [done|]. assert (In a0 (a0 :: l)) as Hi by (by left). rewrite <- Hs in Hi.
  apply select_In in Hi as [Hi [H1%String.eqb_eq H2%String.eqb_eq]%andb_true_iff]. by exists a0.
Qed.

Lemma serve_as appId q w w' : fst (handle appId q w) = fst (handle appId q w') → fst (serve appId q w) = fst (serve appId q w').
Proof.
  intros H. assert (readonly (S:=Store) (enter member is_uuid (permission_of q) (appId :: ids_of q))) as He.
  { unfold enter, PermissionGuard. auto with nudgeon. }
  unfold Reports.serve. rewrite !readonly_bind_state by done.
  assert (∀ s s' : Store, fst (enter member is_uuid (permission_of q) (appId :: ids_of q) s)
                  = fst (enter member is_uuid (permission_of q) (appId :: ids_of q) s')) as Hs.
  { intros s s'. unfold enter, PermissionGuard. apply bind_one; [apply bind_some|]; intros; unfold throw_if; by destruct (negb _). }
  specialize (Hs w w').
  destruct (enter _ _ _ _ w) as [[u|e] s1], (enter _ _ _ _ w') as [[u'|e'] s2]; simpl in Hs; simplify_eq; done.
Qed.

(** C20. What a read view shows of a store. Each of the routes for users, the
    message log, the dashboard, journey and delivery reports, usage and uninstalls
    changes nothing; it answers only a member whose role has the permission of the
    route, for ids in the form of a UUID and an app of the member's tenant. Its
    answer, error or result, has a footprint. For every route but the page of a
    user and the rate of uninstalls it is the answer computed from the rows of
    that app of that tenant alone, so no row of another tenant or app has any
    effect on it. Those two also read rows that refer to the app's users, whose
    tenant and app they do not look at: devices and journey states of its users
    and the journeys of those states; they have no other input. In a store where
    rows that refer to one another are of one app, they too show the app alone. *)
Theorem reports_see_one_app appId q w :
  snd (serve appId q w) = w
  ∧ fst (serve appId q w) = fst (serve appId q (if by_user q then of_users appId w else restrict appId w))
  ∧ (consistent w → fst (serve appId q w) = fst (serve appId q (restrict appId w)))
  ∧ ∀ a, fst (serve appId q w) = Ok a →
      can (sm_role member) (permission_of q) = true
      ∧ forallb is_uuid (appId :: ids_of q) = true
      ∧ ∃ x, In x (apps w) ∧ ap_id x = appId ∧ ap_tenant x = sm_tenantId member.
Proof.
  split_and!.
  - apply readonly_bind; [unfold enter, PermissionGuard; auto with nudgeon|]. intros. apply handle_readonly.
  - apply serve_as. destruct (by_user q) eqn:Hq; [by apply handle_of_users|]. apply handle_one. by left.
  - intros Hw. apply serve_as, handle_one. by right.
  - apply serve_ok.
Qed.
End Isolation.

(** ** The audit log *)

Lemma clamp_limit_bounds limit : Number_isInteger (clamp_limit limit) = true → 1 <= num_to_Z (clamp_limit limit) <= 500.
Proof.
  unfold clamp_limit. set (m := if truthy _ then _ else _). clearbody m. cbv zeta. intros H.
  destruct (num_ltb m (NInt 1)) eqn:H1; [by vm_compute|].
  destruct (num_ltb (NInt 500) m) eqn:H2; [by vm_compute|].
  rewrite num_ltb_int in H1 by done. rewrite num_gtb_int in H2 by done. lia.
Qed.

(** The audit log shows a member who may read the team entries of its own tenant
    alone, at most 500 of them, the last ones first, without a gap. *)
Lemma audit_shows_own_tenant member limit d es d' :
  list_audit member limit d = (Ok es, d') →
  d' = d ∧ can (sm_role member) team_read = true
  ∧ (length es <= 500)%nat ∧ (∀ e, In e es → In e (audit_logs d) ∧ al_tenant e = sm_tenantId member)
  ∧ rev es `suffix_of` select (λ e, String.eqb (al_tenant e) (sm_tenantId member)) (audit_logs d).
Proof.
  intros H. unfold list_audit, PermissionGuard in H.
  apply bind_ok in H as (u&d1&H1&H). apply bind_ok in H1 as (r&d2&[= <- <-]&[Hp%negb_false_iff <-]%throw_if_ok).
  apply bind_ok in H as (d3&d4&[= <- <-]&H). cbv zeta in H.
  apply bind_ok in H as (u'&d5&[Hi%negb_false_iff <-]%throw_if_ok&[= <- <-]).
  pose proof (clamp_limit_bounds _ Hi) as Hb.
  set (l := select _ _). set (n := Z.to_nat _). assert (n <= 500)%nat by lia.
  split_and!; try done.
  - rewrite length_take. lia.
  - intros e He. assert (In e (rev l)) as [He' Ht%String.eqb_eq]%in_rev%select_In; [|done].
    rewrite <- (take_drop n (rev l)). apply in_or_app. by left.
  - exists (rev (drop n (rev l))). rewrite <- rev_app_distr, take_drop. by rewrite rev_involutive.
Qed.

(** ** Deliveries *)

Section Delivery.
Context (Uniq : Type) (JSONExtractString : string → string → string) (member : SessionMember).
Context (appId id : string) (w : Store Uniq).
Abbreviation sent_ids := (sent_ids Uniq member appId id w).
Abbreviation evidence := (evidence Uniq JSONExtractString member appId id w).

(** a message of the journey that a provider accepted *)
Definition was_sent (mid : string) : Prop :=
  ∃ m, In m (message_log Uniq w) ∧ mg_message_id m = mid ∧ mg_journey m = id ∧ mg_status m = "sent"
    ∧ mg_tenant m = sm_tenantId member ∧ mg_app m = appId.
(** the app reported the event for it *)
Definition app_reported (names : list string) (mid : string) : Prop :=
  ∃ e, In e (events Uniq w) ∧ JSONExtractString (ev_properties e) "message_id" = mid ∧ In (ev_name e) names
    ∧ ev_tenant e = sm_tenantId member ∧ ev_app e = appId.
(** a provider called back with the status *)
Definition called_back (status mid : string) : Prop :=
  ∃ l, In l (message_lifecycle Uniq w) ∧ lc_message_id l = mid ∧ lc_status l = status
    ∧ lc_tenant l = sm_tenantId member ∧ lc_app l = appId.

Inductive Kind := Delivered | Opened | Clicked | Bounced.
Definition kind_text (k : Kind) : string :=
  match k with Delivered => "delivered" | Opened => "opened" | Clicked => "clicked" | Bounced => "bounced" end.
Definition reported_by (k : Kind) : list string :=
  match k with
  | Delivered => ["$push_delivered"; "$push_received"; "$push_opened"]
  | Opened => ["$push_opened"]
  | _ => []
  end.
(** there is evidence of the kind for a sent message *)
Definition proved (k : Kind) (mid : string) : Prop :=
  was_sent mid ∧ (app_reported (reported_by k) mid ∨ called_back (kind_text k) mid).

(** the number of the texts that satisfy [P] *)
Definition counts (P : string → Prop) (n : Z) : Prop :=
  ∃ l, List.NoDup l ∧ (∀ x, In x l ↔ P x) ∧ n = Z.of_nat (length l).

Lemma counts_le P Q n m : counts P n → counts Q m → (∀ x, P x → Q x) → 0 <= n <= m.
Proof.
  intros (l&Hl&HP&->) (k&Hk&HQ&->) H. split; [lia|]. apply inj_le, NoDup_incl_length; [done|].
  intros x Hx. by apply HQ, H, HP.
Qed.

Lemma counts_uniq l P : (∀ x, In x l ↔ P x) → counts P (uniqExact l).
Proof. intros H. exists (dedup l). split_and!; [apply dedup_NoDup| |done]. intros x. by rewrite dedup_In. Qed.

Lemma sent_ids_In mid : In mid sent_ids ↔ was_sent mid.
Proof.
  unfold Reports.sent_ids, was_sent. rewrite in_map_iff. split.
  - intros (m&<-&[Hin [[[H1 H2]%scoped_true H3%String.eqb_eq]%andb_true_iff H4%String.eqb_eq]%andb_true_iff]%select_In). by exists m.
  - intros (m&Hin&<-&H1&H2&H3&H4). exists m. split; [done|]. apply select_In. split; [done|].
    rewrite !andb_true_iff, !String.eqb_eq, scoped_true. done.
Qed.

Lemma kinds_In name k : String_in name ["$push_delivered"; "$push_received"; "$push_opened"] = true →
  (In (kind_text k) (kinds name) ↔ In name (reported_by k)).
Proof.
  intros [<-|[<-|[<-|[]]]]%String_in_spec; destruct k; vm_compute; intuition discriminate.
Qed.

Lemma evidence_In mid k : In (mid, kind_text k) evidence ↔ proved k mid.
Proof.
  unfold Reports.evidence, proved. rewrite in_app_iff, in_flat_map, in_map_iff, <- sent_ids_In. split.
  - intros [(e&[Hin [[H1 H2]%scoped_true H3]%andb_true_iff]%select_In&He)|(l&[= <- Hk]&[Hin Hp]%select_In)].
    + destruct (String_in _ sent_ids) eqn:Hs; [|done]. apply in_map_iff in He as (k'&[= <- ->]&Hk).
      apply kinds_In in Hk; [|done]. apply String_in_spec in Hs. split; [done|]. left. by exists e.
    + apply andb_true_iff in Hp as [[[H1 H2]%scoped_true H3]%andb_true_iff H4%String_in_spec].
      split; [done|]. right. exists l. by rewrite <- Hk.
  - intros [Hs [(e&Hin&He&Hn&H1&H2)|(l&Hin&Hl&Hk&H1&H2)]].
    + left. exists e. assert (String_in (ev_name e) ["$push_delivered"; "$push_received"; "$push_opened"] = true) as H3.
      { apply String_in_spec. destruct k; simpl in *; tauto. }
      rewrite select_In, andb_true_iff, scoped_true. split; [done|]. rewrite He, (proj2 (String_in_spec _ _) Hs).
      apply in_map_iff. exists (kind_text k). split; [done|]. by apply kinds_In.
    + right. exists l. rewrite Hl, Hk. split; [done|]. rewrite select_In, !andb_true_iff, scoped_true, Hl, Hk.
      split_and!; try done; [by destruct k|by apply String_in_spec].
Qed.

Lemma kind_counts k : counts (proved k) (uniqExactIf evidence (kind_text k)).
Proof.
  unfold uniqExactIf. apply counts_uniq. intros mid. rewrite in_map_iff, <- evidence_In. split.
  - intros ([m k']&<-&[Hin Hk%String.eqb_eq]%filter_In). simpl in *. by rewrite <- Hk.
  - intros H. exists (mid, kind_text k). rewrite filter_In, String.eqb_eq. done.
Qed.

Lemma rate_bounds a b : 0 <= a <= b → (0 <= rate a b <= 1)%Q.
Proof.
  intros H. unfold rate. destruct (Z.ltb_spec 0 b); [|lra]. apply round_to_bounds; [lia|]. by apply js_div_bounds.
Qed.

Lemma rate_nonneg a b : (0 <= rate a b)%Q.
Proof. unfold rate. destruct (0 <? b); [|lra]. apply to_double_nonneg. Qed.

(** C28. A delivery report counts messages, once each, that a provider accepted:
    sent is their number; delivered, opened, clicked and bounced are the numbers
    of those with evidence of the kind, from the app (an opened push is also a
    delivered one) or from a call back, however often it is reported. So none of
    them exceeds sent, the delivery rate is between 0 and 1, and so is the open
    rate when each message that a provider reports as opened has evidence of its
    delivery. *)
Theorem delivery_report_counts r :
  fst (deliveryReport Uniq JSONExtractString member appId id w) = Ok r →
  counts was_sent (dl_sent r)
  ∧ counts (proved Delivered) (dl_delivered r) ∧ counts (proved Opened) (dl_opened r)
  ∧ counts (proved Clicked) (dl_clicked r) ∧ counts (proved Bounced) (dl_bounced r)
  ∧ (0 <= dl_delivered r <= dl_sent r ∧ 0 <= dl_opened r <= dl_sent r
     ∧ 0 <= dl_clicked r <= dl_sent r ∧ 0 <= dl_bounced r <= dl_sent r)
  ∧ (0 <= dl_delivery_rate r <= 1)%Q ∧ (0 <= dl_open_rate r)%Q
  ∧ ((∀ mid, was_sent mid → called_back "opened" mid → proved Delivered mid) →
     dl_opened r <= dl_delivered r ∧ (dl_open_rate r <= 1)%Q).
Proof.
  intros E. assert (r = mkDelivery (uniqExact sent_ids) (uniqExactIf evidence "delivered") (uniqExactIf evidence "opened")
    (uniqExactIf evidence "clicked") (uniqExactIf evidence "bounced")
    (rate (uniqExactIf evidence "delivered") (uniqExact sent_ids))
    (rate (uniqExactIf evidence "opened") (uniqExactIf evidence "delivered"))) as ->.
  { unfold deliveryReport, assertApp, mbind, M_bind, get, throw_if in E. destruct (count _ =? 0); [done|]. by injection E as <-. }
  simpl. assert (counts was_sent (uniqExact sent_ids)) as Hs by (apply counts_uniq; intros; apply sent_ids_In).
  pose proof (kind_counts Delivered) as Hd. pose proof (kind_counts Opened) as Ho.
  pose proof (kind_counts Clicked) as Hc. pose proof (kind_counts Bounced) as Hb. simpl in *.
  assert (∀ k x, proved k x → was_sent x) as Hp by (by intros k x []).
  pose proof (counts_le _ _ _ _ Hd Hs (Hp Delivered)) as Bd. pose proof (counts_le _ _ _ _ Ho Hs (Hp Opened)) as Bo.
  pose proof (counts_le _ _ _ _ Hc Hs (Hp Clicked)) as Bc. pose proof (counts_le _ _ _ _ Hb Hs (Hp Bounced)) as Bb.
  pose proof (rate_bounds _ _ Bd) as Br. do 5 (split; [done|]). split; [done|]. split; [done|]. split; [apply rate_nonneg|].
  intros H. assert (0 <= uniqExactIf evidence "opened" <= uniqExactIf evidence "delivered") as Hle.
  { eapply counts_le; [exact Ho|exact Hd|]. intros x [Hx [(e&He1&He2&He3&He)|Hx']]; [|by apply H].
    split; [done|]. left. exists e. split_and!; try done; try tauto. destruct He3 as [<-|[]]. simpl. tauto. }
  split; [lia|]. by apply rate_bounds.
Qed.
End Delivery.

(** ** Journey reports *)

Definition total (l : list Z) : Z := foldr Z.add 0 l.
Lemma fold_add l a : fold_left Z.add l a = a + total l.
Proof. revert a. induction l as [|x l IH]; intros a; simpl; [lia|]. rewrite IH. unfold total. simpl. lia. Qed.

Lemma count_nonneg {A} (l : list A) : 0 <= count l.
Proof. unfold count. lia. Qed.
Lemma count_cons {A} (x : A) l : count (x :: l) = 1 + count l.
Proof. unfold count. simpl. lia. Qed.
Lemma count_filter_le {A} (p q : A → bool) l : (∀ x, p x = true → q x = true) → count (List.filter p l) <= count (List.filter q l).
Proof.
  intros H. induction l as [|x l IH]; [done|]. simpl. specialize (H x).
  destruct (p x), (q x); rewrite ?count_cons; lia.
Qed.
Lemma count_filter_or {A} (p q : A → bool) l :
  (∀ x, p x = true → q x = false) →
  count (List.filter p l) + count (List.filter q l) = count (List.filter (λ x, p x || q x) l).
Proof.
  intros H. induction l as [|x l IH]; [done|]. simpl. specialize (H x).
  destruct (p x), (q x); simpl; rewrite ?count_cons; lia.
Qed.

Section Groups.
Context {A K : Type} `{EqDecision K} (key : A → K).

Lemma group_by_In l k g :
  In (k, g) (group_by key l) ↔ In k (map key l) ∧ g = List.filter (λ x, bool_decide (key x = k)) l.
Proof.
  unfold group_by. rewrite in_map_iff. setoid_rewrite <- list_elem_of_In. setoid_rewrite elem_of_remove_dups.
  split; [by intros (k'&[= -> <-]&Hin)|]. intros [Hin ->]. by exists k.
Qed.

Lemma group_by_keys l : List.NoDup (map fst (group_by key l)).
Proof.
  unfold group_by. rewrite map_map. simpl. rewrite map_id. apply NoDup_ListNoDup, NoDup_remove_dups.
Qed.

Definition group_size (l : list A) (k : K) : Z := count (List.filter (λ x, bool_decide (key x = k)) l).

Lemma total_keys (P : K → bool) ks l :
  NoDup ks → (∀ x, In x l → key x ∈ ks) →
  total (map (group_size l) (List.filter P ks)) = count (List.filter (λ x, P (key x)) l).
Proof.
  intros Hnd. induction l as [|x l IH]; intros Hin.
  { simpl. clear. induction ks as [|k ks IH]; [done|]. simpl. destruct (P k); [|done]. simpl. unfold group_size at 1. simpl. done. }
  assert (total (map (group_size (x :: l)) (List.filter P ks))
          = (if P (key x) then 1 else 0) + total (map (group_size l) (List.filter P ks))) as ->.
  { assert (key x ∈ ks) as Hx by (apply Hin; by left). clear IH Hin. induction Hnd as [|k ks Hk Hnd IH].
    - by apply elem_of_nil in Hx.
    - assert (group_size (x :: l) k = (if bool_decide (key x = k) then 1 else 0) + group_size l k) as Hg.
      { unfold group_size. simpl. case_bool_decide; rewrite ?count_cons; lia. }
      simpl. apply elem_of_cons in Hx as [<-|Hx].
      + assert (∀ ks', key x ∉ ks' → map (group_size (x :: l)) (List.filter P ks') = map (group_size l) (List.filter P ks')) as Hother.
        { clear. intros ks'. induction ks' as [|k ks' IH]; [done|]. intros [Hne Hni]%not_elem_of_cons. simpl.
          destruct (P k); [|by apply IH]. simpl. rewrite IH by done. f_equal. unfold group_size. simpl.
          rewrite bool_decide_eq_false_2 by done. done. }
        destruct (P (key x)) eqn:EP; simpl; rewrite Hother by done; [|done].
        rewrite Hg, bool_decide_eq_true_2 by done. unfold total. simpl. lia.
      + assert (key x ≠ k) as Hne by (intros E; apply Hk; by rewrite <- E). rewrite bool_decide_eq_false_2 in Hg by done.
        specialize (IH Hx). destruct (P k); simpl; [|done]. rewrite Hg. unfold total in *. simpl. lia. }
  rewrite IH by (intros; apply Hin; by right). simpl. destruct (P (key x)); rewrite ?count_cons; lia.
Qed.

Lemma groups_total (P : K → bool) l :
  total (map (λ g, count (snd g)) (List.filter (λ g, P (fst g)) (group_by key l))) = count (List.filter (λ x, P (key x)) l).
Proof.
  rewrite <- (total_keys P (remove_dups (map key l))).
  - unfold group_by. f_equal. generalize (remove_dups (map key l)) as ks. clear. intros ks.
    induction ks as [|k ks IH]; [done|]. simpl. destruct (P k); simpl; by rewrite IH.
  - apply NoDup_remove_dups.
  - intros x Hx. rewrite elem_of_remove_dups, list_elem_of_In. by apply in_map.
Qed.
End Groups.

(** *** The counts of a node *)

Lemma counts_by_node_spec visits node :
  List.NoDup (map fst visits) →
  default [] (JMap.get (counts_by_node visits) node)
  = map (λ r, (snd (fst r), snd r)) (List.filter (λ r, String.eqb (fst (fst r)) node) visits).
Proof.
  unfold counts_by_node. induction visits as [|[[n s] c] visits IH] using rev_ind; intros Hnd; [done|].
  rewrite map_app in Hnd. apply NoDup_app_remove_r in Hnd as Hnd1. specialize (IH Hnd1).
  rewrite fold_left_app, List.filter_app, map_app. simpl. rewrite JMap.get_set.
  destruct (String.eqb_spec n node) as [->|Hne]; [|by rewrite app_nil_r].
  simpl. rewrite IH, JMap.set_fresh; [done|]. apply JMap.has_false. unfold JMap.keys. rewrite map_map.
  intros ([[n' s'] c']&Hs&[Hin Hn%String.eqb_eq]%filter_In)%in_map_iff. simpl in *. subst.
  apply NoDup_remove_2 in Hnd. apply Hnd. rewrite app_nil_r. apply in_map_iff. by exists (node, s, c').
Qed.

Lemma paths_by_node_spec choices node :
  default [] (JMap.get (paths_by_node choices) node) = map snd (List.filter (λ r, String.eqb (fst r) node) choices).
Proof.
  unfold paths_by_node. induction choices as [|[n p] choices IH] using rev_ind; [done|].
  rewrite fold_left_app, List.filter_app, map_app. simpl. rewrite JMap.get_set.
  destruct (String.eqb_spec n node) as [->|Hne]; [by rewrite IH|by rewrite app_nil_r].
Qed.

(** the rows of a node, and those with one status *)
Definition at_node (node : string) (e : Execution) : bool := String.eqb (ex_node e) node.
Definition with_status (node status : string) (e : Execution) : bool := at_node node e && String.eqb (ex_status e) status.

Section Nodes.
Context (rows : list Execution).
Abbreviation visit_key := (λ e, (ex_node e, ex_status e)).

Lemma visits_In node status n :
  In (node, status, n) (visits_of rows) ↔
  n = count (List.filter (with_status node status) rows) ∧ In (node, status) (map visit_key rows).
Proof.
  unfold visits_of. rewrite in_map_iff. 
  assert (List.filter (λ e, bool_decide (visit_key e = (node, status))) rows = List.filter (with_status node status) rows) as Hf.
  { apply filter_ext. intros e. unfold with_status, at_node. apply eq_iff_eq_true.
    rewrite bool_decide_eq_true, andb_true_iff, !String.eqb_eq. split; [by intros [= -> ->]|by intros [-> ->]]. }
  split.
  - intros ([k g]&[= -> <-]&[Hk ->]%group_by_In). by rewrite Hf.
  - intros [-> Hin]. exists ((node, status), List.filter (with_status node status) rows). split; [done|].
    apply group_by_In. by rewrite Hf.
Qed.

Lemma visits_keys : List.NoDup (map fst (visits_of rows)).
Proof. unfold visits_of. rewrite map_map. apply group_by_keys. Qed.

Lemma status_count node status :
  default 0 (JMap.get (default [] (JMap.get (counts_by_node (visits_of rows)) node)) status)
  = count (List.filter (with_status node status) rows).
Proof.
  rewrite counts_by_node_spec by apply visits_keys. set (l := map _ _).
  assert (∀ n, In (status, n) l ↔ In (node, status, n) (visits_of rows)) as Hl.
  { intros n. unfold l. rewrite in_map_iff. split.
    - intros ([[n' s'] c]&[= -> ->]&[Hin Hn%String.eqb_eq]%filter_In). simpl in Hn. by subst.
    - intros Hin. exists (node, status, n). split; [done|]. apply filter_In. split; [done|]. apply String.eqb_refl. }
  destruct (JMap.get l status) as [n|] eqn:E.
  - apply JMap.get_In, Hl, visits_In in E as [-> _]. done.
  - destruct (List.filter (with_status node status) rows) as [|e k] eqn:Hf; [done|]. exfalso.
    assert (In e (e :: k)) as Hin by (by left). rewrite <- Hf in Hin.
    apply filter_In in Hin as [Hin [H1%String.eqb_eq H2%String.eqb_eq]%andb_true_iff].
    assert (In status (JMap.keys l)) as Hk.
    { apply in_map_iff. exists (status, count (List.filter (with_status node status) rows)). split; [done|].
      apply Hl, visits_In. split; [done|]. apply in_map_iff. exists e. by rewrite H1, H2. }
    apply JMap.get_keys in Hk as [? Hk]. congruence.
Qed.

Lemma arrived_count node :
  fold_left Z.add (map snd (default [] (JMap.get (counts_by_node (visits_of rows)) node))) 0
  = count (List.filter (at_node node) rows).
Proof.
  rewrite fold_add, counts_by_node_spec by apply visits_keys. rewrite map_map. cbn [snd].
  rewrite <- (groups_total visit_key (λ k, String.eqb (fst k) node)). unfold visits_of.
  rewrite Z.add_0_l. f_equal. induction (group_by _ rows) as [|[k g] l IH]; [done|]. simpl.
  destruct (String.eqb _ node); simpl; by rewrite IH.
Qed.

(** the executions of a node that left by a port *)
Definition by_port (node port : string) (e : Execution) : bool :=
  with_status node "resolved" e && bool_decide (ex_output_port e = Some port).
Abbreviation resolved := (omap (λ e, p ← resolved_port e; Some (p, e)) rows).

Lemma resolved_filter (f : Execution → bool) (g : string → bool) l :
  count (List.filter (λ p, f (snd p) && g (fst p)) (omap (λ e, p ← resolved_port e; Some (p, e)) l))
  = count (List.filter (λ e, f e && match resolved_port e with Some p => g p | None => false end) l).
Proof.
  induction l as [|e l IH]; [done|]. simpl. destruct (resolved_port e) as [p|]; simpl.
  - destruct (f e && g p); rewrite ?count_cons; [f_equal|]; exact IH.
  - rewrite andb_false_r. exact IH.
Qed.

Lemma resolved_port_Some e p : resolved_port e = Some p ↔ ex_status e = "resolved" ∧ ex_output_port e = Some p.
Proof. unfold resolved_port. destruct (String.eqb_spec (ex_status e) "resolved"); naive_solver. Qed.

Abbreviation port_key := (λ p : string * Execution, (ex_node (snd p), fst p)).
Lemma node_paths_spec node :
  default [] (JMap.get (paths_by_node (choices_of rows)) node)
  = map (λ g, mkPath (snd (fst g)) (count (snd g)) (uniqExact (map (λ p, ex_user (snd p)) (snd g))))
      (List.filter (λ g, String.eqb (fst (fst g)) node) (group_by port_key resolved)).
Proof.
  rewrite paths_by_node_spec. unfold choices_of. induction (group_by _ _) as [|[k g] l IH]; [done|]. simpl.
  destruct (String.eqb _ node); simpl; by rewrite IH.
Qed.

Lemma dedup_le l : Z.of_nat (length (dedup l)) <= Z.of_nat (length l).
Proof. apply inj_le, NoDup_incl_length; [apply dedup_NoDup|]. intros x. by rewrite dedup_In. Qed.

Lemma path_In node p :
  In p (default [] (JMap.get (paths_by_node (choices_of rows)) node)) →
  pr_executions p = count (List.filter (by_port node (pr_output_port p)) rows)
  ∧ 1 <= pr_unique_users p <= pr_executions p.
Proof.
  rewrite node_paths_spec. intros ([[n port] g]&<-&[[Hin ->]%group_by_In Hn%String.eqb_eq]%filter_In)%in_map_iff.
  simpl in Hn. subst n. cbn [pr_output_port pr_executions pr_unique_users fst snd].
  set (group := List.filter _ _). split.
  - transitivity (count (List.filter (λ p : string * Execution, at_node node (snd p) && String.eqb (fst p) port) resolved)).
    { unfold group. f_equal. apply filter_ext. intros [q e]. unfold at_node. apply eq_iff_eq_true.
      rewrite bool_decide_eq_true, andb_true_iff, !String.eqb_eq. simpl. split; [by intros [= -> ->]|by intros [-> ->]]. }
    rewrite (resolved_filter (at_node node) (λ q, String.eqb q port)). f_equal. apply filter_ext. intros e. unfold by_port, with_status. apply eq_iff_eq_true.
    rewrite !andb_true_iff, bool_decide_eq_true. destruct (resolved_port e) as [q|] eqn:E.
    + apply resolved_port_Some in E as [-> ->]. rewrite !String.eqb_eq. naive_solver.
    + split; [by intros []|]. intros [[H1 H2%String.eqb_eq] H3].
      by rewrite (proj2 (resolved_port_Some e port) (conj H2 H3)) in E.
  - unfold uniqExact, count. split.
    + apply in_map_iff in Hin as ([q e]&[= <- <-]&Hin).
      assert (In (q, e) group) as Hg by (apply filter_In; split; [done|by apply bool_decide_eq_true_2]).
      apply (in_map (λ p, ex_user (snd p))), dedup_In in Hg. destruct (dedup _); simpl; [done|lia].
    + etransitivity; [apply dedup_le|]. by rewrite length_map.
Qed.

Lemma paths_total node :
  total (map pr_executions (default [] (JMap.get (paths_by_node (choices_of rows)) node)))
  <= count (List.filter (with_status node "resolved") rows).
Proof.
  rewrite node_paths_spec, map_map. cbn [pr_executions].
  rewrite (groups_total port_key (λ k, String.eqb (fst k) node)). cbn [fst].
  transitivity (count (List.filter (λ p : string * Execution, at_node node (snd p) && true) resolved)).
  { apply count_filter_le. intros [q e]. unfold at_node. simpl. by rewrite andb_true_r. }
  rewrite (resolved_filter (at_node node) (λ _, true)). apply count_filter_le. intros e.
  unfold with_status. destruct (resolved_port e) eqn:E; rewrite !andb_true_iff; [|by intros []].
  apply resolved_port_Some in E as [-> _]. tauto.
Qed.
End Nodes.

Lemma node_row_spec rows i node nid :
  node_id node = Some nid →
  let row := node_report (counts_by_node (visits_of rows)) (paths_by_node (choices_of rows)) i node in
  nr_node_id row = Some nid ∧ nr_node_index row = Z.of_nat i
  ∧ nr_arrived row = count (List.filter (at_node nid) rows)
  ∧ nr_waiting row = count (List.filter (with_status nid "waiting") rows)
  ∧ nr_completed row = count (List.filter (with_status nid "resolved") rows)
  ∧ nr_failed row = count (List.filter (with_status nid "failed") rows)
  ∧ nr_waiting row + nr_completed row + nr_failed row <= nr_arrived row
  ∧ total (map pr_executions (nr_paths row)) <= nr_completed row
  ∧ ∀ p, In p (nr_paths row) → pr_executions p = count (List.filter (by_port nid (pr_output_port p)) rows)
      ∧ 1 <= pr_unique_users p <= pr_executions p.
Proof.
  intros Hid row. subst row. unfold node_report. rewrite Hid. simpl.
  assert (∀ s, default 0 (JMap.get (counts_by_node (visits_of rows)) nid ≫= λ c, JMap.get c s)
               = count (List.filter (with_status nid s) rows)) as Hs.
  { intros s. rewrite <- status_count. by destruct (JMap.get (counts_by_node _) nid). }
  rewrite !Hs, arrived_count. do 6 (split; [done|]). split; [|split; [apply paths_total|apply path_In]].
  rewrite count_filter_or.
  - rewrite count_filter_or.
    + apply count_filter_le. intros e. unfold with_status. destruct (at_node nid e); done.
    + intros e. unfold with_status. destruct (at_node nid e); [|done]. simpl. intros [->%String.eqb_eq | ->%String.eqb_eq]%orb_true_iff; done.
  - intros e. unfold with_status. destruct (at_node nid e); [|done]. simpl. by intros ->%String.eqb_eq.
Qed.

Lemma journey_report_run Uniq (member : SessionMember) appId id version w r :
  fst (journeyReport Uniq member appId id version w) = Ok r → rp_instrumentation r = available →
  ∃ v, In v (versions Uniq w) ∧ vr_journey v = id ∧ rp_definition r = Some (vr_definition v) ∧ version_is (vr_definition v) 2 = true
    ∧ ∃ ns, JourneyModel.nodes (vr_definition v) = Some ns
    ∧ rp_nodes r = (let rows := select (of_version member appId id (vr_version v)) (executions Uniq w) in
                    imap (node_report (counts_by_node (visits_of rows)) (paths_by_node (choices_of rows))) ns)
    ∧ ∀ s, version = Some s → num_eqb (NInt (vr_version v)) (Number s) = true.
Proof.
  intros E Hav. destruct (journeyReport Uniq member appId id version w) as [o w'] eqn:Er. simpl in E. subst o.
  unfold journeyReport in Er.
  apply bind_ok in Er as (u&w1&Ea&Er). unfold assertApp in Ea. apply bind_ok in Ea as (w0&w2&[= <- <-]&[_ ->]%throw_if_ok).
  rewrite bind_get in Er. apply bind_ok in Er as (j&w1&[Hj ->]%some_or_throw_ok&Er).
  match type of Er with context [vr_definition <$> ?o] => remember o as sel eqn:Hsel end. symmetry in Hsel.
  apply bind_ok in Er as (u1&w1&[_ ->]%throw_if_ok&Er). apply bind_ok in Er as (u2&w1&[_ ->]%throw_if_ok&Er).
  apply bind_ok in Er as (nodes&w1&En&[= <- <-]). cbn [rp_instrumentation rp_definition rp_nodes] in Hav |- *.
  destruct sel as [v|]; [|done]. change (vr_definition <$> Some v) with (Some (vr_definition v)) in *.
  cbv beta iota in En, Hav. destruct (version_is (vr_definition v) 2) eqn:Hv; [|done].
  exists v. apply bind_Some in Hsel as (n&Hn&Hf). apply find_some in Hf as [Hin Hnum].
  apply list_elem_of_In in Hin. rewrite merge_sort_Permutation in Hin. apply list_elem_of_In in Hin.
  apply in_flat_map in Hin as (v'&Hin&(j'&->&[_ [H1%String.eqb_eq [H2%String.eqb_eq _]%andb_true_iff]%andb_true_iff]%select_In)%in_map_iff).
  split; [done|]. split; [congruence|]. split; [done|]. split; [done|].
  unfold nodeReport in En. rewrite bind_get in En. apply bind_ok in En as (ns&w2&[Hns ->]%some_or_throw_ok&[= <- <-]).
  exists ns. split; [done|]. split; [done|]. intros s ->. by injection Hn as <-.
Qed.

(** the visits a report of version [n] is about *)
Definition visit_in (member : SessionMember) (appId id : string) (n : Z) (e : Execution) : bool :=
  String.eqb (ex_tenant e) (sm_tenantId member) && String.eqb (ex_app e) appId && String.eqb (ex_journey e) id && (ex_version e =? n).

(** C37. The counts of a journey report add up. A report with node counts is of
    one published version, in version 2 of the format; it has a row for each node
    of that version, in order; the row counts each visit of the node in that
    version once: arrived is the number of all of them, waiting, completed and
    failed are those in the state, and never exceed arrived together; each path
    counts the completed visits that left by its port, made by at least one and
    at most that many users, and the paths together never exceed completed. *)
Theorem journey_report_adds_up Uniq (member : SessionMember) appId id version w r :
  fst (journeyReport Uniq member appId id version w) = Ok r → rp_instrumentation r = available →
  ∃ v def ns, In v (versions Uniq w) ∧ vr_journey v = id ∧ rp_definition r = Some def ∧ vr_definition v = def
    ∧ version_is def 2 = true ∧ JourneyModel.nodes def = Some ns ∧ length (rp_nodes r) = length ns
    ∧ (∀ s, version = Some s → num_eqb (NInt (vr_version v)) (Number s) = true)
    ∧ let rows := select (visit_in member appId id (vr_version v)) (executions Uniq w) in
      ∀ i node row nid, ns !! i = Some node → rp_nodes r !! i = Some row → node_id node = Some nid →
        nr_node_id row = Some nid ∧ nr_node_index row = Z.of_nat i
        ∧ nr_arrived row = count (List.filter (at_node nid) rows)
        ∧ nr_waiting row = count (List.filter (with_status nid "waiting") rows)
        ∧ nr_completed row = count (List.filter (with_status nid "resolved") rows)
        ∧ nr_failed row = count (List.filter (with_status nid "failed") rows)
        ∧ nr_waiting row + nr_completed row + nr_failed row <= nr_arrived row
        ∧ total (map pr_executions (nr_paths row)) <= nr_completed row
        ∧ ∀ p, In p (nr_paths row) → pr_executions p = count (List.filter (by_port nid (pr_output_port p)) rows)
            ∧ 1 <= pr_unique_users p <= pr_executions p.
Proof.
  intros E Hav. apply journey_report_run in E as (v&Hin&Hj&Hd&Hv&ns&Hns&Hnodes&Hver); [|done].
  exists v, (vr_definition v), ns. rewrite Hnodes, length_imap.
  do 8 (split; [done|]). intros rows i node row nid Hi Hr Hid.
  rewrite list_lookup_imap, Hi in Hr. injection Hr as <-. by apply node_row_spec.
Qed.

(** ** The message log *)

Lemma leb_cons a s b t :
  String.leb (String a s) (String b t) = match (N_of_ascii a ?= N_of_ascii b)%N with Lt => true | Eq => String.leb s t | Gt => false end.
Proof. unfold String.leb. simpl. unfold Ascii.compare. by destruct (_ ?= _)%N. Qed.
Lemma leb_trans s t u : String.leb s t = true → String.leb t u = true → String.leb s u = true.
Proof.
  revert t u. induction s as [|a s IH]; intros [|b t] [|c u]; try done. rewrite !leb_cons.
  destruct (N.compare_spec (N_of_ascii a) (N_of_ascii b)) as [E1|E1|E1],
    (N.compare_spec (N_of_ascii b) (N_of_ascii c)) as [E2|E2|E2],
    (N.compare_spec (N_of_ascii a) (N_of_ascii c)) as [E3|E3|E3]; try done; try lia. apply IH.
Qed.

#[global] Instance text_desc_total {A} (key : A → string) : Total (text_desc key).
Proof.
  intros a b. unfold text_desc. destruct (String.leb_total (key b) (key a)) as [H|H]; [left|right]; by rewrite H.
Qed.
#[global] Instance text_desc_trans {A} (key : A → string) : Transitive (text_desc key).
Proof.
  intros a b c. unfold text_desc. intros H1%Is_true_true H2%Is_true_true. apply Is_true_true.
  by apply leb_trans with (key b).
Qed.

(** the first [n] of a sorted list are all of it or no later than the rest *)
Lemma take_sorted {A} (R : relation A) `{∀ x y, Decision (R x y)} `{!Total R} `{!Transitive R} n (l : list A) x y :
  In x (take n (merge_sort R l)) → In y l → ¬ In y (take n (merge_sort R l)) → R x y.
Proof.
  intros Hx Hy Hn. pose proof (StronglySorted_merge_sort R l) as Hs.
  assert (In y (drop n (merge_sort R l))) as Hd.
  { apply list_elem_of_In in Hy. rewrite <- (merge_sort_Permutation R l), <- (take_drop n (merge_sort R l)) in Hy.
    apply list_elem_of_In, in_app_iff in Hy. tauto. }
  rewrite <- (take_drop n (merge_sort R l)) in Hs.
  revert Hs Hx Hd. generalize (take n (merge_sort R l)) as a, (drop n (merge_sort R l)) as b. clear. intros a b.
  induction a as [|z a IH]; [done|]. simpl. intros [Hs Hf]%StronglySorted_inv [->|Hx] Hb; [|by apply IH].
  rewrite List.Forall_forall in Hf. apply Hf, in_app_iff. by right.
Qed.

Lemma count_filter_all {A} (p : A → bool) l : count (select p l) <= count l.
Proof. unfold select. induction l as [|x l IH]; [done|]. simpl. destruct (p x); rewrite ?count_cons; lia. Qed.

Lemma failure_rate_bounds {A} (p : A → bool) l :
  (0 <= (if 0 <? count l then js_div (count (select p l)) (count l) else 0%Q) <= 1)%Q.
Proof.
  destruct (Z.ltb_spec 0 (count l)); [|lra]. apply js_div_bounds; [|done]. split; [apply count_nonneg|apply count_filter_all].
Qed.

Lemma int_leb_num z n : Number_isInteger n = true → num_leb (NInt z) n = (z <=? num_to_Z n).
Proof.
  destruct n as [| |q]; try done. cbn [Number_isInteger num_to_Z]. intros Hq%q_is_int_trunc.
  revert Hq. generalize (q_trunc q). intros k Hq. unfold num_leb, NInt. apply eq_true_iff_eq.
  rewrite Z.leb_le, Qle_bool_iff, Hq. by rewrite <- Zle_Qle.
Qed.

Lemma parse_filter_range zod_uuid f max :
  parse_filter zod_uuid f = Some max → 1 <= max <= 500 ∧ (fl_limit f = None → max = 100).
Proof.
  unfold parse_filter. destruct (_ && _); [|done]. unfold parse_limit. destruct (fl_limit f) as [s|]; [|by intros [= <-]].
  destruct (_ && _) eqn:E; [|done]. intros [= <-]. split; [|done]. apply andb_true_iff in E as [[E1 E2]%andb_true_iff E3].
  rewrite num_leb_int in E3 by done. apply Z.leb_le in E3. rewrite int_leb_num in E2 by done. apply Z.leb_le in E2. lia.
Qed.

(** A page of the message log is what was asked for. It exists exactly when
    the filters are well formed, after the app is found; it has at most the asked
    number of rows (100 by default, never more than 500), and that many when
    there are that many; each row is of the app and passes every filter given
    (skipped stands for every reason to skip); the rows are in descending order
    of the time shown, and a row that is left out shows no later time than a row
    of the page. The failure rate of the last hour is between 0 and 1. *)
Theorem log_page_answers Uniq ch_now formatDateTime (member : SessionMember) zod_uuid appId f (w : Store Uniq) page :
  fst (list_messages Uniq ch_now formatDateTime member zod_uuid appId f w) = Ok page →
  ∃ max, parse_filter zod_uuid f = Some max ∧ 1 <= max <= 500 ∧ (fl_limit f = None → max = 100)
    ∧ let asked := select (log_where member appId f) (message_log Uniq w) in
      count (lp_messages page) = Z.min max (count asked)
      ∧ (∀ m t, In (m, t) (lp_messages page) → In m asked ∧ t = formatDateTime (mg_sent_at m) LOG_FORMAT)
      ∧ StronglySorted (text_desc snd) (lp_messages page)
      ∧ (∀ row m, In row (lp_messages page) → In m asked →
           ¬ In (m, formatDateTime (mg_sent_at m) LOG_FORMAT) (lp_messages page) →
           String.leb (formatDateTime (mg_sent_at m) LOG_FORMAT) (snd row) = true)
      ∧ 0 <= lp_failed page <= lp_total page ∧ (0 <= lp_failure_rate page <= 1)%Q.
Proof.
  intros E. unfold list_messages, assertApp, mbind, M_bind, get, throw_if in E. destruct (count _ =? 0); [done|].
  cbn [fst mret M_ret some_or_throw] in E. destruct (parse_filter zod_uuid f) as [max|] eqn:Hf; [|done]. exists max.
  apply (parse_filter_range _ _ _) in Hf as Hr. destruct Hr as [Hr Hdef]. split; [done|]. split; [done|]. split; [done|].
  cbn [fst mret M_ret some_or_throw] in E. injection E as <-.
  intros asked. cbn [lp_messages lp_total lp_failed lp_failure_rate].
  set (g := λ m : MessageRec, (m, formatDateTime (mg_sent_at m) LOG_FORMAT)).
  split_and!.
  - unfold count. rewrite length_take, merge_sort_Permutation, length_map. fold asked. lia.
  - intros m t Hin. assert (In (m, t) (merge_sort (text_desc snd) (map g asked))) as Hi.
    { rewrite <- (take_drop (Z.to_nat max) (merge_sort _ _)). apply in_app_iff. by left. }
    apply list_elem_of_In in Hi. rewrite merge_sort_Permutation in Hi.
    apply list_elem_of_In, in_map_iff in Hi as (m'&[= -> <-]&Hm). done.
  - pose proof (StronglySorted_merge_sort (text_desc snd) (map g asked)) as Hs.
    rewrite <- (take_drop (Z.to_nat max) (merge_sort _ _)) in Hs. by apply StronglySorted_app_1_l in Hs.
  - intros row m Hrow Hm Hn. apply Is_true_true. apply (take_sorted (text_desc snd) _ _ row (g m) Hrow); [|done].
    by apply in_map.
  - apply count_nonneg.
  - apply count_filter_all.
  - apply (failure_rate_bounds (λ m, String.eqb (mg_status m) "failed")).
  - apply (failure_rate_bounds (λ m, String.eqb (mg_status m) "failed")).
Qed.

(** ** Two tenants *)

Module ReportsDemo.
Definition member : SessionMember := mkSessionMember "m1" "t1" "a@b.c" "A" "viewer" true false.
Definition push_graph : JourneyDefinition :=
  mkDefinition (Some (NInt 2)) None
    (Some [mkNode (Some "wait") (NDelay (mkDelay (NInt 60)));
           mkNode (Some "say") (NMessage (mkMessage (Some (mkPush (Some "t") (Some "b") None None)) None None))])
    (Some "wait") (Some []) None None.
Definition sent (tenant app id : string) (at_ : Z) (status : string) : MessageRec :=
  mkMessageRec tenant app id "j1" 1 1 "" "u1" status at_ JNull.
Definition run (node status : string) (user : string) (port : option string) : Execution :=
  mkExecution "t1" "a1" "j1" 1 node user status port.

(** [a1] belongs to [t1], [a2] to [t2]; the push was opened on the phone, the
    e-mail only by a call back *)
Definition store : Store unit :=
  mkStore unit [mkApp "a1" "t1"; mkApp "a2" "t2"]
    [mkProfile "u1" "t1" "a1" (Some "x") None "active" JNull; mkProfile "u2" "t2" "a2" (Some "x") None "active" JNull]
    [mkDeviceRec "d1" "t1" "a1" "u1" (Some "tok") "active" (Some 5) JNull; mkDeviceRec "d2" "t2" "a2" "u2" (Some "tok2") "active" None JNull]
    [mkJourneyRec "j1" "t1" "a1" "Welcome" "active" (Some 1)] [mkVersionRec "j1" 1 7 push_graph]
    [mkStateRec "t1" "a1" "j1" 1 "u1" 0 "waiting" None 3]
    [run "wait" "resolved" "u1" (Some "next"); run "say" "waiting" "u1" None; run "wait" "failed" "u3" None]
    [sent "t1" "a1" "p1" 90000000 "sent"; sent "t1" "a1" "e1" 90001000 "sent"; sent "t1" "a1" "e2" 90002000 "sent";
     sent "t1" "a1" "s1" 90003000 "skipped_stale"; sent "t2" "a2" "q1" 90004000 "failed"]
    [mkEventRec "t1" "a1" "$push_opened" "u1" "p1" 8] [mkLifecycle "t1" "a1" "e1" "opened"; mkLifecycle "t1" "a1" "e2" "opened";
     mkLifecycle "t1" "a1" "zz" "bounced"] [] [] [].
Definition extract (properties _ : string) : string := properties.
Definition shown (ms : Z) (_ : string) : string := pretty.pretty ms.
Abbreviation ask := (serve unit (λ _, 0) 90005000 1 shown extract member (λ _, true) (λ _, true)).

Lemma store_consistent : consistent unit store.
Proof.
  split.
  - intros d u [<-|[<-|[]]] [<-|[<-|[]]]; vm_compute; intuition congruence.
  - intros d u [<-|[]] [<-|[<-|[]]]; vm_compute; intuition congruence.
  - intros d u [<-|[]] [<-|[]]; vm_compute; intuition congruence.
  - intros u a [<-|[<-|[]]] [<-|[<-|[]]]; vm_compute; intuition congruence.
Qed.

(** a device of the other tenant that was attached to the user of this one *)
Definition attached : Store unit :=
  mkStore unit (apps unit store) (profiles unit store)
    (mkDeviceRec "d3" "t2" "a2" "u1" (Some "tok3") "active" (Some 9) JNull :: devices unit store)
    (journeys unit store) (versions unit store) (states unit store) (executions unit store) (message_log unit store)
    (events unit store) (message_lifecycle unit store) [] [] [].
Definition devices_shown (o : outcome Answer) : list string :=
  match o with Ok (ADetail d) => map (λ p, dr_id (fst p)) (ud_devices d) | _ => [] end.

(** It is shown on the page of that user, and the rows of the app alone do not show it. *)
Lemma attached_is_shown :
  devices_shown (fst (ask "a1" (QDetail "u1") attached)) = ["d3"; "d1"]
  ∧ devices_shown (fst (ask "a1" (QDetail "u1") (restrict unit member "a1" attached))) = ["d1"].
Proof. split; vm_compute; reflexivity. Qed.

Lemma reports_see_one_app_witness :
  consistent unit store
  ∧ fst (ask "a1" (QSearch (Some "x")) store) = Ok (AUsers [mkProfile "u1" "t1" "a1" (Some "x") None "active" JNull])
  ∧ fst (ask "a2" QUsage store) = Throw (NotFoundException "앱을 찾을 수 없습니다")
  ∧ fst (ask "a1" (QUninstalls None) store) = fst (ask "a1" (QUninstalls None) (restrict unit member "a1" store)).
Proof.
  split_and!; [exact store_consistent|vm_compute; reflexivity|vm_compute; reflexivity|].
  apply (reports_see_one_app unit (λ _, 0) 90005000 1 shown extract member (λ _, true) (λ _, true) "a1" (QUninstalls None) store), store_consistent.
Defined.

(** the report of a journey whose e-mails were opened without a delivery call back *)
Definition delivery : DeliveryReport := mkDelivery 3 1 3 0 0 (to_double (333 # 1000)) 3.
Lemma delivery_of : fst (deliveryReport unit extract member "a1" "j1" store) = Ok delivery.
Proof. vm_compute. reflexivity. Qed.

Lemma delivery_report_counts_witness :
  fst (deliveryReport unit extract member "a1" "j1" store) = Ok delivery
  ∧ counts (was_sent unit member "a1" "j1" store) 3
  ∧ counts (proved unit extract member "a1" "j1" store Opened) 3.
Proof.
  destruct (delivery_report_counts unit extract member "a1" "j1" store delivery delivery_of) as (H1&_&H2&_).
  split_and!; [exact delivery_of|exact H1|exact H2].
Defined.

(** The open rate of that report is 3: a call back for an opened e-mail is not
    taken as evidence of its delivery, although an opened push is. *)
Lemma open_rate_above_one : dl_open_rate delivery = 3%Q ∧ dl_opened delivery > dl_delivered delivery.
Proof. split; vm_compute; reflexivity. Qed.

Definition nodes_report : list NodeReport :=
  [mkNodeReport (Some "wait") 0 "delay" 2 0 1 1 [mkPath "next" 1 1]; mkNodeReport (Some "say") 1 "message" 1 1 0 0 []].
Definition report : JourneyReport :=
  mkReport "Welcome" "active" [("waiting", 1)] [("sent", 1, 3); ("skipped_stale", 1, 1)] (Some (NInt 1)) [(1, 7)] (Some push_graph)
    available nodes_report.
Lemma report_of : fst (journeyReport unit member "a1" "j1" (Some "1") store) = Ok report.
Proof. vm_compute. reflexivity. Qed.

Lemma journey_report_adds_up_witness :
  fst (journeyReport unit member "a1" "j1" (Some "1") store) = Ok report
  ∧ (∃ v def ns, vr_journey v = "j1" ∧ vr_definition v = def ∧ JourneyModel.nodes def = Some ns ∧ length (rp_nodes report) = length ns)
  ∧ fst (journeyReport unit member "a1" "j1" (Some "2") store) = Throw (NotFoundException "저니 버전을 찾을 수 없습니다").
Proof.
  split_and!; [exact report_of| |vm_compute; reflexivity].
  destruct (journey_report_adds_up unit member "a1" "j1" (Some "1") store report report_of eq_refl)
    as (v&def&ns&_&H1&_&H2&_&H3&H4&_).
  exists v, def, ns. split_and!; [exact H1|exact H2|exact H3|exact H4].
Defined.

(** The dashboard of the day leaves out a message skipped because it was late,
    which the message log counts as skipped. *)
Lemma stale_is_not_skipped :
  (∃ d, fst (dashboard unit 1 member "a1" store) = Ok d ∧ db_skipped d = 0 ∧ at_status (db_by_status d) "skipped_stale" = 1)
  ∧ ∃ m, select (log_where member "a1" (mkFilter (Some "skipped") None None None)) (message_log unit store) = [m]
      ∧ mg_status m = "skipped_stale".
Proof. split; eexists; split; [vm_compute; reflexivity|split; reflexivity|vm_compute; reflexivity|reflexivity]. Qed.

Definition log_filter : LogFilter := mkFilter (Some "skipped") None (Some "5") None.
Definition log_page : LogPage := mkPage [(sent "t1" "a1" "s1" 90003000 "skipped_stale", "90003000")] 4 0 0%Q.
Lemma page_of : fst (list_messages unit 90005000 shown member (λ _, true) "a1" log_filter store) = Ok log_page.
Proof. vm_compute. reflexivity. Qed.

Lemma log_page_answers_witness :
  fst (list_messages unit 90005000 shown member (λ _, true) "a1" log_filter store) = Ok log_page
  ∧ (∃ max, parse_filter (λ _, true) log_filter = Some max ∧ 1 <= max <= 500)
  ∧ fst (list_messages unit 90005000 shown member (λ _, true) "a1" (mkFilter None None (Some "0") None) store)
    = Throw (BadRequestException "Invalid message log filters").
Proof.
  split_and!; [exact page_of| |vm_compute; reflexivity].
  destruct (log_page_answers unit 90005000 shown member (λ _, true) "a1" log_filter store log_page page_of) as (max&H1&H2&_).
  exists max. split; [exact H1|exact H2].
Defined.
End ReportsDemo.
