(* ===== verification/AuthServices.v ===== *)
(** * Sessions, two-factor authentication, accounts and login

    [auth/session.service.ts], [auth/session.guard.ts], [auth/totp.service.ts],
    [auth/auth.service.ts], [auth/auth.controller.ts] and the key generation
    of [auth/api-key.service.ts]. *)

From Stdlib Require Import Ascii.
From stdpp Require Import pretty.
From S2P Require Import Prelude JsVal Crypto Authz AuthDb.

#[global] Open Scope Z_scope.

Section AuthServices.
Context `{Crypto} `{Host}.

(** ** Sessions *)

Definition hashToken (token : string) : string := sha256_hex token.

(** [SessionService.create]: the token and its expiry (ms) *)
Definition create (env : Env) (tenantId memberId : string) : M Db (string * Z) :=
  let token := random_token env 0 in
  let expiresAt := Date_now env SessionExpiry + cfg_sessionTtlHours env * 3600000 in
  _ ← insert_session (mkSession tenantId memberId (hashToken token) (ip env) (user_agent env) (of_ms expiresAt) None);
  mret (token, expiresAt).

(** the row of the join of [resolve]: the session, its active member, its tenant *)
Definition session_live (env : Env) (hash : string) (s : Session) : bool :=
  String.eqb (se_token_hash s) hash && bool_decide (se_revoked_at s = None) && (pg_now env <? se_expires_at s).
Definition session_join (env : Env) (hash : string) (d : Db) : list (Session * Member * Tenant) :=
  flat_map (λ s,
    flat_map (λ m,
      map (λ t, (s, m, t)) (select (λ t, String.eqb (tn_id t) (se_tenant s)) (tenants d)))
    (select (λ m, String.eqb (m_id m) (se_member s) && is_active m) (members d)))
  (select (session_live env hash) (sessions d)).

Definition resolve (env : Env) (token : string) (d : Db) : option SessionMember :=
  if String.eqb token "" then None
  else match session_join env (hashToken token) d with
  | [] => None
  | (s, m, t) :: _ =>
      Some (mkSessionMember (m_id m) (se_tenant s) (m_email m) (m_name m) (role_text (m_role m))
        (bool_decide (enabled_at (m_totp m) ≠ None)) (tn_require_2fa t))
  end.

Definition revoke_row (env : Env) (s : Session) : Session :=
  mkSession (se_tenant s) (se_member s) (se_token_hash s) (se_ip s) (se_user_agent s) (se_expires_at s) (Some (pg_now env)).

Definition revoke (env : Env) (token : string) : M Db unit :=
  modify (λ d, set_sessions (update_where (λ s,
    String.eqb (se_token_hash s) (hashToken token) && bool_decide (se_revoked_at s = None)) (revoke_row env) (sessions d)) d).

(** [if (exceptToken)]: an empty token is no token *)
Definition except_clause (exceptToken : option string) (s : Session) : bool :=
  match exceptToken with
  | Some t => String.eqb t "" || negb (String.eqb (se_token_hash s) (hashToken t))
  | None => true
  end.
Definition member_sessions (tenantId memberId : string) (exceptToken : option string) (s : Session) : bool :=
  String.eqb (se_tenant s) tenantId && String.eqb (se_member s) memberId
  && bool_decide (se_revoked_at s = None) && except_clause exceptToken s.

Definition revokeAllForMember (env : Env) (tenantId memberId : string) (exceptToken : option string) : M Db Z :=
  d ← get;
  _ ← modify (set_sessions (update_where (member_sessions tenantId memberId exceptToken) (revoke_row env) (sessions d)));
  mret (row_count (member_sessions tenantId memberId exceptToken) (sessions d)).

(** [path.startsWith("/v1/auth/totp")] *)
Definition isEnrollmentAllowed (path : string) : bool := starts_with "/v1/auth/totp" path.

Definition path_of (url : string) : string := default "" (head (split_on "?"%char url)).
(** [SessionGuard.canActivate]; [cookie] is the [nudgeon_session] cookie and
    [url] the request's path *)
Definition SessionGuard (env : Env) (cookie : option string) (url : string) : M Db SessionMember :=
  d ← get;
  member ← some_or_throw (resolve env (default "" cookie) d) (UnauthorizedException "login required");
  _ ← throw_if (sm_requires2fa member && negb (sm_totpEnabled member) && negb (isEnrollmentAllowed (path_of url)))
        (ForbiddenException "enrollment_required");
  mret member.

(** ** Two-factor authentication *)

Definition MAX_FAILED : Z := 5.
Definition LOCK_MINUTES : Z := 15.

Definition lift_outcome {A} (o : outcome A) : M Db A :=
  match o with Ok a => mret a | Throw e => throw e end.
Definition master_key (env : Env) : M Db bytes :=
  lift_outcome (loadMasterKey (NUDGEON_MASTER_KEY env) (master_key_file env)).
Definition range_error : exn := PlainError "ERR_OUT_OF_RANGE".
Definition decrypt_error : exn := PlainError "Unsupported state or unable to authenticate data".

Definition status (tenantId memberId : string) : M Db bool :=
  d ← get;
  m ← some_or_throw (select1 (member_at tenantId memberId) (members d)) (NotFoundException "Not Found");
  mret (bool_decide (enabled_at (m_totp m) ≠ None)).

(** the base32 secret and the otpauth URI *)
Definition startEnrollment (env : Env) (tenantId memberId email : string) : M Db (string * string) :=
  d ← get;
  m ← some_or_throw (select1 (member_at tenantId memberId) (members d)) (NotFoundException "Not Found");
  _ ← throw_if (bool_decide (enabled_at (m_totp m) ≠ None)) (BadRequestException "2FA already enabled");
  let secret := secret_random env in
  key ← master_key env;
  let e := encryptEnvelope (envelope_random env) key (base64_encode secret) in
  packed ← some_or_throw (packEnvelope e) range_error;
  _ ← update_members (member_at tenantId memberId) (set_totp (mkTotp (Some packed) None None 0 None));
  let b32 := base32Encode secret in
  mret (b32, otpauthUri email b32).

Definition delete_backup_codes (memberId : string) : M Db unit :=
  modify (λ d, set_backup_codes (delete_where (λ b, String.eqb (bc_member b) memberId) (backup_codes d)) d).

(** [for (const code of codes)]: the k-th code takes the k-th salt and row id *)
Fixpoint insert_codes (env : Env) (tenantId memberId : string) (k : nat) (codes : list string) : M Db unit :=
  match codes with
  | [] => mret tt
  | code :: codes' =>
      let hash := argon2_hash (salt env k) (normalizeBackupCode toUpperCase code) in
      _ ← insert_backup (mkBackup (uuid env k) tenantId memberId hash None);
      insert_codes env tenantId memberId (S k) codes'
  end.

Definition confirmEnrollment (env : Env) (tenantId memberId token : string) : M Db (list string) :=
  d ← get;
  let row := select1 (member_at tenantId memberId) (members d) in
  enc ← some_or_throw (m ← row; secret_enc (m_totp m)) (BadRequestException "start enrolment first");
  m ← some_or_throw row (BadRequestException "start enrolment first");
  _ ← throw_if (bool_decide (enabled_at (m_totp m) ≠ None)) (BadRequestException "2FA already enabled");
  key ← master_key env;
  secret ← some_or_throw (decryptSecret key enc) decrypt_error;
  res ← some_or_throw (verifyTotp secret token (Date_now env TotpStep) (-1)) range_error;
  _ ← throw_if (negb (vr_ok res)) (BadRequestException "wrong code");
  let codes := generateBackupCodes (backup_random env) in
  _ ← transaction (
    _ ← update_members (member_at tenantId memberId)
          (λ m, set_totp (mkTotp (secret_enc (m_totp m)) (Some (pg_now env)) (Some (vr_counter res)) 0 None) m);
    _ ← delete_backup_codes memberId;
    insert_codes env tenantId memberId 0 codes);
  mret codes.

(** the first unused code of the member that the text matches *)
Definition unused_codes (memberId : string) (d : Db) : list BackupCode :=
  select (λ b, String.eqb (bc_member b) memberId && bool_decide (bc_used_at b = None)) (backup_codes d).
Definition use_code (env : Env) (id : string) : M Db Z :=
  let p := λ b, String.eqb (bc_id b) id && bool_decide (bc_used_at b = None) in
  d ← get;
  _ ← modify (set_backup_codes (update_where p
        (λ b, mkBackup (bc_id b) (bc_tenant b) (bc_member b) (bc_hash b) (Some (pg_now env))) (backup_codes d)));
  mret (row_count p (backup_codes d)).

Definition tryBackupCode (env : Env) (memberId token : string) : M Db bool :=
  let norm := normalizeBackupCode toUpperCase token in
  if js_length norm <? 8 then mret false
  else
    d ← get;
    match List.find (λ r, argon2_verify (bc_hash r) norm) (unused_codes memberId d) with
    | Some r => n ← use_code env (bc_id r); mret (n =? 1)
    | None => mret false
    end.

(** [m.totp_locked_until && new Date(m.totp_locked_until) > new Date()] *)
Definition locked (env : Env) (t : Totp) : bool :=
  match locked_until t with Some u => Date_now env LockCheck <? getTime u | None => false end.

(** the writes of a verification, on the member's row *)
Definition accept_counter (c : Z) (t : Totp) : Totp := mkTotp (secret_enc t) (enabled_at t) (Some c) 0 None.
Definition accept_backup (t : Totp) : Totp := mkTotp (secret_enc t) (enabled_at t) (last_counter t) 0 None.
Definition count_failure (env : Env) (failed : Z) (t : Totp) : Totp :=
  if MAX_FAILED <=? failed
  then mkTotp (secret_enc t) (enabled_at t) (last_counter t) 0 (Some (pg_now env + minutes LOCK_MINUTES))
  else mkTotp (secret_enc t) (enabled_at t) (last_counter t) failed (locked_until t).
Definition update_totp (memberId : string) (f : Totp → Totp) : M Db unit :=
  update_members (member_id memberId) (λ m, set_totp (f (m_totp m)) m).

Definition verifyForLogin (env : Env) (memberId token : string) : M Db bool :=
  transaction (
    d ← get;
    match select1 (member_id memberId) (members d) with
    | None => mret false
    | Some m =>
        match enabled_at (m_totp m), secret_enc (m_totp m) with
        | Some _, Some enc =>
            _ ← throw_if (locked env (m_totp m)) (UnauthorizedException "locked");
            key ← master_key env;
            secret ← some_or_throw (decryptSecret key enc) decrypt_error;
            res ← some_or_throw (verifyTotp secret token (Date_now env TotpStep)
                    (default (-1) (last_counter (m_totp m)))) range_error;
            if vr_ok res then
              _ ← update_totp memberId (accept_counter (vr_counter res)); mret true
            else
              used ← tryBackupCode env memberId token;
              if (used : bool) then
                _ ← update_totp memberId accept_backup; mret true
              else
                _ ← update_totp memberId (count_failure env (failed_count (m_totp m) + 1)); mret false
        | _, _ => mret false
        end
    end).

Definition clear (tenantId memberId : string) : M Db unit :=
  _ ← update_members (member_at tenantId memberId) (set_totp no_totp);
  delete_backup_codes memberId.

Definition disable (env : Env) (tenantId memberId token : string) (currentToken : option string) : M Db unit :=
  ok ← verifyForLogin env memberId token;
  _ ← throw_if (negb ok) (BadRequestException "wrong code");
  _ ← clear tenantId memberId;
  _ ← revokeAllForMember env tenantId memberId currentToken;
  mret tt.

Definition resetForMember (env : Env) (actorTenantId targetMemberId : string) : M Db unit :=
  d ← get;
  _ ← throw_if (row_count (member_at actorTenantId targetMemberId) (members d) =? 0) (NotFoundException "member not found");
  _ ← clear actorTenantId targetMemberId;
  _ ← revokeAllForMember env actorTenantId targetMemberId None;
  mret tt.

(** ** Accounts *)

Record GeneratedKey := mkGenerated { g_key : string; g_hash : string; g_prefix : string }.

(** [generateApiKey(kind)] with its random text *)
Definition generateApiKey (kind : KeyKind) (raw : string) : GeneratedKey :=
  let key := (match kind with Sdk => "pk" | Server => "sk" end) +:+ "_" +:+ raw in
  mkGenerated key (sha256_hex key) (String.substring 0 11 key).

Record SignupInput := mkSignup { si_email : string; si_password : string; si_name : string; si_tenantName : string }.

Record Workspace := mkWorkspace {
  ws_tenantId : string; ws_memberId : string; ws_appId : string; ws_sdkKey : string; ws_serverKey : string }.

Definition createWorkspace (env : Env) (input : SignupInput) (appName : option string) : M Db Workspace :=
  d ← get;
  _ ← throw_if (negb (row_count (λ m, String.eqb (pg_lower (m_email m)) (pg_lower (si_email input))) (members d) =? 0))
        (ConflictException "email already registered");
  let tenantId := uuid env 0 in
  _ ← insert_tenant (mkTenant tenantId (si_tenantName input) false None None);
  let memberId := uuid env 1 in
  _ ← insert_member (mkMember memberId tenantId (pg_lower (si_email input))
        (Some (argon2_hash (salt env 0) (si_password input))) (si_name input) Owner MActive no_totp (pg_now env));
  let appId := uuid env 2 in
  _ ← insert_app (mkApp appId tenantId (default "Default App" appName) "Asia/Seoul");
  let sdkKey := generateApiKey Sdk (random_token env 1) in
  let serverKey := generateApiKey Server (random_token env 2) in
  _ ← insert_key (mkKey (uuid env 3) tenantId appId Sdk Full (g_prefix sdkKey) (g_hash sdkKey) KActive None None None);
  _ ← insert_key (mkKey (uuid env 4) tenantId appId Server Full (g_prefix serverKey) (g_hash serverKey) KActive None None None);
  mret (mkWorkspace tenantId memberId appId (g_key sdkKey) (g_key serverKey)).

Definition countMembers (d : Db) : Z := Z.of_nat (length (members d)).

Definition signup (env : Env) (input : SignupInput) : M Db Workspace :=
  _ ← throw_if (bool_decide (cfg_mode env = single_tenant)) (NotFoundException "no signup in self-hosted mode");
  transaction (createWorkspace env input None).

Record LoginRow := mkLogin { lr_memberId : string; lr_tenantId : string; lr_totpEnabled : bool; lr_requires2fa : bool }.

(** the hash compared when there is no such account *)
Definition dummy_hash : string :=
  "$argon2id$v=19$m=65536,t=3,p=4$AAAAAAAAAAAAAAAAAAAAAA$AAAAAAAAAAAAAAAAAAAAAAAAAAAAAAAAAAAAAAAAAAA".

Definition login_join (email : string) (d : Db) : list (Member * Tenant) :=
  flat_map (λ m, map (λ t, (m, t)) (select (λ t, String.eqb (tn_id t) (m_tenant m)) (tenants d)))
    (select (λ m, String.eqb (pg_lower (m_email m)) (pg_lower email) && is_active m) (members d)).

Definition verifyLogin (email password : string) : M Db LoginRow :=
  d ← get;
  let row := head (login_join email d) in
  let hash := default dummy_hash (r ← row; m_password_hash (fst r)) in
  let ok := argon2_verify hash password in
  r ← some_or_throw row (UnauthorizedException "wrong email or password");
  _ ← throw_if (negb ok) (UnauthorizedException "wrong email or password");
  mret (mkLogin (m_id (fst r)) (m_tenant (fst r)) (bool_decide (enabled_at (m_totp (fst r)) ≠ None)) (tn_require_2fa (snd r))).

(** ** The auth controller *)

Definition len_between (lo hi : Z) (s : string) : bool := (lo <=? js_length s) && (js_length s <=? hi).

Definition signupSchema (i : SignupInput) : bool :=
  zod_email (si_email i) && len_between 8 128 (si_password i) && len_between 1 100 (si_name i)
  && len_between 1 100 (si_tenantName i).

(** the body of a login: e-mail, password, optional second factor *)
Record LoginBody := mkLoginBody { lb_email : string; lb_password : string; lb_totp : option string }.
Definition loginSchema (b : LoginBody) : bool :=
  zod_email (lb_email b) && (1 <=? js_length (lb_password b))
  && match lb_totp b with Some t => len_between 6 20 t | None => true end.

(** [COOKIE] set on the response: the session token and its expiry *)
Definition issueSession := create.

Definition signup_handler (env : Env) (body : SignupInput) : M Db (Workspace * string) :=
  _ ← throw_if (negb (signupSchema body)) (BadRequestException "schema");
  result ← signup env body;
  tok ← issueSession env (ws_tenantId result) (ws_memberId result);
  mret (result, fst tok).

Inductive LoginResponse :=
| TotpRequired
| LoggedIn (cookie : string)
| EnrollmentRequired (cookie : string).

Definition login (env : Env) (body : LoginBody) : M Db LoginResponse :=
  _ ← throw_if (negb (loginSchema body)) (BadRequestException "schema");
  r ← verifyLogin (lb_email body) (lb_password body);
  if lr_totpEnabled r then
    match lb_totp body with
    | None => mret TotpRequired
    | Some code =>
        ok ← verifyForLogin env (lr_memberId r) code;
        _ ← throw_if (negb ok) (UnauthorizedException "wrong 2FA code");
        tok ← issueSession env (lr_tenantId r) (lr_memberId r);
        mret (LoggedIn (fst tok))
    end
  else if lr_requires2fa r then
    tok ← issueSession env (lr_tenantId r) (lr_memberId r);
    mret (EnrollmentRequired (fst tok))
  else
    tok ← issueSession env (lr_tenantId r) (lr_memberId r);
    mret (LoggedIn (fst tok)).

Definition logout (env : Env) (cookie : option string) : M Db unit :=
  let token := default "" cookie in
  if String.eqb token "" then mret tt else revoke env token.

(** [me]: the member and the permissions the console shows *)
Definition me (env : Env) (cookie : option string) : M Db (SessionMember * list Permission) :=
  d ← get;
  member ← some_or_throw (resolve env (default "" cookie) d) (UnauthorizedException "Unauthorized");
  mret (member, permissionsForRole (sm_role member)).
End AuthServices.
