(* ===== verification/Team.v ===== *)
(** * Team, tenant settings and API keys

    [members/members.service.ts], [members/members.controller.ts],
    [auth/totp.controller.ts], [tenant/tenant.controller.ts],
    [apps/apps.controller.ts], [auth/api-key.service.ts],
    [auth/api-key.guard.ts] and the usage recorder [auth/api-key-usage.ts]. *)

From Stdlib Require Import Ascii.
From stdpp Require Import pretty.
From S2P Require Import Prelude JsVal Crypto Authz AuthDb AuthServices.

#[global] Open Scope Z_scope.

Section Team.
Context `{Crypto} `{Host}.

(** ** Members ([MembersService]) *)

(** [assertAssignableRole]; the type of [newRole] is the check [isRole] *)
Definition assertAssignableRole (actorRole : string) (newRole : Role) : M Db unit :=
  throw_if (bool_decide (newRole = Owner) && negb (String.eqb actorRole "owner"))
    (ForbiddenException "only an owner assigns the owner role").
Definition assertCanManageTarget (actorRole : string) (targetRole : Role) : M Db unit :=
  throw_if (bool_decide (targetRole = Owner) && negb (String.eqb actorRole "owner"))
    (ForbiddenException "only an owner manages owners").

Record MemberInput := mkMemberInput {
  mi_email : string; mi_name : string; mi_role : Role; mi_password : string }.

Definition create_member (env : Env) (tenantId actorRole : string) (input : MemberInput) : M Db Member :=
  _ ← assertAssignableRole actorRole (mi_role input);
  d ← get;
  _ ← throw_if (negb (row_count (λ m, String.eqb (m_tenant m) tenantId
         && String.eqb (pg_lower (m_email m)) (pg_lower (mi_email input))) (members d) =? 0))
        (ConflictException "email already exists");
  let row := mkMember (uuid env 0) tenantId (mi_email input) (Some (argon2_hash (salt env 0) (mi_password input)))
               (mi_name input) (mi_role input) MActive no_totp (pg_now env) in
  _ ← insert_member row;
  mret row.

Definition assertInTenant (tenantId memberId : string) : M Db unit :=
  d ← get;
  throw_if (row_count (member_at tenantId memberId) (members d) =? 0) (NotFoundException "member not found").

Definition lockMember (tenantId targetId : string) : M Db (Role * MemberStatus) :=
  d ← get;
  m ← some_or_throw (select1 (member_at tenantId targetId) (members d)) (NotFoundException "member not found");
  mret (m_role m, m_status m).

Definition other_owner (tenantId targetId : string) (m : Member) : bool :=
  String.eqb (m_tenant m) tenantId && is_owner m && is_active m && negb (String.eqb (m_id m) targetId).
Definition assertNotLastOwner (tenantId targetId : string) : M Db unit :=
  d ← get;
  throw_if (row_count (other_owner tenantId targetId) (members d) =? 0) (BadRequestException "at least one owner is needed").

(** the number of sessions revoked *)
Definition changeRole (env : Env) (tenantId actorRole targetId : string) (newRole : Role) : M Db Z :=
  _ ← transaction (
    target ← lockMember tenantId targetId;
    _ ← assertAssignableRole actorRole newRole;
    _ ← assertCanManageTarget actorRole (fst target);
    _ ← (if bool_decide (fst target = Owner) && negb (bool_decide (newRole = Owner))
         then assertNotLastOwner tenantId targetId else mret tt);
    update_members (member_at tenantId targetId) (set_role newRole));
  revokeAllForMember env tenantId targetId None.

Definition remove (env : Env) (tenantId actorRole actorId targetId : string) : M Db Z :=
  _ ← throw_if (String.eqb actorId targetId) (BadRequestException "cannot remove yourself");
  _ ← transaction (
    target ← lockMember tenantId targetId;
    _ ← assertCanManageTarget actorRole (fst target);
    _ ← (if bool_decide (fst target = Owner) then assertNotLastOwner tenantId targetId else mret tt);
    update_members (member_at tenantId targetId) (set_status MDisabled));
  revokeAllForMember env tenantId targetId None.

(** ** Handlers behind the session and permission guards *)

(** what a console request carries: the session cookie and the path *)
Record Caller := mkCaller { cookie : option string; url : string }.

(** [@UseGuards(SessionGuard, PermissionGuard)] with the declared permission *)
Definition guarded {A} (env : Env) (c : Caller) (perm : option Permission) (handler : SessionMember → M Db A) : M Db A :=
  member ← SessionGuard env (cookie c) (url c);
  _ ← PermissionGuard perm (Some (sm_role member));
  handler member.

Definition createSchema (i : MemberInput) : bool :=
  zod_email (mi_email i) && len_between 1 100 (mi_name i) && len_between 8 128 (mi_password i).

Definition members_list (env : Env) (c : Caller) : M Db (list Member) :=
  guarded env c (Some team_read) (λ member,
    d ← get; mret (select (λ m, String.eqb (m_tenant m) (sm_tenantId member)) (members d))).

Definition members_create (env : Env) (c : Caller) (body : MemberInput) : M Db Member :=
  guarded env c (Some team_write) (λ member,
    _ ← throw_if (negb (createSchema body)) (BadRequestException "schema");
    created ← create_member env (sm_tenantId member) (sm_role member) body;
    _ ← recordAs env member "member.create" (Some "member") (Some (m_id created)) [("email", JStr (m_email created)); ("role", JStr (role_text (m_role created)))];
    mret created).

(** the body's role, if it is one of the four *)
Definition members_changeRole (env : Env) (c : Caller) (memberId body_role : string) : M Db Z :=
  guarded env c (Some team_write) (λ member,
    _ ← assertInTenant (sm_tenantId member) memberId;
    newRole ← some_or_throw (isRole body_role) (BadRequestException "schema");
    revoked ← changeRole env (sm_tenantId member) (sm_role member) memberId newRole;
    _ ← recordAs env member "member.role_change" (Some "member") (Some memberId) [("role", JStr body_role); ("sessions_revoked", JNum (NInt revoked))];
    mret revoked).

Definition members_remove (env : Env) (c : Caller) (memberId : string) : M Db Z :=
  guarded env c (Some team_write) (λ member,
    revoked ← remove env (sm_tenantId member) (sm_role member) (sm_memberId member) memberId;
    _ ← recordAs env member "member.remove" (Some "member") (Some memberId) [("sessions_revoked", JNum (NInt revoked))];
    mret revoked).

(** ** Two-factor endpoints ([TotpController], [MemberTotpController]) *)

Definition parseCode (body : string) : M Db string :=
  _ ← throw_if (negb (len_between 6 20 body)) (BadRequestException "schema");
  mret body.

Definition totp_status (env : Env) (c : Caller) : M Db bool :=
  guarded env c None (λ member, status (sm_tenantId member) (sm_memberId member)).
Definition totp_enroll (env : Env) (c : Caller) : M Db (string * string) :=
  guarded env c None (λ member, startEnrollment env (sm_tenantId member) (sm_memberId member) (sm_email member)).
Definition totp_confirm (env : Env) (c : Caller) (body : string) : M Db (list string) :=
  guarded env c None (λ member,
    code ← parseCode body;
    codes ← confirmEnrollment env (sm_tenantId member) (sm_memberId member) code;
    _ ← recordAs env member "member.totp_enable" (Some "member") (Some (sm_memberId member)) [];
    mret codes).
Definition totp_disable (env : Env) (c : Caller) (body : string) : M Db unit :=
  guarded env c None (λ member,
    code ← parseCode body;
    _ ← disable env (sm_tenantId member) (sm_memberId member) code (cookie c);
    recordAs env member "member.totp_disable" (Some "member") (Some (sm_memberId member)) []).
Definition totp_reset (env : Env) (c : Caller) (memberId : string) : M Db unit :=
  guarded env c (Some member_reset_2fa) (λ member,
    _ ← resetForMember env (sm_tenantId member) memberId;
    recordAs env member "member.totp_reset" (Some "member") (Some memberId) []).

(** ** Tenant settings ([TenantController]) *)

Definition update_tenant (id : string) (f : Tenant → Tenant) : M Db unit :=
  modify (λ d, set_tenants (update_where (λ t, String.eqb (tn_id t) id) f (tenants d)) d).

Definition tenant_get (env : Env) (c : Caller) : M Db (option Tenant) :=
  guarded env c None (λ member,
    d ← get; mret (select1 (λ t, String.eqb (tn_id t) (sm_tenantId member)) (tenants d))).

(** [COALESCE]: a repeated request keeps the first deadline *)
Definition requestDeletion (env : Env) (c : Caller) : M Db (option Z) :=
  guarded env c (Some tenant_delete) (λ member,
    _ ← update_tenant (sm_tenantId member) (λ t,
          mkTenant (tn_id t) (tn_name t) (tn_require_2fa t)
            (Some (default (pg_now env) (tn_delete_requested_at t)))
            (Some (default (pg_now env + days 7) (tn_purge_after t))));
    d ← get;
    (* [RETURNING purge_after] *)
    let purge_after := t ← select1 (λ t, String.eqb (tn_id t) (sm_tenantId member)) (tenants d); tn_purge_after t in
    _ ← recordAs env member "tenant.delete_requested" (Some "tenant") (Some (sm_tenantId member))
          (match purge_after with Some t => [("purge_after", JNum (NInt t))] | None => [] end);
    mret purge_after).

Definition restore (env : Env) (c : Caller) : M Db unit :=
  guarded env c (Some tenant_delete) (λ member,
    _ ← update_tenant (sm_tenantId member) (λ t, mkTenant (tn_id t) (tn_name t) (tn_require_2fa t) None None);
    recordAs env member "tenant.delete_cancelled" (Some "tenant") (Some (sm_tenantId member)) []).

Definition setSecurity (env : Env) (c : Caller) (require_2fa : bool) : M Db unit :=
  guarded env c (Some team_write) (λ member,
    _ ← update_tenant (sm_tenantId member) (λ t,
          mkTenant (tn_id t) (tn_name t) require_2fa (tn_delete_requested_at t) (tn_purge_after t));
    recordAs env member "tenant.require_2fa" (Some "tenant") (Some (sm_tenantId member)) [("require_2fa", JBool require_2fa)]).

(** ** API keys ([AppsController]) *)

Definition KEY_ADMIN_ROLES : list string := ["owner"; "admin"].
Definition SDK_ROTATION_GRACE_DAYS : Z := 30.

Definition assertApp (appId : string) (member : SessionMember) : M Db unit :=
  d ← get;
  throw_if (row_count (λ a, String.eqb (ap_id a) appId && String.eqb (ap_tenant a) (sm_tenantId member)) (apps d) =? 0)
    (NotFoundException "app not found").
Definition assertKeyAdmin (member : SessionMember) : M Db unit :=
  throw_if (negb (String_in (sm_role member) KEY_ADMIN_ROLES)) (ForbiddenException "owner or admin only").

Definition key_at (keyId tenantId appId : string) (k : ApiKey) : bool :=
  String.eqb (k_id k) keyId && String.eqb (k_tenant k) tenantId && String.eqb (k_app k) appId.

Definition apps_list (env : Env) (c : Caller) : M Db (list App) :=
  guarded env c None (λ member, d ← get; mret (select (λ a, String.eqb (ap_tenant a) (sm_tenantId member)) (apps d))).

Definition keys (env : Env) (c : Caller) (appId : string) : M Db (list ApiKey) :=
  guarded env c None (λ member,
    _ ← assertApp appId member;
    _ ← assertKeyAdmin member;
    d ← get;
    mret (select (λ k, String.eqb (k_tenant k) (sm_tenantId member) && String.eqb (k_app k) appId) (api_keys d))).

(** the two halves of [rotate]: the check of the row, and the transaction *)
Definition rotate_check (member : SessionMember) (appId keyId : string) : M Db unit :=
  _ ← assertApp appId member;
  _ ← assertKeyAdmin member;
  d ← get;
  key ← some_or_throw (select1 (key_at keyId (sm_tenantId member) appId) (api_keys d)) (NotFoundException "key not found");
  _ ← throw_if (negb (bool_decide (k_kind key = Sdk))) (BadRequestException "only SDK keys rotate");
  throw_if (negb (bool_decide (k_status key = KActive))) (BadRequestException "only active keys rotate").

Definition to_rotating (env : Env) (k : ApiKey) : ApiKey :=
  mkKey (k_id k) (k_tenant k) (k_app k) (k_kind k) (k_scope k) (k_prefix k) (k_hash k) KRotating
    (Some (pg_now env + days SDK_ROTATION_GRACE_DAYS)) (k_last_used_at k) (k_revoked_at k).
Definition rotate_commit (env : Env) (member : SessionMember) (appId keyId : string) : M Db string :=
  let newKey := generateApiKey Sdk (random_token env 1) in
  _ ← transaction (
    _ ← modify (λ d, set_api_keys (update_where (λ k, String.eqb (k_id k) keyId) (to_rotating env) (api_keys d)) d);
    insert_key (mkKey (uuid env 0) (sm_tenantId member) appId Sdk Full (g_prefix newKey) (g_hash newKey) KActive None None None));
  _ ← recordAs env member "apikey.rotate" (Some "apikey") (Some keyId) [("app_id", JStr appId); ("kind", JStr "sdk")];
  mret (g_key newKey).
Definition rotate (env : Env) (c : Caller) (appId keyId : string) : M Db string :=
  guarded env c None (λ member, _ ← rotate_check member appId keyId; rotate_commit env member appId keyId).

Definition createServerKey (env : Env) (c : Caller) (appId : string) : M Db (string * string) :=
  guarded env c None (λ member,
    _ ← assertApp appId member;
    _ ← assertKeyAdmin member;
    let newKey := generateApiKey Server (random_token env 1) in
    _ ← insert_key (mkKey (uuid env 0) (sm_tenantId member) appId Server Full (g_prefix newKey) (g_hash newKey) KActive None None None);
    _ ← recordAs env member "apikey.create" (Some "apikey") (Some (uuid env 0)) [("app_id", JStr appId); ("kind", JStr "server")];
    mret (uuid env 0, g_key newKey)).

Definition to_revoked (env : Env) (k : ApiKey) : ApiKey :=
  mkKey (k_id k) (k_tenant k) (k_app k) (k_kind k) (k_scope k) (k_prefix k) (k_hash k) KRevoked
    (k_grace_expires_at k) (k_last_used_at k) (Some (pg_now env)).
Definition revoke_where (member : SessionMember) (appId keyId : string) (k : ApiKey) : bool :=
  key_at keyId (sm_tenantId member) appId k && negb (bool_decide (k_status k = KRevoked)).
Definition revokeKey (env : Env) (c : Caller) (appId keyId : string) : M Db unit :=
  guarded env c None (λ member,
    _ ← assertApp appId member;
    _ ← assertKeyAdmin member;
    d ← get;
    _ ← modify (set_api_keys (update_where (revoke_where member appId keyId) (to_revoked env) (api_keys d)));
    _ ← throw_if (row_count (revoke_where member appId keyId) (api_keys d) =? 0) (NotFoundException "Not Found");
    recordAs env member "apikey.revoke" (Some "apikey") (Some keyId) [("app_id", JStr appId)]).

(** ** Key resolution ([ApiKeyService], [ApiKeyGuard]) *)

Definition key_char (c : ascii) : bool := alnum c || Ascii.eqb c "_" || Ascii.eqb c "-".
(** [/^(pk|sk)_[A-Za-z0-9_-]{20,}$/] *)
Definition key_format (raw : string) : bool :=
  (starts_with "pk_" raw || starts_with "sk_" raw)
  && (23 <=? Z.of_nat (String.length raw))
  && str_forallb key_char (String.substring 3 (String.length raw - 3) raw).

Record ResolvedApiKey := mkResolved {
  rk_id : string; rk_tenantId : string; rk_appId : string; rk_kind : KeyKind; rk_scope : KeyScope }.

(** the key a text denotes, and whether its last use is due for an update *)
Definition resolve_key (env : Env) (rawKey : string) (d : Db) : option (ResolvedApiKey * bool) :=
  if negb (key_format rawKey) then None
  else
    row ← select1 (λ k, String.eqb (k_hash k) (sha256_hex rawKey)) (api_keys d);
    if bool_decide (k_status row = KRevoked) then None
    else if bool_decide (k_status row = KRotating)
         && match k_grace_expires_at row with Some g => getTime g <? Date_now env KeyGrace | None => false end then None
    else Some (mkResolved (k_id row) (k_tenant row) (k_app row) (k_kind row) (k_scope row),
               match k_last_used_at row with Some t => t <? pg_now env - seconds 60 | None => true end).

(** [ApiKeyGuard.canActivate]: the key of [authorization] (without its
    [Bearer] prefix, removed by [strip_bearer]) or else of [x-api-key] *)
Definition strip_bearer (h : string) : string :=
  if String.eqb (to_lower (String.substring 0 6 h)) "bearer" then
    let rest := String.substring 6 (String.length h - 6) h in
    if Nat.ltb (String.length (trim_start rest)) (String.length rest) then trim_start rest else h
  else h.
Definition ApiKeyGuard (env : Env) (kinds : list KeyKind) (requiredScope : option KeyScope)
    (authorization x_api_key : option string) : M Db (option (ResolvedApiKey * bool)) :=
  match kinds with
  | [] => mret None
  | _ =>
      let raw := match authorization with Some h => strip_bearer h | None => default "" x_api_key end in
      _ ← throw_if (String.eqb raw "") (UnauthorizedException "API key required");
      d ← get;
      resolved ← some_or_throw (resolve_key env raw d) (UnauthorizedException "invalid API key");
      _ ← throw_if (negb (existsb (λ k, bool_decide (k = rk_kind (fst resolved))) kinds))
            (UnauthorizedException "key kind not allowed");
      _ ← throw_if (bool_decide (requiredScope = Some Full) && negb (bool_decide (rk_scope (fst resolved) = Full)))
            (ForbiddenException "full scope required");
      mret (Some resolved)
  end.

(** ** Usage of a key ([ApiKeyUsage]) *)

Definition API_KEY_USAGE_MAX_PENDING : nat := 2.
Inductive UsageOutcome := Recent | Coalesced | Budget | Started.
#[global] Instance UsageOutcome_eq_dec : EqDecision UsageOutcome.
Proof. solve_decision. Defined.

(** [record]: the set of updates under way after it, and what it did *)
Definition record_usage (enabled : bool) (id : string) (due : bool) (pending : list string) : UsageOutcome * list string :=
  if enabled then
    if negb due then (Recent, pending)
    else if String_in id pending then (Coalesced, pending)
    else if Nat.leb API_KEY_USAGE_MAX_PENDING (length pending) then (Budget, pending)
    else (Started, set_add pending id)
  else (Started, pending).

Definition usage_where (env : Env) (enabled : bool) (key : ResolvedApiKey) (k : ApiKey) : bool :=
  key_at (rk_id key) (rk_tenantId key) (rk_appId key) k
  && (negb enabled
      || (negb (bool_decide (k_status k = KRevoked))
          && (negb (bool_decide (k_status k = KRotating))
              || match k_grace_expires_at k with None => true | Some g => pg_now env <=? g end)
          && match k_last_used_at k with None => true | Some t => t <? pg_now env - seconds 60 end)).
(** the background task: the update, then [pending.delete] in [finally] *)
Definition usage_update (env : Env) (enabled : bool) (key : ResolvedApiKey) : M Db unit :=
  modify (λ d, set_api_keys (update_where (usage_where env enabled key) (λ k,
    mkKey (k_id k) (k_tenant k) (k_app k) (k_kind k) (k_scope k) (k_prefix k) (k_hash k) (k_status k)
      (k_grace_expires_at k) (Some (pg_now env)) (k_revoked_at k)) (api_keys d)) d).
Definition usage_finished (id : string) (pending : list string) : list string :=
  List.filter (λ x, negb (String.eqb x id)) pending.
End Team.
