(* ===== verification/Bootstrap.v ===== *)
(** * Installation: claim, setup and permanent lock

    [auth/bootstrap.service.ts] and [auth/bootstrap.controller.ts]: the
    singleton [installation] row and its transitions, the per-address limit on
    claims and the transport check. *)

From Stdlib Require Import Ascii.
From stdpp Require Import pretty.
From S2P Require Import Prelude JsVal Crypto Json Authz AuthDb AuthServices.

#[global] Open Scope Z_scope.

(** [JSON.stringify] of an object whose values are strings *)
Definition json_fields (l : list (string * string)) : string :=
  "{" +:+ join "," (map (λ p, json_quote (fst p) +:+ ":" +:+ json_quote (snd p)) l) +:+ "}".

Section Bootstrap.
Context `{Crypto} `{Host}.

Definition CLAIM_TTL_MS : Z := 15 * 60000.

Definition sha256 (v : string) : string := sha256_hex v.
(** constant-time equality of two texts, false on a missing one *)
Definition same (a : option string) (b : string) : bool :=
  match a with
  | Some x => negb (String.eqb x "") && String.eqb x b
  | None => false
  end.

(** [UPDATE installation SET ...]: the table has at most one row *)
Definition update_installation (f : Installation → Installation) : M Db unit :=
  modify (λ d, set_installation (f <$> installation d) d).

Definition with_token (hash : string) (i : Installation) : Installation :=
  mkInstallation (in_id i) Unclaimed (Some hash) (in_token_version i + 1) None None None
    (in_idempotency_hash i) (in_request_hash i) (in_result i) (in_record_version i + 1).

Definition ensureInstallation (env : Env) : M Db unit :=
  transaction (
    _ ← modify (λ d, match installation d with
          | Some _ => d
          | None => set_installation (Some (mkInstallation (uuid env 5) Unclaimed None 0 None None None None None None 1)) d
          end);
    d ← get;
    row ← some_or_throw (installation d) (PlainError "no row");
    match cfg_setupToken env with
    | Some t =>
        if negb (bool_decide (in_state row = Secured)) && negb (String.eqb t "") then
          let hash := sha256 t in
          if negb (same (in_token_hash row) hash) then update_installation (with_token hash) else mret tt
        else mret tt
    | None => mret tt
    end).

(** [onModuleInit]: a failure is logged *)
Definition onModuleInit (env : Env) : M Db unit := λ d,
  if bool_decide (cfg_mode env = single_tenant)
  then (Ok tt, (ensureInstallation env d).2)
  else (Ok tt, d).

Record StatusView := mkStatus {
  sv_state : InstallState; sv_installation_id : option string; sv_setup_token_configured : bool; sv_needs_setup : bool }.
Definition bootstrap_status (env : Env) (d : Db) : StatusView :=
  if negb (bool_decide (cfg_mode env = single_tenant)) then mkStatus Secured None false false
  else match installation d with
  | None => mkStatus RecoveryRequired None false true
  | Some row =>
      mkStatus (in_state row) (Some (in_id row))
        (match in_token_hash row with Some h => negb (String.eqb h "") | None => false end)
        (negb (bool_decide (in_state row = Secured)))
  end.

(** [row.claim_expires_at && new Date(row.claim_expires_at) > new Date()] *)
Definition lease_live (env : Env) (i : Installation) : bool :=
  match in_claim_expires_at i with Some t => Date_now env LeaseCheck <? getTime t | None => false end.

Definition with_claim (env : Env) (cookie_hash : string) (expires_ms : Z) (i : Installation) : Installation :=
  mkInstallation (in_id i) Claimed (in_token_hash i) (in_token_version i) (Some cookie_hash)
    (Some (of_ms expires_ms)) (Some (pg_now env)) (in_idempotency_hash i) (in_request_hash i) (in_result i) (in_record_version i + 1).

Definition claim (env : Env) (rawToken : string) : M Db (string * Z) :=
  transaction (
    d ← get;
    row ← some_or_throw (installation d) (NotFoundException "no installation");
    _ ← throw_if (bool_decide (in_state row = Secured)) (GoneException "already installed");
    _ ← throw_if (match in_token_hash row with Some h => String.eqb h "" | None => true end) (ForbiddenException "no setup token");
    _ ← throw_if (negb (same (in_token_hash row) (sha256 rawToken))) (UnauthorizedException "wrong setup code");
    _ ← throw_if (bool_decide (in_state row = Claimed) && lease_live env row) (ConflictException "lease held");
    let ck := random_token env 0 in
    let expiresAt := Date_now env LeaseExpiry + CLAIM_TTL_MS in
    _ ← update_installation (with_claim env (sha256 ck) expiresAt);
    mret (ck, expiresAt)).

Record SetupInput := mkSetup {
  su_workspaceName : string; su_appName : string; su_name : string; su_email : string; su_password : string;
  su_timezone : option string }.

Definition request_hash (input : SetupInput) : string :=
  sha256 (json_fields [("w", su_workspaceName input); ("a", su_appName input); ("e", toLowerCase (su_email input));
                       ("n", su_name input); ("tz", default "" (su_timezone input))]).

Record SetupReply := mkReply { sp_result : SetupResult; sp_keys : option (string * string); sp_replayed : bool }.

Definition set_timezone (appId tenantId tz : string) : M Db unit :=
  modify (λ d, set_apps (update_where (λ a, String.eqb (ap_id a) appId && String.eqb (ap_tenant a) tenantId)
    (λ a, mkApp (ap_id a) (ap_tenant a) (ap_name a) tz) (apps d)) d).

Definition with_result (idem req : string) (r : SetupResult) (i : Installation) : Installation :=
  mkInstallation (in_id i) Secured None (in_token_version i) (in_claim_session i) (in_claim_expires_at i)
    (in_claimed_at i) (Some idem) (Some req) (Some r) (in_record_version i + 1).

(** the first owner, workspace and app, and the transition to [secured] *)
Definition setup_create (env : Env) (row : Installation) (idempotencyKey : string) (input : SetupInput) : M Db SetupReply :=
  created ← createWorkspace env (mkSignup (su_email input) (su_password input) (su_name input) (su_workspaceName input))
    (Some (su_appName input));
  _ ← (match su_timezone input with
       | Some tz => if String.eqb tz "" then mret tt else set_timezone (ws_appId created) (ws_tenantId created) tz
       | None => mret tt
       end);
  let result := mkSetupResult (ws_tenantId created) (ws_appId created) (ws_memberId created) (in_id row) (Date_now env SecuredAt) in
  _ ← update_installation (with_result (sha256 idempotencyKey) (request_hash input) result);
  mret (mkReply result (Some (ws_sdkKey created, ws_serverKey created)) false).

Definition setup (env : Env) (cookie : option string) (idempotencyKey : string) (input : SetupInput) : M Db SetupReply :=
  ck ← some_or_throw (if String.eqb (default "" cookie) "" then None else cookie) (UnauthorizedException "no bootstrap cookie");
  transaction (
    d ← get;
    row ← some_or_throw (installation d) (NotFoundException "no installation");
    let holder := same (in_claim_session row) (sha256 ck) in
    if bool_decide (in_state row = Secured) then
      if holder && same (in_idempotency_hash row) (sha256 idempotencyKey) && lease_live env row then
        _ ← throw_if (negb (same (in_request_hash row) (request_hash input))) (ConflictException "same key, other request");
        r ← some_or_throw (in_result row) (PlainError "TypeError");
        mret (mkReply r None true)
      else throw (GoneException "already installed")
    else
      _ ← throw_if (negb (bool_decide (in_state row = Claimed)) || negb holder) (UnauthorizedException "no lease");
      _ ← throw_if (negb (lease_live env row)) (UnauthorizedException "lease expired");
      setup_create env row idempotencyKey input).

Definition with_lease (expires_ms : Z) (i : Installation) : Installation :=
  mkInstallation (in_id i) (in_state i) (in_token_hash i) (in_token_version i) (in_claim_session i)
    (Some (of_ms expires_ms)) (in_claimed_at i) (in_idempotency_hash i) (in_request_hash i) (in_result i) (in_record_version i + 1).

Definition extend (env : Env) (cookie : option string) : M Db Z :=
  ck ← some_or_throw (if String.eqb (default "" cookie) "" then None else cookie) (UnauthorizedException "no bootstrap cookie");
  transaction (
    d ← get;
    row ← some_or_throw (installation d) (UnauthorizedException "no lease");
    _ ← throw_if (negb (bool_decide (in_state row = Claimed)) || negb (same (in_claim_session row) (sha256 ck)))
          (UnauthorizedException "no lease");
    _ ← throw_if (negb (lease_live env row)) (UnauthorizedException "lease expired");
    let expiresAt := Date_now env LeaseExpiry + CLAIM_TTL_MS in
    _ ← update_installation (with_lease expiresAt);
    mret expiresAt).

Definition setupResult (env : Env) (cookie : option string) (idempotencyKey : string) : M Db SetupResult :=
  ck ← some_or_throw (if String.eqb (default "" cookie) "" then None else cookie) (UnauthorizedException "no bootstrap cookie");
  d ← get;
  row ← some_or_throw (i ← installation d; if bool_decide (in_state i = Secured) then Some i else None)
          (NotFoundException "no finished installation");
  _ ← throw_if (negb (same (in_claim_session row) (sha256 ck)) || negb (same (in_idempotency_hash row) (sha256 idempotencyKey)))
        (UnauthorizedException "not this session's installation");
  _ ← throw_if (negb (lease_live env row)) (GoneException "recovery window over");
  some_or_throw (in_result row) (PlainError "TypeError").

(** ** The controller *)

Definition isLoopback (ip : string) : bool :=
  String.eqb ip "127.0.0.1" || String.eqb ip "::1" || String.eqb ip "::ffff:127.0.0.1" || String.eqb ip "localhost"
  || starts_with "127." ip.

(** the headers and socket of a request *)
Record Http := mkHttp {
  h_forwarded_proto : option string; h_protocol : option string; h_forwarded_for : option string;
  h_ip : option string; h_cookie : option string }.

Definition first_of (s : string) : string := js_trim (default "" (head (split_on ","%char s))).
Definition or_else (s : string) (o : option string) : string := if String.eqb s "" then default "" o else s.

Definition transport_ok (env : Env) (r : Http) : bool :=
  String.eqb (first_of (default (default "http" (h_protocol r)) (h_forwarded_proto r))) "https"
  || isLoopback (cfg_publicBindAddress env)
  || isLoopback (or_else (first_of (default "" (h_forwarded_for r))) (h_ip r)).
Definition assertLoopbackOrTls (env : Env) (r : Http) : M Db unit :=
  throw_if (negb (transport_ok env r)) (ForbiddenException "plain HTTP only from loopback").
Definition single (env : Env) : M Db unit :=
  throw_if (negb (bool_decide (cfg_mode env = single_tenant))) (BadRequestException "single_tenant only").

(** [ClaimRateLimit.allow]: the hits of the last minute, per address *)
Definition CLAIM_LIMIT : nat := 10.
Definition CLAIM_WINDOW_MS : Z := 60000.
Definition recent_hits (now : Z) (l : list Z) : list Z := List.filter (λ t, now - t <? CLAIM_WINDOW_MS) l.
Definition allow (now : Z) (ip : string) (hits : list (string * list Z)) : bool * list (string * list Z) :=
  let l := recent_hits now (default [] (JMap.get hits ip)) in
  if Nat.leb CLAIM_LIMIT (length l) then (false, JMap.set hits ip l)
  else (true, JMap.set hits ip (l ++ [now])).

Definition client_of (r : Http) : string :=
  let s := or_else (first_of (default "" (h_forwarded_for r))) (h_ip r) in if String.eqb s "" then "?" else s.

(** the limiter's map is the controller's own state *)
Definition claim_handler (env : Env) (r : Http) (token : string) (hits : list (string * list Z)) (d : Db) :
    outcome (string * Z) * Db * list (string * list Z) :=
  match (_ ← single env; assertLoopbackOrTls env r) d with
  | (Throw e, d') => (Throw e, d', hits)
  | (Ok _, _) =>
      let '(ok, hits') := allow (Date_now env ClaimHit) (client_of r) hits in
      if negb ok then (Throw (HttpException 429 "too many attempts"), d, hits')
      else
        let '(o, d') := (_ ← throw_if (negb (len_between 32 256 token)) (BadRequestException "schema"); claim env token) d in
        (o, d', hits')
  end.

Definition extend_handler (env : Env) (r : Http) : M Db Z :=
  _ ← single env; _ ← assertLoopbackOrTls env r; extend env (h_cookie r).

Definition setupSchema (i : SetupInput) : bool :=
  len_between 1 100 (su_workspaceName i) && len_between 1 100 (su_appName i) && len_between 1 100 (su_name i)
  && zod_email (su_email i) && len_between 8 128 (su_password i)
  && match su_timezone i with Some tz => js_length tz <=? 64 | None => true end.

Definition setup_handler (env : Env) (r : Http) (idem : option string) (body : SetupInput) : M Db (SetupReply * string) :=
  _ ← single env;
  _ ← assertLoopbackOrTls env r;
  key ← some_or_throw (k ← idem; if len_between 8 128 k then Some k else None) (BadRequestException "Idempotency-Key");
  _ ← throw_if (negb (setupSchema body)) (BadRequestException "schema");
  _ ← throw_if (match su_timezone body with Some tz => negb (String.eqb tz "") && negb (known_time_zone tz) | None => false end)
        (BadRequestException "unknown time zone");
  out ← setup env (h_cookie r) key body;
  tok ← create env (sr_tenant_id (sp_result out)) (sr_member_id (sp_result out));
  mret (out, fst tok).

Definition setupResult_handler (env : Env) (r : Http) (idem : option string) : M Db (SetupResult * string) :=
  _ ← single env;
  key ← some_or_throw (k ← idem; if String.eqb k "" then None else Some k) (BadRequestException "Idempotency-Key");
  result ← setupResult env (h_cookie r) key;
  tok ← create env (sr_tenant_id result) (sr_member_id result);
  mret (result, fst tok).
End Bootstrap.
