(* ===== verification/ChannelDb.v ===== *)
(** * Messaging channels: the store

    The tables behind the channel controllers of [apps/api/src] (credentials,
    connectors, alimtalk, email, messaging, apps, data; [db/postgres/schema.sql]),
    the audit log, the queue, and what the controllers share.  A PostgreSQL
    transaction covers the tables; no handler publishes inside one. *)

From Stdlib Require Import Ascii QArith.
From S2P Require Import Prelude JsVal Crypto BranchCondition Json Schema Authz AuthDb.

#[global] Open Scope Z_scope.

(** ** Rows *)

Record AppRow := mkAppRow {
  aw_id : string; aw_tenant : string; aw_timezone : string; aw_quiet_hours : jsval; aw_frequency_cap : jsval }.

(** [channel_kind], in the order of the enumeration *)
Definition channel_kinds : list string :=
  ["push_fcm"; "push_apns"; "email_smtp"; "email_nhn"; "email_resend"; "alimtalk"].

Inductive CredentialStatus := unverified | verified | errored.
#[global] Instance CredentialStatus_eq_dec : EqDecision CredentialStatus.
Proof. solve_decision. Defined.
Definition credential_status_text (s : CredentialStatus) : string :=
  match s with unverified => "unverified" | verified => "verified" | errored => "error" end.

Record Credential := mkCredential {
  cr_id : string; cr_tenant : string; cr_app : string; cr_kind : string; cr_sealed : Envelope;
  cr_status : CredentialStatus; cr_status_detail : option string }.

Record Connector := mkConnector {
  cn_id : string; cn_tenant : string; cn_app : string; cn_channel : string; cn_connector_id : string;
  cn_config : jsval; cn_enabled : bool }.

Record Sender := mkSender {
  sd_id : string; sd_tenant : string; sd_app : string; sd_sender_key : string; sd_channel_name : string;
  sd_status : string; sd_is_default : bool; sd_created_at : Z; sd_updated_at : Z }.

(** [tp_columns]: the columns that are only shown *)
Record AlimtalkTemplate := mkTemplate {
  tp_id : string; tp_tenant : string; tp_app : string; tp_sender : string; tp_code : string; tp_columns : jsval }.

Record EmailTemplate := mkEmail {
  em_id : string; em_tenant : string; em_app : string; em_name : string; em_subject : string; em_html : string;
  em_created_by : string; em_updated_at : Z }.

Record UserRow := mkUser {
  us_id : string; us_tenant : string; us_app : string; us_external_id : option string; us_status : string }.

Record DeviceRow := mkDeviceRow {
  dv_id : string; dv_tenant : string; dv_app : string; dv_user : string; dv_platform : string;
  dv_push_token : option string; dv_token_status : string; dv_os_permission : string; dv_last_active_at : option Z }.

Record OutboxJob := mkJob {
  ob_id : Z; ob_tenant : string; ob_app : string; ob_stream : string; ob_key : string; ob_payload : jsval;
  ob_published_at : option Z }.

Record TestMessage := mkTestMessage { tm_message_id : string; tm_device_id : string; tm_platform : string }.
Record TestPushRun := mkTestRun {
  tr_id : string; tr_tenant : string; tr_app : string; tr_request_key : string; tr_request_hash : string;
  tr_messages : list TestMessage; tr_outbox_ids : list Z; tr_accepted_at : Z }.

Record Attribute := mkAttribute { at_tenant : string; at_app : string; at_key : string; at_type : string }.
Record SegmentRow := mkSegmentRow { sg_id : string; sg_tenant : string; sg_app : string; sg_name : string; sg_definition : jsval }.

(** What [QueueProducer.publish] appends to a stream *)
Record QueueMessage := mkMessage {
  qm_stream : string; qm_type : string; qm_tenant : string; qm_app : string; qm_occurred_at : Z; qm_payload : jsval }.

(** ** The store *)

Record World := mkWorld {
  app_rows : list AppRow; credentials : list Credential; connectors : list Connector; senders : list Sender;
  alimtalk_templates : list AlimtalkTemplate; email_templates : list EmailTemplate;
  users : list UserRow; devices : list DeviceRow; outbox : list OutboxJob; test_push_runs : list TestPushRun;
  attributes : list Attribute; segments : list SegmentRow;
  audit : list AuditLog; queue : list QueueMessage }.

Definition set_app_rows x w := mkWorld x (credentials w) (connectors w) (senders w) (alimtalk_templates w) (email_templates w) (users w) (devices w) (outbox w) (test_push_runs w) (attributes w) (segments w) (audit w) (queue w).
Definition set_credentials x w := mkWorld (app_rows w) x (connectors w) (senders w) (alimtalk_templates w) (email_templates w) (users w) (devices w) (outbox w) (test_push_runs w) (attributes w) (segments w) (audit w) (queue w).
Definition set_connectors x w := mkWorld (app_rows w) (credentials w) x (senders w) (alimtalk_templates w) (email_templates w) (users w) (devices w) (outbox w) (test_push_runs w) (attributes w) (segments w) (audit w) (queue w).
Definition set_senders x w := mkWorld (app_rows w) (credentials w) (connectors w) x (alimtalk_templates w) (email_templates w) (users w) (devices w) (outbox w) (test_push_runs w) (attributes w) (segments w) (audit w) (queue w).
Definition set_alimtalk_templates x w := mkWorld (app_rows w) (credentials w) (connectors w) (senders w) x (email_templates w) (users w) (devices w) (outbox w) (test_push_runs w) (attributes w) (segments w) (audit w) (queue w).
Definition set_email_templates x w := mkWorld (app_rows w) (credentials w) (connectors w) (senders w) (alimtalk_templates w) x (users w) (devices w) (outbox w) (test_push_runs w) (attributes w) (segments w) (audit w) (queue w).
Definition set_outbox x w := mkWorld (app_rows w) (credentials w) (connectors w) (senders w) (alimtalk_templates w) (email_templates w) (users w) (devices w) x (test_push_runs w) (attributes w) (segments w) (audit w) (queue w).
Definition set_test_push_runs x w := mkWorld (app_rows w) (credentials w) (connectors w) (senders w) (alimtalk_templates w) (email_templates w) (users w) (devices w) (outbox w) x (attributes w) (segments w) (audit w) (queue w).
Definition set_attributes x w := mkWorld (app_rows w) (credentials w) (connectors w) (senders w) (alimtalk_templates w) (email_templates w) (users w) (devices w) (outbox w) (test_push_runs w) x (segments w) (audit w) (queue w).
Definition set_audit x w := mkWorld (app_rows w) (credentials w) (connectors w) (senders w) (alimtalk_templates w) (email_templates w) (users w) (devices w) (outbox w) (test_push_runs w) (attributes w) (segments w) x (queue w).
Definition set_queue x w := mkWorld (app_rows w) (credentials w) (connectors w) (senders w) (alimtalk_templates w) (email_templates w) (users w) (devices w) (outbox w) (test_push_runs w) (attributes w) (segments w) (audit w) x.

(** The environment of a request *)
Record Env := mkEnv {
  gen_uuid : nat → string;               (** [gen_random_uuid()], [randomUUID()] *)
  fresh_key : string;                    (** [randomUUID()] of a request without a key *)
  job_id : nat → Z;                      (** the identity column of the outbox *)
  pg_now : Z;                            (** [now()] *)
  Date_now : Z;                          (** ms *)
  toISOString : Z → string;
  Date_parse : string → option Z;        (** [None] for [NaN] *)
  entropy : Entropy;
  master_key : outcome bytes;            (** [loadMasterKey()] *)
  payload_ok : string → jsval → bool;    (** the producer's JSON Schema check, per message type *)
  xadd_error : option exn;
  request_ip : option string;
  audit_fails : bool }.                  (** an insertion into the audit log fails *)

Definition W : Type → Type := M World.

(** ** Shared *)

Section Shared.
Context (env : Env) (member : SessionMember).

Definition scoped (appId t a : string) : bool := String.eqb t (sm_tenantId member) && String.eqb a appId.

(** [SELECT 1 FROM apps WHERE id = $1 AND tenant_id = $2] *)
Definition owns_app (appId : string) (w : World) : bool :=
  0 <? row_count (λ a, String.eqb (aw_id a) appId && String.eqb (aw_tenant a) (sm_tenantId member)) (app_rows w).
Definition app_not_found : exn := NotFoundException "앱을 찾을 수 없습니다".
Definition assertApp (appId : string) : W unit :=
  w ← get; throw_if (negb (owns_app appId w)) app_not_found.

(** [parse]: a body the schema refuses is a 400 *)
Definition parse {A} (parsed : option A) : W A := some_or_throw parsed (BadRequestException "flattened issues").

Definition assertAdmin (message : string) : W unit :=
  throw_if (negb (String_in (sm_role member) ["owner"; "admin"])) (ForbiddenException message).

(** [@RequirePermission(perm)] *)
Definition permitted (perm : Permission) : W unit := PermissionGuard (Some perm) (Some (sm_role member)).

(** [this.audit.recordAs(req.member, req.ip, ...)] *)
Definition recordAs (action targetType targetId : string) (detail : list (string * jsval)) : W unit :=
  modify (λ w, set_audit (append_audit (audit_fails env)
    (mkAudit (sm_tenantId member) (Some (sm_memberId member)) (Some (sm_email member)) action (Some targetType) (Some targetId)
       (JObj detail) (request_ip env)) (audit w)) w).
End Shared.

(** [queue.publish(stream, { type, tenantId, appId, occurredAt, payload })] *)
Definition publish (env : Env) (m : QueueMessage) : W unit :=
  _ ← throw_if (negb (payload_ok env (qm_type m) (qm_payload m))) (PlainError "EnvelopeValidationError");
  _ ← match xadd_error env with Some e => throw e | None => mret tt end;
  modify (λ w, set_queue (queue w ++ [m]) w).

Definition unique_violation : exn := PlainError "23505".
Definition invalid_text : exn := PlainError "22P02".

(** ** More schemas *)

(** [z.boolean()], [z.unknown()] *)
Definition s_bool : Schema := s_check (λ v, match v with JBool _ => true | _ => false end).
Definition s_any : Schema := λ v, Some v.
(** [z.string().trim().min(lo).max(hi)] *)
Definition s_trimmed (lo hi : Z) : Schema := λ v,
  match v with
  | JStr s => let t := js_trim s in if (lo <=? js_length t) && (js_length t <=? hi) then Some (JStr t) else None
  | _ => None
  end.
(** [z.object(shape).passthrough()] *)
Definition s_passthrough (shape : Shape) : Schema := λ v,
  match v with
  | JObj fields =>
      l ← s_fields shape v;
      Some (JObj (l ++ List.filter (λ p, negb (String_in (fst p) (map fst shape))) fields))
  | _ => None
  end.
(** [z.number().int().min(lo).max(hi)] *)
Definition s_integer (lo hi : Z) : Schema :=
  s_check (λ v, match v with
    | JNum n => Number_isInteger n && num_leb (NInt lo) n && num_leb n (NInt hi)
    | _ => false end).

(** [/^[a-z][a-z0-9_]{1,63}$/] *)
Definition CHANNEL_RE (s : string) : bool :=
  match s with
  | String c s' => is_lower c && str_forallb (λ x, is_lower x || is_digit x || Ascii.eqb x "_") s'
                   && Nat.leb 1 (String.length s') && Nat.leb (String.length s') 63
  | EmptyString => false
  end.
(** the first occurrence of [p] in [s] *)
Fixpoint str_contains (p s : string) : bool :=
  starts_with p s || match s with EmptyString => false | String _ s' => str_contains p s' end.

(** the text of a validated string field *)
Definition str_of (v : jsval) : string := match v with JStr s => s | _ => "" end.
Definition bool_of (v : jsval) : bool := match v with JBool b => b | _ => false end.
(** [data.k ?? null] of an optional string *)
Definition opt_str (v : jsval) : option string := match v with JStr s => Some s | _ => None end.
Definition json_opt (o : option string) : jsval := match o with Some s => JStr s | None => JNull end.

(** ** Facts *)

Lemma permitted_ok member perm w u w' : permitted member perm w = (Ok u, w') → w' = w ∧ can (sm_role member) perm = true.
Proof.
  unfold permitted, PermissionGuard. intros E. apply bind_ok in E as (r&w1&[[= <-] ->]%some_or_throw_ok&E).
  apply throw_if_ok in E as [Hc ->]. split; [done|]. by apply negb_false_iff.
Qed.
Lemma assertApp_ok member appId w u w' :
  assertApp member appId w = (Ok u, w') → w' = w ∧ ∃ a, In a (app_rows w) ∧ aw_id a = appId ∧ aw_tenant a = sm_tenantId member.
Proof.
  unfold assertApp. intros (x&w1&[= <- <-]&[H ->]%throw_if_ok)%bind_ok. split; [done|].
  apply negb_false_iff, Z.ltb_lt, row_count_pos in H as (a&Ha&Hp). b2p. by exists a.
Qed.
Lemma parse_ok {A} (o : option A) w a w' : parse o w = (Ok a, w') → o = Some a ∧ w' = w.
Proof. apply some_or_throw_ok. Qed.
Lemma recordAs_ok env member action t i x w u w' :
  recordAs env member action t i x w = (Ok u, w') → ∃ l, w' = set_audit l w.
Proof. unfold recordAs. intros [= _ <-]. by eexists. Qed.
Lemma publish_ok env m w u w' : publish env m w = (Ok u, w') → w' = set_queue (queue w ++ [m]) w.
Proof.
  unfold publish. intros (x&w1&[_ ->]%throw_if_ok&HE)%bind_ok. apply bind_ok in HE as (y&w1&Hx&[= _ <-]).
  destruct (xadd_error env); [done|]. by injection Hx as _ <-.
Qed.
Lemma publish_throw env m w e w' : publish env m w = (Throw e, w') → w' = w.
Proof.
  unfold publish. intros HE. apply bind_throw_inv in HE as [(_&_&->)%throw_if_throw|(u&w1&[_ ->]%throw_if_ok&HE)]; [done|].
  apply bind_throw_inv in HE as [HE|(y&w2&_&HE)]; [|done]. destruct (xadd_error env); [|done]. by injection HE as _ <-.
Qed.
Lemma readonly_assertApp member appId : readonly (assertApp member appId).
Proof. intros w. unfold assertApp, mbind, M_bind, get. by destruct (negb _). Qed.
Lemma readonly_permitted member perm : readonly (permitted member perm).
Proof. unfold permitted, PermissionGuard. auto with nudgeon. Qed.
#[export] Hint Resolve readonly_assertApp readonly_permitted : nudgeon.
