(* ===== verification/Credentials.v ===== *)
(** * Channel credentials ([credentials/credentials.controller.ts])

    The schemas of the six kinds of credential, the flat form that is stored,
    and the handlers.  A stored credential is an envelope ([Crypto.encryptEnvelope])
    around the JSON text of the payload. *)

From Stdlib Require Import Ascii QArith.
From stdpp Require Import sorting.
From S2P Require Import Prelude JsVal Crypto BranchCondition Json JsonParse Schema Authz AuthDb ChannelDb.

#[global] Open Scope Z_scope.

(** zod's URL format *)
Class ZodUrl := { zod_url : string → bool }.

Section Credentials.
Context `{Zod} `{Host} `{ZodUrl} `{Crypto}.

(** ** Schemas *)

(** [z.string().email()], [.url()], [.includes("PRIVATE KEY")] *)
Definition s_email : Schema := s_check (string_check zod_email).
Definition s_url : Schema := s_check (string_check zod_url).
Definition s_private_key : Schema := s_check (string_check (str_contains "PRIVATE KEY")).
(** [z.string().min(lo)] *)
Definition s_min (lo : Z) : Schema := s_check (string_check (λ s, lo <=? js_length s)).
Definition s_max (hi : Z) : Schema := s_string 0 hi.
Definition s_text (hi : Z) : Schema := s_default (s_max hi) (JStr "").

Definition fcmPayloadSchema : Schema := s_object false
  [("kind", s_literal "push_fcm");
   ("service_account", s_passthrough
      [("type", s_literal "service_account"); ("project_id", s_min 1); ("private_key", s_private_key);
       ("client_email", s_email)])].
Definition apnsPayloadSchema : Schema := s_object false
  [("kind", s_literal "push_apns"); ("p8", s_private_key); ("key_id", s_string 1 32); ("team_id", s_string 1 32);
   ("bundle_id", s_string 1 256); ("environment", s_default (s_enum ["production"; "sandbox"]) (JStr "production"))].
Definition emailSmtpPayloadSchema : Schema := s_object false
  [("kind", s_literal "email_smtp"); ("host", s_string 1 255); ("port", s_integer 1 65535);
   ("username", s_text 320); ("password", s_text 1024); ("from_email", s_email); ("from_name", s_text 128);
   ("security", s_default (s_enum ["starttls"; "tls"; "none"]) (JStr "starttls"))].
Definition emailNhnPayloadSchema : Schema := s_object false
  [("kind", s_literal "email_nhn"); ("app_key", s_string 1 128); ("secret_key", s_string 1 256);
   ("from_email", s_email); ("from_name", s_text 128)].
Definition emailResendPayloadSchema : Schema := s_object false
  [("kind", s_literal "email_resend"); ("api_key", s_string 1 256); ("from_email", s_email); ("from_name", s_text 128);
   ("webhook_secret", s_optional (s_max 256)); ("base_url", s_optional s_url)].
Definition alimtalkPayloadSchema : Schema := s_object false
  [("kind", s_literal "alimtalk"); ("connector_id", s_check (string_check CHANNEL_RE));
   ("api_key", s_optional (s_string 1 512)); ("secret_key", s_optional (s_max 512));
   ("sender_key", s_optional (s_max 256)); ("base_url", s_optional s_url);
   ("extra", s_optional (s_record (s_max 4096)))].

(** An alimtalk credential has a secret, whatever its name. *)
Definition has_secret (v : jsval) : bool :=
  negb (String.eqb (str_of (prop v "kind")) "alimtalk")
  || truthy (prop v "api_key") || truthy (prop v "secret_key")
  || match prop v "extra" with JObj (_ :: _) => true | _ => false end.

Definition credentialSchema : Schema := s_refine (s_discriminated "kind"
  [("push_fcm", fcmPayloadSchema); ("push_apns", apnsPayloadSchema); ("email_smtp", emailSmtpPayloadSchema);
   ("email_nhn", emailNhnPayloadSchema); ("email_resend", emailResendPayloadSchema);
   ("alimtalk", alimtalkPayloadSchema)]) has_secret.

(** ** The stored form *)

Definition RESERVED_CREDENTIAL_KEYS : list string := ["kind"; "connector_id"; "extra"].

(** The order of the keys is that of their insertion: that JavaScript puts keys like
    integers first, and that a key [__proto__] of [extra] sets the prototype
    instead of a property, are not modelled. *)
Definition flattenCredentialPayload (payload : list (string * jsval)) : list (string * jsval) :=
  let named := JMap.delete payload "extra" in
  match JMap.get payload "extra" with
  | Some (JObj extra) =>
      let out := fold_left (λ out p,
          if String_in (fst p) RESERVED_CREDENTIAL_KEYS then out else JMap.set out (fst p) (snd p)) extra [] in
      fold_left (λ out p, if is_undef (snd p) then out else JMap.set out (fst p) (snd p)) named out
  | _ => named
  end.

(** ** Handlers *)

Section Handlers.
Context (env : Env) (member : SessionMember).

Definition credential_at (appId kind : string) (c : Credential) : bool :=
  String.eqb (cr_app c) appId && String.eqb (cr_kind c) kind.

(** [INSERT ... ON CONFLICT (app_id, kind) DO UPDATE ... RETURNING id, status] *)
Definition upsert_credential (appId kind : string) (sealed : Envelope) : W string :=
  w ← get;
  match select1 (credential_at appId kind) (credentials w) with
  | Some old =>
      _ ← modify (λ w, set_credentials (update_where (credential_at appId kind)
            (λ c, mkCredential (cr_id c) (cr_tenant c) (cr_app c) (cr_kind c) sealed unverified None) (credentials w)) w);
      mret (cr_id old)
  | None =>
      let id := gen_uuid env 0 in
      _ ← throw_if (existsb (λ c, String.eqb (cr_id c) id) (credentials w)) unique_violation;
      _ ← modify (λ w, set_credentials (credentials w ++
            [mkCredential id (sm_tenantId member) appId kind sealed unverified None]) w);
      mret id
  end.

Definition upsert (appId : string) (body : jsval) : W (string * string * CredentialStatus) :=
  _ ← assertApp member appId;
  data ← parse (credentialSchema body);
  _ ← assertAdmin member "크리덴셜은 Owner/Admin만 등록할 수 있습니다";
  let kind := str_of (prop data "kind") in
  let payload := match data with JObj fields => JMap.delete fields "kind" | _ => [] end in
  key ← match master_key env with Ok k => mret k | Throw e => throw e end;
  let sealed := encryptEnvelope (entropy env) key
                  (JSON_stringify number_format (JObj (flattenCredentialPayload payload))) in
  id ← upsert_credential appId kind sealed;
  _ ← recordAs env member "credential.upsert" "credential" (appId +:+ ":" +:+ kind) [("app_id", JStr appId); ("kind", JStr kind)];
  mret (id, kind, unverified).

(** What the listing shows: never the payload *)
Record CredentialView := mkView { vw_id : string; vw_kind : string; vw_status : CredentialStatus; vw_status_detail : option string }.
Definition view (c : Credential) : CredentialView := mkView (cr_id c) (cr_kind c) (cr_status c) (cr_status_detail c).

(** the place of a value in its enumeration *)
Fixpoint index_of (s : string) (l : list string) : nat :=
  match l with [] => O | x :: l => if String.eqb x s then O else S (index_of s l) end.
Definition kind_order (a b : Credential) : Prop := (index_of (cr_kind a) channel_kinds <= index_of (cr_kind b) channel_kinds)%nat.
#[global] Instance kind_order_dec a b : Decision (kind_order a b).
Proof. unfold kind_order. apply _. Defined.

Definition in_scope (appId : string) (c : Credential) : bool := scoped member appId (cr_tenant c) (cr_app c).

Definition list_credentials (appId : string) : W (list CredentialView) :=
  _ ← assertApp member appId;
  w ← get;
  mret (map view (merge_sort kind_order (select (in_scope appId) (credentials w)))).

Definition remove (appId kind : string) : W unit :=
  _ ← assertApp member appId;
  _ ← assertAdmin member "크리덴셜은 Owner/Admin만 삭제할 수 있습니다";
  _ ← throw_if (negb (String_in kind channel_kinds)) invalid_text;
  w ← get;
  let p := λ c, in_scope appId c && String.eqb (cr_kind c) kind in
  _ ← modify (λ w, set_credentials (delete_where p (credentials w)) w);
  _ ← throw_if (row_count p (credentials w) =? 0) (NotFoundException "Not Found");
  recordAs env member "credential.delete" "credential" (appId +:+ ":" +:+ kind) [("app_id", JStr appId); ("kind", JStr kind)].
End Handlers.
End Credentials.
