(* ===== verification/ResendWebhook.v ===== *)
(** * The e-mail provider's webhook

    [email/resend-webhook.service.ts] (the signature of Svix, the mapping of an
    event) and [email/resend-webhook.controller.ts].  The endpoint has no
    session: the signature under the secret of the app's own credential is all
    that authenticates a request, and the tenant is that credential's. *)

From Stdlib Require Import Ascii QArith.
From S2P Require Import Prelude JsVal JsNumber Crypto BranchCondition Json JsonParse Schema Authz AuthDb ChannelDb Credentials.

#[global] Open Scope Z_scope.

Class Hmac256 := { hmac_sha256 : bytes → bytes → bytes }.

(** ** Strings *)

(** [s.split(/\s+/)]: the pieces between runs of white space *)
Fixpoint split_spaces (n : nat) (word s : string) : list string :=
  match n, s with
  | S n, String c s' =>
      match strip_ws s with
      | Some _ => word :: split_spaces n "" (trim_start s)
      | None => split_spaces n (word +:+ String c EmptyString) s'
      end
  | _, _ => [word]
  end.
Definition split_ws (s : string) : list string := split_spaces (String.length s) "" s.

(** [/^\d+$/] and [Number(ts)] *)
Definition all_digits (s : string) : bool := negb (String.eqb s "") && str_forallb is_digit s.
Definition decimal (s : string) : Z := let '(m, _, _) := read_digits 10 s 0 0 in m.

(** [s.slice(0, max)], in UTF-16 units; half of a surrogate pair is left out *)
Fixpoint js_take (n : nat) (max : Z) (s : string) : string :=
  match n, s with
  | S n, String c s' => if code_units c <=? max then String c (js_take n (max - code_units c) s') else EmptyString
  | _, _ => EmptyString
  end.

(** ** The signature *)

Definition SVIX_TOLERANCE_SECONDS : Z := 300.

Inductive HeaderValue := One (s : string) | Many (l : list string).
Definition Headers : Type := list (string * HeaderValue).
Definition header (h : Headers) (name : string) : option string :=
  match JMap.get h name with
  | Some (One s) => Some s
  | Some (Many (s :: _)) => Some s
  | _ => None
  end.

Section Service.
Context `{Hmac256}.

Definition svixKey (secret : string) : bytes :=
  base64_decode (if starts_with "whsec_" secret then String.substring 6 (String.length secret - 6) secret else secret).

Definition svixSign (secret id timestamp : string) (rawBody : bytes) : string :=
  base64_encode (hmac_sha256 (svixKey secret) (bytes_of_string (id +:+ "." +:+ timestamp +:+ ".") ++ rawBody)).

(** an entry [v1,<sig>] with the expected signature *)
Definition entry_matches (expected entry : string) : bool :=
  match split_on "," entry with
  | version :: sig :: _ => String.eqb version "v1" && negb (String.eqb sig "") && String.eqb sig expected
  | _ => false
  end.

Inductive SvixVerifyResult := SvixOk | SvixFailed (reason : string).

Definition present_text (o : option string) : option string :=
  match o with Some s => if String.eqb s "" then None else Some s | None => None end.

Definition verifySvixSignature (secret : string) (headers : Headers) (rawBody : bytes) (nowMs : Z) : SvixVerifyResult :=
  match present_text (header headers "svix-id"), present_text (header headers "svix-timestamp"),
        present_text (header headers "svix-signature") with
  | Some id, Some ts, Some sigHeader =>
      if negb (all_digits ts) then SvixFailed "svix-timestamp 형식 오류"
      else if SVIX_TOLERANCE_SECONDS <? Z.abs (nowMs / 1000 - decimal ts) then SvixFailed "svix-timestamp가 허용 오차를 벗어남"
      else if Nat.eqb (length (svixKey secret)) 0 then SvixFailed "webhook_secret 형식 오류"
      else if existsb (entry_matches (svixSign secret id ts rawBody)) (split_ws sigHeader) then SvixOk
      else SvixFailed "서명 불일치"
  | _, _, _ => SvixFailed "svix 헤더 누락"
  end.

(** ** Events *)

Definition resendEventSchema : Schema := s_passthrough
  [("type", s_check (string_check (λ s, 1 <=? js_length s)));
   ("created_at", s_optional s_any_string);
   ("data", s_passthrough
      [("email_id", s_optional s_any_string); ("created_at", s_optional s_any_string); ("tags", s_any);
       ("click", s_optional (s_passthrough [("link", s_optional s_any_string)]));
       ("bounce", s_optional (s_passthrough
          [("message", s_optional s_any_string); ("type", s_optional s_any_string); ("subType", s_optional s_any_string)]));
       ("failed", s_optional (s_passthrough [("reason", s_optional s_any_string)]))])].

Definition parseResendEvent (body : jsval) : option jsval := resendEventSchema body.

Record MappedLifecycle := mkMapped {
  ml_status : string; ml_failure_class : option string; ml_failure_detail : option string; ml_click_ref : option string }.

(** [s ? s.slice(0, 1024) : null] *)
Definition clip (v : jsval) : option string :=
  match v with JStr s => if String.eqb s "" then None else Some (js_take (String.length s) 1024 s) | _ => None end.

Definition bounce_detail (b : jsval) : jsval :=
  if is_nullish (prop b "message")
  then JStr (join "/" (List.filter (λ s, negb (String.eqb s "")) (omap opt_str [prop b "type"; prop b "subType"])))
  else prop b "message".

Definition mapResendEvent (event : jsval) : option MappedLifecycle :=
  let data := prop event "data" in
  let type := str_of (prop event "type") in
  let plain status := Some (mkMapped status None None None) in
  if String.eqb type "email.sent" then plain "sent"
  else if String.eqb type "email.delivered" then plain "delivered"
  else if String.eqb type "email.opened" then plain "opened"
  else if String.eqb type "email.clicked" then Some (mkMapped "clicked" None None (clip (prop (prop data "click") "link")))
  else if String.eqb type "email.bounced" then
    Some (mkMapped "bounced" (Some "invalid_target") (clip (bounce_detail (prop data "bounce"))) None)
  else if String.eqb type "email.complained" then Some (mkMapped "unsubscribed" None (Some "complained") None)
  else if String.eqb type "email.failed" then
    Some (mkMapped "failed" (Some "permanent_content") (clip (prop (prop data "failed") "reason")) None)
  else None.

(** [/^[0-9a-f]{8}-[0-9a-f]{4}-[0-9a-f]{4}-[0-9a-f]{4}-[0-9a-f]{12}$/i] *)
Definition hex_char (c : ascii) : bool :=
  is_digit c || ((97 <=? byte c) && (byte c <=? 102)) || ((65 <=? byte c) && (byte c <=? 70)).
Definition UUID_RE (s : string) : bool :=
  match split_on "-" s with
  | [a; b; c; d; e] =>
      bool_decide (map String.length [a; b; c; d; e] = [8; 4; 4; 4; 12]%nat)
      && forallb (str_forallb hex_char) [a; b; c; d; e]
  | _ => false
  end.

Definition tag_value (tags : jsval) : jsval :=
  match tags with
  | JArr l =>
      match List.find (λ t, match prop t "name" with JStr n => String.eqb n "nudgeon_message_id" | _ => false end) l with
      | Some t => prop t "value"
      | None => JUndef
      end
  | _ => prop tags "nudgeon_message_id"
  end.
Definition extractMessageId (tags : jsval) : option string :=
  match tag_value tags with JStr s => if UUID_RE s then Some (to_lower s) else None | _ => None end.

Definition resolveOccurredAt (env : Env) (event : jsval) : string :=
  let candidate v := match v with JStr s => if String.eqb s "" then None else Date_parse env s | _ => None end in
  match candidate (prop (prop event "data") "created_at") with
  | Some ms => toISOString env ms
  | None => match candidate (prop event "created_at") with
            | Some ms => toISOString env ms
            | None => toISOString env (Date_now env)
            end
  end.
End Service.

(** ** The controller *)

Definition RESEND_CONNECTOR_ID : string := "email_resend".
Definition STREAMS_messageLifecycle : string := "stream:message.lifecycle".

Record Request := mkRequest { rq_rawBody : option bytes; rq_body : jsval; rq_headers : Headers }.

Inductive Reply :=
| InvalidEvent | Ignored (type : string) | MessageUnresolved | AcceptedEvent (status : string).

Section Controller.
Context `{Hmac256} `{Crypto}.
(** the look-up of ClickHouse's message log *)
Context (message_log : string → string → string → option string).
Context (env : Env).

(** [loadCredential]: the tenant and the secret of the app's credential *)
Definition loadCredential (appId : string) : W (string * string) :=
  w ← get;
  row ← some_or_throw (select1 (credential_at appId "email_resend") (credentials w))
          (UnauthorizedException "이 앱에는 Resend(email_resend) 크리덴셜이 없습니다");
  payload ← some_or_throw
    (key ← match master_key env with Ok k => Some k | Throw _ => None end;
     plain ← decryptEnvelope key (cr_sealed row);
     v ← JSON_parse plain;
     if is_nullish v then None else Some v)
    (UnauthorizedException "Resend 크리덴셜을 복호화할 수 없습니다");
  match prop payload "webhook_secret" with
  | JStr secret =>
      _ ← throw_if (String.eqb secret "") (UnauthorizedException "webhook_secret이 등록되지 않았습니다");
      mret (cr_tenant row, secret)
  | _ => throw (UnauthorizedException "webhook_secret이 등록되지 않았습니다")
  end.

Definition lifecycle_payload (messageId occurredAt : string) (provider : option string) (m : MappedLifecycle) : jsval :=
  JObj [("message_id", JStr messageId); ("status", JStr (ml_status m)); ("occurred_at", JStr occurredAt);
        ("source", JStr "provider_callback"); ("channel", JStr "email"); ("connector_id", JStr RESEND_CONNECTOR_ID);
        ("provider_message_id", json_opt provider); ("user_id", JNull); ("endpoint_id", JNull);
        ("failure_class", json_opt (ml_failure_class m)); ("failure_detail", json_opt (ml_failure_detail m));
        ("fallback_index", JNum (NInt 0)); ("attempt", JNull); ("cost", JNull); ("click_ref", json_opt (ml_click_ref m))].

Definition raw_of (req : Request) : option bytes :=
  match rq_rawBody req with
  | Some b => Some b
  | None => match rq_body req with JStr s => Some (bytes_of_string s) | _ => None end
  end.

(** what an event says: its message, and what is published of it *)
Definition event_message (tenantId appId : string) (event : jsval) : option string :=
  match extractMessageId (prop (prop event "data") "tags") with
  | Some id => Some id
  | None =>
      match opt_str (prop (prop event "data") "email_id") with
      | Some pid => if String.eqb pid "" then None else message_log tenantId appId pid
      | None => None
      end
  end.
Definition lifecycle_message (tenantId appId messageId : string) (event : jsval) (mapped : MappedLifecycle) : QueueMessage :=
  let occurredAt := resolveOccurredAt env event in
  mkMessage STREAMS_messageLifecycle "message.lifecycle" tenantId appId (default (Date_now env) (Date_parse env occurredAt))
    (lifecycle_payload messageId occurredAt (opt_str (prop (prop event "data") "email_id")) mapped).

Definition receive_webhook (appId : string) (req : Request) : W Reply :=
  rawBody ← some_or_throw (raw_of req) (HttpException 500 "웹훅 원문 본문(rawBody)을 사용할 수 없습니다");
  '(tenantId, webhookSecret) ← loadCredential appId;
  _ ← match verifySvixSignature webhookSecret (rq_headers req) rawBody (Date_now env) with
      | SvixOk => mret tt
      | SvixFailed reason => throw (UnauthorizedException ("Resend 웹훅 서명 검증 실패: " +:+ reason))
      end;
  body ← (if is_nullish (rq_body req)
          then some_or_throw (JSON_parse (string_of_bytes rawBody)) (PlainError "SyntaxError")
          else mret (rq_body req));
  match parseResendEvent body with
  | None => mret InvalidEvent
  | Some event =>
      match mapResendEvent event with
      | None => mret (Ignored (str_of (prop event "type")))
      | Some mapped =>
          match event_message tenantId appId event with
          | None => mret MessageUnresolved
          | Some messageId =>
              _ ← publish env (lifecycle_message tenantId appId messageId event mapped);
              mret (AcceptedEvent (ml_status mapped))
          end
      end
  end.
End Controller.
