(* ===== verification/Alimtalk.v ===== *)
(** * Alimtalk: senders, templates, connectors, catalogue

    [alimtalk/senders.controller.ts], [alimtalk/templates.controller.ts],
    [alimtalk/connectors.controller.ts] with the helpers of [alimtalk/scope.ts]
    ([ChannelDb.assertApp], [ChannelDb.parse]), and
    [connectors/catalog.controller.ts].  Path ids are UUIDs ([ParseUUIDPipe]). *)

From Stdlib Require Import Ascii QArith.
From stdpp Require Import sorting.
From S2P Require Import Prelude JsVal Crypto BranchCondition Json JsonParse Schema Authz AuthDb ChannelDb.

#[global] Open Scope Z_scope.

Section Alimtalk.
Context `{Zod}.
Context (env : Env) (member : SessionMember).

(** ** Senders *)

Definition createSchema : Schema := s_object false
  [("sender_key", s_trimmed 1 256); ("channel_name", s_default (s_trimmed 0 128) (JStr ""));
   ("status", s_default (s_enum ["active"; "disabled"]) (JStr "active"));
   ("is_default", s_default s_bool (JBool false))].
(** [createSchema.partial().omit({ sender_key: true })] *)
Definition updateSchema : Schema := s_object false
  [("channel_name", s_optional (s_trimmed 0 128)); ("status", s_optional (s_enum ["active"; "disabled"]));
   ("is_default", s_optional s_bool)].

Definition sender_scope (appId : string) (s : Sender) : bool := scoped member appId (sd_tenant s) (sd_app s).

(** [ORDER BY is_default DESC, created_at] *)
Definition default_first (a b : Sender) : Prop :=
  (sd_is_default a = true ∧ sd_is_default b = false)
  ∨ (sd_is_default a = sd_is_default b ∧ sd_created_at a <= sd_created_at b).
#[global] Instance default_first_dec a b : Decision (default_first a b).
Proof. unfold default_first. apply _. Defined.

Definition list_senders (appId : string) : W (list Sender) :=
  _ ← permitted member journeys_read;
  _ ← assertApp member appId;
  w ← get;
  mret (merge_sort default_first (select (sender_scope appId) (senders w))).

Definition DUP : exn := BadRequestException "이미 등록된 발신프로필 키입니다".
Definition sender_missing : exn := NotFoundException "발신프로필을 찾을 수 없습니다".

(** the statement that takes the default away from the app's senders *)
Definition clear_default (appId : string) : W unit :=
  modify (λ w, set_senders (update_where (λ s, sender_scope appId s && sd_is_default s)
    (λ s, mkSender (sd_id s) (sd_tenant s) (sd_app s) (sd_sender_key s) (sd_channel_name s) (sd_status s) false
            (sd_created_at s) (pg_now env)) (senders w)) w).

Definition inDefaultTx (appId : string) (becomesDefault : bool) (write : W (option Sender)) : W Sender :=
  transaction (
    _ ← (if becomesDefault then clear_default appId else mret tt);
    row ← write;
    some_or_throw row sender_missing).

(** the primary key and [UNIQUE (app_id, sender_key)], through [mapUnique(DUP)] *)
Definition insert_sender (s : Sender) : W (option Sender) :=
  w ← get;
  _ ← throw_if (existsb (λ x, String.eqb (sd_id x) (sd_id s)
        || String.eqb (sd_app x) (sd_app s) && String.eqb (sd_sender_key x) (sd_sender_key s)) (senders w)) DUP;
  _ ← modify (λ w, set_senders (senders w ++ [s]) w);
  mret (Some s).

Definition create (appId : string) (body : jsval) : W Sender :=
  _ ← permitted member journeys_write;
  _ ← assertApp member appId;
  data ← parse (createSchema body);
  row ← inDefaultTx appId (bool_of (prop data "is_default"))
    (insert_sender (mkSender (gen_uuid env 0) (sm_tenantId member) appId (str_of (prop data "sender_key"))
       (str_of (prop data "channel_name")) (str_of (prop data "status")) (bool_of (prop data "is_default"))
       (pg_now env) (pg_now env)));
  _ ← recordAs env member "alimtalk_sender.create" "alimtalk_sender" (sd_id row)
        [("app_id", JStr appId); ("sender_key", prop data "sender_key")];
  mret row.

Definition sender_at (appId id : string) (s : Sender) : bool := sender_scope appId s && String.eqb (sd_id s) id.

(** [COALESCE($n, column)] *)
Definition update_row (data : jsval) (s : Sender) : Sender :=
  mkSender (sd_id s) (sd_tenant s) (sd_app s) (sd_sender_key s)
    (default (sd_channel_name s) (opt_str (prop data "channel_name")))
    (default (sd_status s) (opt_str (prop data "status")))
    (match prop data "is_default" with JBool b => b | _ => sd_is_default s end)
    (sd_created_at s) (pg_now env).
Definition update_sender (appId id : string) (data : jsval) : W (option Sender) :=
  _ ← modify (λ w, set_senders (update_where (sender_at appId id) (update_row data) (senders w)) w);
  w ← get;
  mret (select1 (sender_at appId id) (senders w)).

Definition update (appId id : string) (body : jsval) : W Sender :=
  _ ← permitted member journeys_write;
  _ ← assertApp member appId;
  data ← parse (updateSchema body);
  row ← inDefaultTx appId (bool_of (prop data "is_default")) (update_sender appId id data);
  _ ← recordAs env member "alimtalk_sender.update" "alimtalk_sender" id [("app_id", JStr appId)];
  mret row.

(** [DELETE], with the cascade to the cached templates *)
Definition remove_sender (appId id : string) : W unit :=
  _ ← permitted member journeys_write;
  _ ← assertApp member appId;
  w ← get;
  let gone := select (sender_at appId id) (senders w) in
  _ ← modify (λ w, set_alimtalk_templates (delete_where (λ t, String_in (tp_sender t) (map sd_id gone)) (alimtalk_templates w))
                     (set_senders (delete_where (sender_at appId id) (senders w)) w));
  _ ← throw_if (row_count (sender_at appId id) (senders w) =? 0) sender_missing;
  recordAs env member "alimtalk_sender.delete" "alimtalk_sender" id [("app_id", JStr appId)].

(** ** Templates *)

Definition ALIMTALK_CHANNEL : string := "kakao_alimtalk".
Definition ALIMTALK_CREDENTIAL_KIND : string := "alimtalk".
Definition STREAMS_alimtalkTemplateSync : string := "stream:alimtalk.template.sync".

Definition senderQuerySchema : Schema := s_object false [("sender_id", s_optional (s_check (string_check zod_uuid)))].
(** [query ?? {}] *)
Definition or_empty (v : jsval) : jsval := if is_nullish v then JObj [] else v.

(** [ORDER BY template_code], in the database's collation *)
Definition list_templates (collate : string → string → bool) (appId : string) (query : jsval) : W (list AlimtalkTemplate) :=
  _ ← permitted member journeys_read;
  _ ← assertApp member appId;
  q ← parse (senderQuerySchema (or_empty query));
  w ← get;
  mret (merge_sort (λ a b, Is_true (collate (tp_code a) (tp_code b)))
    (select (λ t, scoped member appId (tp_tenant t) (tp_app t)
       && match opt_str (prop q "sender_id") with Some s => String.eqb (tp_sender t) s | None => true end)
       (alimtalk_templates w))).

Definition pickSender (appId : string) (requested : option string) : W Sender :=
  w ← get;
  let rows := merge_sort default_first (select (λ s, sender_scope appId s
      && match requested with Some id => String.eqb (sd_id s) id | None => true end) (senders w)) in
  match requested with
  | Some _ => some_or_throw (head rows) (BadRequestException "지정한 발신프로필(sender_id)이 이 앱에 없습니다")
  | None =>
      first ← some_or_throw (head rows) (BadRequestException "동기화할 발신프로필이 없습니다");
      if sd_is_default first || Nat.eqb (length rows) 1 then mret first
      else throw (BadRequestException "발신프로필이 여러 개입니다")
  end.

Definition assertWired (appId : string) : W string :=
  w ← get;
  wired ← some_or_throw (select1 (λ c, scoped member appId (cn_tenant c) (cn_app c) && String.eqb (cn_channel c) ALIMTALK_CHANNEL)
             (connectors w)) (BadRequestException "알림톡 커넥터 배선이 없습니다");
  _ ← throw_if (negb (cn_enabled wired)) (BadRequestException "알림톡 커넥터 배선이 비활성 상태입니다");
  cred ← some_or_throw (select1 (λ c, scoped member appId (cr_tenant c) (cr_app c) && String.eqb (cr_kind c) ALIMTALK_CREDENTIAL_KIND)
             (credentials w)) (BadRequestException "알림톡 크리덴셜이 등록되지 않았습니다");
  _ ← throw_if (negb (bool_decide (cr_status cred = verified))) (BadRequestException "알림톡 크리덴셜이 아직 검증되지 않았습니다");
  mret (cn_connector_id wired).

Definition sync_payload (appId : string) (sender : Sender) (connectorId : string) : jsval :=
  JObj [("app_id", JStr appId); ("sender_id", JStr (sd_id sender)); ("sender_key", JStr (sd_sender_key sender));
        ("connector_id", JStr connectorId); ("requested_by", JStr (sm_memberId member));
        ("requested_at", JStr (toISOString env (Date_now env)))].

Definition sync (appId : string) (body : jsval) : W string :=
  _ ← permitted member journeys_write;
  _ ← assertApp member appId;
  q ← parse (senderQuerySchema (or_empty body));
  sender ← pickSender appId (opt_str (prop q "sender_id"));
  connectorId ← assertWired appId;
  _ ← publish env (mkMessage STREAMS_alimtalkTemplateSync "alimtalk.template.sync" (sm_tenantId member) appId (Date_now env)
        (sync_payload appId sender connectorId));
  _ ← recordAs env member "alimtalk_template.sync" "alimtalk_sender" (sd_id sender)
        [("app_id", JStr appId); ("connector_id", JStr connectorId)];
  mret (sd_id sender).

(** ** Connectors *)

Definition connectorSchema : Schema := s_object false
  [("connector_id", s_check (string_check CHANNEL_RE)); ("config", s_default (s_record s_any) (JObj []));
   ("enabled", s_default s_bool (JBool true))].

Definition get_connector (appId channel : string) : W Connector :=
  _ ← assertApp member appId;
  w ← get;
  some_or_throw (select1 (λ c, scoped member appId (cn_tenant c) (cn_app c) && String.eqb (cn_channel c) channel) (connectors w))
    (NotFoundException "배선된 커넥터가 없습니다").

(** [INSERT ... ON CONFLICT (app_id, channel) DO UPDATE ... RETURNING] *)
Definition put_connector (appId channel : string) (data : jsval) : W (option Connector) :=
  w ← get;
  let at_channel c := String.eqb (cn_app c) appId && String.eqb (cn_channel c) channel in
  let connector_id := str_of (prop data "connector_id") in
  let enabled := bool_of (prop data "enabled") in
  match select1 at_channel (connectors w) with
  | Some old =>
      _ ← modify (λ w, set_connectors (update_where at_channel (λ c,
            mkConnector (cn_id c) (cn_tenant c) (cn_app c) (cn_channel c) connector_id (prop data "config") enabled)
            (connectors w)) w);
      w ← get;
      mret (select1 at_channel (connectors w))
  | None =>
      let row := mkConnector (gen_uuid env 0) (sm_tenantId member) appId channel connector_id (prop data "config") enabled in
      _ ← throw_if (existsb (λ c, String.eqb (cn_id c) (cn_id row)) (connectors w)) unique_violation;
      _ ← modify (λ w, set_connectors (connectors w ++ [row]) w);
      mret (Some row)
  end.

Definition upsert_connector (appId channel : string) (body : jsval) : W (option Connector) :=
  _ ← assertApp member appId;
  _ ← throw_if (negb (CHANNEL_RE channel)) (NotFoundException "알 수 없는 채널입니다");
  _ ← assertAdmin member "커넥터 배선은 Owner/Admin만 변경할 수 있습니다";
  data ← parse (connectorSchema body);
  row ← put_connector appId channel data;
  _ ← recordAs env member "channel_connector.upsert" "channel_connector" (appId +:+ ":" +:+ channel)
        [("app_id", JStr appId); ("channel", JStr channel); ("connector_id", prop data "connector_id"); ("enabled", prop data "enabled")];
  mret row.
End Alimtalk.

(** ** The catalogue of connectors *)

Record CatalogEntry := mkEntry {
  ce_id : jsval; ce_name : jsval; ce_description : jsval; ce_version : jsval; ce_channel : jsval;
  ce_vendor_name : jsval; ce_vendor_url : jsval; ce_vendor_support : jsval; ce_tier : jsval; ce_runtime : string;
  ce_credentials_schema : jsval; ce_config_schema : jsval; ce_capabilities : jsval; ce_reports : jsval;
  ce_callback_path : jsval; ce_compliance : jsval; ce_cost : jsval }.

(** [a ?? b] *)
Definition coalesce (a b : jsval) : jsval := if is_nullish a then b else a.

Definition toEntry (raw : jsval) : option CatalogEntry :=
  if forallb truthy [prop raw "id"; prop raw "name"; prop raw "version"; prop raw "channel"; prop (prop raw "credentials") "schema"]
  then
    match prop (prop raw "runtime") "type" with
    | JStr runtime =>
        if String_in runtime ["in_process_go"; "remote_http"] then
          Some (mkEntry (prop raw "id") (prop raw "name") (prop raw "description") (prop raw "version") (prop raw "channel")
            (coalesce (prop (prop raw "vendor") "name") (JStr "")) (prop (prop raw "vendor") "url")
            (prop (prop raw "vendor") "support") (prop raw "tier") runtime
            (prop (prop raw "credentials") "schema") (prop (prop raw "config") "schema")
            (coalesce (prop raw "capabilities") (JObj [])) (coalesce (prop (prop raw "lifecycle") "reports") (JArr []))
            (prop (prop (prop raw "lifecycle") "callback") "path") (prop raw "compliance") (prop raw "cost"))
        else None
    | _ => None
    end
  else None.

Definition name_le (a b : string) : Prop := Is_true (String.leb a b).
#[global] Instance name_le_dec a b : Decision (name_le a b).
Proof. unfold name_le. apply _. Defined.

(** [readdir]: the names of the directory, if it can be read; [readFile]: a text *)
Definition loadCatalog (readdir : option (list string)) (readFile : string → option string) : list CatalogEntry :=
  match readdir with
  | None => []
  | Some names =>
      omap (λ name, text ← readFile name; raw ← JSON_parse text; toEntry raw)
        (merge_sort name_le (List.filter (ends_with ".json") names))
  end.

Definition list_connectors (readdir : option (list string)) (readFile : string → option string) (channel : option string)
    : list CatalogEntry :=
  let all := loadCatalog readdir readFile in
  match channel with
  | Some c => if String.eqb c "" then all
              else List.filter (λ e, match ce_channel e with JStr x => String.eqb x c | _ => false end) all
  | None => all
  end.
