(* ===== verification/EmailTemplates.v ===== *)
(** * E-mail templates and test e-mails

    [util/template.ts] (the substitution of [{{ key }}]),
    [email/email-templates.controller.ts] and
    [email/test-email.controller.ts]. *)

From Stdlib Require Import Ascii QArith.
From stdpp Require Import sorting.
From S2P Require Import Prelude JsVal Crypto BranchCondition Json JsonParse Schema Authz AuthDb ChannelDb Credentials.

#[global] Open Scope Z_scope.

(** ** [renderTemplate] *)

Definition word (c : ascii) : bool := is_lower c || is_upper c || is_digit c || Ascii.eqb c "_".
Fixpoint take_word (s : string) : string * string :=
  match s with
  | String c s' => if word c then let '(k, r) := take_word s' in (String c k, r) else (EmptyString, s)
  | EmptyString => (EmptyString, EmptyString)
  end.
(** [VAR = /\{\{\s*([a-zA-Z0-9_]+)\s*\}\}/] at the front of [s]: the key and the rest *)
Definition match_var (s : string) : option (string * string) :=
  s ← strip "{{" s;
  let '(key, r) := take_word (trim_start s) in
  if String.eqb key "" then None else r ← strip "}}" (trim_start r); Some (key, r).

(** What every object inherits from [Object.prototype], as text *)
Definition native (f : string) : string := "function " +:+ f +:+ "() { [native code] }".
Definition inherited_text : list (string * string) :=
  ("constructor", native "Object") :: ("__proto__", "[object Object]")
  :: map (λ f, (f, native f))
       ["hasOwnProperty"; "isPrototypeOf"; "propertyIsEnumerable"; "toLocaleString"; "toString"; "valueOf";
        "__defineGetter__"; "__defineSetter__"; "__lookupGetter__"; "__lookupSetter__"].

Section Render.
Context (fmt : Q → string).

(** [String(v)]; [None] for the [TypeError] of an object whose own [toString] hides the inherited one *)
Fixpoint js_text (v : jsval) : option string :=
  match v with
  | JUndef => Some "undefined"
  | JNull => Some "null"
  | JBool b => Some (if b then "true" else "false")
  | JNum n => Some (num_to_string fmt n)
  | JStr s => Some s
  | JArr l =>
      join "," <$> (fix go (l : list jsval) : option (list string) :=
        match l with
        | [] => Some []
        | x :: l => t ← (if is_nullish x then Some "" else js_text x); k ← go l; Some (t :: k)
        end) l
  | JObj fields => if JMap.has fields "toString" then None else Some "[object Object]"
  end.

Definition variable_text (vars : list (string * jsval)) (key : string) : option string :=
  match JMap.get vars key with
  | Some v => if is_nullish v then Some "" else js_text v
  | None => Some (default "" (JMap.get inherited_text key))
  end.

Fixpoint render (n : nat) (vars : list (string * jsval)) (s : string) : option string :=
  match n, s with
  | S n, String c s' =>
      match match_var s with
      | Some (key, r) => t ← variable_text vars key; u ← render n vars r; Some (t +:+ u)
      | None => u ← render n vars s'; Some (String c u)
      end
  | _, _ => Some EmptyString
  end.
Definition renderTemplate (tpl : string) (vars : list (string * jsval)) : option string :=
  render (String.length tpl) vars tpl.
End Render.

Section Email.
Context `{Zod} `{Host}.
Context (env : Env) (member : SessionMember).

Definition fields_of (v : jsval) : list (string * jsval) := match v with JObj f => f | _ => [] end.
(** the [TypeError] of [String(v)] *)
Definition rendered (tpl : string) (vars : jsval) : W string :=
  some_or_throw (renderTemplate number_format tpl (fields_of vars)) (PlainError "TypeError").

(** ** Templates *)

Definition upsertSchema : Schema := s_object false
  [("name", s_trimmed 1 200); ("subject", s_string 1 998); ("html", s_string 1 1000000)].
Definition previewSchema : Schema := s_object false
  [("subject", s_optional (s_max 998)); ("html", s_max 1000000); ("variables", s_default (s_record s_any) (JObj []))].

Definition template_scope (appId : string) (t : EmailTemplate) : bool := scoped member appId (em_tenant t) (em_app t).
Definition template_at (appId id : string) (t : EmailTemplate) : bool := template_scope appId t && String.eqb (em_id t) id.
Definition template_missing : exn := NotFoundException "템플릿을 찾을 수 없습니다".
Definition same_template_name : exn := BadRequestException "이미 같은 이름의 템플릿이 있습니다".

Definition newest_first (a b : EmailTemplate) : Prop := em_updated_at b <= em_updated_at a.
#[global] Instance newest_first_dec a b : Decision (newest_first a b).
Proof. unfold newest_first. apply _. Defined.

Definition list_emails (appId : string) : W (list EmailTemplate) :=
  _ ← permitted member journeys_read;
  _ ← assertApp member appId;
  w ← get;
  mret (merge_sort newest_first (select (template_scope appId) (email_templates w))).

Definition get_email (appId id : string) : W EmailTemplate :=
  _ ← permitted member journeys_read;
  _ ← assertApp member appId;
  w ← get;
  some_or_throw (select1 (template_at appId id) (email_templates w)) template_missing.

(** the primary key and [UNIQUE (app_id, name)] *)
Definition insert_email (t : EmailTemplate) : W unit :=
  w ← get;
  _ ← throw_if (existsb (λ x, String.eqb (em_id x) (em_id t)
        || String.eqb (em_app x) (em_app t) && String.eqb (em_name x) (em_name t)) (email_templates w)) same_template_name;
  modify (λ w, set_email_templates (email_templates w ++ [t]) w).

Definition create_email (appId : string) (body : jsval) : W string :=
  _ ← permitted member journeys_write;
  _ ← assertApp member appId;
  data ← parse (upsertSchema body);
  let id := gen_uuid env 0 in
  _ ← insert_email (mkEmail id (sm_tenantId member) appId (str_of (prop data "name")) (str_of (prop data "subject"))
        (str_of (prop data "html")) (sm_memberId member) (pg_now env));
  _ ← recordAs env member "email_template.create" "email_template" id [("name", prop data "name")];
  mret id.

Definition update_email (appId id : string) (body : jsval) : W unit :=
  _ ← permitted member journeys_write;
  _ ← assertApp member appId;
  data ← parse (upsertSchema body);
  w ← get;
  let name := str_of (prop data "name") in
  let hit := row_count (template_at appId id) (email_templates w) in
  _ ← throw_if ((0 <? hit) && existsb (λ x, String.eqb (em_app x) appId && String.eqb (em_name x) name
        && negb (String.eqb (em_id x) id)) (email_templates w)) same_template_name;
  _ ← modify (λ w, set_email_templates (update_where (template_at appId id) (λ t,
        mkEmail (em_id t) (em_tenant t) (em_app t) name (str_of (prop data "subject")) (str_of (prop data "html"))
          (em_created_by t) (pg_now env)) (email_templates w)) w);
  _ ← throw_if (hit =? 0) template_missing;
  recordAs env member "email_template.update" "email_template" id [].

Definition remove_email (appId id : string) : W unit :=
  _ ← permitted member journeys_write;
  _ ← assertApp member appId;
  w ← get;
  _ ← modify (λ w, set_email_templates (delete_where (template_at appId id) (email_templates w)) w);
  _ ← throw_if (row_count (template_at appId id) (email_templates w) =? 0) template_missing;
  recordAs env member "email_template.delete" "email_template" id [].

(** the subject, where one is given, and the HTML *)
Definition preview (appId : string) (body : jsval) : W (option string * string) :=
  _ ← permitted member journeys_read;
  _ ← assertApp member appId;
  data ← parse (previewSchema body);
  let vars := prop data "variables" in
  subject ← match opt_str (prop data "subject") with
            | Some s => if String.eqb s "" then mret None else t ← rendered s vars; mret (Some t)
            | None => mret None
            end;
  html ← rendered (str_of (prop data "html")) vars;
  mret (subject, html).

(** ** Test e-mails *)

Definition email_content (v : jsval) : bool :=
  truthy (prop v "template_id") || truthy (prop v "subject") && truthy (prop v "html").
Definition testEmailSchema : Schema := s_refine (s_object false
  [("to_email", s_email); ("template_id", s_optional (s_check (string_check zod_uuid)));
   ("subject", s_optional (s_string 1 998)); ("html", s_optional (s_string 1 1000000));
   ("provider", s_optional (s_enum ["email_smtp"; "email_nhn"; "email_resend"]));
   ("variables", s_default (s_record s_any) (JObj []))]) email_content.

Definition STREAMS_sendEmail : string := "stream:send.email".

Definition send_email_payload (data : jsval) (subject html testRunId messageId : string) : jsval :=
  JObj ([("idempotency_key", JStr ("test:" +:+ testRunId)); ("message_id", JStr messageId); ("email", prop data "to_email")]
    ++ (if truthy (prop data "provider") then [("provider", prop data "provider")] else [])
    ++ [("content", JObj [("email", JObj [("subject", JStr subject); ("html", JStr html)])]);
        ("category", JStr "transactional"); ("campaign_ref", JStr ("test:" +:+ testRunId))]).

(** the subject and the HTML to render *)
Definition content_of (appId : string) (data : jsval) : W (string * string) :=
  match opt_str (prop data "template_id") with
  | Some id =>
      if String.eqb id "" then mret (str_of (prop data "subject"), str_of (prop data "html"))
      else
        w ← get;
        t ← some_or_throw (select1 (template_at appId id) (email_templates w)) template_missing;
        mret (em_subject t, em_html t)
  | None => mret (str_of (prop data "subject"), str_of (prop data "html"))
  end.

Definition testEmail (appId : string) (body : jsval) : W string :=
  _ ← permitted member journeys_activate;
  _ ← assertApp member appId;
  data ← parse (testEmailSchema body);
  '(subjectTpl, htmlTpl) ← content_of appId data;
  subject ← rendered subjectTpl (prop data "variables");
  html ← rendered htmlTpl (prop data "variables");
  let testRunId := gen_uuid env 0 in
  _ ← publish env (mkMessage STREAMS_sendEmail "send.email" (sm_tenantId member) appId (Date_now env)
        (send_email_payload data subject html testRunId (gen_uuid env 1)));
  mret testRunId.
End Email.

Example render_plain : renderTemplate (λ _, "") "Hi {{ name }}, {{missing}}{{ x }!" [("name", JStr "Mina")] = Some "Hi Mina, {{ x }!".
Proof. reflexivity. Qed.
