(* ===== verification/DataApi.v ===== *)
(** * Data and app settings

    [data/data.controller.ts] (the attribute dictionary and the view of ingestion
    errors) and [apps/app-settings.controller.ts]. *)

From Stdlib Require Import Ascii QArith.
From stdpp Require Import sorting.
From S2P Require Import Prelude JsVal JsNumber Crypto BranchCondition Json Schema Authz AuthDb ChannelDb JsonParse.

#[global] Open Scope Z_scope.

(** ** PostgreSQL *)

(** [text LIKE pattern]: [%] any text, [_] any character (here: byte), [\] quotes *)
Fixpoint like (p : string) : string → bool :=
  match p with
  | EmptyString => λ s, String.eqb s ""
  | String c p' =>
      if Ascii.eqb c "%" then
        let rest := like p' in
        fix go (s : string) : bool := rest s || match s with String _ s' => go s' | EmptyString => false end
      else λ s,
        match s with
        | EmptyString => false
        | String x s' =>
            if Ascii.eqb c "_" then like p' s'
            else if Ascii.eqb c "\" then
              match p' with String e p'' => Ascii.eqb e x && like p'' s' | EmptyString => false end
            else Ascii.eqb c x && like p' s'
        end
  end.

Section Jsonb.
(** how [numeric] is printed *)
Context (numeric_text : Q → string).

(** [definition::text] of a [jsonb] column: a space follows every colon and comma *)
Fixpoint jsonb_text (v : jsval) : string :=
  match v with
  | JUndef | JNull => "null"
  | JBool b => if b then "true" else "false"
  | JNum (NFin q) => numeric_text q
  | JNum _ => "null"
  | JStr s => json_quote s
  | JArr l => "[" +:+ join ", " (map jsonb_text l) +:+ "]"
  | JObj fields => "{" +:+ join ", " (map (λ p, json_quote (fst p) +:+ ": " +:+ jsonb_text (snd p)) fields) +:+ "}"
  end.

(** ** The attribute dictionary *)

Context (env : Env) (member : SessionMember).

(** in the order of the keys ([String.leb] stands for the collation) *)
Definition key_le (a b : Attribute) : Prop := Is_true (String.leb (at_key a) (at_key b)).
#[global] Instance key_le_dec a b : Decision (key_le a b).
Proof. unfold key_le. apply _. Defined.
Definition list_attributes (appId : string) : W (list Attribute) :=
  _ ← assertApp member appId;
  w ← get;
  mret (merge_sort key_le (select (λ a, scoped member appId (at_tenant a) (at_app a)) (attributes w))).

(** [`%"key":"${key}"%`] *)
Definition dquote : string := String "034" EmptyString.
Definition key_pattern (key : string) : string :=
  "%" +:+ dquote +:+ "key" +:+ dquote +:+ ":" +:+ dquote +:+ key +:+ dquote +:+ "%".
Definition referencing (appId key : string) (s : SegmentRow) : bool :=
  scoped member appId (sg_tenant s) (sg_app s) && like (key_pattern key) (jsonb_text (sg_definition s)).

Inductive Deletion := Deleted | Referenced (segments : list (string * string)).

Definition deleteAttribute (appId key : string) (force : option string) : W Deletion :=
  _ ← assertApp member appId;
  _ ← throw_if (negb (String_in (sm_role member) ["owner"; "admin"; "editor"]))
        (ForbiddenException "속성 삭제는 Editor 이상만 가능합니다");
  w ← get;
  let segs := select (referencing appId key) (segments w) in
  if (0 <? Z.of_nat (length segs)) && negb (bool_decide (force = Some "true")) then
    mret (Referenced (map (λ s, (sg_id s, sg_name s)) segs))
  else
    let p a := String.eqb (at_app a) appId && String.eqb (at_key a) key in
    _ ← modify (λ w, set_attributes (delete_where p (attributes w)) w);
    _ ← throw_if (row_count p (attributes w) =? 0) (NotFoundException "속성을 찾을 수 없습니다");
    _ ← recordAs env member "attribute.delete" "attribute" (appId +:+ ":" +:+ key)
          [("app_id", JStr appId); ("key", JStr key); ("forced", JBool (bool_decide (force = Some "true")))];
    mret Deleted.
End Jsonb.

(** ** Ingestion errors

    The rows are those of the table in ClickHouse.  The alias [received_at] also
    names the column in [ORDER BY]: rows are in the order of the printed time. *)

Section IngestionErrors.
Context (formatDateTime : Z → string → string) (member : SessionMember).

(** [ie_shown]: the columns that are only shown *)
Record IngestionError := mkIngestionError { ie_tenant : string; ie_app : string; ie_received_at : Z; ie_shown : jsval }.

Definition RECEIVED_FORMAT : string := "%Y-%m-%dT%H:%M:%S".
Definition received (e : IngestionError) : string := formatDateTime (ie_received_at e) RECEIVED_FORMAT.
Definition received_desc (a b : IngestionError) : Prop := Is_true (String.leb (received b) (received a)).
#[global] Instance received_desc_dec a b : Decision (received_desc a b).
Proof. unfold received_desc. apply _. Defined.

(** [Math.min(Number(limit) || 100, 500)] *)
Definition at_most_500 (limit : option string) : num :=
  let n := Number_of limit in
  let n := if truthy (JNum n) then n else NInt 100 in
  if num_ltb (NInt 500) n then NInt 500 else n.

Definition ingestionErrors (rows : list IngestionError) (appId : string) (limit : option string) : W (list (string * IngestionError)) :=
  _ ← assertApp member appId;
  let max := at_most_500 limit in
  (* [LIMIT] takes a natural number *)
  _ ← throw_if (negb (Number_isInteger max && num_leb (NInt 0) max)) (PlainError "ClickHouseError: INVALID_LIMIT_EXPRESSION");
  let own := select (λ e, scoped member appId (ie_tenant e) (ie_app e)) rows in
  mret (map (λ e, (received e, e)) (take (Z.to_nat (num_to_Z max)) (merge_sort received_desc own))).

(** The view changes nothing and shows at most 500 of the app's own errors, to
    members of its tenant. *)
Lemma errors_of_own_app rows appId limit w es w' :
  ingestionErrors rows appId limit w = (Ok es, w') →
  w' = w ∧ (length es <= 500)%nat
  ∧ (∃ a, In a (app_rows w) ∧ aw_id a = appId ∧ aw_tenant a = sm_tenantId member)
  ∧ ∀ t e, In (t, e) es → In e rows ∧ ie_tenant e = sm_tenantId member ∧ ie_app e = appId ∧ t = received e.
Proof.
  intros (u&w1&[-> Happ]%assertApp_ok&H)%bind_ok. cbv zeta in H.
  apply bind_ok in H as (u'&w1&[[Hi _]%negb_false_iff%andb_true_iff ->]%throw_if_ok&[= <- <-]).
  split; [done|]. split; [|split; [done|]].
  - assert (num_to_Z (at_most_500 limit) <= 500); [|rewrite length_map, length_take; lia].
    revert Hi. unfold at_most_500. set (m := if truthy _ then _ else _). clearbody m. cbv zeta.
    destruct (num_ltb (NInt 500) m) eqn:E; [done|]. intros Hi. rewrite num_gtb_int in E by done. lia.
  - intros t e [x [[= <- <-] Hin]]%in_map_iff.
    match type of Hin with In _ (take ?n ?l) => assert (In x l) as Hl by (rewrite <- (take_drop n l); apply in_or_app; by left) end.
    apply list_elem_of_In in Hl. rewrite merge_sort_Permutation in Hl. apply list_elem_of_In, select_In in Hl as [Hr Hs].
    unfold scoped in Hs. b2p. done.
Qed.
End IngestionErrors.

(** ** App settings *)

Section Settings.
Context `{Host} (env : Env) (member : SessionMember).

(** [/^([01]\d|2[0-3]):[0-5]\d$/] *)
Definition HHMM (s : string) : bool := bool_decide (hhmm s = Some "").

Definition settingsSchema : Schema := s_object false
  [("timezone", s_string 1 64);
   ("quiet_hours", s_object false
      [("enabled", s_bool); ("start", s_check (string_check HHMM)); ("end", s_check (string_check HHMM));
       ("policy", s_enum ["delay_until_open"; "skip"])]);
   ("frequency_cap", s_object false [("enabled", s_bool); ("max_per_24h", s_integer 1 100)])].

Definition app_at (appId : string) (a : AppRow) : bool :=
  String.eqb (aw_id a) appId && String.eqb (aw_tenant a) (sm_tenantId member).

Definition get_settings (appId : string) : W AppRow :=
  w ← get; some_or_throw (select1 (app_at appId) (app_rows w)) app_not_found.

Definition update_settings (appId : string) (body : jsval) : W unit :=
  _ ← assertAdmin member "앱 설정은 Owner/Admin만 변경할 수 있습니다";
  _ ← assertApp member appId;
  data ← parse (settingsSchema body);
  let timezone := str_of (prop data "timezone") in
  _ ← throw_if (negb (known_time_zone timezone)) (BadRequestException ("알 수 없는 시간대: " +:+ timezone));
  w ← get;
  _ ← modify (λ w, set_app_rows (update_where (app_at appId) (λ a,
        mkAppRow (aw_id a) (aw_tenant a) timezone (prop data "quiet_hours") (prop data "frequency_cap")) (app_rows w)) w);
  throw_if (row_count (app_at appId) (app_rows w) =? 0) app_not_found.
End Settings.

(** ** The attribute dictionary: what its reference check sees

    [deleteAttribute] looks for ["key":"name"] in the text of the segments'
    definitions, but PostgreSQL prints [jsonb] with a space after every colon:
    the text never contains the pattern, and no reference is ever found. *)
Lemma contains_cons p c s : str_contains p (String c s) = starts_with p (String c s) || str_contains p s.
Proof. done. Qed.

(** ** [LIKE] *)

Definition special (c : ascii) : bool := Ascii.eqb c "%" || Ascii.eqb c "_" || Ascii.eqb c "\".

Lemma like_literal (lit p s : string) :
  str_forallb (λ c, negb (special c)) lit = true → like (lit +:+ p) s = true → starts_with lit s = true.
Proof.
  revert s. induction lit as [|c lit IH]; intros s Hl; [by destruct s|]. rewrite str_app_cons.
  simpl in Hl. apply andb_true_iff in Hl as [Hc Hl]. apply negb_true_iff in Hc. unfold special in Hc.
  apply orb_false_iff in Hc as [Hc H3]. apply orb_false_iff in Hc as [H1 H2].
  cbn [like]. rewrite H1, H2, H3. destruct s as [|x s]; [done|]. intros [E%Ascii.eqb_eq Hs]%andb_true_iff. subst x.
  rewrite starts_with_cons, Ascii.eqb_refl. by apply IH.
Qed.

Lemma like_any (p s : string) : like (String "%" p) s = true → ∃ a b, s = a +:+ b ∧ like p b = true.
Proof.
  cbn [like]. change (Ascii.eqb "%" "%") with true. cbv iota. induction s as [|c s IH]; intros H.
  - apply orb_true_iff in H as [H|]; [|done]. by exists "", "".
  - apply orb_true_iff in H as [H|H]; [by exists "", (String c s)|]. destruct (IH H) as (a&b&->&Hb). by exists (String c a), b.
Qed.

(** ** The end of a key *)

(** the last four characters of the pattern: a key that ends in y, and its value *)
Definition key_end : string := "y" +:+ dquote +:+ ":" +:+ dquote.
Abbreviation occurs := (str_contains key_end).
Definition not_y (c : ascii) : bool := negb (Ascii.eqb c "y").
(** what may follow a string *)
Definition stop (s : string) : Prop := starts_with (":" +:+ dquote) s = false.

Lemma occurs_skip t rest : str_forallb not_y t = true → occurs (t +:+ rest) = occurs rest.
Proof.
  induction t as [|c t IH]; [done|]. rewrite str_app_cons. cbn [str_forallb]. intros [Hc Ht]%andb_true_iff.
  rewrite contains_cons, IH by done. unfold key_end. rewrite str_app_cons, starts_with_cons.
  unfold not_y in Hc. apply negb_true_iff in Hc. rewrite Ascii.eqb_sym in Hc. by rewrite Hc.
Qed.

Lemma escape_shape c :
  (c = "y"%char ∧ json_escape c = "y" ∨ str_forallb not_y (json_escape c) = true)
  ∧ ∃ x t, json_escape c = String x t ∧ x ≠ "034"%char.
Proof.
  destruct c as [[] [] [] [] [] [] [] []]; (split; [first [right; reflexivity|left; split; reflexivity]|eexists _, _; split; [reflexivity|discriminate]]).
Qed.

Lemma occurs_chars s rest :
  stop rest → occurs rest = false → occurs (json_chars s +:+ dquote +:+ rest) = false.
Proof.
  intros Hs Hr. induction s as [|c s IH].
  { change (json_chars "" +:+ dquote +:+ rest) with (dquote +:+ rest). by rewrite (occurs_skip dquote). }
  cbn [json_chars]. rewrite <- str_app_assoc. destruct (escape_shape c) as [[[-> ->]|Hc] _]; [|by rewrite occurs_skip].
  set (tail := json_chars s +:+ dquote +:+ rest) in *. change ("y" +:+ tail) with (String "y" tail).
  assert (starts_with (dquote +:+ ":" +:+ dquote) tail = false) as Ht.
  { unfold tail. destruct s as [|c s]; [exact Hs|]. cbn [json_chars]. rewrite <- str_app_assoc.
    destruct (escape_shape c) as [_ (x&t&->&Hx)]. unfold dquote. rewrite !str_app_cons, starts_with_cons.
    destruct (Ascii.eqb "034" x) eqn:E; [apply Ascii.eqb_eq in E; congruence|done]. }
  rewrite contains_cons, IH, orb_false_r. unfold key_end. by rewrite str_app_cons, starts_with_cons.
Qed.

Lemma occurs_quote s rest : stop rest → occurs rest = false → occurs (json_quote s +:+ rest) = false.
Proof.
  intros Hs Hr. unfold json_quote. rewrite str_app_cons, <- str_app_assoc. change (String "034" ?x) with (dquote +:+ x).
  rewrite (occurs_skip dquote) by done. by apply occurs_chars.
Qed.

Section Text.
Context (numeric_text : Q → string) (Hnum : ∀ q, str_forallb not_y (numeric_text q) = true).
Abbreviation text := (jsonb_text numeric_text).

Definition quiet (t : string) : Prop := ∀ rest, stop rest → occurs rest = false → occurs (t +:+ rest) = false.

Lemma quiet_plain t : str_forallb not_y t = true → quiet t.
Proof. intros Ht rest _ Hr. by rewrite occurs_skip. Qed.

Lemma quiet_join l : Forall quiet l → quiet (join ", " l).
Proof.
  induction 1 as [|t l Ht Hl IH]; intros rest Hs Hr; [done|]. destruct l as [|u l]; [by apply Ht|].
  rewrite join_cons, <- !str_app_assoc. apply Ht; [done|]. rewrite (occurs_skip ", ") by done. by apply IH.
Qed.
Lemma quiet_around a t x : str_forallb not_y a = true → not_y x = true → Ascii.eqb ":" x = false → quiet t →
  quiet (a +:+ t +:+ String x EmptyString).
Proof.
  intros Ha Hx Hc Ht rest Hs Hr. rewrite <- !str_app_assoc, occurs_skip by done. apply Ht.
  - unfold stop. change (String x "" +:+ rest) with (String x rest). rewrite str_app_cons, starts_with_cons. by rewrite Hc.
  - rewrite occurs_skip; [done|]. simpl. by rewrite Hx.
Qed.

Lemma jsonb_quiet v : quiet (text v).
Proof.
  induction v as [| |b|n|s|l Hl|f Hf] using jsval_nested_ind.
  - by apply quiet_plain.
  - by apply quiet_plain.
  - apply quiet_plain. by destruct b.
  - apply quiet_plain. destruct n; simpl; done.
  - intros rest. apply occurs_quote.
  - cbn [jsonb_text]. apply quiet_around; try done. apply quiet_join. by apply Forall_fmap.
  - cbn [jsonb_text]. apply quiet_around; try done. apply quiet_join. apply Forall_fmap.
    eapply Forall_impl; [exact Hf|]. intros [k v] Hv rest Hs Hr. cbn [fst snd]. rewrite <- !str_app_assoc. simpl in Hv.
    apply occurs_quote; [done|]. rewrite (occurs_skip ": ") by done. by apply Hv.
Qed.

Lemma starts_with_key s : starts_with (dquote +:+ "key" +:+ dquote +:+ ":" +:+ dquote) s = true → occurs s = true.
Proof.
  change (dquote +:+ "key" +:+ dquote +:+ ":" +:+ dquote) with (String "034" (String "k" (String "e" key_end))). intros H.
  do 3 (destruct s as [|? s]; [done|]; rewrite starts_with_cons in H; apply andb_true_iff in H as [_ H]; rewrite contains_cons;
        apply orb_true_iff; right).
  destruct s as [|c s]; [done|]. by rewrite contains_cons, H.
Qed.

Lemma no_reference appId key member s : referencing numeric_text member appId key s = false.
Proof.
  unfold referencing. apply andb_false_intro2. apply not_true_is_false. intros H.
  change (key_pattern key) with (String "%" (dquote +:+ "key" +:+ dquote +:+ ":" +:+ dquote +:+ key +:+ dquote +:+ "%")) in H.
  apply like_any in H as (a&b&Et&Hb).
  assert (starts_with (dquote +:+ "key" +:+ dquote +:+ ":" +:+ dquote) b = true) as Hk.
  { eapply like_literal; [|rewrite <- !str_app_assoc; exact Hb]. done. }
  apply starts_with_key in Hk. pose proof (jsonb_quiet (sg_definition s) "" eq_refl eq_refl) as Hq.
  rewrite str_app_nil_r, Et in Hq. enough (occurs (a +:+ b) = true) as E by (rewrite E in Hq; done).
  clear -Hk. induction a as [|c a IH]; [done|]. by rewrite str_app_cons, contains_cons, IH, orb_true_r.
Qed.

End Text.

(** an audit entry without the [forced] flag of its detail, and a store with such entries *)
Definition without_forced (e : AuditLog) : AuditLog :=
  mkAudit (al_tenant e) (al_actor e) (al_actor_email e) (al_action e) (al_target_type e) (al_target e)
    (match al_detail e with JObj fields => JObj (JMap.delete fields "forced") | v => v end) (al_ip e).
Definition up_to_forced (w : World) : World := set_audit (map without_forced (audit w)) w.

(** C39. The confirmation [deleteAttribute] promises is never asked for: whatever
    segments refer to the attribute, a request without [force] answers what a
    forced one answers and leaves the same store, but for the flag [forced] of the
    audit entry; when it succeeds the attribute is deleted, so no request answers
    with the referencing segments. *)
Theorem reference_check_is_vacuous numeric_text env member appId key force w :
  (∀ q, str_forallb not_y (numeric_text q) = true) →
  let r := deleteAttribute numeric_text env member appId key force w in
  let forced := deleteAttribute numeric_text env member appId key (Some "true") w in
  fst r = fst forced ∧ up_to_forced (snd r) = up_to_forced (snd forced)
  ∧ ∀ x, fst r = Ok x → x = Deleted
      ∧ attributes (snd r) = delete_where (λ a, String.eqb (at_app a) appId && String.eqb (at_key a) key) (attributes w).
Proof.
  intros Hnum.
  assert (∀ l, select (referencing numeric_text member appId key) l = []) as Hnone.
  { intros l. unfold select. induction l as [|s l IH]; [done|]. cbn [List.filter]. by rewrite no_reference. }
  cbv zeta. unfold deleteAttribute, mbind, M_bind.
  destruct (assertApp member appId w) as [[u|e] w1] eqn:Ea; [|done]. apply assertApp_ok in Ea as [-> _].
  destruct (throw_if _ _ w) as [[u1|e] w2] eqn:Er; [|done]. apply throw_if_ok in Er as [_ ->].
  cbn [get]. rewrite Hnone. cbn [length modify]. change (0 <? Z.of_nat 0) with false. cbn [andb]. cbv beta.
  match goal with |- context [throw_if ?c ?e ?s] => destruct (throw_if c e s) as [[u2|e2] w3] eqn:En end; [|done].
  apply throw_if_ok in En as [_ ->]. unfold recordAs, modify, mret, M_ret. cbn [fst snd]. split; [done|]. split; [|by intros x [= <-]].
  unfold up_to_forced, append_audit. destruct (audit_fails env); [done|].
  cbn [audit set_audit set_attributes]. rewrite !map_app. reflexivity.
Qed.

(** *** A segment that refers to the attribute *)

Definition demo_env : Env :=
  mkEnv (λ _, "u") "k" (λ n, Z.of_nat n) 0 0 (λ _, "t") (λ _, None) (mkEntropy [] [] []) (Ok []) (λ _ _, true) None None false.
Definition demo_member : SessionMember := mkSessionMember "m" "t1" "e@x" "E" "editor" false false.
Definition demo_segment : SegmentRow := mkSegmentRow "s" "t1" "a1" "VIP"
  (JObj [("groups", JArr [JObj [("conditions", JArr [JObj [("type", JStr "attribute"); ("key", JStr "plan"); ("op", JStr "exists")]])]])]).
Definition demo_world : World :=
  mkWorld [mkAppRow "a1" "t1" "UTC" JNull JNull] [] [] [] [] [] [] [] [] [] [mkAttribute "t1" "a1" "plan" "string"] [demo_segment] [] [].

Lemma reference_check_is_vacuous_witness :
  let r := deleteAttribute (λ _, "1") demo_env demo_member "a1" "plan" None demo_world in
  r.1 = Ok Deleted ∧ attributes r.2 = [] ∧ map al_detail (audit r.2) = [JObj [("app_id", JStr "a1"); ("key", JStr "plan"); ("forced", JBool false)]]
  ∧ up_to_forced r.2 = up_to_forced (deleteAttribute (λ _, "1") demo_env demo_member "a1" "plan" (Some "true") demo_world).2.
Proof.
  destruct (reference_check_is_vacuous (λ _, "1") demo_env demo_member "a1" "plan" None demo_world (λ q, eq_refl)) as (_&Hu&_).
  split; [vm_compute; reflexivity|]. split; [vm_compute; reflexivity|]. split; [vm_compute; reflexivity|]. exact Hu.
Defined.
