(* ===== verification/WebhookProps.v ===== *)
(** * Credentials and the webhook: what holds

    A stored credential opens to what was submitted, the webhook publishes for
    signed requests alone, and a request signed with the registered secret is
    taken up. *)

From Stdlib Require Import Ascii QArith.
From S2P Require Import Prelude JsVal JsNumber Crypto BranchCondition Json JsonParse Schema Authz AuthDb ChannelDb Credentials ResendWebhook.

#[global] Open Scope Z_scope.

(** ** The store's invariant *)

Definition app_kind (c : Credential) : string * string := (cr_app c, cr_kind c).

Record channels_ok (w : World) : Prop := {
  ch_apps : List.NoDup (map aw_id (app_rows w));
  ch_unique : List.NoDup (map app_kind (credentials w));
  ch_scope : ∀ c, In c (credentials w) → ∃ a, In a (app_rows w) ∧ aw_id a = cr_app c ∧ aw_tenant a = cr_tenant c }.

Lemma credential_at_spec appId kind c : credential_at appId kind c = true ↔ app_kind c = (appId, kind).
Proof.
  unfold credential_at, app_kind. rewrite andb_true_iff, !String.eqb_eq. split; [by intros [-> ->]|by intros [= -> ->]].
Qed.

Section Upsert.
Context `{Zod} `{Host} `{ZodUrl} `{CryptoLaws}.
Context (env : Env) (member : SessionMember).

Lemma upsert_credential_spec appId kind sealed w id w' :
  channels_ok w → (∃ a, In a (app_rows w) ∧ aw_id a = appId ∧ aw_tenant a = sm_tenantId member) →
  upsert_credential env member appId kind sealed w = (Ok id, w') →
  channels_ok w' ∧ app_rows w' = app_rows w
  ∧ (∃ row, select1 (credential_at appId kind) (credentials w') = Some row ∧ cr_tenant row = sm_tenantId member
            ∧ cr_sealed row = sealed ∧ cr_status row = unverified)
  ∧ ∀ c, credential_at appId kind c = false → In c (credentials w') ↔ In c (credentials w).
Proof.
  intros [Ha Hu Hs] (a&Hain&Hid&Hten). unfold upsert_credential. intros (x&w1&[= <- <-]&HE)%bind_ok.
  destruct (select1 (credential_at appId kind) (credentials w)) as [old|] eqn:Eold.
  - apply bind_ok in HE as (u&w2&[= _ <-]&[= _ <-]).
    set (f := λ c, mkCredential (cr_id c) (cr_tenant c) (cr_app c) (cr_kind c) sealed unverified None).
    change (credentials (set_credentials ?l w)) with l. change (app_rows (set_credentials ?l w)) with (app_rows w).
    split; [|split; [done|split]].
    + split; [done| |].
      * change (credentials (set_credentials ?l w)) with l. unfold update_where. rewrite map_map.
        replace (map (λ c, app_kind (if credential_at appId kind c then f c else c)) (credentials w)) with (map app_kind (credentials w)); [done|].
        apply map_ext. intros c. by destruct (credential_at appId kind c).
      * change (credentials (set_credentials ?l w)) with l. intros c [(y&Hy&_&->)|[Hc _]]%update_where_In; [|by apply Hs]. by apply (Hs y).
    + exists (f old). rewrite (select1_update (credential_at appId kind) f _ old) by done. split_and!; try done.
      apply select1_Some in Eold as [Hin Hat%credential_at_spec]. destruct (Hs _ Hin) as (b&Hb&Hbid&Hbt).
      cbn [f cr_tenant]. unfold app_kind in Hat. injection Hat as Happ _.
      assert (b = a) as -> by (apply (NoDup_map_eq aw_id (app_rows w)); congruence). congruence.
    + intros c Hc. rewrite update_where_In. split; [|by auto]. intros [(y&_&Hy&->)|[? _]]; [|done].
      by unfold f, credential_at in *; simpl in *; congruence.
  - apply bind_ok in HE as (u&w2&[_ ->]%throw_if_ok&HE). apply bind_ok in HE as (u2&w3&[= _ <-]&[= _ <-]).
    set (row := mkCredential _ _ _ _ _ _ _).
    change (credentials (set_credentials ?l w)) with l. change (app_rows (set_credentials ?l w)) with (app_rows w).
    assert (credential_at appId kind row = true) as Hrow by by apply credential_at_spec.
    split; [|split; [done|split]].
    + split; [done| |].
      * change (credentials (set_credentials ?l w)) with l. apply NoDup_key_snoc; [done|]. intros y Hy E.
        rewrite select1_None in Eold. specialize (Eold y Hy). apply not_true_iff_false in Eold. apply Eold, credential_at_spec.
        by rewrite E.
      * change (credentials (set_credentials ?l w)) with l. intros c [Hc|[<-|[]]]%in_app_iff; [by apply Hs|]. by exists a.
    + exists row. split_and!; try done. by apply select1_append.
    + intros c Hc. rewrite in_app_iff. split; [|by auto]. intros [?|[<-|[]]]; [done|congruence].
Qed.

Lemma decrypt_encrypt r key s :
  length (nonce1 r) = NONCE_LEN → length (nonce2 r) = NONCE_LEN → decryptEnvelope key (encryptEnvelope r key s) = Some s.
Proof.
  intros H1' H2'. unfold decryptEnvelope, encryptEnvelope. cbn [ciphertext dekWrapped].
  rewrite open_seal by done. cbn [mbind option_bind]. rewrite open_seal by done. cbn [fmap option_fmap option_map].
  by rewrite string_bytes_id.
Qed.

(** the payload of a validated body *)
Definition payload_of (data : jsval) : list (string * jsval) :=
  flattenCredentialPayload (match data with JObj fields => JMap.delete fields "kind" | _ => [] end).
(** [row] holds the payload, and nothing has checked it yet *)
Record stores (key : bytes) (data : jsval) (row : Credential) : Prop := {
  st_tenant : cr_tenant row = sm_tenantId member;
  st_status : cr_status row = unverified;
  st_text : decryptEnvelope key (cr_sealed row) = Some (JSON_stringify number_format (JObj (payload_of data)));
  st_value : plain (JObj (payload_of data)) = true →
    (text ← decryptEnvelope key (cr_sealed row); JSON_parse text) = Some (JObj (payload_of data)) }.

Lemma upsert_spec appId body w id kind st w' :
  channels_ok w → length (nonce1 (entropy env)) = NONCE_LEN → length (nonce2 (entropy env)) = NONCE_LEN →
  upsert env member appId body w = (Ok (id, kind, st), w') →
  channels_ok w' ∧ st = unverified ∧ In (sm_role member) ["owner"; "admin"]
  ∧ (∃ data key row, credentialSchema body = Some data ∧ kind = str_of (prop data "kind") ∧ master_key env = Ok key
       ∧ select1 (credential_at appId kind) (credentials w') = Some row ∧ stores key data row)
  ∧ ∀ c, credential_at appId kind c = false → In c (credentials w') ↔ In c (credentials w).
Proof.
  intros Hok Hn1 Hn2. unfold upsert.
  intros (u&w1&[-> Happ]%assertApp_ok&HE)%bind_ok. apply bind_ok in HE as (data&w1&[Hdata ->]%parse_ok&HE).
  apply bind_ok in HE as (u1&w1&[Hrole ->]%throw_if_ok&HE). apply bind_ok in HE as (key&w1&Hkey&HE).
  destruct (master_key env) as [k|e] eqn:Ek; [|done]. injection Hkey as <- <-.
  apply bind_ok in HE as (id'&w2&Hup&HE). apply bind_ok in HE as (u2&w3&[l ->]%recordAs_ok&[= -> <- <- <-]).
  apply negb_false_iff, String_in_spec in Hrole.
  destruct (upsert_credential_spec _ _ _ _ _ _ Hok Happ Hup) as ([Ha Hu Hs]&_&(row&Hrow&Hten&Hsealed&Hst)&Hothers).
  split_and!; [done|done|done| |done].
  exists data, k, row. split_and!; [done|done|done|exact Hrow|].
  assert (decryptEnvelope k (cr_sealed row) = Some (JSON_stringify number_format (JObj (payload_of data)))) as Hd.
  { rewrite Hsealed. by apply decrypt_encrypt. }
  split; [done|done|exact Hd|]. intros Hp. rewrite Hd. cbn [mbind option_bind]. by apply JSON_parse_stringify.
Qed.
End Upsert.

Section Webhook.
Context `{Hmac256} `{Crypto}.
Context (message_log : string → string → string → option string) (env : Env).

(** The request carries a signature of its body under [secret], made within
    five minutes of now. *)
Definition signed (secret : string) (headers : Headers) (rawBody : bytes) : Prop :=
  ∃ id ts sigs rest entry,
    header headers "svix-id" = Some id ∧ header headers "svix-timestamp" = Some ts ∧ header headers "svix-signature" = Some sigs
    ∧ id ≠ "" ∧ all_digits ts = true ∧ Z.abs (Date_now env / 1000 - decimal ts) <= 300 ∧ svixKey secret ≠ []
    ∧ In entry (split_ws sigs) ∧ split_on "," entry = "v1" :: svixSign secret id ts rawBody :: rest.

Lemma verify_signed secret headers rawBody :
  verifySvixSignature secret headers rawBody (Date_now env) = SvixOk → signed secret headers rawBody.
Proof.
  unfold verifySvixSignature. intros HE.
  destruct (header headers "svix-id") as [id|] eqn:E1; [|done]. simpl in HE. destruct (String.eqb id "") eqn:N1; [done|].
  destruct (header headers "svix-timestamp") as [ts|] eqn:E2; [|done]. simpl in HE. destruct (String.eqb ts "") eqn:N2; [done|].
  destruct (header headers "svix-signature") as [sigs|] eqn:E3; [|done]. simpl in HE. destruct (String.eqb sigs "") eqn:N3; [done|].
  destruct (all_digits ts) eqn:E4; [|done]. cbn [negb] in HE.
  destruct (SVIX_TOLERANCE_SECONDS <? _) eqn:E5; [done|]. destruct (Nat.eqb _ 0) eqn:E6; [done|].
  destruct (existsb _ _) eqn:E7; [|done]. apply existsb_exists in E7 as (entry&Hin&He).
  unfold entry_matches in He. destruct (split_on "," entry) as [|v [|sig rest]] eqn:Es; try done. b2p. subst.
  exists id, ts, sigs, rest, entry. split_and!; try done.
  intros Hk. by rewrite Hk in E6.
Qed.

Lemma loadCredential_ok appId w tenant secret w' :
  loadCredential env appId w = (Ok (tenant, secret), w') →
  w' = w ∧ secret ≠ "" ∧ ∃ row key plain_text v,
    In row (credentials w) ∧ cr_app row = appId ∧ cr_kind row = "email_resend" ∧ cr_tenant row = tenant
    ∧ master_key env = Ok key ∧ decryptEnvelope key (cr_sealed row) = Some plain_text ∧ JSON_parse plain_text = Some v
    ∧ prop v "webhook_secret" = JStr secret.
Proof.
  unfold loadCredential. intros (x&w1&[= <- <-]&HE)%bind_ok.
  apply bind_ok in HE as (row&w1&[[Hin Hat]%select1_Some ->]%some_or_throw_ok&HE).
  apply bind_ok in HE as (v&w1&[Hv ->]%some_or_throw_ok&HE). unfold credential_at in Hat. b2p.
  destruct (master_key env) as [key|] eqn:Ek; [|done]. cbn [mbind option_bind] in Hv.
  apply bind_Some in Hv as (t&Ht&(v'&Hv'&Hnull)%bind_Some). destruct (is_nullish v'); [done|]. injection Hnull as ->.
  destruct (prop v "webhook_secret") as [| | | |s| |] eqn:Es; try done.
  apply bind_ok in HE as (u&w1&[Hne ->]%throw_if_ok&[= <- <- <-]). b2p. split_and!; [done|done|].
  by exists row, key, t, v.
Qed.

(** What a publication of the webhook rests on *)
Record authentic (appId : string) (req : Request) (w : World) (m : QueueMessage) : Prop := {
  au_credential : ∃ row key text v secret rawBody,
    In row (credentials w) ∧ cr_app row = appId ∧ cr_kind row = "email_resend" ∧ cr_tenant row = qm_tenant m
    ∧ master_key env = Ok key ∧ decryptEnvelope key (cr_sealed row) = Some text ∧ JSON_parse text = Some v
    ∧ prop v "webhook_secret" = JStr secret ∧ raw_of req = Some rawBody ∧ signed secret (rq_headers req) rawBody;
  au_message : ∃ body event mapped messageId, parseResendEvent body = Some event ∧ mapResendEvent event = Some mapped
    ∧ event_message message_log (qm_tenant m) appId event = Some messageId
    ∧ m = lifecycle_message env (qm_tenant m) appId messageId event mapped }.

Lemma receive_cases appId req w r w' :
  receive_webhook message_log env appId req w = (r, w') →
  (w' = w ∧ ∀ s, r ≠ Ok (AcceptedEvent s))
  ∨ ∃ m s, r = Ok (AcceptedEvent s) ∧ w' = set_queue (queue w ++ [m]) w ∧ authentic appId req w m.
Proof.
  unfold receive_webhook. destruct r as [r|e].
  - intros (raw&w1&[Hraw ->]%some_or_throw_ok&HE)%bind_ok. apply bind_ok in HE as ([tenant secret]&w1&Hcred&HE).
    apply loadCredential_ok in Hcred as (->&_&row&key&t&v&?&?&?&?&?&?&?&?).
    apply bind_ok in HE as (u&w1&Hv&HE). destruct (verifySvixSignature _ _ _ _) eqn:Ev; [|done].
    injection Hv as _ <-. apply verify_signed in Ev.
    apply bind_ok in HE as (body&w1&Hbody&HE). assert (w1 = w) as ->.
    { destruct (is_nullish _); [by apply some_or_throw_ok in Hbody as [_ ->]|by injection Hbody]. }
    destruct (parseResendEvent body) as [event|] eqn:Ep; [|injection HE as <- <-; left; by split].
    destruct (mapResendEvent event) as [mapped|] eqn:Em; [|injection HE as <- <-; left; by split].
    destruct (event_message message_log tenant appId event) as [messageId|] eqn:Emsg; [|injection HE as <- <-; left; by split].
    apply bind_ok in HE as (u2&w2&->%publish_ok&[= <- <-]). right. eexists _, _. split_and!; [done|done|].
    split; [by exists row, key, t, v, secret, raw|]. by exists body, event, mapped, messageId.
  - intros HE. left. split; [|done].
    apply bind_throw_inv in HE as [(_&_&->)%some_or_throw_throw|(raw&w1&[_ ->]%some_or_throw_ok&HE)]; [done|].
    apply bind_throw_inv in HE as [HE|([tenant secret]&w1&Hcred&HE)].
    { assert (readonly (loadCredential env appId)) as Hro; [|specialize (Hro w); by rewrite HE in Hro].
      unfold loadCredential. apply readonly_bind; [auto with nudgeon|]. intros x.
      apply readonly_bind; [auto with nudgeon|]. intros row. apply readonly_bind; [auto with nudgeon|]. intros v.
      destruct (prop v "webhook_secret"); auto with nudgeon. }
    apply loadCredential_ok in Hcred as (->&_).
    apply bind_throw_inv in HE as [HE|(u&w1&Hv&HE)]; [destruct (verifySvixSignature _ _ _ _); [done|by injection HE as _ <-]|].
    assert (w1 = w) as -> by (destruct (verifySvixSignature _ _ _ _); [by injection Hv|done]).
    apply bind_throw_inv in HE as [HE|(body&w1&Hbody&HE)].
    { destruct (is_nullish _); [by apply some_or_throw_throw in HE as (_&_&->)|done]. }
    assert (w1 = w) as -> by (destruct (is_nullish _); [by apply some_or_throw_ok in Hbody as [_ ->]|by injection Hbody]).
    destruct (parseResendEvent body) as [event|]; [|done]. destruct (mapResendEvent event) as [mapped|]; [|done].
    destruct (event_message message_log tenant appId event) as [messageId|]; [|done].
    apply bind_throw_inv in HE as [HE|(u2&w2&_&HE)]; [by apply publish_throw in HE|done].
Qed.
End Webhook.

(** C14. The webhook publishes at most one message, and only for a request whose
    body is signed, within five minutes, under the secret of the app's own
    e-mail credential; the message goes to that credential's tenant and says
    what the event says.  Any other request leaves the store as it was. *)
Theorem webhook_is_authentic `{Hmac256} `{Crypto} message_log env appId req w :
  let run := receive_webhook message_log env appId req w in
  (run.2 = w ∧ ∀ s, run.1 ≠ Ok (AcceptedEvent s))
  ∨ ∃ m s, run.1 = Ok (AcceptedEvent s) ∧ run.2 = set_queue (queue w ++ [m]) w ∧ authentic message_log env appId req w m.
Proof. cbv zeta. destruct (receive_webhook message_log env appId req w) as [r w'] eqn:E. by apply receive_cases. Qed.

(** ** A registered secret *)

Lemma get_filter_key {V} (m : list (string * V)) k k' :
  JMap.get (JMap.delete m k) k' = if String.eqb k' k then None else JMap.get m k'.
Proof.
  induction m as [|[x v] m IH]; [by destruct (String.eqb k' k)|].
  change (JMap.delete ((x, v) :: m) k) with (if negb (String.eqb x k) then (x, v) :: JMap.delete m k else JMap.delete m k).
  rewrite (JMap.get_cons x v m). destruct (String.eqb x k) eqn:E; cbv iota beta delta [negb].
  - rewrite IH. b2p. subst x. rewrite (String.eqb_sym k k'). by destruct (String.eqb k' k).
  - rewrite JMap.get_cons, IH. destruct (String.eqb x k') eqn:E'; [|done]. b2p. subst x. by rewrite (proj2 (String.eqb_neq k' k)).
Qed.

(** a credential whose every field is a text *)
Definition texts (l : list (string * jsval)) : Prop := Forall (λ p, ∃ s, snd p = JStr s) l ∧ List.NoDup (map fst l).

Lemma texts_delete l k : texts l → texts (JMap.delete l k).
Proof.
  intros [Hl Hnd]. split.
  - apply List.Forall_forall. intros p [Hp _]%filter_In. rewrite List.Forall_forall in Hl. auto.
  - by apply NoDup_map_filter.
Qed.
Lemma texts_plain l : texts l → plain (JObj l) = true.
Proof.
  intros [Hl Hnd]. cbn [plain]. apply andb_true_iff. split; [by apply bool_decide_eq_true, NoDup_ListNoDup|].
  apply forallb_forall. intros p Hp. rewrite List.Forall_forall in Hl. by destruct (Hl p Hp) as [s ->].
Qed.

Definition textual (s : Schema) : Prop := ∀ v o, s v = Some o → is_undef o = true ∨ ∃ t, o = JStr t.
Lemma textual_check p : textual (s_check (string_check p)).
Proof. intros v o [-> Hp]%check_keeps. destruct v; try done. by right; eexists. Qed.
Lemma textual_optional s : textual s → textual (s_optional s).
Proof. intros Hs v o E. destruct v; simpl in E; eauto. left. by injection E as <-. Qed.
Lemma textual_default s d : textual s → textual (s_default s d).
Proof. intros Hs v o E. destruct v; simpl in E; eauto. Qed.

Lemma s_fields_texts shape v l :
  Forall (λ p, textual (snd p)) shape → List.NoDup (map fst shape) → s_fields shape v = Some l → texts l.
Proof.
  intros Hs. revert l. induction Hs as [|[k s] shape Hk Hs IH]; intros l Hnd.
  - intros [= <-]. split; constructor.
  - cbn [map fst] in Hnd. apply NoDup_cons_iff in Hnd as [Hn Hnd].
    intros (o&l'&Ho&Hl&->)%s_fields_cons. destruct (IH l' Hnd Hl) as [Ht Hu]. destruct (is_undef o) eqn:Eu; [by split|].
    split; [constructor; [|done]|cbn [map fst]; apply NoDup_cons_iff; split; [|done]].
    + destruct (Hk _ _ Ho) as [E|?]; [congruence|done].
    + intros (p&Ep&Hin)%in_map_iff. apply Hn. rewrite <- Ep. by eapply s_fields_keys.
Qed.

Section Registered.
Context `{Zod} `{Host} `{ZodUrl} `{CryptoLaws} `{Hmac256}.

Lemma resend_texts data v : credentialSchema v = Some data → str_of (prop data "kind") = "email_resend" →
  ∃ fields, data = JObj fields ∧ texts fields.
Proof.
  unfold credentialSchema, s_refine, s_discriminated. intros (o&Ho&Hr)%bind_Some Hk.
  destruct (has_secret o); [|done]. injection Hr as ->. destruct (prop v "kind") as [| | | |tag| |]; try done.
  apply bind_Some in Ho as (s&Hs&Ho). apply JMap.get_In in Hs.
  assert (∀ strict shape w out t, s_object strict (("kind", s_literal t) :: shape) w = Some out → t ≠ "email_resend" →
    str_of (prop out "kind") ≠ "email_resend") as Hother.
  { intros strict shape w out t E Hne. destruct w; try done. unfold s_object in E. case_match; [done|].
    apply fmap_Some in E as (l&(o1&l'&Hl%check_keeps&_&->)%s_fields_cons&->). destruct Hl as [-> Hl].
    destruct (prop (JObj fields) "kind") as [| | | |x| |]; try done. cbn [string_check] in Hl. apply String_in_spec in Hl as [<-|[]].
    exact Hne. }
  destruct Hs as [[= <- <-]|[[= <- <-]|[[= <- <-]|[[= <- <-]|[[= <- <-]|[[= <- <-]|[]]]]]]]; try (by destruct (Hother _ _ _ _ _ Ho)).
  clear Hother. unfold emailResendPayloadSchema, s_object in Ho. destruct v; try done. cbn [andb] in Ho.
  apply fmap_Some in Ho as (l&Hl&->). exists l. split; [done|]. eapply s_fields_texts; [|  |exact Hl].
  - repeat apply Forall_cons_2; cbn [snd]; try apply Forall_nil_2;
      unfold s_email, s_url, s_text, s_max, s_string, s_literal, s_enum;
      repeat first [apply textual_optional|apply textual_default]; apply textual_check.
  - apply NoDup_ListNoDup. refine (bool_decide_unpack _ _). by vm_compute.
Qed.

Lemma resend_payload data v : credentialSchema v = Some data → str_of (prop data "kind") = "email_resend" →
  plain (JObj (payload_of data)) = true ∧ prop (JObj (payload_of data)) "webhook_secret" = prop data "webhook_secret".
Proof.
  intros Hv Hk. destruct (resend_texts _ _ Hv Hk) as (fields&->&Ht). unfold payload_of, flattenCredentialPayload.
  pose proof (texts_delete fields "kind" Ht) as Ht1.
  assert (∀ e, JMap.get (JMap.delete fields "kind") "extra" ≠ Some (JObj e)) as Hne.
  { intros e E%JMap.get_In. destruct Ht1 as [Hl _]. rewrite List.Forall_forall in Hl. by destruct (Hl _ E) as [s E']. }
  replace (match JMap.get (JMap.delete fields "kind") "extra" with Some (JObj extra) => _ | _ => _ end)
    with (JMap.delete (JMap.delete fields "kind") "extra")
    by (destruct (JMap.get (JMap.delete fields "kind") "extra") as [[]|] eqn:E; try done; by destruct (Hne _ eq_refl)).
  split; [by apply texts_plain, texts_delete|]. simpl. by rewrite !get_filter_key.
Qed.

(** *** A header with one signature *)

Definition token_char (c : ascii) : bool := (32 <? byte c) && (byte c <? 128) && negb (Ascii.eqb "," c).

Lemma token_no_space c s : token_char c = true → strip_ws (String c s) = None.
Proof.
  unfold token_char. intros Hc. b2p. unfold strip_ws.
  assert ((9 <=? byte c) && (byte c <=? 13) || (byte c =? 32) = false) as -> by lia.
  assert ((byte c =? 194) = false) as -> by lia. assert ((byte c =? 239) = false) as -> by lia.
  assert ((byte c =? 225) = false) as -> by lia. assert ((byte c =? 226) = false) as -> by lia.
  assert ((byte c =? 227) = false) as -> by lia. by destruct s as [|b [|x s]].
Qed.
Lemma split_spaces_token n (word s : string) :
  (String.length s <= n)%nat → str_forallb (λ c, token_char c || Ascii.eqb "," c) s = true → split_spaces n word s = [word +:+ s].
Proof.
  revert n word. induction s as [|c s IH]; intros n word Hn Hs; [by destruct n; simpl; rewrite str_app_nil_r|].
  destruct n as [|n]; simpl in Hn; [lia|]. cbn [str_forallb] in Hs. apply andb_true_iff in Hs as [Hc Hs]. cbn [split_spaces].
  assert (strip_ws (String c s) = None) as ->.
  { apply orb_true_iff in Hc as [Hc|Hc%Ascii.eqb_eq]; [by apply token_no_space|subst c]. by destruct s as [|b [|x s]]. }
  rewrite IH; [|lia|done]. by rewrite <- str_app_assoc.
Qed.
Lemma split_on_token s : str_forallb token_char s = true → split_on "," s = [s].
Proof.
  intros Hs. apply split_on_none. eapply str_forallb_weaken; [|exact Hs]. intros c Hc. by apply andb_true_iff in Hc as [_ Hc].
Qed.

Lemma base64_token l : str_forallb token_char (base64_encode l) = true.
Proof. apply base64_chars; [vm_compute|]; reflexivity. Qed.

Lemma verify_one secret headers rawBody now id ts :
  header headers "svix-id" = Some id → header headers "svix-timestamp" = Some ts →
  header headers "svix-signature" = Some ("v1," +:+ svixSign secret id ts rawBody) →
  id ≠ "" → all_digits ts = true → Z.abs (now / 1000 - decimal ts) <= 300 → svixKey secret ≠ [] →
  svixSign secret id ts rawBody ≠ "" →
  verifySvixSignature secret headers rawBody now = SvixOk.
Proof.
  intros E1 E2 E3 Hid Hts Hnow Hkey Hsig. unfold verifySvixSignature. rewrite E1, E2, E3. unfold present_text.
  rewrite (proj2 (String.eqb_neq id "")) by done.
  assert (String.eqb ts "" = false) as -> by (by destruct ts).
  set (sig := svixSign secret id ts rawBody) in *.
  assert (String.eqb ("v1," +:+ sig) "" = false) as -> by done. rewrite Hts. cbn [negb].
  assert ((SVIX_TOLERANCE_SECONDS <? Z.abs (now / 1000 - decimal ts)) = false) as -> by (apply Z.ltb_ge; exact Hnow).
  destruct (svixKey secret) as [|b k]; [done|]. change (Nat.eqb (length (b :: k)) 0) with false. cbv iota.
  pose proof (base64_token (hmac_sha256 (svixKey secret) (bytes_of_string (id +:+ "." +:+ ts +:+ ".") ++ rawBody))) as Htok.
  fold (svixSign secret id ts rawBody) in Htok. fold sig in Htok.
  assert (split_ws ("v1," +:+ sig) = ["v1," +:+ sig]) as ->.
  { unfold split_ws. rewrite split_spaces_token; [done|done|]. change ("v1," +:+ sig) with (String "v" (String "1" (String "," sig))).
    cbn [str_forallb]. change (token_char "v" || Ascii.eqb "," "v") with true. change (token_char "1" || Ascii.eqb "," "1") with true.
    change (token_char "," || Ascii.eqb "," ",") with true. simpl. eapply str_forallb_weaken; [|exact Htok]. intros c ->. done. }
  cbn [existsb]. unfold entry_matches.
  assert (split_on "," ("v1," +:+ sig) = ["v1"; sig]) as ->.
  { change ("v1," +:+ sig) with (String "v" (String "1" (String "," sig))). cbn [split_on]. simpl. by rewrite split_on_token. }
  rewrite (proj2 (String.eqb_neq sig "")) by done. by rewrite !String.eqb_refl.
Qed.

(** A request with one signature under [secret], made in time *)
Record signs (now : Z) (secret : string) (req : Request) (rawBody : bytes) : Prop := {
  sg_raw : raw_of req = Some rawBody;
  sg_headers : ∃ id ts, header (rq_headers req) "svix-id" = Some id ∧ header (rq_headers req) "svix-timestamp" = Some ts
    ∧ header (rq_headers req) "svix-signature" = Some ("v1," +:+ svixSign secret id ts rawBody)
    ∧ id ≠ "" ∧ all_digits ts = true ∧ Z.abs (now / 1000 - decimal ts) <= 300 ∧ svixSign secret id ts rawBody ≠ "" }.

(** A webhook secret that an owner or admin registers works: whatever else
    happens to the store, as long as the app's credentials stay, a request
    signed with the secret and delivered within five minutes is accepted when
    its event is one that is mapped and its message is known, and it publishes
    that event for the member's own tenant. *)
Theorem registered_webhook_is_accepted message_log env member appId body data secret id st w w1 env' w2 req rawBody event mapped messageId :
  channels_ok w → length (nonce1 (entropy env)) = NONCE_LEN → length (nonce2 (entropy env)) = NONCE_LEN →
  credentialSchema body = Some data → prop data "webhook_secret" = JStr secret → secret ≠ "" → svixKey secret ≠ [] →
  upsert env member appId body w = (Ok (id, "email_resend", st), w1) →
  credentials w2 = credentials w1 → master_key env' = master_key env →
  signs (Date_now env') secret req rawBody → is_nullish (rq_body req) = false →
  parseResendEvent (rq_body req) = Some event → mapResendEvent event = Some mapped →
  event_message message_log (sm_tenantId member) appId event = Some messageId →
  let m := lifecycle_message env' (sm_tenantId member) appId messageId event mapped in
  payload_ok env' "message.lifecycle" (qm_payload m) = true → xadd_error env' = None →
  receive_webhook message_log env' appId req w2 = (Ok (AcceptedEvent (ml_status mapped)), set_queue (queue w2 ++ [m]) w2).
Proof.
  intros Hok Hn1 Hn2 Hdata Hsecret Hne Hkey Hup Hw2 Hmk [Hraw (sid&ts&Hh1&Hh2&Hh3&Hid&Hts&Hnow&Hsig)] Hbody Hev Hmap Hmsg m Hpay Hx.
  destruct (upsert_spec _ _ _ _ _ _ _ _ _ Hok Hn1 Hn2 Hup) as (_&_&_&(data'&key&row&Hd'&Hk&Hmaster&Hrow&Hst)&_).
  assert (data' = data) as -> by congruence. destruct Hst as [Hten _ Htext Hval].
  destruct (resend_payload _ _ Hdata (eq_sym Hk)) as [Hplain Hprop]. specialize (Hval Hplain).
  assert (loadCredential env' appId w2 = (Ok (sm_tenantId member, secret), w2)) as Hload.
  { unfold loadCredential, mbind, M_bind, get. rewrite Hw2, Hrow. cbn [some_or_throw]. unfold mret, M_ret.
    rewrite Hmk, Hmaster. cbn [mbind option_bind]. rewrite Htext in Hval |- *. cbn [mbind option_bind] in Hval |- *. rewrite Hval.
    cbn [option_bind is_nullish some_or_throw]. unfold mret, M_ret. cbv iota beta. rewrite Hprop, Hsecret. rewrite (proj2 (String.eqb_neq secret "")) by done.
    cbn [throw_if]. unfold mret, M_ret. by rewrite Hten. }
  unfold receive_webhook. rewrite Hraw. unfold mbind at 1, M_bind at 1. cbn [some_or_throw]. unfold mret at 1, M_ret at 1.
  unfold mbind at 1, M_bind at 1. rewrite Hload. unfold mbind at 1, M_bind at 1.
  rewrite (verify_one secret (rq_headers req) rawBody (Date_now env') sid ts) by done.
  unfold mret at 1, M_ret at 1. unfold mbind at 1, M_bind at 1. rewrite Hbody. unfold mret at 1, M_ret at 1.
  rewrite Hev, Hmap, Hmsg. unfold mbind at 1, M_bind at 1. unfold publish, mbind, M_bind.
  change (qm_type (lifecycle_message env' (sm_tenantId member) appId messageId event mapped)) with "message.lifecycle".
  fold m. rewrite Hpay, Hx. reflexivity.
Qed.
End Registered.

(** *** The invariant over requests *)

Section Requests.
Context `{Zod} `{Host} `{ZodUrl} `{CryptoLaws}.

Definition keeps (w w' : World) : Prop := channels_ok w → channels_ok w'.
#[local] Instance keeps_preorder : PreOrder keeps.
Proof. split; [intros w Hw; exact Hw|]. intros x y z Hxy Hyz Hx. by apply Hyz, Hxy. Qed.

Lemma remove_keeps env member appId kind : within keeps (remove env member appId kind).
Proof.
  unfold remove. apply within_bind; [apply _|apply within_readonly; [apply _|apply readonly_assertApp]|intros].
  apply within_bind; [apply _|apply within_readonly; [apply _|apply readonly_throw_if]|intros].
  apply within_bind; [apply _|apply within_readonly; [apply _|apply readonly_throw_if]|intros].
  apply within_get. intros w. cbv beta zeta. apply (within_bind_at keeps); [| intros].
  - intros [Ha Hu Hs]. cbn [modify snd]. split; [done| |].
    + by apply NoDup_map_filter.
    + intros c [Hc _]%filter_In. by apply Hs.
  - apply within_bind; [apply _|apply within_readonly; [apply _|apply readonly_throw_if]|intros].
    intros s [Ha Hu Hs]. done.
Qed.

(** The requests of the console and of the provider *)
Inductive ChannelRequest :=
| Upsert (env : Env) (member : SessionMember) (appId : string) (body : jsval)
| Remove (env : Env) (member : SessionMember) (appId kind : string)
| Webhook (env : Env) (appId : string) (req : Request).

Context `{Hmac256} (message_log : string → string → string → option string).

Definition serve (r : ChannelRequest) (w : World) : World :=
  match r with
  | Upsert env member appId body => (upsert env member appId body w).2
  | Remove env member appId kind => (remove env member appId kind w).2
  | Webhook env appId req => (receive_webhook message_log env appId req w).2
  end.

Lemma upsert_keeps env member appId body : within keeps (upsert env member appId body).
Proof.
  intros w Hok. destruct (upsert env member appId body w) as [[[[id kind] st]|e] w'] eqn:E; cbn [snd].
  - unfold upsert in E. apply bind_ok in E as (u&w1&[-> Happ]%assertApp_ok&E). apply bind_ok in E as (data&w1&[_ ->]%parse_ok&E).
    apply bind_ok in E as (u1&w1&[_ ->]%throw_if_ok&E). apply bind_ok in E as (key&w1&Hkey&E).
    assert (w1 = w) as -> by (destruct (master_key env); [by injection Hkey|done]).
    apply bind_ok in E as (id'&w2&Hup&E). apply bind_ok in E as (u2&w3&[l ->]%recordAs_ok&[= _ _ _ <-]).
    by destruct (upsert_credential_spec _ _ _ _ _ _ _ _ Hok Happ Hup) as ([]&_).
  - assert (w' = w) as ->; [|done]. unfold upsert in E.
    apply bind_throw_inv in E as [E|(u&w1&[-> _]%assertApp_ok&E)]; [pose proof (readonly_assertApp member appId w) as Hr; by rewrite E in Hr|].
    apply bind_throw_inv in E as [(_&_&->)%some_or_throw_throw|(data&w1&[_ ->]%parse_ok&E)]; [done|].
    apply bind_throw_inv in E as [(_&_&->)%throw_if_throw|(u1&w1&[_ ->]%throw_if_ok&E)]; [done|].
    apply bind_throw_inv in E as [E|(key&w1&Hkey&E)]; [destruct (master_key env); [done|by injection E as _ <-]|].
    assert (w1 = w) as -> by (destruct (master_key env); [by injection Hkey|done]).
    apply bind_throw_inv in E as [E|(id'&w2&_&E)].
    + unfold upsert_credential in E. apply bind_throw_inv in E as [E|(x&w1&[= <- <-]&E)]; [done|].
      destruct (select1 _ _); [by apply bind_throw_inv in E as [E|(x&w2&_&E)]|].
      apply bind_throw_inv in E as [(_&_&->)%throw_if_throw|(x&w2&_&E)]; [done|]. by apply bind_throw_inv in E as [E|(x1&w3&_&E)].
    + by apply bind_throw_inv in E as [E|(x&w3&_&E)].
Qed.

Lemma serve_keeps r w : channels_ok w → channels_ok (serve r w).
Proof.
  intros Hok. destruct r as [env member appId body|env member appId kind|env appId req]; cbn [serve].
  - by apply upsert_keeps.
  - by apply remove_keeps.
  - destruct (receive_webhook message_log env appId req w) as [o w'] eqn:E.
    destruct (receive_cases _ _ _ _ _ _ _ E) as [[-> _]|(m&s&_&->&_)]; [done|]. by destruct Hok.
Qed.

(** C34. At any point of a history of credential requests and webhooks, an owner
    or admin who registers a credential finds it stored once, for the app's own
    tenant and unverified, as an envelope that opens to the JSON text of the
    submitted payload and parses back to it; no other credential changes. *)
Theorem credential_round_trip env member appId body history w0 id kind st w' :
  channels_ok w0 → length (nonce1 (entropy env)) = NONCE_LEN → length (nonce2 (entropy env)) = NONCE_LEN →
  upsert env member appId body (fold_left (λ w r, serve r w) history w0) = (Ok (id, kind, st), w') →
  channels_ok w' ∧ st = unverified ∧ In (sm_role member) ["owner"; "admin"]
  ∧ (∃ data key row, credentialSchema body = Some data ∧ kind = str_of (prop data "kind") ∧ master_key env = Ok key
       ∧ select1 (credential_at appId kind) (credentials w') = Some row ∧ stores member key data row)
  ∧ ∀ c, credential_at appId kind c = false →
      In c (credentials w') ↔ In c (credentials (fold_left (λ w r, serve r w) history w0)).
Proof.
  intros Hok Hn1 Hn2 Hup. eapply upsert_spec; [|done|done|exact Hup].
  clear Hup. revert w0 Hok. induction history as [|r history IH]; intros w0 Hok; [done|]. by apply IH, serve_keeps.
Qed.
End Requests.

(** ** A concrete run *)

Module Demo.

Definition toy_zod : Zod := {| zod_uuid _ := true; zod_datetime _ := true; number_format _ := "0" |}.
Definition toy_host : Host := {|
  toUpperCase := to_upper; toLowerCase := to_lower; pg_lower := to_lower; zod_email _ := true; known_time_zone _ := true |}.
Definition toy_url : ZodUrl := {| zod_url := starts_with "https://" |}.
Definition toy_hmac : Hmac256 := {| hmac_sha256 key m := map (λ b, b mod 256) [Z.of_nat (length key); Z.of_nat (length m)] |}.
#[local] Existing Instances toy_zod toy_host toy_url toy_hmac.
#[local] Instance toy_crypto : Crypto := {
  gcm_seal _ _ p := (p, replicate 16 0); gcm_open _ _ body _ := Some body; hmac_sha1 _ _ := replicate 20 0;
  sha256_hex s := s; argon2_hash _ p := p; argon2_verify h p := String.eqb h p }.
#[local] Instance toy_laws : CryptoLaws.
Proof. split; try done. intros key m. apply Forall_replicate. unfold is_byte. lia. Qed.

Definition env : Env :=
  mkEnv (λ n, if Nat.eqb n 0 then "c1" else "x") "k" Z.of_nat 0 1000000 (λ _, "1970-01-01T00:16:40.000Z") (λ _, Some 1000000)
    (mkEntropy [1] (replicate 12 2) (replicate 12 3)) (Ok [7]) (λ _ _, true) None None false.
Definition admin : SessionMember := mkSessionMember "m" "t1" "e@x" "E" "admin" false false.
Definition world : World := mkWorld [mkAppRow "a1" "t1" "UTC" JNull JNull] [] [] [] [] [] [] [] [] [] [] [] [] [].
Definition body : jsval := JObj [("kind", JStr "email_resend"); ("api_key", JStr "re_1"); ("from_email", JStr "a@b.c");
  ("webhook_secret", JStr "whsec_c2VjcmV0")].
Definition data : jsval := default JNull (credentialSchema body).
Definition registered : World := (upsert env admin "a1" body world).2.
Definition delivered : jsval := JObj [("type", JStr "email.delivered");
  ("data", JObj [("tags", JObj [("nudgeon_message_id", JStr "00000000-0000-4000-8000-00000000000a")])])].
Definition raw : bytes := [123; 125].
Definition request : Request := mkRequest (Some raw) delivered
  [("svix-id", One "msg_1"); ("svix-timestamp", One "1000");
   ("svix-signature", One ("v1," +:+ svixSign "whsec_c2VjcmV0" "msg_1" "1000" raw))].

Lemma world_ok : channels_ok world.
Proof. split; [repeat constructor; by intros []|constructor|by intros ? []]. Qed.

Lemma registered_webhook_is_accepted_witness : ∃ w' m,
  upsert env admin "a1" body world = (Ok ("c1", "email_resend", unverified), registered)
  ∧ receive_webhook (λ _ _ _, None) env "a1" request registered = (Ok (AcceptedEvent "delivered"), w')
  ∧ queue w' = [m] ∧ qm_tenant m = "t1".
Proof.
  assert (upsert env admin "a1" body world = (Ok ("c1", "email_resend", unverified), registered)) as Hup by (vm_compute; reflexivity).
  pose proof (registered_webhook_is_accepted (λ _ _ _, None) env admin "a1" body data "whsec_c2VjcmV0" "c1" unverified world registered
    env registered request raw (default JNull (parseResendEvent delivered)) (mkMapped "delivered" None None None)
    "00000000-0000-4000-8000-00000000000a" world_ok eq_refl eq_refl eq_refl eq_refl ltac:(discriminate) ltac:(discriminate) Hup
    eq_refl eq_refl) as Hrun.
  assert (signs (Date_now env) "whsec_c2VjcmV0" request raw) as Hsigns.
  { split; [reflexivity|]. exists "msg_1", "1000". split_and!; try reflexivity; try discriminate. }
  specialize (Hrun Hsigns eq_refl eq_refl eq_refl eq_refl eq_refl eq_refl).
  eexists _, _. split; [exact Hup|]. split; [exact Hrun|]. split; reflexivity.
Defined.
End Demo.

Lemma credential_round_trip_witness :
  (upsert (H := Demo.toy_zod) (H0 := Demo.toy_host) (H1 := Demo.toy_url) (H2 := Demo.toy_crypto) Demo.env Demo.admin "a1" Demo.body Demo.world).1
    = Ok ("c1", "email_resend", unverified)
  ∧ channels_ok Demo.registered.
Proof.
  split; [vm_compute; reflexivity|].
  refine (proj1 (credential_round_trip (H := Demo.toy_zod) (H0 := Demo.toy_host) (H1 := Demo.toy_url) (H2 := Demo.toy_crypto) (H3 := Demo.toy_laws)
    (H4 := Demo.toy_hmac) (λ _ _ _, None) Demo.env Demo.admin "a1" Demo.body [] Demo.world "c1" "email_resend" unverified _ Demo.world_ok _ _ _)).
  - reflexivity.
  - reflexivity.
  - vm_compute. reflexivity.
Defined.
