(* ===== verification/AlimtalkProps.v ===== *)
(** * Alimtalk: the default sender, and what a synchronisation needs

    An app has at most one default sender as long as the requests run one after
    the other; two of them in parallel can leave two.  A synchronisation is
    queued for a sender of the app only when the worker can act on it. *)

From Stdlib Require Import Ascii QArith.
From stdpp Require Import sorting.
From S2P Require Import Prelude JsVal Crypto BranchCondition Json Schema Authz AuthDb ChannelDb Alimtalk.

#[global] Open Scope Z_scope.

(** ** The invariant *)

Definition same_app (a b : Sender) : Prop := sd_tenant a = sd_tenant b ∧ sd_app a = sd_app b.
Definition sender_slot (s : Sender) : string * string := (sd_app s, sd_sender_key s).

Record senders_ok (l : list Sender) : Prop := {
  so_ids : List.NoDup (map sd_id l);
  so_keys : List.NoDup (map sender_slot l);
  so_default : ∀ a b, In a l → In b l → same_app a b → sd_is_default a = true → sd_is_default b = true → a = b }.

Section Alimtalk.
Context `{Zod} (env : Env) (member : SessionMember).

Lemma sender_scope_spec appId s : sender_scope member appId s = true ↔ sd_tenant s = sm_tenantId member ∧ sd_app s = appId.
Proof. unfold sender_scope, scoped. by rewrite andb_true_iff, !String.eqb_eq. Qed.

Definition cleared (appId : string) (l : list Sender) : list Sender :=
  update_where (λ s, sender_scope member appId s && sd_is_default s)
    (λ s, mkSender (sd_id s) (sd_tenant s) (sd_app s) (sd_sender_key s) (sd_channel_name s) (sd_status s) false
            (sd_created_at s) (pg_now env)) l.

Lemma cleared_none appId l s : In s (cleared appId l) → sender_scope member appId s = true → sd_is_default s = false.
Proof.
  unfold cleared. intros [(x&_&_&->)|[_ Hp]]%update_where_In Hs; [done|]. by rewrite Hs in Hp.
Qed.
Lemma cleared_default appId l s : In s (cleared appId l) → sd_is_default s = true → In s l.
Proof. unfold cleared. by intros [(x&_&_&->)|[? _]]%update_where_In Hd. Qed.
Lemma cleared_ok appId l : senders_ok l → senders_ok (cleared appId l).
Proof.
  intros [Hi Hk Hd]. split.
  - unfold cleared, update_where. rewrite map_map. erewrite map_ext; [exact Hi|]. intros s. by destruct (_ && _).
  - unfold cleared, update_where. rewrite map_map. erewrite map_ext; [exact Hk|]. intros s. by destruct (_ && _).
  - intros a b Ha Hb Hab Hda Hdb. apply Hd; eauto using cleared_default.
Qed.

(** [write], after the statement that takes the old default away *)
Definition prepared (appId : string) (becomesDefault : bool) (w : World) : World :=
  if becomesDefault then set_senders (cleared appId (senders w)) w else w.

Lemma inDefaultTx_ok appId b write w row w' :
  inDefaultTx env member appId b write w = (Ok row, w') → write (prepared appId b w) = (Ok (Some row), w').
Proof.
  unfold inDefaultTx. intros E. apply (proj1 (transaction_ok _ _ _ _)) in E. apply bind_ok in E as (u&w1&E1&E).
  assert (w1 = prepared appId b w) as -> by (unfold prepared; destruct b; by injection E1).
  apply bind_ok in E as (o&w2&Hw&[-> ->]%some_or_throw_ok). done.
Qed.
Lemma inDefaultTx_throw appId b write w e w' : inDefaultTx env member appId b write w = (Throw e, w') → w' = w.
Proof. apply transaction_throw. Qed.

Lemma prepared_ok appId b w : senders_ok (senders w) → senders_ok (senders (prepared appId b w)).
Proof. unfold prepared. destruct b; [apply cleared_ok|done]. Qed.
Lemma prepared_none appId w s :
  In s (senders (prepared appId true w)) → sender_scope member appId s = true → sd_is_default s = false.
Proof. apply cleared_none. Qed.

Lemma insert_sender_ok s w row w' :
  senders_ok (senders w) → insert_sender s w = (Ok row, w') →
  (sd_is_default s = true → ∀ x, In x (senders w) → same_app x s → sd_is_default x = false) →
  senders_ok (senders w') ∧ row = Some s ∧ senders w' = senders w ++ [s].
Proof.
  intros [Hi Hk Hd] E Hnone. unfold insert_sender in E. apply bind_ok in E as (x&w1&[= <- <-]&E).
  apply bind_ok in E as (u&w1&[Hf ->]%throw_if_ok&E). apply bind_ok in E as (u1&w2&[= _ <-]&[= <- <-]).
  split; [|done]. change (senders (set_senders ?l w)) with l.
  assert (∀ y, In y (senders w) → sd_id y ≠ sd_id s ∧ sender_slot y ≠ sender_slot s) as Hfresh.
  { intros y Hy. pose proof (existsb_fresh _ _ Hf y Hy) as Hb. cbn beta in Hb. apply orb_false_iff in Hb as [Hb1 Hb2].
    split; [by b2p|]. unfold sender_slot. intros [= E1 E2]. rewrite E1, E2, !String.eqb_refl in Hb2. done. }
  split.
  - apply NoDup_key_snoc; [done|]. intros y Hy. by apply Hfresh.
  - apply NoDup_key_snoc; [done|]. intros y Hy. by apply Hfresh.
  - intros a b [Ha|[<-|[]]]%in_app_iff [Hb|[<-|[]]]%in_app_iff Hab Hda Hdb; [by apply Hd| | |done].
    + by rewrite (Hnone Hdb a Ha Hab) in Hda.
    + rewrite (Hnone Hda b Hb) in Hdb; [done|]. destruct Hab. by split.
Qed.

Lemma create_ok appId body w row w' :
  senders_ok (senders w) → create env member appId body w = (Ok row, w') →
  senders_ok (senders w') ∧ In row (senders w') ∧ sd_tenant row = sm_tenantId member ∧ sd_app row = appId.
Proof.
  intros Hok E. unfold create in E. apply bind_ok in E as (u&w1&[-> _]%permitted_ok&E).
  apply bind_ok in E as (u1&w1&[-> _]%assertApp_ok&E).
  apply bind_ok in E as (data&w1&[_ ->]%some_or_throw_ok&E). apply bind_ok in E as (r&w2&Htx&E).
  apply bind_ok in E as (u2&w3&[= _ <-]&[= -> <-]). apply inDefaultTx_ok in Htx.
  assert (senders_ok (senders w2) ∧ Some row = Some (mkSender (gen_uuid env 0) (sm_tenantId member) appId
      (str_of (prop data "sender_key")) (str_of (prop data "channel_name")) (str_of (prop data "status"))
      (bool_of (prop data "is_default")) (pg_now env) (pg_now env)) ∧ senders w2 = senders (prepared appId (bool_of (prop data "is_default")) w) ++
      [mkSender (gen_uuid env 0) (sm_tenantId member) appId
      (str_of (prop data "sender_key")) (str_of (prop data "channel_name")) (str_of (prop data "status"))
      (bool_of (prop data "is_default")) (pg_now env) (pg_now env)]) as (Hok2&[= ->]&Hs).
  { eapply insert_sender_ok; [by apply prepared_ok|exact Htx|]. cbn [sd_is_default]. intros Hd x Hx [E1 E2]. rewrite Hd in Hx.
    apply (prepared_none appId w x Hx). by apply sender_scope_spec. }
  split; [exact Hok2|]. change (senders (set_audit ?l w2)) with (senders w2). rewrite Hs. split; [|done].
  apply in_app_iff. right. by left.
Qed.

Lemma update_sender_ok appId id data w row w' :
  senders_ok (senders w) → update_sender env member appId id data w = (Ok row, w') →
  (bool_of (prop data "is_default") = true → ∀ x, In x (senders w) → sender_scope member appId x = true → sd_is_default x = false) →
  senders_ok (senders w') ∧ ∀ r, row = Some r → In r (senders w') ∧ sender_scope member appId r = true.
Proof.
  intros [Hi Hk Hd] E Hnone. unfold update_sender in E. apply bind_ok in E as (u&w1&[= _ <-]&E).
  apply bind_ok in E as (x&w1&[= <- <-]&[= <- <-]). change (senders (set_senders ?l w)) with l.
  set (l' := update_where (sender_at member appId id) (update_row env data) (senders w)). split.
  - split.
    + unfold l', update_where. rewrite map_map. erewrite map_ext; [exact Hi|]. intros s. by destruct (sender_at _ _ _ _).
    + unfold l', update_where. rewrite map_map. erewrite map_ext; [exact Hk|]. intros s. by destruct (sender_at _ _ _ _).
    + assert (∀ a b, In a (senders w) → In b (senders w) → sender_at member appId id a = true → sender_at member appId id b = false →
        same_app a b → sd_is_default (update_row env data a) = true → sd_is_default b = true → a = b) as Hmix.
      { intros a b Ha Hb Hat Hbt [E1 E2] Hda Hdb. unfold sender_at in Hat. apply andb_true_iff in Hat as [Hsc _].
        unfold update_row in Hda. cbn [sd_is_default] in Hda. destruct (prop data "is_default") as [| |[]| | | |] eqn:Ep; try done;
          try (by apply Hd; [done|done|by split|done|done]).
        cbn [bool_of] in Hnone. assert (sender_scope member appId b = true) as Hb2.
        { apply sender_scope_spec in Hsc as [E3 E4]. apply sender_scope_spec. split; congruence. }
        by rewrite (Hnone eq_refl b Hb Hb2) in Hdb. }
      assert (∀ a b, In a (senders w) → In b (senders w) → sender_at member appId id a = true → sender_at member appId id b = true → a = b) as Hone.
      { intros a b Ha Hb [_ E1%String.eqb_eq]%andb_true_iff [_ E2%String.eqb_eq]%andb_true_iff.
        apply (NoDup_map_eq sd_id (senders w)); congruence. }
      intros a b [(x&Hx&Hpx&->)|[Ha Hpa]]%update_where_In [(y&Hy&Hpy&->)|[Hb Hpb]]%update_where_In Hab Hda Hdb.
      * by rewrite (Hone x y).
      * assert (x = b) as -> by (by apply Hmix). congruence.
      * assert (y = a) as -> by (apply Hmix; try done; destruct Hab; by split). congruence.
      * by apply Hd.
  - intros r Hr. apply select1_Some in Hr as [Hin Hat]. split; [done|]. by apply andb_true_iff in Hat as [? _].
Qed.

Lemma update_ok appId id body w row w' :
  senders_ok (senders w) → update env member appId id body w = (Ok row, w') →
  senders_ok (senders w') ∧ In row (senders w') ∧ sd_tenant row = sm_tenantId member ∧ sd_app row = appId.
Proof.
  intros Hok E. unfold update in E. apply bind_ok in E as (u&w1&[-> _]%permitted_ok&E).
  apply bind_ok in E as (u1&w1&[-> _]%assertApp_ok&E). apply bind_ok in E as (data&w1&[_ ->]%parse_ok&E).
  apply bind_ok in E as (r&w2&Htx%inDefaultTx_ok&E). apply bind_ok in E as (u2&w3&[= _ <-]&[= -> <-]).
  apply update_sender_ok in Htx as [Hok2 Hrow]; [|by apply prepared_ok|].
  - destruct (Hrow row eq_refl) as [Hin Hsc%sender_scope_spec]. done.
  - intros Hd x Hx Hsc. rewrite Hd in Hx. by apply (prepared_none appId w).
Qed.

Lemma remove_sender_ok appId id w : senders_ok (senders w) → senders_ok (senders (remove_sender env member appId id w).2).
Proof.
  intros Hok. unfold remove_sender, mbind, M_bind. pose proof (readonly_permitted member journeys_write w) as Hr.
  destruct (permitted member journeys_write w) as [[u|e] w1]; cbn [snd] in Hr; subst w1; [|done].
  pose proof (readonly_assertApp member appId w) as Hr. destruct (assertApp member appId w) as [[u1|e] w1]; cbn [snd] in Hr; subst w1; [|done].
  cbn [get modify]. assert (senders_ok (delete_where (sender_at member appId id) (senders w))) as Hd.
  { destruct Hok as [Hi Hk Hd]. split; [by apply NoDup_map_filter|by apply NoDup_map_filter|].
    intros a b [Ha _]%delete_where_In [Hb _]%delete_where_In. by apply Hd. }
  destruct (throw_if _ _ _) as [[u2|e] w2] eqn:E.
  - apply throw_if_ok in E as [_ ->]. exact Hd.
  - apply throw_if_throw in E as (_&_&->). exact Hd.
Qed.
End Alimtalk.

(** ** Histories *)

Inductive SenderRequest :=
| Create (env : Env) (member : SessionMember) (appId : string) (body : jsval)
| Update (env : Env) (member : SessionMember) (appId id : string) (body : jsval)
| RemoveSender (env : Env) (member : SessionMember) (appId id : string).

Section Histories.
Context `{Zod}.

(** the sender a request returned, if it returned one, and the store *)
Definition returned {A} (run : outcome A * World) : option A * World :=
  match run with (Ok a, w) => (Some a, w) | (Throw _, w) => (None, w) end.
Definition serve_sender (w : World) (r : SenderRequest) : option Sender * World :=
  match r with
  | Create env member appId body => returned (create env member appId body w)
  | Update env member appId id body => returned (update env member appId id body w)
  | RemoveSender env member appId id => (None, (remove_sender env member appId id w).2)
  end.

Lemma create_throw env member appId body w e w' : create env member appId body w = (Throw e, w') → w' = w.
Proof.
  unfold create. intros E.
  apply bind_throw_inv in E as [E|(u&w1&[-> _]%permitted_ok&E)]; [pose proof (readonly_permitted member journeys_write w) as Hr; by rewrite E in Hr|].
  apply bind_throw_inv in E as [E|(u1&w1&[-> _]%assertApp_ok&E)]; [pose proof (readonly_assertApp member appId w) as Hr; by rewrite E in Hr|].
  apply bind_throw_inv in E as [(_&_&->)%some_or_throw_throw|(data&w1&[_ ->]%parse_ok&E)]; [done|].
  apply bind_throw_inv in E as [E%inDefaultTx_throw|(r&w2&_&E)]; [done|]. by apply bind_throw_inv in E as [E|(u2&w3&_&E)].
Qed.
Lemma update_throw env member appId id body w e w' : update env member appId id body w = (Throw e, w') → w' = w.
Proof.
  unfold update. intros E.
  apply bind_throw_inv in E as [E|(u&w1&[-> _]%permitted_ok&E)]; [pose proof (readonly_permitted member journeys_write w) as Hr; by rewrite E in Hr|].
  apply bind_throw_inv in E as [E|(u1&w1&[-> _]%assertApp_ok&E)]; [pose proof (readonly_assertApp member appId w) as Hr; by rewrite E in Hr|].
  apply bind_throw_inv in E as [(_&_&->)%some_or_throw_throw|(data&w1&[_ ->]%parse_ok&E)]; [done|].
  apply bind_throw_inv in E as [E%inDefaultTx_throw|(r&w2&_&E)]; [done|]. by apply bind_throw_inv in E as [E|(u2&w3&_&E)].
Qed.

Lemma serve_sender_ok w r : senders_ok (senders w) → senders_ok (senders (serve_sender w r).2).
Proof.
  intros Hok. destruct r as [env member appId body|env member appId id body|env member appId id]; cbn [serve_sender].
  - destruct (create env member appId body w) as [[row|e] w'] eqn:E; cbn [returned snd]; [by eapply create_ok|by rewrite (create_throw _ _ _ _ _ _ _ E)].
  - destruct (update env member appId id body w) as [[row|e] w'] eqn:E; cbn [returned snd]; [by eapply update_ok|by rewrite (update_throw _ _ _ _ _ _ _ _ E)].
  - by apply remove_sender_ok.
Qed.

(** When the requests about senders run one after the other, from an empty
    table on, every app has at most one default sender, no sender key twice
    within an app, and a sender that a request returned as the default is the
    only default of its app. *)
Theorem one_default_sender w0 history r row w' :
  senders w0 = [] → serve_sender (fold_left (λ w r, (serve_sender w r).2) history w0) r = (Some row, w') →
  senders_ok (senders w') ∧ In row (senders w')
  ∧ (sd_is_default row = true → ∀ s, In s (senders w') → same_app s row → sd_is_default s = true → s = row).
Proof.
  intros H0 E.
  assert (senders_ok (senders (fold_left (λ w r, (serve_sender w r).2) history w0))) as Hok.
  { assert (senders_ok (senders w0)) as Hw by (rewrite H0; split; [constructor|constructor|done]). clear E H0.
    revert w0 Hw. induction history as [|x history IH]; intros w0 Hw; [done|]. by apply IH, serve_sender_ok. }
  assert (senders_ok (senders w') ∧ In row (senders w')) as [Hok' Hin].
  { destruct r as [env member appId body|env member appId id body|env member appId id]; [| |done].
    - cbn [serve_sender] in E. destruct (create env member appId body _) as [[x|e] w1] eqn:E1; [|done]. injection E as -> ->.
      by destruct (create_ok _ _ _ _ _ _ _ Hok E1) as (?&?&_).
    - cbn [serve_sender] in E. destruct (update env member appId id body _) as [[x|e] w1] eqn:E1; [|done]. injection E as -> ->.
      by destruct (update_ok _ _ _ _ _ _ _ _ Hok E1) as (?&?&_). }
  split; [done|]. split; [done|]. intros Hd s Hs Hsame Hds. by apply (so_default _ Hok').
Qed.
End Histories.

(** *** Two requests at once

    Under READ COMMITTED neither transaction sees the other's row before it
    commits: the statements of two requests for a first default, interleaved,
    leave two defaults.  (The statements are those of [inDefaultTx].) *)
Lemma two_defaults env member appId s1 s2 w :
  senders w = [] → sd_id s1 ≠ sd_id s2 → sd_sender_key s1 ≠ sd_sender_key s2 → same_app s1 s2 →
  sd_is_default s1 = true → sd_is_default s2 = true →
  let w' := (_ ← clear_default env member appId; _ ← clear_default env member appId; _ ← insert_sender s1; insert_sender s2) w in
  w'.1 = Ok (Some s2) ∧ senders w'.2 = [s1; s2] ∧ ¬ senders_ok (senders w'.2).
Proof.
  intros Hw Hid Hkey Hsame H1 H2. assert (senders (set_senders (cleared env member appId (senders w)) w) = []) as Hc by (by rewrite Hw).
  assert ((_ ← clear_default env member appId; _ ← clear_default env member appId; _ ← insert_sender s1; insert_sender s2) w
    = (Ok (Some s2), set_senders [s1; s2] (set_senders [s1] (set_senders [] (set_senders [] w))))) as ->.
  { unfold clear_default, insert_sender, mbind, M_bind, modify, get, throw_if, mret, M_ret. cbn. rewrite Hw. cbn.
    apply String.eqb_neq in Hid, Hkey. by rewrite Hid, Hkey, andb_false_r. }
  split; [done|]. split; [done|]. intros [_ _ Hd]. apply Hid. f_equal. apply Hd; try done; [by left|by right; left].
Qed.

(** ** Synchronisation *)

Section Sync.
Context `{Zod} (env : Env) (member : SessionMember).

Definition sync_message (appId : string) (s : Sender) (connectorId : string) : QueueMessage :=
  mkMessage STREAMS_alimtalkTemplateSync "alimtalk.template.sync" (sm_tenantId member) appId (Date_now env)
    (sync_payload env member appId s connectorId).

(** What the worker finds when it takes the job *)
Record can_sync (appId : string) (w : World) (s : Sender) (connectorId : string) : Prop := {
  cs_sender : In s (senders w) ∧ sd_tenant s = sm_tenantId member ∧ sd_app s = appId;
  cs_wired : ∃ c, In c (connectors w) ∧ cn_tenant c = sm_tenantId member ∧ cn_app c = appId
    ∧ cn_channel c = ALIMTALK_CHANNEL ∧ cn_enabled c = true ∧ cn_connector_id c = connectorId;
  cs_credential : ∃ c, In c (credentials w) ∧ cr_tenant c = sm_tenantId member ∧ cr_app c = appId
    ∧ cr_kind c = ALIMTALK_CREDENTIAL_KIND ∧ cr_status c = verified }.
(** ... and why it was [s]: it was named, it is the default, or it is the only one *)
Definition chosen (appId : string) (w : World) (requested : option string) (s : Sender) : Prop :=
  match requested with
  | Some id => sd_id s = id
  | None => sd_is_default s = true
      ∨ ∀ x, In x (senders w) → sd_tenant x = sm_tenantId member → sd_app x = appId → x = s
  end.

Lemma pickSender_ok appId requested w s w' :
  pickSender member appId requested w = (Ok s, w') →
  w' = w ∧ In s (senders w) ∧ sd_tenant s = sm_tenantId member ∧ sd_app s = appId ∧ chosen appId w requested s.
Proof.
  unfold pickSender. intros E. apply bind_ok in E as (x&w1&[= <- <-]&E).
  set (p := λ s, sender_scope member appId s && match requested with Some id => String.eqb (sd_id s) id | None => true end) in *.
  assert (∀ x, In x (merge_sort default_first (select p (senders w))) ↔ In x (senders w) ∧ p x = true) as Hrows.
  { intros x. rewrite <- select_In. pose proof (merge_sort_Permutation default_first (select p (senders w))) as HP.
    split; apply Permutation_in; [done|by symmetry]. }
  set (rows := merge_sort default_first (select p (senders w))) in *.
  assert (head rows = Some s → In s (senders w) ∧ p s = true) as Hs.
  { intros Hh. apply Hrows. destruct rows; [done|]. injection Hh as ->. by left. }
  destruct requested as [id|].
  - apply some_or_throw_ok in E as [Hh ->]. destruct (Hs Hh) as [Hin Hp]. unfold p in Hp. apply andb_true_iff in Hp as [Hsc%sender_scope_spec Hid].
    b2p. by destruct Hsc.
  - apply bind_ok in E as (first&w1&[Hh ->]%some_or_throw_ok&E).
    destruct (sd_is_default first || Nat.eqb (length rows) 1) eqn:Eq; [|done]. injection E as -> <-.
    destruct (Hs Hh) as [Hin Hp]. unfold p in Hp. apply andb_true_iff in Hp as [[Hten Happ]%sender_scope_spec _].
    split_and!; try done. apply orb_true_iff in Eq as [Hd|Hlen%Nat.eqb_eq]; [by left|]. right. intros x Hx Hxt Hxa.
    assert (In x rows) as Hxr.
    { apply Hrows. split; [done|]. unfold p. rewrite andb_true_r. by apply sender_scope_spec. }
    destruct rows as [|y [|z rows]]; try done. injection Hh as ->. by destruct Hxr as [|[]].
Qed.

Lemma assertWired_ok appId w c w' :
  assertWired member appId w = (Ok c, w') → w' = w ∧ ∀ s, In s (senders w) ∧ sd_tenant s = sm_tenantId member ∧ sd_app s = appId → can_sync appId w s c.
Proof.
  unfold assertWired. intros E. apply bind_ok in E as (x&w1&[= <- <-]&E).
  apply bind_ok in E as (wired&w1&[[Hin Hp]%select1_Some ->]%some_or_throw_ok&E).
  apply bind_ok in E as (u&w1&[Hen ->]%throw_if_ok&E).
  apply bind_ok in E as (cred&w1&[[Hin2 Hp2]%select1_Some ->]%some_or_throw_ok&E).
  apply bind_ok in E as (u1&w1&[Hver ->]%throw_if_ok&[= <- <-]). unfold scoped in *. b2p. split; [done|].
  intros s Hs. split; [done|by exists wired|by exists cred].
Qed.

Lemma readonly_sync appId requested : readonly (pickSender member appId requested) ∧ readonly (assertWired member appId).
Proof.
  split.
  - unfold pickSender. apply readonly_bind; [auto with nudgeon|]. intros w. destruct requested; [auto with nudgeon|].
    apply readonly_bind; [auto with nudgeon|]. intros s. destruct (_ || _); auto with nudgeon.
  - unfold assertWired. apply readonly_bind; [auto with nudgeon|]. intros w. apply readonly_bind; [auto with nudgeon|]. intros c.
    apply readonly_bind; [auto with nudgeon|]. intros _. apply readonly_bind; [auto with nudgeon|]. intros cr.
    apply readonly_bind; auto with nudgeon.
Qed.

(** A synchronisation is queued only when it can do its work: for a sender
    of the app that was named, is the default or is the only one, through the
    enabled connector of the channel and with a verified credential, all of the
    member's tenant.  Every other request leaves the store as it was. *)
Theorem sync_is_wired appId body w :
  let run := sync env member appId body w in
  (run.2 = w ∧ ∀ id, run.1 ≠ Ok id)
  ∨ ∃ q s c l, senderQuerySchema (or_empty body) = Some q ∧ run.1 = Ok (sd_id s)
      ∧ can_sync appId w s c ∧ chosen appId w (opt_str (prop q "sender_id")) s
      ∧ run.2 = set_audit l (set_queue (queue w ++ [sync_message appId s c]) w).
Proof.
  cbv zeta. destruct (sync env member appId body w) as [[id|e] w'] eqn:E; unfold sync in E; cbn [fst snd].
  - right. apply bind_ok in E as (u&w1&[-> _]%permitted_ok&E). apply bind_ok in E as (u1&w1&[-> _]%assertApp_ok&E).
    apply bind_ok in E as (q&w1&[Hq ->]%parse_ok&E). apply bind_ok in E as (s&w1&(->&Hin&Hten&Happ&Hch)%pickSender_ok&E).
    apply bind_ok in E as (c&w1&[-> Hw]%assertWired_ok&E). apply bind_ok in E as (u2&w2&->%publish_ok&E).
    apply bind_ok in E as (u3&w3&[l ->]%recordAs_ok&[= <- <-]). exists q, s, c, l. split_and!; try done. by apply Hw.
  - left. split; [|done]. destruct (readonly_sync appId None) as [_ HrW].
    apply bind_throw_inv in E as [E|(u&w1&[-> _]%permitted_ok&E)]; [pose proof (readonly_permitted member journeys_write w) as Hr; by rewrite E in Hr|].
    apply bind_throw_inv in E as [E|(u1&w1&[-> _]%assertApp_ok&E)]; [pose proof (readonly_assertApp member appId w) as Hr; by rewrite E in Hr|].
    apply bind_throw_inv in E as [(_&_&->)%some_or_throw_throw|(q&w1&[_ ->]%parse_ok&E)]; [done|].
    apply bind_throw_inv in E as [E|(s&w1&(->&_)%pickSender_ok&E)].
    { destruct (readonly_sync appId (opt_str (prop q "sender_id"))) as [Hr _]. specialize (Hr w). by rewrite E in Hr. }
    apply bind_throw_inv in E as [E|(c&w1&[-> _]%assertWired_ok&E)]; [specialize (HrW w); by rewrite E in HrW|].
    apply bind_throw_inv in E as [E%publish_throw|(u2&w2&_&E)]; [done|]. by apply bind_throw_inv in E as [E|(u3&w3&_&E)].
Qed.
End Sync.

(** ** A concrete history *)

Module SenderDemo.
Definition env (id : string) : Env :=
  mkEnv (λ _, id) "k" Z.of_nat 0 0 (λ _, "t") (λ _, None) (mkEntropy [] [] []) (Ok []) (λ _ _, true) None None false.
Definition editor : SessionMember := mkSessionMember "m" "t1" "e@x" "E" "editor" false false.
Definition world : World := mkWorld [mkAppRow "a1" "t1" "UTC" JNull JNull] [] [] [] [] [] [] [] [] [] [] [] [] [].
Definition body (key : string) : jsval := JObj [("sender_key", JStr key); ("is_default", JBool true)].
Definition history : list SenderRequest := [Create (env "s1") editor "a1" (body "k1"); Create (env "s2") editor "a1" (body "k2")].
Definition last : SenderRequest := Update (env "x") editor "a1" "s1" (JObj [("is_default", JBool true)]).
End SenderDemo.

Lemma one_default_sender_witness : ∃ row w',
  serve_sender (fold_left (λ w r, (serve_sender w r).2) SenderDemo.history SenderDemo.world)
    SenderDemo.last = (Some row, w')
  ∧ sd_id row = "s1" ∧ map sd_is_default (senders w') = [true; false] ∧ senders_ok (senders w').
Proof.
  destruct (serve_sender (fold_left (λ w r, (serve_sender w r).2) SenderDemo.history SenderDemo.world)
    SenderDemo.last) as [[row|] w'] eqn:E; [|vm_compute in E; discriminate E].
  exists row, w'. split; [reflexivity|].
  pose proof (proj1 (one_default_sender SenderDemo.world SenderDemo.history SenderDemo.last row w' eq_refl E)) as Hok.
  vm_compute in E. injection E as <- <-. split; [reflexivity|]. split; [reflexivity|exact Hok].
Defined.
