(* ===== verification/MessageEditor.v ===== *)
(** * Editing messages and drafts in the console
    ([apps/console/src/app/journeys/alimtalk-variables.ts],
    [journey-templates.ts] and the checks of [journey-editor-model.ts])

    The pure functions behind the editor's forms: the placeholders of an
    Alimtalk template and their values, the channel of a message, the starter
    journeys, the checks before a draft is saved, the unit of a duration.

    A mapping is a JavaScript object: a name it does not have may be inherited
    ([EmailTemplates.inherited_text]), and then [.trim()] is a [TypeError]. *)

From Stdlib Require Import Ascii QArith Qround.
From S2P Require Import Prelude JsVal Crypto Json JsonParse Schema Authz AuthDb ChannelDb Credentials EmailTemplates BranchCondition JourneyModel.

#[global] Open Scope Z_scope.

(** ** Placeholders *)

(** the text up to the first closing brace, and what follows it *)
Fixpoint until_brace (s : string) : option (string * string) :=
  match s with
  | EmptyString => None
  | String c s' => if Ascii.eqb c "}" then Some ("", s') else '(n, r) ← until_brace s'; Some (String c n, r)
  end.
(** [VAR_PATTERN = /#\{([^}]{1,50})\}/] at the front of [s]: the name and the rest *)
Definition match_token (s : string) : option (string * string) :=
  s ← strip "#{" s;
  '(raw, r) ← until_brace s;
  if (1 <=? js_length raw) && (js_length raw <=? 50) then Some (raw, r) else None.

(** a template, cut at its placeholders *)
Inductive Piece := Lit (c : ascii) | Tok (raw : string).
Fixpoint pieces_upto (n : nat) (s : string) : list Piece :=
  match n, s with
  | S n, String c s' =>
      match match_token s with
      | Some (raw, r) => Tok raw :: pieces_upto n r
      | None => Lit c :: pieces_upto n s'
      end
  | _, _ => []
  end.
Definition pieces (content : string) : list Piece := pieces_upto (String.length content) content.
Definition token (raw : string) : string := "#{" +:+ raw +:+ "}".

Definition nonblank (s : string) : bool := negb (String.eqb s "").
Definition extractVariables (content : string) : list string :=
  dedup (List.filter nonblank (omap (λ p, match p with Tok raw => Some (js_trim raw) | Lit _ => None end) (pieces content))).

Record TemplateLike := mkTemplate { tp_content : option string; tp_variables : option (list string) }.
Definition templateVariables (template : option TemplateLike) : list string :=
  match template with
  | None => []
  | Some t =>
      let declared := List.filter nonblank (map js_trim (default [] (tp_variables t))) in
      match declared with [] => extractVariables (default "" (tp_content t)) | _ => dedup declared end
  end.

Definition Mapping : Type := option (list (string * string)).
(** [(mapping?.[name] ?? "").trim()] *)
Definition mapped (mapping : Mapping) (name : string) : outcome string :=
  match mapping with
  | None => Ok ""
  | Some m =>
      match JMap.get m name with
      | Some v => Ok (js_trim v)
      | None => if JMap.has inherited_text name then Throw (PlainError "TypeError") else Ok ""
      end
  end.

Fixpoint unmappedVariables (variables : list string) (mapping : Mapping) : outcome (list string) :=
  match variables with
  | [] => Ok []
  | name :: l => v ← mapped mapping name; rest ← unmappedVariables l mapping; Ok (if nonblank v then rest else name :: rest)
  end.
Definition staleVariables (variables : list string) (mapping : Mapping) : list string :=
  List.filter (λ name, negb (String_in name variables)) (JMap.keys (default [] mapping)).

Fixpoint render_pieces (ps : list Piece) (mapping : Mapping) : outcome string :=
  match ps with
  | [] => Ok ""
  | Lit c :: ps => t ← render_pieces ps mapping; Ok (String c t)
  | Tok raw :: ps =>
      v ← mapped mapping (js_trim raw);
      t ← render_pieces ps mapping;
      Ok ((if nonblank v then v else token raw) +:+ t)
  end.
Definition renderTemplatePreview (content : string) (mapping : Mapping) : outcome string := render_pieces (pieces content) mapping.

Definition isProfileReference (value : string) : bool :=
  match match_var (js_trim value) with Some (_, r) => String.eqb r "" | None => false end.

(** ** The channel of a message *)

Definition withMessageChannel (node : MessageNode) (channel : Channel) : MessageNode :=
  match channel with
  | CPush => mkMessage (Some (default (mkPush (Some "") (Some "") None None) (push node))) None None
  | CEmail => mkMessage None (Some (default (mkEmail (Some "") (Some "") None) (email node))) None
  | CAlimtalk => mkMessage None None (Some (default (mkAlimtalk (Some "") (Some "") [] None) (alimtalk node)))
  end.

(** ** Starter journeys *)

Inductive JourneyTemplate := welcome | return_ | update.
Definition template_name (t : JourneyTemplate) : string := match t with welcome => "welcome" | return_ => "return" | update => "update" end.
Definition JOURNEY_TEMPLATES : list JourneyTemplate := [welcome; return_; update].
Definition isJourneyTemplate (value : string) : bool := existsb (λ t, String.eqb (template_name t) value) JOURNEY_TEMPLATES.

Definition starter_delay (t : JourneyTemplate) : Z := match t with welcome => 600 | return_ => 86400 | update => 0 end.
Definition starter_event (t : JourneyTemplate) : string :=
  match t with welcome => "sign_up" | return_ => "product_viewed" | update => "playlist_updated" end.
Definition createJourneyTemplate (t : JourneyTemplate) (title body : string) : JourneyDefinition :=
  let delayed := negb (starter_delay t =? 0) in
  mkDefinition (Some (NInt 2)) (Some (mkEntry (Some "trigger") None (Some (starter_event t))))
    (Some ((if delayed then [mkNode (Some "wait") (NDelay (mkDelay (NInt (starter_delay t))))] else [])
           ++ [mkNode (Some "message") (NMessage (mkMessage (Some (mkPush (Some title) (Some body) None None)) None None))]))
    (Some (if delayed then "wait" else "message"))
    (Some ((if delayed then [mkEdge "wait-message" "wait" "next" (Some "message")] else [])
           ++ [mkEdge "message-exit" "message" "next" None]))
    (Some (mkExit (match t with return_ => Some "purchase_completed" | _ => None end)))
    (Some (mkSettings (Some (match t with update => "transactional" | _ => "marketing" end))
             (match t with update => RAlways | _ => RNever end))).

(** ** Checks of a draft *)

Definition positive_safe (n : num) : bool := Number_isSafeInteger n && num_ltb (NInt 0) n.

(** every number that [JSON.stringify] visits is finite *)
Fixpoint finite_value (v : jsval) : bool :=
  match v with
  | JNum n => Number_isFinite n
  | JArr l => forallb finite_value l
  | JObj f => forallb (λ p, finite_value (snd p)) f
  | _ => true
  end.
Definition finite_body (b : NodeBody) : bool :=
  match b with
  | NDelay n => Number_isFinite (duration_seconds n)
  | NBranch n => finite_value (condition n)
  | NEventWait n => Number_isFinite (timeout_seconds n)
  | NABSplit n => forallb (λ v, Number_isFinite (weight v)) (default [] (variants n))
  | _ => true
  end.
Definition finite_definition (def : JourneyDefinition) : bool :=
  match schema_version def with Some n => Number_isFinite n | None => true end
  && forallb (λ n, finite_body (body n)) (nodes_of def)
  && match reentry <$> settings def with Some (RAfterDays n) => Number_isFinite n | _ => true end.

(** [checkDraft]: the key of the error it throws *)
Definition checkDraft (name : string) (def : JourneyDefinition) : option string :=
  if String.eqb (js_trim name) "" then Some "model.check.nameRequired"
  else if 200 <? js_length name then Some "model.check.nameTooLong"
  else if existsb (λ n, match body n with NDelay d => negb (positive_safe (duration_seconds d)) | _ => false end) (nodes_of def)
  then Some "model.check.delay"
  else if existsb (λ n, match body n with NEventWait w => negb (positive_safe (timeout_seconds w)) | _ => false end) (nodes_of def)
  then Some "model.check.eventWaitTimeout"
  else if existsb (λ n, match body n with
                        | NABSplit s => existsb (λ v, negb (Number_isSafeInteger (weight v)) || num_ltb (weight v) (NInt 1)
                                                      || num_ltb (NInt 99) (weight v)) (default [] (variants s))
                        | _ => false end) (nodes_of def)
  then Some "model.check.abWeight"
  else if match reentry <$> settings def with Some (RAfterDays n) => negb (positive_safe n) | _ => false end
  then Some "model.check.reentry"
  else if negb (finite_definition def) then Some "model.check.nonFiniteNumber"
  else None.

(** ** Durations *)

Definition DURATION_UNITS : list Z := [1; 60; 3600; 86400].

Definition durationUnit (seconds : num) : Z :=
  match seconds with
  | NFin q =>
      default 1 (List.find (λ unit, num_ltb (NInt 0) seconds && q_is_int q && (q_trunc q mod unit =? 0)) (rev DURATION_UNITS))
  | _ => 1
  end.

(** ** The message editor: starter journeys, channels and previews

    Every starter journey can be saved and published as soon as its push is
    filled in; changing the channel leaves exactly one; the preview of an
    Alimtalk template shows every value and leaves exactly the placeholders the
    editor lists as missing. *)
(** ** Starter journeys *)

Lemma withMessageChannel_one node c : messageChannel (withMessageChannel node c) = Some c.
Proof. by destruct c. Qed.

Lemma withMessageChannel_id node c : messageChannel node = Some c → withMessageChannel node c = node.
Proof.
  destruct node as [[p|] [e|] [a|]]; try done; unfold messageChannel; simpl; by intros [= <-].
Qed.

Lemma starter_valid fmt t title body :
  blank title = false → blank body = false →
  hasErrors (validateJourney fmt (createJourneyTemplate t title body)) = false.
Proof.
  intros Ht Hb. change (error_free (validateJourney fmt (createJourneyTemplate t title body))).
  assert (step_errors (NMessage (mkMessage (Some (mkPush (Some title) (Some body) None None)) None None)) = []) as Hm
    by (cbn -[blank]; by rewrite Ht, Hb).
  assert (∀ def g i, error_free (node_issues def g i (mkNode (Some "message")
    (NMessage (mkMessage (Some (mkPush (Some title) (Some body) None None)) None None)))) ↔ True) as Hn.
  { intros def g i. unfold node_issues. cbn [JourneyModel.body]. rewrite Hm. by destruct g. }
  unfold validateJourney. rewrite !error_free_app. split_and!; try (destruct t; vm_compute; reflexivity).
  rewrite error_free_concat.
  destruct t; cbn -[node_issues error_free]; repeat (apply Forall_cons; split); try (by apply Hn); by constructor.
Qed.

Lemma starter_saved t name title body :
  js_trim name ≠ "" → js_length name <= 200 → checkDraft name (createJourneyTemplate t title body) = None.
Proof.
  intros Hn Hl. unfold checkDraft. apply String.eqb_neq in Hn. rewrite Hn.
  replace (200 <? js_length name) with false by (symmetry; apply Z.ltb_ge; lia). by destruct t.
Qed.

(** A starter journey is ready to use. For each name the console knows,
    with a push title and body that are not blank, the draft passes the
    editor's own checks under any name of 1 to 200 characters, publishing it
    reports no error, and it sends one message, by push. Whatever channel the
    user then picks, the message has that channel and no other; picking the
    channel it has changes nothing, and picking a channel twice is picking it
    once. *)
Theorem starters_are_publishable fmt :
  (∀ value, isJourneyTemplate value = true → ∃ t, template_name t = value
     ∧ ∀ name title body, blank title = false → blank body = false → js_trim name ≠ "" → js_length name <= 200 →
         let def := createJourneyTemplate t title body in
         checkDraft name def = None ∧ hasErrors (validateJourney fmt def) = false
         ∧ omap (λ n, match JourneyModel.body n with NMessage m => Some (messageChannel m) | _ => None end) (nodes_of def)
           = [Some CPush])
  ∧ (∀ node c, messageChannel (withMessageChannel node c) = Some c
       ∧ withMessageChannel (withMessageChannel node c) c = withMessageChannel node c)
  ∧ ∀ node c, messageChannel node = Some c → withMessageChannel node c = node.
Proof.
  split_and!.
  - intros value (t&_&Ht%String.eqb_eq)%existsb_exists. exists t. split; [done|]. intros name title body H1 H2 H3 H4.
    split_and!; [by apply starter_saved|by apply starter_valid|by destruct t].
  - intros node c. pose proof (withMessageChannel_one node c) as H. split; [done|]. by apply withMessageChannel_id.
  - apply withMessageChannel_id.
Qed.

(** ** Previews *)

Definition piece_text (p : Piece) : string := match p with Lit c => String c "" | Tok raw => token raw end.
Definition pieces_text (ps : list Piece) : string := foldr (λ p t, piece_text p +:+ t) "" ps.

Lemma strip_text w s r : strip w s = Some r → s = w +:+ r.
Proof.
  revert s r. induction w as [|c w IH]; intros s r; simpl; [by intros [= ->]|].
  destruct s as [|d s]; [done|]. destruct (Ascii.eqb_spec c d) as [->|]; [|done]. by intros ->%IH.
Qed.

Lemma until_brace_text s n r : until_brace s = Some (n, r) → s = n +:+ String "}" r.
Proof.
  revert n r. induction s as [|c s IH]; intros n r; simpl; [done|].
  destruct (Ascii.eqb_spec c "}") as [->|]; [by intros [= <- <-]|].
  destruct (until_brace s) as [[k q]|] eqn:E; simpl; [|done]. intros [= <- <-]. by rewrite (IH k q).
Qed.

Lemma match_token_text s raw r : match_token s = Some (raw, r) → s = token raw +:+ r.
Proof.
  unfold match_token. destruct (strip "#{" s) as [s'|] eqn:Hs; simpl; [|done].
  destruct (until_brace s') as [[n q]|] eqn:Hu; simpl; [|done]. case_match; [|done]. intros [= <- <-].
  apply strip_text in Hs as ->. apply until_brace_text in Hu as ->. unfold token. by rewrite <- !str_app_assoc.
Qed.

Lemma pieces_complete content : pieces_text (pieces content) = content.
Proof.
  unfold pieces. assert (String.length content <= String.length content)%nat as H by lia. revert H.
  generalize (String.length content) at 2 3 as n. intros n. revert content.
  induction n as [|n IH]; intros [|c s] H; simpl in *; try done; try lia.
  destruct (match_token (String c s)) as [[raw r]|] eqn:E; simpl.
  - rewrite IH; [by rewrite (match_token_text _ _ _ E)|].
    apply match_token_text in E. apply (f_equal String.length) in E. simpl in E. unfold token in E. simpl in E. 
    rewrite !str_length_app in E. simpl in E. lia.
  - rewrite IH by lia. done.
Qed.

Definition tokens (ps : list Piece) : list string :=
  omap (λ p, match p with Tok raw => Some (js_trim raw) | Lit _ => None end) ps.

(** what a preview shows, given the placeholders listed as missing: each other
    placeholder is its value, those stay as they are written *)
Inductive Shown (mapping : Mapping) (missed : list string) : list Piece → string → Prop :=
| shown_nil : Shown mapping missed [] ""
| shown_lit c ps t : Shown mapping missed ps t → Shown mapping missed (Lit c :: ps) (String c t)
| shown_value raw v ps t :
    js_trim raw ∉ missed → mapped mapping (js_trim raw) = Ok v → v ≠ "" →
    Shown mapping missed ps t → Shown mapping missed (Tok raw :: ps) (v +:+ t)
| shown_token raw ps t :
    js_trim raw ∈ missed ∨ js_trim raw = "" → mapped mapping (js_trim raw) = Ok "" →
    Shown mapping missed ps t → Shown mapping missed (Tok raw :: ps) (token raw +:+ t).

Lemma nonblank_spec s : nonblank s = true ↔ s ≠ "".
Proof. unfold nonblank. by rewrite negb_true_iff, String.eqb_neq. Qed.

Lemma mapped_blank mapping : ∃ v, mapped mapping "" = Ok v.
Proof. unfold mapped. destruct mapping as [m|]; [|by eauto]. destruct (JMap.get m ""); by eauto. Qed.

Lemma unmapped_spec variables mapping l :
  unmappedVariables variables mapping = Ok l →
  (∀ name, name ∈ variables → ∃ v, mapped mapping name = Ok v)
  ∧ ∀ name, name ∈ l ↔ name ∈ variables ∧ mapped mapping name = Ok "".
Proof.
  revert l. induction variables as [|x xs IH]; intros l; simpl.
  { intros [= <-]. split; [by intros ? ?%elem_of_nil|]. intros name. rewrite elem_of_nil. tauto. }
  intros (v&Hv&(rest&Hr&[= <-])%outcome_bind_ok)%outcome_bind_ok. destruct (IH rest Hr) as [H1 H2]. split.
  - intros name [->|Hin]%elem_of_cons; eauto.
  - intros name. destruct (nonblank v) eqn:E; rewrite ?elem_of_cons, H2.
    + apply nonblank_spec in E. split; [tauto|]. intros [[->|Hin] Hm]; [|done]. congruence.
    + unfold nonblank in E. apply negb_false_iff, String.eqb_eq in E as ->.
      split; [intros [->|[]]; tauto|]. intros [[->|Hin] Hm]; auto.
Qed.

Lemma unmapped_complete variables mapping :
  (∀ name, name ∈ variables → ∃ v, mapped mapping name = Ok v) → ∃ l, unmappedVariables variables mapping = Ok l.
Proof.
  induction variables as [|x xs IH]; intros H; simpl; [by eauto|].
  destruct (H x) as [v ->]; [by left|]. destruct IH as [l ->]; [intros; apply H; by right|]. by eauto.
Qed.

Lemma extractVariables_spec content name :
  name ∈ extractVariables content ↔ name ∈ tokens (pieces content) ∧ name ≠ "".
Proof.
  unfold extractVariables. rewrite !list_elem_of_In, dedup_In, filter_In, nonblank_spec. done.
Qed.

Lemma render_shown mapping missed ps :
  (∀ raw, Tok raw ∈ ps → ∃ v, mapped mapping (js_trim raw) = Ok v
     ∧ (v = "" → js_trim raw ∈ missed ∨ js_trim raw = "") ∧ (v ≠ "" → js_trim raw ∉ missed)) →
  ∃ text, render_pieces ps mapping = Ok text ∧ Shown mapping missed ps text.
Proof.
  induction ps as [|p ps IH]; intros H; simpl; [eexists; split; [done|constructor]|].
  destruct IH as (t&Ht&Hs); [intros raw Hin; apply H; by right|]. destruct p as [c|raw].
  - rewrite Ht. eexists. split; [done|by constructor].
  - destruct (H raw) as (v&Hv&H1&H2); [by left|]. rewrite Hv, Ht. simpl. eexists. split; [done|].
    destruct (nonblank v) eqn:E.
    + apply nonblank_spec in E. by apply shown_value; auto.
    + unfold nonblank in E. apply negb_false_iff, String.eqb_eq in E as ->. by apply shown_token; auto.
Qed.

Lemma tokens_spec ps name : name ∈ tokens ps ↔ ∃ raw, Tok raw ∈ ps ∧ name = js_trim raw.
Proof.
  unfold tokens. rewrite list_elem_of_omap. split.
  - intros ([c|raw]&Hin&[= <-]). by exists raw.
  - intros (raw&Hin&->). by exists (Tok raw).
Qed.

Lemma preview_shown content mapping l :
  unmappedVariables (extractVariables content) mapping = Ok l →
  ∃ text, renderTemplatePreview content mapping = Ok text ∧ Shown mapping l (pieces content) text.
Proof.
  intros [H1 H2]%unmapped_spec. apply render_shown. intros raw Hin.
  destruct (base.decide (js_trim raw = "")) as [Hb|Hb].
  - rewrite Hb. destruct (mapped_blank mapping) as [v Hv]. exists v. split_and!; [done|tauto|].
    intros _ [Hx _]%H2. by apply extractVariables_spec in Hx as [_ []].
  - assert (js_trim raw ∈ extractVariables content) as Hx by (apply extractVariables_spec; rewrite tokens_spec; eauto).
    destruct (H1 _ Hx) as [v Hv]. exists v. split_and!; [done| |].
    + intros ->. left. by apply H2.
    + intros Hne [_ Hm]%H2. congruence.
Qed.

(** The preview of an Alimtalk template and the list of missing values
    agree. The cut at the placeholders loses nothing of the template; the names
    the editor asks for are the names of its placeholders, once each and never
    blank; when the missing ones can be listed the preview can be written, and
    it shows the template with each placeholder replaced by its value, except
    the listed ones (and one without a name), which stay as they are. So with
    nothing missing every named placeholder shows a value, and the values that
    are left over are exactly those the template does not ask for. *)
Theorem preview_agrees content mapping l :
  unmappedVariables (extractVariables content) mapping = Ok l →
  pieces_text (pieces content) = content
  ∧ List.NoDup (extractVariables content)
  ∧ (∀ name, name ∈ extractVariables content ↔ name ≠ "" ∧ ∃ raw, Tok raw ∈ pieces content ∧ name = js_trim raw)
  ∧ (∀ name, name ∈ l ↔ name ∈ extractVariables content ∧ mapped mapping name = Ok "")
  ∧ (∃ text, renderTemplatePreview content mapping = Ok text ∧ Shown mapping l (pieces content) text)
  ∧ ∀ name, name ∈ staleVariables (extractVariables content) mapping
      ↔ name ∈ JMap.keys (default [] mapping) ∧ name ∉ extractVariables content.
Proof.
  intros H. split_and!.
  - apply pieces_complete.
  - apply dedup_NoDup.
  - intros name. rewrite extractVariables_spec, tokens_spec. tauto.
  - by apply unmapped_spec.
  - by apply preview_shown.
  - intros name. unfold staleVariables. rewrite list_elem_of_In, filter_In, negb_true_iff, String_in_false.
    by rewrite <- !list_elem_of_In.
Qed.

(** A template with a value, a missing one and a repeated one, on a mapping
    with a value it no longer asks for; and the template whose placeholder has
    the name of an inherited property, on which the editor stops. *)
Module PreviewDemo.
Definition content : string := "Hi #{name}, order #{ no } of #{name}: #{until}".
Definition mapping : Mapping := Some [("name", " {{first_name}} "); ("no", "17"); ("old", "x")].

Lemma preview_agrees_witness :
  unmappedVariables (extractVariables content) mapping = Ok ["until"]
  ∧ (∃ text, renderTemplatePreview content mapping = Ok text ∧ Shown mapping ["until"] (pieces content) text)
  ∧ renderTemplatePreview content mapping = Ok "Hi {{first_name}}, order 17 of {{first_name}}: #{until}"
  ∧ staleVariables (extractVariables content) mapping = ["old"].
Proof.
  assert (unmappedVariables (extractVariables content) mapping = Ok ["until"]) as H by (vm_compute; reflexivity).
  split_and!; [exact H|apply (preview_agrees content mapping ["until"] H)|vm_compute; reflexivity|vm_compute; reflexivity].
Defined.
End PreviewDemo.

(** A placeholder named like a property every object inherits stops both the
    list of missing values and the preview, whatever the mapping holds of other names. *)
Lemma inherited_name_stops mapping :
  JMap.get mapping "constructor" = None →
  unmappedVariables (extractVariables "#{constructor}") (Some mapping) = Throw (PlainError "TypeError")
  ∧ renderTemplatePreview "#{constructor}" (Some mapping) = Throw (PlainError "TypeError").
Proof.
  intros H. assert (extractVariables "#{constructor}" = ["constructor"]) as -> by (vm_compute; reflexivity).
  assert (pieces "#{constructor}" = [Tok "constructor"]) as Hp by (vm_compute; reflexivity).
  assert (mapped (Some mapping) "constructor" = Throw (PlainError "TypeError")) as Hm.
  { unfold mapped. rewrite H. vm_compute. reflexivity. }
  split; [|unfold renderTemplatePreview; rewrite Hp]; cbn [unmappedVariables render_pieces].
  - by rewrite Hm.
  - assert (js_trim "constructor" = "constructor") as -> by (vm_compute; reflexivity). by rewrite Hm.
Qed.

(** The starter for returning customers, saved and published as it is written. *)
Module StarterDemo.
Lemma starters_are_publishable_witness :
  (∃ t, template_name t = "return" ∧ checkDraft "Come back" (createJourneyTemplate t "Still thinking?" "Your cart is waiting.") = None)
  ∧ isJourneyTemplate "sale" = false
  ∧ isProfileReference " {{ first_name }} " = true ∧ durationUnit (NInt 7200) = 3600.
Proof.
  split; [|split_and!; vm_compute; reflexivity].
  destruct (starters_are_publishable (λ _, "")) as [H _].
  destruct (H "return") as (t&Ht&Hok); [vm_compute; reflexivity|]. exists t. split; [exact Ht|].
  apply (Hok "Come back" "Still thinking?" "Your cart is waiting."); vm_compute; congruence.
Defined.
End StarterDemo.
