(* ===== verification/ConnectorForm.v ===== *)
(** * The console's form for a connector
    ([apps/console/src/app/channels/alimtalk/connector-schema.ts])

    A connector's manifest declares its settings as a JSON Schema; the console
    draws a field per string property, and turns the values into the body the
    credentials endpoint takes and the configuration of the wiring.
    [saveSetup] is the pair of requests of [connector-setup.tsx].  A property
    named [__proto__] is left out of the model. *)

From Stdlib Require Import Ascii.
From S2P Require Import Prelude JsVal BranchCondition Crypto Json Schema Authz AuthDb ChannelDb Credentials Alimtalk WebhookProps.

#[global] Open Scope Z_scope.

(** ** Fields *)

Inductive FieldKind := KText | KPassword | KSelect.
#[global] Instance FieldKind_eq_dec : EqDecision FieldKind.
Proof. solve_decision. Defined.

Record SchemaField := mkField {
  sf_name : string; sf_label : string; sf_description : option string; sf_required : bool; sf_secret : bool;
  sf_kind : FieldKind; sf_options : option (list string); sf_placeholder : option string; sf_defaultValue : option string }.

Definition asRecord (v : jsval) : option (list (string * jsval)) := match v with JObj f => Some f | _ => None end.
Definition is_text (s : string) (v : jsval) : bool := match v with JStr x => String.eqb x s | _ => false end.
Definition is_true_value (v : jsval) : bool := match v with JBool b => b | _ => false end.

Definition isStringProperty (type : jsval) : bool :=
  match type with
  | JUndef | JNull => true
  | JStr s => String.eqb s "string"
  | JArr l => existsb (is_text "string") l
  | _ => false
  end.
Definition isSecret (p : jsval) : bool :=
  is_true_value (prop p "x-secret") || is_true_value (prop p "writeOnly") || is_text "password" (prop p "format").

(** the strings among the values *)
Definition strings_of (l : list jsval) : list string := omap opt_str l.
Definition stringEnum (v : jsval) : option (list string) :=
  match v with
  | JArr (x :: l) => let out := strings_of (x :: l) in if Nat.eqb (length out) (length (x :: l)) then Some out else None
  | _ => None
  end.

Definition field_of (required : list string) (name : string) (rawProp : jsval) : option SchemaField :=
  let p := JObj (default [] (asRecord rawProp)) in
  if negb (isStringProperty (prop p "type")) then None
  else
    let options := stringEnum (prop p "enum") in
    let secret := isSecret p in
    Some (mkField name
      (match prop p "title" with JStr s => if String.eqb s "" then name else s | _ => name end)
      (opt_str (prop p "description")) (String_in name required) secret
      (match options with Some _ => KSelect | None => if secret then KPassword else KText end) options
      (match prop p "examples" with JArr l => head (strings_of l) | _ => None end)
      (opt_str (prop p "default"))).

Definition schemaFields (schema : jsval) : list SchemaField :=
  match asRecord schema with
  | None => []
  | Some _ =>
      if negb (is_undef (prop schema "type")) && negb (is_text "object" (prop schema "type")) then []
      else
        match asRecord (prop schema "properties") with
        | None => []
        | Some properties =>
            let required := match prop schema "required" with JArr l => strings_of l | _ => [] end in
            omap (λ p, field_of required (fst p) (snd p)) properties
        end
  end.

Definition initial_value (f : SchemaField) : string :=
  match sf_defaultValue f with
  | Some v => v
  | None => if bool_decide (sf_kind f = KSelect) then default "" (default [] (sf_options f) !! 0%nat) else ""
  end.
Definition initialValues (fields : list SchemaField) : list (string * string) :=
  fold_left (λ out f, JMap.set out (sf_name f) (initial_value f)) fields [].

(** ** Slots *)

Definition CREDENTIAL_SLOTS : list string := ["api_key"; "secret_key"; "sender_key"; "base_url"].
Definition SLOT_ALIASES : list (string * list string) :=
  [("api_key", ["apikey"; "appkey"; "accesskey"; "clientkey"]);
   ("secret_key", ["secretkey"; "apisecret"; "secret"; "clientsecret"; "password"]);
   ("sender_key", ["senderkey"; "senderprofilekey"; "plusfriendid"]);
   ("base_url", ["baseurl"; "apiurl"; "endpoint"; "apiendpoint"])].

(** [s.replace(/[^a-z0-9]/g, "")] *)
Fixpoint only_alnum (s : string) : string :=
  match s with
  | EmptyString => EmptyString
  | String c s' => if is_lower c || is_digit c then String c (only_alnum s') else only_alnum s'
  end.

Section Form.
Context `{Host}.

Definition normalizeName (name : string) : string := only_alnum (toLowerCase name).

Definition credentialSlot (name : string) : option string :=
  List.find (λ slot, String_in (normalizeName name) (default [] (JMap.get SLOT_ALIASES slot))) CREDENTIAL_SLOTS.

(** ** Plans *)

Record CredentialPlan := mkPlan {
  extra : list (string * string); credential : list (string * string); missingRequired : list string; empty : bool }.

Definition canSubmit (plan : CredentialPlan) : bool :=
  match missingRequired plan with [] => negb (empty plan) | _ => false end.

(** [(values[field.name] ?? "").trim()] *)
Definition value_of (values : list (string * string)) (f : SchemaField) : string :=
  js_trim (default "" (JMap.get values (sf_name f))).

Definition plan_field (values : list (string * string)) (plan : CredentialPlan) (f : SchemaField) : CredentialPlan :=
  let value := value_of values f in
  if String.eqb value "" then
    if sf_required f then mkPlan (extra plan) (credential plan) (missingRequired plan ++ [sf_label f]) (empty plan) else plan
  else
    mkPlan (JMap.set (extra plan) (sf_name f) value)
      (match credentialSlot (sf_name f) with Some slot => JMap.set (credential plan) slot value | None => credential plan end)
      (missingRequired plan) (empty plan).

Definition planCredential (fields : list SchemaField) (values : list (string * string)) : CredentialPlan :=
  let plan := fold_left (plan_field values) fields (mkPlan [] [] [] true) in
  mkPlan (extra plan) (credential plan) (missingRequired plan) (match extra plan with [] => true | _ => false end).

(** the key of the message, and its parameters *)
Inductive FieldDestination := WithSlot (name slot : string) | Plain.
Definition fieldDestination (f : SchemaField) : FieldDestination :=
  match credentialSlot (sf_name f) with
  | Some slot => if String.eqb slot (sf_name f) then Plain else WithSlot (sf_name f) slot
  | None => Plain
  end.

Definition planConfig (fields : list SchemaField) (values : list (string * string)) : list (string * string) :=
  fold_left (λ out f, let value := value_of values f in
    if String.eqb value "" then out else JMap.set out (sf_name f) value) fields [].

(** ** Saving *)

Definition text_object (l : list (string * string)) : list (string * jsval) := map (λ p, (fst p, JStr (snd p))) l.

(** [{ kind: "alimtalk", connector_id, extra: plan.extra, ...plan.credential }] *)
Definition credentialBody (connector_id : string) (plan : CredentialPlan) : jsval :=
  JObj ([("kind", JStr "alimtalk"); ("connector_id", JStr connector_id); ("extra", JObj (text_object (extra plan)))]
        ++ text_object (credential plan)).

(** The two requests: the credential, then the wiring of the channel *)
Definition saveSetup `{Zod, ZodUrl, Crypto} (env env' : Env) (member : SessionMember) (appId connector_id : string)
    (plan : CredentialPlan) (config : list (string * string)) : W (option Connector) :=
  _ ← upsert env member appId (credentialBody connector_id plan);
  upsert_connector env' member appId ALIMTALK_CHANNEL
    (JObj [("connector_id", JStr connector_id); ("config", JObj (text_object config)); ("enabled", JBool true)]).
End Form.

(** ** The console's form for a connector: what the vendor gets

    A plan the console lets a user submit is accepted by the credentials
    endpoint (within its limits), and what is stored gives the connector every
    declared field under its own name, except a name another field's slot
    takes over. *)
(** ** Maps as lists *)

Definition set_all {V} (l m : list (string * V)) : list (string * V) := fold_left (λ out p, JMap.set out (fst p) (snd p)) l m.

Lemma get_set_all {V} (l m : list (string * V)) k :
  List.NoDup (map fst l) → JMap.get (set_all l m) k = match JMap.get l k with Some v => Some v | None => JMap.get m k end.
Proof.
  revert m. induction l as [|[x v] l IH]; intros m Hnd; [done|]. cbn [map fst] in Hnd. apply NoDup_cons_iff in Hnd as [Hn Hnd].
  unfold set_all. cbn [fold_left fst snd]. fold (set_all l (JMap.set m x v)). rewrite IH by done.
  rewrite JMap.get_cons, JMap.get_set. destruct (String.eqb x k) eqn:E; [|done]. b2p. subst k.
  destruct (JMap.get l x) eqn:Ex; [|done]. destruct Hn. apply (proj1 (JMap.get_keys l x)). by rewrite Ex.
Qed.
Lemma fold_skip {A B} (c : A → bool) (f : B → A → B) l m :
  fold_left (λ out p, if c p then out else f out p) l m = fold_left f (List.filter (λ p, negb (c p)) l) m.
Proof. revert m. induction l as [|x l IH]; intros m; [done|]. simpl. rewrite IH. by destruct (c x). Qed.
Lemma get_filter_keys {V} (q : string → bool) (l : list (string * V)) k :
  JMap.get (List.filter (λ p, negb (q (fst p))) l) k = if q k then None else JMap.get l k.
Proof.
  induction l as [|[x v] l IH]; [by destruct (q k)|]. cbn [List.filter fst]. rewrite JMap.get_cons.
  destruct (String.eqb x k) eqn:E.
  - b2p. subst x. destruct (q k) eqn:Eq; cbn [negb]; [exact IH|]. by rewrite JMap.get_cons, String.eqb_refl.
  - destruct (q x); cbn [negb]; [exact IH|]. by rewrite JMap.get_cons, E.
Qed.

Lemma get_text_object l k : JMap.get (text_object l) k = JStr <$> JMap.get l k.
Proof.
  induction l as [|[x v] l IH]; [done|]. cbn [text_object map fst snd]. rewrite !JMap.get_cons. destruct (String.eqb x k); [done|exact IH].
Qed.
Lemma keys_text_object l : map fst (text_object l) = map fst l.
Proof. unfold text_object. rewrite map_map. by apply map_ext. Qed.

(** ** The stored form *)

(** What a flattened payload reads under a name *)
Lemma get_flatten payload ex k :
  List.NoDup (map fst payload) → Forall (λ p, is_undef (snd p) = false) payload →
  JMap.get payload "extra" = Some (JObj ex) → List.NoDup (map fst ex) →
  JMap.get (flattenCredentialPayload payload) k =
    match (if String.eqb k "extra" then None else JMap.get payload k) with
    | Some v => Some v
    | None => if String_in k RESERVED_CREDENTIAL_KEYS then None else JMap.get ex k
    end.
Proof.
  intros Hnd Hdef Hex Hndx. unfold flattenCredentialPayload. rewrite Hex.
  rewrite !(fold_skip _ (λ out p, JMap.set out (fst p) (snd p))).
  fold (set_all (List.filter (λ p, negb (String_in (fst p) RESERVED_CREDENTIAL_KEYS)) ex) []).
  assert (List.filter (λ p : string * jsval, negb (is_undef (snd p))) (JMap.delete payload "extra") = JMap.delete payload "extra") as ->.
  { assert (Forall (λ p : string * jsval, is_undef (snd p) = false) (JMap.delete payload "extra")) as Hd.
    { apply List.Forall_forall. intros p [Hp _]%filter_In. rewrite List.Forall_forall in Hdef. auto. }
    induction Hd as [|p l Hp Hl IH]; [done|]. simpl. by rewrite Hp, IH. }
  fold (set_all (JMap.delete payload "extra") (set_all (List.filter (λ p, negb (String_in (fst p) RESERVED_CREDENTIAL_KEYS)) ex) [])).
  rewrite get_set_all by (by apply NoDup_map_filter). rewrite get_filter_key.
  rewrite get_set_all by (by apply NoDup_map_filter). rewrite (get_filter_keys (λ s, String_in s RESERVED_CREDENTIAL_KEYS)).
  by destruct (String.eqb k "extra"), (JMap.get payload k), (String_in k RESERVED_CREDENTIAL_KEYS), (JMap.get ex k).
Qed.

(** ** What an object schema returns *)

Lemma s_fields_total shape v : Forall (λ p, is_Some (snd p (prop v (fst p)))) shape → is_Some (s_fields shape v).
Proof.
  induction 1 as [|[k s] shape [o Ho] Hs [l IH]]; [by eexists|]. eexists. apply s_fields_cons. by exists o, l.
Qed.
Lemma s_fields_shape shape v l : List.NoDup (map fst shape) → s_fields shape v = Some l →
  List.NoDup (map fst l) ∧ Forall (λ p, is_undef (snd p) = false) l.
Proof.
  revert l. induction shape as [|[k s] shape IH]; intros l Hnd; [intros [= <-]; split; constructor|].
  cbn [map fst] in Hnd. apply NoDup_cons_iff in Hnd as [Hn Hnd]. intros (o&l'&Ho&Hl&->)%s_fields_cons.
  destruct (IH l' Hnd Hl) as [H1 H2]. destruct (is_undef o) eqn:Eo; [done|]. split; [|by constructor].
  cbn [map fst]. apply NoDup_cons_iff. split; [|done]. intros (p&Ep&Hp)%in_map_iff. apply Hn. rewrite <- Ep. by eapply s_fields_keys.
Qed.
(** a property of an object without undefined values *)
Lemma get_defined l k v : Forall (λ p, is_undef (snd p) = false) l → prop (JObj l) k = v →
  JMap.get l k = if is_undef v then None else Some v.
Proof.
  intros Hl <-. change (prop (JObj l) k) with (default JUndef (JMap.get l k)). destruct (JMap.get l k) as [v|] eqn:E; [|done].
  apply JMap.get_In in E. rewrite List.Forall_forall in Hl. specialize (Hl _ E). simpl in *. by rewrite Hl.
Qed.

Lemma optional_keeps c v o : s_optional (s_check c) v = Some o → o = v.
Proof. destruct v; simpl; [by intros [= <-]|..]; by intros [-> _]%check_keeps. Qed.
Lemma record_texts hi l : Forall (λ p, js_length (snd p) <= hi) l → s_record (s_max hi) (JObj (text_object l)) = Some (JObj (text_object l)).
Proof.
  intros Hl. unfold s_record. assert (mapM (λ p, o ← s_max hi (snd p); Some (fst p, o)) (text_object l) = Some (text_object l)) as ->; [|done].
  induction Hl as [|[k s] l Hs Hl IH]; [done|]. cbn [text_object map mapM fst snd]. unfold s_max, s_string, s_check in *. cbn [string_check].
  pose proof (js_length_nonneg s). assert ((0 <=? js_length s) && (js_length s <=? hi) = true) as -> by (cbn [snd] in Hs; lia).
  cbn [mbind option_bind]. fold (text_object l). by rewrite IH.
Qed.

Section Form.
Context `{Zod} `{Host} `{ZodUrl}.
Context (fields : list SchemaField) (values : list (string * string)) (conn : string).

(** ** What a plan holds *)

Definition filled (f : SchemaField) : bool := negb (String.eqb (value_of values f) "").
(** the last filled field the condition holds of *)
Definition last_value (p : SchemaField → bool) (fs : list SchemaField) : option string :=
  fold_left (λ o f, if filled f && p f then Some (value_of values f) else o) fs None.
Definition named (k : string) (f : SchemaField) : bool := String.eqb (sf_name f) k.
Definition slotted (k : string) (f : SchemaField) : bool := bool_decide (credentialSlot (sf_name f) = Some k).

(** What the connector reads under [k]: the value of the last filled field of that
    slot; or else the field of that name, unless the name is reserved. *)
Definition vendor_reads (k : string) : option string :=
  if String.eqb k "connector_id" then Some conn
  else match last_value (slotted k) fields with
       | Some v => Some v
       | None => if String_in k RESERVED_CREDENTIAL_KEYS then None else last_value (named k) fields
       end.

Abbreviation run := (fold_left (plan_field values)).
Abbreviation plan := (planCredential fields values).

Lemma plan_extra fs p k :
  JMap.get (extra (run fs p)) k = fold_left (λ o f, if filled f && named k f then Some (value_of values f) else o) fs (JMap.get (extra p) k).
Proof.
  revert p. induction fs as [|f fs IH]; intros p; [done|]. cbn [fold_left]. rewrite IH. f_equal. unfold plan_field, filled, named.
  destruct (String.eqb (value_of values f) ""); cbn [negb andb]; [by destruct (sf_required f)|]. cbn [extra]. by rewrite JMap.get_set.
Qed.
Lemma plan_credential fs p k :
  JMap.get (credential (run fs p)) k = fold_left (λ o f, if filled f && slotted k f then Some (value_of values f) else o) fs (JMap.get (credential p) k).
Proof.
  revert p. induction fs as [|f fs IH]; intros p; [done|]. cbn [fold_left]. rewrite IH. f_equal. unfold plan_field, filled, slotted.
  destruct (String.eqb (value_of values f) ""); cbn [negb andb]; [by destruct (sf_required f)|]. cbn [credential].
  destruct (credentialSlot (sf_name f)) as [s|]; [|done]. rewrite JMap.get_set. destruct (String.eqb s k) eqn:E; b2p.
  - subst. by rewrite bool_decide_true.
  - rewrite bool_decide_false; [done|]. by intros [= ?].
Qed.
Lemma plan_keys fs p :
  List.NoDup (map fst (extra p)) ∧ List.NoDup (map fst (credential p)) →
  List.NoDup (map fst (extra (run fs p))) ∧ List.NoDup (map fst (credential (run fs p))).
Proof.
  revert p. induction fs as [|f fs IH]; intros p Hp; [done|]. cbn [fold_left]. apply IH. unfold plan_field.
  destruct Hp as [He Hc]. destruct (String.eqb _ ""); [by destruct (sf_required f)|]. cbn [extra credential].
  split; [by apply JMap.NoDup_keys_set|]. destruct (credentialSlot _); [by apply JMap.NoDup_keys_set|done].
Qed.
Lemma plan_missing fs p :
  missingRequired (run fs p) = missingRequired p ++ map sf_label (List.filter (λ f, sf_required f && negb (filled f)) fs).
Proof.
  revert p. induction fs as [|f fs IH]; intros p; [by rewrite app_nil_r|]. cbn [fold_left List.filter]. rewrite IH. unfold plan_field, filled.
  destruct (String.eqb _ ""), (sf_required f); cbn [negb andb missingRequired map]; [|done..]. by rewrite <- app_assoc.
Qed.

Lemma last_value_slot k v : last_value (slotted k) fields = Some v → In k CREDENTIAL_SLOTS.
Proof.
  unfold last_value. assert (∀ fs o, (o = None ∨ In k CREDENTIAL_SLOTS) →
    fold_left (λ o f, if filled f && slotted k f then Some (value_of values f) else o) fs o = Some v → In k CREDENTIAL_SLOTS) as Hg.
  { induction fs as [|f fs IH]; intros o Ho E; [destruct Ho as [->|?]; done|]. cbn [fold_left] in E. eapply IH; [|exact E].
    destruct (filled f && slotted k f) eqn:Es; [|exact Ho]. right. apply andb_true_iff in Es as [_ Es]. unfold slotted in Es.
    apply bool_decide_eq_true in Es. unfold credentialSlot in Es. by apply find_some in Es as [? _]. }
  apply Hg. by left.
Qed.

(** a field whose name nobody else's slot takes *)
Lemma reads_own f :
  List.NoDup (map sf_name fields) → In f fields → filled f = true → String_in (sf_name f) RESERVED_CREDENTIAL_KEYS = false →
  (∀ g, In g fields → credentialSlot (sf_name g) = Some (sf_name f) → g = f) →
  vendor_reads (sf_name f) = Some (value_of values f).
Proof.
  intros Hnd Hin Hf Hr Hslot.
  assert (∀ q o fs, (∀ g, In g fs → filled g && q g = true → g = f) → (o = None ∨ o = Some (value_of values f)) →
    let r := fold_left (λ o g, if filled g && q g then Some (value_of values g) else o) fs o in
    (r = o ∧ (∀ g, In g fs → filled g && q g = false)) ∨ r = Some (value_of values f)) as Hfold.
  { clear Hnd Hin Hslot. intros q o fs. revert o. induction fs as [|g fs IH]; intros o Hq Ho; [left; by split|]. cbn [fold_left].
    assert (∀ g0, In g0 fs → filled g0 && q g0 = true → g0 = f) as Hq' by (intros; apply Hq; [by right|done]).
    destruct (filled g && q g) eqn:Eg.
    - right. rewrite (Hq g (or_introl eq_refl) Eg). by destruct (IH (Some (value_of values f)) Hq' (or_intror eq_refl)) as [[-> _]| ->].
    - destruct (IH o Hq' Ho) as [[Hr1 Hno]|Hr1]; [|by right]. left. split; [done|]. intros g' [<-|Hg']; [done|by apply Hno]. }
  unfold vendor_reads. assert (String.eqb (sf_name f) "connector_id" = false) as ->.
  { apply String.eqb_neq. intros E. by rewrite E in Hr. }
  destruct (Hfold (slotted (sf_name f)) None fields) as [[Es Hno]|Es]; [|by left| |].
  { intros g Hg Hgs. apply Hslot; [done|]. apply andb_true_iff in Hgs as [_ Hgs]. by apply bool_decide_eq_true in Hgs. }
  - unfold last_value. rewrite Es, Hr. destruct (Hfold (named (sf_name f)) None fields) as [[_ Hn]| ->]; [|by left| |done].
    + intros g Hg [_ Hgn]%andb_true_iff. apply String.eqb_eq in Hgn. by apply (NoDup_map_eq sf_name fields).
    + specialize (Hn f Hin). unfold named in Hn. by rewrite Hf, String.eqb_refl in Hn.
  - unfold last_value. by rewrite Es.
Qed.

(** ** Acceptance *)

(** The limits of the endpoint *)
Definition slot_fits (slot v : string) : bool :=
  if String.eqb slot "api_key" then (1 <=? js_length v) && (js_length v <=? 512)
  else if String.eqb slot "secret_key" then js_length v <=? 512
  else if String.eqb slot "sender_key" then js_length v <=? 256
  else zod_url v.
Definition fits (plan : CredentialPlan) : bool :=
  CHANNEL_RE conn && forallb (λ p, js_length (snd p) <=? 4096) (extra plan)
  && forallb (λ p, slot_fits (fst p) (snd p)) (credential plan).

Abbreviation body := (credentialBody conn plan).

Lemma body_prop k : prop body k =
  if String.eqb k "kind" then JStr "alimtalk" else if String.eqb k "connector_id" then JStr conn
  else if String.eqb k "extra" then JObj (text_object (extra plan))
  else match last_value (slotted k) fields with Some v => JStr v | None => JUndef end.
Proof.
  unfold credentialBody. change (prop (JObj ?l) k) with (default JUndef (JMap.get l k)). cbn [app]. rewrite !JMap.get_cons.
  rewrite !(String.eqb_sym _ k). destruct (String.eqb k "kind"); [done|]. destruct (String.eqb k "connector_id"); [done|].
  destruct (String.eqb k "extra"); [done|]. rewrite get_text_object. unfold planCredential. cbn [credential].
  rewrite plan_credential. cbn [credential]. change (JMap.get [] k) with (@None string). fold (last_value (slotted k) fields).
  by destruct (last_value _ _).
Qed.

Lemma body_kind : prop body "kind" = JStr "alimtalk".
Proof. by rewrite body_prop. Qed.
Lemma body_connector : prop body "connector_id" = JStr conn.
Proof. by rewrite body_prop. Qed.
Lemma body_extra : prop body "extra" = JObj (text_object (extra plan)).
Proof. by rewrite body_prop. Qed.

Lemma slot_accepted k c : In k CREDENTIAL_SLOTS → fits plan = true → (∀ v, slot_fits k v = true → c v = true) →
  s_optional (s_check (string_check c)) (prop body k) = Some (prop body k).
Proof.
  intros Hk Hf Hc. rewrite body_prop.
  assert (String.eqb k "kind" = false ∧ String.eqb k "connector_id" = false ∧ String.eqb k "extra" = false) as (->&->&->)
    by (by destruct Hk as [<-|[<-|[<-|[<-|[]]]]]).
  destruct (last_value (slotted k) fields) as [v|] eqn:E; [|done]. cbn [s_optional]. unfold s_check. cbn [string_check].
  rewrite Hc; [done|]. unfold fits in Hf. apply andb_true_iff in Hf as [_ Hf].
  assert (In (k, v) (credential plan)) as Hin.
  { apply JMap.get_In. unfold planCredential. cbn [credential]. rewrite plan_credential. exact E. }
  rewrite forallb_forall in Hf. exact (Hf _ Hin).
Qed.

Lemma alimtalk_accepts : fits plan = true → ∃ l,
  s_fields [("kind", s_literal "alimtalk"); ("connector_id", s_check (string_check CHANNEL_RE));
   ("api_key", s_optional (s_string 1 512)); ("secret_key", s_optional (s_max 512));
   ("sender_key", s_optional (s_max 256)); ("base_url", s_optional s_url);
   ("extra", s_optional (s_record (s_max 4096)))] body = Some l
  ∧ List.NoDup (map fst l) ∧ Forall (λ p, is_undef (snd p) = false) l
  ∧ (∀ k, In k ("kind" :: "connector_id" :: "extra" :: CREDENTIAL_SLOTS) → prop (JObj l) k = prop body k)
  ∧ ∀ k, ¬ In k ("kind" :: "connector_id" :: "extra" :: CREDENTIAL_SLOTS) → JMap.get l k = None.
Proof.
  intros Hf. set (shape := [_; _; _; _; _; _; _] : Shape).
  assert (Forall (λ p, snd p (prop body (fst p)) = Some (prop body (fst p))) shape) as Hok.
  { pose proof Hf as Hf'. unfold fits in Hf'. rewrite !andb_true_iff in Hf'. destruct Hf' as [[Hconn Hextra] _].
    repeat apply Forall_cons_2; try apply Forall_nil_2; cbn [fst snd].
    - by rewrite body_kind.
    - rewrite body_connector. unfold s_check. cbn [string_check]. by rewrite Hconn.
    - apply slot_accepted; [by left|done|]. intros v Hv. exact Hv.
    - apply slot_accepted; [by right; left|done|]. intros v Hv. unfold slot_fits in Hv. simpl in Hv. pose proof (js_length_nonneg v). lia.
    - apply slot_accepted; [by right; right; left|done|]. intros v Hv. unfold slot_fits in Hv. simpl in Hv. pose proof (js_length_nonneg v). lia.
    - apply slot_accepted; [by right; right; right; left|done|]. intros v Hv. exact Hv.
    - rewrite body_extra. cbn [s_optional]. apply record_texts, List.Forall_forall. intros p Hp.
      rewrite forallb_forall in Hextra. specialize (Hextra p Hp). lia. }
  assert (List.NoDup (map fst shape)) as Hnd by (apply NoDup_ListNoDup; refine (bool_decide_unpack _ _); by vm_compute).
  destruct (s_fields_total shape body) as [l Hl].
  { eapply Forall_impl; [exact Hok|]. intros p Hp. rewrite Hp. by eexists. }
  exists l. split; [exact Hl|]. destruct (s_fields_shape shape body l Hnd Hl) as [Hl1 Hl2]. split; [done|]. split; [done|]. split.
  - intros k Hk. assert (∃ s, In (k, s) shape) as [s Hs].
    { unfold shape. simpl in Hk |- *. destruct Hk as [<-|[<-|[<-|[<-|[<-|[<-|[<-|[]]]]]]]]; eexists; tauto. }
    pose proof (s_fields_prop shape body l k s Hnd Hl Hs) as Hp. rewrite List.Forall_forall in Hok. specialize (Hok _ Hs).
    cbn [fst snd] in Hok. congruence.
  - intros k Hk. destruct (JMap.get l k) eqn:E; [|done]. destruct Hk. apply JMap.get_In in E.
    pose proof (s_fields_keys shape body l Hl _ E) as Hin. unfold shape in Hin. simpl in Hin |- *. tauto.
Qed.

Lemma form_accepted : canSubmit plan = true → fits plan = true →
  ∃ data, credentialSchema body = Some data ∧ ∀ k, JMap.get (payload_of data) k = JStr <$> vendor_reads k.
Proof.
  intros Hs Hf. destruct (alimtalk_accepts Hf) as (l&Hl&Hnd&Hdef&Hprop&Hout). exists (JObj l). split.
  - unfold credentialSchema, s_refine, s_discriminated. rewrite body_kind. cbv iota.
    change (JMap.get _ "alimtalk") with (Some alimtalkPayloadSchema). cbn [mbind option_bind].
    unfold alimtalkPayloadSchema at 1. unfold s_object. cbn [credentialBody andb]. fold body. rewrite Hl. cbn [fmap option_fmap option_map mbind option_bind].
    assert (has_secret (JObj l) = true) as ->; [|done]. unfold has_secret. rewrite (Hprop "extra"), body_extra by (simpl; tauto).
    unfold canSubmit in Hs. destruct (missingRequired plan); [|done].
    unfold planCredential in Hs |- *. cbn [empty extra] in Hs |- *.
    destruct (extra _); [done|]. cbn [text_object map]. apply orb_true_r.
  - intros k. unfold payload_of.
    assert (JMap.get (JMap.delete l "kind") "extra" = Some (JObj (text_object (extra plan)))) as Hex.
    { rewrite get_filter_key. change (String.eqb "extra" "kind") with false. cbv iota. rewrite (get_defined l "extra" (JObj (text_object (extra plan))) Hdef); [done|].
      by rewrite Hprop, body_extra by (simpl; tauto). }
    rewrite (get_flatten (JMap.delete l "kind") (text_object (extra plan)) k); [|by apply NoDup_map_filter| |exact Hex|].
    + rewrite get_filter_key. unfold vendor_reads.
      destruct (String.eqb k "connector_id") eqn:Ec.
      { b2p. subst k. simpl. rewrite (get_defined l "connector_id" (JStr conn) Hdef); [done|]. by rewrite Hprop, body_connector by (simpl; tauto). }
      destruct (String.eqb k "extra") eqn:Ee.
      { b2p. subst k. destruct (last_value (slotted "extra") fields) eqn:Es; [|done].
        by apply last_value_slot in Es as [?|[?|[?|[?|[]]]]]. }
      destruct (String.eqb k "kind") eqn:Ek.
      { b2p. subst k. destruct (last_value (slotted "kind") fields) eqn:Es; [|done].
        by apply last_value_slot in Es as [?|[?|[?|[?|[]]]]]. }
      destruct (String_in k CREDENTIAL_SLOTS) eqn:Ecs.
      * apply String_in_spec in Ecs. rewrite (get_defined l k _ Hdef eq_refl), Hprop, body_prop, Ek, Ec, Ee by (simpl in Ecs |- *; tauto).
        destruct (last_value (slotted k) fields); [done|]. cbn [is_undef].
        destruct (String_in k RESERVED_CREDENTIAL_KEYS); [done|]. rewrite get_text_object. unfold planCredential. cbn [extra].
        by rewrite plan_extra.
      * rewrite Hout. 2:{ intros [<-|[<-|[<-|Hin]]]; try done. apply String_in_spec in Hin. congruence. }
        destruct (last_value (slotted k) fields) eqn:Es; [apply last_value_slot, String_in_spec in Es; congruence|].
        destruct (String_in k RESERVED_CREDENTIAL_KEYS); [done|]. rewrite get_text_object. unfold planCredential. cbn [extra].
        by rewrite plan_extra.
    + apply List.Forall_forall. intros p [Hp _]%filter_In. rewrite List.Forall_forall in Hdef. auto.
    + rewrite keys_text_object. apply (plan_keys fields (mkPlan [] [] [] true)). by split; constructor.
Qed.
End Form.

Lemma schemaFields_names schema :
  (∀ p, prop schema "properties" = JObj p → List.NoDup (map fst p)) → List.NoDup (map sf_name (schemaFields schema)).
Proof.
  intros Hnd. unfold schemaFields. destruct (asRecord schema); [|constructor]. destruct (_ && _); [constructor|].
  destruct (prop schema "properties") as [| | | | | |p] eqn:E; try constructor. cbn [asRecord]. specialize (Hnd p eq_refl).
  generalize (match prop schema "required" with JArr l => strings_of l | _ => [] end). intros required. clear E.
  assert (∀ x f, field_of required (fst x) (snd x) = Some f → sf_name f = fst x) as Hname.
  { intros x f. unfold field_of. destruct (negb _); [done|]. by intros [= <-]. }
  induction p as [|x p IH]; [constructor|]. cbn [map] in Hnd. apply NoDup_cons_iff in Hnd as [Hn Hnd]. specialize (IH Hnd). cbn [omap list_omap].
  destruct (field_of required x.1 x.2) as [f|] eqn:Ef; [|exact IH]. cbn [map]. apply NoDup_cons_iff. split; [|exact IH].
  rewrite (Hname _ _ Ef). intros Hin. apply Hn. clear -Hin Hname. induction p as [|y p IH]; [done|]. cbn [omap list_omap] in Hin.
  destruct (field_of required y.1 y.2) as [g|] eqn:Eg; [|right; by apply IH]. destruct Hin as [Hin|Hin]; [|right; by apply IH].
  left. by rewrite <- Hin, (Hname _ _ Eg).
Qed.

(** ** The property *)

(** What the console lets a user submit for a connector arrives at the connector.
    Every required field is filled; the credentials endpoint accepts the body
    (within its limits); and the stored payload reads, under every name, what
    [vendor_reads] says: the connector's id, the last field of a slot, or the
    field of that name.  So a declared field is read back under its own name, trimmed, unless its name
    is reserved or is the slot of another field. *)
Theorem connector_form_reaches_vendor `{Zod, Host, ZodUrl} schema values conn :
  let fields := schemaFields schema in let plan := planCredential fields values in
  (∀ p, prop schema "properties" = JObj p → List.NoDup (map fst p)) →
  canSubmit plan = true → fits conn plan = true →
  (∀ f, In f fields → sf_required f = true → filled values f = true)
  ∧ ∃ data, credentialSchema (credentialBody conn plan) = Some data
      ∧ (∀ k, JMap.get (payload_of data) k = JStr <$> vendor_reads fields values conn k)
      ∧ ∀ f, In f fields → filled values f = true → String_in (sf_name f) RESERVED_CREDENTIAL_KEYS = false →
          (∀ g, In g fields → credentialSlot (sf_name g) = Some (sf_name f) → g = f) →
          JMap.get (payload_of data) (sf_name f) = Some (JStr (value_of values f)).
Proof.
  intros fields plan Hnd Hs Hf. split.
  - intros f Hin Hreq. unfold canSubmit in Hs. destruct (missingRequired plan) eqn:Em; [|done]. unfold plan, planCredential in Em.
    cbn [missingRequired] in Em. rewrite plan_missing in Em. apply not_false_iff_true. intros Hblank.
    assert (In f (List.filter (λ f, sf_required f && negb (filled values f)) fields)) as Hin' by (apply filter_In; by rewrite Hreq, Hblank).
    destruct (List.filter _ fields); [done|discriminate Em].
  - destruct (form_accepted fields values conn Hs Hf) as (data&Hd&Hget). exists data. split; [done|]. split; [done|].
    intros f Hin Hfill Hres Hslot. rewrite Hget, (reads_own fields values conn f); try done. by apply schemaFields_names.
Qed.

Module FormDemo.
#[local] Existing Instances WebhookProps.Demo.toy_zod WebhookProps.Demo.toy_host WebhookProps.Demo.toy_url.

Definition text (l : list (string * jsval)) : jsval := JObj (("type", JStr "string") :: l).
(** the manifest of the vendor the deployment ships with *)
Definition nhn : jsval := JObj [("type", JStr "object"); ("required", JArr [JStr "app_key"; JStr "secret_key"]);
  ("properties", JObj [("app_key", text []); ("secret_key", text [("x-secret", JBool true)]); ("sender_key", text []);
                       ("base_url", text [])])].
Definition values : list (string * string) := [("app_key", " AK "); ("secret_key", "SK"); ("sender_key", ""); ("base_url", "")].

Lemma connector_form_reaches_vendor_witness : ∃ data,
  credentialSchema (credentialBody "nhn_alimtalk" (planCredential (schemaFields nhn) values)) = Some data
  ∧ JMap.get (payload_of data) "app_key" = Some (JStr "AK") ∧ JMap.get (payload_of data) "secret_key" = Some (JStr "SK").
Proof.
  destruct (connector_form_reaches_vendor nhn values "nhn_alimtalk") as (_&data&Hd&Hget&_); [|vm_compute; reflexivity..|].
  - intros p [= <-]. apply NoDup_ListNoDup. refine (bool_decide_unpack _ _). vm_compute. exact I.
  - exists data. split; [exact Hd|]. rewrite !Hget. split; vm_compute; reflexivity.
Defined.

(** A manifest with a field named like a slot, and another field of that slot:
    the connector reads the second value under the first name. *)
Definition two_keys : jsval := JObj [("type", JStr "object");
  ("properties", JObj [("api_key", text []); ("app_key", text [])])].
Lemma slot_overwrites_field : ∃ data,
  credentialSchema (credentialBody "vendor" (planCredential (schemaFields two_keys) [("api_key", "A"); ("app_key", "B")])) = Some data
  ∧ JMap.get (payload_of data) "api_key" = Some (JStr "B").
Proof. eexists. split; vm_compute; reflexivity. Qed.
End FormDemo.
