(* ===== verification/TestPush.v ===== *)
(** * Test pushes and the uninstall sweep

    [messaging/test-push.service.ts], [messaging/test-push.controller.ts] and
    [messaging/uninstall.controller.ts].  The advisory lock of a request key
    makes the transactions of one key run one after the other. *)

From Stdlib Require Import Ascii QArith.
From stdpp Require Import sorting.
From S2P Require Import Prelude JsVal Crypto BranchCondition Json Schema Authz AuthDb ChannelDb.

#[global] Open Scope Z_scope.

Section TestPush.
Context `{Zod} `{Crypto}.
Context (env : Env).

Record TestPushInput := mkInput { in_external_id : string; in_title : string; in_body : string; in_device_id : option string }.

Record PushResult := mkResult { pr_test_run_id : string; pr_accepted_at : Z; pr_messages : list TestMessage }.
(** [result(run)]: [queued] is the number of its messages *)
Definition result (run : TestPushRun) : PushResult := mkResult (tr_id run) (tr_accepted_at run) (tr_messages run).

Definition request_hash (input : TestPushInput) : string :=
  sha256_hex (JSON_stringify number_format (JObj
    [("external_id", JStr (in_external_id input)); ("device_id", json_opt (in_device_id input));
     ("title", JStr (in_title input)); ("body", JStr (in_body input))])).

(** ** Devices *)

Definition push_kind (platform : string) : string := if String.eqb platform "ios" then "push_apns" else "push_fcm".
Definition channel_verified (tenantId appId platform : string) (w : World) : bool :=
  existsb (λ c, String.eqb (cr_tenant c) tenantId && String.eqb (cr_app c) appId && bool_decide (cr_status c = verified)
                && String.eqb (cr_kind c) (push_kind platform)) (credentials w).
Definition has_token (d : DeviceRow) : bool :=
  match dv_push_token d with Some t => negb (String.eqb t "") | None => false end.

(** [devices d JOIN users u ON u.id = d.user_id] of an active customer of the app *)
Definition customer_devices (tenantId appId externalId : string) (w : World) : list DeviceRow :=
  select (λ d, String.eqb (dv_tenant d) tenantId && String.eqb (dv_app d) appId
    && existsb (λ u, String.eqb (us_id u) (dv_user d) && String.eqb (us_tenant u) tenantId && String.eqb (us_app u) appId
         && bool_decide (us_external_id u = Some externalId) && String.eqb (us_status u) "active") (users w)) (devices w).

Definition sendable (d : DeviceRow) : bool :=
  has_token d && String.eqb (dv_token_status d) "active" && String.eqb (dv_os_permission d) "granted".

(** [$4::uuid]: the request has a UUID in any case, a row the canonical one *)
Definition eligible_devices (tenantId appId : string) (input : TestPushInput) (w : World) : list DeviceRow :=
  List.filter (λ d, sendable d && match in_device_id input with
      | Some id => String.eqb (dv_id d) (to_lower id) && channel_verified tenantId appId (dv_platform d) w
      | None => true
      end) (customer_devices tenantId appId (in_external_id input) w).

(** ** Accepting a request *)

Definition STREAMS_sendPush : string := "stream:send.push".

Definition send_push_payload (key messageId campaign title body : string) (silent : bool) (d : DeviceRow) : jsval :=
  JObj [("idempotency_key", JStr key); ("message_id", JStr messageId); ("user_id", JStr (dv_user d));
        ("device_id", JStr (dv_id d)); ("push_token", json_opt (dv_push_token d)); ("platform", JStr (dv_platform d));
        ("content", JObj [("push", JObj ([("title", JStr title); ("body", JStr body)]
           ++ (if silent then [("silent", JBool true)] else [])))]);
        ("category", JStr "transactional"); ("campaign_ref", JStr campaign)].

Definition job_key (runId : string) (d : DeviceRow) : string := "test:" +:+ runId +:+ ":" +:+ dv_id d.

Definition insert_job (j : OutboxJob) : W unit :=
  w ← get;
  _ ← throw_if (existsb (λ x, ob_id x =? ob_id j) (outbox w)) unique_violation;
  modify (λ w, set_outbox (outbox w ++ [j]) w).

(** [for (const device of rows)]: the messages and the jobs, the [n]-th device first *)
Fixpoint queue_devices (tenantId appId runId : string) (input : TestPushInput) (n : nat) (rows : list DeviceRow)
    : W (list TestMessage * list Z) :=
  match rows with
  | [] => mret ([], [])
  | d :: rows =>
      let messageId := gen_uuid env (S n) in
      _ ← insert_job (mkJob (job_id env n) tenantId appId STREAMS_sendPush (job_key runId d)
            (send_push_payload (job_key runId d) messageId ("test:" +:+ runId) (in_title input) (in_body input) false d) None);
      '(messages, ids) ← queue_devices tenantId appId runId input (S n) rows;
      mret (mkTestMessage messageId (dv_id d) (dv_platform d) :: messages, job_id env n :: ids)
  end.

Definition run_at (tenantId appId requestKey : string) (r : TestPushRun) : bool :=
  String.eqb (tr_tenant r) tenantId && String.eqb (tr_app r) appId && String.eqb (tr_request_key r) requestKey.

Definition insert_run (r : TestPushRun) : W unit :=
  w ← get;
  _ ← throw_if (existsb (λ x, String.eqb (tr_id x) (tr_id r)
        || run_at (tr_tenant r) (tr_app r) (tr_request_key r) x) (test_push_runs w)) unique_violation;
  modify (λ w, set_test_push_runs (test_push_runs w ++ [r]) w).

Definition accept_new (tenantId appId requestKey : string) (input : TestPushInput) : W PushResult :=
  w ← get;
  let rows := eligible_devices tenantId appId input w in
  _ ← throw_if (Nat.eqb (length rows) 0) (BadRequestException "No eligible device");
  let runId := gen_uuid env 0 in
  '(messages, ids) ← queue_devices tenantId appId runId input 0 rows;
  let run := mkTestRun runId tenantId appId requestKey (request_hash input) messages ids (pg_now env) in
  _ ← insert_run run;
  mret (result run).

Definition accept (tenantId appId requestKey : string) (input : TestPushInput) : W PushResult :=
  transaction (
    w ← get;
    match select1 (run_at tenantId appId requestKey) (test_push_runs w) with
    | Some previous =>
        _ ← throw_if (negb (String.eqb (tr_request_hash previous) (request_hash input)))
              (ConflictException "Idempotency key already used for a different test");
        mret (result previous)
    | None => accept_new tenantId appId requestKey input
    end).

(** ** The controller *)

Context (member : SessionMember).

Definition testPushSchema : Schema := s_object false
  [("external_id", s_trimmed 1 256); ("title", s_string 1 256); ("body", s_string 1 2048);
   ("device_id", s_optional (s_check (string_check zod_uuid)))].
Definition input_of (data : jsval) : TestPushInput :=
  mkInput (str_of (prop data "external_id")) (str_of (prop data "title")) (str_of (prop data "body")) (opt_str (prop data "device_id")).

Definition testPush (appId : string) (body : jsval) (requestKey : option string) : W PushResult :=
  _ ← permitted member journeys_activate;
  _ ← assertApp member appId;
  let key := default (fresh_key env) requestKey in
  match testPushSchema body with
  | Some data =>
      _ ← throw_if (negb (zod_uuid key)) (BadRequestException "Invalid test push request");
      accept (sm_tenantId member) appId (to_lower key) (input_of data)
  | None => throw (BadRequestException "Invalid test push request")
  end.

(** [ORDER BY last_active_at DESC NULLS LAST, id] *)
Definition recent_first (a b : DeviceRow) : Prop :=
  match dv_last_active_at a, dv_last_active_at b with
  | Some x, Some y => y < x ∨ (x = y ∧ Is_true (String.leb (dv_id a) (dv_id b)))
  | Some _, None => True
  | None, Some _ => False
  | None, None => Is_true (String.leb (dv_id a) (dv_id b))
  end.
#[global] Instance recent_first_dec a b : Decision (recent_first a b).
Proof. unfold recent_first. destruct (dv_last_active_at a), (dv_last_active_at b); apply _. Defined.

(** the devices shown, and whether a test can reach them *)
Definition targets (appId : string) (externalId : jsval) : W (list (DeviceRow * bool)) :=
  _ ← permitted member journeys_activate;
  _ ← assertApp member appId;
  parsed ← some_or_throw (s_trimmed 1 256 externalId) (BadRequestException "Invalid test customer ID");
  w ← get;
  mret (map (λ d, (d, sendable d && channel_verified (sm_tenantId member) appId (dv_platform d) w))
    (take 100 (merge_sort recent_first (customer_devices (sm_tenantId member) appId (str_of parsed) w)))).

Record RunView := mkRunView { rv_run : TestPushRun; rv_queued : Z; rv_pending : Z; rv_removed : Z }.
Definition newest_run (a b : TestPushRun) : Prop :=
  tr_accepted_at b < tr_accepted_at a ∨ (tr_accepted_at a = tr_accepted_at b ∧ Is_true (String.leb (tr_id b) (tr_id a))).
#[global] Instance newest_run_dec a b : Decision (newest_run a b).
Proof. unfold newest_run. apply _. Defined.

Definition run_view (appId : string) (w : World) (r : TestPushRun) : RunView :=
  let mine j := scoped member appId (ob_tenant j) (ob_app j) && existsb (Z.eqb (ob_id j)) (tr_outbox_ids r) in
  let published j := match ob_published_at j with Some _ => true | None => false end in
  mkRunView r (row_count (λ j, mine j && published j) (outbox w)) (row_count (λ j, mine j && negb (published j)) (outbox w))
    (Z.of_nat (length (tr_messages r)) - row_count mine (outbox w)).

Definition runs (appId : string) : W (list RunView) :=
  _ ← permitted member analytics_read;
  _ ← assertApp member appId;
  w ← get;
  mret (map (run_view appId w)
    (take 20 (merge_sort newest_run (select (λ r, scoped member appId (tr_tenant r) (tr_app r)) (test_push_runs w))))).

(** ** The uninstall sweep *)

Definition sweep_devices (appId : string) (w : World) : list DeviceRow :=
  select (λ d, existsb (λ u, String.eqb (us_id u) (dv_user d) && String.eqb (us_app u) appId && String.eqb (us_status u) "active") (users w)
               && match dv_push_token d with Some _ => true | None => false end
               && String.eqb (dv_token_status d) "active") (devices w).

Definition sweep_key (runId : string) (d : DeviceRow) : string := "uninstall-sweep:" +:+ runId +:+ ":" +:+ dv_id d.
(** each push is published on its own: an error leaves the earlier ones *)
Fixpoint sweep_publish (appId runId : string) (n : nat) (rows : list DeviceRow) : W unit :=
  match rows with
  | [] => mret tt
  | d :: rows =>
      _ ← publish env (mkMessage STREAMS_sendPush "send.push" (sm_tenantId member) appId (Date_now env)
            (send_push_payload (sweep_key runId d) (gen_uuid env (S n)) ("uninstall-sweep:" +:+ runId) "" "" true d));
      sweep_publish appId runId (S n) rows
  end.

Definition sweep (appId : string) : W (nat * string) :=
  _ ← permitted member journeys_activate;
  _ ← assertApp member appId;
  w ← get;
  let rows := sweep_devices appId w in
  let runId := gen_uuid env 0 in
  _ ← sweep_publish appId runId 0 rows;
  mret (length rows, runId).
End TestPush.

(** ** Test pushes: each request key once

    A request key is worth one run: the first request queues one job per
    eligible device together with the run that records it, a repetition returns
    that run and changes nothing, and a different test under the key is refused. *)
Definition run_key (r : TestPushRun) : string * string * string := (tr_tenant r, tr_app r, tr_request_key r).
Definition runs_ok (w : World) : Prop := List.NoDup (map run_key (test_push_runs w)).

Lemma run_at_spec t a k r : run_at t a k r = true ↔ run_key r = (t, a, k).
Proof.
  unfold run_at, run_key. rewrite !andb_true_iff, !String.eqb_eq. split; [by intros [[-> ->] ->]|by intros [= -> -> ->]].
Qed.

Section TestPush.
Context `{Zod} `{Crypto} (env : Env).

(** The message shown for a device, and the job that sends it *)
Record sent_for (tenantId appId runId : string) (input : TestPushInput) (d : DeviceRow) (m : TestMessage) (j : OutboxJob) : Prop := {
  sf_message : tm_device_id m = dv_id d ∧ tm_platform m = dv_platform d;
  sf_scope : ob_tenant j = tenantId ∧ ob_app j = appId ∧ ob_stream j = STREAMS_sendPush ∧ ob_published_at j = None;
  sf_key : ob_key j = job_key runId d;
  sf_payload : ob_payload j = send_push_payload (job_key runId d) (tm_message_id m) ("test:" +:+ runId) (in_title input) (in_body input) false d }.

Lemma queue_devices_ok t a runId input n rows w ms ids w' :
  queue_devices env t a runId input n rows w = (Ok (ms, ids), w') →
  ∃ jobs, w' = set_outbox (outbox w ++ jobs) w ∧ Forall3 (sent_for t a runId input) rows ms jobs ∧ ids = map ob_id jobs.
Proof.
  revert n w ms ids w'. induction rows as [|d rows IH]; intros n w ms ids w'.
  - intros [= <- <- <-]. exists []. split; [by destruct w; rewrite app_nil_r|]. split; [constructor|done].
  - cbn [queue_devices]. intros E. apply bind_ok in E as (u&w1&E1&E).
    unfold insert_job in E1. apply bind_ok in E1 as (x&w2&[= <- <-]&E1). apply bind_ok in E1 as (u1&w2&[_ ->]%throw_if_ok&[= _ <-]).
    apply bind_ok in E as ([ms' ids']&w2&(jobs&->&Hf&->)%IH&[= <- <- <-]).
    change (outbox (set_outbox ?l w)) with l. rewrite <- app_assoc. eexists (_ :: jobs). split; [reflexivity|].
    split; [|reflexivity]. constructor; [by split|exact Hf].
Qed.

Definition new_run (tenantId appId requestKey : string) (input : TestPushInput) (w w' : World) (run : TestPushRun) : Prop :=
  select1 (run_at tenantId appId requestKey) (test_push_runs w) = None
  ∧ eligible_devices tenantId appId input w ≠ []
  ∧ test_push_runs w' = test_push_runs w ++ [run] ∧ tr_id run = gen_uuid env 0
  ∧ ∃ jobs, outbox w' = outbox w ++ jobs ∧ tr_outbox_ids run = map ob_id jobs
      ∧ Forall3 (sent_for tenantId appId (gen_uuid env 0) input) (eligible_devices tenantId appId input w) (tr_messages run) jobs.

Lemma accept_ok t a key input w r w' :
  runs_ok w → accept env t a key input w = (Ok r, w') →
  runs_ok w' ∧ ∃ run, In run (test_push_runs w') ∧ run_at t a key run = true ∧ tr_request_hash run = request_hash input
    ∧ r = result run ∧ (w' = w ∨ new_run t a key input w w' run).
Proof.
  intros Hok E. unfold accept in E. apply (proj1 (transaction_ok _ _ _ _)) in E. apply bind_ok in E as (x&w1&[= <- <-]&E).
  destruct (select1 (run_at t a key) (test_push_runs w)) as [old|] eqn:Eold.
  - apply bind_ok in E as (u&w1&[Hh ->]%throw_if_ok&[= <- <-]). b2p. split; [done|]. exists old.
    apply select1_Some in Eold as [Hin Hat]. split_and!; try done. by left.
  - unfold accept_new in E. apply bind_ok in E as (x&w1&[= <- <-]&E). apply bind_ok in E as (u&w1&[Hne ->]%throw_if_ok&E).
    apply bind_ok in E as ([ms ids]&w1&(jobs&->&Hf&->)%queue_devices_ok&E). apply bind_ok in E as (u1&w2&E1&[= <- <-]).
    unfold insert_run in E1. apply bind_ok in E1 as (x&w3&[= <- <-]&E1). apply bind_ok in E1 as (u2&w3&[Hf2 ->]%throw_if_ok&[= _ <-]).
    set (run := mkTestRun _ _ _ _ _ _ _ _) in *. change (test_push_runs (set_test_push_runs ?l ?w)) with l.
    change (test_push_runs (set_outbox ?l w)) with (test_push_runs w). unfold runs_ok.
    change (test_push_runs (set_test_push_runs ?l ?w)) with l. change (test_push_runs (set_outbox ?l w)) with (test_push_runs w).
    assert (run_at t a key run = true) as Hat by (by apply run_at_spec). split.
    + apply NoDup_key_snoc; [done|]. intros y Hy Ek. rewrite select1_None in Eold. specialize (Eold y Hy).
      apply not_true_iff_false in Eold. apply Eold, run_at_spec. rewrite Ek. by apply run_at_spec.
    + exists run. split; [apply in_app_iff; right; by left|]. split_and!; try done. right. split; [done|]. split.
      * intros En. by rewrite En in Hne.
      * split; [done|]. split; [done|]. by exists jobs.
Qed.

Lemma accept_again t a key input w run :
  runs_ok w → In run (test_push_runs w) → run_at t a key run = true →
  accept env t a key input w =
    if String.eqb (tr_request_hash run) (request_hash input) then (Ok (result run), w)
    else (Throw (ConflictException "Idempotency key already used for a different test"), w).
Proof.
  intros Hok Hin Hat. unfold accept, transaction, mbind, M_bind, get.
  assert (select1 (run_at t a key) (test_push_runs w) = Some run) as ->.
  { destruct (select1 (run_at t a key) (test_push_runs w)) as [x|] eqn:Ex.
    - apply select1_Some in Ex as [Hx Hxa]. f_equal. apply (NoDup_map_eq run_key (test_push_runs w)); try done.
      apply run_at_spec in Hat, Hxa. congruence.
    - rewrite select1_None in Ex. by rewrite (Ex run Hin) in Hat. }
  by destruct (String.eqb (tr_request_hash run) (request_hash input)).
Qed.
End TestPush.

(** C25. A request key is worth one test.  The accepted request either found its
    run or made it, with exactly one unpublished job for every eligible device
    of the customer and the run that lists their messages; and from then on, in
    any store that still has the run, the same request returns the same run,
    one with another content is refused, and neither changes anything. *)
Theorem test_push_is_idempotent `{Zod} `{Crypto} env tenantId appId requestKey input w r w' :
  runs_ok w → accept env tenantId appId requestKey input w = (Ok r, w') →
  runs_ok w' ∧ ∃ run, In run (test_push_runs w') ∧ r = result run
    ∧ (w' = w ∨ new_run env tenantId appId requestKey input w w' run)
    ∧ ∀ env2 input2 w2, runs_ok w2 → In run (test_push_runs w2) →
        accept env2 tenantId appId requestKey input2 w2
        = if String.eqb (request_hash input) (request_hash input2) then (Ok r, w2)
          else (Throw (ConflictException "Idempotency key already used for a different test"), w2).
Proof.
  intros Hok E. destruct (accept_ok _ _ _ _ _ _ _ _ Hok E) as [Hok' (run&Hin&Hat&Hh&->&Hnew)].
  split; [done|]. exists run. split_and!; try done. intros env2 input2 w2 Hok2 Hin2.
  rewrite <- Hh. by apply accept_again.
Qed.

(** ** A concrete request *)

Module PushDemo.
Definition toy_zod : Zod := {| zod_uuid _ := true; zod_datetime _ := true; number_format _ := "0" |}.
Definition toy_crypto : Crypto := {|
  gcm_seal _ _ p := (p, replicate 16 0); gcm_open _ _ body _ := Some body; hmac_sha1 _ _ := replicate 20 0;
  sha256_hex s := s; argon2_hash _ p := p; argon2_verify h p := String.eqb h p |}.
Definition env : Env :=
  mkEnv (λ n, if Nat.eqb n 0 then "run1" else "msg1") "k" Z.of_nat 0 0 (λ _, "t") (λ _, None) (mkEntropy [] [] []) (Ok []) (λ _ _, true) None None false.
Definition device : DeviceRow := mkDeviceRow "d1" "t1" "a1" "u1" "android" (Some "tok") "active" "granted" None.
Definition world : World :=
  mkWorld [mkAppRow "a1" "t1" "UTC" JNull JNull] [] [] [] [] [] [mkUser "u1" "t1" "a1" (Some "mina") "active"]
    [device; mkDeviceRow "d2" "t1" "a1" "u1" "ios" None "active" "granted" None] [] [] [] [] [] [].
Definition input : TestPushInput := mkInput "mina" "Hi" "Test" None.
End PushDemo.

Lemma test_push_is_idempotent_witness : ∃ r w',
  accept (H := PushDemo.toy_zod) (H0 := PushDemo.toy_crypto) PushDemo.env "t1" "a1" "k1" PushDemo.input PushDemo.world = (Ok r, w')
  ∧ map tm_device_id (pr_messages r) = ["d1"] ∧ length (outbox w') = 1%nat
  ∧ accept (H := PushDemo.toy_zod) (H0 := PushDemo.toy_crypto) PushDemo.env "t1" "a1" "k1" PushDemo.input w' = (Ok r, w').
Proof.
  destruct (accept (H := PushDemo.toy_zod) (H0 := PushDemo.toy_crypto) PushDemo.env "t1" "a1" "k1" PushDemo.input PushDemo.world)
    as [[r|e] w'] eqn:E; [|vm_compute in E; discriminate E].
  exists r, w'. split; [reflexivity|].
  assert (runs_ok PushDemo.world) as Hok by constructor.
  destruct (test_push_is_idempotent (H := PushDemo.toy_zod) (H0 := PushDemo.toy_crypto) PushDemo.env "t1" "a1" "k1" PushDemo.input
    PushDemo.world r w' Hok E) as [Hok' (run&Hin&_&_&Hagain)].
  pose proof (Hagain PushDemo.env PushDemo.input w' Hok' Hin) as Hrun. clear Hagain.
  vm_compute in E. injection E as <- <-. split; [reflexivity|]. split; [reflexivity|]. rewrite Hrun. vm_compute. reflexivity.
Defined.
