(* ===== verification/AuthInv.v ===== *)
(** * Accounts: how a request changes the store

    The requests of the account services as one type with one step function,
    the moves they make on the [members] table, and the effect of each
    handler. *)

From S2P Require Import Prelude JsVal Crypto Authz AuthDb AuthServices Team Bootstrap.

#[global] Open Scope Z_scope.

(** ** Moves of the members table

    [role] is the role of the member whose request it is, [None] when the
    request creates a workspace; [who] is the member whose second factor the
    request writes, if any. *)

Section Moves.
Context (role : option string) (who : option string).

(** a verification of a second factor never lowers the counter *)
Record verifies (t t' : Totp) : Prop := {
  vf_secret : secret_enc t' = secret_enc t;
  vf_enabled : enabled_at t' = enabled_at t;
  vf_counter : default (-1) (last_counter t) <= default (-1) (last_counter t');
  vf_failed : 0 <= failed_count t → 0 <= failed_count t' }.

Inductive mmove : list Member → list Member → Prop :=
| mm_verify id f m l :
    who = Some id → select1 (member_id id) l = Some m → verifies (m_totp m) (f (m_totp m)) →
    mmove l (update_where (member_id id) (λ m, set_totp (f (m_totp m)) m) l)
| mm_enrol tenant id f l :
    who = Some id → (∀ m, failed_count (f m) = 0) →
    mmove l (update_where (member_at tenant id) (λ m, set_totp (f m) m) l)
| mm_role tenant id r m l :
    In m l → member_at tenant id m = true →
    ((m_role m = Owner ∨ r = Owner) → role = Some "owner") →
    (m_role m = Owner → r ≠ Owner → ∃ o, In o l ∧ other_owner tenant id o = true) →
    mmove l (update_where (member_at tenant id) (set_role r) l)
| mm_disable tenant id m l :
    In m l → member_at tenant id m = true →
    (m_role m = Owner → role = Some "owner") →
    (m_role m = Owner → ∃ o, In o l ∧ other_owner tenant id o = true) →
    mmove l (update_where (member_at tenant id) (set_status MDisabled) l)
| mm_insert m l :
    (∀ x, In x l → m_id x ≠ m_id m) → m_totp m = no_totp →
    (m_role m = Owner → role = Some "owner" ∨ role = None) →
    mmove l (l ++ [m]).

(** The backup codes: row ids stay distinct, and only [who]'s codes change. *)
Definition codes_ok (d : Db) : Prop := List.NoDup (map bc_id (backup_codes d)).
Definition codes_step (d d' : Db) : Prop :=
  codes_ok d → codes_ok d' ∧ ∀ id, who ≠ Some id → unused_codes id d' = unused_codes id d.

Lemma codes_step_same d d' : backup_codes d' = backup_codes d → codes_step d d'.
Proof. intros E Hok. unfold codes_ok, unused_codes in *. by rewrite E. Qed.

(** What a request does to the tables: moves of the members, tenants kept. *)
Record team_step (d d' : Db) : Prop := {
  ts_members : rtc mmove (members d) (members d');
  ts_tenants : map tn_id (tenants d') = map tn_id (tenants d);
  ts_codes : codes_step d d' }.

#[global] Instance team_step_preorder : PreOrder team_step.
Proof.
  split.
  - intros d. split; [apply rtc_refl|done|]. by intros Hok.
  - intros d1 d2 d3 [H1 E1 C1] [H2 E2 C2]. split; [by etrans|congruence|].
    intros Hok. destruct (C1 Hok) as [Hok2 Hu1]. destruct (C2 Hok2) as [Hok3 Hu2]. split; [done|].
    intros id Hid. by rewrite Hu2, Hu1.
Qed.

Lemma team_step_same d d' :
  members d' = members d → tenants d' = tenants d → backup_codes d' = backup_codes d → team_step d d'.
Proof. intros H1 H2 H3. split; [rewrite H1; apply rtc_refl|by rewrite H2|by apply codes_step_same]. Qed.
Lemma team_step_members l d : mmove (members d) l → team_step d (set_members l d).
Proof. intros H. split; [by apply rtc_once|done|by apply codes_step_same]. Qed.
Lemma team_step_map f d : (∀ t, tn_id (f t) = tn_id t) → ∀ p, team_step d (set_tenants (update_where p f (tenants d)) d).
Proof.
  intros Hf p. split; [apply rtc_refl| |by apply codes_step_same]. simpl. unfold update_where. rewrite map_map. apply map_ext.
  intros t. by destruct (p t).
Qed.
Lemma team_step_codes l d : codes_step d (set_backup_codes l d) → team_step d (set_backup_codes l d).
Proof. by split; [apply rtc_refl| |]. Qed.
End Moves.

Lemma members_ids_update p f l : (∀ m, m_id (f m) = m_id m) → map m_id (update_where p f l) = map m_id l.
Proof. intros Hf. unfold update_where. rewrite map_map. apply map_ext. intros m. by destruct (p m). Qed.

Section Effects.
Context `{Crypto} `{Host}.

Ltac same_team := intros ?; apply team_step_same; reflexivity.

Lemma insert_ok (bad : Db → bool) (f : Db → Db) d u d' :
  (d0 ← get; _ ← throw_if (bad d0) unique_violation; modify f) d = (Ok u, d') → bad d = false ∧ d' = f d.
Proof.
  unfold mbind, M_bind, get, throw_if, throw, mret, M_ret, modify. destruct (bad d) eqn:E; by intros [= _ <-].
Qed.
(** No row of a table has the keys of the inserted one. *)

Lemma within_insert (R : Db → Db → Prop) `{!PreOrder R} (bad : Db → bool) f :
  (∀ d, bad d = false → R d (f d)) → within R (d0 ← get; _ ← throw_if (bad d0) unique_violation; modify f).
Proof.
  intros Hf d. cbn. unfold mbind, M_bind, get, throw_if, throw, mret, M_ret, modify.
  destruct (bad d) eqn:E; simpl; [reflexivity|auto].
Qed.

Section Neutral.
Context (role who : option string).
Abbreviation R := (team_step role who).

Lemma within_create env t m : within R (create env t m).
Proof.
  apply within_bind; [apply _| |intros; apply within_readonly; [apply _|apply readonly_ret]].
  apply within_insert; [apply _|]. intros d _. by apply team_step_same.
Qed.
Lemma within_revoke env tok : within R (revoke env tok).
Proof. apply within_modify. same_team. Qed.
Lemma within_revokeAll env t m x : within R (revokeAllForMember env t m x).
Proof. intros d. by apply team_step_same. Qed.
Lemma within_recordAs env a s t1 t2 x : within R (recordAs env a s t1 t2 x).
Proof. apply within_modify. same_team. Qed.
Lemma within_insert_key k : within R (insert_key k).
Proof. apply within_insert; [apply _|]. intros d _. by apply team_step_same. Qed.
Lemma within_insert_app a : within R (insert_app a).
Proof. apply within_insert; [apply _|]. intros d _. by apply team_step_same. Qed.
Lemma within_insert_backup b : who = Some (bc_member b) → within R (insert_backup b).
Proof.
  intros Hw. apply within_insert; [apply _|]. intros d Hb. apply team_step_codes. intros Hok. split.
  - unfold codes_ok. simpl. rewrite map_app. apply List.NoDup_app; [done|constructor; [by intros []|constructor]|].
    intros x Hx [<-|[]]. apply in_map_iff in Hx as (y&Hy&Hin). apply (existsb_fresh _ _ Hb) in Hin. by b2p.
  - intros id Hid. unfold unused_codes, select. simpl. rewrite List.filter_app. simpl.
    destruct (String.eqb (bc_member b) id) eqn:E; simpl; [|by rewrite app_nil_r]. b2p. by subst.
Qed.
Lemma within_delete_codes m : who = Some m → within R (delete_backup_codes m).
Proof.
  intros Hw. apply within_modify. intros d. apply team_step_codes. intros Hok. split.
  - unfold codes_ok. simpl. unfold delete_where. revert Hok. unfold codes_ok. generalize (backup_codes d). intros l.
    induction l as [|b l IH]; simpl; [done|]. intros [Hn Hd]%NoDup_cons_iff. case_match; simpl; [|auto].
    constructor; [|auto]. intros Hin. apply Hn. apply in_map_iff in Hin as (y&Hy&Hin). apply filter_In in Hin as [Hin _].
    apply in_map_iff. eauto.
  - intros id Hid. unfold unused_codes, select, delete_where. simpl. induction (backup_codes d) as [|b l IH]; simpl; [done|].
    destruct (String.eqb (bc_member b) m) eqn:E; simpl.
    + b2p. rewrite IH. assert (String.eqb (bc_member b) id = false) as -> by (apply String.eqb_neq; congruence). done.
    + by rewrite IH.
Qed.
Lemma within_insert_codes env t m k l : who = Some m → within R (insert_codes env t m k l).
Proof.
  intros Hw. revert k. induction l as [|c l IH]; intros k; [apply within_readonly; [apply _|apply readonly_ret]|].
  apply within_bind; [apply _|by apply within_insert_backup|intros; apply IH].
Qed.
Lemma within_installation f : within R (update_installation f).
Proof. apply within_modify. same_team. Qed.
Lemma within_update_tenant id f : (∀ t, tn_id (f t) = tn_id t) → within R (update_tenant id f).
Proof. intros Hf. apply within_modify. intros d. by apply team_step_map. Qed.
Lemma within_insert_member m :
  m_totp m = no_totp → (m_role m = Owner → role = Some "owner" ∨ role = None) → within R (insert_member m).
Proof.
  intros Ht Hr. apply within_insert; [apply _|]. intros d Hb. apply team_step_members, mm_insert; [|done..].
  intros x Hx Heq. apply not_true_iff_false in Hb. apply Hb, existsb_exists. exists x. split; [done|].
  by rewrite Heq, String.eqb_refl.
Qed.
End Neutral.
End Effects.

#[export] Hint Resolve within_create within_revoke within_revokeAll within_recordAs within_insert_key
  within_insert_app within_insert_backup within_delete_codes within_insert_codes
  within_installation : within.


(** ** Second factor *)

Section Totp.
Context `{Crypto} `{Host}.

Lemma verify_steps_after secret clean n after cs r :
  verify_steps secret clean n after cs = Some r → vr_ok r = true →
  after < vr_counter r ∧ In (vr_counter r) cs ∧ hotp secret (vr_counter r) n = Some clean.
Proof.
  induction cs as [|c cs IH]; cbn [verify_steps]; [by intros [= <-]|].
  destruct (c <=? after) eqn:E; b2p; [intros Hr Ho; destruct (IH Hr Ho) as (?&?&?); split_and!; [done|by right|done]|].
  destruct (hotp secret c n) as [code|] eqn:Eh; [|done]. cbn [mbind option_bind].
  destruct (String.eqb code clean) eqn:Ec.
  - intros [= <-] _. b2p. subst. split_and!; [done|by left|done].
  - intros Hr Ho. destruct (IH Hr Ho) as (?&?&?). split_and!; [done|by right|done].
Qed.
Lemma verifyTotp_after secret token ms after r :
  verifyTotp secret token ms after = Some r → vr_ok r = true →
  after < vr_counter r ∧ Z.abs (vr_counter r - counterAt ms) <= TOTP_WINDOW
  ∧ hotp secret (vr_counter r) TOTP_DIGITS = Some (remove_ws token).
Proof.
  unfold verifyTotp. destruct (_ || _); [by intros [= <-]|]. intros Hr Ho.
  destruct (verify_steps_after _ _ _ _ _ _ Hr Ho) as (?&Hin&?). split_and!; [done| |done].
  apply list_elem_of_In, elem_of_seqZ in Hin. unfold TOTP_WINDOW in *. lia.
Qed.

Lemma master_key_readonly env : readonly (master_key env).
Proof. intros d. unfold master_key. by destruct (loadMasterKey _ _). Qed.

(** What [tryBackupCode] does, with distinct row ids. *)
Definition code_row (id : string) (b : BackupCode) : bool :=
  String.eqb (bc_id b) id && bool_decide (bc_used_at b = None).
Definition mark_used (env : Env) (id : string) (d : Db) : Db :=
  set_backup_codes (update_where (code_row id)
    (λ b, mkBackup (bc_id b) (bc_tenant b) (bc_member b) (bc_hash b) (Some (pg_now env))) (backup_codes d)) d.

Lemma row_count_unique {R} (key : R → string) (p : R → bool) l r :
  List.NoDup (map key l) → In r l → p r = true → (∀ x, In x l → p x = true → key x = key r) → row_count p l = 1.
Proof.
  intros Hnd Hin Hp Hk. unfold row_count, select.
  assert (∀ x, In x (List.filter p l) → x = r) as Hx.
  { intros x [Hxl Hxp]%filter_In. apply (NoDup_map_eq key l); auto. }
  assert (In r (List.filter p l)) as Hr by by apply filter_In.
  assert (List.NoDup (List.filter p l)) as Hf.
  { apply NoDup_map_inv in Hnd. by apply List.NoDup_filter. }
  destruct (List.filter p l) as [|x [|y k]]; [done|done|]. exfalso.
  rewrite (Hx x), (Hx y) in Hf by (simpl; auto). inversion Hf as [|? ? Hn _]. apply Hn. by left.
Qed.

Lemma tryBackupCode_spec env id token d o d' :
  List.NoDup (map bc_id (backup_codes d)) → tryBackupCode env id token d = (o, d') →
  (o = Ok false ∧ d' = d) ∨
  (o = Ok true ∧ ∃ b, In b (unused_codes id d) ∧
     argon2_verify (bc_hash b) (normalizeBackupCode toUpperCase token) = true ∧ d' = mark_used env (bc_id b) d).
Proof.
  intros Hnd. unfold tryBackupCode. destruct (_ <? 8); [intros [= <- <-]; by left|].
  unfold mbind, M_bind, get. cbn. destruct (List.find _ _) as [b|] eqn:Ef; [|intros [= <- <-]; by left].
  apply find_some in Ef as [Hb Hv]. intros E. right.
  assert (row_count (code_row (bc_id b)) (backup_codes d) = 1) as Hc.
  { apply select_In in Hb as [Hin Hp]. b2p. apply (row_count_unique bc_id _ _ b); [done|done| |].
    - unfold code_row. by rewrite String.eqb_refl, bool_decide_true.
    - unfold code_row. intros x _ Hx. by b2p. }
  unfold use_code, mbind, M_bind, get, modify, mret, M_ret in E. cbn in E.
  fold (code_row (bc_id b)) in E. rewrite Hc in E. injection E as <- <-. split; [done|]. by exists b.
Qed.

Lemma tryBackup_members env id token d o d' : tryBackupCode env id token d = (o, d') → members d' = members d ∧ tenants d' = tenants d.
Proof.
  unfold tryBackupCode. destruct (_ <? 8); [by intros [= <- <-]|]. unfold mbind, M_bind, get. cbn.
  destruct (List.find _ _); [|by intros [= <- <-]]. unfold use_code, mbind, M_bind, get, modify, mret, M_ret. cbn.
  by intros [= <- <-].
Qed.

(** Marking a code used takes it, and only it, out of the unused ones. *)
Lemma mark_used_codes env b d id :
  codes_ok d → In b (unused_codes id d) →
  codes_ok (mark_used env (bc_id b) d)
  ∧ (∀ id', id' ≠ id → unused_codes id' (mark_used env (bc_id b) d) = unused_codes id' d)
  ∧ unused_codes id (mark_used env (bc_id b) d) = List.filter (λ x, negb (String.eqb (bc_id x) (bc_id b))) (unused_codes id d).
Proof.
  intros Hok [Hin Hb]%select_In. b2p. unfold codes_ok, mark_used, unused_codes, select, update_where in *. simpl. split_and!.
  - rewrite map_map. rewrite (map_ext _ bc_id); [done|]. intros x. by destruct (code_row _ x).
  - intros id' Hid'. assert (∀ x, In x (backup_codes d) → bc_id x = bc_id b → x = b) as Hu.
    { intros x Hx Heq. by apply (NoDup_map_eq bc_id (backup_codes d)). }
    clear Hok Hin. induction (backup_codes d) as [|x l IH]; simpl; [done|].
    rewrite IH by (intros; apply Hu; [by right|done]). destruct (code_row (bc_id b) x) eqn:Ex; [|done].
    simpl. unfold code_row in Ex. b2p. rewrite (Hu x) in * by (simpl; auto).
    assert (String.eqb (bc_member b) id' = false) as -> by (apply String.eqb_neq; congruence). done.
  - clear Hok Hin. induction (backup_codes d) as [|x l IH]; simpl; [done|]. rewrite IH.
    destruct (code_row (bc_id b) x) eqn:Ex; unfold code_row in Ex; simpl.
    + apply andb_true_iff in Ex as [Ex Eu]. rewrite Eu, andb_false_r.
      destruct (String.eqb (bc_member x) id); simpl; [|done]. by rewrite Ex.
    + destruct (String.eqb (bc_member x) id); simpl; [|done].
      destruct (bool_decide (bc_used_at x = None)) eqn:Eu; simpl; [|done].
      rewrite andb_true_r in Ex. by rewrite Ex.
Qed.

Lemma within_tryBackup role env id token : within (team_step role (Some id)) (tryBackupCode env id token).
Proof.
  intros d. destruct (tryBackupCode env id token d) as [o d'] eqn:E. simpl.
  apply tryBackup_members in E as Hm. destruct Hm as [Hm Ht]. split; [rewrite Hm; apply rtc_refl|by rewrite Ht|].
  intros Hok. apply tryBackupCode_spec in E as [[_ ->]|(_&b&Hb&_&->)]; [done| |done].
  destruct (mark_used_codes env b d id) as (?&Hu&_); [done..|]. split; [done|]. intros id' Hid. apply Hu. congruence.
Qed.

Lemma verifies_counter t c : default (-1) (last_counter t) < c → verifies t (accept_counter c t).
Proof. split; simpl; try done; lia. Qed.
Lemma verifies_backup t : verifies t (accept_backup t).
Proof. by split. Qed.
Lemma verifies_failure env t : verifies t (count_failure env (failed_count t + 1) t).
Proof. unfold count_failure. split; case_match; simpl; try done; lia. Qed.
Lemma verifies_refl t : verifies t t.
Proof. by split. Qed.

Lemma update_totp_step role d0 d id f m :
  select1 (member_id id) (members d0) = Some m → members d = members d0 → verifies (m_totp m) (f (m_totp m)) →
  team_step role (Some id) d (update_totp id f d).2.
Proof.
  intros Hm Hd Hv. apply team_step_members. apply (mm_verify _ _ id f m); [done| |done]. by rewrite Hd.
Qed.

Lemma within_verifyForLogin role env id token : within (team_step role (Some id)) (verifyForLogin env id token).
Proof.
  unfold verifyForLogin. apply within_transaction; [apply _|]. apply within_get. intros d.
  destruct (select1 _ _) as [m|] eqn:Em; [|reflexivity].
  destruct (enabled_at (m_totp m)), (secret_enc (m_totp m)) as [enc|]; try reflexivity.
  rewrite readonly_bind_state by apply readonly_throw_if. destruct (throw_if _ _ d) as [[]]; [|reflexivity].
  rewrite readonly_bind_state by apply master_key_readonly. destruct (master_key env d) as [[]]; [|reflexivity].
  rewrite readonly_bind_state by apply readonly_some. destruct (some_or_throw _ _ d) as [[]]; [|reflexivity].
  rewrite readonly_bind_state by apply readonly_some. destruct (some_or_throw _ _ d) as [[res|] ?] eqn:Er; [|reflexivity].
  apply some_or_throw_ok in Er as [Er _]. destruct (vr_ok res) eqn:Eo.
  - apply (update_totp_step _ d d _ _ m); [done..|]. apply verifies_counter. by eapply verifyTotp_after.
  - unfold mbind at 1, M_bind. destruct (tryBackupCode env id token d) as [[used|e] dt] eqn:Et.
    + apply tryBackup_members in Et as Hd. etrans; [by eapply within_run; [apply within_tryBackup|exact Et]|].
      destruct used; apply (update_totp_step _ d dt _ _ m); try apply Hd; try done. apply verifies_failure.
    + by eapply within_run; [apply within_tryBackup|exact Et].
Qed.
End Totp.

(** ** Every handler *)

Section Handlers.
Context `{Crypto} `{Host}.

Lemma within_master_key role who env : within (team_step role who) (master_key env).
Proof. apply within_readonly; [apply _|]. apply master_key_readonly. Qed.
#[local] Hint Resolve within_master_key : within.

(** Enrolment. *)
Section Enrol.
Context (role : option string) (id : string).
Abbreviation R := (team_step role (Some id)).

Lemma within_set_totp tenant f : (∀ m, failed_count (f m) = 0) → within R (update_members (member_at tenant id) (λ m, set_totp (f m) m)).
Proof. intros Hf. apply within_modify. intros d. by apply team_step_members, mm_enrol. Qed.

Lemma within_startEnrollment env tenant email : within R (startEnrollment env tenant id email).
Proof.
  unfold startEnrollment. within_tac.
  by apply (within_set_totp tenant (λ _, _)).
Qed.
Lemma within_confirmEnrollment env tenant token : within R (confirmEnrollment env tenant id token).
Proof.
  unfold confirmEnrollment. within_tac.
  by apply (within_set_totp tenant (λ m, mkTotp (secret_enc (m_totp m)) _ _ _ _)).
Qed.
Lemma within_clear tenant : within R (clear tenant id).
Proof. unfold clear. within_tac. by apply (within_set_totp tenant (λ _, no_totp)). Qed.
Lemma within_disable env tenant token cur : within R (disable env tenant id token cur).
Proof. unfold disable. within_tac; [apply within_verifyForLogin|apply within_clear]. Qed.
Lemma within_resetForMember env tenant : within R (resetForMember env tenant id).
Proof. unfold resetForMember. within_tac. apply within_clear. Qed.
End Enrol.

(** Team changes by a member of role [actorRole]. *)
Section Roles.
Context (actorRole : string) (who : option string).
Abbreviation R := (team_step (Some actorRole) who).

Lemma owner_guard (c : bool) actor e (d d' : Db) u :
  throw_if (c && negb (String.eqb actor "owner")) e d = (Ok u, d') → c = true → actor = "owner".
Proof. intros [Hc _]%throw_if_ok ->. simpl in Hc. by b2p. Qed.

Lemma within_create_member env tenant input : within R (create_member env tenant actorRole input).
Proof.
  unfold create_member, assertAssignableRole. intros d.
  rewrite readonly_bind_state by apply readonly_throw_if. destruct (throw_if _ _ d) as [[u|] ?] eqn:E; [|reflexivity].
  revert d E. assert (∀ d d' : Db, throw_if (bool_decide (mi_role input = Owner) && negb (String.eqb actorRole "owner"))
    (ForbiddenException "only an owner assigns the owner role") d = (Ok u, d') → within R (d ← get;
     _ ← throw_if (negb (row_count (λ m, String.eqb (m_tenant m) tenant
         && String.eqb (pg_lower (m_email m)) (pg_lower (mi_email input))) (members d) =? 0))
        (ConflictException "email already exists");
     _ ← insert_member (mkMember (uuid env 0) tenant (mi_email input) (Some (argon2_hash (salt env 0) (mi_password input)))
               (mi_name input) (mi_role input) MActive no_totp (pg_now env));
     mret (mkMember (uuid env 0) tenant (mi_email input) (Some (argon2_hash (salt env 0) (mi_password input)))
               (mi_name input) (mi_role input) MActive no_totp (pg_now env)))) as Hw.
  { intros d d' E. within_tac. apply within_insert_member; [done|]. simpl. intros Ho. left. f_equal.
    eapply owner_guard; [exact E|by apply bool_decide_eq_true]. }
  intros d E. by apply (Hw _ _ E).
Qed.

Lemma not_last_owner tenant id d u d' :
  assertNotLastOwner tenant id d = (Ok u, d') → d' = d ∧ ∃ o, In o (members d) ∧ other_owner tenant id o = true.
Proof.
  unfold assertNotLastOwner. intros E. minv. b2p. split; [done|].
  apply (proj1 (row_count_pos _ _)). unfold row_count in *. lia.
Qed.

Lemma lockMember_ok tenant id d t d' :
  lockMember tenant id d = (Ok t, d') → d' = d ∧ ∃ m, select1 (member_at tenant id) (members d) = Some m ∧ t = (m_role m, m_status m).
Proof. unfold lockMember. intros E. minv. split; [done|]. eauto. Qed.

Lemma lockMember_readonly tenant id : readonly (lockMember tenant id).
Proof. unfold lockMember. repeat (apply readonly_bind; intros; auto with nudgeon). Qed.
Lemma assertNotLastOwner_readonly tenant id : readonly (assertNotLastOwner tenant id).
Proof. unfold assertNotLastOwner. repeat (apply readonly_bind; intros; auto with nudgeon). Qed.

(** What a successful role change or removal writes. *)
Lemma changeRole_tx tenant target newRole d (u : unit) d' :
  (target0 ← lockMember tenant target;
   _ ← assertAssignableRole actorRole newRole;
   _ ← assertCanManageTarget actorRole (fst target0);
   _ ← (if bool_decide (fst target0 = Owner) && negb (bool_decide (newRole = Owner))
        then assertNotLastOwner tenant target else mret tt);
   update_members (member_at tenant target) (set_role newRole)) d = (Ok u, d') →
  ∃ m, select1 (member_at tenant target) (members d) = Some m
    ∧ (m_role m = Owner ∨ newRole = Owner → actorRole = "owner")
    ∧ (m_role m = Owner → newRole ≠ Owner → ∃ o, In o (members d) ∧ other_owner tenant target o = true)
    ∧ d' = set_members (update_where (member_at tenant target) (set_role newRole) (members d)) d.
Proof.
  intros E. apply bind_ok in E as (t&d1&[-> (m&Hm&->)]%lockMember_ok&E).
  apply bind_ok in E as (?&d1&E1&E). unfold assertAssignableRole in E1. apply throw_if_ok in E1 as [G1 ->].
  apply bind_ok in E as (?&d1&E1&E). unfold assertCanManageTarget in E1. apply throw_if_ok in E1 as [G2 ->].
  apply bind_ok in E as (?&d1&E1&E). cbn [fst] in *. exists m. split; [done|].
  assert (d1 = d ∧ (m_role m = Owner → newRole ≠ Owner → ∃ o, In o (members d) ∧ other_owner tenant target o = true)) as [-> Hlast].
  { mcase Eg.
    - apply not_last_owner in E1 as [-> ?]. done.
    - minv. split; [done|]. intros Ho Hn. rewrite (bool_decide_true _ Ho), (bool_decide_false _ Hn) in Eg. discriminate Eg. }
  unfold update_members, modify in E. injection E as _ <-. split_and!; [|done..].
  intros [Ho|Ho]; rewrite (bool_decide_true _ Ho) in *; simpl in *; by b2p.
Qed.

Lemma remove_tx tenant target d (u : unit) d' :
  (target0 ← lockMember tenant target;
   _ ← assertCanManageTarget actorRole (fst target0);
   _ ← (if bool_decide (fst target0 = Owner) then assertNotLastOwner tenant target else mret tt);
   update_members (member_at tenant target) (set_status MDisabled)) d = (Ok u, d') →
  ∃ m, select1 (member_at tenant target) (members d) = Some m
    ∧ (m_role m = Owner → actorRole = "owner")
    ∧ (m_role m = Owner → ∃ o, In o (members d) ∧ other_owner tenant target o = true)
    ∧ d' = set_members (update_where (member_at tenant target) (set_status MDisabled) (members d)) d.
Proof.
  intros E. apply bind_ok in E as (t&d1&[-> (m&Hm&->)]%lockMember_ok&E).
  apply bind_ok in E as (?&d1&E1&E). unfold assertCanManageTarget in E1. apply throw_if_ok in E1 as [G2 ->].
  apply bind_ok in E as (?&d1&E1&E). cbn [fst] in *. exists m. split; [done|].
  assert (d1 = d ∧ (m_role m = Owner → ∃ o, In o (members d) ∧ other_owner tenant target o = true)) as [-> Hlast].
  { mcase Eg.
    - apply not_last_owner in E1 as [-> ?]. done.
    - minv. split; [done|]. by b2p. }
  unfold update_members, modify in E. injection E as _ <-. split_and!; [|done..].
  intros Ho; rewrite (bool_decide_true _ Ho) in *; simpl in *; by b2p.
Qed.

Lemma within_tx {A} (m : M Db A) : (∀ d a d', m d = (Ok a, d') → R d d') → within R (transaction m).
Proof.
  intros Hm d. unfold transaction. destruct (m d) as [[a|e] d'] eqn:E; [by eapply Hm|reflexivity].
Qed.

Lemma within_changeRole env tenant target newRole : within R (changeRole env tenant actorRole target newRole).
Proof.
  unfold changeRole. apply within_bind; [apply _| |intros; apply within_revokeAll].
  apply within_tx. intros d u d' (m&[Hm Hat]%select1_Some&Hg&Hl&->)%changeRole_tx.
  apply team_step_members, (mm_role _ _ tenant target newRole m); [done|done| |done]. intros Ho. f_equal. auto.
Qed.
Lemma within_remove env tenant actor target : within R (remove env tenant actorRole actor target).
Proof.
  unfold remove. apply within_bind; [apply _|apply within_readonly; [apply _|apply readonly_throw_if]|intros _].
  apply within_bind; [apply _| |intros; apply within_revokeAll].
  apply within_tx. intros d u d' (m&[Hm Hat]%select1_Some&Hg&Hl&->)%remove_tx.
  apply team_step_members, (mm_disable _ _ tenant target m); [done|done| |done]. intros Ho. f_equal. auto.
Qed.
End Roles.
End Handlers.

(** ** Requests *)

Inductive Request :=
| RSignup (body : SignupInput)
| RLogin (body : LoginBody)
| RLogout (cookie : option string)
| RMembersCreate (c : Caller) (body : MemberInput)
| RMembersChangeRole (c : Caller) (memberId role : string)
| RMembersRemove (c : Caller) (memberId : string)
| RTotpEnroll (c : Caller)
| RTotpConfirm (c : Caller) (code : string)
| RTotpDisable (c : Caller) (code : string)
| RTotpReset (c : Caller) (memberId : string)
| RTenantDelete (c : Caller)
| RTenantRestore (c : Caller)
| RTenantSecurity (c : Caller) (require_2fa : bool)
| RRotate (c : Caller) (appId keyId : string)
| RCreateServerKey (c : Caller) (appId : string)
| RRevokeKey (c : Caller) (appId keyId : string)
| RUsage (enabled : bool) (key : ResolvedApiKey)
| RModuleInit
| RClaim (r : Http) (token : string) (hits : list (string * list Z))
| RExtend (r : Http)
| RSetup (r : Http) (idem : option string) (body : SetupInput)
| RSetupResult (r : Http) (idem : option string).

Section Exec.
Context `{Crypto} `{Host}.

(** The store after a request. *)
Definition exec (env : Env) (q : Request) (d : Db) : Db :=
  match q with
  | RSignup b => (signup_handler env b d).2
  | RLogin b => (login env b d).2
  | RLogout c => (logout env c d).2
  | RMembersCreate c b => (members_create env c b d).2
  | RMembersChangeRole c m r => (members_changeRole env c m r d).2
  | RMembersRemove c m => (members_remove env c m d).2
  | RTotpEnroll c => (totp_enroll env c d).2
  | RTotpConfirm c code => (totp_confirm env c code d).2
  | RTotpDisable c code => (totp_disable env c code d).2
  | RTotpReset c m => (totp_reset env c m d).2
  | RTenantDelete c => (requestDeletion env c d).2
  | RTenantRestore c => (restore env c d).2
  | RTenantSecurity c b => (setSecurity env c b d).2
  | RRotate c a k => (rotate env c a k d).2
  | RCreateServerKey c a => (createServerKey env c a d).2
  | RRevokeKey c a k => (revokeKey env c a k d).2
  | RUsage en k => (usage_update env en k d).2
  | RModuleInit => (onModuleInit env d).2
  | RClaim r t h => (claim_handler env r t h d).1.2
  | RExtend r => (extend_handler env r d).2
  | RSetup r i b => (setup_handler env r i b d).2
  | RSetupResult r i => (setupResult_handler env r i d).2
  end.

(** The console session a request runs under. *)
Definition caller_of (q : Request) : option Caller :=
  match q with
  | RMembersCreate c _ | RMembersChangeRole c _ _ | RMembersRemove c _ | RTotpEnroll c | RTotpConfirm c _
  | RTotpDisable c _ | RTotpReset c _ | RTenantDelete c | RTenantRestore c | RTenantSecurity c _
  | RRotate c _ _ | RCreateServerKey c _ | RRevokeKey c _ _ => Some c
  | _ => None
  end.

(** The member whose second factor a request may write. *)
Definition touches (env : Env) (q : Request) (d : Db) : option string :=
  match q with
  | RLogin b => (λ r, m_id (fst r)) <$> head (login_join (lb_email b) d)
  | RTotpEnroll c | RTotpConfirm c _ | RTotpDisable c _ => sm_memberId <$> resolve env (default "" (cookie c)) d
  | RTotpReset _ m => Some m
  | _ => None
  end.

Inductive reachable : Db → Prop :=
| reach_empty : reachable empty_db
| reach_step env q d : reachable d → reachable (exec env q d).

(** A run of requests. *)
Definition run (l : list (Env * Request)) (d : Db) : Db := fold_left (λ d p, exec (fst p) (snd p) d) l d.

Lemma SessionGuard_readonly env ck u : readonly (SessionGuard env ck u).
Proof. unfold SessionGuard. repeat (apply readonly_bind; intros; auto with nudgeon). Qed.

(** The session a guarded request runs under. *)
Record session_of (env : Env) (c : Caller) (d : Db) (sm : SessionMember) : Prop := {
  so_resolve : resolve env (default "" (cookie c)) d = Some sm;
  so_enrolled : sm_requires2fa sm = true → sm_totpEnabled sm = false → isEnrollmentAllowed (path_of (url c)) = true }.

Lemma SessionGuard_ok env c d sm d' :
  SessionGuard env (cookie c) (url c) d = (Ok sm, d') → d' = d ∧ session_of env c d sm.
Proof.
  unfold SessionGuard. intros E. minv. split; [done|]. split; [done|]. intros Hr Ht.
  rewrite Hr, Ht in *. simpl in *. by b2p.
Qed.

(** The guards let the request through, or nothing happens. *)
Lemma guarded_inv {A} env c perm (h : SessionMember → M Db A) d :
  ((guarded env c perm h d).2 = d ∧ is_ok (guarded env c perm h d).1 = false) ∨
  ∃ sm, session_of env c d sm ∧ (∀ p, perm = Some p → can (sm_role sm) p = true) ∧ guarded env c perm h d = h sm d.
Proof.
  unfold guarded. rewrite readonly_bind_state by apply SessionGuard_readonly.
  destruct (SessionGuard env (cookie c) (url c) d) as [[sm|e] s1] eqn:Es; [|by left].
  apply SessionGuard_ok in Es as [_ Hsm].
  rewrite readonly_bind_state by apply PermissionGuard_readonly.
  destruct (PermissionGuard perm _ d) as [[u|e] s2] eqn:Ep; [|by left].
  right. exists sm. split_and!; [done| |done]. intros p ->. by apply PermissionGuard_ok in Ep as [? _].
Qed.

(** A new workspace: one tenant, one active owner. *)
Definition founds (d d' : Db) : Prop :=
  ∃ t m, tenants d' = tenants d ++ [t] ∧ members d' = members d ++ [m] ∧ backup_codes d' = backup_codes d ∧ m_tenant m = tn_id t
    ∧ m_role m = Owner ∧ m_status m = MActive ∧ m_totp m = no_totp
    ∧ (∀ x, In x (tenants d) → tn_id x ≠ tn_id t) ∧ (∀ x, In x (members d) → m_id x ≠ m_id m).

Lemma insert_tenant_ok t d u d' :
  insert_tenant t d = (Ok u, d') → (∀ x, In x (tenants d) → tn_id x ≠ tn_id t) ∧ d' = set_tenants (tenants d ++ [t]) d.
Proof.
  intros [Hb ->]%insert_ok. split; [|done]. intros x Hx. apply (existsb_fresh _ _ Hb) in Hx. by b2p.
Qed.
Lemma insert_member_ok m d u d' :
  insert_member m d = (Ok u, d') → (∀ x, In x (members d) → m_id x ≠ m_id m) ∧ d' = set_members (members d ++ [m]) d.
Proof.
  intros [Hb ->]%insert_ok. split; [|done]. intros x Hx. apply (existsb_fresh _ _ Hb) in Hx. by b2p.
Qed.

Lemma createWorkspace_ok env input app d w d' :
  createWorkspace env input app d = (Ok w, d') → founds d d' ∧ installation d' = installation d
    ∧ sessions d' = sessions d ∧ ws_tenantId w = uuid env 0 ∧ ws_memberId w = uuid env 1
    ∧ (∀ x, In x (members d) → m_id x ≠ uuid env 1) ∧ (∀ x, In x (tenants d) → tn_id x ≠ uuid env 0).
Proof.
  unfold createWorkspace. intros E. minv.
  repeat match goal with
  | E : insert_tenant _ _ = _ |- _ => apply insert_tenant_ok in E as [? ->]
  | E : insert_member _ _ = _ |- _ => apply insert_member_ok in E as [? ->]
  | E : insert_app _ _ = _ |- _ => apply insert_ok in E as [? ->]
  | E : insert_key _ _ = _ |- _ => apply insert_ok in E as [? ->]
  end.
  split_and!; try done. eexists _, _. split_and!; try reflexivity; done.
Qed.
End Exec.

Section RequestEffect.
Context `{Crypto} `{Host}.
Abbreviation R0 := (team_step (Some "") None).
Abbreviation R1 w := (team_step (Some "") w).

Definition request_effect (env : Env) (q : Request) (d d' : Db) : Prop :=
  d' = d ∨
  (∃ c sm, caller_of q = Some c ∧ session_of env c d sm ∧ team_step (Some (sm_role sm)) (touches env q d) d d') ∨
  (caller_of q = None ∧ R1 (touches env q d) d d') ∨
  (caller_of q = None ∧ ∃ d1, founds d d1 ∧ R0 d1 d').

Lemma guarded_effect {A} env q c perm (h : SessionMember → M Db A) d :
  caller_of q = Some c → (∀ sm, session_of env c d sm → within (team_step (Some (sm_role sm)) (touches env q d)) (h sm)) →
  request_effect env q d (guarded env c perm h d).2.
Proof.
  intros Hc Hh. destruct (guarded_inv env c perm h d) as [[-> _]|(sm&Hs&_&->)]; [by left|].
  right. left. exists c, sm. split_and!; [done|done|by apply Hh].
Qed.

Lemma verifyLogin_readonly e p : readonly (verifyLogin e p).
Proof. unfold verifyLogin. repeat (apply readonly_bind; intros; auto with nudgeon). Qed.
Lemma verifyLogin_ok e p d r d' :
  verifyLogin e p d = (Ok r, d') → d' = d ∧ ∃ m t, head (login_join e d) = Some (m, t)
    ∧ argon2_verify (default dummy_hash (m_password_hash m)) p = true
    ∧ r = mkLogin (m_id m) (m_tenant m) (bool_decide (enabled_at (m_totp m) ≠ None)) (tn_require_2fa t).
Proof.
  unfold verifyLogin. intros E. apply bind_ok in E as (dg&s1&[= <- <-]&E).
  apply bind_ok in E as ([m t]&s1&[Hrow ->]%some_or_throw_ok&E). rewrite Hrow in *. simpl in E. minv. b2p.
  split; [done|]. exists m, t. done.
Qed.
Lemma login_effect env b d : R1 (touches env (RLogin b) d) d (login env b d).2.
Proof.
  unfold login. rewrite readonly_bind_state by apply readonly_throw_if.
  destruct (throw_if _ _ d) as [[]]; [|reflexivity].
  rewrite readonly_bind_state by apply verifyLogin_readonly.
  destruct (verifyLogin _ _ d) as [[r|e] d'] eqn:E; [|reflexivity].
  apply verifyLogin_ok in E as (->&m&t&Hrow&_&->). cbn [touches]. rewrite Hrow. cbn [fmap option_fmap option_map fst].
  unfold issueSession. eapply within_run; [|apply surjective_pairing]. cbn [lr_memberId lr_tenantId lr_totpEnabled].
  within_tac. apply within_verifyForLogin.
Qed.
Lemma within_claim env t : within R0 (claim env t).
Proof. unfold claim. within_tac. Qed.
Lemma within_ensure env : within R0 (ensureInstallation env).
Proof. 
  unfold ensureInstallation. within_tac. apply within_modify. intros d. apply team_step_same; by destruct (installation d).
Qed.
Lemma within_extend env ck : within R0 (extend env ck).
Proof. unfold extend. within_tac. Qed.
Lemma setupResult_readonly env ck k : readonly (setupResult env ck k).
Proof. unfold setupResult. repeat (apply readonly_bind; intros; auto with nudgeon). Qed.
Lemma transport_readonly env r : readonly (assertLoopbackOrTls env r).
Proof. apply readonly_throw_if. Qed.
Lemma single_readonly env : readonly (single env).
Proof. apply readonly_throw_if. Qed.

Lemma within_usage env en k : within R0 (usage_update env en k).
Proof. apply within_modify. intros d. by apply team_step_same. Qed.

(** The first request of a self-hosted installation. *)
Lemma setup_effect env ck k input d :
  R0 d (setup env ck k input d).2 ∨
  (∃ row r, installation d = Some row ∧ in_state row = Claimed ∧ (setup env ck k input d).1 = Ok r ∧ sp_replayed r = false ∧
     ∃ d1, founds d d1 ∧ R0 d1 (setup env ck k input d).2).
Proof.
  unfold setup. rewrite readonly_bind_state by apply readonly_some.
  destruct (some_or_throw _ _ d) as [[tok|e] ?]; [|left; reflexivity].
  unfold transaction. match goal with |- context [match ?m d with _ => _ end] => set (body := m) end.
  destruct (body d) as [[r|e] d'] eqn:E; [|left; reflexivity]. subst body. cbn [fst snd].
  apply bind_ok in E as (dg&s1&[= <- <-]&E). apply bind_ok in E as (row&s1&[Hrow ->]%some_or_throw_ok&E).
  case_match.
  { case_match; [|done]. minv. left; reflexivity. }
  apply bind_ok in E as (?&s1&[Hg1 ->]%throw_if_ok&E). apply bind_ok in E as (?&s1&[Hg2 ->]%throw_if_ok&E).
  right. b2p. unfold setup_create in E.
  apply bind_ok in E as (w&s1&(Hf&_)%createWorkspace_ok&E).
  apply bind_ok in E as ([]&s2&E2&E). apply bind_ok in E as ([]&s3&E3&E). 
  unfold mret, M_ret in E. injection E as <- <-. exists row, (mkReply
    (mkSetupResult (ws_tenantId w) (ws_appId w) (ws_memberId w) (in_id row) (Date_now env SecuredAt))
    (Some (ws_sdkKey w, ws_serverKey w)) false). split_and!; try done.
  exists s1. split; [done|]. trans s2.
  - eapply within_run; [|exact E2]. unfold set_timezone. within_tac.
    apply within_modify. intros ?. by apply team_step_same.
  - eapply within_run; [apply within_installation|exact E3].
Qed.

(** A request that may found a workspace, then opens a session. *)
Lemma then_session {A} env (m : M Db A) (t u : A → string) d :
  (R0 d (m d).2 ∨ ∃ d1, founds d d1 ∧ R0 d1 (m d).2) →
  let d' := (a ← m; tok ← create env (t a) (u a); mret (a, fst tok)) d in
  R0 d d'.2 ∨ ∃ d1, founds d d1 ∧ R0 d1 d'.2.
Proof.
  intros Hm. cbv zeta. assert (R0 (m d).2 ((a ← m; tok ← create env (t a) (u a); mret (a, fst tok)) d).2) as Hr.
  { unfold mbind at 1, M_bind. destruct (m d) as [[a|e] d1]; [|reflexivity].
    eapply within_run; [|apply surjective_pairing]. within_tac. }
  destruct Hm as [Hm|(d1&Hf&Hm)]; [left; by etrans|]. right. exists d1. split; [done|by etrans].
Qed.

Lemma signup_effect env b d :
  R0 d (signup_handler env b d).2 ∨ ∃ d1, founds d d1 ∧ R0 d1 (signup_handler env b d).2.
Proof.
  unfold signup_handler. rewrite readonly_bind_state by apply readonly_throw_if.
  destruct (throw_if _ _ d) as [[]]; [|left; reflexivity]. apply (then_session env (signup env b) ws_tenantId ws_memberId).
  unfold signup. rewrite readonly_bind_state by apply readonly_throw_if.
  destruct (throw_if _ _ d) as [[]]; [|left; reflexivity]. unfold transaction.
  destruct (createWorkspace env b None d) as [[w|e] d'] eqn:E; [|left; reflexivity].
  right. apply createWorkspace_ok in E as (Hf&_). exists d'. split; [done|reflexivity].
Qed.

Lemma setup_handler_effect env r i b d :
  R0 d (setup_handler env r i b d).2 ∨ ∃ d1, founds d d1 ∧ R0 d1 (setup_handler env r i b d).2.
Proof.
  unfold setup_handler.
  rewrite readonly_bind_state by apply single_readonly. destruct (single env d) as [[]]; [|left; reflexivity].
  rewrite readonly_bind_state by apply transport_readonly. destruct (assertLoopbackOrTls env r d) as [[]]; [|left; reflexivity].
  rewrite readonly_bind_state by apply readonly_some. destruct (some_or_throw _ _ d) as [[key|]]; [|left; reflexivity].
  rewrite readonly_bind_state by apply readonly_throw_if. destruct (throw_if _ _ d) as [[]]; [|left; reflexivity].
  rewrite readonly_bind_state by apply readonly_throw_if. destruct (throw_if _ _ d) as [[]]; [|left; reflexivity].
  apply (then_session env (setup env (h_cookie r) key b) (λ o, sr_tenant_id (sp_result o)) (λ o, sr_member_id (sp_result o))).
  destruct (setup_effect env (h_cookie r) key b d) as [?|(_&_&_&_&_&_&?)]; auto.
Qed.

(** Every request is a team change by a signed-in member, a change no member
    table depends on, or the founding of a workspace. *)
Lemma exec_effect env q d : request_effect env q d (exec env q d).
Proof.
  destruct q; cbn [exec];
    try (match goal with |- request_effect env ?q d _ => eapply (guarded_effect env q); [reflexivity|intros sm [Hs _]; cbn [touches]] end);
    try (match goal with |- context [sm_memberId <$> _] => rewrite Hs; cbn [fmap option_fmap option_map] end).
  - right; right. destruct (signup_effect env body d) as [?|?]; [left|right]; done.
  - right; right; left. split; [done|apply login_effect].
  - right; right; left. split; [done|]. unfold logout. destruct (String.eqb _ _); [reflexivity|apply within_revoke].
  - within_tac. apply within_create_member.
  - unfold assertInTenant. within_tac. apply within_changeRole.
  - within_tac. apply within_remove.
  - apply within_startEnrollment.
  - unfold parseCode. within_tac. apply within_confirmEnrollment.
  - unfold parseCode. within_tac. apply within_disable.
  - within_tac. apply within_resetForMember.
  - within_tac. by apply within_update_tenant.
  - within_tac. by apply within_update_tenant.
  - within_tac. by apply within_update_tenant.
  - unfold rotate_check, rotate_commit, assertApp, assertKeyAdmin. within_tac.
    apply within_modify. intros ?. by apply team_step_same.
  - unfold assertApp, assertKeyAdmin. within_tac.
  - unfold assertApp, assertKeyAdmin. within_tac. apply within_modify. intros ?. by apply team_step_same.
  - right; right; left. split; [done|apply within_usage].
  - right; right; left. split; [done|]. unfold onModuleInit. case_match; [|reflexivity]. apply within_ensure.
  - right; right; left. split; [done|]. unfold claim_handler.
    destruct ((_ ← single env; assertLoopbackOrTls env r) d) as [[u|e] d1] eqn:E.
    + destruct (allow _ _ _) as [[|] hits']; [|reflexivity]. cbn [negb].
      match goal with |- context [let '(o, d') := ?m d in _] => assert (within R0 m) as Hw end.
      { within_tac. apply within_claim. }
      specialize (Hw d). match type of Hw with _ d (?m d).2 => destruct (m d) as [o d2] end. exact Hw.
    + assert (d1 = d) as ->; [|reflexivity]. eapply readonly_state; [|exact E].
      apply readonly_bind; [apply single_readonly|intros; apply transport_readonly].
  - right; right; left. split; [done|]. unfold extend_handler, single, assertLoopbackOrTls.
    apply (within_bind R0); [within_tac|intros _]. within_tac. apply within_extend.
  - right; right. destruct (setup_handler_effect env r idem body d) as [?|?]; [left|right]; done.
  - right; right; left. split; [done|]. unfold setupResult_handler, single. 
    apply (within_bind R0); [within_tac|intros _]. within_tac. apply within_readonly; [apply _|apply setupResult_readonly].
Qed.
End RequestEffect.
