(* ===== verification/AuthProps.v ===== *)
(** * Accounts: properties

    What every request to the account services keeps: the invariant of a team
    (distinct ids, an active owner in every tenant), the standing of owners, and
    what a request leaves of the rows of a member.  The files that require this
    one build on it: [AuthFactor], [AuthLife], [AuthEnrol]. *)

From Stdlib Require Import Ascii.
From stdpp Require Import pretty.
From S2P Require Import Prelude JsVal Crypto Authz AuthDb AuthServices Team Bootstrap AuthInv.

#[global] Open Scope Z_scope.

(** ** Owners *)

Definition owner_of (tid : string) (m : Member) : Prop :=
  m_tenant m = tid ∧ m_role m = Owner ∧ m_status m = MActive.

(** The invariant: member ids and code ids are distinct, every tenant has an
    active owner. *)
Record team_inv (d : Db) : Prop := {
  ti_ids : List.NoDup (map m_id (members d));
  ti_codes : codes_ok d;
  ti_owner : ∀ t, In t (map tn_id (tenants d)) → ∃ o, In o (members d) ∧ owner_of t o }.

Lemma update_where_keeps (p : Member → bool) f l (Q : Member → Prop) o :
  In o l → Q o → (p o = true → Q (f o)) → ∃ o', In o' (update_where p f l) ∧ Q o'.
Proof.
  intros Hin HQ Hf. destruct (p o) eqn:E.
  - exists (f o). split; [|auto]. apply update_where_In. left. eauto.
  - exists o. split; [|done]. apply update_where_In. right. done.
Qed.

Lemma mmove_ids role who l l' : mmove role who l l' → List.NoDup (map m_id l) → List.NoDup (map m_id l').
Proof.
  intros Hm Hnd. destruct Hm; try (rewrite members_ids_update; done).
  rewrite map_app. apply List.NoDup_app; [done|repeat constructor; by intros []|].
  intros x (y&<-&Hy)%in_map_iff [Heq|[]]. by apply (H y).
Qed.

Lemma mmove_owner role who l l' tid :
  mmove role who l l' → List.NoDup (map m_id l) →
  (∃ o, In o l ∧ owner_of tid o) → ∃ o, In o l' ∧ owner_of tid o.
Proof.
  intros Hm Hnd (o&Ho&Hown). destruct Hm as [id f m l _ _ _|tenant id f l _|tenant id r m l Hin Hat _ Hlast|tenant id m l Hin Hat _ Hlast|m l _ _ _].
  - by apply (update_where_keeps _ _ _ (owner_of tid) o).
  - by apply (update_where_keeps _ _ _ (owner_of tid) o).
  - unfold member_at in *. destruct (String.eqb (m_id o) id) eqn:Eo; b2p.
    + assert (o = m) as -> by (apply (NoDup_map_eq m_id l); congruence). destruct Hown as (Ht&Hr&Hs).
      destruct (decide (r = Owner)) as [->|Hne].
      * apply (update_where_keeps _ _ _ (owner_of tid) m); [done|done|]. by intros _.
      * destruct (Hlast Hr Hne) as (o'&Ho'&Hoth). unfold other_owner, is_owner, is_active in Hoth. b2p.
        apply (update_where_keeps _ _ _ (owner_of tid) o'); [done| |].
        -- repeat split; congruence.
        -- intros ?. by b2p.
    + apply (update_where_keeps _ _ _ (owner_of tid) o); [done|done|]. intros ?. by b2p.
  - unfold member_at in *. destruct (String.eqb (m_id o) id) eqn:Eo; b2p.
    + assert (o = m) as -> by (apply (NoDup_map_eq m_id l); congruence). destruct Hown as (Ht&Hr&Hs).
      destruct (Hlast Hr) as (o'&Ho'&Hoth). unfold other_owner, is_owner, is_active in Hoth. b2p.
      apply (update_where_keeps _ _ _ (owner_of tid) o'); [done| |].
      * repeat split; congruence.
      * intros ?. by b2p.
    + apply (update_where_keeps _ _ _ (owner_of tid) o); [done|done|]. intros ?. by b2p.
  - exists o. split; [|done]. apply in_app_iff. by left.
Qed.

Lemma team_step_inv role who d d' : team_step role who d d' → team_inv d → team_inv d'.
Proof.
  intros [Hm Ht Hc] [Hids Hcodes Hown]. assert (List.NoDup (map m_id (members d')) ∧
    ∀ t, (∃ o, In o (members d) ∧ owner_of t o) → ∃ o, In o (members d') ∧ owner_of t o) as [Hids' Hown'].
  { clear Hown Ht Hc Hcodes. induction Hm as [l|l1 l2 l3 Hm _ IH]; [done|].
    pose proof (mmove_ids _ _ _ _ Hm Hids) as Hids2. destruct (IH Hids2) as [? Ho]. split; [done|].
    intros t Hex. apply Ho. by eapply mmove_owner. }
  split; [done|by apply Hc|]. intros t Hin. rewrite Ht in Hin. auto.
Qed.

Lemma founds_inv d d' : founds d d' → team_inv d → team_inv d'.
Proof.
  intros (t&m&Ht&Hm&Hc&Hmt&Hr&Hs&_&_&Hfr) [Hids Hcodes Hown]. split.
  - rewrite Hm, map_app. apply List.NoDup_app; [done|repeat constructor; by intros []|].
    intros x (y&<-&Hy)%in_map_iff [Heq|[]]. by apply (Hfr y).
  - unfold codes_ok in *. by rewrite Hc.
  - intros tid. rewrite Ht, map_app, in_app_iff, Hm. intros [Hin|[<-|[]]].
    + destruct (Hown _ Hin) as (o&?&?). exists o. split; [|done]. apply in_app_iff. by left.
    + exists m. split; [apply in_app_iff; right; by left|done].
Qed.

Section Owners.
Context `{Crypto} `{Host}.

Lemma exec_inv env q d : team_inv d → team_inv (exec env q d).
Proof.
  intros Hi. destruct (exec_effect env q d) as [->|[(c&sm&_&_&Hs)|[[_ Hs]|(_&d1&Hf&Hs)]]]; [done|..].
  - by eapply team_step_inv.
  - by eapply team_step_inv.
  - eapply team_step_inv; [done|]. by eapply founds_inv.
Qed.

Lemma reachable_team_inv d : reachable d → team_inv d.
Proof.
  induction 1 as [|env q d _ IH]; [|by apply exec_inv].
  split; [constructor|constructor|]. by intros t [].
Qed.

(** C13. Whatever requests are made, every tenant keeps an active owner: the
    last one can be neither demoted nor removed. *)
Theorem tenant_keeps_owner d t :
  reachable d → In t (tenants d) →
  ∃ o, In o (members d) ∧ m_tenant o = tn_id t ∧ m_role o = Owner ∧ m_status o = MActive.
Proof. intros Hr Ht. apply (ti_owner d); [by apply reachable_team_inv|by apply in_map]. Qed.

(** ** Privilege *)

(** The same row up to the columns of the second factor. *)
Definition same_standing (m m' : Member) : Prop := set_totp (m_totp m) m' = m.

Lemma same_standing_refl m : same_standing m m.
Proof. by destruct m. Qed.
Lemma same_standing_trans a b c : same_standing a b → same_standing b c → same_standing a c.
Proof. unfold same_standing. by intros <- <-. Qed.
Lemma same_standing_id a b : same_standing a b → m_id b = m_id a.
Proof. by intros <-. Qed.
Lemma same_standing_role a b : same_standing a b → m_role b = m_role a.
Proof. by intros <-. Qed.

(** the owners of [l] and of [l'] are the same, up to their second factor *)
Definition owners_kept (l l' : list Member) : Prop :=
  (∀ m, In m l → m_role m = Owner → ∃ m', In m' l' ∧ same_standing m m') ∧
  (∀ m', In m' l' → m_role m' = Owner → ∃ m, In m l ∧ same_standing m m').

Lemma owners_kept_refl l : owners_kept l l.
Proof. split; intros m Hm _; exists m; split; done || apply same_standing_refl. Qed.
Lemma owners_kept_trans l1 l2 l3 : owners_kept l1 l2 → owners_kept l2 l3 → owners_kept l1 l3.
Proof.
  intros [A1 B1] [A2 B2]. split; intros m Hm Hr.
  - destruct (A1 m Hm Hr) as (m2&H2&S2). destruct (A2 m2 H2) as (m3&H3&S3); [by rewrite (same_standing_role _ _ S2)|].
    exists m3. split; [done|by eapply same_standing_trans].
  - destruct (B2 m Hm Hr) as (m2&H2&S2). destruct (B1 m2 H2) as (m1&H3&S3); [by rewrite <- (same_standing_role _ _ S2)|].
    exists m1. split; [done|by eapply same_standing_trans].
Qed.

Lemma owners_kept_update (p : Member → bool) f l :
  (∀ m, In m l → p m = true → (m_role m = Owner ∨ m_role (f m) = Owner) → same_standing m (f m)) →
  owners_kept l (update_where p f l).
Proof.
  intros Hf. split.
  - intros m Hm Hr. destruct (p m) eqn:E.
    + exists (f m). split; [apply update_where_In; left; eauto|auto].
    + exists m. split; [apply update_where_In; by right|apply same_standing_refl].
  - intros m' [(m&Hm&Hp&->)|[Hm Hp]]%update_where_In Hr; [exists m; auto|].
    exists m'. split; [done|apply same_standing_refl].
Qed.

Lemma mmove_privilege role who l l' :
  role ≠ Some "owner" → role ≠ None → List.NoDup (map m_id l) → mmove role who l l' → owners_kept l l'.
Proof.
  intros Hr Hn Hnd Hm. destruct Hm as [id f m l _ _ _|tenant id f l _|tenant id r m l Hin Hat Hg _|tenant id m l Hin Hat Hg _|m l _ _ Hg].
  - apply owners_kept_update. intros x _ _ _. by destruct x.
  - apply owners_kept_update. intros x _ _ _. by destruct x.
  - apply owners_kept_update. intros x Hx Hp Ho. exfalso. apply Hr, Hg. unfold member_at in *. b2p.
    assert (x = m) as -> by (apply (NoDup_map_eq m_id l); congruence). destruct Ho; auto.
  - apply owners_kept_update. intros x Hx Hp Ho. exfalso. apply Hr, Hg. unfold member_at in *. b2p.
    assert (x = m) as -> by (apply (NoDup_map_eq m_id l); congruence). simpl in Ho. tauto.
  - split.
    + intros x Hx _. exists x. split; [apply in_app_iff; by left|apply same_standing_refl].
    + intros x [Hx|[<-|[]]]%in_app_iff Ho; [exists x; split; [done|apply same_standing_refl]|].
      by destruct (Hg Ho).
Qed.
End Owners.
