(* ===== verification/AuthFactor.v ===== *)
(** * The second factor over time

    What a successful [verifyForLogin] consumes, what other requests leave of a
    member's factor, and the properties that follow: a factor is used once and
    guesses are limited. *)

From Stdlib Require Import Ascii.
From stdpp Require Import pretty.
From S2P Require Import Prelude JsVal Crypto Authz AuthDb AuthServices Team Bootstrap AuthInv AuthProps.

#[global] Open Scope Z_scope.

Section Factor.
Context `{Crypto} `{Host}.

(** What a verification accepted: a time step or a backup code. *)
Inductive Factor := ByCounter (c : Z) | ByCode (id : string).

(** The member's row [m] accepts [token] in the store [d], leaving [d']. *)
Inductive accepted (env : Env) (m : Member) (token : string) (d : Db) : Factor → Db → Prop :=
| acc_counter key enc secret c :
    loadMasterKey (NUDGEON_MASTER_KEY env) (master_key_file env) = Ok key →
    secret_enc (m_totp m) = Some enc → decryptSecret key enc = Some secret →
    hotp secret c TOTP_DIGITS = Some (remove_ws token) →
    Z.abs (c - counterAt (Date_now env TotpStep)) <= TOTP_WINDOW →
    default (-1) (last_counter (m_totp m)) < c →
    accepted env m token d (ByCounter c)
      (set_members (update_where (member_id (m_id m)) (λ m, set_totp (accept_counter c (m_totp m)) m) (members d)) d)
| acc_code b :
    In b (unused_codes (m_id m) d) →
    argon2_verify (bc_hash b) (normalizeBackupCode toUpperCase token) = true →
    accepted env m token d (ByCode (bc_id b))
      (set_members (update_where (member_id (m_id m)) (λ m, set_totp (accept_backup (m_totp m)) m) (members d))
        (mark_used env (bc_id b) d)).

(** The member's row, enrolled and not locked. *)
Definition enrolled (t : Totp) : bool :=
  match enabled_at t, secret_enc t with Some _, Some _ => true | _, _ => false end.

Lemma run_readonly {A B} (m : M Db A) (f : A → M Db B) d o d' :
  readonly m → (m ≫= f) d = (o, d') → (∃ e, o = Throw e ∧ d' = d) ∨ ∃ a, m d = (Ok a, d) ∧ f a d = (o, d').
Proof.
  intros Hm. rewrite readonly_bind_state by done. specialize (Hm d).
  destruct (m d) as [[a|e] d1]; simpl in Hm; subst; [eauto|]. intros [= <- <-]. eauto.
Qed.

(** Every outcome of a verification: refused or not enrolled and nothing
    written, accepted, or counted as a failure. *)
Lemma verifyForLogin_spec env id token d o d' :
  codes_ok d → verifyForLogin env id token d = (o, d') →
  (d' = d ∧ ∃ e, o = Throw e) ∨
  (d' = d ∧ o = Ok false ∧ ∀ m, select1 (member_id id) (members d) = Some m → enrolled (m_totp m) = false) ∨
  ∃ m, select1 (member_id id) (members d) = Some m ∧ enrolled (m_totp m) = true ∧ locked env (m_totp m) = false ∧
    ((o = Ok true ∧ ∃ v, accepted env m token d v d') ∨
     (o = Ok false ∧ d' = set_members (update_where (member_id id)
        (λ x, set_totp (count_failure env (failed_count (m_totp m) + 1) (m_totp x)) x) (members d)) d)).
Proof.
  intros Hok E. unfold verifyForLogin, transaction in E.
  match type of E with match ?b d with _ => _ end = _ => destruct (b d) as [[a|e] dt] eqn:Eb end;
    injection E as <- <-; [|left; eauto].
  right. apply bind_ok in Eb as (dg&s1&[= <- <-]&Eb).
  destruct (select1 (member_id id) (members d)) as [m|] eqn:Em; [|left; minv; split_and!; done].
  unfold enrolled. destruct (enabled_at (m_totp m)) as [en|] eqn:Een;
    [|left; minv; split_and!; [done..|]; intros ? [= <-]; by rewrite Een].
  destruct (secret_enc (m_totp m)) as [enc|] eqn:Ese;
    [|left; minv; split_and!; [done..|]; intros ? [= <-]; by rewrite Een, Ese].
  right. exists m. rewrite Een, Ese.
  assert (m_id m = id) as Hid by (apply select1_Some in Em as [_ Hid]; unfold member_id in Hid; by b2p).
  apply bind_ok in Eb as (?&s1&[Hlock ->]%throw_if_ok&Eb). split_and!; [done..|].
  apply bind_ok in Eb as (key&s1&Ek&Eb). assert (s1 = d ∧ loadMasterKey (NUDGEON_MASTER_KEY env) (master_key_file env) = Ok key) as [-> Hkey].
  { unfold master_key in Ek. destruct (loadMasterKey _ _); [|done]. by injection Ek as -> ->. }
  apply bind_ok in Eb as (secret&s1&[Hsec ->]%some_or_throw_ok&Eb).
  apply bind_ok in Eb as (res&s1&[Hres ->]%some_or_throw_ok&Eb). destruct (vr_ok res) eqn:Eo.
  - left. destruct (verifyTotp_after _ _ _ _ _ Hres Eo) as (?&?&?).
    apply bind_ok in Eb as ([]&s1&E1&Eb). unfold mret, M_ret in Eb. injection Eb as <- <-.
    unfold update_totp, update_members, modify in E1. injection E1 as <-. split; [done|]. exists (ByCounter (vr_counter res)).
    rewrite <- Hid. by econstructor.
  - apply bind_ok in Eb as (used&s1&Et&Eb). apply tryBackupCode_spec in Et as [[[= ->] ->]|([= ->]&b&Hb&Hv&->)]; [| |done].
    + right. apply bind_ok in Eb as ([]&s1&E1&Eb). unfold mret, M_ret in Eb. injection Eb as <- <-.
      unfold update_totp, update_members, modify in E1. by injection E1 as <-.
    + left. apply bind_ok in Eb as ([]&s1&E1&Eb). unfold mret, M_ret in Eb. injection Eb as <- <-.
      unfold update_totp, update_members, modify in E1. injection E1 as <-. split; [done|]. exists (ByCode (bc_id b)).
      subst id. by apply acc_code.
Qed.

(** ** A member's factor *)

(** The 2FA columns of member [id] in [d]. *)
Definition totp_of (id : string) (d : Db) (t : Totp) : Prop := ∃ m, In m (members d) ∧ m_id m = id ∧ m_totp m = t.

Lemma totp_of_unique id d t t' : List.NoDup (map m_id (members d)) → totp_of id d t → totp_of id d t' → t = t'.
Proof.
  intros Hnd (m&Hm&Hi&<-) (m'&Hm'&Hi'&<-). f_equal. apply (NoDup_map_eq m_id (members d)); congruence.
Qed.

Lemma mmove_totp role who l l' id m :
  mmove role who l l' → who ≠ Some id → In m l → m_id m = id → ∃ m', In m' l' ∧ m_id m' = id ∧ m_totp m' = m_totp m.
Proof.
  intros Hm Hw Hin Hid. destruct Hm as [i f x l Hi _ _|tenant i f l Hi _|tenant i r x l _ _ _ _|tenant i x l _ _ _ _|x l _ _ _].
  - exists m. split_and!; [|done..]. apply update_where_In. right. split; [done|]. apply String.eqb_neq. congruence.
  - exists m. split_and!; [|done..]. apply update_where_In. right. split; [done|]. unfold member_at.
    apply andb_false_iff. right. apply String.eqb_neq. congruence.
  - destruct (member_at tenant i m) eqn:E; [exists (set_role r m)|exists m]; split_and!; try done; apply update_where_In; [left|right]; eauto.
  - destruct (member_at tenant i m) eqn:E; [exists (set_status MDisabled m)|exists m]; split_and!; try done; apply update_where_In; [left|right]; eauto.
  - exists m. split_and!; [|done..]. apply in_app_iff. by left.
Qed.

(** A request that does not write [id]'s factor leaves it as it was. *)
Lemma untouched_factor env q d id t :
  codes_ok d → touches env q d ≠ Some id → totp_of id d t →
  totp_of id (exec env q d) t ∧ unused_codes id (exec env q d) = unused_codes id d.
Proof.
  assert (∀ role who d d', who ≠ Some id → codes_ok d → team_step role who d d' → totp_of id d t →
    totp_of id d' t ∧ unused_codes id d' = unused_codes id d) as Hstep.
  { clear d. intros role who d d' Hw Hok [Hm _ Hc] (m&Hin&Hid&<-). split; [|by apply Hc].
    assert (∀ l l', rtc (mmove role who) l l' → ∀ m, In m l → m_id m = id → ∃ m', In m' l' ∧ m_id m' = id ∧ m_totp m' = m_totp m) as Hr.
    { clear Hm Hin Hid m. induction 1 as [l|l1 l2 l3 H1 _ IH]; intros m Hin Hid; [eauto|].
      destruct (mmove_totp _ _ _ _ _ _ H1 Hw Hin Hid) as (m2&?&Hid2&<-). by apply IH. }
    by apply (Hr _ _ Hm). }
  intros Hok Hw Ht. destruct (exec_effect env q d) as [->|[(c&sm&_&_&Hs)|[[_ Hs]|(_&d1&Hf&Hs)]]]; [done|..].
  - by eapply Hstep.
  - by eapply Hstep.
  - destruct Hf as (tn&mm&_&Hm&Hc&_). assert (totp_of id d1 t) as Ht1.
    { destruct Ht as (m&Hin&?&?). exists m. split_and!; [|done..]. rewrite Hm. apply in_app_iff. by left. }
    assert (unused_codes id d1 = unused_codes id d) as Hu by (unfold unused_codes; by rewrite Hc).
    destruct (Hstep (Some "") None d1 (exec env q d)) as [? ->]; [done|unfold codes_ok in *; by rewrite Hc|done..].
Qed.

Lemma totp_of_update id d f t :
  totp_of id d t → totp_of id (set_members (update_where (member_id id) (λ m, set_totp (f (m_totp m)) m) (members d)) d) (f t).
Proof.
  intros (m&Hin&Hid&<-). exists (set_totp (f (m_totp m)) m). split_and!; [|done..].
  apply update_where_In. left. exists m. split_and!; [done| |done]. by apply String.eqb_eq.
Qed.

(** What an accepted verification leaves of the factor. *)
Lemma accepted_effect env m token d v d' :
  team_inv d → In m (members d) → accepted env m token d v d' →
  team_inv d' ∧
  match v with
  | ByCounter c => totp_of (m_id m) d' (accept_counter c (m_totp m)) ∧ unused_codes (m_id m) d' = unused_codes (m_id m) d
  | ByCode b => totp_of (m_id m) d' (accept_backup (m_totp m))
      ∧ unused_codes (m_id m) d' = List.filter (λ x, negb (String.eqb (bc_id x) b)) (unused_codes (m_id m) d)
      ∧ In b (map bc_id (unused_codes (m_id m) d))
  end.
Proof.
  intros Hi Hin Ha. assert (∀ d f, team_inv d → team_inv (set_members (update_where (member_id (m_id m)) (λ m, set_totp (f (m_totp m)) m) (members d)) d)) as Hupd.
  { clear. intros d f [Hids Hc Ho]. split; [simpl; by rewrite members_ids_update|done|].
    intros t Ht. destruct (Ho t Ht) as (o&?&?). by apply (update_where_keeps _ _ _ (owner_of t) o). }
  assert (totp_of (m_id m) d (m_totp m)) as Ht by (by exists m). destruct Ha as [key enc secret c _ _ _ _ _ _|b Hb _].
  - split_and!; [by apply Hupd|by apply totp_of_update|done].
  - destruct (mark_used_codes env b d (m_id m)) as (Hok&_&Hu); [apply Hi|done|]. split_and!.
    + apply (Hupd (mark_used env (bc_id b) d)). destruct Hi as [Hids _ Ho]. by split.
    + apply (totp_of_update (m_id m) (mark_used env (bc_id b) d)). exact Ht.
    + exact Hu.
    + by apply in_map.
Qed.

(** ** Requests that compare a code *)

(** The member whose code a request has compared, and the code: a login whose
    password is right, and the removal of the factor. *)
Definition checks_code (env : Env) (q : Request) (d : Db) : option (string * string) :=
  match q with
  | RLogin b =>
      if loginSchema b then
        match (verifyLogin (lb_email b) (lb_password b) d).1 with
        | Ok r => if lr_totpEnabled r then (λ code, (lr_memberId r, code)) <$> lb_totp b else None
        | Throw _ => None
        end
      else None
  | RTotpDisable c code =>
      match (SessionGuard env (cookie c) (url c) d).1 with
      | Ok sm => if len_between 6 20 code then Some (sm_memberId sm, code) else None
      | Throw _ => None
      end
  | _ => None
  end.

(** Request [q] was given a code of member [id], which was right. *)
Definition uses_factor (env : Env) (q : Request) (d : Db) (id code : string) : Prop :=
  checks_code env q d = Some (id, code) ∧ (verifyForLogin env id code d).1 = Ok true.

(** The 2FA columns of member [id], and whether they hold a factor in use. *)
Definition factor_now (id : string) (d : Db) : option Totp := m_totp <$> select1 (member_id id) (members d).
Definition enrolled_now (id : string) (d : Db) : bool := match factor_now id d with Some t => enrolled t | None => false end.

Lemma factor_now_of id d t : List.NoDup (map m_id (members d)) → factor_now id d = Some t ↔ totp_of id d t.
Proof.
  intros Hnd. unfold factor_now. split.
  - intros (m&[Hm Hid]%select1_Some&->)%fmap_Some. unfold member_id in Hid. b2p. by exists m.
  - intros (m&Hm&Hid&<-). apply fmap_Some. destruct (select1 (member_id id) (members d)) as [m'|] eqn:E.
    + apply select1_Some in E as [Hm' Hid']. unfold member_id in Hid'. b2p. exists m'. split; [done|]. f_equal.
      apply (NoDup_map_eq m_id (members d)); congruence.
    + apply (proj1 (select1_None _ _) E) in Hm. unfold member_id in Hm. by b2p.
Qed.

(** The tables a factor is stored in. *)
Definition same_factors (d d' : Db) : Prop := members d' = members d ∧ backup_codes d' = backup_codes d.
#[local] Instance same_factors_preorder : PreOrder same_factors.
Proof. split; [by split|]. intros a b c [] []. split; congruence. Qed.
Lemma same_factors_totp id d d' t : same_factors d d' → totp_of id d t → totp_of id d' t ∧ unused_codes id d' = unused_codes id d.
Proof. intros [Hm Hc]. unfold totp_of, unused_codes. by rewrite Hm, Hc. Qed.
Lemma same_factors_create env t m : within same_factors (create env t m).
Proof.
  apply within_bind; [apply _| |intros; apply within_readonly; [apply _|apply readonly_ret]].
  apply within_insert; [apply _|]. by intros.
Qed.
#[local] Hint Resolve same_factors_create : within.

(** A login writes the factor only by the verification. *)
Lemma login_factors env b d :
  match checks_code env (RLogin b) d with
  | Some (id, code) => same_factors (verifyForLogin env id code d).2 (login env b d).2
  | None => same_factors d (login env b d).2
  end.
Proof.
  unfold login. rewrite readonly_bind_state by apply readonly_throw_if. cbn [checks_code].
  destruct (loginSchema b); [|reflexivity]. cbn [negb throw_if]. unfold mret at 1, M_ret.
  pose proof (verifyLogin_readonly (lb_email b) (lb_password b) d) as Hr. rewrite readonly_bind_state by apply verifyLogin_readonly.
  destruct (verifyLogin _ _ d) as [[r|e] s] eqn:E; cbn [fst]; [|reflexivity].
  unfold issueSession. destruct (lr_totpEnabled r).
  - destruct (lb_totp b) as [code|]; cbn [fmap option_fmap option_map]; [|reflexivity].
    unfold mbind at 1, M_bind. destruct (verifyForLogin env (lr_memberId r) code d) as [[ok|e] d1]; [|reflexivity].
    apply (within_run same_factors (_ ← throw_if (negb ok) (UnauthorizedException "wrong 2FA code");
      tok ← create env (lr_tenantId r) (lr_memberId r); mret (LoggedIn (fst tok))) d1 _ _ ltac:(within_tac) (surjective_pairing _)).
  - destruct (lr_requires2fa r).
    + apply (within_bind_at same_factors); [apply same_factors_create|intros; within_tac].
    + apply (within_bind_at same_factors); [apply same_factors_create|intros; within_tac].
Qed.

Lemma verify_step env id token d : team_inv d →
  team_inv (verifyForLogin env id token d).2 ∧
  ∀ t, totp_of id d t → ∃ t', totp_of id (verifyForLogin env id token d).2 t' ∧ verifies t t'
    ∧ incl (map bc_id (unused_codes id (verifyForLogin env id token d).2)) (map bc_id (unused_codes id d)).
Proof.
  intros Hi. split; [eapply team_step_inv; [apply (within_verifyForLogin None)|done]|].
  intros t Ht. destruct (verifyForLogin env id token d) as [o d'] eqn:E. simpl.
  apply verifyForLogin_spec in E; [|apply Hi].
  destruct E as [[-> _]|[[-> _]|(m&Hsel&_&_&[(_&v&Ha)|[_ ->]])]]; [exists t; split_and!; [done|apply verifies_refl|apply incl_refl]..| |].
  - apply select1_Some in Hsel as [Hm Hid]. unfold member_id in Hid. b2p. subst id.
    assert (m_totp m = t) as Hmt by (eapply totp_of_unique; [apply Hi| |done]; by exists m).
    destruct (accepted_effect _ _ _ _ _ _ Hi Hm Ha) as [_ Heff]. destruct Ha as [key enc secret c _ _ _ _ _ Hlt|b Hb _].
    + destruct Heff as [Ht' Hu]. exists (accept_counter c (m_totp m)). rewrite Hu, Hmt in *.
      split_and!; [done|by apply verifies_counter|apply incl_refl].
    + destruct Heff as (Ht'&Hu&_). exists (accept_backup (m_totp m)). rewrite Hu, Hmt in *. split_and!; [done|apply verifies_backup|].
      apply incl_map, incl_filter.
  - apply select1_Some in Hsel as [Hm Hid]. unfold member_id in Hid. b2p.
    assert (m_totp m = t) as Hmt by (eapply totp_of_unique; [apply Hi| |done]; by exists m). subst t.
    exists (count_failure env (failed_count (m_totp m) + 1) (m_totp m)). split_and!; [|apply verifies_failure|apply incl_refl].
    apply (totp_of_update id d (count_failure env (failed_count (m_totp m) + 1))). by exists m.
Qed.

(** The removal of a factor, once its code is right. *)
Lemma clear_factors tenant id d t :
  List.NoDup (map m_id (members d)) → totp_of id d t →
  ∃ t', totp_of id (clear tenant id d).2 t' ∧ (t' = no_totp ∨ t' = t) ∧ unused_codes id (clear tenant id d).2 = [].
Proof.
  intros Hnd (m&Hm&Hid&<-). unfold clear, update_members, delete_backup_codes, mbind, M_bind, modify. cbn [snd].
  exists (if member_at tenant id m then no_totp else m_totp m). split_and!.
  - destruct (member_at tenant id m) eqn:E; [exists (set_totp no_totp m)|exists m]; (split_and!; [|done..]);
      apply update_where_In; [left|right]; eauto.
  - destruct (member_at tenant id m); auto.
  - unfold unused_codes, delete_where, select. simpl. induction (backup_codes d) as [|b l IH]; [done|]. simpl.
    destruct (String.eqb (bc_member b) id) eqn:E; simpl; [done|]. rewrite E. exact IH.
Qed.

Lemma disable_factors env tenant id code cur d :
  let v := verifyForLogin env id code d in let r := (disable env tenant id code cur d).2 in
  r = v.2 ∨ v.1 = Ok true ∧ same_factors (clear tenant id v.2).2 r.
Proof.
  cbv zeta. unfold disable, mbind, M_bind. destruct (verifyForLogin env id code d) as [[[]|e] d1]; [|by left..].
  right. split; [done|by split].
Qed.
Lemma totp_disable_factors env c code d sm s :
  SessionGuard env (cookie c) (url c) d = (Ok sm, s) → len_between 6 20 code = true →
  same_factors (disable env (sm_tenantId sm) (sm_memberId sm) code (cookie c) d).2 (totp_disable env c code d).2.
Proof.
  intros E Hl. unfold totp_disable, guarded. rewrite readonly_bind_state by apply SessionGuard_readonly. rewrite E.
  rewrite readonly_bind_state by apply PermissionGuard_readonly. cbn [PermissionGuard mret M_ret].
  unfold parseCode. rewrite Hl. cbn [negb throw_if]. unfold mbind, M_bind, mret, M_ret, recordAs, record, modify.
  by destruct (disable _ _ _ _ _ d) as [[]].
Qed.

(** A request that has a code of [id] compared leaves the factor as the
    verification does, or the code was right and the factor is gone. *)
Lemma checked_step env q d id code t1 :
  team_inv d → checks_code env q d = Some (id, code) → totp_of id (verifyForLogin env id code d).2 t1 →
  ∃ t', totp_of id (exec env q d) t' ∧
    ((verifyForLogin env id code d).1 = Ok true ∧ enabled_at t' = None ∨ t' = t1) ∧
    incl (map bc_id (unused_codes id (exec env q d))) (map bc_id (unused_codes id (verifyForLogin env id code d).2)).
Proof.
  intros Hi Hc Ht. assert (∀ d', same_factors (verifyForLogin env id code d).2 d' → ∃ t', totp_of id d' t' ∧
    ((verifyForLogin env id code d).1 = Ok true ∧ enabled_at t' = None ∨ t' = t1) ∧
    incl (map bc_id (unused_codes id d')) (map bc_id (unused_codes id (verifyForLogin env id code d).2))) as Hsame.
  { intros d' Hs. destruct (same_factors_totp _ _ _ _ Hs Ht) as [Ht' Hu].
    exists t1. rewrite Hu. split_and!; [done|by right|apply incl_refl]. }
  destruct q; try done; cbn [exec].
  - apply Hsame. pose proof (login_factors env body d) as Hs. by rewrite Hc in Hs.
  - cbn [checks_code] in Hc. destruct (SessionGuard env (cookie c) (url c) d) as [[sm|e] s] eqn:E; [|done]. cbn [fst] in Hc.
    destruct (len_between 6 20 code0) eqn:El; [|done]. injection Hc as <- ->.
    pose proof (totp_disable_factors _ _ _ _ _ _ E El) as Hs.
    destruct (disable_factors env (sm_tenantId sm) (sm_memberId sm) code (cookie c) d) as [Hd|[Ho Hd]].
    { rewrite Hd in Hs. by apply Hsame. }
    assert (team_inv (verifyForLogin env (sm_memberId sm) code d).2) as Hi1 by apply (verify_step _ _ _ _ Hi).
    destruct (clear_factors (sm_tenantId sm) _ _ _ (ti_ids _ Hi1) Ht) as (t'&Ht'&Hor&Hu).
    destruct (same_factors_totp _ _ _ _ (transitivity Hd Hs) Ht') as [Ht2 Hu2].
    exists t'. rewrite Hu2, Hu. split_and!; [done| |intros ? []]. destruct Hor as [->| ->]; auto.
Qed.

Lemma enrolled_row tenant id d t m :
  List.NoDup (map m_id (members d)) → totp_of id d t → select1 (member_at tenant id) (members d) = Some m → m_totp m = t.
Proof.
  intros Hnd Ht [Hm Hp]%select1_Some. unfold member_at in Hp. b2p. eapply totp_of_unique; [done| |done]. by exists m.
Qed.
(** Enrolment is refused to a member with a factor in use. *)
Lemma enrol_refused env tenant id email d t :
  List.NoDup (map m_id (members d)) → totp_of id d t → enabled_at t ≠ None →
  (startEnrollment env tenant id email d).2 = d.
Proof.
  intros Hnd Ht Hen. unfold startEnrollment. rewrite readonly_bind_state by apply readonly_get. cbn [get].
  destruct (select1 _ _) as [m|] eqn:E; [|done]. pose proof (enrolled_row _ _ _ _ _ Hnd Ht E) as <-.
  cbn [some_or_throw]. unfold mbind at 1, M_bind, mret at 1, M_ret. by rewrite bool_decide_true.
Qed.
Lemma confirm_refused env tenant id code d t :
  List.NoDup (map m_id (members d)) → totp_of id d t → enabled_at t ≠ None →
  ∃ e, confirmEnrollment env tenant id code d = (Throw e, d).
Proof.
  intros Hnd Ht Hen. unfold confirmEnrollment. unfold mbind at 1, M_bind, get.
  destruct (select1 _ _) as [m|] eqn:E; [|by eexists]. pose proof (enrolled_row _ _ _ _ _ Hnd Ht E) as <-.
  cbn [mbind option_bind]. destruct (secret_enc (m_totp m)); [|by eexists].
  cbn [some_or_throw]. unfold mbind, M_bind, mret, M_ret. rewrite bool_decide_true by done. by eexists.
Qed.

Lemma reset_factors env tenant id d :
  (∃ e, resetForMember env tenant id d = (Throw e, d)) ∨
  ∃ m, In m (members d) ∧ member_at tenant id m = true ∧ ∃ d1, resetForMember env tenant id d = (Ok tt, d1) ∧
    same_factors (clear tenant id d).2 d1.
Proof.
  unfold resetForMember, throw_if, mbind, M_bind, get. destruct (row_count (member_at tenant id) (members d) =? 0) eqn:E; [by left; eexists|].
  right. b2p. assert (0 < row_count (member_at tenant id) (members d)) as (m&Hm&Hp)%row_count_pos by (unfold row_count in *; lia).
  exists m. split_and!; [done..|]. eexists. split; [reflexivity|]. by split.
Qed.

(** What a request leaves of a factor in use: it is gone, or every time step
    and code that was spent still is. *)
Lemma factor_step env q d id t :
  team_inv d → totp_of id d t → enabled_at t ≠ None →
  ∃ t', totp_of id (exec env q d) t' ∧
    (enabled_at t' = None ∨ verifies t t' ∧ incl (map bc_id (unused_codes id (exec env q d))) (map bc_id (unused_codes id d))).
Proof.
  intros Hi Ht Hen.
  assert (same_factors d (exec env q d) → ∃ t', totp_of id (exec env q d) t' ∧ (enabled_at t' = None ∨ verifies t t' ∧
    incl (map bc_id (unused_codes id (exec env q d))) (map bc_id (unused_codes id d)))) as Hsame.
  { intros Hs. destruct (same_factors_totp _ _ _ _ Hs Ht) as [Ht' Hu].
    exists t. rewrite Hu. split; [done|]. right. split; [apply verifies_refl|apply incl_refl]. }
  assert (∀ code, checks_code env q d = Some (id, code) → ∃ t', totp_of id (exec env q d) t' ∧
    (enabled_at t' = None ∨ verifies t t' ∧ incl (map bc_id (unused_codes id (exec env q d))) (map bc_id (unused_codes id d)))) as Hchk.
  { intros code Hc. destruct (verify_step env id code d Hi) as [_ Hv]. destruct (Hv t Ht) as (t1&Ht1&Hver&Hinc).
    destruct (checked_step _ _ _ _ _ _ Hi Hc Ht1) as (t'&Ht'&Hor&Hinc'). exists t'. split; [done|].
    destruct Hor as [[_ ?]| ->]; [by left|]. right. split; [done|]. by eapply incl_tran. }
  destruct (decide (touches env q d = Some id)) as [Hw|Hw].
  2:{ destruct (untouched_factor env q d id t) as [Ht1 Hu]; [apply Hi|done..|]. exists t. rewrite Hu.
      split; [done|]. right. split; [apply verifies_refl|apply incl_refl]. }
  destruct q; try discriminate Hw; cbn [touches] in Hw.
  - pose proof (login_factors env body d) as Hs. destruct (checks_code env (RLogin body) d) as [[i code]|] eqn:Ec; [|by apply Hsame].
    apply (Hchk code). f_equal. f_equal. cbn [checks_code] in Ec. destruct (loginSchema body); [|done].
    destruct (verifyLogin _ _ d) as [[r|e] s] eqn:E; [|done]. apply verifyLogin_ok in E as (_&m&tn&Hrow&_&->).
    rewrite Hrow in Hw. injection Hw as <-. cbn [fst lr_totpEnabled lr_memberId] in Ec. case_match; [|done].
    by apply fmap_Some in Ec as (?&_&[= -> _]).
  - apply Hsame. cbn [exec]. destruct (guarded_inv env c None (λ sm, startEnrollment env (sm_tenantId sm) (sm_memberId sm) (sm_email sm)) d)
      as [[Hg _]|(sm&[Hs _]&_&Hg)]; unfold totp_enroll; rewrite Hg; [done|]. rewrite Hs in Hw. injection Hw as Hw. rewrite Hw.
    by rewrite (enrol_refused env _ id _ d t (ti_ids _ Hi) Ht Hen).
  - apply Hsame. cbn [exec]. unfold totp_confirm. match goal with |- same_factors d (guarded env c None ?h d).2 =>
      destruct (guarded_inv env c None h d) as [[Hg _]|(sm&[Hs _]&_&Hg)]; rewrite Hg end; [done|].
    rewrite Hs in Hw. injection Hw as Hw. rewrite Hw. unfold parseCode, throw_if. destruct (negb _); [done|].
    destruct (confirm_refused env (sm_tenantId sm) id code d t (ti_ids _ Hi) Ht Hen) as (e&He).
    unfold mbind, M_bind, mret, M_ret. by rewrite He.
  - cbn [checks_code] in Hchk. pose proof (totp_disable_factors env c code d) as Hd. cbn [exec].
    destruct (SessionGuard env (cookie c) (url c) d) as [[sm|e] s] eqn:E.
    + apply SessionGuard_ok in E as E2. destruct E2 as [_ [Hs _]]. rewrite Hs in Hw. injection Hw as Hw. cbn [fst] in Hchk. rewrite Hw in Hchk.
      destruct (len_between 6 20 code) eqn:El; [by apply (Hchk code)|]. apply Hsame. cbn [exec]. unfold totp_disable, guarded.
      rewrite readonly_bind_state by apply SessionGuard_readonly. rewrite E.
      rewrite readonly_bind_state by apply PermissionGuard_readonly. cbn [PermissionGuard mret M_ret].
      unfold parseCode. by rewrite El.
    + apply Hsame. cbn [exec]. unfold totp_disable, guarded. rewrite readonly_bind_state by apply SessionGuard_readonly. by rewrite E.
  - cbn [exec] in *. unfold totp_reset in *. injection Hw as ->. match goal with |- context [guarded env c ?p ?h d] =>
      destruct (guarded_inv env c p h d) as [[Hg _]|(sm&_&_&Hg)] end; [apply Hsame; by rewrite Hg|]. rewrite Hg in Hsame |- *.
    unfold mbind, M_bind in Hsame |- *.
    destruct (reset_factors env (sm_tenantId sm) id d) as [(e&Hrs)|(m&Hm&Hat&d1&Hrs&Hcl)]; rewrite Hrs in Hsame |- *; [by apply Hsame|].
    unfold clear, update_members, delete_backup_codes, modify, mbind, M_bind in Hcl. destruct Hcl as [Hms _].
    exists no_totp. split; [|by left]. exists (set_totp no_totp m). cbn [snd] in Hms. unfold recordAs, record, modify. cbn [snd].
    split_and!; [|unfold member_at in Hat; by b2p|done]. cbn [members set_audit_logs]. rewrite Hms. apply update_where_In. left. eauto.
Qed.

Lemma verify_accepts env id token d d' :
  team_inv d → verifyForLogin env id token d = (Ok true, d') →
  ∃ m v, In m (members d) ∧ m_id m = id ∧ locked env (m_totp m) = false ∧ accepted env m token d v d'.
Proof.
  intros Hi E. apply verifyForLogin_spec in E; [|apply Hi].
  destruct E as [(_&?&?)|[(_&?&_)|(m&Hsel&_&Hl&[(_&v&Ha)|[? _]])]]; try done.
  apply select1_Some in Hsel as [Hm Hid]. unfold member_id in Hid. b2p. by exists m, v.
Qed.

(** An acceptance after another: a later step, or another code. *)
Definition later (v1 v2 : Factor) : Prop :=
  match v1, v2 with
  | ByCounter c1, ByCounter c2 => c1 < c2
  | ByCode b1, ByCode b2 => b1 ≠ b2
  | _, _ => True
  end.

(** Member [id] has a factor in use after each request of a run. *)
Fixpoint stays_enrolled (id : string) (l : list (Env * Request)) (d : Db) : bool :=
  match l with
  | [] => true
  | (env, q) :: l' => enrolled_now id (exec env q d) && stays_enrolled id l' (exec env q d)
  end.

Lemma enrolled_totp id d t : List.NoDup (map m_id (members d)) → totp_of id d t → enrolled_now id d = true → enabled_at t ≠ None.
Proof.
  intros Hnd Ht. unfold enrolled_now, enrolled. rewrite (proj2 (factor_now_of id d t Hnd) Ht). by destruct (enabled_at t).
Qed.

Lemma run_factor id l d t : team_inv d → totp_of id d t → enabled_at t ≠ None → stays_enrolled id l d = true →
  team_inv (run l d) ∧ ∃ t', totp_of id (run l d) t' ∧ default (-1) (last_counter t) <= default (-1) (last_counter t')
    ∧ incl (map bc_id (unused_codes id (run l d))) (map bc_id (unused_codes id d)).
Proof.
  revert d t. induction l as [|[env q] l IH]; intros d t Hi Ht Hen Hs; cbn [stays_enrolled] in Hs; unfold run; simpl fold_left.
  - split; [done|]. exists t. split_and!; [done|lia|apply incl_refl].
  - apply andb_true_iff in Hs as [Hs1 Hs]. pose proof (exec_inv env q d Hi) as Hi1.
    destruct (factor_step env q d id t Hi Ht Hen) as (t1&Ht1&Hor). pose proof (enrolled_totp _ _ _ (ti_ids _ Hi1) Ht1 Hs1) as Hen1.
    destruct Hor as [?|[Hver Hinc]]; [done|]. destruct (IH _ _ Hi1 Ht1 Hen1 Hs) as (Hi2&t'&Ht'&Hle&Hinc').
    split; [done|]. exists t'. split_and!; [done| |by eapply incl_tran]. destruct Hver. lia.
Qed.

(** C17. A factor is used once: after a request was accepted with a code of a
    member (a complete login, say), and as long as the member keeps that
    enrolment, whatever requests are made in between, other logins of the same
    member included, another accepted code is one of a strictly later time
    step or a different backup code. *)
Theorem second_factor_used_once id d env1 q1 code1 l env2 q2 code2 :
  reachable d →
  uses_factor env1 q1 d id code1 → stays_enrolled id ((env1, q1) :: l) d = true →
  uses_factor env2 q2 (run ((env1, q1) :: l) d) id code2 →
  ∃ m1 v1 m2 v2 s1 s2, accepted env1 m1 code1 d v1 s1 ∧ accepted env2 m2 code2 (run ((env1, q1) :: l) d) v2 s2
    ∧ m_id m1 = id ∧ m_id m2 = id ∧ later v1 v2.
Proof.
  intros Hr [Hc1 E1] Hs [_ E2]. apply reachable_team_inv in Hr as Hi. apply andb_true_iff in Hs as [Hs1 Hs].
  destruct (verifyForLogin env1 id code1 d) as [o1 s1] eqn:Ev1. cbn [fst] in E1. subst o1.
  destruct (verify_accepts _ _ _ _ _ Hi Ev1) as (m1&v1&Hm1&Hid1&_&Ha1). subst id.
  destruct (accepted_effect _ _ _ _ _ _ Hi Hm1 Ha1) as [_ Heff].
  assert (∃ t1, totp_of (m_id m1) s1 t1 ∧ match v1 with ByCounter c => last_counter t1 = Some c
    | ByCode b => ¬ In b (map bc_id (unused_codes (m_id m1) s1)) end) as (t1&Ht1&Hv1).
  { destruct v1 as [c|b]; [destruct Heff as [? _]; by eexists|]. destruct Heff as (?&Hu&_). eexists. split; [done|].
    rewrite Hu. intros (x&<-&Hx)%in_map_iff. apply filter_In in Hx as [_ Hx]. by rewrite String.eqb_refl in Hx. }
  pose proof (checked_step env1 q1 d (m_id m1) code1 t1 Hi Hc1) as Hck. rewrite Ev1 in Hck. cbn [snd] in Hck.
  destruct (Hck Ht1) as (tx&Htx&Hor&Hincx). pose proof (exec_inv env1 q1 d Hi) as Hix.
  pose proof (enrolled_totp _ _ _ (ti_ids _ Hix) Htx Hs1) as Henx. destruct Hor as [[_ ?]| ->]; [done|].
  destruct (run_factor _ _ _ _ Hix Htx Henx Hs) as (Hi2&t2&Ht2&Hle&Hinc).
  unfold run in *. simpl fold_left in *. set (d2 := fold_left _ l _) in *.
  destruct (verifyForLogin env2 (m_id m1) code2 d2) as [o2 s2] eqn:Ev2. cbn [fst] in E2. subst o2.
  destruct (verify_accepts _ _ _ _ _ Hi2 Ev2) as (m2&v2&Hm2&Hid2&_&Ha2).
  exists m1, v1, m2, v2, s1, s2. split_and!; [done..|].
  assert (m_totp m2 = t2) as Hmt by (eapply totp_of_unique; [apply Hi2|by exists m2|done]).
  destruct Ha2 as [key enc secret c _ _ _ _ _ Hlt|b Hb _]; destruct v1 as [c1|b1]; simpl; try done.
  - rewrite Hmt in Hlt. rewrite Hv1 in Hle. simpl in Hle. lia.
  - intros ->. apply Hv1, Hincx, Hinc. rewrite Hid2 in Hb. by apply in_map.
Qed.
End Factor.

(** ** Guessing *)

Section Guessing.
Context `{Crypto} `{Host}.

(** The failure counters of a reachable store are not negative. *)
Definition failed_ok (l : list Member) : Prop := ∀ m, In m l → 0 <= failed_count (m_totp m).

Lemma mmove_failed role who l l' : mmove role who l l' → List.NoDup (map m_id l) → failed_ok l → failed_ok l'.
Proof.
  intros Hm Hnd Hl x Hx. destruct Hm as [id f m l _ Hsel Hv|tenant id f l _ Hf|tenant id r m l _ _ _ _|tenant id m l _ _ _ _|m l _ Ht _].
  - apply update_where_In in Hx as [(y&Hy&Hp&->)|[? _]]; [|auto]. apply select1_Some in Hsel as [Hm Hmp].
    unfold member_id in *. b2p. assert (y = m) as -> by (apply (NoDup_map_eq m_id l); congruence). by apply Hv, Hl.
  - apply update_where_In in Hx as [(y&Hy&Hp&->)|[? _]]; [|auto]. simpl. by rewrite Hf.
  - apply update_where_In in Hx as [(y&Hy&_&->)|[? _]]; [by apply (Hl y)|auto].
  - apply update_where_In in Hx as [(y&Hy&_&->)|[? _]]; [by apply (Hl y)|auto].
  - apply in_app_iff in Hx as [Hx|[<-|[]]]; [auto|]. rewrite Ht. simpl. lia.
Qed.

Lemma team_step_failed role who d d' :
  team_step role who d d' → List.NoDup (map m_id (members d)) → failed_ok (members d) → failed_ok (members d').
Proof.
  intros [Hm _ _]. induction Hm as [l|l1 l2 l3 H1 _ IH]; [done|]. intros Hnd Hf.
  apply IH; [by eapply mmove_ids|by eapply mmove_failed].
Qed.

Lemma reachable_failed d : reachable d → failed_ok (members d).
Proof.
  induction 1 as [|env q d Hr IH]; [by intros ? []|]. apply reachable_team_inv, ti_ids in Hr as Hnd.
  destruct (exec_effect env q d) as [->|[(c&sm&_&_&Hs)|[[_ Hs]|(_&d1&Hf&Hs)]]]; [done|..].
  - by eapply team_step_failed.
  - by eapply team_step_failed.
  - assert (team_inv d1) as Hi1 by by apply (founds_inv d).
    eapply team_step_failed; [done|by apply ti_ids|].
    destruct Hf as (t&m&_&Hm&_&_&_&_&Ht&_). rewrite Hm. intros x [Hx|[<-|[]]]%in_app_iff; [auto|]. rewrite Ht. simpl. lia.
Qed.

(** An attempt on member [id] within the quarter of an hour from [T] (µs). *)
Record in_window (T : Z) (env : Env) : Prop := {
  iw_pg : T <= pg_now env;
  iw_lock : Date_now env LockCheck < getTime (T + minutes LOCK_MINUTES) }.

(** A request was given a code of member [id], who has a factor in use; the
    code was compared and is wrong. *)
Definition wrong_guess (id : string) (env : Env) (q : Request) (d : Db) : bool :=
  match checks_code env q d with
  | Some (i, code) => String.eqb i id && enrolled_now id d
      && match (verifyForLogin env i code d).1 with Ok false => true | _ => false end
  | None => false
  end.

#[local] Instance Totp_eq_dec : EqDecision Totp.
Proof. solve_decision. Defined.
(** Any other request that changes the member's 2FA columns: a right code, an
    enrolment, a removal, a reset. *)
Definition factor_change (id : string) (env : Env) (q : Request) (d : Db) : bool :=
  negb (wrong_guess id env q d) && negb (bool_decide (factor_now id (exec env q d) = factor_now id d)).

(** How many requests of a run are of a kind. *)
Fixpoint occurrences (p : Env → Request → Db → bool) (l : list (Env * Request)) (d : Db) : nat :=
  match l with
  | [] => 0
  | (env, q) :: l' => (if p env q d then 1 else 0) + occurrences p l' (exec env q d)
  end.

Definition locked_beyond (T : Z) (t : Totp) : Prop :=
  match locked_until t with Some u => getTime (T + minutes LOCK_MINUTES) <= getTime u | None => False end.
#[local] Instance locked_beyond_dec T t : Decision (locked_beyond T t).
Proof. unfold locked_beyond. destruct (locked_until t); apply _. Defined.

Lemma guess_step id T env token d d1 t :
  team_inv d → in_window T env → totp_of id d t → enrolled t = true →
  verifyForLogin env id token d = (Ok false, d1) →
  totp_of id d1 (count_failure env (failed_count t + 1) t) ∧ ¬ locked_beyond T t.
Proof.
  intros Hi [Hpg Hlk] Ht He E. apply verifyForLogin_spec in E; [|apply Hi].
  assert (∀ m, select1 (member_id id) (members d) = Some m → m_totp m = t) as Hsel.
  { intros m [Hm Hid]%select1_Some. unfold member_id in Hid. b2p. eapply totp_of_unique; [apply Hi| |done]. by exists m. }
  destruct E as [(_&?&?)|[(_&_&Hno)|(m&Hm&_&Hl&[(?&_)|[_ ->]])]]; try done.
  - exfalso. destruct Ht as (m0&Hin&Hid&Hmt). destruct (select1 (member_id id) (members d)) as [m|] eqn:Em.
    + specialize (Hno m eq_refl). rewrite (Hsel m eq_refl) in Hno. congruence.
    + apply (proj1 (select1_None _ _) Em) in Hin. unfold member_id in Hin. b2p. done.
  - rewrite (Hsel _ Hm) in *. split.
    + by apply (totp_of_update id d (count_failure env (failed_count t + 1))).
    + unfold locked_beyond, locked in *. destruct (locked_until t); [|tauto]. b2p. lia.
Qed.

(** How many wrong codes are left before the member is locked. *)
Definition guesses_left (T : Z) (o : option Totp) : Z :=
  match o with
  | Some t => match decide (locked_beyond T t) with
              | left _ => 0
              | right _ => if failed_count t <? MAX_FAILED then MAX_FAILED - failed_count t else 1
              end
  | None => MAX_FAILED
  end.
Lemma guesses_left_bounds T o : (∀ t, o = Some t → 0 <= failed_count t) → 0 <= guesses_left T o <= MAX_FAILED.
Proof.
  unfold guesses_left, MAX_FAILED. destruct o as [t|]; [|lia]. intros Hf. specialize (Hf t eq_refl).
  case_match; [lia|]. destruct (failed_count t <? 5) eqn:E; b2p; lia.
Qed.

Lemma wrong_guess_step id T env q d :
  team_inv d → failed_ok (members d) → in_window T env → wrong_guess id env q d = true →
  guesses_left T (factor_now id (exec env q d)) + 1 <= guesses_left T (factor_now id d).
Proof.
  intros Hi Hf Hw Hg. unfold wrong_guess in Hg. destruct (checks_code env q d) as [[i code]|] eqn:Hc; [|done]. b2p. subst i.
  destruct (verifyForLogin env id code d) as [[[]|] d1] eqn:E; try done.
  assert (enrolled_now id d = true) as He by done. unfold enrolled_now in He. destruct (factor_now id d) as [t|] eqn:Et; [|done].
  apply (factor_now_of _ _ _ (ti_ids _ Hi)) in Et as Ht.
  destruct (guess_step _ _ _ _ _ _ _ Hi Hw Ht He E) as [Ht1 Hnl].
  pose proof (λ t, checked_step env q d id code t Hi Hc) as Hs. rewrite E in Hs. destruct (Hs _ Ht1) as (t'&Ht'&Hor&_).
  cbn [fst] in Hor. destruct Hor as [[[=] _]| ->]. apply (factor_now_of _ _ _ (ti_ids _ (exec_inv env q d Hi))) in Ht'. rewrite Ht'.
  assert (0 <= failed_count t) as Hf0 by (destruct Ht as (m&Hm&_&<-); by apply Hf).
  unfold guesses_left. rewrite (decide_False (P:=locked_beyond T t)) by done. unfold count_failure.
  destruct (MAX_FAILED <=? failed_count t + 1) eqn:Em; b2p.
  - rewrite decide_True; [destruct (failed_count t <? MAX_FAILED) eqn:E1; b2p; lia|]. unfold locked_beyond. simpl. apply Z.div_le_mono; [lia|]. destruct Hw. lia.
  - rewrite decide_False by exact Hnl. cbn [failed_count]. destruct (failed_count t <? MAX_FAILED) eqn:E1, (failed_count t + 1 <? MAX_FAILED) eqn:E2; b2p; lia.
Qed.

Lemma guesses_bounded id T l d :
  reachable d → Forall (λ p, in_window T (fst p)) l →
  Z.of_nat (occurrences (wrong_guess id) l d) <= guesses_left T (factor_now id d) + 5 * Z.of_nat (occurrences (factor_change id) l d).
Proof.
  revert d. induction l as [|[env q] l IH]; intros d Hr Hw; pose proof (reachable_team_inv d Hr) as Hi;
    pose proof (reachable_failed d Hr) as Hf.
  - cbn [occurrences]. assert (0 <= guesses_left T (factor_now id d)); [|lia]. apply guesses_left_bounds.
    intros t (m&Hm&_&<-)%(factor_now_of _ _ _ (ti_ids _ Hi)). by apply Hf.
  - apply Forall_cons in Hw as [Hw Hws]. cbn [fst] in Hw. assert (reachable (exec env q d)) as Hr1 by by apply reach_step.
    specialize (IH _ Hr1 Hws). cbn [occurrences]. unfold factor_change at 1.
    assert (∀ d, reachable d → 0 <= guesses_left T (factor_now id d) <= MAX_FAILED) as Hb.
    { intros d0 Hr0. apply guesses_left_bounds. intros t (m&Hm&_&<-)%(factor_now_of _ _ _ (ti_ids _ (reachable_team_inv d0 Hr0))).
      by apply (reachable_failed d0). }
    pose proof (Hb d Hr). pose proof (Hb _ Hr1). unfold MAX_FAILED in *.
    destruct (wrong_guess id env q d) eqn:Eg; cbn [negb andb].
    + pose proof (wrong_guess_step id T env q d Hi Hf Hw Eg). lia.
    + case_bool_decide as Heq; cbn [negb]; [rewrite Heq in IH|]; lia.
Qed.

(** C18. Guessing is limited: of the requests made in any quarter of an hour, at
    most five wrong codes of a member are compared, and five more for each
    other request in between that writes the member's factor (a right code
    clears the count of failures, as does a new enrolment or a reset); the
    attempts after that are refused without looking at the code. *)
Theorem five_guesses_per_window id T l d :
  reachable d → Forall (λ p, in_window T (fst p)) l →
  (occurrences (wrong_guess id) l d <= 5 * (1 + occurrences (factor_change id) l d))%nat.
Proof.
  intros Hr Hw. pose proof (guesses_bounded id T l d Hr Hw) as Hg.
  assert (guesses_left T (factor_now id d) <= MAX_FAILED) as Hb; [|unfold MAX_FAILED in Hb; lia].
  apply guesses_left_bounds. intros t (m&Hm&_&<-)%(factor_now_of _ _ _ (ti_ids _ (reachable_team_inv d Hr))).
  by apply (reachable_failed d).
Qed.
End Guessing.
