(* ===== verification/AuthLife.v ===== *)
(** * Sessions, keys and the installation over time

    Who gets a session and what a request with one may do; who may touch an
    owner; revocation of sessions takes effect at once; a revoked API key stays
    dead and a rotating one lives for its grace period, except that a rotation
    that read the key before its revocation revives it; the installation is
    claimed by one browser at a time, set up once and then final. *)

From Stdlib Require Import Ascii.
From stdpp Require Import pretty.
From S2P Require Import Prelude JsVal Crypto Authz AuthDb AuthServices Team Bootstrap AuthInv AuthProps AuthFactor.

#[global] Open Scope Z_scope.

(** ** Sessions *)

Section Sessions.
Context `{Crypto} `{Host}.

Lemma resolve_Some env tok d sm :
  resolve env tok d = Some sm → ∃ s m t, In s (sessions d) ∧ session_live env (hashToken tok) s = true
    ∧ In m (members d) ∧ m_id m = se_member s ∧ is_active m = true ∧ In t (tenants d) ∧ tn_id t = se_tenant s
    ∧ sm_memberId sm = m_id m ∧ sm_tenantId sm = se_tenant s ∧ sm_role sm = role_text (m_role m)
    ∧ sm_totpEnabled sm = bool_decide (enabled_at (m_totp m) ≠ None) ∧ sm_requires2fa sm = tn_require_2fa t.
Proof.
  unfold resolve. destruct (String.eqb tok ""); [done|].
  destruct (session_join env (hashToken tok) d) as [|[[s m] t] l] eqn:E; [done|]. intros [= <-].
  assert (In (s, m, t) (session_join env (hashToken tok) d)) as Hin by (rewrite E; by left).
  unfold session_join in Hin. apply in_flat_map in Hin as (s'&[Hs Hl]%select_In&Hin).
  apply in_flat_map in Hin as (m'&[Hm Hp]%select_In&Hin). apply in_map_iff in Hin as (t'&[= -> -> ->]&[Ht Ht']%select_In).
  b2p. exists s, m, t. split_and!; done.
Qed.

Lemma role_text_inj r r' : role_text r = role_text r' → r = r'.
Proof. by destruct r, r'. Qed.

(** ** Privilege *)

(** No request founds or enrols for someone who is not signed in. *)
Lemma touches_caller env q c d sm id :
  caller_of q = Some c → session_of env c d sm → touches env q d = Some id →
  q = RTotpReset c id ∨ id = sm_memberId sm.
Proof.
  intros Hc [Hs _] Ht. destruct q; try done; injection Hc as ->; cbn [touches] in Ht;
    try (rewrite Hs in Ht; injection Ht as <-; by right).
  injection Ht as ->. by left.
Qed.

Lemma owners_kept_exec env q c d :
  reachable d → caller_of q = Some c → (∀ sm, session_of env c d sm → sm_role sm ≠ "owner") →
  owners_kept (members d) (members (exec env q d)).
Proof.
  intros Hd Hc Hrole. destruct (exec_effect env q d) as [->|[(c'&sm&Hc'&Hs&[Hm _ _])|[[Hn _]|(Hn&_)]]];
    [apply owners_kept_refl| |congruence|congruence].
  assert (c' = c) as -> by congruence. apply reachable_team_inv, ti_ids in Hd. specialize (Hrole _ Hs).
  clear Hs. induction Hm as [l|l1 l2 l3 Hm _ IH]; [apply owners_kept_refl|].
  eapply owners_kept_trans; [|apply IH; by eapply mmove_ids]. apply (mmove_privilege (Some (sm_role sm)) (touches env q d)); [|done|done|done]. by intros [= ?].
Qed.

(** C15. No privilege escalation: a request made in a session whose role is not
    owner makes nobody an owner, and leaves every owner's row, its role, status,
    e-mail address and password included, exactly as it was, and its second
    factor and backup codes too. The one exception is the reset of that owner's
    second factor, which an admin may ask for. *)
Theorem non_owner_cannot_touch_owners env q c d :
  reachable d → caller_of q = Some c →
  (∀ sm, session_of env c d sm → sm_role sm ≠ "owner") →
  (∀ m', In m' (members (exec env q d)) → m_role m' = Owner → ∃ m, In m (members d) ∧ m_role m = Owner ∧ m_id m = m_id m') ∧
  (∀ m, In m (members d) → m_role m = Owner → ∃ m', In m' (members (exec env q d)) ∧ set_totp (m_totp m) m' = m ∧
    (q ≠ RTotpReset c (m_id m) →
       m' = m ∧ unused_codes (m_id m) (exec env q d) = unused_codes (m_id m) d)).
Proof.
  intros Hd Hc Hrole. destruct (owners_kept_exec env q c d Hd Hc Hrole) as [Hkept Hnone].
  apply reachable_team_inv in Hd as Hi. pose proof (exec_inv env q d Hi) as Hi'. split.
  - intros m' Hm' Ho. destruct (Hnone m' Hm' Ho) as (m&Hm&Hs). exists m. split; [done|].
    rewrite <- (same_standing_role _ _ Hs). split; [done|]. symmetry. by apply same_standing_id.
  - intros m Hm Ho. destruct (Hkept m Hm Ho) as (m'&Hm'&Hs). exists m'. split; [done|]. split; [done|]. intros Hq.
    pose proof (same_standing_id _ _ Hs) as Hid.
    destruct (exec_effect env q d) as [Heq|[(c'&sm&Hc'&Hsm&_)|[[Hn _]|(Hn&_)]]]; [|..|congruence|congruence].
    { rewrite Heq in *. split; [|done]. apply (NoDup_map_eq m_id (members d)); [apply Hi|done..]. }
    assert (c' = c) as -> by congruence.
    assert (touches env q d ≠ Some (m_id m)) as Hw.
    { intros Ht. destruct (touches_caller _ _ _ _ _ _ Hc Hsm Ht) as [?|Heq]; [done|].
      apply (Hrole sm Hsm). destruct Hsm as [Hres _]. apply resolve_Some in Hres as (s0&x&t&_&_&Hx&_&_&_&_&Hxid&_&Hxr&_).
      assert (x = m) as -> by (apply (NoDup_map_eq m_id (members d)); [apply Hi|done..|congruence]). by rewrite Hxr, Ho. }
    destruct (untouched_factor env q d (m_id m) (m_totp m)) as [Ht Hu]; [apply Hi|done|by exists m|]. split; [|done].
    assert (m_totp m' = m_totp m) as Htm by (eapply totp_of_unique; [apply Hi'| |exact Ht]; by exists m').
    unfold same_standing in Hs. rewrite <- Htm in Hs. by destruct m'.
Qed.

(** no token opens a session of this member in this tenant *)
Definition signed_out (tenant id : string) (d : Db) : Prop :=
  ∀ env tok sm, resolve env tok d = Some sm → sm_memberId sm = id → sm_tenantId sm ≠ tenant.

Lemma revokeAll_signed_out env tenant id d o d' :
  revokeAllForMember env tenant id None d = (o, d') → signed_out tenant id d'.
Proof.
  unfold revokeAllForMember, mbind, M_bind, get, modify, mret, M_ret. intros [= _ <-] env' tok sm Hr Hid Ht.
  apply resolve_Some in Hr as (s&m&t&Hs&Hl&_&Hms&_&_&_&Hsm&Hst&_). unfold session_live in Hl. b2p.
  simpl in Hs. apply update_where_In in Hs as [(x&_&_&->)|[Hs Hp]]; [done|].
  unfold member_sessions, except_clause in Hp. rewrite andb_true_r in Hp. 
  rewrite bool_decide_true, andb_true_r in Hp by done.
  apply andb_false_iff in Hp as [Hp|Hp]; b2p; congruence.
Qed.

Lemma signed_out_audit tenant id env0 a s t1 t2 x d u d' :
  recordAs env0 a s t1 t2 x d = (Ok u, d') → signed_out tenant id d → signed_out tenant id d'.
Proof. unfold recordAs, record, modify. intros [= _ <-] Hs env tok sm. exact (Hs env tok sm). Qed.

(** the member is out: no session, and no login *)
Definition locked_out (id : string) (d : Db) : Prop :=
  (∀ env tok sm, resolve env tok d = Some sm → sm_memberId sm ≠ id) ∧
  (∀ email password r d', verifyLogin email password d = (Ok r, d') → lr_memberId r ≠ id).

Lemma disabled_locked_out id d :
  (∀ m, In m (members d) → m_id m = id → is_active m = false) → locked_out id d.
Proof.
  intros Hd. split.
  - intros env tok sm (s&m&t&_&_&Hm&_&Ha&_&_&Hsm&_)%resolve_Some Hid. rewrite Hd in Ha; congruence.
  - intros email pw r d' (->&m&t&Hrow&_&->)%verifyLogin_ok Hid. simpl in Hid.
    assert (In (m, t) (login_join email d)) as Hin.
    { destruct (login_join email d) as [|row rows]; [done|]. injection Hrow as ->. by left. }
    unfold login_join in Hin. apply in_flat_map in Hin as (y&Hy&Hin). apply in_map_iff in Hin as (z&[= -> ->]&_).
    apply select_In in Hy as [Hm Hp]. b2p. rewrite Hd in *; congruence.
Qed.

(** Removing a member, changing its role or resetting its second factor
    ends its sessions in that tenant at once: no token resolves to it any more.
    A removed member cannot log in again either. *)
Theorem revocation_is_immediate env c id role d r d' u :
  reachable d →
  (members_remove env c id d = (Ok r, d') → locked_out id d') ∧
  (members_changeRole env c id role d = (Ok r, d') → ∃ sm, session_of env c d sm ∧ signed_out (sm_tenantId sm) id d') ∧
  (totp_reset env c id d = (Ok u, d') → ∃ sm, session_of env c d sm ∧ signed_out (sm_tenantId sm) id d').
Proof.
  intros Hr. apply reachable_team_inv, ti_ids in Hr as Hnd. split_and!; intros E.
  - unfold members_remove in E. match type of E with guarded _ _ ?p ?h _ = _ => pose proof (guarded_inv env c p h d) as Hg end.
    rewrite E in Hg. destruct Hg as [[_ ?]|(sm&_&_&Eh)]; [done|]. symmetry in Eh.
    apply bind_ok in Eh as (n&d1&Erm&Eh). apply bind_ok in Eh as (?&d2&Ea&Eh). minv.
    unfold remove in Erm. apply bind_ok in Erm as (?&s1&[_ ->]%throw_if_ok&Erm).
    apply bind_ok in Erm as (?&d3&Etx%(proj1 (transaction_ok _ _ _ _))&Erv). apply remove_tx in Etx as (m&[Hm Hat]%select1_Some&_&_&->).
    assert (members d' = update_where (member_at (sm_tenantId sm) id) (set_status MDisabled) (members d)) as Hd'.
    { unfold revokeAllForMember, mbind, M_bind, get, modify, mret, M_ret in Erv. injection Erv as _ <-.
      unfold recordAs, record, modify in Ea. injection Ea as _ <-; done. }
    apply disabled_locked_out. rewrite Hd'. intros xm [(y&_&_&->)|[Hx Hp]]%update_where_In Hid; [done|].
    unfold member_at in *. b2p. assert (xm = m) as -> by (apply (NoDup_map_eq m_id (members d)); congruence).
    apply andb_false_iff in Hp as [Hp|Hp]; b2p; congruence.
  - unfold members_changeRole in E. match type of E with guarded _ _ ?p ?h _ = _ => pose proof (guarded_inv env c p h d) as Hg end.
    rewrite E in Hg. destruct Hg as [[_ ?]|(sm&Hs&_&Eh)]; [done|]. symmetry in Eh. exists sm. split; [done|].
    apply bind_ok in Eh as (?&d1&_&Eh). apply bind_ok in Eh as (nr&d2&_&Eh). apply bind_ok in Eh as (n&d3&Ec&Eh).
    apply bind_ok in Eh as (?&d4&Ea&Eh). minv. eapply signed_out_audit; [exact Ea|].
    unfold changeRole in Ec. apply bind_ok in Ec as (?&d5&_&Erv). by eapply revokeAll_signed_out.
  - unfold totp_reset in E. match type of E with guarded _ _ ?p ?h _ = _ => pose proof (guarded_inv env c p h d) as Hg end.
    rewrite E in Hg. destruct Hg as [[_ ?]|(sm&Hs&_&Eh)]; [done|]. symmetry in Eh. exists sm. split; [done|].
    apply bind_ok in Eh as (?&d1&Er&Ea). destruct u. eapply signed_out_audit; [exact Ea|].
    unfold resetForMember in Er. apply bind_ok in Er as (?&d2&_&Er). apply bind_ok in Er as (?&d3&_&Er).
    apply bind_ok in Er as (?&d4&_&Er). apply bind_ok in Er as (?&d5&Erv&Er). minv. by eapply revokeAll_signed_out.
Qed.
End Sessions.

(** ** What no request undoes *)

(** every row of key [id] is revoked *)
Definition dead (id : string) (d : Db) : Prop :=
  (∃ k, In k (api_keys d) ∧ k_id k = id) ∧ ∀ k, In k (api_keys d) → k_id k = id → k_status k = KRevoked.
Definition secured (i : Installation) (d : Db) : Prop := installation d = Some i ∧ in_state i = Secured.

(** the primary key and the unique index of [api_keys] *)
Definition keys_ok (d : Db) : Prop := List.NoDup (map k_id (api_keys d)) ∧ List.NoDup (map k_hash (api_keys d)).

(** Revoked keys stay revoked, a secured installation stays as it is, keys stay distinct. *)
Record final_step (d d' : Db) : Prop := {
  fs_dead : ∀ id, dead id d → dead id d';
  fs_secured : ∀ i, secured i d → secured i d';
  fs_keys : keys_ok d → keys_ok d' }.
#[global] Instance final_step_preorder : PreOrder final_step.
Proof. split; [by split|]. intros a b c [H1 H2 H3] [H4 H5 H6]. split; auto. Qed.

Lemma final_step_same d d' : api_keys d' = api_keys d → installation d' = installation d → final_step d d'.
Proof. intros H1 H2. split; unfold dead, secured, keys_ok; by rewrite ?H1, ?H2. Qed.

Lemma keys_ok_update p f d :
  (∀ k, k_id (f k) = k_id k ∧ k_hash (f k) = k_hash k) → keys_ok d → keys_ok (set_api_keys (update_where p f (api_keys d)) d).
Proof.
  intros Hf [H1 H2]. unfold keys_ok, update_where in *. simpl. rewrite !map_map.
  split; [rewrite (map_ext _ k_id)|rewrite (map_ext _ k_hash)]; try done; intros k; destruct (p k); try done; apply Hf.
Qed.

(** Rows of the key table may change as long as revoked ones stay revoked. *)
Lemma final_step_keys p f d :
  (∀ k, k_id (f k) = k_id k ∧ k_hash (f k) = k_hash k) →
  (∀ k, In k (api_keys d) → p k = true → k_status k = KRevoked → k_status (f k) = KRevoked) →
  final_step d (set_api_keys (update_where p f (api_keys d)) d).
Proof.
  intros Hk Hf. split; [|done|by apply keys_ok_update]. intros id [(k&Hin&Hid) Hall]. split.
  - destruct (p k) eqn:E; [exists (f k)|exists k]; (split; [apply update_where_In; eauto|]); [|done].
    destruct (Hk k). congruence.
  - intros k' [(x&Hx&Hp&->)|[Hx Hp]]%update_where_In Hid'; [|auto]. destruct (Hk x).
    apply (Hf x Hx Hp), Hall; [done|congruence].
Qed.

Ltac same_final := intros ?; apply final_step_same; reflexivity.

Section Final.
Context `{Crypto} `{Host}.
Abbreviation R := final_step.

Lemma fs_insert bad f : (∀ d, R d (f d)) → within R (d0 ← get; _ ← throw_if (bad d0) unique_violation; modify f).
Proof. intros Hf. apply within_insert; [apply _|auto]. Qed.
Lemma fs_create env t m : within R (create env t m).
Proof.
  apply within_bind; [apply _| |intros; apply within_readonly; [apply _|apply readonly_ret]].
  apply fs_insert. same_final.
Qed.
Lemma fs_revoke env tok : within R (revoke env tok).
Proof. apply within_modify. same_final. Qed.
Lemma fs_revokeAll env t m x : within R (revokeAllForMember env t m x).
Proof. intros d. by apply final_step_same. Qed.
Lemma fs_recordAs env a s t1 t2 x : within R (recordAs env a s t1 t2 x).
Proof. apply within_modify. same_final. Qed.
Lemma fs_insert_key k : within R (insert_key k).
Proof.
  apply within_insert; [apply _|]. intros d Hb. split; [|done|].
  2:{ intros [H1 H2]. unfold keys_ok. simpl. rewrite !map_app.
      split; (apply List.NoDup_app; [done|repeat constructor; by intros []|]); intros ? (y&<-&Hy)%in_map_iff [Heq|[]];
        apply (existsb_fresh _ _ Hb) in Hy; b2p; congruence. }
  intros id [(k0&Hk0&Hid) Hall]. split.
  - exists k0. split; [|done]. apply in_app_iff. by left.
  - intros k' [Hk'|[<-|[]]]%in_app_iff Hid'; [auto|]. apply (existsb_fresh _ _ Hb) in Hk0. b2p. congruence.
Qed.
Lemma fs_insert_app a : within R (insert_app a).
Proof. apply fs_insert. same_final. Qed.
Lemma fs_insert_tenant a : within R (insert_tenant a).
Proof. apply fs_insert. same_final. Qed.
Lemma fs_insert_member a : within R (insert_member a).
Proof. apply fs_insert. same_final. Qed.
Lemma fs_insert_backup b : within R (insert_backup b).
Proof. apply fs_insert. same_final. Qed.
Lemma fs_delete_codes m : within R (delete_backup_codes m).
Proof. apply within_modify. same_final. Qed.
Lemma fs_use_code env id : within R (use_code env id).
Proof. intros d. by apply final_step_same. Qed.
Lemma fs_update_members p f : within R (update_members p f).
Proof. apply within_modify. same_final. Qed.
Lemma fs_update_tenant id f : within R (update_tenant id f).
Proof. apply within_modify. same_final. Qed.
Lemma fs_set_timezone a t z : within R (set_timezone a t z).
Proof. apply within_modify. same_final. Qed.
Lemma fs_readonly {A} (m : M Db A) : readonly m → within R m.
Proof. apply within_readonly. apply _. Qed.
Lemma fs_master_key env : within R (master_key env).
Proof. apply fs_readonly, master_key_readonly. Qed.
Lemma fs_insert_codes env t m k l : within R (insert_codes env t m k l).
Proof.
  revert k. induction l as [|c l IH]; intros k; [apply fs_readonly, readonly_ret|].
  apply within_bind; [apply _|apply fs_insert_backup|intros; apply IH].
Qed.
End Final.

#[export] Hint Resolve fs_create fs_revoke fs_revokeAll fs_recordAs fs_insert_key fs_insert_app fs_insert_tenant
  fs_insert_member fs_insert_backup fs_delete_codes fs_use_code fs_update_members fs_update_tenant fs_set_timezone
  fs_master_key fs_insert_codes : within.

Section FinalHandlers.
Context `{Crypto} `{Host}.
Abbreviation R := final_step.

Lemma fs_verifyForLogin env id tok : within R (verifyForLogin env id tok).
Proof. unfold verifyForLogin, tryBackupCode, update_totp. within_tac. Qed.
#[local] Hint Resolve fs_verifyForLogin : within.
Lemma fs_login env b : within R (login env b).
Proof. unfold login, issueSession, verifyLogin. within_tac. Qed.
Lemma fs_guarded {A} env c perm (h : SessionMember → M Db A) : (∀ sm, within R (h sm)) → within R (guarded env c perm h).
Proof.
  intros Hh. unfold guarded. apply within_bind; [apply _|apply fs_readonly, SessionGuard_readonly|intros].
  apply within_bind; [apply _|apply fs_readonly, PermissionGuard_readonly|done].
Qed.
Lemma fs_createWorkspace env i a : within R (createWorkspace env i a).
Proof. unfold createWorkspace. within_tac. Qed.
#[local] Hint Resolve fs_createWorkspace : within.

Lemma fs_usage env en k : within R (usage_update env en k).
Proof. apply within_modify. intros d. by apply final_step_keys. Qed.

Lemma fs_rotate env sm app key : within R (_ ← rotate_check sm app key; rotate_commit env sm app key).
Proof.
  intros d. unfold mbind at 1, M_bind. destruct (rotate_check sm app key d) as [[u|e] d1] eqn:E.
  2:{ assert (d1 = d) as ->; [|reflexivity]. eapply readonly_state; [|exact E].
      unfold rotate_check, assertApp, assertKeyAdmin. repeat (apply readonly_bind; intros; auto with nudgeon). }
  unfold rotate_check, assertApp, assertKeyAdmin in E.
  apply bind_ok in E as (?&s1&E1&E). apply bind_ok in E1 as (?&s2&[= <- <-]&[_ ->]%throw_if_ok).
  apply bind_ok in E as (?&s1&[_ ->]%throw_if_ok&E). apply bind_ok in E as (?&s1&[= <- <-]&E).
  apply bind_ok in E as (k&s1&[[Hk Hkat]%select1_Some ->]%some_or_throw_ok&E).
  apply bind_ok in E as (?&s1&[_ ->]%throw_if_ok&E). apply throw_if_ok in E as [Hst ->]. b2p.
  assert (∀ id, dead id d → id ≠ key) as Hnd.
  { intros id [_ Hall] ->. unfold key_at in Hkat. b2p. rewrite (Hall k) in Hst by done. done. }
  set (d1 := set_api_keys (update_where (λ k, String.eqb (k_id k) key) (to_rotating env) (api_keys d)) d).
  assert (R d d1) as H1.
  { split; [|done|by apply keys_ok_update]. intros id Hid. specialize (Hnd id Hid). destruct Hid as [(k0&Hk0&Hi0) Hall]. split.
    - exists k0. split; [|done]. apply update_where_In. right. split; [done|]. apply String.eqb_neq. congruence.
    - intros k' [(y&Hy&Hp&->)|[Hx Hp]]%update_where_In Hid'; [|auto]. simpl in Hid'. b2p. congruence. }
  change (R d (rotate_commit env sm app key d).2). unfold rotate_commit. apply (within_bind_at R); [|intros; within_tac].
  apply (within_transaction_at R), (within_bind_at R); [exact H1|intros; within_tac].
Qed.

Lemma fs_revokeKey env sm app key : within R (
    _ ← assertApp app sm; _ ← assertKeyAdmin sm; d ← get;
    _ ← modify (set_api_keys (update_where (revoke_where sm app key) (to_revoked env) (api_keys d)));
    _ ← throw_if (row_count (revoke_where sm app key) (api_keys d) =? 0) (NotFoundException "Not Found");
    recordAs env sm "apikey.revoke" (Some "apikey") (Some key) [("app_id", JStr app)]).
Proof.
  unfold assertApp, assertKeyAdmin.
  apply within_bind; [apply _|within_tac|intros _]. apply within_bind; [apply _|within_tac|intros _].
  apply within_get. intros d. 
  apply (within_bind_at R); [|intros; within_tac].
  by apply final_step_keys.
Qed.

(** Bootstrap writes only an installation that is not secured. *)
Lemma final_step_installation f d :
  (∀ i, installation d = Some i → in_state i ≠ Secured) → final_step d (set_installation f d).
Proof. intros Hf. split; [done| |done]. intros i [Hi Hs]. by destruct (Hf i). Qed.

Lemma fs_ensure env : within R (ensureInstallation env).
Proof.
  unfold ensureInstallation. apply within_transaction; [apply _|]. apply within_bind; [apply _| |intros _].
  { apply within_modify. intros d. destruct (installation d) as [i|] eqn:E; [reflexivity|].
    apply final_step_installation. intros i. by rewrite E. }
  apply within_get. intros d. destruct (installation d) as [row|] eqn:E; [|reflexivity].
  cbn [some_or_throw]. unfold mbind, M_bind, mret at 1, M_ret.
  destruct (cfg_setupToken env) as [t|]; [|reflexivity].
  destruct (negb (bool_decide (in_state row = Secured)) && _) eqn:Es; [|reflexivity].
  destruct (negb (same _ _)); [|reflexivity]. b2p. apply final_step_installation. intros i Hi. congruence.
Qed.

Lemma fs_update_installation f d :
  (∀ i, installation d = Some i → in_state i ≠ Secured) → R d (update_installation f d).2.
Proof. apply final_step_installation. Qed.

Lemma fs_claim env t : within R (claim env t).
Proof.
  unfold claim. apply within_transaction; [apply _|]. apply within_get. intros d.
  destruct (installation d) as [row|] eqn:E; [|reflexivity]. cbn [some_or_throw].
  rewrite readonly_bind_state by apply readonly_ret. cbn.
  rewrite readonly_bind_state by apply readonly_throw_if.
  destruct (throw_if (bool_decide (in_state row = Secured)) _ d) as [[]] eqn:Es; [|reflexivity].
  apply throw_if_ok in Es as [Es _]. b2p.
  do 3 (rewrite readonly_bind_state by apply readonly_throw_if; destruct (throw_if _ _ d) as [[]]; [|reflexivity]).
  apply (within_bind_at R); [|intros; within_tac]. apply fs_update_installation. intros i. congruence.
Qed.
Lemma fs_extend env ck : within R (extend env ck).
Proof.
  unfold extend. apply within_bind; [apply _|within_tac|intros tok]. apply within_transaction; [apply _|]. apply within_get. intros d.
  destruct (installation d) as [row|] eqn:E; [|reflexivity]. cbn [some_or_throw].
  rewrite readonly_bind_state by apply readonly_ret. cbn.
  rewrite readonly_bind_state by apply readonly_throw_if.
  destruct (throw_if _ _ d) as [[]] eqn:Es; [|reflexivity]. apply throw_if_ok in Es as [Es _]. b2p.
  rewrite readonly_bind_state by apply readonly_throw_if. destruct (throw_if _ _ d) as [[]]; [|reflexivity].
  apply (within_bind_at R); [|intros; within_tac]. apply fs_update_installation. intros i. congruence.
Qed.
Lemma fs_setup env ck k b : within R (setup env ck k b).
Proof.
  unfold setup. apply within_bind; [apply _|within_tac|intros tok]. apply within_transaction; [apply _|]. apply within_get. intros d.
  destruct (installation d) as [row|] eqn:E; [|reflexivity]. cbn [some_or_throw].
  rewrite readonly_bind_state by apply readonly_ret. cbn.
  destruct (bool_decide (in_state row = Secured)) eqn:Es.
  { match goal with |- R d (?m d).2 => assert (within R m) as Hw; [|apply Hw] end. within_tac. }
  do 2 (rewrite readonly_bind_state by apply readonly_throw_if; destruct (throw_if _ _ d) as [[]]; [|reflexivity]).
  unfold setup_create. b2p. unfold mbind at 1, M_bind.
  destruct (createWorkspace env _ _ d) as [[w|e] dw] eqn:Ec.
  2:{ by eapply within_run; [apply fs_createWorkspace|exact Ec]. }
  apply createWorkspace_ok in Ec as Hw. destruct Hw as (_&Hi&_). 
  etrans; [by eapply within_run; [apply fs_createWorkspace|exact Ec]|].
  match goal with |- R dw ((?m ≫= ?f) dw).2 => destruct (m dw) as [[[]|e] dz] eqn:E2; unfold mbind at 1, M_bind; rewrite E2 end.
  - assert (R dw dz ∧ installation dz = installation dw) as [H2 Hi2].
    { destruct (su_timezone b) as [tz|]; [destruct (String.eqb tz "")|];
        unfold mret, M_ret, set_timezone, modify in E2; injection E2 as <-; (split; [by apply final_step_same|done]). }
    etrans; [exact H2|]. apply (within_bind_at R); [|intros; within_tac]. apply fs_update_installation. intros i. congruence.
  - destruct (su_timezone b) as [tz|]; [destruct (String.eqb tz "")|]; discriminate E2.
Qed.
#[local] Hint Resolve fs_claim fs_extend fs_setup fs_ensure : within.

Lemma exec_final env q d : final_step d (exec env q d).
Proof.
  destruct q; cbn [exec]; try (match goal with |- final_step d (?m d).2 => assert (within R m) as Hw; [|apply Hw] end).
  all: try (apply fs_guarded; intros sm).
  - unfold signup_handler, signup, issueSession. within_tac.
  - apply fs_login.
  - unfold logout. within_tac.
  - unfold create_member, assertAssignableRole. within_tac.
  - unfold assertInTenant, changeRole, lockMember, assertAssignableRole, assertCanManageTarget, assertNotLastOwner. within_tac.
  - unfold remove, lockMember, assertCanManageTarget, assertNotLastOwner. within_tac.
  - unfold startEnrollment. within_tac.
  - unfold parseCode, confirmEnrollment. within_tac.
  - unfold parseCode, disable, clear. within_tac.
  - unfold resetForMember, clear. within_tac.
  - within_tac. cbv zeta. within_tac.
  - within_tac.
  - within_tac.
  - apply fs_rotate.
  - unfold assertApp, assertKeyAdmin. within_tac.
  - apply fs_revokeKey.
  - apply fs_usage.
  - intros dm. unfold onModuleInit. case_match; [apply fs_ensure|reflexivity].
  - unfold claim_handler. destruct ((_ ← single env; assertLoopbackOrTls env r) d) as [[u|e] d1] eqn:E.
    + destruct (allow _ _ _) as [[|] hits']; [|reflexivity]. cbn [negb].
      match goal with |- context [let '(o, d') := ?m d in _] => assert (within R m) as Hw by within_tac end.
      specialize (Hw d). match type of Hw with _ d (?m d).2 => destruct (m d) as [o d2] end. exact Hw.
    + assert (d1 = d) as ->; [|reflexivity]. eapply readonly_state; [|exact E].
      apply readonly_bind; [apply single_readonly|intros; apply transport_readonly].
  - unfold extend_handler, single, assertLoopbackOrTls. within_tac.
  - unfold setup_handler, single, assertLoopbackOrTls. within_tac.
  - unfold setupResult_handler, single. within_tac. apply fs_readonly, setupResult_readonly.
Qed.

Lemma run_final l d : final_step d (run l d).
Proof. revert d. induction l as [|[env q] l IH]; intros d; [reflexivity|]. etrans; [apply exec_final|apply IH]. Qed.
End FinalHandlers.

Lemma reachable_keys `{Crypto} `{Host} d : reachable d → keys_ok d.
Proof. induction 1 as [|env q d _ IH]; [split; constructor|]. by apply exec_final. Qed.

(** ** API keys *)

Section Keys.
Context `{Crypto} `{Host}.

Lemma resolve_key_Some env raw d r :
  resolve_key env raw d = Some r → ∃ k, In k (api_keys d) ∧ k_hash k = sha256_hex raw ∧ k_id k = rk_id (fst r)
    ∧ k_status k ≠ KRevoked.
Proof.
  unfold resolve_key. destruct (negb (key_format raw)); [done|]. intros (k&[Hk Hh]%select1_Some&Hr)%bind_Some. b2p.
  destruct (bool_decide (k_status k = KRevoked)) eqn:E; [done|]. b2p.
  destruct (_ && _); [done|]. injection Hr as <-. by exists k.
Qed.

Lemma resolve_key_dead env raw d id : dead id d → ∀ r, resolve_key env raw d = Some r → rk_id (fst r) ≠ id.
Proof. intros [_ Hall] r (k&Hk&_&Hid&Hst)%resolve_key_Some Heq. apply Hst, Hall; [done|congruence]. Qed.

Lemma revokeKey_dead env c app key d u d' :
  keys_ok d → revokeKey env c app key d = (Ok u, d') → dead key d'.
Proof.
  intros [Hids _] E. unfold revokeKey in E.
  match type of E with guarded _ _ ?p ?h _ = _ => pose proof (guarded_inv env c p h d) as Hg end.
  rewrite E in Hg. destruct Hg as [[_ ?]|(sm&_&_&Eh)]; [done|]. symmetry in Eh.
  apply bind_ok in Eh as (?&s1&E1&Eh). unfold assertApp in E1. apply bind_ok in E1 as (?&s2&[= <- <-]&[_ ->]%throw_if_ok).
  apply bind_ok in Eh as (?&s1&E1&Eh). apply throw_if_ok in E1 as [_ ->].
  apply bind_ok in Eh as (?&s1&[= <- <-]&Eh). apply bind_ok in Eh as (?&s1&[= _ <-]&Eh).
  apply bind_ok in Eh as (?&s1&[Hn ->]%throw_if_ok&Eh). unfold recordAs, record, modify in Eh. injection Eh as _ <-. b2p.
  assert (0 < row_count (revoke_where sm app key) (api_keys d)) as (k&Hk&Hp)%row_count_pos by (unfold row_count in *; lia).
  unfold dead. simpl. assert (k_id k = key) as Hkid by (unfold revoke_where, key_at in Hp; by b2p). split.
  - exists (to_revoked env k). split; [apply update_where_In; left; eauto|done].
  - intros k' [(y&_&_&->)|[Hy Hpy]]%update_where_In Hid; [done|].
    assert (k' = k) as -> by (apply (NoDup_map_eq k_id (api_keys d)); congruence). congruence.
Qed.

(** A revoked API key is dead for good: no request that follows, in
    whatever number and order, makes any text resolve to it again. *)
Theorem revoked_key_never_resolves env c app key d u d' l env' raw r :
  reachable d → revokeKey env c app key d = (Ok u, d') →
  resolve_key env' raw (run l d') = Some r → rk_id (fst r) ≠ key.
Proof.
  intros Hr E. apply resolve_key_dead. apply run_final. eapply revokeKey_dead; [by apply reachable_keys|exact E].
Qed.

(** A row is found by the hash of its text. *)
Lemma resolve_key_row env raw d k :
  keys_ok d → In k (api_keys d) → k_hash k = sha256_hex raw → key_format raw = true →
  is_Some (resolve_key env raw d) ↔
  k_status k ≠ KRevoked ∧ (k_status k = KRotating → ∀ g, k_grace_expires_at k = Some g → Date_now env KeyGrace <= getTime g).
Proof.
  intros [_ Hh] Hk Hhash Hf. unfold resolve_key. rewrite Hf. cbn [negb].
  destruct (select1 _ (api_keys d)) as [k'|] eqn:E.
  2:{ apply (proj1 (select1_None _ _)) with (r := k) in E; [|done]. b2p. done. }
  apply select1_Some in E as [Hk' Hp]. b2p.
  assert (k' = k) as -> by (apply (NoDup_map_eq k_hash (api_keys d)); congruence). cbn [mbind option_bind].
  destruct (k_status k) eqn:Es.
  - rewrite !bool_decide_false by done. simpl. split; [|by eauto]. intros _. by split.
  - rewrite bool_decide_false, bool_decide_true by done. cbn [andb]. destruct (k_grace_expires_at k) as [g|].
    + destruct (getTime g <? Date_now env KeyGrace) eqn:Eg; b2p; split.
      * by intros [? ?].
      * intros [_ Hg]. specialize (Hg eq_refl g eq_refl). lia.
      * intros _. split; [done|]. by intros _ ? [= <-].
      * by eauto.
    + split; [|by eauto]. intros _. by split.
  - rewrite bool_decide_true by done. split; [by intros [? ?]|]. by intros [? _].
Qed.

(** Rotating an SDK key: the new key works at once for the same app, and
    the old one works for exactly the thirty days of grace, neither less nor
    more. *)
Theorem rotation_grace env c app key d new d' :
  reachable d → rotate env c app key d = (Ok new, d') →
  key_format new = true →
  ∃ old, In old (api_keys d) ∧ k_id old = key ∧ k_status old = KActive
    ∧ (∀ env' raw, k_hash old = sha256_hex raw → key_format raw = true →
         is_Some (resolve_key env' raw d') ↔ Date_now env' KeyGrace <= getTime (pg_now env + days 30))
    ∧ ∀ env', is_Some (resolve_key env' new d').
Proof.
  intros Hr E Hnew. apply reachable_keys in Hr as Hok.
  assert (keys_ok d') as Hok'. { pose proof (exec_final env (RRotate c app key) d) as Hf. cbn [exec] in Hf. rewrite E in Hf. by apply Hf. }
  unfold rotate in E. match type of E with guarded _ _ ?p ?h _ = _ => pose proof (guarded_inv env c p h d) as Hg end.
  rewrite E in Hg. destruct Hg as [[_ ?]|(sm&_&_&Eh)]; [done|]. symmetry in Eh.
  apply bind_ok in Eh as ([]&s0&Ec&Eh). unfold rotate_check in Ec.
  apply bind_ok in Ec as (?&s1&E1&Ec). unfold assertApp in E1. apply bind_ok in E1 as (?&s2&[= <- <-]&[_ ->]%throw_if_ok).
  apply bind_ok in Ec as (?&s1&E1&Ec). apply throw_if_ok in E1 as [_ ->]. apply bind_ok in Ec as (?&s1&[= <- <-]&Ec).
  apply bind_ok in Ec as (old&s1&[[Hold Hat]%select1_Some ->]%some_or_throw_ok&Ec).
  apply bind_ok in Ec as (?&s1&[_ ->]%throw_if_ok&Ec). apply throw_if_ok in Ec as [Hst ->]. b2p.
  assert (k_id old = key) as Hid by (unfold key_at in Hat; by b2p).
  unfold rotate_commit in Eh. apply bind_ok in Eh as (?&s1&Etx%(proj1 (transaction_ok _ _ _ _))&Eh).
  apply bind_ok in Etx as (?&s2&[= _ <-]&Eins). apply insert_ok in Eins as [Hfresh ->].
  apply bind_ok in Eh as (?&s3&Ea&Eh). unfold recordAs, record, modify in Ea. injection Ea as _ <-.
  unfold mret, M_ret in Eh. injection Eh as <- <-. exists old. split_and!; [done..| |].
  - intros env' raw Hh Hf. assert (In (to_rotating env old) (update_where (λ k, String.eqb (k_id k) key) (to_rotating env) (api_keys d))) as Hin.
    { apply update_where_In. left. exists old. split_and!; [done| |done]. by apply String.eqb_eq. }
    rewrite (resolve_key_row env' raw _ (to_rotating env old) Hok'); [|simpl; apply in_app_iff; by left|done..].
    split; [|by intros Hle; split; [done|]; intros _ g [= <-]]. intros [_ Hg]. by apply Hg.
  - intros env'. eapply resolve_key_row; [exact Hok'|simpl; apply in_app_iff; right; left; reflexivity|done..].
Qed.

Lemma rotate_check_ok sm app key d u d' :
  rotate_check sm app key d = (Ok u, d') →
  d' = d ∧ ∃ old, In old (api_keys d) ∧ k_id old = key ∧ k_status old = KActive.
Proof.
  unfold rotate_check. intros E. apply bind_ok in E as (?&s1&E1&E). unfold assertApp in E1.
  apply bind_ok in E1 as (?&s2&[= <- <-]&[_ ->]%throw_if_ok).
  apply bind_ok in E as (?&s1&E1&E). apply throw_if_ok in E1 as [_ ->]. apply bind_ok in E as (?&s1&[= <- <-]&E).
  apply bind_ok in E as (old&s1&[[Hold Hat]%select1_Some ->]%some_or_throw_ok&E).
  apply bind_ok in E as (?&s1&[_ ->]%throw_if_ok&E). apply throw_if_ok in E as [Hst ->]. b2p.
  split; [done|]. exists old. unfold key_at in Hat. by b2p.
Qed.

(** What the transaction of a rotation leaves of a row of its key. *)
Lemma rotate_commit_ok env sm app key d new d' k :
  keys_ok d → rotate_commit env sm app key d = (Ok new, d') → In k (api_keys d) → k_id k = key →
  keys_ok d' ∧ In (to_rotating env k) (api_keys d').
Proof.
  intros Hok E Hk Hid. unfold rotate_commit in E. apply bind_ok in E as (?&s1&Etx%(proj1 (transaction_ok _ _ _ _))&E).
  apply bind_ok in Etx as ([]&s2&Eu&Eins). unfold modify in Eu. injection Eu as <-.
  assert (keys_ok s1) as Hok1.
  { eapply (fs_keys _ _ (within_run final_step _ _ _ _ (fs_insert_key _) Eins)). by apply keys_ok_update. }
  apply insert_ok in Eins as [_ ->]. apply bind_ok in E as (?&s3&Ea&E). unfold recordAs, record, modify in Ea. injection Ea as _ <-.
  unfold mret, M_ret in E. injection E as _ <-. split; [done|]. simpl. apply in_app_iff. left.
  apply update_where_In. left. exists k. split_and!; [done| |done]. by apply String.eqb_eq.
Qed.

Lemma revokeKey_keeps_row env c app key d u d' k :
  revokeKey env c app key d = (Ok u, d') → In k (api_keys d) → ∃ k', In k' (api_keys d') ∧ k_id k' = k_id k ∧ k_hash k' = k_hash k.
Proof.
  intros E Hk. unfold revokeKey in E.
  match type of E with guarded _ _ ?p ?h _ = _ => pose proof (guarded_inv env c p h d) as Hg end.
  rewrite E in Hg. destruct Hg as [[_ ?]|(sm&_&_&Eh)]; [done|]. symmetry in Eh.
  apply bind_ok in Eh as (?&s1&E1&Eh). unfold assertApp in E1. apply bind_ok in E1 as (?&s2&[= <- <-]&[_ ->]%throw_if_ok).
  apply bind_ok in Eh as (?&s1&E1&Eh). apply throw_if_ok in E1 as [_ ->].
  apply bind_ok in Eh as (?&s1&[= <- <-]&Eh). apply bind_ok in Eh as (?&s1&[= _ <-]&Eh).
  apply bind_ok in Eh as (?&s1&[_ ->]%throw_if_ok&Eh). unfold recordAs, record, modify in Eh. injection Eh as _ <-. simpl.
  destruct (revoke_where sm app key k) eqn:Ep.
  - exists (to_revoked env k). split_and!; [apply update_where_In; left; eauto|done..].
  - exists k. split_and!; [apply update_where_In; right; done|done..].
Qed.

(** C40. The check and the transaction of a rotation are separate statements,
    and the update is by id alone: when the check passed, then another request
    revoked the key, then the transaction ran (none of them refused), the key
    that nothing resolved after the revocation resolves again, for the thirty
    days of grace. *)
Theorem rotation_undoes_revocation env1 env2 sm c app key d d0 d1 new d2 u v :
  reachable d → rotate_check sm app key d = (Ok u, d0) → revokeKey env2 c app key d0 = (Ok v, d1) →
  rotate_commit env1 sm app key d1 = (Ok new, d2) →
  ∃ old, In old (api_keys d) ∧ k_id old = key ∧ k_status old = KActive ∧
    ∀ env raw, k_hash old = sha256_hex raw → key_format raw = true →
      resolve_key env raw d1 = None ∧
      (is_Some (resolve_key env raw d2) ↔ Date_now env KeyGrace <= getTime (pg_now env1 + days 30)).
Proof.
  intros Hr Ec Ev Ex. apply rotate_check_ok in Ec as (->&old&Hold&Hid&Hst). exists old. split_and!; [done..|].
  pose proof (reachable_keys d Hr) as Hok.
  assert (keys_ok d1) as Hok1.
  { pose proof (fs_keys _ _ (exec_final env2 (RRevokeKey c app key) d) Hok) as Hf. cbn [exec] in Hf. by rewrite Ev in Hf. }
  pose proof (revokeKey_dead _ _ _ _ _ _ _ Hok Ev) as Hdead.
  destruct (revokeKey_keeps_row _ _ _ _ _ _ _ _ Ev Hold) as (k1&Hk1&Hid1&Hh1).
  destruct (rotate_commit_ok _ _ _ _ _ _ _ k1 Hok1 Ex Hk1 ltac:(congruence)) as [Hok2 Hk2].
  intros env raw Hh Hf. split.
  - destruct (resolve_key env raw d1) eqn:E; [|done]. apply resolve_key_Some in E as (k&Hk&Hkh&_&Hks).
    assert (k = k1) as -> by (apply (NoDup_map_eq k_hash (api_keys d1)); [apply Hok1|done..|congruence]).
    destruct Hks. apply Hdead; [done|congruence].
  - rewrite (resolve_key_row env raw d2 _ Hok2 Hk2); [|simpl; congruence|done].
    split; [|by intros Hle; split; [done|]; intros _ g [= <-]]. intros [_ Hg]. by apply Hg.
Qed.
End Keys.

(** ** Where sessions come from *)

(** no session under a new token *)
Definition no_new_session (d d' : Db) : Prop := incl (map se_token_hash (sessions d')) (map se_token_hash (sessions d)).
#[global] Instance no_new_session_preorder : PreOrder no_new_session.
Proof. split; [intros d; apply incl_refl|]. intros a b c H1 H2. by eapply incl_tran. Qed.
Lemma no_new_session_same d d' : sessions d' = sessions d → no_new_session d d'.
Proof. unfold no_new_session. intros ->. apply incl_refl. Qed.

Section Tokens.
Context `{Crypto} `{Host}.
Abbreviation R := no_new_session.
Ltac same_sessions := intros ?; apply no_new_session_same; reflexivity.

Lemma ns_insert bad f : (∀ d, sessions (f d) = sessions d) → within R (d0 ← get; _ ← throw_if (bad d0) unique_violation; modify f).
Proof. intros Hf. apply within_insert; [apply _|]. intros d _. by apply no_new_session_same. Qed.
Lemma ns_insert_key k : within R (insert_key k).
Proof. by apply ns_insert. Qed.
Lemma ns_insert_app a : within R (insert_app a).
Proof. by apply ns_insert. Qed.
Lemma ns_insert_tenant a : within R (insert_tenant a).
Proof. by apply ns_insert. Qed.
Lemma ns_insert_member a : within R (insert_member a).
Proof. by apply ns_insert. Qed.
Lemma ns_insert_backup b : within R (insert_backup b).
Proof. by apply ns_insert. Qed.
Lemma ns_revoked p env d : R d (set_sessions (update_where p (revoke_row env) (sessions d)) d).
Proof.
  intros h (s&<-&Hs)%in_map_iff. simpl in Hs. apply update_where_In in Hs as [(x&Hx&_&->)|[Hs _]]; [exact (in_map se_token_hash _ x Hx)|by apply in_map].
Qed.
Lemma ns_revoke env tok : within R (revoke env tok).
Proof. apply within_modify. intros d. apply ns_revoked. Qed.
Lemma ns_revokeAll env t m x : within R (revokeAllForMember env t m x).
Proof. intros d. apply ns_revoked. Qed.
Lemma ns_recordAs env a s t1 t2 x : within R (recordAs env a s t1 t2 x).
Proof. apply within_modify. same_sessions. Qed.
Lemma ns_delete_codes m : within R (delete_backup_codes m).
Proof. apply within_modify. same_sessions. Qed.
Lemma ns_use_code env id : within R (use_code env id).
Proof. intros d. by apply no_new_session_same. Qed.
Lemma ns_update_members p f : within R (update_members p f).
Proof. apply within_modify. same_sessions. Qed.
Lemma ns_update_tenant id f : within R (update_tenant id f).
Proof. apply within_modify. same_sessions. Qed.
Lemma ns_set_timezone a t z : within R (set_timezone a t z).
Proof. apply within_modify. same_sessions. Qed.
Lemma ns_update_installation f : within R (update_installation f).
Proof. apply within_modify. same_sessions. Qed.
Lemma ns_set_keys p f : within R (modify (λ d, set_api_keys (update_where p f (api_keys d)) d)).
Proof. apply within_modify. same_sessions. Qed.
Lemma ns_master_key env : within R (master_key env).
Proof. apply within_readonly; [apply _|apply master_key_readonly]. Qed.
Lemma ns_modify_const f : (∀ d, sessions (f d) = sessions d) → within R (modify f).
Proof. intros Hf. apply within_modify. intros d. by apply no_new_session_same. Qed.
#[local] Hint Resolve ns_insert_key ns_insert_app ns_insert_tenant ns_insert_member ns_insert_backup ns_revoke ns_revokeAll
  ns_recordAs ns_delete_codes ns_use_code ns_update_members ns_update_tenant ns_set_timezone ns_update_installation
  ns_set_keys ns_master_key : within.
Lemma ns_insert_codes env t m k l : within R (insert_codes env t m k l).
Proof. revert k. induction l as [|c l IH]; intros k; cbn [insert_codes]; within_tac. Qed.
Lemma ns_verifyForLogin env id tok : within R (verifyForLogin env id tok).
Proof. unfold verifyForLogin, tryBackupCode, update_totp. within_tac. Qed.
Lemma ns_createWorkspace env i a : within R (createWorkspace env i a).
Proof. unfold createWorkspace. within_tac. Qed.
#[local] Hint Resolve ns_insert_codes ns_verifyForLogin ns_createWorkspace : within.
Lemma ns_setup env ck k b : within R (setup env ck k b).
Proof. unfold setup, setup_create. within_tac. Qed.
Lemma ns_signup env b : within R (signup env b).
Proof. unfold signup. within_tac. Qed.
Lemma ns_guarded {A} env c perm (h : SessionMember → M Db A) : (∀ sm, within R (h sm)) → within R (guarded env c perm h).
Proof.
  intros Hh. unfold guarded. apply within_bind; [apply _|apply within_readonly; [apply _|apply SessionGuard_readonly]|intros].
  apply within_bind; [apply _|apply within_readonly; [apply _|apply PermissionGuard_readonly]|done].
Qed.
Lemma ns_exec env q d :
  match q with RSignup _ | RLogin _ | RSetup _ _ _ | RSetupResult _ _ => True | _ => R d (exec env q d) end.
Proof.
  destruct q; cbn [exec]; try done; try (match goal with |- R d (?m d).2 => assert (within R m) as Hw; [|apply Hw] end).
  all: try (apply ns_guarded; intros sm).
  - unfold logout. within_tac.
  - unfold create_member, assertAssignableRole. within_tac.
  - unfold assertInTenant, changeRole, lockMember, assertAssignableRole, assertCanManageTarget, assertNotLastOwner. within_tac.
  - unfold remove, lockMember, assertCanManageTarget, assertNotLastOwner. within_tac.
  - unfold startEnrollment. within_tac.
  - unfold parseCode, confirmEnrollment. within_tac.
  - unfold parseCode, disable, clear. within_tac.
  - unfold resetForMember, clear. within_tac.
  - within_tac. cbv zeta. within_tac.
  - within_tac.
  - within_tac.
  - unfold rotate_check, rotate_commit, assertApp, assertKeyAdmin. within_tac.
  - unfold assertApp, assertKeyAdmin. within_tac.
  - unfold assertApp, assertKeyAdmin. within_tac. by apply ns_modify_const.
  - by apply ns_modify_const.
  - intros dm. unfold onModuleInit, ensureInstallation. case_match; [|reflexivity].
    apply within_transaction; [apply _|]. within_tac; apply ns_modify_const; intros dx; by destruct (installation dx).
  - unfold claim_handler. destruct ((_ ← single env; assertLoopbackOrTls env r) d) as [[u|e] d1] eqn:E.
    + destruct (allow _ _ _) as [[|] hits']; [|reflexivity]. cbn [negb].
      match goal with |- context [let '(o, d') := ?m d in _] => assert (within R m) as Hw by (unfold claim; within_tac) end.
      specialize (Hw d). match type of Hw with _ d (?m d).2 => destruct (m d) as [o d2] end. exact Hw.
    + assert (d1 = d) as ->; [|reflexivity]. eapply readonly_state; [|exact E].
      apply readonly_bind; [apply single_readonly|intros; apply transport_readonly].
  - unfold extend_handler, extend, single, assertLoopbackOrTls. within_tac.
Qed.

Lemma create_opens env t m d s :
  In s (sessions (create env t m d).2) → In (se_token_hash s) (map se_token_hash (sessions d)) ∨ se_tenant s = t ∧ se_member s = m.
Proof.
  intros Hin. destruct (create env t m d) as [o d'] eqn:E. cbn [snd] in Hin. unfold create, mbind, M_bind in E.
  destruct (insert_session _ d) as [[u|e] d1] eqn:Ei; injection E as _ <-.
  - apply insert_ok in Ei as [_ ->]. cbn in Hin. apply in_app_iff in Hin as [Hin|[<-|[]]]; [left; by apply in_map|by right].
  - left. apply in_map. unfold insert_session, mbind, M_bind, get, throw_if in Ei. destruct (existsb _ _); [|done].
    by injection Ei as _ <-.
Qed.

(** A program that ends by opening a session for the member it found. *)
Lemma opened_by {A B} env (m : M Db A) (t u : A → string) (f : A → string * Z → B) d s :
  within R m → In s (sessions ((a ← m; tok ← create env (t a) (u a); mret (f a tok)) d).2) →
  ¬ In (se_token_hash s) (map se_token_hash (sessions d)) →
  ∃ a d1, m d = (Ok a, d1) ∧ se_tenant s = t a ∧ se_member s = u a.
Proof.
  intros Hw Hin Hnew. specialize (Hw d). unfold mbind at 1, M_bind in Hin.
  destruct (m d) as [[a|e] d1]; cbn [snd] in *; [|by destruct Hnew; apply Hw, in_map]. exists a, d1. split; [done|].
  unfold mbind, M_bind in Hin. pose proof (create_opens env (t a) (u a) d1 s) as Hc.
  destruct (create env (t a) (u a) d1) as [[tk|e] d2]; cbn [snd] in *;
    (destruct (Hc Hin) as [Hold|?]; [by destruct Hnew; apply Hw|done]).
Qed.

(** Whose session a login opens. *)
Lemma login_opens env b d s :
  In s (sessions (login env b d).2) → ¬ In (se_token_hash s) (map se_token_hash (sessions d)) →
  loginSchema b = true ∧ ∃ r, verifyLogin (lb_email b) (lb_password b) d = (Ok r, d) ∧ se_member s = lr_memberId r ∧ se_tenant s = lr_tenantId r
    ∧ (lr_totpEnabled r = true → ∃ code, lb_totp b = Some code ∧ (verifyForLogin env (lr_memberId r) code d).1 = Ok true).
Proof.
  intros Hin Hnew. assert (In s (sessions d) → False) as Hold by (intros ?; by apply Hnew, in_map).
  unfold login in Hin. rewrite readonly_bind_state in Hin by apply readonly_throw_if.
  destruct (loginSchema b); [|done]. cbn [negb throw_if] in Hin. unfold mret at 1, M_ret in Hin.
  rewrite readonly_bind_state in Hin by apply verifyLogin_readonly.
  pose proof (verifyLogin_readonly (lb_email b) (lb_password b) d) as Hr.
  destruct (verifyLogin _ _ d) as [[r|e] d1]; cbn [snd] in *; [subst d1|done]. split; [done|]. exists r. split; [done|].
  unfold issueSession in Hin. destruct (lr_totpEnabled r).
  - destruct (lb_totp b) as [code|]; [|done]. unfold mbind at 1, M_bind in Hin.
    pose proof (ns_verifyForLogin env (lr_memberId r) code d) as Hv.
    destruct (verifyForLogin env (lr_memberId r) code d) as [[[]|e] d1] eqn:Ev; cbn [snd negb throw_if] in *;
      try (destruct Hnew; apply Hv, in_map; exact Hin).
    unfold mbind, M_bind, mret, M_ret in Hin. pose proof (create_opens env (lr_tenantId r) (lr_memberId r) d1 s) as Hc.
    destruct (create env _ _ d1) as [[tk|e] d2]; cbn [snd] in *;
      (destruct (Hc Hin) as [Ho|[-> ->]]; [by destruct Hnew; apply Hv|]; split_and!; [done..|]; intros _; exists code; by rewrite Ev).
  - assert (In s (sessions (create env (lr_tenantId r) (lr_memberId r) d).2)) as Hc.
    { unfold mbind, M_bind, mret, M_ret in Hin. destruct (lr_requires2fa r); by destruct (create _ _ _ d) as [[]]. }
    apply create_opens in Hc as [?|[-> ->]]; [done|]. split_and!; done.
Qed.
End Tokens.

(** ** The installation *)

Section Install.
Context `{Crypto} `{Host}.

Lemma setup_fresh env ck k b d r d' :
  setup env ck k b d = (Ok r, d') → sp_replayed r = false →
  ∃ i, secured i d' ∧ in_result i = Some (sp_result r) ∧ ∃ row, installation d = Some row ∧ in_state row = Claimed
    ∧ lease_live env row = true ∧ same (in_claim_session row) (sha256 (default "" ck)) = true.
Proof.
  unfold setup. intros E Hf. apply bind_ok in E as (tok&s1&[Htok ->]%some_or_throw_ok&E).
  assert (ck = Some tok) as -> by (by destruct (String.eqb (default "" ck) "")). simpl.
  apply (proj1 (transaction_ok _ _ _ _)) in E. apply bind_ok in E as (dg&s1&[= <- <-]&E).
  apply bind_ok in E as (row&s1&[Hrow ->]%some_or_throw_ok&E). destruct (bool_decide (in_state row = Secured)).
  { destruct (_ && _ && _); [|done]. apply bind_ok in E as (?&?&_&E). apply bind_ok in E as (?&?&_&E).
    unfold mret, M_ret in E. by injection E as <- _. }
  apply bind_ok in E as (?&s1&[Hg ->]%throw_if_ok&E). apply bind_ok in E as (?&s1&[Hl ->]%throw_if_ok&E). b2p.
  unfold setup_create in E. apply bind_ok in E as (w&d1&Hw&E). apply createWorkspace_ok in Hw as (_&Hi&_).
  apply bind_ok in E as ([]&d2&Etz&E). apply bind_ok in E as ([]&d3&Eu&E). unfold mret, M_ret in E. injection E as <- <-.
  assert (installation d2 = Some row) as Hi2.
  { rewrite <- Hrow, <- Hi. destruct (su_timezone b) as [tz|]; [destruct (String.eqb tz "")|];
      unfold mret, M_ret, set_timezone, modify in Etz; by injection Etz as <-. }
  unfold update_installation, modify in Eu. injection Eu as <-. unfold secured. simpl. rewrite Hi2. simpl.
  eexists. split_and!; [done..|]. exists row. done.
Qed.

Lemma setup_secured env ck k b d r d' i :
  secured i d → setup env ck k b d = (Ok r, d') →
  sp_replayed r = true ∧ in_result i = Some (sp_result r) ∧ sp_keys r = None ∧ d' = d
  ∧ same (in_claim_session i) (sha256 (default "" ck)) = true ∧ same (in_idempotency_hash i) (sha256 k) = true
  ∧ same (in_request_hash i) (request_hash b) = true.
Proof.
  unfold setup. intros [Hi Hs] E. apply bind_ok in E as (tok&s1&[Htok ->]%some_or_throw_ok&E).
  assert (ck = Some tok) as -> by (by destruct (String.eqb (default "" ck) "")). simpl.
  apply (proj1 (transaction_ok _ _ _ _)) in E. apply bind_ok in E as (dg&s1&[= <- <-]&E).
  apply bind_ok in E as (row&s1&[Hrow ->]%some_or_throw_ok&E). assert (row = i) as -> by congruence.
  rewrite bool_decide_true in E by done. destruct (_ && _ && _) eqn:Eh; [|done]. b2p.
  apply bind_ok in E as (?&s1&[Hq ->]%throw_if_ok&E). apply bind_ok in E as (r0&s1&[Hr ->]%some_or_throw_ok&E). b2p.
  unfold mret, M_ret in E. injection E as <- <-. done.
Qed.

(** An installation is set up once. Setup succeeds only for the browser
    that holds a live claim; from then on the installation row never changes
    again, and every later setup that is answered is the replay of the same
    request by the same browser: the same result, no keys, nothing written. *)
Theorem setup_happens_once env ck k b d r d1 l env2 ck2 k2 b2 r2 d2 :
  setup env ck k b d = (Ok r, d1) → sp_replayed r = false →
  (∃ row, installation d = Some row ∧ in_state row = Claimed ∧ lease_live env row = true
     ∧ same (in_claim_session row) (sha256 (default "" ck)) = true) ∧
  installation (run l d1) = installation d1 ∧
  (setup env2 ck2 k2 b2 (run l d1) = (Ok r2, d2) →
     sp_replayed r2 = true ∧ sp_result r2 = sp_result r ∧ sp_keys r2 = None ∧ d2 = run l d1).
Proof.
  intros E Hf. destruct (setup_fresh _ _ _ _ _ _ _ E Hf) as (i&Hi&Hres&Hrow). split; [done|].
  apply (fs_secured _ _ (run_final l d1)) in Hi as Hi2. split; [by destruct Hi as [-> _], Hi2 as [-> _]|].
  intros (Hp&Hr2&Hk&->&_)%(setup_secured _ _ _ _ _ _ _ i Hi2). split_and!; [done|congruence|done..].
Qed.

(** A claim is exclusive: while its lease lives, every other claim is
    refused, and setup and extension are refused to every other cookie. *)
Theorem claim_is_exclusive env t d ck expires d1 env2 :
  claim env t d = (Ok (ck, expires), d1) → Date_now env2 LeaseCheck < expires →
  (∀ t2 o d2, claim env2 t2 d1 = (o, d2) → is_ok o = false ∧ d2 = d1) ∧
  (∀ ck2 k b o d2, sha256 (default "" ck2) ≠ sha256 ck → setup env2 ck2 k b d1 = (o, d2) → is_ok o = false ∧ d2 = d1) ∧
  (∀ ck2 o d2, sha256 (default "" ck2) ≠ sha256 ck → extend env2 ck2 d1 = (o, d2) → is_ok o = false ∧ d2 = d1).
Proof.
  intros E Hlt. unfold claim in E. apply (proj1 (transaction_ok _ _ _ _)) in E. apply bind_ok in E as (dg&s1&[= <- <-]&E).
  apply bind_ok in E as (row&s1&[Hrow ->]%some_or_throw_ok&E). do 4 (apply bind_ok in E as (?&s1&[_ ->]%throw_if_ok&E)).
  apply bind_ok in E as ([]&s1&Eu&E). unfold mret, M_ret in E. injection E as <- <- <-.
  unfold update_installation, modify in Eu. injection Eu as <-.
  set (i := with_claim env (sha256 (random_token env 0)) (Date_now env LeaseExpiry + CLAIM_TTL_MS) row).
  set (d1 := set_installation _ d). assert (installation d1 = Some i) as Hi by (subst d1; simpl; by rewrite Hrow).
  assert (lease_live env2 i = true) as Hlive.
  { unfold lease_live. simpl. apply Z.ltb_lt. unfold getTime, of_ms. rewrite Z.div_mul; lia. }
  assert (∀ ck2, sha256 ck2 ≠ sha256 (random_token env 0) → same (in_claim_session i) (sha256 ck2) = false) as Hother.
  { intros ck2 Hne. simpl. apply andb_false_iff. right. by apply String.eqb_neq. }
  assert (∀ {A} (m : M Db A) o d2, (∀ a s, m d1 ≠ (Ok a, s)) → transaction m d1 = (o, d2) → is_ok o = false ∧ d2 = d1) as Htx.
  { intros A m o d2 Hno. unfold transaction. destruct (m d1) as [[a|e] s] eqn:Em; [by destruct (Hno a s)|]. by intros [= <- <-]. }
  split_and!.
  - intros t2 o d2. apply Htx. intros a s Ea. apply bind_ok in Ea as (dg&s1&[= <- <-]&Ea).
    apply bind_ok in Ea as (row2&s1&[Hrow2 ->]%some_or_throw_ok&Ea). assert (row2 = i) as -> by congruence.
    do 3 (apply bind_ok in Ea as (?&s1&[_ ->]%throw_if_ok&Ea)). apply bind_ok in Ea as (?&s1&[Hc _]%throw_if_ok&_).
    by rewrite Hlive in Hc.
  - intros ck2 k b o d2 Hne. unfold setup. rewrite readonly_bind_state by apply readonly_some.
    destruct (some_or_throw _ _ d1) as [[tok|e] ?] eqn:Et; [|by intros [= <- <-]]. apply some_or_throw_ok in Et as [Htok _].
    assert (ck2 = Some tok) as -> by (by destruct (String.eqb (default "" ck2) "")).
    apply Htx. intros a s' Ea. apply bind_ok in Ea as (dg&s1&[= <- <-]&Ea).
    apply bind_ok in Ea as (row2&s1&[Hrow2 ->]%some_or_throw_ok&Ea). assert (row2 = i) as -> by congruence.
    rewrite (Hother tok Hne) in Ea. cbn in Ea. apply bind_ok in Ea as (?&s1&[Hc _]%throw_if_ok&_). done.
  - intros ck2 o d2 Hne. unfold extend. rewrite readonly_bind_state by apply readonly_some.
    destruct (some_or_throw _ _ d1) as [[tok|e] ?] eqn:Et; [|by intros [= <- <-]]. apply some_or_throw_ok in Et as [Htok _].
    assert (ck2 = Some tok) as -> by (by destruct (String.eqb (default "" ck2) "")).
    apply Htx. intros a s' Ea. apply bind_ok in Ea as (dg&s1&[= <- <-]&Ea).
    apply bind_ok in Ea as (row2&s1&[Hrow2 ->]%some_or_throw_ok&Ea). assert (row2 = i) as -> by congruence.
    rewrite (Hother tok Hne) in Ea. apply bind_ok in Ea as (?&s1&[Hc _]%throw_if_ok&_). done.
Qed.
End Install.

(** ** Who gets a session *)

Section Opening.
Context `{Crypto} `{Host}.

(** The browser that presents [cookie] holds the claim of installation [row],
    and its lease has not run out. *)
Definition holds_claim (env : Env) (cookie : option string) (row : Installation) : Prop :=
  lease_live env row = true ∧ in_claim_session row = Some (sha256 (default "" cookie)).
(** [tenant] and its member [id] are not in the store. *)
Definition fresh_workspace (tenant id : string) (d : Db) : Prop :=
  (∀ x, In x (members d) → m_id x ≠ id) ∧ (∀ x, In x (tenants d) → tn_id x ≠ tenant).

Lemma same_true o s : same o s = true → o = Some s.
Proof. unfold same. destruct o; [|done]. intros ?. b2p. congruence. Qed.

Lemma login_row email d m t :
  head (login_join email d) = Some (m, t) → In m (members d) ∧ m_status m = MActive ∧ pg_lower (m_email m) = pg_lower email.
Proof.
  intros Hrow. assert (In (m, t) (login_join email d)) as Hin.
  { destruct (login_join email d) as [|row rows]; [done|]. injection Hrow as ->. by left. }
  unfold login_join in Hin. apply in_flat_map in Hin as (y&Hy&Hin). apply in_map_iff in Hin as (z&[= -> ->]&_).
  apply select_In in Hy as [? Hp]. unfold is_active in Hp. by b2p.
Qed.

Lemma setup_source env ck k b d r d1 :
  setup env ck k b d = (Ok r, d1) → ∃ row, installation d = Some row ∧ holds_claim env ck row ∧
    (in_state row = Claimed ∧ fresh_workspace (sr_tenant_id (sp_result r)) (sr_member_id (sp_result r)) d ∨
     in_state row = Secured ∧ in_idempotency_hash row = Some (sha256 k) ∧ in_request_hash row = Some (request_hash b)
       ∧ in_result row = Some (sp_result r)).
Proof.
  unfold setup. intros E. apply bind_ok in E as (tok&s1&[Htok ->]%some_or_throw_ok&E).
  assert (ck = Some tok) as -> by (by destruct (String.eqb (default "" ck) "")). simpl.
  apply (proj1 (transaction_ok _ _ _ _)) in E. apply bind_ok in E as (dg&s1&[= <- <-]&E).
  apply bind_ok in E as (row&s1&[Hrow ->]%some_or_throw_ok&E). exists row. split; [done|]. unfold holds_claim. simpl.
  destruct (bool_decide (in_state row = Secured)) eqn:Es; b2p.
  - destruct (_ && _ && _) eqn:Eh; [|done]. apply andb_true_iff in Eh as [[Hc%same_true Hk%same_true]%andb_true_iff Hl].
    apply bind_ok in E as (?&s1&[Hq ->]%throw_if_ok&E). apply bind_ok in E as (r0&s1&[Hr ->]%some_or_throw_ok&E).
    unfold mret, M_ret in E. injection E as <- <-. apply negb_false_iff, same_true in Hq. split; [done|]. right. done.
  - apply bind_ok in E as (?&s1&[[Hg1 Hg2]%orb_false_iff ->]%throw_if_ok&E). apply bind_ok in E as (?&s1&[Hl ->]%throw_if_ok&E).
    apply negb_false_iff, same_true in Hg2. apply negb_false_iff in Hl. b2p. split; [done|]. left. split; [done|].
    unfold setup_create in E. apply bind_ok in E as (w&d2&Hw&E). apply createWorkspace_ok in Hw as (_&_&_&Ht&Hm&Hfm&Hft).
    apply bind_ok in E as ([]&d3&_&E). apply bind_ok in E as ([]&d4&_&E). unfold mret, M_ret in E. injection E as <- _.
    unfold fresh_workspace. simpl. by rewrite Ht, Hm.
Qed.

Lemma setupResult_source env ck k d r d1 :
  setupResult env ck k d = (Ok r, d1) → ∃ row, installation d = Some row ∧ holds_claim env ck row ∧
    in_state row = Secured ∧ in_idempotency_hash row = Some (sha256 k) ∧ in_result row = Some r.
Proof.
  unfold setupResult. intros E. apply bind_ok in E as (tok&s1&[Htok ->]%some_or_throw_ok&E).
  assert (ck = Some tok) as -> by (by destruct (String.eqb (default "" ck) "")). simpl.
  apply bind_ok in E as (dg&s1&[= <- <-]&E). apply bind_ok in E as (row&s1&[Hrow ->]%some_or_throw_ok&E).
  apply bind_Some in Hrow as (row'&Hi&Hrow). case_bool_decide; [|done]. injection Hrow as ->.
  apply bind_ok in E as (?&s1&[[Hc Hk]%orb_false_iff ->]%throw_if_ok&E). apply bind_ok in E as (?&s1&[Hl ->]%throw_if_ok&E).
  apply some_or_throw_ok in E as [Hr ->]. apply negb_false_iff, same_true in Hc, Hk. apply negb_false_iff in Hl.
  exists row. unfold holds_claim. done.
Qed.

(** C19. Who gets a session. Of all requests, only these open one: a login with
    the password of an active account and, when that account has a second
    factor in use, a code that is accepted, and spent, while the account is not
    locked; a signup, for the founder of a workspace that did not exist; and the
    two setup requests of a self-hosted installation, for the founder, by the
    browser that holds the live claim: when it founds the workspace, or when it
    repeats the finished setup under the same idempotency key (this way no
    password and no second factor is asked). *)
Theorem sessions_are_earned env q d s :
  reachable d → In s (sessions (exec env q d)) → ¬ In (se_token_hash s) (map se_token_hash (sessions d)) →
  match q with
  | RLogin b => ∃ m, In m (members d) ∧ m_id m = se_member s ∧ m_tenant m = se_tenant s ∧ m_status m = MActive
      ∧ pg_lower (m_email m) = pg_lower (lb_email b)
      ∧ argon2_verify (default dummy_hash (m_password_hash m)) (lb_password b) = true
      ∧ (enabled_at (m_totp m) ≠ None → ∃ code v d1, lb_totp b = Some code ∧ locked env (m_totp m) = false
           ∧ accepted env m code d v d1 ∧ members (exec env q d) = members d1 ∧ backup_codes (exec env q d) = backup_codes d1)
  | RSignup _ => cfg_mode env = multi_tenant ∧ fresh_workspace (se_tenant s) (se_member s) d
  | RSetup r idem b => cfg_mode env = single_tenant ∧ ∃ row, installation d = Some row ∧ holds_claim env (h_cookie r) row ∧
      (in_state row = Claimed ∧ fresh_workspace (se_tenant s) (se_member s) d ∨
       in_state row = Secured ∧ in_idempotency_hash row = sha256 <$> idem ∧ in_request_hash row = Some (request_hash b)
         ∧ ∃ res, in_result row = Some res ∧ sr_member_id res = se_member s ∧ sr_tenant_id res = se_tenant s)
  | RSetupResult r idem => cfg_mode env = single_tenant ∧ ∃ row, installation d = Some row ∧ holds_claim env (h_cookie r) row
      ∧ in_state row = Secured ∧ in_idempotency_hash row = sha256 <$> idem
      ∧ ∃ res, in_result row = Some res ∧ sr_member_id res = se_member s ∧ sr_tenant_id res = se_tenant s
  | _ => False
  end.
Proof.
  intros Hr Hin Hnew. pose proof (ns_exec env q d) as Hns.
  destruct q; try (destruct Hnew; apply Hns, in_map; exact Hin); clear Hns; cbn [exec] in *.
  - unfold signup_handler in Hin. rewrite readonly_bind_state in Hin by apply readonly_throw_if.
    destruct (throw_if _ _ d) as [[u|e] s1]; [|by destruct Hnew; apply in_map].
    destruct (opened_by env (signup env body) ws_tenantId ws_memberId (λ w tok, (w, fst tok)) d s (ns_signup env body) Hin Hnew)
      as (w&d1&E&Ht&Hm). unfold signup in E. apply bind_ok in E as (?&s2&[Hmode ->]%throw_if_ok&E). b2p.
    apply (proj1 (transaction_ok _ _ _ _)), createWorkspace_ok in E as (_&_&_&Hwt&Hwm&Hfm&Hft).
    split; [by destruct (cfg_mode env)|]. unfold fresh_workspace. rewrite Ht, Hm, Hwt, Hwm. done.
  - destruct (login_opens env body d s Hin Hnew) as (Hsch&r&Ev&Hm&Ht&Hcode).
    apply verifyLogin_ok in Ev as Ev2. destruct Ev2 as (_&m&t&Hrow&Hpw&->).
    destruct (login_row _ _ _ _ Hrow) as (Hin'&Hact&Hmail). exists m. split_and!; try done. intros Hen.
    cbn [lr_totpEnabled lr_memberId] in Hcode. rewrite bool_decide_true in Hcode by done. destruct (Hcode eq_refl) as (code&Hc&Hok).
    destruct (verifyForLogin env (m_id m) code d) as [o d1] eqn:Ef. cbn [fst] in Hok. subst o.
    apply reachable_team_inv in Hr as Hi. destruct (verify_accepts _ _ _ _ _ Hi Ef) as (m'&v&Hm'&Hid&Hl&Ha).
    assert (m' = m) as -> by (apply (NoDup_map_eq m_id (members d)); [apply Hi|done..]).
    exists code, v, d1. split; [done|]. split; [done|]. split; [done|].
    pose proof (login_factors env body d) as Hs. cbn [checks_code] in Hs. rewrite Hsch, Ev in Hs.
    cbn [fst lr_totpEnabled lr_memberId] in Hs. rewrite bool_decide_true in Hs by done. rewrite Hc in Hs.
    cbn [fmap option_fmap option_map] in Hs. rewrite Ef in Hs. by destruct Hs.
  - unfold setup_handler in Hin.
    rewrite readonly_bind_state in Hin by apply single_readonly. destruct (single env d) as [[u|e] s1] eqn:Esm; [|by destruct Hnew; apply in_map].
    unfold single in Esm. apply throw_if_ok in Esm as [Hmode _]. b2p. split; [done|].
    rewrite readonly_bind_state in Hin by apply transport_readonly.
    destruct (assertLoopbackOrTls env r d) as [[]]; [|by destruct Hnew; apply in_map].
    rewrite readonly_bind_state in Hin by apply readonly_some.
    destruct (some_or_throw _ _ d) as [[key|e] s3] eqn:Ek; [|by destruct Hnew; apply in_map].
    apply some_or_throw_ok in Ek as [Ek _]. apply bind_Some in Ek as (k&->&Hk). destruct (len_between 8 128 k); [|done]. injection Hk as ->.
    do 2 (rewrite readonly_bind_state in Hin by apply readonly_throw_if; destruct (throw_if _ _ d) as [[]]; [|by destruct Hnew; apply in_map]).
    destruct (opened_by env (setup env (h_cookie r) key body) (λ o, sr_tenant_id (sp_result o)) (λ o, sr_member_id (sp_result o))
      (λ w tok, (w, fst tok)) d s (ns_setup env _ _ _) Hin Hnew) as (o&dz&E&Ht&Hm).
    apply setup_source in E as (row&Hrow&Hc&Hor). exists row. split; [done|]. split; [done|]. rewrite Ht, Hm.
    destruct Hor as [?|(?&?&?&?)]; [by left|right]. split_and!; eauto.
  - unfold setupResult_handler in Hin.
    rewrite readonly_bind_state in Hin by apply single_readonly. destruct (single env d) as [[u|e] s1] eqn:Esm; [|by destruct Hnew; apply in_map].
    unfold single in Esm. apply throw_if_ok in Esm as [Hmode _]. b2p. split; [done|].
    rewrite readonly_bind_state in Hin by apply readonly_some.
    destruct (some_or_throw _ _ d) as [[key|e] s3] eqn:Ek; [|by destruct Hnew; apply in_map].
    apply some_or_throw_ok in Ek as [Ek _]. apply bind_Some in Ek as (k&->&Hk). destruct (String.eqb k ""); [done|]. injection Hk as ->.
    destruct (opened_by env (setupResult env (h_cookie r) key) sr_tenant_id sr_member_id
      (λ w tok, (w, fst tok)) d s) as (o&dz&E&Ht&Hm); [apply within_readonly; [apply _|apply setupResult_readonly]|done..|].
    apply setupResult_source in E as (row&Hrow&Hc&Hs&Hk&Hres). exists row. split_and!; [done..|]. exists o. done.
Qed.
End Opening.

(** ** Permissions *)

Section Permissions.
Context `{Crypto} `{Host}.

(** The permission a request's handler declares. *)
Definition required_permission (q : Request) : option Permission :=
  match q with
  | RMembersCreate _ _ | RMembersChangeRole _ _ _ | RMembersRemove _ _ | RTenantSecurity _ _ => Some team_write
  | RTotpReset _ _ => Some member_reset_2fa
  | RTenantDelete _ | RTenantRestore _ => Some tenant_delete
  | _ => None
  end.
(** The handlers that check for an owner or admin themselves. *)
Definition key_request (q : Request) : bool :=
  match q with RRotate _ _ _ | RCreateServerKey _ _ | RRevokeKey _ _ _ => true | _ => false end.

(** The lowest role that has a permission. *)
Definition min_role (p : Permission) : option Role :=
  match p with
  | segments_read | journeys_read | apps_read | users_read | analytics_read => Some Viewer
  | segments_write | journeys_write | journeys_activate => Some Editor
  | in_app_publish | credentials_read | credentials_write | apikeys_read | apikeys_write | apps_write
  | team_read | team_write | settings_write | member_reset_2fa => Some Admin
  | billing_manage | tenant_delete => Some Owner
  end.

Lemma can_min_role s p : can s p = true ↔ ∃ r m, s = role_text r ∧ min_role p = Some m ∧ (rank m <= rank r)%nat.
Proof.
  rewrite can_spec. split.
  - intros (r&->&Hin). exists r. destruct r, p; simpl in Hin; try (exfalso; intuition discriminate);
      eexists; (split_and!; [done|done|simpl; lia]).
  - intros (r&m&->&Hm&Hle). exists r. split; [done|].
    destruct r, p; injection Hm as <-; simpl in *; lia || tauto.
Qed.

Lemma keyadmin_prefix {A} app sm (k : M Db A) d :
  String_in (sm_role sm) KEY_ADMIN_ROLES = false → ((_ ← assertApp app sm; _ ← assertKeyAdmin sm; k) d).2 = d.
Proof.
  intros Hs. assert (readonly (assertApp app sm)) as Ha.
  { unfold assertApp. apply readonly_bind; intros; auto with nudgeon. }
  rewrite readonly_bind_state by done. destruct (assertApp app sm d) as [[u|e] s]; [|done].
  unfold assertKeyAdmin, mbind, M_bind. by rewrite Hs.
Qed.

Lemma rotate_needs_admin env app key sm d :
  String_in (sm_role sm) KEY_ADMIN_ROLES = false →
  ((_ ← rotate_check sm app key; rotate_commit env sm app key) d).2 = d.
Proof.
  intros Hs. assert (readonly (rotate_check sm app key)) as Hr.
  { unfold rotate_check, assertApp, assertKeyAdmin. repeat (apply readonly_bind; intros; auto with nudgeon). }
  rewrite readonly_bind_state by done. destruct (rotate_check sm app key d) as [[u|e] s] eqn:E; [|done].
  unfold rotate_check in E. apply bind_ok in E as (?&s1&_&E). apply bind_ok in E as (?&s2&[Hc _]%throw_if_ok&_).
  by rewrite Hs in Hc.
Qed.

Lemma key_guarded {A} env c (h : SessionMember → M Db A) d :
  (∀ sm, String_in (sm_role sm) KEY_ADMIN_ROLES = false → (h sm d).2 = d) → (guarded env c None h d).2 ≠ d →
  ∃ sm, session_of env c d sm ∧ String_in (sm_role sm) KEY_ADMIN_ROLES = true.
Proof.
  intros Hh Hne. destruct (guarded_inv env c None h d) as [[Heq _]|(sm&Hs&_&Heq)]; [done|]. exists sm. split; [done|].
  apply not_false_iff_true. intros Hf. apply Hne. rewrite Heq. by apply Hh.
Qed.

(** The rows behind a session: the session of the cookie, neither revoked nor
    expired, its active member and its tenant. *)
Record signed_in (env : Env) (c : Caller) (d : Db) (s : Session) (m : Member) (t : Tenant) : Prop := {
  si_session : In s (sessions d); si_token : se_token_hash s = sha256_hex (default "" (cookie c));
  si_unrevoked : se_revoked_at s = None; si_unexpired : pg_now env < se_expires_at s;
  si_member : In m (members d); si_own : m_id m = se_member s; si_active : m_status m = MActive;
  si_tenant : In t (tenants d); si_own_tenant : tn_id t = se_tenant s }.

Lemma session_signed_in env c d sm : session_of env c d sm →
  ∃ s m t, signed_in env c d s m t ∧ sm_role sm = role_text (m_role m) ∧
    (tn_require_2fa t = true → enabled_at (m_totp m) = None → starts_with "/v1/auth/totp" (path_of (url c)) = true).
Proof.
  intros [(s&m&t&Hs&Hl&Hm&Hid&Ha&Ht&Htid&_&_&Hro&Hen&Hrq)%resolve_Some Hgate]. exists s, m, t.
  unfold session_live, is_active in *. b2p. split_and!; [by split|done|].
  intros Hq He. apply Hgate; [congruence|]. rewrite Hen. by rewrite He.
Qed.

(** C21. Authorisation of the account requests: one that runs behind the session
    guard changes the store only when its cookie is the token of a session that
    is neither revoked nor expired, of an active member; the member has a
    second factor in use when the tenant requires one, unless the path is one
    of the enrolment pages; its role is at least the lowest role that has the
    permission the handler declares; and the key requests need an owner or an
    admin. *)
Theorem console_requests_are_authorised env q c d :
  caller_of q = Some c → exec env q d ≠ d →
  ∃ s m t, signed_in env c d s m t
    ∧ (tn_require_2fa t = true → enabled_at (m_totp m) = None → starts_with "/v1/auth/totp" (path_of (url c)) = true)
    ∧ (∀ p, required_permission q = Some p → ∃ lowest, min_role p = Some lowest ∧ (rank lowest <= rank (m_role m))%nat)
    ∧ (key_request q = true → m_role m = Owner ∨ m_role m = Admin).
Proof.
  intros Hc Hne.
  assert (key_request q = true → ∃ sm, session_of env c d sm ∧ String_in (sm_role sm) KEY_ADMIN_ROLES = true) as Hkey.
  { intros Hk. destruct q; try done; injection Hc as ->; cbn [exec] in Hne; unfold rotate, createServerKey, revokeKey in Hne;
      (eapply key_guarded; [|exact Hne]); intros sm Hs; first [by apply keyadmin_prefix|by apply rotate_needs_admin]. }
  assert (∃ sm, session_of env c d sm ∧ ∀ p, required_permission q = Some p → can (sm_role sm) p = true) as (sm&Hs&Hp).
  { destruct q; try done; injection Hc as ->; cbn [exec] in Hne;
      match type of Hne with (?g env _ _ ?h _).2 ≠ _ => idtac | _ => idtac end;
      unfold members_create, members_changeRole, members_remove, totp_enroll, totp_confirm, totp_disable, totp_reset,
        requestDeletion, restore, setSecurity, rotate, createServerKey, revokeKey in Hne;
      match type of Hne with (guarded _ _ ?p ?h _).2 ≠ _ =>
        destruct (guarded_inv env c p h d) as [[Heq _]|(sm&Hs&Hp&_)]; [done|exists sm; split; [done|]] end;
      try (by intros ? [=]); exact Hp. }
  destruct (session_signed_in _ _ _ _ Hs) as (s&m&t&Hin&Hro&Hgate). exists s, m, t. split_and!; [done..| |].
  - intros p Hreq. apply Hp, can_min_role in Hreq as (r&l&Hr&Hl&Hle). exists l. split; [done|].
    assert (r = m_role m) as -> by (apply role_text_inj; congruence). done.
  - intros Hk. destruct (Hkey Hk) as (sm'&Hs'&Hadm). assert (sm' = sm) as -> by (destruct Hs, Hs'; congruence).
    unfold KEY_ADMIN_ROLES in Hadm. rewrite Hro in Hadm. destruct (m_role m); auto; discriminate.
Qed.
End Permissions.
