(* ===== verification/AuthEnrol.v ===== *)
(** * Enrolment, from the QR code to the next login

    The two steps of enrolling a second factor and the first login with it: the
    secret that is shown is the one that is stored (sealed), a code computed
    from it confirms the enrolment, and a later code logs in. *)

From Stdlib Require Import Ascii.
From stdpp Require Import pretty.
From S2P Require Import Prelude JsVal Crypto Authz AuthDb AuthServices Team Bootstrap AuthInv AuthProps AuthFactor.

#[global] Open Scope Z_scope.

(** ** Codes as typed *)

Lemma digit_no_ws c s : is_digit c = true → strip_ws (String c s) = None.
Proof.
  unfold is_digit. intros Hc. b2p. cbn [strip_ws].
  assert ((9 <=? byte c) && (byte c <=? 13) || (byte c =? 32) = false) as -> by
    (apply orb_false_iff; split; [apply andb_false_iff; right; apply Z.leb_gt; lia|apply Z.eqb_neq; lia]).
  destruct s as [|b s]; [done|].
  rewrite (proj2 (Z.eqb_neq (byte c) 194)) by lia. cbn [andb]. destruct s as [|b2 s]; [done|].
  rewrite (proj2 (Z.eqb_neq (byte c) 239)), (proj2 (Z.eqb_neq (byte c) 225)), (proj2 (Z.eqb_neq (byte c) 226)),
    (proj2 (Z.eqb_neq (byte c) 227)) by lia. done.
Qed.

Lemma remove_ws_digits s : str_forallb is_digit s = true → remove_ws s = s.
Proof.
  unfold remove_ws. induction s as [|c s IH]; [done|]. cbn [str_forallb String.length remove_ws_fuel]. intros Hd. b2p.
  rewrite digit_no_ws by done. by rewrite IH.
Qed.

Lemma js_length_digits s : str_forallb is_digit s = true → js_length s = Z.of_nat (String.length s).
Proof.
  induction s as [|c s IH]; [done|]. cbn [str_forallb String.length js_length]. intros Hd. b2p. rewrite IH by done.
  unfold is_digit, code_units in *. b2p. unfold byte in *. rewrite (proj2 (Z.ltb_lt _ 128)) by lia. lia.
Qed.

Section Enrol.
Context `{CryptoLaws} `{Host}.

(** The code of the current step is accepted after any earlier step. *)
Lemma totpAt_accepted secret ms after code :
  -1 <= after → after < counterAt ms → 0 <= ms < 2 ^ 64 → totpAt secret ms = Some code →
  ∃ r, verifyTotp secret code ms after = Some r ∧ vr_ok r = true
    ∧ after < vr_counter r <= counterAt ms + TOTP_WINDOW.
Proof.
  intros Ha Hlt Hms Ht. assert (0 <= counterAt ms < 2 ^ 64) as Hc.
  { unfold counterAt, TOTP_PERIOD. split; [repeat apply Z.div_pos; lia|].
    repeat (apply Z.div_lt_upper_bound; [lia|]). lia. }
  destruct (hotp_spec secret (counterAt ms) Hc) as (_&code'&_&_&_&Hcode&_&Hlen&Hdig).
  assert (code' = code) as -> by (unfold totpAt in Ht; congruence).
  destruct (verifyTotp_spec secret code ms after) as (r&Hr&_&Hok&Hall); [done|lia|].
  rewrite remove_ws_digits in * by done.
  assert (vr_ok r = true) as Ho.
  { apply (Hall (counterAt ms)); [done|unfold TOTP_WINDOW; lia|done|]. by rewrite js_length_digits, Hlen. }
  exists r. destruct (Hok Ho) as (?&?&_). split_and!; [done|done|lia|lia].
Qed.

(** ** Storing the codes *)

Definition fresh_uuids (env : Env) (n : nat) (d : Db) : Prop :=
  (∀ i, (i < n)%nat → ¬ In (uuid env i) (map bc_id (backup_codes d))) ∧
  (∀ i j, (i < j < n)%nat → uuid env i ≠ uuid env j).

Lemma insert_codes_ok env t m codes k d :
  (∀ i, (k <= i < k + length codes)%nat → ¬ In (uuid env i) (map bc_id (backup_codes d))) →
  (∀ i j, (k <= i < j)%nat → (j < k + length codes)%nat → uuid env i ≠ uuid env j) →
  ∃ d', insert_codes env t m k codes d = (Ok tt, d') ∧ members d' = members d.
Proof.
  revert k d. induction codes as [|c codes IH]; intros k d Hf Hd; [by exists d|]. cbn [insert_codes].
  set (row := mkBackup (uuid env k) t m (argon2_hash (salt env k) (normalizeBackupCode toUpperCase c)) None).
  assert (insert_backup row d = (Ok tt, set_backup_codes (backup_codes d ++ [row]) d)) as Hins.
  { unfold insert_backup, mbind, M_bind, get, throw_if, modify. 
    destruct (existsb _ (backup_codes d)) eqn:E; [|done]. apply existsb_exists in E as (x&Hx&Hid). b2p.
    destruct (Hf k); [simpl; lia|]. apply in_map_iff. by exists x. }
  destruct (IH (S k) (set_backup_codes (backup_codes d ++ [row]) d)) as (d'&Hd'&Hm).
  - intros i Hi. simpl. rewrite map_app, in_app_iff. intros [Hin|[Heq|[]]]; [apply (Hf i); [simpl; lia|done]|].
    simpl in Heq. apply (Hd k i); [lia|simpl; lia|done].
  - intros i j Hij Hj. apply Hd; [lia|simpl; lia].
  - exists d'. unfold mbind, M_bind. by rewrite Hins.
Qed.

Lemma insert_codes_members env t m codes k d u d' :
  insert_codes env t m k codes d = (Ok u, d') → members d' = members d.
Proof.
  revert k d. induction codes as [|c codes IH]; intros k d; cbn [insert_codes]; [by intros [= _ <-]|].
  intros E. apply bind_ok in E as (?&d1&[_ ->]%insert_ok&E). by apply IH in E.
Qed.

(** ** The whole enrolment *)

Lemma startEnrollment_ok env tenant id email d b32 uri d1 :
  startEnrollment env tenant id email d = (Ok (b32, uri), d1) →
  ∃ key packed, loadMasterKey (NUDGEON_MASTER_KEY env) (master_key_file env) = Ok key
    ∧ packEnvelope (encryptEnvelope (envelope_random env) key (base64_encode (secret_random env))) = Some packed
    ∧ b32 = base32Encode (secret_random env)
    ∧ (∃ m, select1 (member_at tenant id) (members d) = Some m)
    ∧ d1 = set_members (update_where (member_at tenant id) (set_totp (mkTotp (Some packed) None None 0 None)) (members d)) d.
Proof.
  unfold startEnrollment. intros E. apply bind_ok in E as (dg&s1&[= <- <-]&E).
  apply bind_ok in E as (m&s1&[Hm ->]%some_or_throw_ok&E). apply bind_ok in E as (?&s1&[_ ->]%throw_if_ok&E).
  apply bind_ok in E as (key&s1&Ek&E). unfold master_key in Ek. destruct (loadMasterKey _ _) as [key'|] eqn:Ekey; [|done].
  injection Ek as -> ->. apply bind_ok in E as (packed&s3&[Hp ->]%some_or_throw_ok&E).
  apply bind_ok in E as (?&s4&Eu&E). unfold update_members, modify in Eu. injection Eu as _ <-.
  unfold mret, M_ret in E. injection E as <- _ <-. exists key, packed. split_and!; try done. by exists m.
Qed.

(** Enrolment works end to end: the code an authenticator computes from the
    secret it was shown confirms the enrolment, and any code it computes at a
    later step (two steps on) then passes the second factor. *)
Theorem enrolment_then_login env1 env2 env3 tenant id email d b32 uri d1 code2 code3 :
  reachable d → Forall is_byte (secret_random env1) →
  length (nonce1 (envelope_random env1)) = NONCE_LEN → length (nonce2 (envelope_random env1)) = NONCE_LEN →
  loadMasterKey (NUDGEON_MASTER_KEY env2) (master_key_file env2) = loadMasterKey (NUDGEON_MASTER_KEY env1) (master_key_file env1) →
  loadMasterKey (NUDGEON_MASTER_KEY env3) (master_key_file env3) = loadMasterKey (NUDGEON_MASTER_KEY env1) (master_key_file env1) →
  startEnrollment env1 tenant id email d = (Ok (b32, uri), d1) →
  0 <= Date_now env2 TotpStep → counterAt (Date_now env2 TotpStep) + TOTP_WINDOW < counterAt (Date_now env3 TotpStep) →
  Date_now env2 TotpStep < 2 ^ 64 → 0 <= Date_now env3 TotpStep < 2 ^ 64 →
  totpAt (secret_random env1) (Date_now env2 TotpStep) = Some code2 →
  totpAt (secret_random env1) (Date_now env3 TotpStep) = Some code3 →
  fresh_uuids env2 (length (backup_random env2)) (delete_backup_codes id d1).2 →
  b32 = base32Encode (secret_random env1) ∧
  ∃ d2 d3, confirmEnrollment env2 tenant id code2 d1 = (Ok (generateBackupCodes (backup_random env2)), d2)
    ∧ verifyForLogin env3 id code3 d2 = (Ok true, d3).
Proof.
  intros Hreach Hbytes Hn1 Hn2 Hk2 Hk3 Hstart Hms2 Hlater Hb2 Hms3 Hcode2 Hcode3 [Hfresh Hdist].
  apply startEnrollment_ok in Hstart as (key&packed&Hkey&Hpack&->&(m&Hm)&->). split; [done|].
  pose proof (decryptSecret_spec key _ _ _ Hbytes Hn1 Hn2 Hpack) as Hdec.
  assert (0 <= counterAt (Date_now env2 TotpStep)) as Hc2 by (unfold counterAt, TOTP_PERIOD; repeat apply Z.div_pos; lia).
  destruct (totpAt_accepted _ (Date_now env2 TotpStep) (-1) _ ltac:(lia) ltac:(lia) (conj Hms2 Hb2) Hcode2) as (r2&Hr2&Ho2&Hlt2).
  set (t1 := mkTotp (Some packed) None None 0 None). set (dd := set_members _ d) in *.
  assert (select1 (member_at tenant id) (members dd) = Some (set_totp t1 m)) as Hsel1 by by apply select1_update.
  set (t2 := λ m, mkTotp (secret_enc (m_totp m)) (Some (pg_now env2)) (Some (vr_counter r2)) 0 None).
  set (dm := set_members (update_where (member_at tenant id) (λ m, set_totp (t2 m) m) (members dd)) dd).
  destruct (insert_codes_ok env2 tenant id (generateBackupCodes (backup_random env2)) 0 (delete_backup_codes id dm).2) as (d2&Hd2&Hmem).
  { unfold generateBackupCodes. rewrite length_map. intros i Hi. apply Hfresh. lia. }
  { unfold generateBackupCodes. rewrite length_map. intros i j Hij Hj. apply Hdist. lia. }
  set (m2 := set_totp (t2 (set_totp t1 m)) (set_totp t1 m)).
  assert (select1 (member_at tenant id) (members dm) = Some m2) as Hsel2.
  { by apply (select1_update (member_at tenant id) (λ m, set_totp (t2 m) m)). }
  assert (select1 (member_id id) (members d2) = Some m2) as Hsel3.
  { rewrite Hmem. change (members (delete_backup_codes id dm).2) with (members dm).
    assert (List.NoDup (map m_id (members dm))) as Hnd.
    { simpl. rewrite !members_ids_update by done. by apply reachable_team_inv, ti_ids in Hreach. }
    apply (select1_unique m_id _ _ _ _ Hnd Hsel2).
    - apply select1_Some in Hsel2 as [_ Hp]. unfold member_at, member_id in *. by b2p; subst; apply String.eqb_eq.
    - intros x _ Hx. apply select1_Some in Hsel2 as [_ Hp]. unfold member_at, member_id in *. b2p. congruence. }
  destruct (totpAt_accepted (secret_random env1) (Date_now env3 TotpStep) (vr_counter r2) code3) as (r3&Hr3&Ho3&_);
    [lia|lia|done|done|].
  exists d2. eexists. split.
  - unfold confirmEnrollment, mbind, M_bind, get. rewrite Hsel1. cbn [m_totp set_totp secret_enc enabled_at t1 option_bind some_or_throw].
    unfold mret, M_ret. rewrite bool_decide_false by tauto. cbn [throw_if]. unfold mret, M_ret, master_key. rewrite Hk2, Hkey.
    cbn [lift_outcome]. unfold mret, M_ret. rewrite Hdec. cbn [some_or_throw]. unfold mret, M_ret. rewrite Hr2.
    cbn [some_or_throw]. unfold mret, M_ret. rewrite Ho2. cbn [negb throw_if]. unfold mret, M_ret, transaction, update_members, modify.
    unfold delete_backup_codes at 1, modify.
    match goal with |- context [insert_codes ?a ?b ?c ?k ?l ?s] =>
      change (insert_codes a b c k l s) with (insert_codes a b c k l (delete_backup_codes id dm).2) end.
    by rewrite Hd2.
  - unfold verifyForLogin, transaction, mbind, M_bind, get. rewrite Hsel3.
    cbn [m_totp m2 set_totp t2 t1 enabled_at secret_enc last_counter locked_until]. unfold locked. cbn [locked_until throw_if].
    unfold mret, M_ret, master_key. rewrite Hk3, Hkey. cbn [lift_outcome]. unfold mret, M_ret. rewrite Hdec.
    cbn [some_or_throw]. unfold mret, M_ret. change (default (-1) (Some (vr_counter r2))) with (vr_counter r2). rewrite Hr3. cbn [some_or_throw]. unfold mret, M_ret. rewrite Ho3.
    unfold update_totp, update_members, modify. reflexivity.
Qed.
End Enrol.
