(* ===== verification/AuthRun.v ===== *)
(** * Accounts: a run

    A concrete platform (toy ciphers and hashes that satisfy the laws, ASCII
    case mapping) and a run of the account services on it: a workspace is
    founded, its owner enrols a second factor and adds an admin, the admin
    signs in; and a self-hosted installation is claimed and set up.  The
    theorems of the account files are applied along the run. *)

From Stdlib Require Import Ascii.
From stdpp Require Import pretty.
From S2P Require Import Prelude JsVal Crypto Authz AuthDb AuthServices Team Bootstrap AuthInv AuthProps AuthFactor AuthLife AuthEnrol.

#[global] Open Scope Z_scope.

Module Run.

#[export] Instance toy_crypto : Crypto := {
  gcm_seal _ _ p := (p, replicate 16 0);
  gcm_open _ _ body _ := Some body;
  hmac_sha1 key m := take 20 (map (λ b, b mod 256) (rev m ++ key) ++ replicate 20 7);
  sha256_hex s := "h" +:+ s;
  argon2_hash _ p := p;
  argon2_verify h p := String.eqb h p }.

#[export] Instance toy_laws : CryptoLaws.
Proof.
  split; try done; intros key m; cbn [hmac_sha1 toy_crypto].
  - rewrite length_take, length_app, length_replicate. lia.
  - apply Forall_take, Forall_app. split.
    + apply Forall_forall. intros x Hx. apply list_elem_of_fmap in Hx as (y&->&_). apply Z.mod_pos_bound. lia.
    + apply Forall_replicate. unfold is_byte. lia.
Qed.

#[export] Instance toy_host : Host := {
  toUpperCase := to_upper; toLowerCase := to_lower; pg_lower := to_lower;
  zod_email _ := true; known_time_zone _ := true }.

(** the environment of the request named [n], made at [ms] *)
Definition env_at (mode : Mode) (n : string) (ms : Z) : Env := {|
  Date_now := λ _, ms; pg_now := ms * 1000;
  uuid := λ k, n +:+ "-" +:+ pretty k;
  random_token := λ k, n +:+ "_abcdefghijklmnopqrst" +:+ pretty k;
  salt := λ _, "";
  secret_random := map Z.of_nat (seq 1 20);
  envelope_random := mkEntropy (replicate 32 1) (replicate 12 2) (replicate 12 3);
  backup_random := map (λ k, replicate 7 (Z.of_nat k)) (seq 1 10);
  cfg_mode := mode; cfg_sessionTtlHours := 72; cfg_setupToken := Some "setup-token"; cfg_version := "1";
  cfg_publicBindAddress := "127.0.0.1";
  NUDGEON_MASTER_KEY := Some (base64_encode (replicate 32 9)); master_key_file := None;
  ip := None; user_agent := None; audit_fails := false |}.
Definition at_ := env_at multi_tenant.

Definition owner_body := mkSignup "a@x.io" "password1" "A" "T".
Definition tok (n : string) : string := n +:+ "_abcdefghijklmnopqrst0".
Definition c0 : Caller := mkCaller (Some (tok "e1")) "/v1/auth/totp/enroll".

Definition d1 : Db := exec (at_ "e1" 0) (RSignup owner_body) empty_db.
Definition d2 : Db := exec (at_ "e2" 1000000) (RTotpEnroll c0) d1.
Definition code2 : string := default "" (totpAt (map Z.of_nat (seq 1 20)) 2000000).
Definition d3 : Db := exec (at_ "e3" 2000000) (RTotpConfirm c0 code2) d2.
Definition d4 : Db := exec (at_ "e4" 2100000) (RMembersCreate c0 (mkMemberInput "b@x.io" "B" Admin "password2")) d3.
Definition d5 : Db := exec (at_ "e5" 2200000) (RLogin (mkLoginBody "b@x.io" "password2" None)) d4.
Definition cb : Caller := mkCaller (Some (tok "e5")) "/v1/members".

Lemma reach_d1 : reachable d1. Proof. apply reach_step, reach_empty. Qed.
Lemma reach_d2 : reachable d2. Proof. apply reach_step, reach_d1. Qed.
Lemma reach_d3 : reachable d3. Proof. apply reach_step, reach_d2. Qed.
Lemma reach_d4 : reachable d4. Proof. apply reach_step, reach_d3. Qed.
Lemma reach_d5 : reachable d5. Proof. apply reach_step, reach_d4. Qed.

(** The run does what it says. *)
Example run_d5 : map (λ m, (m_email m, m_role m, enabled_at (m_totp m))) (members d5) =
  [("a@x.io", Owner, Some 2000000000); ("b@x.io", Admin, None)] ∧ length (sessions d5) = 2%nat
  ∧ length (unused_codes "e1-1" d5) = 10%nat.
Proof. split_and!; vm_compute; reflexivity. Qed.

Lemma base32_round_trip_witness : base32Decode (base32Encode [102; 111; 111; 98; 97]) = [102; 111; 111; 98; 97].
Proof.
  apply (Crypto.base32_round_trip [102; 111; 111; 98; 97]). unfold is_byte. repeat constructor; lia.
Defined.

Lemma hotp_is_rfc4226_witness : ∃ code, hotp (map Z.of_nat (seq 1 20)) 66 TOTP_DIGITS = Some code.
Proof. destruct (Crypto.hotp_is_rfc4226 (map Z.of_nat (seq 1 20)) 66) as (code&Hc&_); [lia|by exists code]. Defined.

Lemma tenant_keeps_owner_witness :
  ∃ o, In o (members d5) ∧ m_tenant o = "e1-0" ∧ m_role o = Owner ∧ m_status o = MActive.
Proof.
  apply (AuthProps.tenant_keeps_owner d5 (mkTenant "e1-0" "T" false None None) reach_d5).
  assert (tenants d5 = [mkTenant "e1-0" "T" false None None]) as -> by (vm_compute; reflexivity). by left.
Defined.

(** The admin asks for the owner to be demoted. *)
Definition attack : Request := RMembersChangeRole cb "e1-1" "viewer".
Lemma non_owner_cannot_touch_owners_witness :
  ∃ m, In m (members d5) ∧ m_role m = Owner ∧ In m (members (exec (at_ "e6" 2300000) attack d5)).
Proof.
  destruct (nth_error (members d5) 0) as [m|] eqn:E; [|vm_compute in E; discriminate].
  destruct (AuthLife.non_owner_cannot_touch_owners (at_ "e6" 2300000) attack cb d5 reach_d5 eq_refl) as [_ Hk].
  - intros sm [Hr _]. vm_compute in Hr. injection Hr as <-. discriminate.
  - destruct (Hk m (nth_error_In _ _ E)) as (m'&Hm'&_&Hq); [vm_compute in E; injection E as <-; reflexivity|].
    assert (m' = m) as -> by (apply Hq; discriminate).
    exists m. split; [exact (nth_error_In _ _ E)|]. split; [vm_compute in E; injection E as <-; reflexivity|exact Hm'].
Defined.

(** The owner signs in twice with an authenticator; in between the admin signs
    in, the owner mistypes a code and adds a member. *)
Definition id0 : string := "e1-1".
Definition code_at (ms : Z) : string := default "" (totpAt (map Z.of_nat (seq 1 20)) ms).
Definition owner_login (code : string) : Request := RLogin (mkLoginBody "a@x.io" "password1" (Some code)).
Definition between : list (Env * Request) :=
  [(at_ "f1" 3100000, RLogin (mkLoginBody "b@x.io" "password2" None));
   (at_ "f2" 3200000, owner_login "000000");
   (at_ "f3" 3300000, RMembersCreate c0 (mkMemberInput "c@x.io" "C" Viewer "password3"))].
Definition d6 : Db := run ((at_ "e6" 3000000, owner_login (code_at 3000000)) :: between) d5.

Lemma second_factor_used_once_witness :
  length (sessions d6) = 4%nat ∧
  ∃ m1 v1 m2 v2 s1 s2, accepted (at_ "e6" 3000000) m1 (code_at 3000000) d5 v1 s1
    ∧ accepted (at_ "e7" 4000000) m2 (code_at 4000000) d6 v2 s2 ∧ m_id m1 = id0 ∧ m_id m2 = id0 ∧ later v1 v2.
Proof.
  split; [vm_compute; reflexivity|].
  apply (AuthFactor.second_factor_used_once id0 d5 (at_ "e6" 3000000) (owner_login (code_at 3000000)) (code_at 3000000) between
    (at_ "e7" 4000000) (owner_login (code_at 4000000)) (code_at 4000000) reach_d5).
  - split; vm_compute; reflexivity.
  - vm_compute. reflexivity.
  - split; vm_compute; reflexivity.
Defined.

(** Four wrong codes, the right one, five wrong codes, then a refusal. *)
Definition guess (k : Z) (code : string) : Env * Request := (at_ ("w" +:+ pretty k) (5000000 + k), owner_login code).
Definition guesses : list (Env * Request) :=
  map (λ k, guess (Z.of_nat k) "000000") (seq 0 4) ++ [guess 4 (code_at 5000000)]
  ++ map (λ k, guess (Z.of_nat k) "000000") (seq 5 6).

Lemma guesses_in_window : Forall (λ p, in_window 5000000000 (fst p)) guesses.
Proof. repeat (apply Forall_cons; split; [split; vm_compute; congruence|]). by apply Forall_nil. Qed.

Lemma five_guesses_per_window_witness :
  occurrences (wrong_guess id0) guesses d5 = 9%nat ∧ occurrences (factor_change id0) guesses d5 = 1%nat ∧
  (occurrences (wrong_guess id0) guesses d5 <= 5 * (1 + occurrences (factor_change id0) guesses d5))%nat.
Proof.
  split; [vm_compute; reflexivity|]. split; [vm_compute; reflexivity|].
  exact (AuthFactor.five_guesses_per_window id0 5000000000 guesses d5 reach_d5 guesses_in_window).
Defined.

Definition d8 : Db := exec (at_ "e6" 3000000) (owner_login (code_at 3000000)) d5.
Lemma sessions_are_earned_witness :
  ∃ s m, In s (sessions d8) ∧ In m (members d5) ∧ m_id m = se_member s ∧ argon2_verify (default dummy_hash (m_password_hash m)) "password1" = true
    ∧ (enabled_at (m_totp m) ≠ None → ∃ code v d1, Some (code_at 3000000) = Some code ∧ locked (at_ "e6" 3000000) (m_totp m) = false
         ∧ accepted (at_ "e6" 3000000) m code d5 v d1 ∧ members d8 = members d1 ∧ backup_codes d8 = backup_codes d1).
Proof.
  destruct (nth_error (sessions d8) 2) as [s|] eqn:E; [|vm_compute in E; discriminate].
  pose proof (AuthLife.sessions_are_earned (at_ "e6" 3000000) (owner_login (code_at 3000000)) d5 s reach_d5 (nth_error_In _ _ E)) as Hs.
  vm_compute in E. injection E as <-. destruct Hs as (m&Hm&Hid&_&_&_&Hpw&Hcode).
  - vm_compute. intuition discriminate.
  - eexists _, m. split; [|split; [exact Hm|split; [exact Hid|split; [exact Hpw|exact Hcode]]]].
    vm_compute. right. right. left. reflexivity.
Defined.

(** The owner removes the admin. *)
Definition dr : Db := (members_remove (at_ "e6" 2300000) c0 "e4-0" d5).2.
Lemma revocation_is_immediate_witness : locked_out "e4-0" dr.
Proof.
  apply (AuthLife.revocation_is_immediate (at_ "e6" 2300000) c0 "e4-0" "viewer" d5 1 dr tt reach_d5).
  vm_compute. reflexivity.
Defined.

(** The SDK key of the workspace is rotated, its server key revoked. *)
Definition dk : Db := (revokeKey (at_ "e6" 2300000) c0 "e1-2" "e1-4" d5).2.
Definition r0 : ResolvedApiKey * bool := (mkResolved "e1-3" "e1-0" "e1-2" Sdk Full, true).
Lemma revoked_key_never_resolves_witness :
  resolve_key (at_ "e9" 2500000) "pk_e1_abcdefghijklmnopqrst1" (run [(at_ "e8" 2400000, RModuleInit)] dk) = Some r0
  ∧ rk_id (fst r0) ≠ "e1-4".
Proof.
  split; [vm_compute; reflexivity|].
  apply (AuthLife.revoked_key_never_resolves (at_ "e6" 2300000) c0 "e1-2" "e1-4" d5 tt dk [(at_ "e8" 2400000, RModuleInit)]
    (at_ "e9" 2500000) "pk_e1_abcdefghijklmnopqrst1" r0 reach_d5); vm_compute; reflexivity.
Defined.

Definition drot : Db := (rotate (at_ "e6" 2300000) c0 "e1-2" "e1-3" d5).2.
Lemma rotation_grace_witness :
  ∃ old, In old (api_keys d5) ∧ k_id old = "e1-3" ∧ k_status old = KActive
    ∧ (∀ env' raw, k_hash old = sha256_hex raw → key_format raw = true →
         is_Some (resolve_key env' raw drot) ↔ Date_now env' KeyGrace <= getTime (pg_now (at_ "e6" 2300000) + days 30))
    ∧ ∀ env', is_Some (resolve_key env' "pk_e6_abcdefghijklmnopqrst1" drot).
Proof.
  apply (AuthLife.rotation_grace (at_ "e6" 2300000) c0 "e1-2" "e1-3" d5 "pk_e6_abcdefghijklmnopqrst1" drot reach_d5);
    vm_compute; reflexivity.
Defined.

Lemma console_requests_are_authorised_witness :
  ∃ s m t, signed_in (at_ "e6" 2300000) c0 d5 s m t ∧ m_role m = Owner.
Proof.
  destruct (AuthLife.console_requests_are_authorised (at_ "e6" 2300000) (RTenantDelete c0) c0 d5) as (s&m&t&Hs&_&Hp&_).
  - reflexivity.
  - intros Heq. apply (f_equal (λ d, length (audit_logs d))) in Heq. vm_compute in Heq. discriminate.
  - exists s, m, t. split; [exact Hs|]. destruct (Hp _ eq_refl) as (r&[= <-]&Hr). destruct (m_role m); simpl in *; lia || done.
Defined.

(** A self-hosted installation. *)
Definition self_ := env_at single_tenant.
Definition i1 : Db := exec (self_ "i1" 0) RModuleInit empty_db.
Definition i2 : Db := (claim (self_ "i2" 1000) "setup-token" i1).2.
Definition setup_body := mkSetup "W" "App" "A" "a@x.io" "password1" None.
Definition i3 : Db := (setup (self_ "i3" 2000) (Some (tok "i2")) "idem-key-1" setup_body i2).2.
Definition reply : SetupReply :=
  mkReply (mkSetupResult "i3-0" "i3-2" "i3-1" "i1-5" 2000)
    (Some ("pk_i3_abcdefghijklmnopqrst1", "sk_i3_abcdefghijklmnopqrst2")) false.

Lemma setup_happens_once_witness :
  installation (run [(self_ "i4" 3000, RModuleInit)] i3) = installation i3.
Proof.
  apply (AuthLife.setup_happens_once (self_ "i3" 2000) (Some (tok "i2")) "idem-key-1" setup_body i2 reply i3
    [(self_ "i4" 3000, RModuleInit)] (self_ "i5" 3000) None "" setup_body reply i3); vm_compute; reflexivity.
Defined.

Lemma claim_is_exclusive_witness :
  is_ok (claim (self_ "i3" 2000) "setup-token" i2).1 = false ∧ (claim (self_ "i3" 2000) "setup-token" i2).2 = i2.
Proof.
  apply (AuthLife.claim_is_exclusive (self_ "i2" 1000) "setup-token" i1 (tok "i2") 901000 i2 (self_ "i3" 2000)) with (t2 := "setup-token");
    [vm_compute; reflexivity..|apply surjective_pairing].
Defined.

Lemma enrolment_then_login_witness :
  ∃ d2 d3, confirmEnrollment (at_ "e3" 2000000) "e1-0" id0 (code_at 2000000) d2 = (Ok (generateBackupCodes (backup_random (at_ "e3" 2000000))), d3).
Proof.
  destruct (AuthEnrol.enrolment_then_login (at_ "e2" 1000000) (at_ "e3" 2000000) (at_ "e6" 3000000) "e1-0" id0 "a@x.io" d1
    (base32Encode (map Z.of_nat (seq 1 20))) (otpauthUri "a@x.io" (base32Encode (map Z.of_nat (seq 1 20))))
    (startEnrollment (at_ "e2" 1000000) "e1-0" id0 "a@x.io" d1).2 (code_at 2000000) (code_at 3000000) reach_d1)
    as (_&d2&d3&Hc&_).
  - unfold is_byte. repeat constructor; simpl; lia.
  - reflexivity.
  - reflexivity.
  - reflexivity.
  - reflexivity.
  - vm_compute. reflexivity.
  - simpl. lia.
  - vm_compute. reflexivity.
  - simpl. lia.
  - simpl. lia.
  - vm_compute. reflexivity.
  - vm_compute. reflexivity.
  - split; [intros i _; vm_compute; tauto|].
    intros i j Hij Heq. vm_compute (length _) in Hij.
    do 10 (destruct i as [|i]; [do 10 (destruct j as [|j]; [first [lia|vm_compute in Heq; discriminate]|]); lia|]). lia.
  - eexists _, d2. exact Hc.
Defined.

(** The rotation of the SDK key passes its check, the key is revoked, and the
    rotation commits. *)
Definition owner_session : SessionMember := mkSessionMember "e1-1" "e1-0" "a@x.io" "A" "owner" true false.
Definition drv : Db := (revokeKey (at_ "e7" 2300000) c0 "e1-2" "e1-3" d5).2.
Definition drc : Db := (rotate_commit (at_ "e6" 2300000) owner_session "e1-2" "e1-3" drv).2.
Lemma rotation_undoes_revocation_witness :
  resolve (at_ "e6" 2300000) (tok "e1") d5 = Some owner_session ∧
  ∃ old, In old (api_keys d5) ∧ k_id old = "e1-3" ∧ k_status old = KActive ∧
    ∀ env raw, k_hash old = sha256_hex raw → key_format raw = true →
      resolve_key env raw drv = None ∧
      (is_Some (resolve_key env raw drc) ↔ Date_now env KeyGrace <= getTime (pg_now (at_ "e6" 2300000) + days 30)).
Proof.
  split; [vm_compute; reflexivity|].
  apply (AuthLife.rotation_undoes_revocation (at_ "e6" 2300000) (at_ "e7" 2300000) owner_session c0 "e1-2" "e1-3" d5 d5 drv
    "pk_e6_abcdefghijklmnopqrst1" drc tt tt reach_d5); vm_compute; reflexivity.
Defined.
End Run.
