(* ===== verification/Config.v ===== *)
(** * Configuration of the API process

    [apps/api/src/config.ts]: required settings given inline or by file,
    missing ones collected and reported together, numeric settings checked.
    The state threaded through [required] is the list [missing]. *)

From S2P Require Import Prelude JsVal JsNumber AuthDb.

#[global] Open Scope Z_scope.

Record AppConfig := mkAppConfig {
  port : num;
  databaseUrl : string; redisUrl : string; clickhouseUrl : string;
  mode : Mode;
  sessionTtlHours : num;
  corsOrigin : string;
  readinessTimeoutMs : num; pgConnectTimeoutMs : num;
  journeyGraphV2Enabled : bool; apiKeyUsageCoalesceEnabled : bool;
  setupToken : option string;
  version : string;
  publicBindAddress : option string }.

(** [s || undefined] and truthiness of a nullable string *)
Definition nonempty (s : string) : option string := if String.eqb s "" then None else Some s.
Definition some_text (v : option string) : option string := v ≫= nonempty.

Section Load.
Context (env : string → option string).       (** [process.env] *)
Context (readFileSync : string → option string).  (** a file's text, if it can be read *)

Definition read_file {S} (path : string) : M S string :=
  some_or_throw (readFileSync path) (PlainError ("ENOENT: " +:+ path)).

Definition trimmed (key : string) : option string := some_text (js_trim <$> env key).

Definition required (key : string) : M (list string) string :=
  let inline := trimmed key in
  let file := trimmed (key +:+ "_FILE") in
  _ ← throw_if (bool_decide (is_Some inline) && bool_decide (is_Some file))
        (PlainError (key +:+ " and " +:+ key +:+ "_FILE are both set"));
  v ← match file with
      | Some path => text ← read_file path; mret (nonempty (js_trim text))
      | None => mret inline
      end;
  match v with
  | Some v => mret v
  | None => _ ← modify (λ missing, missing ++ [key]); mret ""
  end.

Definition positiveNumber {S} (value : option string) (fallback : num) (key : string) : M S num :=
  match value with
  | None => mret fallback
  | Some text =>
      let parsed := Number text in
      _ ← throw_if (negb (Number_isSafeInteger parsed) || num_leb parsed (NInt 0) || num_ltb (NInt 2147483647) parsed)
            (PlainError (key +:+ " must be an integer between 1 and 2147483647"));
      mret parsed
  end.

Definition flag (key : string) : bool := bool_decide (env key = Some "true").

Definition loadConfig : M (list string) AppConfig :=
  databaseUrl ← required "DATABASE_URL";
  redisUrl ← required "REDIS_URL";
  clickhouseUrl ← required "CLICKHOUSE_URL";
  token ← match trimmed "NUDGEON_SETUP_TOKEN_FILE" with
          | Some path => read_file path
          | None => mret (default "" (env "NUDGEON_SETUP_TOKEN"))
          end;
  missing ← get;
  _ ← throw_if (bool_decide (missing ≠ [])) (PlainError ("missing: " +:+ join ", " missing));
  readiness ← positiveNumber (env "READINESS_TIMEOUT_MS") (NInt 3000) "READINESS_TIMEOUT_MS";
  connect ← positiveNumber (env "PG_CONNECT_TIMEOUT_MS") (NInt 5000) "PG_CONNECT_TIMEOUT_MS";
  mret {|
    port := Number (default "8080" (env "PORT"));
    databaseUrl := databaseUrl; redisUrl := redisUrl; clickhouseUrl := clickhouseUrl;
    mode := if bool_decide (env "MODE" = Some "single_tenant") then single_tenant else multi_tenant;
    sessionTtlHours := Number (default "72" (env "SESSION_TTL_HOURS"));
    corsOrigin := default "http://localhost:3000" (env "CORS_ORIGIN");
    readinessTimeoutMs := readiness; pgConnectTimeoutMs := connect;
    journeyGraphV2Enabled := flag "JOURNEY_GRAPH_V2_ENABLED";
    apiKeyUsageCoalesceEnabled := flag "API_KEY_USAGE_COALESCE_ENABLED";
    setupToken := nonempty (js_trim token);
    version := default "development" (env "NUDGEON_VERSION");
    publicBindAddress := trimmed "NUDGEON_PUBLIC_BIND_ADDRESS" |}.
End Load.

(** A setting a loaded configuration holds came from its variable or its file. *)
Definition supplied (env : string → option string) (readFileSync : string → option string) (key v : string) : Prop :=
  v ≠ "" ∧
  (trimmed env key = Some v ∧ trimmed env (key +:+ "_FILE") = None ∨
   trimmed env key = None ∧ ∃ path text, trimmed env (key +:+ "_FILE") = Some path ∧
     readFileSync path = Some text ∧ v = js_trim text).

Lemma nonempty_Some s v : nonempty s = Some v → s = v ∧ v ≠ "".
Proof. unfold nonempty. destruct (String.eqb_spec s ""); by intros [= <-]. Qed.

Lemma trimmed_nonempty env key v : trimmed env key = Some v → v ≠ "".
Proof.
  unfold trimmed, some_text. destruct (env key) as [s|]; [|done]. simpl.
  by intros [_ ?]%nonempty_Some.
Qed.

Lemma required_spec env readFileSync key missing v missing' :
  required env readFileSync key missing = (Ok v, missing') →
  (missing' = missing ∧ supplied env readFileSync key v) ∨ missing' = missing ++ [key].
Proof.
  unfold required, supplied, read_file. intros H.
  apply bind_ok in H as ([]&s1&[Hboth ->]%throw_if_ok&H).
  apply bind_ok in H as (w&s2&Hw&H).
  assert (s2 = missing ∧ (∀ v', w = Some v' → supplied env readFileSync key v')) as [-> Hs].
  { unfold supplied. destruct (trimmed env (key +:+ "_FILE")) as [path|] eqn:Hf.
    - apply bind_ok in Hw as (text&s3&[Hr ->]%some_or_throw_ok&[= <- <-]).
      split; [done|]. intros v' [<- ?]%nonempty_Some. split; [done|]. right.
      destruct (trimmed env key) eqn:Hi; [|split; eauto 6].
      by rewrite !bool_decide_eq_true_2 in Hboth by eauto.
    - injection Hw as <- <-. split; [done|]. intros v' Hv. split; [by eapply trimmed_nonempty|]. by left. }
  destruct w as [w|].
  - injection H as <- <-. left. split; [done|]. by apply Hs.
  - apply bind_ok in H as ([]&s3&[= <-]&[= _ <-]). by right.
Qed.

Lemma positiveNumber_ok {S} value fallback key (s s' : S) n :
  positiveNumber value fallback key s = (Ok n, s') →
  s' = s ∧ (n = fallback ∨ Number_isInteger n = true ∧ 1 <= num_to_Z n <= 2147483647).
Proof.
  unfold positiveNumber. destruct value as [text|]; [|intros [= <- <-]; auto].
  intros H. apply bind_ok in H as ([]&s1&[Hc ->]%throw_if_ok&[= <- <-]). split; [done|]. right.
  destruct (Number text) as [| |q] eqn:En; [done..|].
  destruct (Number_isSafeInteger (NFin q)) eqn:Hs; [|done].
  apply Number_isSafeInteger_spec in Hs as [Hi _]. split; [done|].
  rewrite num_leb_int, num_gtb_int in Hc by done. cbn [negb orb] in Hc.
  apply orb_false_iff in Hc as [?%Z.leb_gt ?%Z.ltb_ge]. lia.
Qed.

(** A configuration that loads is complete: the connection settings are
    non-empty and come from exactly one of the variable and its file, and the
    timeouts are integers PostgreSQL and timers accept; settings missing are
    never defaulted silently. *)
Theorem loaded_config_is_complete env readFileSync c missing
  (Hload : loadConfig env readFileSync [] = (Ok c, missing)) :
  missing = [] ∧
  supplied env readFileSync "DATABASE_URL" (databaseUrl c) ∧
  supplied env readFileSync "REDIS_URL" (redisUrl c) ∧
  supplied env readFileSync "CLICKHOUSE_URL" (clickhouseUrl c) ∧
  1 <= num_to_Z (readinessTimeoutMs c) <= 2147483647 ∧
  1 <= num_to_Z (pgConnectTimeoutMs c) <= 2147483647.
Proof.
  unfold loadConfig in Hload.
  apply bind_ok in Hload as (db&s1&Hdb&Hload). apply bind_ok in Hload as (rd&s2&Hrd&Hload).
  apply bind_ok in Hload as (ch&s3&Hch&Hload). apply bind_ok in Hload as (tk&s4&Htk&Hload).
  apply bind_ok in Hload as (mi&s5&[= <- <-]&Hload).
  apply bind_ok in Hload as ([]&s6&[Hm ->]%throw_if_ok&Hload).
  apply bind_ok in Hload as (r&s7&[-> Hr]%positiveNumber_ok&Hload).
  apply bind_ok in Hload as (k&s8&[-> Hk]%positiveNumber_ok&Hload).
  injection Hload as <- <-. apply bool_decide_eq_false, dec_stable in Hm as ->.
  assert (s3 = []) as ->.
  { destruct (trimmed env "NUDGEON_SETUP_TOKEN_FILE"); [|by injection Htk].
    unfold read_file in Htk. by apply some_or_throw_ok in Htk as [_ <-]. }
  apply required_spec in Hch as [[<- Hch]|Hch]; [|by destruct s2].
  apply required_spec in Hrd as [[<- Hrd]|Hrd]; [|by destruct s1].
  apply required_spec in Hdb as [[_ Hdb]|Hdb]; [|done].
  cbn. split; [done|]. do 3 (split; [done|]).
  destruct Hr as [->|[_ ?]], Hk as [->|[_ ?]]; rewrite ?num_to_Z_NInt; lia.
Qed.

Definition sample_env (key : string) : option string :=
  JMap.get [("DATABASE_URL", " postgres://db "); ("REDIS_URL_FILE", "/run/secrets/redis");
            ("CLICKHOUSE_URL", "http://ch:8123"); ("READINESS_TIMEOUT_MS", "2500"); ("MODE", "single_tenant")] key.
Definition sample_files (path : string) : option string :=
  if String.eqb path "/run/secrets/redis" then Some "redis://cache" else None.

Lemma loaded_config_is_complete_witness :
  ∃ c, loadConfig sample_env sample_files [] = (Ok c, []) ∧
    redisUrl c = "redis://cache" ∧ 1 <= num_to_Z (readinessTimeoutMs c) <= 2147483647.
Proof.
  destruct (loadConfig sample_env sample_files []) as [[c|e] m] eqn:E; [|vm_compute in E; discriminate].
  destruct (loaded_config_is_complete sample_env sample_files c m E) as (->&_&_&_&Hr&_).
  exists c. split; [done|]. split; [|exact Hr].
  vm_compute in E. by injection E as <-.
Defined.
