(* ===== verification/RateLimit.v ===== *)
(** * Rate limiting of the ingestion API

    [rate-limit/rate-limit.service.ts] (the token bucket script Redis runs
    atomically and [RateLimitService.check] over the layers) and
    [rate-limit/rate-limit.guard.ts] (limits, layers, headers, 429).

    A bucket is the Redis hash the script keeps ([tokens], [ts]) with the
    expiry [PEXPIRE] gives its key.  Redis expires a key on its own clock
    ([redis_ms]); the script's [now_ms] is the API server's [Date.now()].
    Token counts are exact rationals. *)

From Stdlib Require Import QArith Qround Qminmax Lqa Sorted.
From stdpp Require Import pretty sorting.
From S2P Require Import Prelude JsVal JsNumber Crypto Authz AuthDb AuthServices Team.

#[global] Open Scope Z_scope.

(** ** The script *)

Record Bucket := mkBucket { tokens : Q; ts : Z; expires_at : Z }.
Abbreviation Redis := (gmap string Bucket).

(** [HMGET]: the fields of a key that has not expired. *)
Definition HMGET (redis_ms : Z) (key : string) (s : Redis) : option Bucket :=
  match s !! key with
  | Some b => if redis_ms <? expires_at b then Some b else None
  | None => None
  end.

(** [tokens] after the refill, before the cost is taken. *)
Definition refill (rate burst : Q) (now_ms : Z) (b : option Bucket) : Q :=
  let '(t, last) := match b with Some b => (tokens b, ts b) | None => (burst, now_ms) end in
  Qmin burst (t + inject_Z (now_ms - last) / 1000 * rate).

(** [PEXPIRE key ttl] *)
Definition ttl (rate burst : Q) : Z := Z.max 60000 (Qceiling (burst / rate * 2000)).

Record ScriptReply := mkReply { sr_allowed : Z; sr_tokens : Z; sr_retry_ms : Z }.

Definition TOKEN_BUCKET_LUA (redis_ms : Z) (key : string) (rate burst : Q) (now_ms : Z) (cost : Q)
    (s : Redis) : ScriptReply * Redis :=
  let t := refill rate burst now_ms (HMGET redis_ms key s) in
  let '(allowed, retry_ms, t') :=
    if Qle_bool cost t then (1, 0, (t - cost)%Q)
    else (0, Qceiling ((cost - t) / rate * 1000), t) in
  (mkReply allowed (Qfloor t') retry_ms,
   <[ key := mkBucket t' now_ms (redis_ms + ttl rate burst) ]> s).

(** ** [RateLimitService.check] *)

Record RateLimitDecision := mkDecision {
  allowed : bool; limit : Q; remaining : Z; retryAfterSec : Z; layer : string }.

Record LayerConfig := mkLayer { l_name : string; l_key : string; l_rps : Q; l_burst : Q }.

(** The decision of one layer. *)
Definition layer_decision (l : LayerConfig) (r : ScriptReply) : RateLimitDecision :=
  mkDecision (sr_allowed r =? 1) (l_rps l) (sr_tokens r)
    (Z.max 1 (Qceiling (inject_Z (sr_retry_ms r) / 1000))) (l_name l).

Definition redis_key (l : LayerConfig) : string := "rl:" +:+ l_key l.

(** [redis_ms] is the Redis clock at the time of each script call. *)
Fixpoint check_loop (redis_ms : nat → Z) (now : Z) (layers : list LayerConfig)
    (tightest : option RateLimitDecision) (s : Redis) : RateLimitDecision * Redis :=
  match layers with
  | [] => (default (mkDecision true 0 0 0 "none") tightest, s)
  | l :: rest =>
      let '(r, s') := TOKEN_BUCKET_LUA (redis_ms O) (redis_key l) (l_rps l) (l_burst l) now 1 s in
      let decision := layer_decision l r in
      if negb (allowed decision) then (decision, s')
      else
        check_loop (λ n, redis_ms (S n)) now rest
          (match tightest with
           | Some t => if remaining decision <? remaining t then Some decision else tightest
           | None => Some decision
           end) s'
  end.

Definition check (redis_ms : nat → Z) (now : Z) (layers : list LayerConfig) (s : Redis)
  : RateLimitDecision * Redis := check_loop redis_ms now layers None s.

(** ** [RateLimitGuard] *)

Record Limits := mkLimits { tenantRps : Q; keyRps : Q; deviceRps : Q }.

(** The variables of [process.env] the guard reads. *)
Record LimitEnv := mkLimitEnv {
  RATE_LIMIT_TENANT_RPS : option string;
  RATE_LIMIT_KEY_RPS : option string;
  RATE_LIMIT_DEVICE_RPS : option string }.

Definition limits_n (v : option string) (d : Q) : Q :=
  match Number_of v with
  | NFin parsed => if Qle_bool parsed 0 then d else parsed
  | _ => d
  end.

Definition limits (env : LimitEnv) : Limits :=
  mkLimits (limits_n (RATE_LIMIT_TENANT_RPS env) 1000)
           (limits_n (RATE_LIMIT_KEY_RPS env) 500)
           (limits_n (RATE_LIMIT_DEVICE_RPS env) 20).

(** [v?.name]: a property read; a string has none of the names used here. *)
Definition js_prop (v : jsval) (name : string) : jsval :=
  match v with
  | JObj fields => default JUndef (JMap.get fields name)
  | _ => JUndef
  end.

(** [req.body?.device?.device_id]; [text] is the conversion of a value in a
    template literal. *)
Definition body_device_id (body : jsval) : jsval := js_prop (js_prop body "device") "device_id".

Definition guard_layers (text : jsval → string) (env : LimitEnv) (key : ResolvedApiKey) (body : jsval)
  : list LayerConfig :=
  let cfg := limits env in
  let deviceId := body_device_id body in
  [mkLayer "tenant" ("t:" +:+ rk_tenantId key) (tenantRps cfg) (tenantRps cfg * 2)%Q;
   mkLayer "key" ("k:" +:+ rk_id key) (keyRps cfg) (keyRps cfg * 2)%Q]
  ++ (if bool_decide (rk_kind key = Sdk) && truthy deviceId
      then [mkLayer "device" ("d:" +:+ text deviceId) (deviceRps cfg) (deviceRps cfg * 2)%Q] else []).

(** The response headers the guard sets. *)
Record Headers := mkHeaders { X_RateLimit_Limit : Q; X_RateLimit_Remaining : Z; Retry_After : option Z }.

Definition RateLimitGuard (text : jsval → string) (env : LimitEnv) (redis_ms : nat → Z) (now : Z)
    (apiKey : option ResolvedApiKey) (body : jsval) (s : Redis)
  : outcome bool * option Headers * Redis :=
  match apiKey with
  | None => (Ok true, None, s)
  | Some key =>
      let '(decision, s') := check redis_ms now (guard_layers text env key body) s in
      let h := mkHeaders (limit decision) (Z.max 0 (remaining decision))
                 (if allowed decision then None else Some (retryAfterSec decision)) in
      (if allowed decision then Ok true
       else Throw (HttpException 429 ("rate limit exceeded (" +:+ layer decision +:+ ")")), Some h, s')
  end.

(** ** Rate limiting: what a client can get through

    The level of a bucket is what a request arriving now would find in it.
    Lemmas: an expired bucket would have been full anyway (the expiry is twice
    the refill time and at least a minute, so clocks up to fifteen seconds
    apart make no difference), a script call takes exactly the cost of the
    requests it admits, and the level grows by the rate.  The guard's bounds
    and the exactness of the retry delay follow. *)
(** ** The level of a bucket *)

Section Level.
Context (rate burst : Q) (key : string).
Hypothesis rate_pos : (0 < rate)%Q.
Hypothesis burst_nonneg : (0 <= burst)%Q.

(** The clocks of Redis and of the API servers differ by at most this. *)
Definition skew : Z := 15000.

Definition level (now : Z) (s : Redis) : Q := refill rate burst now (s !! key).

(** A bucket written by the script with this rate and burst, not after [now]. *)
Definition fair (now : Z) (s : Redis) : Prop :=
  ∀ b, s !! key = Some b →
    (0 <= tokens b <= burst)%Q ∧ ts b <= now ∧ ts b - skew + ttl rate burst <= expires_at b.

Lemma elapsed_nonneg d : 0 <= d → (0 <= inject_Z d / 1000 * rate)%Q.
Proof.
  intros Hd. apply Qmult_le_0_compat; [|lra].
  apply Qle_shift_div_l; [lra|]. rewrite Qmult_0_l. change 0%Q with (inject_Z 0). by rewrite <- Zle_Qle.
Qed.

Lemma elapsed_zero t : (inject_Z (t - t) / 1000 * rate == 0)%Q.
Proof. rewrite Z.sub_diag. change (inject_Z 0) with 0%Q. field. Qed.

Lemma elapsed_full d : (burst / rate * 1000 <= inject_Z d)%Q → (burst <= inject_Z d / 1000 * rate)%Q.
Proof.
  intros Hd. apply (Qmult_le_compat_r _ _ (rate / 1000)) in Hd.
  - assert (burst / rate * 1000 * (rate / 1000) == burst)%Q as E by (field; lra).
    assert (inject_Z d / 1000 * rate == inject_Z d * (rate / 1000))%Q as E' by field.
    by rewrite E', <- E.
  - apply Qle_shift_div_l; lra.
Qed.

Lemma Qmin_le_l' p q r : (p <= r)%Q → (Qmin p q <= r)%Q.
Proof. intros. eapply Qle_trans; [apply Q.le_min_l|done]. Qed.
Lemma Qmin_le_r' p q r : (q <= r)%Q → (Qmin p q <= r)%Q.
Proof. intros. eapply Qle_trans; [apply Q.le_min_r|done]. Qed.

Lemma level_bounds now s : fair now s → (0 <= level now s <= burst)%Q.
Proof.
  unfold level, refill. intros Hf. destruct (s !! key) as [b|] eqn:Hb.
  - destruct (Hf b Hb) as (Ht&Hle&_).
    pose proof (elapsed_nonneg (now - ts b) ltac:(lia)). split.
    + apply Q.min_glb; lra.
    + apply Qmin_le_l'. lra.
  - pose proof (elapsed_zero now). split.
    + apply Q.min_glb; lra.
    + apply Qmin_le_l'. lra.
Qed.

(** The level rises by the rate and no faster. *)
Lemma level_later now now' s : now <= now' →
  (level now' s <= level now s + inject_Z (now' - now) / 1000 * rate)%Q.
Proof.
  intros Hle. pose proof (elapsed_nonneg (now' - now) ltac:(lia)) as He.
  unfold level, refill. destruct (s !! key) as [b|].
  - rewrite <- (Q.plus_min_distr_r burst). apply Q.min_glb; [apply Qmin_le_l'; lra|apply Qmin_le_r'].
    replace (now' - ts b) with ((now - ts b) + (now' - now)) by lia.
    rewrite inject_Z_plus. unfold Qdiv. lra.
  - apply Qmin_le_l'. rewrite Q.min_l.
    + lra.
    + rewrite elapsed_zero. lra.
Qed.

Lemma fair_later now now' s : now <= now' → fair now s → fair now' s.
Proof. intros ? Hf b Hb. destruct (Hf b Hb) as (?&?&?). repeat split; try tauto; lia. Qed.

Lemma ttl_enough : (burst / rate * 1000 <= inject_Z (ttl rate burst - 2 * skew))%Q.
Proof.
  unfold ttl, skew. set (c := Qceiling (burst / rate * 2000)).
  pose proof (Qle_ceiling (burst / rate * 2000)) as Hc. fold c in Hc.
  assert (H2 : (c <= 2 * (Z.max 60000 c - 2 * 15000))%Z) by lia.
  rewrite Zle_Qle, inject_Z_mult in H2. change (inject_Z 2) with 2%Q in H2. lra.
Qed.

(** Expiry makes no difference. *)
Lemma expiry_is_full redis_ms now s : fair now s → redis_ms <= now + skew →
  (refill rate burst now (HMGET redis_ms key s) == level now s)%Q.
Proof.
  intros Hf Hr. unfold level, HMGET. destruct (s !! key) as [b|] eqn:Hb; [|reflexivity].
  destruct (Z.ltb_spec redis_ms (expires_at b)) as [|Hexp]; [reflexivity|].
  destruct (Hf b Hb) as (Ht&Hle&Hx). unfold refill.
  assert (burst <= inject_Z (now - ts b) / 1000 * rate)%Q as Hfull.
  { apply elapsed_full. eapply Qle_trans; [apply ttl_enough|]. rewrite <- Zle_Qle. unfold skew in *. lia. }
  pose proof (elapsed_zero now).
  rewrite !Q.min_l by lra. reflexivity.
Qed.

(** A call of the script on this key. *)
Lemma script_level redis_ms now cost s r s' :
  (0 <= cost)%Q → fair now s → now - skew <= redis_ms <= now + skew →
  TOKEN_BUCKET_LUA redis_ms key rate burst now cost s = (r, s') →
  fair now s' ∧ (level now s' + inject_Z (sr_allowed r) * cost == level now s)%Q
  ∧ (sr_allowed r = 1 ∧ (cost <= level now s)%Q
     ∨ sr_allowed r = 0 ∧ (level now s < cost)%Q
       ∧ sr_retry_ms r = Qceiling ((cost - level now s) / rate * 1000)).
Proof.
  intros Hc Hf Hr. unfold TOKEN_BUCKET_LUA.
  pose proof (expiry_is_full redis_ms now s Hf ltac:(lia)) as Ht.
  pose proof (level_bounds now s Hf) as Hb.
  set (t := refill _ _ _ _) in *.
  assert (∀ t' : Q, (0 <= t' <= burst)%Q →
    let s' := <[key:=mkBucket t' now (redis_ms + ttl rate burst)]> s in
    fair now s' ∧ (level now s' == t')%Q) as Hset.
  { intros t' Ht' s1. subst s1. split.
    - intros b. rewrite lookup_insert_eq. intros [= <-]. simpl. repeat split; try tauto; lia.
    - unfold level. rewrite lookup_insert_eq. unfold refill. cbn [tokens ts].
      rewrite elapsed_zero, Q.min_r; lra. }
  destruct (Qle_bool cost t) eqn:Hle.
  - apply Qle_bool_iff in Hle. intros [= <- <-]. cbn [sr_allowed]. change (inject_Z 1) with 1%Q.
    destruct (Hset (t - cost)%Q) as [? HL]; [split; lra|]. rewrite HL.
    split; [done|]. split; [lra|]. left. split; [done|lra].
  - assert (¬ (cost <= t)%Q) as Hlt%Qnot_le_lt by (rewrite <- Qle_bool_iff; congruence).
    intros [= <- <-]. cbn [sr_allowed sr_retry_ms]. change (inject_Z 0) with 0%Q. destruct (Hset t) as [? HL]; [split; lra|]. rewrite HL.
    split; [done|]. split; [lra|]. right. split; [done|]. split; [lra|].
    apply Qceiling_comp. by rewrite Ht.
Qed.

Lemma script_other redis_ms key' rate' burst' now cost s r s' : key' ≠ key →
  TOKEN_BUCKET_LUA redis_ms key' rate' burst' now cost s = (r, s') → s' !! key = s !! key.
Proof.
  intros Hk. unfold TOKEN_BUCKET_LUA. destruct (if Qle_bool _ _ then _ else _) as [[??]?].
  intros [= _ <-]. by rewrite lookup_insert_ne.
Qed.

Lemma script_bucket redis_ms now cost s r s' :
  TOKEN_BUCKET_LUA redis_ms key rate burst now cost s = (r, s') →
  ∃ b, s' !! key = Some b ∧ ts b = now.
Proof.
  unfold TOKEN_BUCKET_LUA. destruct (if Qle_bool _ _ then _ else _) as [[??]?].
  intros [= _ <-]. eexists. by rewrite lookup_insert_eq.
Qed.

(** The level of a bucket touched at [now], [d] ms later. *)
Lemma level_after now d s b : fair now s → s !! key = Some b → ts b = now → 0 <= d →
  (level (now + d) s == Qmin burst (level now s + inject_Z d / 1000 * rate))%Q.
Proof.
  intros Hf Hb Ht Hd. destruct (Hf b Hb) as ([? ?]&_&_).
  unfold level, refill. rewrite Hb, Ht, elapsed_zero, Z.add_simpl_l.
  by rewrite (Q.min_r burst (tokens b + 0)), Qplus_0_r by lra.
Qed.

Lemma Qceiling_le q d : Qceiling q <= d ↔ (q <= inject_Z d)%Q.
Proof.
  split; intros H.
  - eapply Qle_trans; [apply Qle_ceiling|]. by rewrite <- Zle_Qle.
  - rewrite <- (Qceiling_Z d). by apply Qceiling_resp_le.
Qed.

(** Waiting [d] ms fills a gap of [g] exactly when [d] reaches the delay. *)
Lemma delay_le g d : Qceiling (g / rate * 1000) <= d ↔ (g <= inject_Z d / 1000 * rate)%Q.
Proof.
  rewrite Qceiling_le.
  assert (inject_Z d == inject_Z d / 1000 * 1000)%Q as E by field. rewrite E at 1.
  rewrite Qmult_le_r by lra. split; intros H.
  - apply (Qmult_le_compat_r _ _ rate) in H; [|lra].
    assert (g / rate * rate == g)%Q as E' by (field; lra). by rewrite E' in H.
  - apply Qle_shift_div_r; [done|exact H].
Qed.

(** ** One [check] *)

Definition near (redis_ms : nat → Z) (now : Z) : Prop := ∀ n, now - skew <= redis_ms n <= now + skew.

(** Layers on this key have this rate and burst. *)
Definition agree (layers : list LayerConfig) : Prop :=
  ∀ l, In l layers → redis_key l = key → l_rps l = rate ∧ l_burst l = burst.

Definition takes (layers : list LayerConfig) (d : RateLimitDecision) : Q :=
  if allowed d && existsb (λ l, String.eqb (redis_key l) key) layers then 1 else 0.

Lemma check_loop_level now layers : ∀ redis_ms tightest s d s',
  near redis_ms now → agree layers → fair now s →
  check_loop redis_ms now layers tightest s = (d, s') →
  fair now s' ∧ (level now s' + takes layers d <= level now s)%Q.
Proof.
  induction layers as [|l rest IH]; intros redis_ms tightest s d s' Hn Ha Hf; cbn [check_loop].
  { intros [= <- <-]. split; [done|]. unfold takes. rewrite andb_false_r. lra. }
  destruct (TOKEN_BUCKET_LUA _ _ _ _ _ _ s) as [r s1] eqn:E.
  assert (fair now s1 ∧ (level now s1 + (if (sr_allowed r =? 1) && String.eqb (redis_key l) key then 1 else 0)
            <= level now s)%Q) as [Hf1 H1].
  { destruct (String.eqb_spec (redis_key l) key) as [Hk|Hk].
    - destruct (Ha l (or_introl eq_refl) Hk) as [Hrate Hburst].
      rewrite Hrate, Hburst, Hk in E. pose proof (Hn O).
      apply script_level in E as (?&?&[[Hal ?]|[Hal ?]]); try lra; try lia; try done;
        rewrite Hal in *; split; try done;
          try change (inject_Z 1) with 1%Q in *; try change (inject_Z 0) with 0%Q in *; simpl; lra.
    - apply script_other in E; [|done]. rewrite andb_false_r. unfold fair, level. rewrite E.
      split; [done|lra]. }
  destruct (sr_allowed r =? 1) eqn:Hal; cbn [layer_decision allowed]; rewrite Hal; cbn [negb].
  - intros Hrest. apply IH in Hrest as [? H2]; try done.
    + split; [done|]. unfold takes in *. cbn [existsb].
      cbn [andb] in H1. destruct (allowed d), (String.eqb (redis_key l) key), (existsb _ rest); simpl in *; lra.
    + intros n. apply (Hn (S n)).
    + intros l' Hl'. apply Ha. by right.
  - intros [= <- <-]. split; [done|]. unfold takes. cbn [layer_decision allowed]. rewrite Hal. simpl in *. lra.
Qed.
End Level.

(** ** Requests through the guard *)

(** A request as it reaches the guard. *)
Record Request := mkRequest {
  rq_redis : nat → Z; rq_now : Z; rq_key : option ResolvedApiKey; rq_body : jsval }.

Section Guard.
Context (text : jsval → string) (env : LimitEnv).

Definition serve (rq : Request) (s : Redis) : outcome bool * option Headers * Redis :=
  RateLimitGuard text env (rq_redis rq) (rq_now rq) (rq_key rq) (rq_body rq) s.

Definition serve_all (rqs : list Request) (s : Redis) : Redis := fold_left (λ s rq, (serve rq s).2) rqs s.

(** How many of the requests that satisfy [p] the guard lets through. *)
Fixpoint admitted (p : Request → bool) (rqs : list Request) (s : Redis) : Z :=
  match rqs with
  | [] => 0
  | rq :: rest =>
      let '(o, _, s') := serve rq s in
      (if is_ok o && p rq then 1 else 0) + admitted p rest s'
  end.

Definition layers_of (rq : Request) : list LayerConfig :=
  match rq_key rq with Some k => guard_layers text env k (rq_body rq) | None => [] end.

(** The key of a layer of the guard, its rate, and the requests it counts. *)
Record Counted := mkCounted { c_key : string; c_rate : Q; c_requests : Request → bool }.

Definition by_tenant (t : string) : Counted :=
  mkCounted ("rl:t:" +:+ t) (tenantRps (limits env))
    (λ rq, match rq_key rq with Some k => String.eqb (rk_tenantId k) t | None => false end).
Definition by_key (i : string) : Counted :=
  mkCounted ("rl:k:" +:+ i) (keyRps (limits env))
    (λ rq, match rq_key rq with Some k => String.eqb (rk_id k) i | None => false end).
Definition by_device (d : string) : Counted :=
  mkCounted ("rl:d:" +:+ d) (deviceRps (limits env))
    (λ rq, match rq_key rq with
           | Some k => bool_decide (rk_kind k = Sdk) && truthy (body_device_id (rq_body rq))
                       && String.eqb (text (body_device_id (rq_body rq))) d
           | None => false end).

(** A layer counts the requests whose layers hold its key, at its rate and with
    a burst of twice the rate. *)
Definition counts (c : Counted) : Prop :=
  (0 < c_rate c)%Q ∧
  ∀ rq, agree (c_rate c) (c_rate c * 2) (c_key c) (layers_of rq) ∧
        existsb (λ l, String.eqb (redis_key l) (c_key c)) (layers_of rq) = c_requests c rq.

Lemma limits_n_pos v d : (0 < d)%Q → (0 < limits_n v d)%Q.
Proof.
  intros Hd. unfold limits_n. destruct (Number_of v) as [| |q]; try done.
  destruct (Qle_bool q 0) eqn:E; [done|].
  apply Qnot_le_lt. rewrite <- Qle_bool_iff. congruence.
Qed.

Lemma counts_intro c : (0 < c_rate c)%Q →
  (∀ rq k, rq_key rq = Some k →
    Forall (λ l, redis_key l = c_key c → l_rps l = c_rate c ∧ l_burst l = (c_rate c * 2)%Q)
      (guard_layers text env k (rq_body rq))
    ∧ existsb (λ l, String.eqb (redis_key l) (c_key c)) (guard_layers text env k (rq_body rq)) = c_requests c rq) →
  (∀ rq, rq_key rq = None → c_requests c rq = false) → counts c.
Proof.
  intros Hr Hs Hn. split; [done|]. intros rq. unfold layers_of. destruct (rq_key rq) as [k|] eqn:E.
  - destruct (Hs rq k E) as [Hf He]. split; [|done]. intros l Hl. rewrite Forall_forall in Hf.
    apply Hf. by apply list_elem_of_In.
  - split; [by intros ? []|]. by rewrite Hn.
Qed.

Lemma counts_layers t i d : counts (by_tenant t) ∧ counts (by_key i) ∧ counts (by_device d).
Proof.
  split; [|split]; (apply counts_intro;
    [by apply limits_n_pos| |intros rq E; cbn [c_requests by_tenant by_key by_device]; by rewrite E]);
    intros rq k E; unfold guard_layers; cbn [c_requests c_key c_rate by_tenant by_key by_device];
    rewrite E; unfold redis_key; destruct (bool_decide _ && truthy _);
    (split; [cbn; repeat (apply Forall_cons; split; [first [done|by intros H; inversion H]|]); apply Forall_nil_2|]);
    cbn -[truthy]; by rewrite ?orb_false_r, ?orb_true_r.
Qed.

Lemma serve_level c rq s :
  counts c → near (rq_redis rq) (rq_now rq) →
  let lv := level (c_rate c) (c_rate c * 2) (c_key c) (rq_now rq) in
  fair (c_rate c) (c_rate c * 2) (c_key c) (rq_now rq) s →
  let '(o, _, s') := serve rq s in
  fair (c_rate c) (c_rate c * 2) (c_key c) (rq_now rq) s' ∧
  (lv s' + inject_Z (if is_ok o && c_requests c rq then 1 else 0) <= lv s)%Q.
Proof.
  intros [Hpos Hc] Hn lv Hf. destruct (Hc rq) as [Ha He]. unfold serve, RateLimitGuard, layers_of in *.
  destruct (rq_key rq) as [k|].
  - destruct (check _ _ _ s) as [d s'] eqn:E.
    apply (check_loop_level (c_rate c) (c_rate c * 2) (c_key c)) in E as [Hf' Hl]; try done; [|lra].
    split; [done|]. unfold takes in Hl. rewrite He in Hl. unfold lv.
    destruct (allowed d), (c_requests c rq); exact Hl.
  - simpl in He. rewrite <- He. split; [done|]. simpl. apply Qle_lteq. right. apply Qplus_0_r.
Qed.

Lemma admitted_bounded c t1 rqs : ∀ t0 s,
  counts c → (∀ rq, In rq rqs → near (rq_redis rq) (rq_now rq) ∧ rq_now rq <= t1) →
  Sorted Z.le (t0 :: map rq_now rqs) → t0 <= t1 →
  fair (c_rate c) (c_rate c * 2) (c_key c) t0 s →
  (inject_Z (admitted (c_requests c) rqs s)
   <= level (c_rate c) (c_rate c * 2) (c_key c) t0 s + inject_Z (t1 - t0) / 1000 * c_rate c)%Q.
Proof.
  induction rqs as [|rq rest IH]; intros t0 s Hc Hn Hs Ht Hf; pose proof (proj1 Hc) as Hpos.
  { pose proof (level_bounds (c_rate c) (c_rate c * 2) (c_key c) Hpos ltac:(lra) t0 s Hf).
    pose proof (elapsed_nonneg (c_rate c) Hpos (t1 - t0) ltac:(lia)).
    cbn [admitted]. change (inject_Z 0) with 0%Q. lra. }
  inversion Hs as [|? ? Hs' Hhd]; subst. inversion Hhd as [|? ? Hle]; subst.
  destruct (Hn rq (or_introl eq_refl)) as [Hnr Hr1].
  pose proof (level_later (c_rate c) (c_rate c * 2) (c_key c) Hpos _ _ s Hle) as Hlater.
  pose proof (serve_level c rq s Hc Hnr ltac:(eapply fair_later; eauto)) as Hserve.
  cbn [admitted]. destruct (serve rq s) as [[o h] s']. destruct Hserve as [Hf' Hl].
  pose proof (IH (rq_now rq) s' Hc (λ r Hr, Hn r (or_intror Hr)) Hs' Hr1 Hf') as Hrest.
  rewrite inject_Z_plus.
  replace (t1 - t0) with ((rq_now rq - t0) + (t1 - rq_now rq)) by lia.
  rewrite inject_Z_plus. unfold Qdiv in *. lra.
Qed.

Lemma served_fair c t1 rqs : ∀ t0 s,
  counts c → (∀ rq, In rq rqs → near (rq_redis rq) (rq_now rq) ∧ rq_now rq <= t1) →
  Sorted Z.le (t0 :: map rq_now rqs) → t0 <= t1 →
  fair (c_rate c) (c_rate c * 2) (c_key c) t0 s →
  fair (c_rate c) (c_rate c * 2) (c_key c) t1 (serve_all rqs s).
Proof.
  induction rqs as [|rq rest IH]; intros t0 s Hc Hn Hs Ht Hf; [by eapply fair_later|].
  inversion Hs as [|? ? Hs' Hhd]; subst. inversion Hhd as [|? ? Hle]; subst.
  destruct (Hn rq (or_introl eq_refl)) as [Hnr Hr1].
  pose proof (serve_level c rq s Hc Hnr ltac:(eapply fair_later; eauto)) as Hserve.
  cbn [serve_all fold_left]. destruct (serve rq s) as [[o h] s']. destruct Hserve as [Hf' _].
  apply (IH (rq_now rq)); try done. intros r Hr. apply Hn. by right.
Qed.

(** The window bound: whatever was served before it, in a window of [w] ms the
    guard lets through at most [(2 + w/1000) * rate] requests of a layer. *)
Lemma window_bounded c before rqs w :
  counts c → (∀ rq, In rq (before ++ rqs) → near (rq_redis rq) (rq_now rq)) →
  StronglySorted Z.le (map rq_now (before ++ rqs)) →
  0 <= w → (∀ rq rq', In rq rqs → In rq' rqs → rq_now rq' - rq_now rq <= w) →
  (inject_Z (admitted (c_requests c) rqs (serve_all before ∅)) <= c_rate c * (2 + inject_Z w / 1000))%Q.
Proof.
  intros Hc Hn Hs Hw0 Hw. pose proof (proj1 Hc) as Hpos.
  destruct rqs as [|rq rest].
  { pose proof (elapsed_nonneg (c_rate c) Hpos w Hw0). cbn [admitted]. change (inject_Z 0) with 0%Q. lra. }
  rewrite map_app in Hs. apply StronglySorted_app in Hs as (Hcross&Hs1&Hs2).
  set (t := rq_now rq).
  assert (∀ r, In r before → rq_now r <= t) as Hb.
  { intros r Hr. apply Hcross; apply list_elem_of_In; [by apply in_map|by left]. }
  assert (fair (c_rate c) (c_rate c * 2) (c_key c) t (serve_all before ∅)) as Hf.
  { apply (served_fair c t before (List.hd t (map rq_now before))); try done.
    - intros r Hr. split; [apply Hn, in_app_iff; by left|by apply Hb].
    - destruct before as [|r before]; [repeat constructor|]. cbn [List.hd map].
      apply StronglySorted_Sorted in Hs1. constructor; [exact Hs1|]. constructor. lia.
    - destruct before as [|r before]; cbn [List.hd map]; [lia|]. apply Hb. by left. }
  pose proof (admitted_bounded c (t + w) (rq :: rest) t (serve_all before ∅) Hc) as H.
  pose proof (level_bounds (c_rate c) (c_rate c * 2) (c_key c) Hpos ltac:(lra) _ _ Hf) as HL.
  assert (inject_Z (t + w - t) / 1000 * c_rate c == c_rate c * (inject_Z w / 1000))%Q as Ew.
  { replace (t + w - t) with w by lia. field. }
  rewrite Ew in H. rewrite Qmult_plus_distr_r. eapply Qle_trans; [apply H|].
  - intros r Hr. split; [apply Hn, in_app_iff; by right|].
    pose proof (Hw rq r (or_introl eq_refl) Hr). unfold t. lia.
  - apply StronglySorted_Sorted in Hs2. constructor; [exact Hs2|]. constructor. unfold t. lia.
  - lia.
  - done.
  - lra.
Qed.
End Guard.

(** ** Properties *)

(** C27. The ingestion rate limit holds: whatever requests the guard has seen
    before ([before]), of the requests that arrive within [w] milliseconds of
    each other it lets through at most [(2 + w/1000)] times the configured rate
    for one tenant, for one API key and for one device - through interleaved
    requests of other tenants, refused requests (which may have taken tokens
    from earlier layers), and expiry of idle buckets on a Redis clock up to
    fifteen seconds off, provided the servers' clocks do not run backwards. *)
Theorem admissions_bounded text env before rqs w t i d
  (Hclock : ∀ rq, In rq (before ++ rqs) → near (rq_redis rq) (rq_now rq))
  (Horder : StronglySorted Z.le (map rq_now (before ++ rqs)))
  (Hw0 : 0 <= w) (Hw : ∀ rq rq', In rq rqs → In rq' rqs → rq_now rq' - rq_now rq <= w) :
  let through c := inject_Z (admitted text env (c_requests c) rqs (serve_all text env before ∅)) in
  let windows := (2 + inject_Z w / 1000)%Q in
  (through (by_tenant env t) <= tenantRps (limits env) * windows)%Q ∧
  (through (by_key env i) <= keyRps (limits env) * windows)%Q ∧
  (through (by_device text env d) <= deviceRps (limits env) * windows)%Q.
Proof.
  destruct (counts_layers text env t i d) as (Ht&Hi&Hd).
  split; [|split]; by apply window_bounded.
Qed.

Definition one_per_second : LimitEnv := mkLimitEnv (Some "1000") (Some "1") None.
Definition some_key : ResolvedApiKey := mkResolved "k1" "t1" "a1" Server Full.
Definition call_at (ms : Z) : Request := mkRequest (λ _, ms + 5) ms (Some some_key) JUndef.

(** Six calls within 1.5 seconds of a key limited to one per second. *)
Lemma admissions_bounded_witness :
  let rqs := [call_at 1000; call_at 1001; call_at 1002; call_at 2100; call_at 2200; call_at 2500] in
  admitted (λ _, "") one_per_second (c_requests (by_key one_per_second "k1")) rqs ∅ = 3 ∧
  (3 <= 1 * (2 + inject_Z 1500 / 1000))%Q.
Proof.
  split; [vm_compute; reflexivity|].
  destruct (admissions_bounded (λ _, "") one_per_second []
    [call_at 1000; call_at 1001; call_at 1002; call_at 2100; call_at 2200; call_at 2500] 1500 "t1" "k1" "d") as (_&H&_).
  - simpl. intros rq Hrq n. unfold skew. repeat (destruct Hrq as [<-|Hrq]; [simpl; lia|]). done.
  - simpl. repeat constructor; simpl; lia.
  - lia.
  - simpl. intros rq rq' H1 H2.
    repeat (destruct H1 as [<-|H1]); try done; repeat (destruct H2 as [<-|H2]); try done; simpl; lia.
  - vm_compute. discriminate.
Defined.

(** The delay a refusal announces is exact: after a script call that
    refuses a request with [retry_ms = r], a request of the same cost that
    comes [r] ms later (with none in between) is admitted, one that comes
    earlier is refused again, and the [Retry-After] header covers [r]. *)
Theorem retry_delay_exact rate burst key cost redis_ms now s r s' redis_ms' d r' s''
  (Hrate : (0 < rate)%Q) (Hcost : (0 <= cost <= burst)%Q)
  (Hfair : fair rate burst key now s) (Hclock : now - skew <= redis_ms <= now + skew)
  (Hcall : TOKEN_BUCKET_LUA redis_ms key rate burst now cost s = (r, s'))
  (Hrefused : sr_allowed r = 0)
  (Hd : 0 <= d) (Hclock' : now + d - skew <= redis_ms' <= now + d + skew)
  (Hagain : TOKEN_BUCKET_LUA redis_ms' key rate burst (now + d) cost s' = (r', s'')) :
  (sr_allowed r' = 1 ↔ sr_retry_ms r <= d) ∧ 0 < sr_retry_ms r ∧
  ∀ l, sr_retry_ms r <= 1000 * retryAfterSec (layer_decision l r).
Proof.
  destruct (script_bucket _ _ _ _ _ _ _ _ _ Hcall) as (b&Hb&Hts).
  apply script_level in Hcall as (Hf1&HL1&[[? _]|(_&Hlt&Hretry)]); try done; try lia; try lra.
  rewrite Hrefused in HL1. change (inject_Z 0) with 0%Q in HL1.
  pose proof (level_after rate burst key now d s' b Hf1 Hb Hts Hd) as HL.
  assert (level rate burst key now s' == level rate burst key now s)%Q as E by lra. rewrite E in HL.
  apply script_level in Hagain as (_&_&Hcase); try done; try lra; [|by apply (fair_later rate burst key now); [lia|]].
  rewrite HL, Q.min_glb_iff, Q.min_lt_iff in Hcase.
  pose proof (delay_le rate Hrate (cost - level rate burst key now s) d) as Hdelay. rewrite <- Hretry in Hdelay.
  split; [|split].
  - rewrite Hdelay. split; intros; destruct Hcase as [(?&?&?)|(?&[?|?]&_)]; first [lia|lra|exfalso; lra].
  - apply Z.nle_gt. rewrite Hretry, delay_le by done. intros H.
    pose proof (elapsed_zero rate 0) as Ez. change (0 - 0) with 0 in Ez. rewrite Ez in H. lra.
  - intros l. cbn [layer_decision retryAfterSec].
    pose proof (Qle_ceiling (inject_Z (sr_retry_ms r) / 1000)) as Hc.
    set (c := Qceiling (inject_Z (sr_retry_ms r) / 1000)) in *. clearbody c. apply (Qmult_le_compat_r _ _ 1000) in Hc; [|lra].
    assert (inject_Z (sr_retry_ms r) / 1000 * 1000 == inject_Z (sr_retry_ms r))%Q as Er by field.
    rewrite Er in Hc. change (inject_Z (sr_retry_ms r) <= inject_Z c * inject_Z 1000)%Q in Hc. rewrite <- inject_Z_mult, <- Zle_Qle in Hc. lia.
Qed.

(** A bucket of two, one per second, drained at 1000 ms and asked again. *)
Lemma retry_delay_exact_witness :
  let drained := <["k" := mkBucket (1 # 4) 1000 61000]> (∅ : Redis) in
  let '(r, s') := TOKEN_BUCKET_LUA 1000 "k" 1 2 1000 1 drained in
  let '(r', _) := TOKEN_BUCKET_LUA 1749 "k" 1 2 1749 1 s' in
  sr_retry_ms r = 750 ∧ sr_allowed r' = 0 ∧ ¬ 750 <= 749.
Proof.
  destruct (retry_delay_exact 1 2 "k" 1 1000 1000 (<["k" := mkBucket (1 # 4) 1000 61000]> ∅)
    (TOKEN_BUCKET_LUA 1000 "k" 1 2 1000 1 (<["k" := mkBucket (1 # 4) 1000 61000]> ∅)).1
    (TOKEN_BUCKET_LUA 1000 "k" 1 2 1000 1 (<["k" := mkBucket (1 # 4) 1000 61000]> ∅)).2
    1749 749
    (TOKEN_BUCKET_LUA 1749 "k" 1 2 1749 1
      (TOKEN_BUCKET_LUA 1000 "k" 1 2 1000 1 (<["k" := mkBucket (1 # 4) 1000 61000]> ∅)).2).1
    (TOKEN_BUCKET_LUA 1749 "k" 1 2 1749 1
      (TOKEN_BUCKET_LUA 1000 "k" 1 2 1000 1 (<["k" := mkBucket (1 # 4) 1000 61000]> ∅)).2).2)
    as ([_ H]&_&_).
  - lra.
  - lra.
  - intros b. rewrite lookup_insert_eq. intros [= <-]. simpl. unfold skew. split; [lra|]. vm_compute. split; discriminate.
  - unfold skew. lia.
  - vm_compute. reflexivity.
  - vm_compute. reflexivity.
  - lia.
  - unfold skew. lia.
  - vm_compute. reflexivity.
  - vm_compute. split; [reflexivity|]. split; [reflexivity|]. intros E. by apply E.
Defined.
