(* ===== verification/IngestSchemas.v ===== *)
(** * Ingestion: request bodies and queue payloads

    [ingestion/schemas.ts] (the zod schemas of the ingestion endpoints, as
    functions from the JSON body to a typed record, [None] where the schema
    fails) and the payload types of [packages/queue-schemas] the service
    publishes.

    The formats zod checks with its own regular expressions (uuid, ISO
    date-time) are the operations of the class [Zod] of [Json].  A field that may be
    absent or null is [None] in both cases: the service only tests it for
    truth or replaces it by null. *)

From Stdlib Require Import Ascii QArith.
From stdpp Require Import pretty.
From S2P Require Import Prelude JsVal Crypto Json.

#[global] Open Scope Z_scope.

Section Schemas.
Context `{Zod}.

Definition z_external_id : Parser string := z_string 1 256.

(** ** Bodies *)

Inductive Platform := ios | android.

Record IngestDeviceInfo := mkDevice {
  dv_device_id : string; dv_platform : Platform; dv_app_version : option string;
  dv_os_version : option string; dv_model : option string; dv_locale : option string }.

Definition deviceSchema : Parser IngestDeviceInfo := λ v,
  f ← z_strict ["device_id"; "platform"; "app_version"; "os_version"; "model"; "locale"] v;
  device_id ← z_uuid (f "device_id");
  platform ← z_enum [("ios", ios); ("android", android)] (f "platform");
  app_version ← z_optional (z_string 0 64) (f "app_version");
  os_version ← z_optional (z_string 0 64) (f "os_version");
  model ← z_optional (z_string 0 128) (f "model");
  locale ← z_optional (z_string 0 32) (f "locale");
  Some (mkDevice device_id platform app_version os_version model locale).

Record TrackEvent := mkTrackEvent {
  te_insert_id : string; te_anon_id : option string; te_external_id : option string;
  te_event : string; te_properties : option (list (string * jsval)); te_client_ts : string }.

(** Truthiness of a nullable string *)
Definition present (v : option string) : bool :=
  match v with Some s => negb (String.eqb s "") | None => false end.

Definition trackEventSchema : Parser TrackEvent := λ v,
  f ← z_strict ["insert_id"; "anon_id"; "external_id"; "event"; "properties"; "client_ts"] v;
  insert_id ← z_uuid (f "insert_id");
  anon_id ← z_nullish z_uuid (f "anon_id");
  external_id ← z_nullish z_external_id (f "external_id");
  event ← z_string 1 128 (f "event");
  properties ← z_optional z_record (f "properties");
  client_ts ← z_format zod_datetime (f "client_ts");
  if present anon_id || present external_id
  then Some (mkTrackEvent insert_id anon_id external_id event properties client_ts) else None.

Record TrackBody := mkTrackBody { tb_batch : list TrackEvent; tb_device : option IngestDeviceInfo }.

Definition trackBodySchema : Parser TrackBody := λ v,
  f ← z_strict ["batch"; "device"] v;
  batch ← z_array 1 100 trackEventSchema (f "batch");
  device ← z_optional deviceSchema (f "device");
  Some (mkTrackBody batch device).

(** Custom attributes: names of 1 to 128 code units, values up to 1 KB. *)
Definition attribute_ok (p : string * jsval) : bool :=
  let '(key, value) := p in
  negb ((js_length key =? 0) || (128 <? js_length key))
  && match value with JNull => true | _ => js_length (JSON_stringify number_format value) <=? 1024 end.

Definition attributesRecordSchema : Parser (list (string * jsval)) := λ v,
  attrs ← z_record v;
  if forallb attribute_ok attrs then Some attrs else None.

Record IdentifyBody := mkIdentify {
  ib_external_id : string; ib_anon_id : option string;
  ib_attributes : option (list (string * jsval)); ib_device : option IngestDeviceInfo }.

Definition identifyBodySchema : Parser IdentifyBody := λ v,
  f ← z_strict ["external_id"; "anon_id"; "attributes"; "device"] v;
  external_id ← z_external_id (f "external_id");
  anon_id ← z_nullish z_uuid (f "anon_id");
  attributes ← z_optional attributesRecordSchema (f "attributes");
  device ← z_optional deviceSchema (f "device");
  Some (mkIdentify external_id anon_id attributes device).

Definition AttributesUpdate : Type := string * list (string * jsval).

Definition attributesBodySchema : Parser (list AttributesUpdate) := λ v,
  f ← z_strict ["updates"] v;
  z_array 1 100 (λ u,
    g ← z_strict ["external_id"; "attributes"] u;
    external_id ← z_external_id (g "external_id");
    attributes ← attributesRecordSchema (g "attributes");
    Some (external_id, attributes)) (f "updates").

Inductive OsPermission := granted | denied | undetermined.

(** [s.replace(/[\s_-]/g, "")] *)
Fixpoint squeeze_fuel (n : nat) (s : string) : string :=
  match n, s with
  | O, _ | _, EmptyString => s
  | S n', String c s' =>
      match strip_ws s with
      | Some rest => squeeze_fuel n' rest
      | None => if Ascii.eqb c "_" || Ascii.eqb c "-" then squeeze_fuel n' s' else String c (squeeze_fuel n' s')
      end
  end.
Definition squeeze (s : string) : string := squeeze_fuel (String.length s) s.

(** The platforms' names of a permission state *)
Definition os_permission_names : list (string * OsPermission) :=
  [("granted", granted); ("authorized", granted); ("provisional", granted); ("ephemeral", granted);
   ("denied", denied); ("undetermined", undetermined); ("notdetermined", undetermined)].

Definition osPermissionSchema : Parser (option OsPermission) :=
  z_optional (λ v, match v with JStr s => JMap.get os_permission_names (squeeze (to_lower s)) | _ => None end).

Record TokenBody := mkToken {
  kb_device : IngestDeviceInfo; kb_push_token : string; kb_os_permission : option OsPermission;
  kb_anon_id : option string; kb_external_id : option string }.

Definition tokenBodySchema : Parser TokenBody := λ v,
  f ← z_strict ["device"; "push_token"; "os_permission"; "anon_id"; "external_id"] v;
  device ← deviceSchema (f "device");
  push_token ← z_string 1 4096 (f "push_token");
  os_permission ← osPermissionSchema (f "os_permission");
  anon_id ← z_nullish z_uuid (f "anon_id");
  external_id ← z_nullish z_external_id (f "external_id");
  if present anon_id || present external_id
  then Some (mkToken device push_token os_permission anon_id external_id) else None.

Inductive Consent := opted_in | unsubscribed.

Record SubscriptionBody := mkSubscription {
  sb_channel : string; sb_state : Consent; sb_anon_id : option string; sb_external_id : option string }.

Definition subscriptionBodySchema : Parser SubscriptionBody := λ v,
  f ← z_strict ["channel"; "state"; "anon_id"; "external_id"] v;
  channel ← z_optional (z_enum [("push", "push")]) (f "channel");
  state ← z_enum [("opted_in", opted_in); ("unsubscribed", unsubscribed)] (f "state");
  anon_id ← z_nullish z_uuid (f "anon_id");
  external_id ← z_nullish z_external_id (f "external_id");
  if present anon_id || present external_id
  then Some (mkSubscription (default "push" channel) state anon_id external_id) else None.

Definition logoutBodySchema : Parser string := λ v,
  f ← z_strict ["device_id"] v; z_uuid (f "device_id").
End Schemas.

(** ** Queue payloads *)

Inductive IngestEndpoint :=
| e_track | e_identify | e_attributes | e_devices_token | e_user_delete | e_subscriptions | e_devices_logout.

(** A track event as the receipt projection consumes it *)
Record IngestTrackEvent := mkIngestEvent {
  ie_insert_id : string; ie_user_id : string; ie_event : string; ie_properties : list (string * jsval);
  ie_client_ts : string; ie_server_ts : string; ie_received_at : string; ie_receipt_seq : string }.

(** [IngestBatchPayload]: the fields that are set, per endpoint *)
Inductive PayloadBody :=
| P_track (device : option IngestDeviceInfo) (events : list IngestTrackEvent)
| P_identify (device : option IngestDeviceInfo) (external_id : string) (anon_id : option string)
    (attributes : option (list (string * jsval)))
| P_attributes (updates : list AttributesUpdate)
| P_token (device : IngestDeviceInfo) (push_token : string) (os_permission : option OsPermission)
    (anon_id external_id : option string)
| P_subscription (channel : string) (state : Consent) (anon_id external_id : option string)
| P_logout (device_id : string)
| P_user_delete (external_id : string).

Record IngestBatchPayload := mkPayload {
  pl_endpoint : IngestEndpoint; pl_request_id : string; pl_api_key_id : string; pl_body : PayloadBody }.

(** Names of the Redis streams *)
Definition STREAMS_ingest : string := "stream:ingest".
