(* ===== verification/EventReceipts.v ===== *)
(** * Event receipts

    [ingestion/event-receipts.ts]: a track batch becomes one receipt, one
    outbox row and one cursor step per new [insert_id], in one PostgreSQL
    transaction; an [insert_id] already received is skipped.

    A transaction runs while others commit.  Until it holds all its locks it
    only reads and inserts rows with ON CONFLICT DO NOTHING: its state is the
    committed store, which the commits of others change at the points where it
    waits ([yield]), and the rows it has inserted; it sees both.  (A row of its
    own cannot collide with a row committed meanwhile: the unique index makes
    one of the two wait.  [view] leaves out such a row.)  From the profile lock
    on it holds locks on all it reads and writes, and runs on its view of the
    store; COMMIT publishes it, ROLLBACK leaves the committed store. *)

From stdpp Require Import pretty.
From S2P Require Import Prelude JsVal Crypto Json Authz AuthDb AuthServices Team Bootstrap IngestSchemas.

#[global] Open Scope Z_scope.

(** ** Tables *)

Inductive UserStatus := UActive | UMerged | UDeleted.
#[global] Instance UserStatus_eq_dec : EqDecision UserStatus.
Proof. solve_decision. Defined.

Record User := mkUser {
  us_id : string; us_tenant : string; us_app : string;
  us_external_id : option string; us_anon_id : option string;
  us_status : UserStatus; us_merged_into : option string;
  us_last_seen_at : option Z; us_updated_at : Z }.

Record Cursor := mkCursor {
  cu_tenant : string; cu_app : string; cu_user : string; cu_last_seq : Z; cu_updated_at : Z }.

Record Receipt := mkReceipt {
  rc_tenant : string; rc_app : string; rc_insert_id : string; rc_user : string; rc_event_name : string;
  rc_properties : list (string * jsval); rc_client_ts : string; rc_received_at : Z; rc_seq : Z;
  rc_device : option IngestDeviceInfo }.

Record OutboxRow := mkOutbox {
  ob_tenant : string; ob_app : string; ob_stream : string; ob_key : string; ob_payload : IngestBatchPayload }.

Record Db := mkDb {
  users : list User; cursors : list Cursor; receipts : list Receipt; outbox : list OutboxRow }.

Definition set_users x (d : Db) : Db := mkDb x (cursors d) (receipts d) (outbox d).
Definition set_cursors x (d : Db) : Db := mkDb (users d) x (receipts d) (outbox d).
Definition set_receipts x (d : Db) : Db := mkDb (users d) (cursors d) x (outbox d).
Definition set_outbox x (d : Db) : Db := mkDb (users d) (cursors d) (receipts d) x.

(** [WHERE tenant_id = $1 AND app_id = $2 AND ...] *)
Definition user_at (t a id : string) (u : User) : bool :=
  String.eqb (us_tenant u) t && String.eqb (us_app u) a && String.eqb (us_id u) id.
Definition cursor_at (t a id : string) (c : Cursor) : bool :=
  String.eqb (cu_tenant c) t && String.eqb (cu_app c) a && String.eqb (cu_user c) id.
Definition receipt_at (t a id : string) (r : Receipt) : bool :=
  String.eqb (rc_tenant r) t && String.eqb (rc_app r) a && String.eqb (rc_insert_id r) id.
Definition outbox_at (t a key : string) (o : OutboxRow) : bool :=
  String.eqb (ob_tenant o) t && String.eqb (ob_app o) a && String.eqb (ob_key o) key.

(** ** Errors *)

(** [class IdentityChanged extends Error] and PostgreSQL errors by SQLSTATE *)
Definition IdentityChanged (message : string) : exn := PlainError ("IdentityChanged: " +:+ message).
Definition SqlState (code : string) : exn := PlainError ("SQLSTATE " +:+ code).

Definition retryable (e : exn) : bool :=
  match e with
  | PlainError m => starts_with "IdentityChanged: " m || String.eqb m "SQLSTATE 40P01" || String.eqb m "SQLSTATE 40001"
  | HttpException _ _ => false
  end.

(** ** Identities *)

(** [event.external_id ? `external:...` : `anon:...`]; a body that passed the
    schema has one of the two. *)
Definition identityKey (event : TrackEvent) : string :=
  if present (te_external_id event) then "external:" +:+ default "" (te_external_id event)
  else "anon:" +:+ default "undefined" (te_anon_id event).

Inductive IdColumn := external_id | anon_id.

(** The column and value of [resolveUser]; [uuid] columns compare canonical
    (lower-case) values. *)
Definition id_column (event : TrackEvent) : IdColumn :=
  if present (te_external_id event) then external_id else anon_id.
Definition id_value (event : TrackEvent) : string :=
  if present (te_external_id event) then default "" (te_external_id event)
  else to_lower (default "" (te_anon_id event)).
Definition us_column (c : IdColumn) (u : User) : option string :=
  match c with external_id => us_external_id u | anon_id => us_anon_id u end.

(** A stable sort by a comparison ([Array.prototype.sort]). *)
Fixpoint insert_sorted {A} (le : A → A → bool) (x : A) (l : list A) : list A :=
  match l with
  | [] => [x]
  | y :: l' => if le x y then x :: l else y :: insert_sorted le x l'
  end.
Definition js_sort {A} (le : A → A → bool) (l : list A) : list A := fold_right (insert_sorted le) [] l.

(** The first occurrence of each [insert_id], lower-cased *)
Definition lowercased (e : TrackEvent) : TrackEvent :=
  mkTrackEvent (to_lower (te_insert_id e)) (te_anon_id e) (te_external_id e) (te_event e) (te_properties e) (te_client_ts e).
Definition add_first (unique : list TrackEvent) (e : TrackEvent) : list TrackEvent :=
  let e' := lowercased e in
  if existsb (λ x, String.eqb (te_insert_id x) (te_insert_id e')) unique then unique else unique ++ [e'].
Definition first_of_each (batch : list TrackEvent) : list TrackEvent := fold_left add_first batch [].

(** ** The transaction *)

Definition insert_user_row (us : list User) (u : User) : list User :=
  if existsb (λ x, String.eqb (us_id x) (us_id u)
        || String.eqb (us_app x) (us_app u)
           && (bool_decide (is_Some (us_external_id u)) && bool_decide (us_external_id x = us_external_id u)
               || bool_decide (is_Some (us_anon_id u)) && bool_decide (us_anon_id x = us_anon_id u))) us
  then us else us ++ [u].
Definition insert_cursor_row (cs : list Cursor) (c : Cursor) : list Cursor :=
  if existsb (cursor_at (cu_tenant c) (cu_app c) (cu_user c)) cs then cs else cs ++ [c].

Record Tx := mkTx { shared : Db; my_users : list User; my_cursors : list Cursor; step : nat }.

Definition view (t : Tx) : Db :=
  let d := shared t in
  mkDb (fold_left insert_user_row (my_users t) (users d)) (fold_left insert_cursor_row (my_cursors t) (cursors d))
    (receipts d) (outbox d).

Section Transaction.
Context (others : nat → Db → Db).          (** what other transactions commit before step [n] *)
Context (uuid : nat → string).             (** [gen_random_uuid()] *)
Context (clock_timestamp : nat → Z).       (** µs *)
Context (to_char : Z → string).            (** the UTC text of a timestamp *)
Context (localeCompare : string → string → bool).  (** [a.localeCompare(b) <= 0] *)
Context (tenantId appId keyId : string).

Definition yield : M Tx unit :=
  modify (λ t, mkTx (others (step t) (shared t)) (my_users t) (my_cursors t) (S (step t))).

Definition lookup_identity (c : IdColumn) (value : string) (u : User) : bool :=
  String.eqb (us_tenant u) tenantId && String.eqb (us_app u) appId && bool_decide (us_column c u = Some value).

(** [SELECT id, status, merged_into FROM users WHERE ...] *)
Definition select_user (p : User → bool) : M Tx (option User) :=
  _ ← yield; t ← get; mret (select1 p (users (view t))).

(** [INSERT INTO users (tenant_id, app_id, column) ... ON CONFLICT (app_id, column) DO NOTHING] *)
Definition insert_user (c : IdColumn) (value : string) : M Tx unit :=
  _ ← yield; t ← get;
  if existsb (λ u, String.eqb (us_app u) appId && bool_decide (us_column c u = Some value)) (users (view t))
  then mret tt
  else
    let id := uuid (step t) in
    _ ← throw_if (existsb (λ u, String.eqb (us_id u) id) (users (view t))) (SqlState "23505");
    let row := mkUser id tenantId appId
                 (match c with external_id => Some value | anon_id => None end)
                 (match c with external_id => None | anon_id => Some value end)
                 UActive None None (clock_timestamp (step t)) in
    modify (λ t, mkTx (shared t) (my_users t ++ [row]) (my_cursors t) (S (step t))).

(** The loop over merged tombstones; [visited] are the ids seen. *)
Fixpoint follow_merges (fuel : nat) (visited : list string) (user : option User) : M Tx (option User) :=
  match fuel, user with
  | S fuel', Some u =>
      match us_merged_into u with
      | Some into =>
          if bool_decide (us_status u = UMerged) && negb (String.eqb into "") && negb (String_in (us_id u) visited)
          then next ← select_user (user_at tenantId appId into);
               follow_merges fuel' (us_id u :: visited) next
          else mret user
      | None => mret user
      end
  | _, _ => mret user
  end.

Definition resolveUser (fuel : nat) (event : TrackEvent) : M Tx string :=
  let column := id_column event in
  let value := id_value event in
  _ ← throw_if (String.eqb value "") (PlainError "Missing track identity");
  found ← select_user (lookup_identity column value);
  user ← match found with
         | Some u => mret (Some u)
         | None => _ ← insert_user column value; select_user (lookup_identity column value)
         end;
  last ← follow_merges fuel [] user;
  match last with
  | Some u =>
      _ ← throw_if (negb (bool_decide (us_status u = UActive))) (IdentityChanged "Track identity is no longer active");
      mret (us_id u)
  | None => throw (IdentityChanged "Track identity is no longer active")
  end.

(** [identities]: the customer of each identity key *)
Fixpoint resolve_all (fuel : nat) (events : list TrackEvent) (identities : list (string * string))
  : M Tx (list (string * string)) :=
  match events with
  | [] => mret identities
  | e :: rest =>
      if JMap.has identities (identityKey e) then resolve_all fuel rest identities
      else
        id ← resolveUser fuel e;
        resolve_all fuel rest (JMap.set identities (identityKey e) id)
  end.

(** [INSERT INTO event_customer_cursors ... ON CONFLICT DO NOTHING] and
    [SELECT ... FOR UPDATE]; the row references its user. *)
Definition lock_cursor (userId : string) : M Tx unit :=
  _ ← yield; t ← get;
  if existsb (cursor_at tenantId appId userId) (cursors (view t)) then mret tt
  else
    _ ← throw_if (negb (existsb (λ u, String.eqb (us_id u) userId) (users (view t)))) (SqlState "23503");
    modify (λ t, mkTx (shared t) (my_users t)
      (my_cursors t ++ [mkCursor tenantId appId userId 0 (clock_timestamp (step t))]) (S (step t))).

Fixpoint lock_cursors (ids : list string) : M Tx unit :=
  match ids with [] => mret tt | u :: rest => _ ← lock_cursor u; lock_cursors rest end.

(** [SELECT ... FROM users WHERE id = ANY(...) FOR UPDATE] and the check *)
Definition check_profiles (ids : list string) : M Db unit :=
  d ← get;
  let profiles := select (λ u, existsb (λ id, user_at tenantId appId id u) ids) (users d) in
  throw_if (negb (Nat.eqb (length profiles) (length ids))
            || existsb (λ u, negb (bool_decide (us_status u = UActive))) profiles)
    (IdentityChanged "Customer changed during receipt registration").

(** Largest [bigint] *)
Definition MAX_BIGINT : Z := 2 ^ 63 - 1.

(** [UPDATE event_customer_cursors SET last_seq = last_seq + 1 ... RETURNING] *)
Definition advance_cursor (userId : string) (now : Z) : M Db (option Cursor) :=
  d ← get;
  let step c := mkCursor (cu_tenant c) (cu_app c) (cu_user c) (cu_last_seq c + 1) now in
  _ ← throw_if (existsb (λ c, cursor_at tenantId appId userId c && (MAX_BIGINT <=? cu_last_seq c)) (cursors d))
        (SqlState "22003");
  _ ← modify (set_cursors (update_where (cursor_at tenantId appId userId) step (cursors d)));
  mret (step <$> select1 (cursor_at tenantId appId userId) (cursors d)).

Definition insert_receipt (r : Receipt) : M Db unit :=
  d ← get;
  _ ← throw_if (existsb (λ x, receipt_at (rc_tenant r) (rc_app r) (rc_insert_id r) x
         || String.eqb (rc_tenant x) (rc_tenant r) && String.eqb (rc_app x) (rc_app r)
            && String.eqb (rc_user x) (rc_user r) && (rc_seq x =? rc_seq r)) (receipts d)) (SqlState "23505");
  modify (set_receipts (receipts d ++ [r])).

(** [... ON CONFLICT DO NOTHING] on the partial index of the [event.] keys *)
Definition insert_outbox (o : OutboxRow) : M Db unit :=
  d ← get;
  if existsb (outbox_at (ob_tenant o) (ob_app o) (ob_key o)) (outbox d) then mret tt
  else modify (set_outbox (outbox d ++ [o])).

(** [UPDATE users SET last_seen_at = GREATEST(last_seen_at, $4), updated_at = $4] *)
Definition touch_user (userId : string) (now : Z) : M Db unit :=
  modify (λ d, set_users (update_where (user_at tenantId appId userId)
    (λ u, mkUser (us_id u) (us_tenant u) (us_app u) (us_external_id u) (us_anon_id u) (us_status u) (us_merged_into u)
            (Some (match us_last_seen_at u with Some t => Z.max t now | None => now end)) now) (users d)) d).

Definition ingest_key (insert_id : string) : string := "event.ingest:" +:+ insert_id.

(** The payload of the event's projection job *)
Definition event_payload (requestId : string) (device : option IngestDeviceInfo) (e : TrackEvent)
    (userId : string) (seq now : Z) : IngestBatchPayload :=
  mkPayload e_track requestId keyId
    (P_track device [mkIngestEvent (te_insert_id e) userId (te_event e) (default [] (te_properties e))
       (te_client_ts e) (to_char now) (to_char now) (pretty seq)]).

(** The body of the loop over [unique.values()]; [n] counts its runs. *)
Definition register (requestId : string) (device : option IngestDeviceInfo) (identities : list (string * string))
    (n : nat) (e : TrackEvent) : M Db unit :=
  let userId := default "undefined" (JMap.get identities (identityKey e)) in
  let now := clock_timestamp n in
  ordered ← advance_cursor userId now;
  cursor ← some_or_throw ordered (PlainError "Missing event customer cursor");
  let seq := cu_last_seq cursor in
  _ ← insert_receipt (mkReceipt tenantId appId (te_insert_id e) userId (te_event e)
        (default [] (te_properties e)) (te_client_ts e) now seq device);
  _ ← insert_outbox (mkOutbox tenantId appId STREAMS_ingest (ingest_key (te_insert_id e))
        (event_payload requestId device e userId seq now));
  touch_user userId now.

Fixpoint register_all requestId device identities (n : nat) (events : list TrackEvent) : M Db unit :=
  match events with
  | [] => mret tt
  | e :: rest =>
      _ ← register requestId device identities n e;
      register_all requestId device identities (S n) rest
  end.

(** [SELECT insert_id FROM event_receipts ...]: the events of the batch that
    have no receipt yet *)
Definition unseen (body : TrackBody) (d : Db) : list TrackEvent :=
  List.filter (λ e, negb (existsb (receipt_at tenantId appId (te_insert_id e)) (receipts d)))
    (first_of_each (tb_batch body)).

(** From BEGIN to the last lock: the new events and their customers, [None]
    when the batch has nothing new. *)
Definition prepare (fuel : nat) (body : TrackBody) : M Tx (option (list TrackEvent * list (string * string))) :=
  _ ← yield;  (* the advisory locks of the insert_ids *)
  t ← get;
  let unique := unseen body (view t) in
  if Nat.eqb (length unique) 0 then mret None
  else
    identities ← resolve_all fuel (js_sort (λ a b, localeCompare (identityKey a) (identityKey b)) unique) [];
    _ ← lock_cursors (js_sort String.leb (dedup (JMap.values identities)));
    _ ← yield;  (* the profile locks *)
    mret (Some (unique, identities)).

(** With all locks held *)
Definition record_events (body : TrackBody) (requestId : string) (n : nat)
    (prepared : option (list TrackEvent * list (string * string))) : M Db Z :=
  match prepared with
  | None => mret 0
  | Some (unique, identities) =>
      _ ← check_profiles (js_sort String.leb (dedup (JMap.values identities)));
      _ ← register_all requestId (tb_device body) identities n unique;
      mret (Z.of_nat (length unique))
  end.

(** The advisory locks, in the order they are taken *)
Definition event_locks (body : TrackBody) : list string :=
  map (λ id, "event.receipt:" +:+ tenantId +:+ ":" +:+ appId +:+ ":" +:+ id)
    (js_sort String.leb (map te_insert_id (first_of_each (tb_batch body)))).

(** The committed store and the index of the next step *)
Definition Shared : Type := Db * nat.

(** [failure]: an error PostgreSQL raises in this attempt (deadlock,
    serialization failure, lost connection, ...), which rolls it back. *)
Definition persistOnce (fuel : nat) (failure : option exn) (body : TrackBody) (requestId : string)
  : M Shared Z := λ s,
  let '(r, t) := prepare fuel body (mkTx (fst s) [] [] (snd s)) in
  match r with
  | Throw e => (Throw e, (shared t, step t))
  | Ok prepared =>
      match record_events body requestId (step t) prepared (view t), failure with
      | (Ok n, d), None => (Ok n, (d, step t))
      | (Ok _, _), Some e | (Throw e, _), _ => (Throw e, (shared t, step t))
      end
  end.

(** [for (let attempt = 0; ; attempt++)]: [left] attempts may follow. *)
Fixpoint attempts (fuel : nat) (failures : nat → option exn) (left attempt : nat) (body : TrackBody) (requestId : string)
  : M Shared Z := λ s,
  match persistOnce fuel (failures attempt) body requestId s with
  | (Ok unique, s') => (Ok unique, s')
  | (Throw e, s') =>
      match left with
      | S left' => if retryable e then attempts fuel failures left' (S attempt) body requestId s' else (Throw e, s')
      | O => (Throw e, s')
      end
  end.

Definition persistTrackReceipts (fuel : nat) (failures : nat → option exn) (body : TrackBody) (requestId : string)
  : M Shared Z := attempts fuel failures 2 0 body requestId.
End Transaction.
