(* ===== verification/ReceiptsInv.v ===== *)
(** * Event receipts: the invariant of the store

    [receipts_ok]: keys are unique, a customer's receipts carry increasing
    numbers in the order they were stored, below the customer's cursor, and a
    projection job belongs to a receipt of its customer.  Registering an event
    keeps it and adds one receipt and one job; the view of a transaction that
    has only inserted rows satisfies it when the committed store does; and the
    worker's deletion of a customer, with its receipts, keeps it too. *)

From stdpp Require Import pretty.
From S2P Require Import Prelude JsVal Crypto Json Authz AuthDb AuthServices Team Bootstrap IngestSchemas EventReceipts.

#[global] Open Scope Z_scope.

Definition cursor_key (c : Cursor) : string * string * string := (cu_tenant c, cu_app c, cu_user c).
Definition receipt_key (r : Receipt) : string * string * string := (rc_tenant r, rc_app r, rc_insert_id r).
Definition customer (r : Receipt) : string * string * string := (rc_tenant r, rc_app r, rc_user r).

Definition received (t a id : string) (d : Db) : bool := existsb (receipt_at t a id) (receipts d).

(** The customer of a projection job ([payload->'events'->0->>'user_id']). *)
Definition job_user (o : OutboxRow) : option string :=
  match pl_body (ob_payload o) with P_track _ (e :: _) => Some (ie_user_id e) | _ => None end.

Record receipts_ok (d : Db) : Prop := {
  ok_user_ids : List.NoDup (map us_id (users d));
  ok_cursor_keys : List.NoDup (map cursor_key (cursors d));
  ok_receipt_keys : List.NoDup (map receipt_key (receipts d));
  ok_seq : ∀ r, In r (receipts d) → ∃ c, In c (cursors d) ∧ cursor_key c = customer r ∧ 1 <= rc_seq r <= cu_last_seq c;
  ok_cursor_nonneg : ∀ c, In c (cursors d) → 0 <= cu_last_seq c;
  ok_order : ForallOrdPairs (λ r1 r2, customer r1 = customer r2 → rc_seq r1 < rc_seq r2) (receipts d);
  ok_jobs : ∀ o id, In o (outbox d) → ob_key o = ingest_key id →
    ∃ r, In r (receipts d) ∧ receipt_key r = (ob_tenant o, ob_app o, id) ∧ job_user o = Some (rc_user r);
  ok_job_keys : ∀ t a id, row_count (outbox_at t a (ingest_key id)) (outbox d) <= 1 }.

(** ** Keys *)

Lemma eqb3_true a a' b b' c c' :
  String.eqb a a' && String.eqb b b' && String.eqb c c' = true ↔ a = a' ∧ b = b' ∧ c = c'.
Proof. rewrite !andb_true_iff, !String.eqb_eq. tauto. Qed.

Lemma cursor_at_key t a u c : cursor_at t a u c = true ↔ cursor_key c = (t, a, u).
Proof. unfold cursor_at, cursor_key. rewrite eqb3_true. split; [intros (->&->&->); done|by intros [= -> -> ->]]. Qed.
Lemma receipt_at_key t a i r : receipt_at t a i r = true ↔ receipt_key r = (t, a, i).
Proof. unfold receipt_at, receipt_key. rewrite eqb3_true. split; [intros (->&->&->); done|by intros [= -> -> ->]]. Qed.
Lemma user_at_spec t a i u : user_at t a i u = true ↔ us_tenant u = t ∧ us_app u = a ∧ us_id u = i.
Proof. apply eqb3_true. Qed.
Lemma outbox_at_spec t a k o : outbox_at t a k o = true ↔ ob_tenant o = t ∧ ob_app o = a ∧ ob_key o = k.
Proof. apply eqb3_true. Qed.

Lemma received_spec t a i d : received t a i d = true ↔ ∃ r, In r (receipts d) ∧ receipt_key r = (t, a, i).
Proof.
  unfold received. rewrite existsb_exists. split; intros (r&Hr&H); exists r; (split; [done|]).
  - by apply receipt_at_key.
  - by apply receipt_at_key.
Qed.

Lemma ingest_key_inj i j : ingest_key i = ingest_key j → i = j.
Proof. unfold ingest_key. cbn. intros H. by repeat (injection H as H). Qed.

Lemma ok_job_received d o id : receipts_ok d → In o (outbox d) → ob_key o = ingest_key id → received (ob_tenant o) (ob_app o) id d = true.
Proof. intros Hok Ho Hk. destruct (ok_jobs _ Hok o id Ho Hk) as (r&Hr&Hrk&_). apply received_spec. by exists r. Qed.

(** ** The view *)

Lemma fold_cursor_rows cs l : Forall (λ c, cu_last_seq c = 0) l →
  (∀ c, In c (fold_left insert_cursor_row l cs) → In c cs ∨ cu_last_seq c = 0)
  ∧ (∀ c, In c cs → In c (fold_left insert_cursor_row l cs))
  ∧ (List.NoDup (map cursor_key cs) → List.NoDup (map cursor_key (fold_left insert_cursor_row l cs))).
Proof.
  intros Hl. revert cs. induction Hl as [|x l Hx Hl IH]; intros cs; cbn [fold_left]; [auto|].
  specialize (IH (insert_cursor_row cs x)) as (IH1&IH2&IH3). unfold insert_cursor_row in *.
  destruct (existsb (cursor_at (cu_tenant x) (cu_app x) (cu_user x)) cs) eqn:E; [auto|].
  split; [|split].
  - intros c Hc. apply IH1 in Hc as [[Hc|[<-|[]]]%in_app_iff|H0]; auto.
  - intros c Hc. apply IH2, in_app_iff. by left.
  - intros Hnd. apply IH3, NoDup_key_snoc; [done|]. intros c' Hc' Hk.
    apply not_true_iff_false in E. apply E, existsb_exists. exists c'. split; [done|]. by apply cursor_at_key.
Qed.

Lemma fold_user_rows us l :
  List.NoDup (map us_id us) → List.NoDup (map us_id (fold_left insert_user_row l us)).
Proof.
  revert us. induction l as [|x l IH]; intros us Hus; cbn [fold_left]; [done|]. apply IH.
  unfold insert_user_row. destruct (existsb _ us) eqn:E; [done|].
  apply NoDup_key_snoc; [done|]. intros u Hu Hk. apply not_true_iff_false in E. apply E, existsb_exists.
  exists u. split; [done|]. rewrite Hk, String.eqb_refl. done.
Qed.

Lemma view_ok t : receipts_ok (shared t) → Forall (λ c, cu_last_seq c = 0) (my_cursors t) → receipts_ok (view t).
Proof.
  intros Hok H0. destruct (fold_cursor_rows (cursors (shared t)) (my_cursors t) H0) as (Hin&Hkeep&Hnd).
  split; cbn [view users cursors receipts outbox].
  - apply fold_user_rows, Hok.
  - apply Hnd, Hok.
  - apply Hok.
  - intros r Hr. destruct (ok_seq _ Hok r Hr) as (c&Hc&Hk&Hs). exists c. auto.
  - intros c Hc. apply Hin in Hc as [Hc| ->]; [by eapply ok_cursor_nonneg|done].
  - apply Hok.
  - apply Hok.
  - apply Hok.
Qed.

(** ** Registering an event *)

Section Register.
Context (clock_timestamp : nat → Z) (to_char : Z → string) (tenantId appId keyId requestId : string).
Context (device : option IngestDeviceInfo) (identities : list (string * string)).

(** The receipt of [e] for [userId]. *)
Definition receipt_of (e : TrackEvent) (r : Receipt) : Prop :=
  receipt_key r = (tenantId, appId, te_insert_id e) ∧
  JMap.get identities (identityKey e) = Some (rc_user r) ∧
  rc_event_name r = te_event e ∧ rc_properties r = default [] (te_properties e) ∧
  rc_client_ts r = te_client_ts e ∧ rc_device r = device.

(** The projection job of a receipt. *)
Definition job_of (r : Receipt) : OutboxRow :=
  mkOutbox tenantId appId STREAMS_ingest (ingest_key (rc_insert_id r))
    (mkPayload e_track requestId keyId (P_track device
       [mkIngestEvent (rc_insert_id r) (rc_user r) (rc_event_name r) (rc_properties r) (rc_client_ts r)
          (to_char (rc_received_at r)) (to_char (rc_received_at r)) (pretty (rc_seq r))])).

(** What a user's row keeps when it is touched. *)
Definition same_user (u u' : User) : Prop :=
  us_id u = us_id u' ∧ us_tenant u = us_tenant u' ∧ us_app u = us_app u' ∧ us_status u = us_status u'.

Lemma update_where_map {R K} (f : R → K) p g (l : list R) :
  (∀ x, f (g x) = f x) → map f (update_where p g l) = map f l.
Proof.
  intros H. unfold update_where. rewrite map_map. apply map_ext. intros x. by destruct (p x).
Qed.

Lemma advance_cursor_ok u now (d d' : Db) o :
  receipts_ok d → advance_cursor tenantId appId u now d = (Ok (Some o), d') →
  ∃ c, In c (cursors d) ∧ cursor_key c = (tenantId, appId, u) ∧ cursor_key o = cursor_key c ∧
    cu_last_seq o = cu_last_seq c + 1 ∧
    users d' = users d ∧ receipts d' = receipts d ∧ outbox d' = outbox d ∧
    map cursor_key (cursors d') = map cursor_key (cursors d) ∧ In o (cursors d') ∧
    (∀ x, In x (cursors d) → ∃ x', In x' (cursors d') ∧ cursor_key x' = cursor_key x ∧ cu_last_seq x <= cu_last_seq x') ∧
    (∀ x', In x' (cursors d') → 0 <= cu_last_seq x').
Proof.
  intros Hok. unfold advance_cursor. intros H.
  apply bind_ok in H as (dg&s1&[= <- <-]&H). apply bind_ok in H as ([]&s2&[Hmax ->]%throw_if_ok&H).
  apply bind_ok in H as ([]&s3&[= <-]&[= Ho <-]).
  destruct (select1 _ (cursors d)) as [c|] eqn:Hc; [|done]. injection Ho as <-.
  apply select1_Some in Hc as [Hc Hk]. exists c. pose proof Hk as Hk'. apply cursor_at_key in Hk'.
  cbn [cursors set_cursors users receipts outbox].
  repeat split; try done.
  - by apply update_where_map.
  - apply update_where_In. left. by exists c.
  - intros x Hx. destruct (cursor_at tenantId appId u x) eqn:E.
    + eexists. split; [apply update_where_In; left; by exists x|]. split; [done|]. simpl. lia.
    + exists x. split; [apply update_where_In; by right|]. split; [done|]. lia.
  - intros x' [(x&Hx&_&->)|[Hx _]]%update_where_In; [|by apply (ok_cursor_nonneg _ Hok)].
    pose proof (ok_cursor_nonneg _ Hok x Hx). simpl. lia.
Qed.

(** The store with one more receipt, numbered by its customer's cursor, and
    its job. *)
Lemma receipts_ok_add d d' r c o : receipts_ok d →
  (* the cursor of the receipt's customer, before and after *)
  In c (cursors d) → cursor_key c = customer r → In o (cursors d') → cursor_key o = cursor_key c →
  rc_seq r = cu_last_seq c + 1 → cu_last_seq o = rc_seq r →
  map cursor_key (cursors d') = map cursor_key (cursors d) →
  (∀ x, In x (cursors d) → ∃ x', In x' (cursors d') ∧ cursor_key x' = cursor_key x ∧ cu_last_seq x <= cu_last_seq x') →
  (∀ x', In x' (cursors d') → 0 <= cu_last_seq x') →
  map us_id (users d') = map us_id (users d) →
  receipts d' = receipts d ++ [r] → received (rc_tenant r) (rc_app r) (rc_insert_id r) d = false →
  (∀ j, outbox d' = outbox d ++ [j] → ob_tenant j = rc_tenant r → ob_app j = rc_app r →
     ob_key j = ingest_key (rc_insert_id r) → job_user j = Some (rc_user r) → receipts_ok d').
Proof.
  intros Hok Hc Hck Ho Hok' Hs Hs' Hcks Hmono Hnn Hus Hrs Hnew j Hob Hjt Hja Hjk Hju.
  assert (∀ t a i, received t a i d = true → received t a i d' = true) as Hrec.
  { intros t a i (x&Hx&Hk)%received_spec. apply received_spec. exists x. split; [|done].
    rewrite Hrs. apply in_app_iff. by left. }
  split.
  - rewrite Hus. apply Hok.
  - rewrite Hcks. apply Hok.
  - rewrite Hrs. apply NoDup_key_snoc; [apply Hok|]. intros x Hx Hk.
    apply not_true_iff_false in Hnew. apply Hnew, received_spec. by exists x.
  - rewrite Hrs. intros x [Hx|[<-|[]]]%in_app_iff.
    + destruct (ok_seq _ Hok x Hx) as (y&Hy&Hyk&Hys). destruct (Hmono y Hy) as (y'&Hy'&Hyk'&Hle).
      exists y'. split; [done|]. split; [congruence|lia].
    + exists o. split; [done|]. split; [congruence|]. pose proof (ok_cursor_nonneg _ Hok c Hc). lia.
  - done.
  - rewrite Hrs. apply ForallOrdPairs_snoc; [apply Hok|]. intros x Hx Hcust.
    destruct (ok_seq _ Hok x Hx) as (y&Hy&Hyk&Hys).
    assert (y = c) as -> by (eapply NoDup_map_eq; [apply (ok_cursor_keys _ Hok)|..]; try done; congruence). lia.
  - rewrite Hob. intros x id [Hx|[<-|[]]]%in_app_iff Hk.
    + destruct (ok_jobs _ Hok x id Hx Hk) as (y&Hy&?). exists y. rewrite Hrs. split; [apply in_app_iff; by left|done].
    + rewrite Hjk in Hk. apply ingest_key_inj in Hk as <-. rewrite Hjt, Hja.
      exists r. split; [|done]. rewrite Hrs. apply in_app_iff. right. by left.
  - intros t a id. rewrite Hob, row_count_snoc. pose proof (ok_job_keys _ Hok t a id).
    destruct (outbox_at t a (ingest_key id) j) eqn:Ej; [|lia].
    apply outbox_at_spec in Ej as (<-&<-&Hk). rewrite Hjk in Hk. apply ingest_key_inj in Hk as <-.
    assert (row_count (outbox_at (ob_tenant j) (ob_app j) (ingest_key (rc_insert_id r))) (outbox d) = 0) as ->; [|lia].
    apply row_count_0. intros x Hx. apply not_true_iff_false. intros (Ht&Ha&Hk)%outbox_at_spec.
    pose proof (ok_job_received _ x _ Hok Hx Hk) as Hr. congruence.
Qed.

Lemma same_user_touch t a u now us : Forall2 same_user us (users (touch_user t a u now (mkDb us [] [] [])).2).
Proof.
  unfold touch_user, modify, update_where. simpl. apply Forall2_fmap_r, Forall_Forall2_diag, Forall_forall.
  intros x _. unfold compose, same_user. by destruct (user_at t a u x).
Qed.

Lemma register_ok n e (d d' : Db) :
  receipts_ok d → register clock_timestamp to_char tenantId appId keyId requestId device identities n e d = (Ok tt, d') →
  is_Some (JMap.get identities (identityKey e)) →
  receipts_ok d' ∧ Forall2 same_user (users d) (users d') ∧
  received tenantId appId (te_insert_id e) d = false ∧
  ∃ r, receipt_of e r ∧ receipts d' = receipts d ++ [r] ∧ outbox d' = outbox d ++ [job_of r].
Proof.
  intros Hok H [u Hu]. unfold register in H. rewrite Hu in H. cbn [default] in H.
  apply bind_ok in H as (o&s1&Ho&H). apply bind_ok in H as (c1&s2&[-> ->]%some_or_throw_ok&H).
  apply advance_cursor_ok in Ho as (c&Hc&Hck&Hok1&Hseq&Hus&Hrs&Hob&Hcks&Hin1&Hmono&Hnn); [|done].
  apply bind_ok in H as ([]&s3&Hr&H). unfold insert_receipt in Hr.
  apply bind_ok in Hr as (dg&s4&[= <- <-]&Hr). apply bind_ok in Hr as ([]&s5&[Hnew ->]%throw_if_ok&Hr).
  injection Hr as <-. set (r := mkReceipt _ _ _ _ _ _ _ _ _ _) in *. cbn [rc_tenant rc_app rc_insert_id] in Hnew.
  rewrite Hrs in Hnew.
  assert (received tenantId appId (te_insert_id e) d = false) as Hfresh.
  { apply not_true_iff_false. intros (x&Hx&Hk)%received_spec. apply not_true_iff_false in Hnew. apply Hnew, existsb_exists.
    exists x. split; [done|]. apply orb_true_iff. left. by apply receipt_at_key. }
  apply bind_ok in H as ([]&s6&Hj&H). unfold insert_outbox in Hj.
  apply bind_ok in Hj as (dg2&s7&[= <- <-]&Hj). cbn [ob_tenant ob_app ob_key outbox set_receipts] in Hj.
  rewrite Hob in Hj.
  destruct (existsb (outbox_at tenantId appId (ingest_key (te_insert_id e))) (outbox d)) eqn:Ej.
  { exfalso. apply existsb_exists in Ej as (x&Hx&(Ht&Ha&Hk)%outbox_at_spec).
    pose proof (ok_job_received _ x _ Hok Hx Hk) as Hrec. rewrite Ht, Ha in Hrec. congruence. }
  injection Hj as <-. injection H as <-. cbn [users cursors receipts outbox set_users set_outbox set_receipts].
  rewrite ?Hus, ?Hrs, ?Hob.
  split; [|split; [apply (same_user_touch tenantId appId u (clock_timestamp n))|split; [done|exists r; unfold receipt_of; by rewrite Hu]]].
  eapply (receipts_ok_add d _ r c c1); try done; cbn [users cursors receipts outbox set_users set_outbox set_receipts];
    rewrite ?Hus, ?Hrs, ?Hob; try done.
  by apply update_where_map.
Qed.

Lemma register_all_ok : ∀ es n (d d' : Db),
  receipts_ok d →
  register_all clock_timestamp to_char tenantId appId keyId requestId device identities n es d = (Ok tt, d') →
  (∀ e, In e es → is_Some (JMap.get identities (identityKey e))) →
  receipts_ok d' ∧ Forall2 same_user (users d) (users d') ∧
  (∀ e, In e es → received tenantId appId (te_insert_id e) d = false) ∧
  ∃ new, Forall2 receipt_of es new ∧ receipts d' = receipts d ++ new ∧ outbox d' = outbox d ++ map job_of new.
Proof.
  induction es as [|e es IH]; intros n d d' Hok H Hid.
  { injection H as <-. split; [done|]. split; [apply Forall_Forall2_diag, Forall_forall; by intros|].
    split; [by intros ? []|]. exists []. by rewrite !app_nil_r. }
  apply bind_ok in H as ([]&d1&H1&H). apply register_ok in H1 as (Hok1&Hu1&Hn1&r&Hr&Hrs1&Hob1);
    [|done|apply Hid; by left].
  apply IH in H as (Hok2&Hu2&Hn2&new&Hnew&Hrs2&Hob2); [|done|intros e' He'; apply Hid; by right].
  split; [done|]. split; [|split].
  - eapply Forall2_trans; [|exact Hu1|exact Hu2].
    intros x y z (?&?&?&?) (?&?&?&?). repeat split; congruence.
  - intros e' [<-|He']; [done|]. specialize (Hn2 e' He'). apply not_true_iff_false.
    intros (x&Hx&Hk)%received_spec. apply not_true_iff_false in Hn2. apply Hn2, received_spec. exists x.
    split; [|done]. rewrite Hrs1. apply in_app_iff. by left.
  - exists (r :: new). split; [by constructor|]. rewrite Hrs2, Hrs1, Hob2, Hob1, <- !app_assoc. done.
Qed.
End Register.

(** ** The deletion of a customer

    What the transaction of the worker's [anonymizeUserOnce]
    ([ingest/receipt_deletion.go]) does to these tables for each customer it
    deletes ([deleteReceiptState] and the update of the profile): receipts,
    cursor and jobs go, the profile stays without its identities. *)

Definition job_mentions (id : string) (o : OutboxRow) : bool :=
  match pl_body (ob_payload o) with P_track _ es => existsb (λ e, String.eqb (ie_user_id e) id) es | _ => false end.

Definition forget_customer (t a id : string) (now : Z) (d : Db) : Db :=
  mkDb
    (update_where (user_at t a id) (λ u, mkUser (us_id u) (us_tenant u) (us_app u) None None UDeleted None (us_last_seen_at u) now) (users d))
    (delete_where (cursor_at t a id) (cursors d))
    (delete_where (λ r, String.eqb (rc_tenant r) t && String.eqb (rc_app r) a && String.eqb (rc_user r) id) (receipts d))
    (delete_where (λ o, String.eqb (ob_tenant o) t && String.eqb (ob_app o) a && job_mentions id o) (outbox d)).

Lemma row_count_filter {A} (q p : A → bool) l : row_count q (List.filter p l) <= row_count q l.
Proof.
  unfold row_count, select. induction l as [|x l IH]; [done|]. simpl. destruct (p x); simpl; destruct (q x); simpl; lia.
Qed.

Lemma forget_ok t a id now d : receipts_ok d → receipts_ok (forget_customer t a id now d).
Proof.
  intros Hok. split; cbn [forget_customer users cursors receipts outbox].
  - rewrite update_where_map by done. apply Hok.
  - apply NoDup_map_filter, Hok.
  - apply NoDup_map_filter, Hok.
  - intros r [Hr Hp]%delete_where_In. destruct (ok_seq _ Hok r Hr) as (c&Hc&Hk&Hs). exists c. split; [|done].
    apply delete_where_In. split; [done|]. unfold cursor_key, customer in Hk. injection Hk as H1 H2 H3.
    unfold cursor_at. by rewrite H1, H2, H3.
  - intros c [Hc _]%delete_where_In. by eapply ok_cursor_nonneg.
  - pose proof (ok_order _ Hok) as Ho. unfold delete_where. induction Ho as [|r l Hr Ho IH]; [constructor|]. simpl.
    destruct (negb _); [|done]. constructor; [|done]. apply List.Forall_forall. intros x [Hx _]%filter_In.
    by apply (proj1 (List.Forall_forall _ _) Hr).
  - intros o i [Ho Hp]%delete_where_In Hk. destruct (ok_jobs _ Hok o i Ho Hk) as (r&Hr&Hrk&Hu). exists r. split; [|done].
    apply delete_where_In. split; [done|]. injection Hrk as -> -> _. unfold job_user, job_mentions in *.
    destruct (pl_body (ob_payload o)) as [dv [|e es]|? ? ?|?|? ? ? ? ?|? ? ? ?|?|?]; try done. injection Hu as Hu. simpl in Hp. rewrite Hu in Hp.
    by destruct (String.eqb (ob_tenant o) t), (String.eqb (ob_app o) a), (String.eqb (rc_user r) id).
  - intros t' a' i. etrans; [apply row_count_filter|apply (ok_job_keys _ Hok)].
Qed.
