(* ===== verification/ReceiptsProps.v ===== *)
(** * Event receipts: what a track call commits

    [peers]: the stores the commits of others lead to.  A call that succeeds
    adds to what the others committed one receipt and one projection job for
    each event that had no receipt when the call looked; a call that fails adds
    nothing. *)

From stdpp Require Import pretty.
From S2P Require Import Prelude JsVal Crypto Json Authz AuthDb AuthServices Team Bootstrap IngestSchemas EventReceipts ReceiptsInv.

#[global] Open Scope Z_scope.

(** ** The commits of others *)

Section Peers.
Context (others : nat → Db → Db).

(** [peers n0 d0 n d]: commits of others at some of the steps [n0 .. n-1] turn
    [d0] into [d]. *)
Inductive peers (n0 : nat) (d0 : Db) : nat → Db → Prop :=
| peers_start : peers n0 d0 n0 d0
| peers_skip n d : peers n0 d0 n d → peers n0 d0 (S n) d
| peers_commit n d : peers n0 d0 n d → peers n0 d0 (S n) (others n d).

(** The others keep the invariant.  They may delete receipts, as the worker does
    with a deleted customer ([ReceiptsInv.forget_ok]) or a purged tenant. *)
Definition peaceful (n0 : nat) (d0 : Db) : Prop :=
  ∀ n d, peers n0 d0 n d → receipts_ok d → receipts_ok (others n d).

Lemma peers_trans n0 d0 n1 d1 n2 d2 : peers n0 d0 n1 d1 → peers n1 d1 n2 d2 → peers n0 d0 n2 d2.
Proof. induction 2; [done| |]; by constructor. Qed.

Lemma peaceful_peers n0 d0 n d : peaceful n0 d0 → receipts_ok d0 → peers n0 d0 n d → receipts_ok d.
Proof. intros Hp Hok. induction 1 as [|n d _ IH|n d Hpe IH]; [done|done|]. by apply Hp. Qed.

Lemma peaceful_later n0 d0 n d : peaceful n0 d0 → peers n0 d0 n d → peaceful n d.
Proof. intros Hp Hpe n' d' H Hok. apply Hp; [|done]. by eapply peers_trans. Qed.
End Peers.

#[export] Hint Constructors peers : nudgeon.

(** ** From BEGIN to the last lock *)

Section Call.
Context (others : nat → Db → Db) (uuid : nat → string) (clock_timestamp : nat → Z) (to_char : Z → string).
Context (localeCompare : string → string → bool) (tenantId appId keyId : string).

Abbreviation prepare_ := (prepare others uuid clock_timestamp localeCompare tenantId appId).
Abbreviation persistOnce_ := (persistOnce others uuid clock_timestamp to_char localeCompare tenantId appId keyId).

(** The committed store has only moved by the commits of others, and the
    cursors inserted are new. *)
Definition only_inserts (n0 : nat) (d0 : Db) (t : Tx) : Prop :=
  peers others n0 d0 (step t) (shared t) ∧ Forall (λ c, cu_last_seq c = 0) (my_cursors t).

Section Inserts.
Context (n0 : nat) (d0 : Db).
Abbreviation P := (only_inserts n0 d0).

Lemma inserts_yield : preserves P (yield others).
Proof. apply preserves_modify. intros t [H1 H2]. split; [by constructor|done]. Qed.

Lemma inserts_select p : preserves P (select_user others p).
Proof. unfold select_user. pose proof inserts_yield. auto with nudgeon. Qed.

Lemma inserts_user c v : preserves P (insert_user others uuid clock_timestamp tenantId appId c v).
Proof.
  unfold insert_user. apply preserves_bind; [apply inserts_yield|intros _].
  apply preserves_bind; [apply preserves_get|intros t]. case_match; [apply preserves_ret|].
  apply preserves_bind; [apply preserves_throw_if|intros _].
  apply preserves_modify. intros t' [H1 H2]. split; [by constructor|done].
Qed.

Lemma inserts_follow fuel : ∀ visited u, preserves P (follow_merges others tenantId appId fuel visited u).
Proof.
  induction fuel as [|fuel IH]; intros visited u; [apply preserves_ret|]. cbn [follow_merges].
  repeat (case_match; try apply preserves_ret).
  apply preserves_bind; [apply inserts_select|intros next; apply IH].
Qed.

Lemma inserts_resolve fuel e : preserves P (resolveUser others uuid clock_timestamp tenantId appId fuel e).
Proof.
  unfold resolveUser. apply preserves_bind; [apply preserves_throw_if|intros _].
  apply preserves_bind; [apply inserts_select|intros found]. apply preserves_bind.
  { destruct found; [apply preserves_ret|].
    apply preserves_bind; [apply inserts_user|intros _; apply inserts_select]. }
  intros user. apply preserves_bind; [apply inserts_follow|intros [u|]]; [|apply preserves_throw].
  apply preserves_bind; [apply preserves_throw_if|intros _; apply preserves_ret].
Qed.

Lemma inserts_resolve_all fuel es : ∀ ids,
  preserves P (resolve_all others uuid clock_timestamp tenantId appId fuel es ids).
Proof.
  induction es as [|e es IH]; intros ids; [apply preserves_ret|]. cbn [resolve_all].
  case_match; [apply IH|]. apply preserves_bind; [apply inserts_resolve|intros id; apply IH].
Qed.

Lemma inserts_cursors ids : preserves P (lock_cursors others clock_timestamp tenantId appId ids).
Proof.
  induction ids as [|u ids IH]; [apply preserves_ret|]. cbn [lock_cursors].
  apply preserves_bind; [|intros _; apply IH]. unfold lock_cursor.
  apply preserves_bind; [apply inserts_yield|intros _].
  apply preserves_bind; [apply preserves_get|intros t]. case_match; [apply preserves_ret|].
  apply preserves_bind; [apply preserves_throw_if|intros _].
  apply preserves_modify. intros t' [H1 H2]. split; [by constructor|]. apply Forall_app; auto.
Qed.
End Inserts.

(** [preserves] for a run from a state at hand *)
Lemma run_preserves {S A} (P : S → Prop) (m : M S A) s r s' : preserves P m → m s = (r, s') → P s → P s'.
Proof. intros Hm E Hs. specialize (Hm s Hs). by rewrite E in Hm. Qed.

Lemma insert_sorted_In {A} (le : A → A → bool) x l y : In y (insert_sorted le x l) ↔ y = x ∨ In y l.
Proof.
  induction l as [|z l IH]; simpl; [firstorder congruence|]. destruct (le x z); simpl; [firstorder congruence|].
  rewrite IH. tauto.
Qed.
Lemma js_sort_In {A} (le : A → A → bool) l y : In y (js_sort le l) ↔ In y l.
Proof.
  induction l as [|x l IH]; [done|]. cbn [js_sort fold_right]. rewrite insert_sorted_In.
  fold (js_sort le l). rewrite IH. simpl. firstorder congruence.
Qed.

Lemma resolve_all_keys fuel es : ∀ ids t ids' t',
  resolve_all others uuid clock_timestamp tenantId appId fuel es ids t = (Ok ids', t') →
  (∀ k, is_Some (JMap.get ids k) → is_Some (JMap.get ids' k)) ∧
  ∀ e, In e es → is_Some (JMap.get ids' (identityKey e)).
Proof.
  induction es as [|e es IH]; intros ids t ids' t'; cbn [resolve_all].
  { intros [= <- <-]. split; [done|by intros ? []]. }
  destruct (JMap.has ids (identityKey e)) eqn:E.
  - intros H. apply IH in H as [H1 H2]. split; [done|]. intros e' [<-|He']; [|by apply H2].
    apply H1, JMap.get_keys. by apply JMap.has_keys.
  - intros H. apply bind_ok in H as (id&t1&_&H). apply IH in H as [H1 H2]. split.
    + intros k Hk. apply H1. rewrite JMap.get_set. by case_match.
    + intros e' [<-|He']; [|by apply H2]. apply H1. by rewrite JMap.get_set, String.eqb_refl.
Qed.

Lemma view_nothing d n : view (mkTx d [] [] n) = d.
Proof. by destruct d. Qed.

(** The outcome of the first part. *)
Lemma prepare_ok fuel body n0 d0 r t :
  prepare_ fuel body (mkTx d0 [] [] n0) = (r, t) →
  only_inserts n0 d0 t ∧
  match r with
  | Ok None => ∃ n1 d1, peers others n0 d0 n1 d1 ∧ peers others n1 d1 (step t) (shared t) ∧
      unseen tenantId appId body d1 = [] ∧ view t = shared t
  | Ok (Some (es, ids)) => ∃ n1 d1, peers others n0 d0 n1 d1 ∧ peers others n1 d1 (step t) (shared t) ∧
      es = unseen tenantId appId body d1 ∧ ∀ e, In e es → is_Some (JMap.get ids (identityKey e))
  | Throw _ => True
  end.
Proof.
  set (n1 := S n0). set (d1 := others n0 d0). set (t1 := mkTx d1 [] [] n1).
  assert (peers others n0 d0 n1 d1) as H1 by (constructor; constructor).
  assert (only_inserts n1 d1 t1) as Hi1 by (split; [constructor|done]).
  assert (∀ t, only_inserts n1 d1 t → only_inserts n0 d0 t) as Hup.
  { intros t' [? ?]. split; [by eapply peers_trans|done]. }
  change (prepare_ fuel body (mkTx d0 [] [] n0)) with
    ((if Nat.eqb (length (unseen tenantId appId body (view t1))) 0 then mret None
      else
        identities ← resolve_all others uuid clock_timestamp tenantId appId fuel
          (js_sort (λ a b, localeCompare (identityKey a) (identityKey b)) (unseen tenantId appId body (view t1))) [];
        _ ← lock_cursors others clock_timestamp tenantId appId (js_sort String.leb (dedup (JMap.values identities)));
        _ ← yield others;
        mret (Some (unseen tenantId appId body (view t1), identities))) t1).
  change (unseen tenantId appId body (view t1)) with (unseen tenantId appId body d1).
  destruct (Nat.eqb_spec (length (unseen tenantId appId body d1)) 0) as [Hnil|Hcons].
  { intros [= <- <-]. split; [by apply Hup|]. exists n1, d1. apply nil_length_inv in Hnil.
    split; [done|]. split; [constructor|]. split; [done|]. apply view_nothing. }
  intros H. assert (only_inserts n1 d1 t) as Hi.
  { refine (run_preserves _ _ _ _ _ _ H Hi1). apply preserves_bind; [apply inserts_resolve_all|intros ids].
    apply preserves_bind; [apply inserts_cursors|intros _].
    apply preserves_bind; [apply inserts_yield|intros _; apply preserves_ret]. }
  split; [by apply Hup|]. destruct r as [[[es ids]|]|]; [|exfalso|done].
  - apply bind_ok in H as (ids'&t2&Hr&H). apply bind_ok in H as ([]&t3&_&H).
    apply bind_ok in H as ([]&t4&_&[= <- <- <-]).
    exists n1, d1. split; [done|]. split; [apply Hi|]. split; [done|]. intros e He.
    apply resolve_all_keys in Hr as [_ Hr]. by apply Hr, js_sort_In.
  - apply bind_ok in H as (ids'&t2&Hr&H). apply bind_ok in H as ([]&t3&_&H). by apply bind_ok in H as ([]&t4&_&[=]).
Qed.
(** What a successful call has added to [base], what the others have committed:
    the events without a receipt in [seen], the store it looked at. *)
Definition committed (body : TrackBody) (requestId : string) (seen base d : Db) (k : Z) : Prop :=
  ∃ identities new,
    receipts d = receipts base ++ new ∧
    outbox d = outbox base ++ map (job_of to_char tenantId appId keyId requestId (tb_device body)) new ∧
    k = Z.of_nat (length new) ∧
    Forall2 (receipt_of tenantId appId (tb_device body) identities) (unseen tenantId appId body seen) new ∧
    (∀ e, In e (unseen tenantId appId body seen) → received tenantId appId (te_insert_id e) base = false) ∧
    ∀ r, In r new → ∃ u, In u (users d) ∧ user_at tenantId appId (rc_user r) u = true ∧ us_status u = UActive.

Lemma profiles_active ids (d d' : Db) id : receipts_ok d → List.NoDup ids →
  check_profiles tenantId appId ids d = (Ok tt, d') → In id ids →
  d' = d ∧ ∃ u, In u (users d) ∧ user_at tenantId appId id u = true ∧ us_status u = UActive.
Proof.
  intros Hok Hnd H Hid. unfold check_profiles in H. apply bind_ok in H as (dg&s1&[= <- <-]&H).
  apply throw_if_ok in H as [H ->]. split; [done|].
  apply orb_false_iff in H as [Hlen%negb_false_iff%Nat.eqb_eq Hact].
  set (profiles := select _ (users d)) in *.
  assert (∀ u, In u profiles → In u (users d) ∧ In (us_id u) ids ∧ user_at tenantId appId (us_id u) u = true) as Hpr.
  { intros u (Hu&(i&Hi&Hat)%existsb_exists)%select_In. pose proof Hat as (_&_&<-)%user_at_spec. auto. }
  assert (incl ids (map us_id profiles)) as Hincl.
  { apply NoDup_length_incl.
    - unfold profiles, select. pose proof (ok_user_ids _ Hok) as Hn. clear -Hn.
      induction (users d) as [|u us IH]; [constructor|]. simpl. inversion Hn; subst.
      case_match; [|by apply IH]. simpl. constructor; [|by apply IH].
      rewrite in_map_iff. intros (x&Hx&[Hin _]%filter_In). apply H1. rewrite <- Hx. by apply in_map.
    - rewrite length_map. lia.
    - intros i (u&<-&Hu)%in_map_iff. by apply Hpr. }
  apply Hincl in Hid as (u&<-&Hu)%in_map_iff. exists u. destruct (Hpr u Hu) as (?&_&?). split; [done|]. split; [done|].
  apply not_true_iff_false in Hact. apply dec_stable. intros Hna. apply Hact, existsb_exists. exists u.
  split; [done|]. by rewrite bool_decide_eq_false_2.
Qed.

Lemma js_sort_NoDup (l : list string) : List.NoDup l → List.NoDup (js_sort String.leb l).
Proof.
  induction 1 as [|x l Hx Hl IH]; [constructor|]. cbn [js_sort fold_right]. fold (js_sort String.leb l).
  assert (¬ In x (js_sort String.leb l)) as Hx' by (by rewrite js_sort_In).
  clear Hx Hl. induction (js_sort String.leb l) as [|y k IHk]; [repeat constructor; by intros []|]. simpl.
  inversion IH; subst. destruct (String.leb x y); [by constructor|]. constructor.
  - rewrite insert_sorted_In. intros [->|?]; [|done]. apply Hx'. by left.
  - apply IHk; [done|]. intros ?. apply Hx'. by right.
Qed.

Lemma same_users_In us us' u : Forall2 same_user us us' → In u us → ∃ u', In u' us' ∧ same_user u u'.
Proof.
  induction 1 as [|x y us us' Hxy Hus IH]; [by intros []|]. intros [<-|Hu].
  - exists y. split; [by left|done].
  - destruct (IH Hu) as (u'&?&?). exists u'. split; [by right|done].
Qed.

Lemma values_get m k v : JMap.get m k = Some v → In v (JMap.values (V:=string) m).
Proof. intros H%JMap.get_In. apply in_map_iff. by exists (k, v). Qed.

Lemma record_events_ok body requestId n es ids (d d' : Db) k :
  receipts_ok d → (∀ e, In e es → is_Some (JMap.get ids (identityKey e))) →
  record_events clock_timestamp to_char tenantId appId keyId body requestId n (Some (es, ids)) d = (Ok k, d') →
  receipts_ok d' ∧ (∀ e, In e es → received tenantId appId (te_insert_id e) d = false) ∧
  ∃ new, receipts d' = receipts d ++ new ∧
    outbox d' = outbox d ++ map (job_of to_char tenantId appId keyId requestId (tb_device body)) new ∧
    k = Z.of_nat (length new) ∧ Forall2 (receipt_of tenantId appId (tb_device body) ids) es new ∧
    ∀ r, In r new → ∃ u, In u (users d') ∧ user_at tenantId appId (rc_user r) u = true ∧ us_status u = UActive.
Proof.
  intros Hok Hids H. cbn [record_events] in H.
  apply bind_ok in H as ([]&d1&Hcheck&H). apply bind_ok in H as ([]&d2&Hreg&[= <- <-]).
  assert (d1 = d) as -> by (unfold check_profiles in Hcheck;
    apply bind_ok in Hcheck as (dg&s1&[= <- <-]&[_ ->]%throw_if_ok); done).
  apply register_all_ok in Hreg as (Hok2&Hus&Hnew&new&Hf&Hrs&Hob); [|done|done].
  split; [done|]. split; [done|]. exists new. do 2 (split; [done|]).
  split; [by rewrite (Forall2_length _ _ _ Hf)|]. split; [done|].
  intros r Hr. destruct (Forall2_In_r _ _ _ _ Hf Hr) as (e&_&_&Hid&_).
  apply values_get, dedup_In, (js_sort_In String.leb) in Hid.
  destruct (profiles_active _ d d (rc_user r) Hok (js_sort_NoDup _ (dedup_NoDup _)) Hcheck Hid) as (_&u&Hu&Hat&Hact).
  destruct (same_users_In _ _ u Hus Hu) as (u'&Hu'&Hs1&Hs2&Hs3&Hs4). exists u'. split; [done|].
  apply user_at_spec in Hat as (?&?&?). split; [|congruence]. apply user_at_spec. split; [|split]; congruence.
Qed.

(** A call that answered [k] looked at [seen] and committed over [base]. *)
Definition answered (body : TrackBody) (requestId : string) (s : Shared) (d : Db) (k : Z) (seen base : Db) : Prop :=
  ∃ n1 n2, peers others (snd s) (fst s) n1 seen ∧ peers others n1 seen n2 base ∧ committed body requestId seen base d k.

(** One attempt. *)
Lemma persistOnce_ok fuel failure body requestId s r s' :
  receipts_ok (fst s) → peaceful others (snd s) (fst s) →
  persistOnce_ fuel failure body requestId s = (r, s') →
  receipts_ok (fst s') ∧
  match r with
  | Ok k => ∃ seen base, answered body requestId s (fst s') k seen base
  | Throw _ => peers others (snd s) (fst s) (snd s') (fst s')
  end.
Proof.
  destruct s as [d0 n0]. cbn [fst snd]. intros Hok Hpe. unfold persistOnce.
  destruct (prepare _ _ _ _ _ _ _ _ _) as [rp t] eqn:Ep.
  apply prepare_ok in Ep as [[Hpt H0] Hr].
  pose proof (peaceful_peers _ _ _ _ _ Hpe Hok Hpt) as Hokt.
  destruct rp as [prepared|e]; [|intros [= <- <-]; done].
  destruct (record_events _ _ _ _ _ _ _ _ _ _) as [[k|e] d] eqn:Er; [|intros [= <- <-]; done].
  destruct failure as [e|]; [intros [= <- <-]; done|]. intros [= <- <-]. unfold answered. cbn [fst snd].
  destruct prepared as [[es ids]|].
  - destruct Hr as (n1&d1&Hp1&Hp2&->&Hids).
    apply record_events_ok in Er as (Hokd&Hnew&new&Hrs&Hob&Hk&Hf&Hact); [|by apply view_ok|done].
    split; [done|]. exists d1, (shared t), n1, (step t). split; [done|]. split; [done|]. exists ids, new.
    split; [exact Hrs|]. split; [exact Hob|]. done.
  - destruct Hr as (n1&d1&Hp1&Hp2&Hnil&Hv). injection Er as <- <-. rewrite Hv. split; [done|].
    exists d1, (shared t), n1, (step t). split; [done|]. split; [done|]. exists [], []. rewrite !app_nil_r, Hnil.
    split_and!; try done.
Qed.

Lemma attempts_ok fuel failures body requestId left : ∀ attempt s r s',
  receipts_ok (fst s) → peaceful others (snd s) (fst s) →
  attempts others uuid clock_timestamp to_char localeCompare tenantId appId keyId
    fuel failures left attempt body requestId s = (r, s') →
  receipts_ok (fst s') ∧
  match r with
  | Ok k => ∃ seen base, answered body requestId s (fst s') k seen base
  | Throw _ => peers others (snd s) (fst s) (snd s') (fst s')
  end.
Proof.
  induction left as [|left IH]; intros attempt s r s' Hok Hpe; cbn [attempts];
    destruct (persistOnce_ fuel (failures attempt) body requestId s) as [[k|e] s1] eqn:E;
    apply persistOnce_ok in E as [Hok1 H1]; try done; try (intros [= <- <-]; done).
  destruct (retryable e); [|intros [= <- <-]; done].
  intros H. apply IH in H as [Hok' H']; [|done|by eapply peaceful_later]. split; [done|].
  destruct r as [k|e']; [|by eapply peers_trans].
  destruct H' as (seen&base&n1&n2&Hs&Hb&Hc). exists seen, base, n1, n2. split; [by eapply peers_trans|done].
Qed.
End Call.

(** ** The events of a batch *)

Lemma add_first_ids us e x :
  In x (map te_insert_id (add_first us e)) ↔ In x (map te_insert_id us) ∨ x = to_lower (te_insert_id e).
Proof.
  unfold add_first. destruct (existsb _ us) eqn:E.
  - apply existsb_exists in E as (y&Hy&Hk%String.eqb_eq). split; [by left|]. intros [?| ->]; [done|].
    simpl in Hk. rewrite <- Hk. by apply in_map.
  - rewrite map_app, in_app_iff. simpl. split; [intros [?|[<-|[]]]; auto|intros [?| ->]; auto].
Qed.

Lemma first_of_each_ids batch x :
  In x (map te_insert_id (first_of_each batch)) ↔ ∃ e, In e batch ∧ x = to_lower (te_insert_id e).
Proof.
  unfold first_of_each.
  assert (∀ us, In x (map te_insert_id (fold_left add_first batch us)) ↔
    In x (map te_insert_id us) ∨ ∃ e, In e batch ∧ x = to_lower (te_insert_id e)) as H; [|rewrite H; simpl; tauto].
  induction batch as [|e batch IH]; intros us; cbn [fold_left].
  { split; [by left|]. by intros [?|(?&[]&_)]. }
  rewrite IH, add_first_ids. split.
  - intros [[?| ->]|(e'&?&?)]; [by left| |]; right; [exists e|exists e']; (split; [|done]); [by left|by right].
  - intros [?|(e'&[->|?]&?)]; [by left; left|by left; right|]. right. by exists e'.
Qed.

(** Which events of the batch have a receipt once the call has committed: all but
    those whose receipt was deleted between the look and the commit. *)
Lemma committed_received to_char tenantId appId keyId body requestId seen base d k e :
  committed to_char tenantId appId keyId body requestId seen base d k → In e (tb_batch body) →
  let id := to_lower (te_insert_id e) in
  received tenantId appId id d = (received tenantId appId id base || negb (received tenantId appId id seen)).
Proof.
  intros (ids&new&Hrs&_&_&Hf&_) He. cbv zeta. set (id := to_lower (te_insert_id e)).
  assert (received tenantId appId id d = received tenantId appId id base || existsb (receipt_at tenantId appId id) new) as ->
    by (unfold received; by rewrite Hrs, existsb_app).
  f_equal. apply eq_true_iff_eq. rewrite negb_true_iff, existsb_exists. split.
  - intros (r&Hr&Hk%receipt_at_key). destruct (Forall2_In_r _ _ _ _ Hf Hr) as (e1&He1&Hk1&_).
    rewrite Hk in Hk1. injection Hk1 as ->. by apply filter_In in He1 as [_ ?%negb_true_iff].
  - intros Hs. assert (In id (map te_insert_id (first_of_each (tb_batch body)))) as (e1&Heq&He1)%in_map_iff
      by (apply first_of_each_ids; eauto).
    destruct (Forall2_In_l _ _ _ e1 Hf) as (r&Hr&Hk&_).
    { apply filter_In. split; [done|]. fold (received tenantId appId (te_insert_id e1) seen). by rewrite Heq, Hs. }
    exists r. split; [done|]. apply receipt_at_key. by rewrite Hk, Heq.
Qed.

Lemma received_once t a i d : receipts_ok d → received t a i d = true → row_count (receipt_at t a i) (receipts d) = 1.
Proof.
  intros Hok (r&Hr&Hk)%received_spec. pose proof (ok_receipt_keys _ Hok) as Hnd. revert Hr Hnd.
  unfold row_count, select. induction (receipts d) as [|x l IH]; intros Hr Hnd; [done|]. simpl in *.
  inversion Hnd as [|? ? Hx Hnd']; subst. destruct Hr as [->|Hr].
  - rewrite (proj2 (receipt_at_key _ _ _ _) Hk). simpl.
    assert (List.filter (receipt_at t a i) l = []) as ->; [|done].
    destruct (List.filter _ l) as [|y l'] eqn:E; [done|]. exfalso. apply Hx.
    assert (In y (List.filter (receipt_at t a i) l)) as [Hy Hyk%receipt_at_key]%filter_In by (rewrite E; by left).
    rewrite Hk, <- Hyk. by apply in_map.
  - destruct (receipt_at t a i x) eqn:E; [|by apply IH]. exfalso. apply Hx. apply receipt_at_key in E.
    rewrite E, <- Hk. by apply in_map.
Qed.

(** ** Properties *)

(** C9. A track call is all or nothing and counts every event once, while other
    transactions commit around it, the deletion of customers by the worker
    included.  Whatever the others commit, whatever errors PostgreSQL raises
    and however often the call retries: if it returns, the store is what the
    others committed plus, for each event of the batch (the first of equal
    [insert_id]s, compared without case) that had no receipt when it looked
    under the event locks, one receipt with that event's data under a customer
    active at commit, and one projection job with the same data.  Afterwards
    every event of the batch has exactly one receipt, unless it had one that the
    others deleted between the look and the commit: then none.  Receipts of a
    customer are numbered in the order stored, and sending events again that
    still have a receipt returns at once and adds nothing.  If the call throws,
    the store holds the others' commits only. *)
Theorem track_exactly_once others uuid clock_timestamp to_char localeCompare tenantId appId keyId
  fuel failures body requestId s r s'
  (Hok : receipts_ok (fst s)) (Hpeers : peaceful others (snd s) (fst s))
  (Hcall : persistTrackReceipts others uuid clock_timestamp to_char localeCompare tenantId appId keyId
     fuel failures body requestId s = (r, s')) :
  receipts_ok (fst s') ∧
  match r with
  | Throw _ => peers others (snd s) (fst s) (snd s') (fst s')
  | Ok k =>
      ∃ seen base, answered others to_char tenantId appId keyId body requestId s (fst s') k seen base ∧
      (∀ e, In e (tb_batch body) → let id := to_lower (te_insert_id e) in
        row_count (receipt_at tenantId appId id) (receipts (fst s')) =
          if received tenantId appId id seen && negb (received tenantId appId id base) then 0 else 1) ∧
      ∀ failures' body' requestId', failures' 0%nat = None →
        (∀ e, In e (tb_batch body') → received tenantId appId (to_lower (te_insert_id e)) (fst s') = true) →
        persistTrackReceipts (λ _ d, d) uuid clock_timestamp to_char localeCompare tenantId appId keyId
          fuel failures' body' requestId' s' = (Ok 0, (fst s', S (snd s')))
  end.
Proof.
  unfold persistTrackReceipts in Hcall.
  apply attempts_ok in Hcall as [Hok' H]; [|done|done]. split; [done|]. destruct r as [k|e]; [|done].
  destruct H as (seen&base&Ha). exists seen, base. split; [done|]. destruct Ha as (n1&n2&_&_&Hc). split.
  - intros e He. cbv zeta. pose proof (committed_received _ _ _ _ _ _ _ _ _ _ e Hc He) as Hrec. cbv zeta in Hrec.
    destruct (received _ _ _ (fst s')) eqn:Er.
    + rewrite received_once by done. by destruct (received _ _ _ seen), (received _ _ _ base).
    + transitivity 0; [apply row_count_0; intros x Hx; apply not_true_iff_false; intros Hx2; apply not_true_iff_false in Er;
        apply Er, existsb_exists; eauto|].
      by destruct (received _ _ _ seen), (received _ _ _ base).
  - intros failures' body' requestId' Hf Hsub. destruct s' as [d' n']. cbn [fst snd] in *.
    assert (unseen tenantId appId body' d' = []) as Hnil.
    { unfold unseen. destruct (List.filter _ _) as [|e1 l] eqn:E; [done|]. exfalso.
      match type of E with List.filter ?p ?es = _ =>
        assert (In e1 (List.filter p es)) as [He1 Hno]%filter_In by (rewrite E; by left) end.
      apply negb_true_iff in Hno. apply (in_map te_insert_id), first_of_each_ids in He1 as (e&He&Hk).
      pose proof (Hsub e He) as Hrec. rewrite <- Hk in Hrec. unfold received in Hrec. congruence. }
    unfold persistTrackReceipts, attempts, persistOnce, prepare. cbn [fst snd]. rewrite Hf.
    unfold mbind, M_bind, mret, M_ret, yield, modify, get. cbn [shared my_users my_cursors step].
    rewrite view_nothing, Hnil. cbn [length Nat.eqb step record_events]. rewrite view_nothing. done.
Qed.
