(* ===== verification/ReceiptsMerge.v ===== *)
(** * Event receipts: the loop over merged customers

    [follow_merges] ends whatever other transactions commit meanwhile, as long
    as the customers that ever exist are finitely many; undisturbed, it finds
    the canonical customer a chain of tombstones leads to. *)

From stdpp Require Import pretty.
From S2P Require Import Prelude JsVal Crypto Json Authz AuthDb AuthServices Team Bootstrap IngestSchemas EventReceipts ReceiptsInv ReceiptsProps.

#[global] Open Scope Z_scope.

Section Merge.
Context (others : nat → Db → Db) (tenantId appId : string).

(** ** The loop ends *)

Section Ends.
Context (U : list string) (n0 : nat) (d0 : Db).
Hypothesis all_users : ∀ n d, peers others n0 d0 n d → incl (map us_id (users d)) U.

(** The transaction started at [d0] and has inserted customers of [U] only. *)
Definition bounded (t : Tx) : Prop :=
  peers others n0 d0 (step t) (shared t) ∧ incl (map us_id (my_users t)) U.

Lemma fold_user_rows_In us l u : In u (fold_left insert_user_row l us) → In u us ∨ In u l.
Proof.
  revert us. induction l as [|x l IH]; intros us; cbn [fold_left]; [by left|]. intros [H|H]%IH; [|by right; right].
  unfold insert_user_row in H. case_match; [by left|].
  apply in_app_iff in H as [?|[<-|[]]]; [by left|right; by left].
Qed.

Lemma bounded_select p t r t' : bounded t → select_user others p t = (r, t') →
  bounded t' ∧ ∃ o, r = Ok o ∧ ∀ u, o = Some u → In (us_id u) U.
Proof.
  intros [Hp Hm]. intros [= <- <-]. cbn [shared my_users step].
  assert (peers others n0 d0 (S (step t)) (others (step t) (shared t))) as Hp' by (by constructor).
  split; [done|]. eexists. split; [done|]. intros u [Hu _]%select1_Some.
  apply fold_user_rows_In in Hu as [Hu|Hu].
  - apply (all_users _ _ Hp'). by apply in_map.
  - apply Hm. by apply in_map.
Qed.

Lemma follow_ends fuel : ∀ fuel' visited user t,
  bounded t → List.NoDup visited → incl visited U → (∀ u, user = Some u → In (us_id u) U) →
  (length U < fuel + length visited)%nat → (length U < fuel' + length visited)%nat →
  follow_merges others tenantId appId fuel visited user t = follow_merges others tenantId appId fuel' visited user t
  ∧ ∃ o t', follow_merges others tenantId appId fuel visited user t = (Ok o, t').
Proof.
  induction fuel as [|fuel IH]; intros fuel' visited user t Ht Hnd Hin Hu Hf Hf'.
  { pose proof (NoDup_incl_length Hnd Hin). lia. }
  destruct fuel' as [|fuel']; [pose proof (NoDup_incl_length Hnd Hin); lia|].
  cbn [follow_merges]. destruct user as [u|]; [|split; eauto]. destruct (us_merged_into u) as [into|]; [|split; eauto].
  destruct (_ && _ && _) eqn:Hc; [|split; eauto]. apply andb_true_iff in Hc as [_ Hc%negb_true_iff%String_in_false].
  destruct (select_user others (user_at tenantId appId into) t) as [r t1] eqn:E.
  destruct (bounded_select _ _ _ _ Ht E) as (Ht1&o&->&Ho).
  unfold mbind, M_bind. rewrite E.
  assert (List.NoDup (us_id u :: visited)) as Hnd' by (by constructor).
  assert (incl (us_id u :: visited) U) as Hin' by (intros x [<-|Hx]; [by apply Hu|by apply Hin]).
  apply IH; try done; simpl; lia.
Qed.
End Ends.

(** ** The canonical customer *)

(** [hops d v k u]: [k] tombstones lead from [u] to [v]. *)
Inductive hops (d : Db) (v : User) : nat → User → Prop :=
| hops_here : hops d v 0 v
| hops_next k u into u' :
    us_status u = UMerged → us_merged_into u = Some into → into ≠ "" →
    select1 (user_at tenantId appId into) (users d) = Some u' → hops d v k u' → hops d v (S k) u.

Lemma hops_det d v k j u : us_status v ≠ UMerged → hops d v k u → hops d v j u → k = j.
Proof.
  intros Hv H. revert j. induction H as [|k u into u' Hs Hm Hi Hsel H IH]; intros j Hj.
  - inversion Hj; subst; congruence.
  - inversion Hj as [|j' ? into' u'' Hs' Hm' Hi' Hsel' Hj']; subst; [congruence|]. f_equal. apply IH.
    assert (into' = into) as -> by congruence. rewrite Hsel in Hsel'. by injection Hsel' as ->.
Qed.

Lemma follow_canonical d v k : ∀ fuel visited u t,
  (∀ n, others n d = d) → List.NoDup (map us_id (users d)) → us_status v ≠ UMerged →
  shared t = d → my_users t = [] → In u (users d) → hops d v k u → (k < fuel)%nat →
  (∀ x, In x visited → ∃ w j, In w (users d) ∧ us_id w = x ∧ hops d v j w ∧ (k < j)%nat) →
  ∃ t', follow_merges others tenantId appId fuel visited (Some u) t = (Ok (Some v), t').
Proof.
  induction k as [|k IH]; intros fuel visited u t Hq Hnd Hv Hd Hm Hu Hh Hf Hvis;
    (destruct fuel as [|fuel]; [lia|]); inversion Hh as [|k' ? into u' Hs Hmi Hi Hsel Hh']; subst; cbn [follow_merges].
  - destruct (us_merged_into _); [|by eexists]. rewrite bool_decide_eq_false_2 by done. by eexists.
  - rewrite Hmi, bool_decide_eq_true_2 by done. destruct (String.eqb_spec into ""); [done|].
    assert (String_in (us_id u) visited = false) as ->.
    { apply String_in_false. intros Hx. destruct (Hvis _ Hx) as (w&j&Hw&Hid&Hj&Hlt).
      assert (w = u) as -> by (by eapply (NoDup_map_eq us_id)). pose proof (hops_det _ _ _ _ _ Hv Hh Hj). lia. }
    cbn [negb andb]. unfold mbind at 1, M_bind at 1, select_user, yield, modify, get.
    unfold mbind, M_bind, mret, M_ret. cbn [shared my_users my_cursors step].
    set (t1 := mkTx (others (step t) (shared t)) (my_users t) (my_cursors t) (S (step t))).
    assert (users (view t1) = users (shared t)) as ->.
    { unfold view, t1. cbn [users shared my_users]. by rewrite Hq, Hm. }
    rewrite Hsel. apply (IH fuel (us_id u :: visited) u' t1); try done.
    + unfold t1. cbn [shared]. apply Hq.
    + by apply select1_Some in Hsel as [? _].
    + lia.
    + intros x [<-|Hx]; [exists u, (S k); auto|]. destruct (Hvis x Hx) as (w&j&?&?&?&?). exists w, j. repeat split; try done. lia.
Qed.
End Merge.

(** The loop that follows merged customers ends, with any commits of other
    requests between its reads - cycles of tombstones included: when [U] holds
    every customer there is while it runs, any fuel above its size gives the
    same result, and a result is returned.  Undisturbed, when tombstones lead
    from a customer to one that is not a tombstone, the loop returns it. *)
Theorem merge_chain_ends tenantId appId U fuel fuel'
  (Hfuel : (length U < fuel)%nat) (Hfuel' : (length U < fuel')%nat) :
  (∀ others n0 d0 t user, (∀ n d, peers others n0 d0 n d → incl (map us_id (users d)) U) →
     bounded others U n0 d0 t → (∀ u, user = Some u → In (us_id u) U) →
     follow_merges others tenantId appId fuel [] user t = follow_merges others tenantId appId fuel' [] user t ∧
     ∃ o t', follow_merges others tenantId appId fuel [] user t = (Ok o, t')) ∧
  (∀ d v k u n cs, List.NoDup (map us_id (users d)) → incl (map us_id (users d)) U →
     us_status v ≠ UMerged → In u (users d) → hops tenantId appId d v k u →
     ∃ t', follow_merges (λ _ d, d) tenantId appId fuel [] (Some u) (mkTx d [] cs n) = (Ok (Some v), t')).
Proof.
  split.
  - intros others n0 d0 t user HU Ht Hu.
    apply (follow_ends others tenantId appId U n0 d0 HU); simpl; try done; try lia; [constructor|by intros ? []].
  - intros d v k u n cs Hnd Hin Hv Hu Hh.
    destruct (follow_canonical (λ _ d, d) tenantId appId d v k (S (k + fuel)) [] u (mkTx d [] cs n)) as (t'&Ht'); try done; [lia|].
    assert (∀ n' d', peers (λ _ d, d) n d n' d' → d' = d) as Hstill by (induction 1; done).
    assert (∀ n' d', peers (λ _ d, d) n d n' d' → incl (map us_id (users d')) U) as HU.
    { intros n' d' ->%Hstill. done. }
    destruct (follow_ends (λ _ d, d) tenantId appId U n d HU fuel (S (k + fuel)) [] (Some u) (mkTx d [] cs n)) as [He _];
      simpl; try lia; try constructor; try done.
    + constructor.
    + by intros ? [].
    + intros x [].
    + intros w [= <-]. apply Hin. by apply in_map.
    + exists t'. by rewrite He.
Qed.

(** A chain of two tombstones, and a cycle. *)
Definition user_row (id : string) (st : UserStatus) (into : option string) : User :=
  mkUser id "t" "a" (Some ("ext-" +:+ id)) None st into None 0.
Definition chain : Db :=
  mkDb [user_row "u1" UMerged (Some "u2"); user_row "u2" UMerged (Some "u3"); user_row "u3" UActive None;
        user_row "c1" UMerged (Some "c2"); user_row "c2" UMerged (Some "c1")] [] [] [].

Lemma merge_chain_ends_witness :
  ∃ t t', follow_merges (λ _ d, d) "t" "a" 6 [] (Some (user_row "u1" UMerged (Some "u2"))) (mkTx chain [] [] 0)
    = (Ok (Some (user_row "u3" UActive None)), t) ∧
  follow_merges (λ _ d, d) "t" "a" 6 [] (Some (user_row "c1" UMerged (Some "c2"))) (mkTx chain [] [] 0)
    = follow_merges (λ _ d, d) "t" "a" 1000 [] (Some (user_row "c1" UMerged (Some "c2"))) (mkTx chain [] [] 0) ∧
  follow_merges (λ _ d, d) "t" "a" 6 [] (Some (user_row "c1" UMerged (Some "c2"))) (mkTx chain [] [] 0)
    = (Ok (Some (user_row "c1" UMerged (Some "c2"))), t').
Proof.
  destruct (merge_chain_ends "t" "a" ["u1"; "u2"; "u3"; "c1"; "c2"] 6 1000 ltac:(simpl; lia) ltac:(simpl; lia)) as [Hends Hcan].
  destruct (Hcan chain (user_row "u3" UActive None) 2%nat (user_row "u1" UMerged (Some "u2")) 0%nat []) as (t&Ht).
  - simpl. repeat constructor; simpl; intuition discriminate.
  - apply incl_refl.
  - done.
  - by left.
  - eapply hops_next; [done|done|done|vm_compute; reflexivity|].
    eapply hops_next; [done|done|done|vm_compute; reflexivity|]. constructor.
  - destruct (Hends (λ _ d, d) 0%nat chain (mkTx chain [] [] 0) (Some (user_row "c1" UMerged (Some "c2")))) as [He _].
    + intros n d H. assert (d = chain) as -> by (by induction H). apply incl_refl.
    + split; [constructor|]. by intros ? [].
    + intros u [= <-]. simpl. auto.
    + exists t. eexists. split; [exact Ht|]. split; [exact He|]. vm_compute. reflexivity.
Defined.
