(* ===== verification/Shutdown.v ===== *)
(** * Draining the process

    [infra/shutdown-state.ts]: the admission gate in front of every request,
    the counts of open requests and of background work, and the waits of a
    shutdown.  The life of the process is a sequence of events; a response
    may emit both [finish] and [close], and [release] counts it once. *)

From S2P Require Import Prelude.

#[global] Open Scope Z_scope.

Inductive BackgroundKind := raw_ingestions | api_key_last_used.
#[global] Instance BackgroundKind_eq_dec : EqDecision BackgroundKind.
Proof. solve_decision. Defined.

Record ShutdownState := mkShutdown {
  draining : bool;
  activeRequests : Z;
  background_raw : Z;
  background_key : Z;
  open_requests : list nat }.   (** requests let through whose [finished] is still false *)

Definition fresh : ShutdownState := mkShutdown false 0 0 0 [].

(** [middleware] for the request [i]: whether it is let through, or answered
    503 with [Retry-After: 1]. *)
Definition middleware (i : nat) (s : ShutdownState) : bool * ShutdownState :=
  if draining s then (false, s)
  else (true, mkShutdown false (activeRequests s + 1) (background_raw s) (background_key s) (i :: open_requests s)).

(** [release] of the request [i]; only its first call counts. *)
Definition release (i : nat) (s : ShutdownState) : ShutdownState :=
  if existsb (Nat.eqb i) (open_requests s)
  then mkShutdown (draining s) (activeRequests s - 1) (background_raw s) (background_key s)
         (List.filter (λ j, negb (Nat.eqb i j)) (open_requests s))
  else s.

Definition beginDrain (s : ShutdownState) : ShutdownState :=
  mkShutdown true (activeRequests s) (background_raw s) (background_key s) (open_requests s).

Definition add_background (k : BackgroundKind) (n : Z) (s : ShutdownState) : ShutdownState :=
  match k with
  | raw_ingestions => mkShutdown (draining s) (activeRequests s) (background_raw s + n) (background_key s) (open_requests s)
  | api_key_last_used => mkShutdown (draining s) (activeRequests s) (background_raw s) (background_key s + n) (open_requests s)
  end.
(** [runBackground]: the count while the work runs, and its [finally] *)
Definition runBackground (k : BackgroundKind) (s : ShutdownState) : ShutdownState := add_background k 1 s.
Definition background_done (k : BackgroundKind) (s : ShutdownState) : ShutdownState := add_background k (-1) s.

Definition requests_done (s : ShutdownState) : bool := activeRequests s =? 0.
Definition all_background_done (s : ShutdownState) : bool := (background_raw s =? 0) && (background_key s =? 0).

(** [waitUntil]: [notified] are the states at the notifications before the
    timeout. *)
Definition waitUntil (done : ShutdownState → bool) (s : ShutdownState) (notified : list ShutdownState) : bool :=
  done s || existsb done notified.
Definition waitForRequests := waitUntil requests_done.
Definition waitForBackground := waitUntil all_background_done.

(** ** Runs *)

Inductive Event :=
| Arrive (i : nat) | Finish (i : nat) | Close (i : nat) | Drain
| Start (k : BackgroundKind) | Done (k : BackgroundKind).

Definition on_event (e : Event) (s : ShutdownState) : ShutdownState :=
  match e with
  | Arrive i => (middleware i s).2
  | Finish i | Close i => release i s
  | Drain => beginDrain s
  | Start k => runBackground k s
  | Done k => background_done k s
  end.
Definition run (es : list Event) : ShutdownState := fold_left (λ s e, on_event e s) es fresh.

Definition arrivals (es : list Event) : list nat :=
  omap (λ e, match e with Arrive i => Some i | _ => None end) es.

Lemma run_snoc es e : run (es ++ [e]) = on_event e (run es).
Proof. unfold run. by rewrite fold_left_app. Qed.

Lemma arrivals_snoc es e :
  arrivals (es ++ [e]) = arrivals es ++ match e with Arrive i => [i] | _ => [] end.
Proof. unfold arrivals. rewrite omap_app. by destruct e. Qed.

Lemma open_arrived es : ∀ i, In i (open_requests (run es)) → In i (arrivals es).
Proof.
  induction es as [|e es IH] using rev_ind; [by intros i []|]. intros i. rewrite run_snoc, arrivals_snoc.
  intros Hi. apply in_app_iff.
  destruct e as [j|j|j| |[]|[]]; simpl in *; try (left; by apply IH).
  - unfold middleware in Hi. destruct (draining (run es)); simpl in Hi; [left; by apply IH|].
    destruct Hi as [<-|Hi]; [right; by left|left; by apply IH].
  - unfold release in Hi. destruct (existsb _ _) in Hi; [|left; by apply IH].
    apply filter_In in Hi as [Hi _]. left. by apply IH.
  - unfold release in Hi. destruct (existsb _ _) in Hi; [|left; by apply IH].
    apply filter_In in Hi as [Hi _]. left. by apply IH.
Qed.

Lemma filter_out_length i l : List.NoDup l → In i l →
  (length (List.filter (λ j, negb (Nat.eqb i j)) l) = length l - 1)%nat ∧ (1 <= length l)%nat.
Proof.
  induction 1 as [|x l Hx Hl IH]; [done|]. intros Hin. simpl.
  destruct (Nat.eqb_spec i x) as [->|Hne]; simpl.
  - split; [|lia]. rewrite List.forallb_filter_id; [lia|].
    apply forallb_forall. intros y Hy. apply negb_true_iff, Nat.eqb_neq. by intros ->.
  - destruct Hin as [->|Hin]; [done|]. destruct (IH Hin). split; lia.
Qed.

(** The count of open requests is exact while each request arrives once. *)
Lemma active_exact es : List.NoDup (arrivals es) →
  activeRequests (run es) = Z.of_nat (length (open_requests (run es))) ∧ List.NoDup (open_requests (run es)).
Proof.
  induction es as [|e es IH] using rev_ind; [split; [done|constructor]|].
  rewrite run_snoc, arrivals_snoc. intros Hnd.
  assert (List.NoDup (arrivals es)) as Hnd' by (by apply List.NoDup_app_remove_r in Hnd).
  specialize (IH Hnd') as [IH1 IH2].
  assert (∀ i, activeRequests (release i (run es)) = Z.of_nat (length (open_requests (release i (run es))))
    ∧ List.NoDup (open_requests (release i (run es)))) as Hrel.
  { intros i. unfold release. destruct (existsb _ _) eqn:E; [|done]. simpl.
    apply existsb_exists in E as (j&Hj&<-%Nat.eqb_eq). destruct (filter_out_length i _ IH2 Hj).
    split; [lia|]. by apply List.NoDup_filter. }
  destruct e as [i|i|i| |[]|[]]; simpl; try done; try apply Hrel.
  unfold middleware. destruct (draining (run es)); [done|]. simpl. split; [lia|]. constructor; [|done].
  intros Hi. apply open_arrived in Hi. simpl in Hnd.
  apply NoDup_remove_2 in Hnd. apply Hnd. by rewrite app_nil_r.
Qed.

(** Once draining, no request is let through and the process never admits again. *)
Lemma drained_admits_none es es' i : In Drain es → (middleware i (run (es ++ es'))).1 = false.
Proof.
  intros H. assert (draining (run (es ++ es')) = true) as Hd; [|unfold middleware; by rewrite Hd].
  assert (∀ s, draining s = true → ∀ l, draining (fold_left (λ s e, on_event e s) l s) = true) as Hkeep.
  { intros s Hs l. revert s Hs. induction l as [|e l IH]; intros s Hs; [done|]. apply IH.
    destruct e as [j|j|j| |[]|[]]; simpl; try done; [unfold middleware; by rewrite Hs| |];
      unfold release; by case_match. }
  apply in_split in H as (l1&l2&->). unfold run. rewrite <- app_assoc, fold_left_app. simpl.
  by apply Hkeep.
Qed.
