(* ===== verification/Readiness.v ===== *)
(** * Liveness and readiness of the API
    ([apps/api/src/health/health.controller.ts])

    [readyz] probes PostgreSQL, Redis and ClickHouse, then the two schemas, then
    the master key, under one deadline, and answers with fixed codes.

    Time is in milliseconds.  A piece of work started at some time comes back
    after some milliseconds with a result or an error, or never ([Work]); a timer
    fires when it is due, and wins against work that comes back in the same
    millisecond.  What the dependencies hold is their catalogue; the counts are
    those of the queries. *)

From stdpp Require Import sets.
From S2P Require Import Prelude JsVal Crypto Shutdown.

#[global] Open Scope Z_scope.

(** ** What an installation needs *)

Definition REQUIRED_POSTGRES_RELATIONS : list string :=
  ["public.tenants"; "public.members"; "public.member_backup_codes"; "public.sessions"; "public.apps"; "public.api_keys";
   "public.credentials"; "public.users"; "public.devices"; "public.attribute_registry"; "public.email_templates";
   "public.segments"; "public.journeys"; "public.journey_versions"; "public.journey_states";
   "public.journey_node_executions"; "public.journey_outbox"; "public.test_push_runs"; "public.event_customer_cursors";
   "public.event_receipts"; "public.user_merges"; "public.audit_logs"; "public.tenant_purges"; "public.send_dlq"].
Definition REQUIRED_POSTGRES_COLUMNS : list (string * string) :=
  [("tenants", "require_2fa"); ("journey_states", "claim_token"); ("journey_states", "entry_id"); ("journey_states", "entry_seq")].
Definition REQUIRED_CHANNEL_KINDS : list string := ["push_fcm"; "push_apns"; "email_smtp"; "email_nhn"; "email_resend"].
Definition REQUIRED_CLICKHOUSE_TABLES : list string :=
  ["raw_ingestions"; "events"; "attr_changes"; "ingestion_errors"; "message_log"; "profiles_mirror"; "campaign_audiences";
   "usage_sends_daily"; "usage_active_users_daily"; "user_merges"; "app_uninstalls"; "message_lifecycle"].

(** ** Answers *)

Inductive ComponentCode := schema_missing | self_test_failed | timeout | unavailable.
#[global] Instance ComponentCode_eq_dec : EqDecision ComponentCode.
Proof. solve_decision. Defined.

(** [blocked] carries the code [dependency_unavailable] *)
Inductive ComponentStatus := ready | blocked | notReady (code : ComponentCode).
#[global] Instance ComponentStatus_eq_dec : EqDecision ComponentStatus.
Proof. solve_decision. Defined.

Record ProbeResult := mkProbe { pr_ok : bool; pr_code : option ComponentCode }.

Record Components := mkComponents {
  c_postgres : ComponentStatus; c_redis : ComponentStatus; c_clickhouse : ComponentStatus;
  c_postgres_schema : ComponentStatus; c_clickhouse_schema : ComponentStatus; c_master_key : ComponentStatus }.
Record ReadinessResponse := mkReadiness {
  rr_ok : bool; rr_postgres : bool; rr_redis : bool; rr_clickhouse : bool; rr_schema : bool; rr_master_key : bool;
  rr_components : Components }.

(** 200 with the response, 503 with it, 503 [shutting_down] *)
Inductive Readyz := Serving (r : ReadinessResponse) | Unready (r : ReadinessResponse) | ShuttingDown.

(** ** Work and the platform *)

Definition Work (A : Type) : Type := option (nat * outcome A).

(** [Promise.all]: the last result, or the first error *)
Definition all {A B} (a : Work A) (b : Work B) : Work (A * B) :=
  match a, b with
  | Some (d, Ok x), Some (d', Ok y) => Some (Nat.max d d', Ok (x, y))
  | Some (d, Throw e), Some (d', Throw e') => if Nat.leb d d' then Some (d, Throw e) else Some (d', Throw e')
  | Some (d, Throw e), _ => Some (d, Throw e)
  | _, Some (d', Throw e') => Some (d', Throw e')
  | _, _ => None
  end.

Inductive Call :=
| PgPing | RedisPing | ClickHousePing | PgRelations | PgColumns | PgChannelKinds | ChTables | ChColumn | PgCredential.

Record Platform := mkPlatform {
  network : Call → Z → option (nat * option exn);   (** a call made at some time: never, an error, or fine *)
  redis_reply : string;
  ch_ping_success : bool;
  pg_relations : gset string;                       (** [to_regclass] finds them *)
  pg_columns : gset (string * string);
  channel_kind_labels : gset string;
  ch_tables : gset string;
  ch_columns : gset (string * string);
  stored_credential : option (option bytes * option bytes);   (** the oldest credential; [None] is not a Buffer *)
  inline_key : option string;
  file_key : option string;
  entropy : Entropy;
  shutdown : Z → ShutdownState }.

Section Health.
Context `{Crypto} (p : Platform).

Definition call {A} (c : Call) (now : Z) (x : A) : Work A :=
  match network p c now with
  | Some (d, None) => Some (d, Ok x)
  | Some (d, Some e) => Some (d, Throw e)
  | None => None
  end.

(** [private probe(work, isReady, failureCode, deadline)]: the result and when it is there *)
Definition probe {A} (now : Z) (work : Work A) (isReady : A → bool) (failureCode : ComponentCode) (deadline : Z) : ProbeResult * Z :=
  let remainingMs := deadline - now in
  if remainingMs <=? 0 then (mkProbe false (Some timeout), now)
  else
    match work with
    | Some (d, r) =>
        if Z.of_nat d <? remainingMs then
          (match r with
           | Ok x => if isReady x then mkProbe true None else mkProbe false (Some failureCode)
           | Throw _ => mkProbe false (Some failureCode)
           end, now + Z.of_nat d)
        else (mkProbe false (Some timeout), deadline)
    | None => (mkProbe false (Some timeout), deadline)
    end.

(** *** The counts *)

Definition relations_present : nat := length (List.filter (λ r, bool_decide (r ∈ pg_relations p)) REQUIRED_POSTGRES_RELATIONS).
Definition columns_present : nat := length (List.filter (λ c, bool_decide (c ∈ pg_columns p)) REQUIRED_POSTGRES_COLUMNS).
Definition kinds_present : nat := size (filter (λ k, k ∈ REQUIRED_CHANNEL_KINDS) (channel_kind_labels p)).
Definition tables_present : nat := size (filter (λ t, t ∈ REQUIRED_CLICKHOUSE_TABLES) (ch_tables p)).
Definition column_present : nat := size (filter (λ c, c = ("message_log", "provider_message_id")) (ch_columns p)).

Definition checkPostgresSchema (now deadline : Z) : ProbeResult * Z :=
  probe now (all (call PgRelations now relations_present) (all (call PgColumns now columns_present) (call PgChannelKinds now kinds_present)))
    (λ '(relations, (columns, channelKinds)),
       Nat.eqb relations (length REQUIRED_POSTGRES_RELATIONS) && Nat.eqb columns (length REQUIRED_POSTGRES_COLUMNS)
       && Nat.eqb channelKinds (length REQUIRED_CHANNEL_KINDS))
    schema_missing deadline.

Definition checkClickHouseSchema (now deadline : Z) : ProbeResult * Z :=
  probe now (all (call ChTables now tables_present) (call ChColumn now column_present))
    (λ '(tables, providerMessageId), Nat.eqb tables (length REQUIRED_CLICKHOUSE_TABLES) && Nat.eqb providerMessageId 1)
    schema_missing deadline.

Definition marker : string := "nudgeon-readiness-self-test-v1".

(** the work of [checkMasterKey] *)
Definition stored_opens (key : bytes) : outcome bool :=
  match stored_credential p with
  | None => Ok true
  | Some (Some c, Some w) =>
      match decryptEnvelope key (mkEnvelope c w) with
      | Some _ => Ok true
      | None => Throw (PlainError "decrypt")
      end
  | Some _ => Ok false
  end.
Definition key_work (checkPersistedCredential : bool) (now : Z) : Work bool :=
  match loadMasterKey (inline_key p) (file_key p) with
  | Throw e => Some (0%nat, Throw e)
  | Ok key =>
      match decryptEnvelope key (encryptEnvelope (entropy p) key marker) with
      | None => Some (0%nat, Throw (PlainError "decrypt"))
      | Some text =>
          if negb (String.eqb text marker) then Some (0%nat, Ok false)
          else if negb checkPersistedCredential then Some (0%nat, Ok true)
          else
            match call PgCredential now tt with
            | Some (d, Ok _) => Some (d, stored_opens key)
            | Some (d, Throw e) => Some (d, Throw e)
            | None => None
            end
      end
  end.
Definition checkMasterKey (checkPersistedCredential : bool) (now deadline : Z) : ProbeResult * Z :=
  probe now (key_work checkPersistedCredential now) (λ b, b) self_test_failed deadline.

(** *** The endpoints *)

(** [GET livez], [GET healthz] *)
Definition livez : bool := true.
Definition healthz : bool := livez.

Definition status_of (r : ProbeResult) (otherwise : ComponentCode) : ComponentStatus :=
  if pr_ok r then ready else notReady (default otherwise (pr_code r)).

Definition response (postgres redis clickhouse postgresSchema clickhouseSchema masterKey : ProbeResult) : ReadinessResponse :=
  let schemaOk := pr_ok postgresSchema && pr_ok clickhouseSchema in
  mkReadiness (pr_ok postgres && pr_ok redis && pr_ok clickhouse && schemaOk && pr_ok masterKey)
    (pr_ok postgres) (pr_ok redis) (pr_ok clickhouse) schemaOk (pr_ok masterKey)
    (mkComponents (status_of postgres unavailable) (status_of redis unavailable) (status_of clickhouse unavailable)
       (if negb (pr_ok postgres) then blocked else status_of postgresSchema schema_missing)
       (if negb (pr_ok clickhouse) then blocked else status_of clickhouseSchema schema_missing)
       (status_of masterKey self_test_failed)).

Definition skipped (now : Z) : ProbeResult * Z := (mkProbe false None, now).

(** the response of a request that arrived at [now], and when it is there *)
Definition examine (timeoutMs now : Z) : ReadinessResponse * Z :=
  let deadline := now + timeoutMs in
  let '(postgres, t1) := probe now (call PgPing now tt) (λ _, true) unavailable deadline in
  let '(redis, t2) := probe now (call RedisPing now (redis_reply p)) (λ r, String.eqb r "PONG") unavailable deadline in
  let '(clickhouse, t3) := probe now (call ClickHousePing now (ch_ping_success p)) (λ r, r) unavailable deadline in
  let then1 := Z.max t1 (Z.max t2 t3) in
  let '(postgresSchema, t4) := if pr_ok postgres then checkPostgresSchema then1 deadline else skipped then1 in
  let '(clickhouseSchema, t5) := if pr_ok clickhouse then checkClickHouseSchema then1 deadline else skipped then1 in
  let then2 := Z.max t4 t5 in
  let '(masterKey, t6) := checkMasterKey (pr_ok postgres && pr_ok postgresSchema) then2 deadline in
  (response postgres redis clickhouse postgresSchema clickhouseSchema masterKey, t6).

(** [GET readyz] *)
Definition readyz (timeoutMs now : Z) : Readyz * Z :=
  if draining (shutdown p now) then (ShuttingDown, now)
  else
    let '(r, t) := examine timeoutMs now in
    if draining (shutdown p t) then (ShuttingDown, t)
    else if negb (rr_ok r) then (Unready r, t) else (Serving r, t).
End Health.

(** ** Readiness tells the truth

    What [readyz] answers, against what the dependencies hold. *)
(** ** A usable installation *)

Section Usable.
Context `{Crypto} (p : Platform).

Definition pg_complete : Prop :=
  (∀ r, r ∈ REQUIRED_POSTGRES_RELATIONS → r ∈ pg_relations p) ∧ (∀ c, c ∈ REQUIRED_POSTGRES_COLUMNS → c ∈ pg_columns p)
  ∧ (∀ k, k ∈ REQUIRED_CHANNEL_KINDS → k ∈ channel_kind_labels p).
Definition ch_complete : Prop :=
  (∀ t, t ∈ REQUIRED_CLICKHOUSE_TABLES → t ∈ ch_tables p) ∧ ("message_log", "provider_message_id") ∈ ch_columns p.
(** the configured key, and whether it opens the oldest credential *)
Definition key_opens (persisted : bool) : Prop :=
  ∃ key, loadMasterKey (inline_key p) (file_key p) = Ok key
    ∧ (persisted = true →
       match stored_credential p with
       | None => True
       | Some (Some c, Some w) => is_Some (decryptEnvelope key (mkEnvelope c w))
       | Some _ => False
       end).
Definition usable : Prop :=
  redis_reply p = "PONG" ∧ ch_ping_success p = true ∧ pg_complete ∧ ch_complete ∧ key_opens true.
End Usable.

(** ** Counts *)

Lemma filter_full {A} (f : A → bool) l : Nat.eqb (length (List.filter f l)) (length l) = true ↔ ∀ x, x ∈ l → f x = true.
Proof.
  rewrite Nat.eqb_eq. setoid_rewrite list_elem_of_In. induction l as [|y l IH]; simpl; [naive_solver|].
  pose proof (List.filter_length_le f l) as Hle. destruct (f y) eqn:E; simpl.
  - rewrite Nat.succ_inj_wd, IH. naive_solver.
  - split; [lia|]. intros Hall. specialize (Hall y ltac:(by left)). congruence.
Qed.
Lemma count_full `{Countable A} (req : list A) (X : gset A) : NoDup req →
  Nat.eqb (size (filter (λ x, x ∈ req) X)) (length req) = true ↔ ∀ x, x ∈ req → x ∈ X.
Proof.
  intros Hnd. rewrite Nat.eqb_eq, <- (size_list_to_set (C := gset A) req Hnd).
  assert (filter (λ x, x ∈ req) X ⊆ list_to_set req) as Hsub by (intros x; rewrite elem_of_filter, elem_of_list_to_set; tauto).
  split.
  - intros Hsize x Hx. assert (x ∈ filter (λ x, x ∈ req) X) as Hin; [|by apply elem_of_filter in Hin as [_ ?]].
    rewrite (set_subseteq_size_eq _ _ Hsub) by lia. by apply elem_of_list_to_set.
  - intros Hall. f_equal. apply leibniz_equiv. apply (anti_symm (⊆)); [done|]. intros x. rewrite elem_of_list_to_set, elem_of_filter. auto.
Qed.

Section Props.
Context `{Crypto} (p : Platform).

Lemma relations_full : Nat.eqb (relations_present p) (length REQUIRED_POSTGRES_RELATIONS) = true
  ↔ ∀ r, r ∈ REQUIRED_POSTGRES_RELATIONS → r ∈ pg_relations p.
Proof. unfold relations_present. rewrite filter_full. by setoid_rewrite bool_decide_eq_true. Qed.
Lemma columns_full : Nat.eqb (columns_present p) (length REQUIRED_POSTGRES_COLUMNS) = true
  ↔ ∀ c, c ∈ REQUIRED_POSTGRES_COLUMNS → c ∈ pg_columns p.
Proof. unfold columns_present. rewrite filter_full. by setoid_rewrite bool_decide_eq_true. Qed.
Lemma kinds_full : Nat.eqb (kinds_present p) (length REQUIRED_CHANNEL_KINDS) = true
  ↔ ∀ k, k ∈ REQUIRED_CHANNEL_KINDS → k ∈ channel_kind_labels p.
Proof. apply count_full. apply (bool_decide_unpack _). by vm_compute. Qed.
Lemma tables_full : Nat.eqb (tables_present p) (length REQUIRED_CLICKHOUSE_TABLES) = true
  ↔ ∀ t, t ∈ REQUIRED_CLICKHOUSE_TABLES → t ∈ ch_tables p.
Proof. apply count_full. apply (bool_decide_unpack _). by vm_compute. Qed.
Lemma column_full : Nat.eqb (column_present p) 1 = true ↔ ("message_log", "provider_message_id") ∈ ch_columns p.
Proof.
  unfold column_present. pose proof (count_full [("message_log", "provider_message_id")] (ch_columns p) (NoDup_singleton _)) as Hc.
  assert (filter (λ c, c = ("message_log", "provider_message_id")) (ch_columns p)
          = filter (λ c, c ∈ [("message_log", "provider_message_id")]) (ch_columns p)) as ->.
  { apply leibniz_equiv. intros x. by rewrite !elem_of_filter, list_elem_of_singleton. }
  cbn [length] in Hc. rewrite Hc. setoid_rewrite list_elem_of_singleton. naive_solver.
Qed.
End Props.

(** ** Probes *)

Section Probes.
Context {A : Type}.
Implicit Types (w : Work A) (r : A → bool).

Lemma probe_time now w r c deadline : now <= deadline →
  now <= (probe now w r c deadline).2 <= deadline.
Proof.
  intros Hle. unfold probe. destruct (Z.leb_spec (deadline - now) 0); cbn [snd]; [lia|].
  destruct w as [[d x]|]; [|cbn [snd]; lia]. destruct (Z.ltb_spec (Z.of_nat d) (deadline - now)); cbn [snd]; lia.
Qed.
Lemma probe_ok now w r c deadline : pr_ok (probe now w r c deadline).1 = true →
  ∃ d x, w = Some (d, Ok x) ∧ r x = true.
Proof.
  unfold probe. destruct (_ <=? _); [done|]. destruct w as [[d [x|e]]|]; [| |done]; destruct (_ <? _); try done.
  cbn [fst]. destruct (r x) eqn:E; [|done]. eauto.
Qed.

Definition verdict (x : outcome A) r (c : ComponentCode) : ProbeResult :=
  match x with Ok x => if r x then mkProbe true None else mkProbe false (Some c) | Throw _ => mkProbe false (Some c) end.
(** [w] comes back with [x] within [d] *)
Definition within_ms (d : nat) w (x : outcome A) : Prop := ∃ n, w = Some (n, x) ∧ (n <= d)%nat.

Lemma probe_prompt d now w x r c deadline : within_ms d w x → now + Z.of_nat d < deadline →
  ∃ t, probe now w r c deadline = (verdict x r c, t) ∧ now <= t <= now + Z.of_nat d.
Proof.
  intros (n&->&Hn) Hd. unfold probe. rewrite (proj2 (Z.leb_gt _ _)) by lia. rewrite (proj2 (Z.ltb_lt _ _)) by lia.
  eexists. split; [reflexivity|lia].
Qed.
End Probes.

Lemma all_prompt {A B} d (a : Work A) (b : Work B) x y :
  within_ms d a (Ok x) → within_ms d b (Ok y) → within_ms d (all a b) (Ok (x, y)).
Proof. intros (n&->&?) (m&->&?). exists (Nat.max n m). split; [done|lia]. Qed.
Lemma all_ok {A B} (a : Work A) (b : Work B) d x y : all a b = Some (d, Ok (x, y)) →
  (∃ n, a = Some (n, Ok x)) ∧ ∃ m, b = Some (m, Ok y).
Proof.
  unfold all. destruct a as [[n [x'|e]]|], b as [[m [y'|e']]|]; try done; [|by destruct (Nat.leb n m)].
  intros [= <- <- <-]. eauto.
Qed.

(** ** What a response says *)

(** every call comes back without an error within [d] *)
Definition prompt (p : Platform) (d : nat) : Prop := ∀ c t, ∃ n, network p c t = Some (n, None) ∧ (n <= d)%nat.

Definition reports (P : Prop) (s : ComponentStatus) (code : ComponentCode) : Prop := (P → s = ready) ∧ (¬ P → s = notReady code).

Definition coherent (r : ReadinessResponse) : Prop :=
  let c := rr_components r in
  (rr_ok r = true ↔ Forall (λ s, s = ready)
     [c_postgres c; c_redis c; c_clickhouse c; c_postgres_schema c; c_clickhouse_schema c; c_master_key c])
  ∧ (c_postgres_schema c = blocked ↔ c_postgres c ≠ ready) ∧ (c_clickhouse_schema c = blocked ↔ c_clickhouse c ≠ ready)
  ∧ (rr_postgres r = true ↔ c_postgres c = ready) ∧ (rr_redis r = true ↔ c_redis c = ready)
  ∧ (rr_clickhouse r = true ↔ c_clickhouse c = ready) ∧ (rr_master_key r = true ↔ c_master_key c = ready)
  ∧ (rr_schema r = true ↔ c_postgres_schema c = ready ∧ c_clickhouse_schema c = ready).

Definition diagnosis `{Crypto} (p : Platform) (r : ReadinessResponse) : Prop :=
  let c := rr_components r in
  c_postgres c = ready
  ∧ reports (redis_reply p = "PONG") (c_redis c) unavailable
  ∧ reports (ch_ping_success p = true) (c_clickhouse c) unavailable
  ∧ reports (pg_complete p) (c_postgres_schema c) schema_missing
  ∧ (ch_ping_success p = true → reports (ch_complete p) (c_clickhouse_schema c) schema_missing)
  ∧ (pg_complete p → reports (key_opens p true) (c_master_key c) self_test_failed)
  ∧ (¬ pg_complete p → reports (key_opens p false) (c_master_key c) self_test_failed).

(** What a probe started at [now] reports of the work [w], and when: [timeout] if
    the work is not back before the deadline, else [ready] or the component's
    own code. *)
Inductive probed {A} (now deadline : Z) (w : Work A) (good : A → Prop) (code : ComponentCode) : ComponentStatus → Z → Prop :=
| probed_late : deadline <= now → probed now deadline w good code (notReady timeout) now
| probed_timeout : now < deadline → (∀ d x, w = Some (d, x) → deadline <= now + Z.of_nat d) →
    probed now deadline w good code (notReady timeout) deadline
| probed_good d x : w = Some (d, Ok x) → now + Z.of_nat d < deadline → good x →
    probed now deadline w good code ready (now + Z.of_nat d)
| probed_bad d x : w = Some (d, x) → now + Z.of_nat d < deadline → (∀ y, x = Ok y → ¬ good y) →
    probed now deadline w good code (notReady code) (now + Z.of_nat d).

Lemma probe_probed {A} now (w : Work A) isReady good code deadline otherwise :
  (∀ d x, w = Some (d, Ok x) → isReady x = true ↔ good x) →
  let r := probe now w isReady code deadline in probed now deadline w good code (status_of r.1 otherwise) r.2.
Proof.
  intros Hg. cbv zeta. unfold probe. destruct (Z.leb_spec (deadline - now) 0); [by apply probed_late; cbn; lia|].
  destruct w as [[d x]|]; cbn [fst snd]; [|by apply probed_timeout; [lia|]].
  destruct (Z.ltb_spec (Z.of_nat d) (deadline - now)); cbn [fst snd].
  - destruct x as [x|e]; [|by apply (probed_bad _ _ _ _ _ d (Throw e)); [|lia|]].
    specialize (Hg d x eq_refl). destruct (isReady x); [apply (probed_good _ _ _ _ _ d x); [done|lia|by apply Hg]|].
    apply (probed_bad _ _ _ _ _ d (Ok x)); [done|lia|]. intros y [= <-]. by intros Hy%Hg.
  - apply probed_timeout; [lia|]. intros d' x' [= <- <-]. lia.
Qed.

Lemma probed_eq {A} {now} {w : Work A} {isReady good code deadline otherwise r t} :
  probe now w isReady code deadline = (r, t) → (∀ d x, w = Some (d, Ok x) → isReady x = true ↔ good x) →
  probed now deadline w good code (status_of r otherwise) t.
Proof. intros E Hg. pose proof (probe_probed now w isReady good code deadline otherwise Hg) as Hp. by rewrite E in Hp. Qed.

(** The whole examination: three pings at once, then the schemas of the databases
    that answered, then the master key, all against one deadline. *)
Definition examined `{Crypto} (p : Platform) (now deadline : Z) (c : Components) (t : Z) : Prop :=
  ∃ t1 t2 t3 t4 t5, let u := Z.max t1 (Z.max t2 t3) in let v := Z.max t4 t5 in
  let persisted := bool_decide (c_postgres c = ready) && bool_decide (c_postgres_schema c = ready) in
  probed now deadline (call p PgPing now tt) (λ _, True) unavailable (c_postgres c) t1
  ∧ probed now deadline (call p RedisPing now (redis_reply p)) (λ x, x = "PONG") unavailable (c_redis c) t2
  ∧ probed now deadline (call p ClickHousePing now (ch_ping_success p)) (λ x, x = true) unavailable (c_clickhouse c) t3
  ∧ (if decide (c_postgres c = ready)
     then probed u deadline (all (call p PgRelations u (relations_present p)) (all (call p PgColumns u (columns_present p))
            (call p PgChannelKinds u (kinds_present p)))) (λ _, pg_complete p) schema_missing (c_postgres_schema c) t4
     else c_postgres_schema c = blocked ∧ t4 = u)
  ∧ (if decide (c_clickhouse c = ready)
     then probed u deadline (all (call p ChTables u (tables_present p)) (call p ChColumn u (column_present p)))
            (λ _, ch_complete p) schema_missing (c_clickhouse_schema c) t5
     else c_clickhouse_schema c = blocked ∧ t5 = u)
  ∧ (length (nonce1 (entropy p)) = NONCE_LEN → length (nonce2 (entropy p)) = NONCE_LEN →
     probed v deadline (key_work p persisted v) (λ _, key_opens p persisted) self_test_failed (c_master_key c) t).

Lemma response_coherent a b c d e f : pr_ok a = true ∨ pr_ok d = false → pr_ok c = true ∨ pr_ok e = false →
  coherent (response a b c d e f).
Proof.
  unfold coherent, response, status_of. cbn [rr_ok rr_components rr_postgres rr_redis rr_clickhouse rr_schema rr_master_key
    c_postgres c_redis c_clickhouse c_postgres_schema c_clickhouse_schema c_master_key].
  rewrite !Forall_cons, !andb_true_iff.
  destruct (pr_ok a), (pr_ok b), (pr_ok c), (pr_ok d), (pr_ok e), (pr_ok f); cbn [negb]; intros [|] [|]; try done; intuition (try done; try congruence).
Qed.

Section Truth.
Context `{CryptoLaws} (p : Platform).

Lemma call_inv {A} c now (x y : A) d : call p c now x = Some (d, Ok y) → y = x.
Proof. unfold call. destruct (network p c now) as [[n [e|]]|]; [done| |done]. by intros [= _ <-]. Qed.
Lemma call_prompt {A} d c now (x : A) : prompt p d → within_ms d (call p c now x) (Ok x).
Proof. intros Hp. destruct (Hp c now) as (n&Hn&?). exists n. unfold call. by rewrite Hn. Qed.

Lemma pg_schema_full : Nat.eqb (relations_present p) (length REQUIRED_POSTGRES_RELATIONS)
    && Nat.eqb (columns_present p) (length REQUIRED_POSTGRES_COLUMNS)
    && Nat.eqb (kinds_present p) (length REQUIRED_CHANNEL_KINDS) = true ↔ pg_complete p.
Proof. rewrite !andb_true_iff, relations_full, columns_full, kinds_full. unfold pg_complete. tauto. Qed.
Lemma ch_schema_full : Nat.eqb (tables_present p) (length REQUIRED_CLICKHOUSE_TABLES) && Nat.eqb (column_present p) 1 = true
  ↔ ch_complete p.
Proof. by rewrite andb_true_iff, tables_full, column_full. Qed.

Lemma postgres_schema_sound now deadline : pr_ok (checkPostgresSchema p now deadline).1 = true → pg_complete p.
Proof.
  intros (d&[x [y z]]&Hw&Hr)%probe_ok. apply all_ok in Hw as [[n Hx] [m Hyz]]. apply all_ok in Hyz as [[n' Hy] [m' Hz]].
  apply call_inv in Hx as ->, Hy as ->, Hz as ->. by apply pg_schema_full.
Qed.
Lemma clickhouse_schema_sound now deadline : pr_ok (checkClickHouseSchema p now deadline).1 = true → ch_complete p.
Proof.
  intros (d&[x y]&Hw&Hr)%probe_ok. apply all_ok in Hw as [[n Hx] [m Hy]]. apply call_inv in Hx as ->, Hy as ->.
  by apply ch_schema_full.
Qed.

(** what [checkMasterKey] finds out *)
Definition key_result (persisted : bool) : outcome bool :=
  key ← loadMasterKey (inline_key p) (file_key p);
  if persisted then stored_opens p key else Ok true.
Definition strong_entropy : Prop := length (nonce1 (entropy p)) = NONCE_LEN ∧ length (nonce2 (entropy p)) = NONCE_LEN.

Lemma self_test key : strong_entropy → decryptEnvelope key (encryptEnvelope (entropy p) key marker) = Some marker.
Proof.
  intros [H1 H2]. unfold decryptEnvelope, encryptEnvelope. cbn [ciphertext dekWrapped]. rewrite open_seal by done.
  cbn [mbind option_bind]. rewrite open_seal by done. cbn [fmap option_fmap option_map]. by rewrite string_bytes_id.
Qed.
Lemma key_result_opens persisted : pr_ok (verdict (key_result persisted) (λ b, b) self_test_failed) = true ↔ key_opens p persisted.
Proof.
  unfold key_result, key_opens. destruct (loadMasterKey _ _) as [key|e]; simpl; [|split; [done|by intros (?&?&?)]].
  unfold stored_opens. destruct persisted; [|simpl; split; [intros _; by exists key|done]].
  destruct (stored_credential p) as [[[c|] [w|]]|]; simpl; [|try (split; [done|intros (?&_&Hk); by specialize (Hk eq_refl)])..|].
  - destruct (decryptEnvelope key _) eqn:E; simpl; split; try done.
    + intros _. exists key. split; [done|]. by rewrite E.
    + intros (k&[= <-]&Hk). specialize (Hk eq_refl). rewrite E in Hk. by destruct Hk.
  - split; [intros _; by exists key|done].
Qed.
Lemma master_key_sound persisted now deadline : pr_ok (checkMasterKey p persisted now deadline).1 = true → key_opens p persisted.
Proof.
  intros (d&x&Hw&->)%probe_ok. apply key_result_opens. unfold key_work in Hw. unfold key_result.
  destruct (loadMasterKey _ _) as [key|e]; [|done]. simpl. destruct (decryptEnvelope key (encryptEnvelope _ _ _)) as [text|]; [|done].
  destruct (negb _); [done|]. destruct persisted; [|done]. simpl in Hw.
  destruct (call p PgCredential now tt) as [[n [[]|e]]|]; try done. injection Hw as _ Hs. by rewrite Hs.
Qed.
Lemma master_key_prompt d persisted now : strong_entropy → prompt p d → within_ms d (key_work p persisted now) (key_result persisted).
Proof.
  intros He Hp. unfold key_work, key_result. destruct (loadMasterKey _ _) as [key|e]; [|exists 0%nat; split; [done|lia]].
  rewrite self_test by done. rewrite String.eqb_refl. simpl. destruct persisted; simpl; [|exists 0%nat; split; [done|lia]].
  destruct (call_prompt d PgCredential now tt Hp) as (n&->&Hn). exists n. done.
Qed.

(** ** The examination *)

(** a probe between [now] and [deadline] that succeeds only if [Q] *)
Definition checks (now deadline : Z) (Q : Prop) (r : ProbeResult * Z) : Prop :=
  now <= r.2 <= deadline ∧ (pr_ok r.1 = true → Q).

Lemma checks_ping {A} c (x : A) (f : A → bool) code now deadline : now <= deadline →
  checks now deadline (f x = true) (probe now (call p c now x) f code deadline).
Proof.
  intros Hle. split; [by apply probe_time|]. intros (d&y&Hy%call_inv&Hf)%probe_ok. by subst y.
Qed.
Lemma checks_skip (b : bool) now deadline Q r : now <= deadline → checks now deadline Q r →
  checks now deadline Q (if b then r else skipped now) ∧ (b = true ∨ pr_ok (if b then r else skipped now).1 = false).
Proof. intros Hle Hr. destruct b; [by split; [|left]|]. split; [|by right]. split; [cbn; lia|done]. Qed.
Lemma checks_postgres now deadline : now <= deadline → checks now deadline (pg_complete p) (checkPostgresSchema p now deadline).
Proof. intros Hle. split; [by apply probe_time|apply postgres_schema_sound]. Qed.
Lemma checks_clickhouse now deadline : now <= deadline → checks now deadline (ch_complete p) (checkClickHouseSchema p now deadline).
Proof. intros Hle. split; [by apply probe_time|apply clickhouse_schema_sound]. Qed.
Lemma checks_key b now deadline : now <= deadline → checks now deadline (key_opens p b) (checkMasterKey p b now deadline).
Proof. intros Hle. split; [by apply probe_time|apply master_key_sound]. Qed.

Lemma examine_spec timeoutMs now r t : 0 < timeoutMs → examine p timeoutMs now = (r, t) →
  now <= t <= now + timeoutMs ∧ coherent r ∧ (rr_ok r = true → usable p).
Proof.
  intros Ht. unfold examine. set (deadline := now + timeoutMs). assert (now <= deadline) as Hle by lia.
  pose proof (checks_ping PgPing tt (λ _, true) unavailable now deadline Hle) as [T1 _].
  destruct (probe now (call p PgPing now tt) _ _ _) as [pg t1]. cbn [snd] in T1.
  pose proof (checks_ping RedisPing (redis_reply p) (λ r, String.eqb r "PONG") unavailable now deadline Hle) as [T2 S2].
  destruct (probe now (call p RedisPing now _) _ _ _) as [re t2]. cbn [fst snd] in T2, S2.
  pose proof (checks_ping ClickHousePing (ch_ping_success p) (λ r, r) unavailable now deadline Hle) as [T3 S3].
  destruct (probe now (call p ClickHousePing now _) _ _ _) as [ch t3]. cbn [fst snd] in T3, S3.
  assert (now <= Z.max t1 (Z.max t2 t3) <= deadline) as [Tu Hu] by lia. revert Tu Hu. generalize (Z.max t1 (Z.max t2 t3)). intros u Tu Hu.
  destruct (checks_skip (pr_ok pg) u deadline _ _ Hu (checks_postgres u deadline Hu)) as [[T4 S4] B4].
  destruct (if pr_ok pg then _ else _) as [ps t4]. cbn [fst snd] in T4, S4, B4.
  destruct (checks_skip (pr_ok ch) u deadline _ _ Hu (checks_clickhouse u deadline Hu)) as [[T5 S5] B5].
  destruct (if pr_ok ch then _ else _) as [cs t5]. cbn [fst snd] in T5, S5, B5.
  destruct (checks_key (pr_ok pg && pr_ok ps) (Z.max t4 t5) deadline ltac:(lia)) as [T6 S6].
  destruct (checkMasterKey p _ _ _) as [mk t6]. cbn [fst snd] in T6, S6. intros [= <- <-].
  split; [lia|]. split; [by apply response_coherent|].
  unfold response. cbn [rr_ok]. rewrite !andb_true_iff. intros ([[[Hpg Hre] Hch] [Hps Hcs]]&Hmk). rewrite Hpg, Hps in S6.
  split; [by apply String.eqb_eq, S2|]. auto.
Qed.

(** The key's work says whether the key opens what it must. *)
Lemma key_work_opens persisted now d b : strong_entropy → key_work p persisted now = Some (d, Ok b) → b = true ↔ key_opens p persisted.
Proof.
  intros He Hw. rewrite <- key_result_opens. assert (key_result persisted = Ok b) as ->; [|by destruct b].
  unfold key_work in Hw. unfold key_result. destruct (loadMasterKey _ _) as [key|e]; [|done]. simpl.
  rewrite (self_test key He), String.eqb_refl in Hw. cbn [negb] in Hw. destruct persisted; cbn [negb] in Hw; [|by injection Hw as _ <-].
  destruct (call p PgCredential now tt) as [[n [[]|e]]|]; try done. by injection Hw as _ ->.
Qed.
Lemma examine_examined timeoutMs now r t : examine p timeoutMs now = (r, t) → examined p now (now + timeoutMs) (rr_components r) t.
Proof.
  unfold examine. set (deadline := now + timeoutMs).
  pose proof (probe_probed now (call p PgPing now tt) (λ _, true) (λ _, True) unavailable deadline unavailable ltac:(done)) as P1.
  destruct (probe now (call p PgPing now tt) _ _ _) as [pg t1]. cbn [fst snd] in P1.
  pose proof (probe_probed now (call p RedisPing now (redis_reply p)) (λ r, String.eqb r "PONG") (λ x, x = "PONG") unavailable
    deadline unavailable ltac:(intros; apply String.eqb_eq)) as P2.
  destruct (probe now (call p RedisPing now _) _ _ _) as [re t2]. cbn [fst snd] in P2.
  pose proof (probe_probed now (call p ClickHousePing now (ch_ping_success p)) (λ r, r) (λ x, x = true) unavailable
    deadline unavailable ltac:(done)) as P3.
  destruct (probe now (call p ClickHousePing now _) _ _ _) as [ch t3]. cbn [fst snd] in P3.
  set (u := Z.max t1 (Z.max t2 t3)).
  destruct (if pr_ok pg then checkPostgresSchema p u deadline else skipped u) as [ps t4] eqn:E4.
  destruct (if pr_ok ch then checkClickHouseSchema p u deadline else skipped u) as [cs t5] eqn:E5.
  destruct (checkMasterKey p _ _ _) as [mk t6] eqn:E6. intros [= <- <-].
  assert (∀ r c, status_of r c = ready ↔ pr_ok r = true) as Hst by (intros [[] ?] ?; done).
  exists t1, t2, t3, t4, t5. fold u. cbv zeta. unfold response.
  cbn [rr_components c_postgres c_redis c_clickhouse c_postgres_schema c_clickhouse_schema c_master_key].
  split; [done|]. split; [done|]. split; [done|]. split; [|split].
  - destruct (decide _) as [Hd|Hd]; rewrite Hst in Hd.
    + rewrite Hd in *. cbn [negb]. unfold checkPostgresSchema in E4. apply (probed_eq E4). intros d [x [y z]] Hw.
      apply all_ok in Hw as [[n Hx] [m Hyz]]. apply all_ok in Hyz as [[n' Hy] [m' Hz]].
      apply call_inv in Hx as ->, Hy as ->, Hz as ->. apply pg_schema_full.
    + apply not_true_is_false in Hd. rewrite Hd in *. by injection E4 as <- <-.
  - destruct (decide _) as [Hd|Hd]; rewrite Hst in Hd.
    + rewrite Hd in *. cbn [negb]. unfold checkClickHouseSchema in E5. apply (probed_eq E5). intros d [x y] Hw.
      apply all_ok in Hw as [[n Hx] [m Hy]]. apply call_inv in Hx as ->, Hy as ->. apply ch_schema_full.
    + apply not_true_is_false in Hd. rewrite Hd in *. by injection E5 as <- <-.
  - intros H1 H2. set (v := Z.max t4 t5) in *.
    assert (bool_decide (status_of pg unavailable = ready) && bool_decide ((if negb (pr_ok pg) then blocked else status_of ps schema_missing) = ready)
      = pr_ok pg && pr_ok ps) as ->.
    { destruct pg as [[] ?]; cbn [pr_ok negb status_of]; [|done]. by destruct ps as [[] ?]. }
    unfold checkMasterKey in E6. apply (probed_eq E6). intros d b Hw. by eapply key_work_opens.
Qed.

Definition judged (b : bool) (c : ComponentCode) : ProbeResult := if b then mkProbe true None else mkProbe false (Some c).
Lemma reports_of (P : Prop) (b : bool) c : (b = true ↔ P) → reports P (status_of (judged b c) c) c.
Proof. unfold reports, status_of, judged. destruct b; cbn [pr_ok pr_code default]; naive_solver. Qed.
Lemma key_verdict persisted : ∃ b, verdict (key_result persisted) (λ b, b) self_test_failed = judged b self_test_failed
  ∧ (b = true ↔ key_opens p persisted).
Proof.
  pose proof (key_result_opens persisted) as Hk. destruct (key_result persisted) as [b|e]; [exists b|exists false];
    (split; [done|]); rewrite <- Hk; by try destruct b.
Qed.

(** each check after at most [d] *)
Definition soon (d : nat) (now : Z) (v : ProbeResult) (r : ProbeResult * Z) : Prop := r.1 = v ∧ now <= r.2 <= now + Z.of_nat d.
Lemma soon_probe {A} d now (w : Work A) x r c deadline : within_ms d w x → now + Z.of_nat d < deadline →
  soon d now (verdict x r c) (probe now w r c deadline).
Proof. intros Hw Hd. destruct (probe_prompt d now w x r c deadline Hw Hd) as (t&->&?). done. Qed.
Lemma soon_check {A} d now (w : Work A) x (r : A → bool) c deadline : within_ms d w (Ok x) → now + Z.of_nat d < deadline →
  soon d now (judged (r x) c) (probe now w r c deadline).
Proof. intros Hw Hd. exact (soon_probe d now w (Ok x) r c deadline Hw Hd). Qed.
Lemma soon_postgres d now deadline : prompt p d → now + Z.of_nat d < deadline →
  ∃ b, (b = true ↔ pg_complete p) ∧ soon d now (judged b schema_missing) (checkPostgresSchema p now deadline).
Proof.
  intros Hp Hd. eexists. split; [apply pg_schema_full|].
  assert (within_ms d (all (call p PgRelations now (relations_present p)) (all (call p PgColumns now (columns_present p))
    (call p PgChannelKinds now (kinds_present p)))) (Ok (relations_present p, (columns_present p, kinds_present p)))) as Hw
    by (repeat apply all_prompt; by apply call_prompt).
  unfold checkPostgresSchema.
  match goal with |- context [probe _ _ ?r _ _] => exact (soon_check d now _ _ r schema_missing deadline Hw Hd) end.
Qed.
Lemma soon_clickhouse d now deadline : prompt p d → now + Z.of_nat d < deadline →
  ∃ b, (b = true ↔ ch_complete p) ∧ soon d now (judged b schema_missing) (checkClickHouseSchema p now deadline).
Proof.
  intros Hp Hd. eexists. split; [apply ch_schema_full|].
  assert (within_ms d (all (call p ChTables now (tables_present p)) (call p ChColumn now (column_present p)))
    (Ok (tables_present p, column_present p))) as Hw by (apply all_prompt; by apply call_prompt).
  unfold checkClickHouseSchema.
  match goal with |- context [probe _ _ ?r _ _] => exact (soon_check d now _ _ r schema_missing deadline Hw Hd) end.
Qed.
Lemma soon_key d persisted now deadline : strong_entropy → prompt p d → now + Z.of_nat d < deadline →
  ∃ b, (b = true ↔ key_opens p persisted) ∧ soon d now (judged b self_test_failed) (checkMasterKey p persisted now deadline).
Proof.
  intros He Hp Hd. destruct (key_verdict persisted) as (b&Hb&Hiff). exists b. split; [done|]. rewrite <- Hb.
  apply soon_probe; [by apply master_key_prompt|done].
Qed.

Lemma examine_prompt d timeoutMs now r t : strong_entropy → prompt p d → 3 * Z.of_nat d < timeoutMs →
  examine p timeoutMs now = (r, t) → diagnosis p r.
Proof.
  intros He Hp Hd. unfold examine. set (deadline := now + timeoutMs).
  pose proof (soon_probe d now _ _ (λ _, true) unavailable deadline (call_prompt d PgPing now tt Hp) ltac:(lia)) as [V1 T1].
  destruct (probe now (call p PgPing now tt) _ _ _) as [pg t1]. cbn [fst snd] in V1, T1. subst pg.
  pose proof (soon_probe d now _ _ (λ r, String.eqb r "PONG") unavailable deadline
    (call_prompt d RedisPing now (redis_reply p) Hp) ltac:(lia)) as [V2 T2].
  destruct (probe now (call p RedisPing now _) _ _ _) as [re t2]. cbn [fst snd] in V2, T2. subst re.
  pose proof (soon_probe d now _ _ (λ r, r) unavailable deadline
    (call_prompt d ClickHousePing now (ch_ping_success p) Hp) ltac:(lia)) as [V3 T3].
  destruct (probe now (call p ClickHousePing now _) _ _ _) as [ch t3]. cbn [fst snd] in V3, T3. subst ch.
  assert (Z.max t1 (Z.max t2 t3) <= now + Z.of_nat d) as Hu by lia. revert Hu. generalize (Z.max t1 (Z.max t2 t3)). intros u Hu.
  cbn [verdict pr_ok]. destruct (soon_postgres d u deadline Hp ltac:(lia)) as (bp&Hbp&V4&T4).
  destruct (checkPostgresSchema p u deadline) as [ps t4]. cbn [fst snd] in V4, T4. subst ps.
  destruct (soon_clickhouse d u deadline Hp ltac:(lia)) as (bc&Hbc&V5&T5).
  assert (∃ cs t5, (if pr_ok (if ch_ping_success p then mkProbe true None else mkProbe false (Some unavailable))
      then checkClickHouseSchema p u deadline else skipped u) = (cs, t5)
    ∧ t5 <= u + Z.of_nat d ∧ (ch_ping_success p = true → cs = judged bc schema_missing)) as (cs&t5&->&T5'&V5').
  { destruct (checkClickHouseSchema p u deadline) as [cs t5]. cbn [fst snd] in V5, T5.
    destruct (ch_ping_success p); cbn [pr_ok]; do 2 eexists; (split; [reflexivity|]); split; [lia|done|lia|done]. }
  destruct (soon_key d (pr_ok (judged bp schema_missing)) (Z.max t4 t5) deadline He Hp ltac:(lia)) as (bk&Hbk&V6&T6).
  cbn [andb]. destruct (checkMasterKey p _ _ _) as [mk t6]. cbn [fst snd] in V6. subst mk. intros [= <- _].
  assert (pr_ok (judged bp schema_missing) = bp) as Hj by by destruct bp. rewrite Hj in Hbk.
  unfold diagnosis, response. cbn [rr_components c_postgres c_redis c_clickhouse c_postgres_schema c_clickhouse_schema c_master_key negb].
  split; [done|]. split; [apply (reports_of _ (String.eqb (redis_reply p) "PONG")), String.eqb_eq|].
  split; [by apply (reports_of _ (ch_ping_success p))|]. split; [by apply reports_of|]. split.
  - intros Hc. rewrite V5', Hc by done. cbn [pr_ok negb]. by apply reports_of.
  - split; intros Hpg; apply reports_of; [apply Hbp in Hpg as ->; exact Hbk|].
    destruct bp; [by destruct Hpg; apply Hbp|exact Hbk].
Qed.
End Truth.

(** ** The property *)

(** C33. Readiness tells the truth in time.  An answer is there by the deadline,
    and is [shutting_down] exactly when the process drains, at the start or at
    the end.  Any other answer is the result of the examination: each probe
    reports [ready] exactly when its work came back in time and found what the
    component needs (relations, columns, channel kinds, tables, a key that
    opens), [timeout] exactly when it did not come back before the deadline, and
    the component's own code when it came back with anything else; a schema is
    blocked exactly when its database is not ready; and the answer is 200 exactly
    when every component is ready, 503 else.  So "ready" is never said of an
    unusable installation; and if every call comes back well within the
    deadline, each status is the component's real state, and a usable
    installation that is not draining is served. *)
Theorem readiness_tells_the_truth `{CryptoLaws} p timeoutMs now reply t : 0 < timeoutMs →
  readyz p timeoutMs now = (reply, t) →
  now <= t <= now + timeoutMs
  ∧ (reply = ShuttingDown ↔ draining (shutdown p now) = true ∨ draining (shutdown p t) = true)
  ∧ (∀ r, reply = Serving r ∨ reply = Unready r →
       examined p now (now + timeoutMs) (rr_components r) t ∧ coherent r ∧ (reply = Serving r ↔ rr_ok r = true))
  ∧ (∀ r, reply = Serving r → usable p)
  ∧ ∀ d, strong_entropy p → prompt p d → 3 * Z.of_nat d < timeoutMs →
      (∀ r, reply = Serving r ∨ reply = Unready r → diagnosis p r)
      ∧ (usable p → (∀ u, draining (shutdown p u) = false) → ∃ r, reply = Serving r).
Proof.
  unfold readyz. intros Ht. destruct (draining (shutdown p now)) eqn:E0.
  { intros [= <- <-]. split; [lia|]. split; [tauto|]. split; [by intros r [|]|]. split; [done|]. intros d _ _ _.
    split; [by intros r [|]|]. intros _ Hu. by rewrite Hu in E0. }
  destruct (examine p timeoutMs now) as [r0 t0] eqn:Ex. pose proof (examine_spec p timeoutMs now r0 t0 Ht Ex) as (Hb&Hc&Hu).
  pose proof (examine_examined p timeoutMs now r0 t0 Ex) as Hx.
  destruct (draining (shutdown p t0)) eqn:E1.
  { intros [= <- <-]. split; [done|]. split; [tauto|]. split; [by intros r [|]|]. split; [done|]. intros d _ _ _.
    split; [by intros r [|]|]. intros _ Hd. by rewrite Hd in E1. }
  destruct (rr_ok r0) eqn:Eo; cbn [negb]; intros [= <- <-]; rewrite ?E1; (split; [done|]); (split; [naive_solver|]).
  - split; [intros r [[= <-]|[=]]; done|]. split; [by intros r [= <-]; apply Hu|]. intros d He Hp Hd.
    split; [intros r [[= <-]|[=]]; by eapply examine_prompt|]. intros _ _. by eexists.
  - split; [intros r [[=]|[= <-]]; split; [done|]; split; [done|]; rewrite Eo; by split|]. split; [done|]. intros d He Hp Hd.
    pose proof (examine_prompt p d timeoutMs now r0 t0 He Hp Hd Ex) as Hdi.
    split; [by intros r [[=]|[= <-]]|]. intros (U1&U2&U3&U4&U5) _. exfalso.
    destruct Hdi as (D1&[D2 _]&[D3 _]&[D4 _]&D5&D6&_). destruct (D5 U2) as [D5' _]. destruct (D6 U3) as [D6' _].
    apply proj1 in Hc as [_ Hc]. rewrite Hc in Eo; [done|]. repeat constructor; auto.
Qed.

(** ** An installation before and after its last migration *)

Module ReadinessDemo.
#[local] Instance toy_crypto : Crypto := {
  gcm_seal _ _ p := (p, replicate 16 0); gcm_open _ _ body _ := Some body; hmac_sha1 _ _ := replicate 20 0;
  sha256_hex s := s; argon2_hash _ p := p; argon2_verify h p := String.eqb h p }.
#[local] Instance toy_laws : CryptoLaws.
Proof. split; intros; cbn; try done. repeat (constructor; [unfold is_byte; lia|]); constructor. Qed.

Definition platform (tables : list string) : Platform :=
  mkPlatform (λ _ _, Some (5%nat, None)) "PONG" true (list_to_set REQUIRED_POSTGRES_RELATIONS)
    (list_to_set REQUIRED_POSTGRES_COLUMNS) (list_to_set REQUIRED_CHANNEL_KINDS) (list_to_set tables)
    {[("message_log", "provider_message_id")]} None (Some "AAAAAAAAAAAAAAAAAAAAAAAAAAAAAAAAAAAAAAAAAAA=") None
    (mkEntropy (replicate 32 1) (replicate 12 2) (replicate 12 3)) (λ _, fresh).
Lemma platform_prompt tables : prompt (platform tables) 5.
Proof. intros c t. exists 5%nat. split; [done|lia]. Qed.

(** ClickHouse hangs. *)
Definition hanging : Platform :=
  mkPlatform (λ c _, match c with ClickHousePing => None | _ => Some (5%nat, None) end) "PONG" true
    (list_to_set REQUIRED_POSTGRES_RELATIONS) (list_to_set REQUIRED_POSTGRES_COLUMNS) (list_to_set REQUIRED_CHANNEL_KINDS)
    (list_to_set REQUIRED_CLICKHOUSE_TABLES) {[("message_log", "provider_message_id")]} None
    (Some "AAAAAAAAAAAAAAAAAAAAAAAAAAAAAAAAAAAAAAAAAAA=") None
    (mkEntropy (replicate 32 1) (replicate 12 2) (replicate 12 3)) (λ _, fresh).

Lemma readiness_tells_the_truth_witness :
  (∃ r, readyz (platform REQUIRED_CLICKHOUSE_TABLES) 3000 0 = (Serving r, 15) ∧ usable (platform REQUIRED_CLICKHOUSE_TABLES))
  ∧ (∃ r, readyz (platform ["events"]) 3000 0 = (Unready r, 15) ∧ c_clickhouse_schema (rr_components r) = notReady schema_missing
      ∧ c_master_key (rr_components r) = ready)
  ∧ ∃ r, readyz hanging 3000 0 = (Unready r, 3000) ∧ examined hanging 0 3000 (rr_components r) 3000
      ∧ c_clickhouse (rr_components r) = notReady timeout ∧ c_clickhouse_schema (rr_components r) = blocked
      ∧ c_master_key (rr_components r) = notReady timeout.
Proof.
  split; [|split].
  - destruct (readyz (platform REQUIRED_CLICKHOUSE_TABLES) 3000 0) as [reply t] eqn:E.
    destruct (readiness_tells_the_truth _ 3000 0 reply t ltac:(lia) E) as (_&_&_&Hs&_).
    vm_compute in E. injection E as <- <-. eexists. split; [reflexivity|]. exact (Hs _ eq_refl).
  - destruct (readyz (platform ["events"]) 3000 0) as [reply t] eqn:E.
    destruct (readiness_tells_the_truth _ 3000 0 reply t ltac:(lia) E) as (_&_&_&_&Hd).
    destruct (Hd 5%nat (conj eq_refl eq_refl) (platform_prompt _) ltac:(lia)) as [Hdi _].
    vm_compute in E. injection E as <- <-. eexists. split; [reflexivity|].
    destruct (Hdi _ (or_intror eq_refl)) as (_&_&_&_&Hch&_). split; [|reflexivity]. apply (Hch eq_refl).
    intros [Ht _]. specialize (Ht "message_log" ltac:(apply (bool_decide_unpack _); vm_compute; reflexivity)).
    apply (bool_decide_pack _) in Ht. vm_compute in Ht. exact Ht.
  - destruct (readyz hanging 3000 0) as [reply t] eqn:E.
    destruct (readiness_tells_the_truth _ 3000 0 reply t ltac:(lia) E) as (_&_&Hx&_).
    vm_compute in E. injection E as <- <-. eexists. split; [reflexivity|].
    destruct (Hx _ (or_intror eq_refl)) as (Hex&_). split; [exact Hex|]. split; [reflexivity|]. split; reflexivity.
Defined.
End ReadinessDemo.
