(* ===== verification/DrainApp.v ===== *)
(** * The shutdown of the process
    ([apps/api/src/infra/shutdown.ts], [closeClients] of
    [apps/api/src/infra/infra.module.ts])

    From the signal to the exit, over the admission state of [Shutdown] and the
    clock of [Readiness]: what happens to the process meanwhile is a list of timed
    events, in order, and closing the server and the application are pieces of
    [Work].  [release] and the end of background work notify the waiting code;
    only they can make its condition true, so it is looked at after every event. *)

From Stdlib Require Import Sorting.Sorted.
From S2P Require Import Prelude JsVal Crypto Shutdown Readiness.

#[global] Open Scope Z_scope.

Record ShutdownBudget := mkBudget { requestsMs : Z; backgroundMs : Z; clientsMs : Z; hardMs : Z }.
Definition SHUTDOWN_BUDGET : ShutdownBudget := mkBudget 10000 2000 1500 14000.

(** [bounded(work, timeoutMs)]: whether the work succeeded in time, and when that is known *)
Definition bounded (now : Z) (work : Work unit) (timeoutMs : Z) : bool * Z :=
  match work with
  | Some (d, r) => if Z.of_nat d <? timeoutMs then (is_ok r, now + Z.of_nat d) else (false, now + timeoutMs)
  | None => (false, now + timeoutMs)
  end.

(** *** [closeClients] *)

(** [Promise.all] of the three closings: whether all completed, and when *)
Definition closeClients (budget : ShutdownBudget) (now : Z) (postgres redis clickhouse : Work unit) : outcome unit * Z :=
  let close w := bounded now w (clientsMs budget - 100) in
  let results := [close postgres; close redis; close clickhouse] in
  (if existsb (λ r, negb (fst r)) results then Throw (PlainError "Infrastructure shutdown incomplete") else Ok tt,
   fold_left Z.max (map snd results) now).

(** *** Waiting *)

Definition Timeline : Type := list (Z * Shutdown.Event).
(** the process, and what is still to come *)
Record Process := mkProcess { p_state : ShutdownState; p_rest : Timeline }.

(** everything that has happened by [now] *)
Fixpoint advance (now : Z) (s : ShutdownState) (evs : Timeline) : Process :=
  match evs with
  | (t, e) :: evs' => if t <=? now then advance now (on_event e s) evs' else mkProcess s evs
  | [] => mkProcess s []
  end.

Fixpoint await (done : ShutdownState → bool) (deadline : Z) (s : ShutdownState) (evs : Timeline) : bool * Z * Process :=
  match evs with
  | (t, e) :: evs' =>
      if deadline <=? t then (false, deadline, mkProcess s evs)
      else let s' := on_event e s in
           if done s' then (true, t, mkProcess s' evs') else await done deadline s' evs'
  | [] => (false, deadline, mkProcess s [])
  end.
(** [waitUntil(done, timeoutMs)] *)
Definition wait (done : ShutdownState → bool) (timeoutMs now : Z) (p : Process) : bool * Z * Process :=
  let p := advance now (p_state p) (p_rest p) in
  if done (p_state p) then (true, now, p) else await done (now + timeoutMs) (p_state p) (p_rest p).

(** *** [drainApplication] *)

(** what closing the listener and the application take, started at some time *)
Record Application := mkApplication { server_close : Z → Work unit; app_close : Z → Work unit }.

Record Drained := mkDrained {
  requestsDrained : bool; httpDrained : bool; backgroundDrained : bool; clientsClosed : bool;
  drained_at : Z; drained_state : ShutdownState }.
Definition complete (d : Drained) : bool := requestsDrained d && httpDrained d && backgroundDrained d && clientsClosed d.

Definition drainApplication (budget : ShutdownBudget) (app : Application) (now : Z) (p : Process) : Drained :=
  let p := mkProcess (beginDrain (p_state p)) (p_rest p) in
  let '(requests, t1, p1) := wait requests_done (requestsMs budget) now p in
  let '(http, t2) := bounded t1 (server_close app t1) (clientsMs budget) in
  let '(background, t3, p3) := wait all_background_done (backgroundMs budget) t2 p1 in
  let '(clients, t4) := bounded t3 (app_close app t3) (clientsMs budget) in
  mkDrained requests http background clients t4 (p_state (advance t4 (p_state p3) (p_rest p3))).

(** *** [installShutdown] *)

(** [lingering]: how long after the drain the last handle of the process is gone, if ever *)
Definition exit_of (budget : ShutdownBudget) (started : Z) (d : Drained) (lingering : option nat) : Z * Z :=
  let hard := started + hardMs budget in
  if negb (complete d) then (1, hard)
  else match lingering with
       | Some n => if drained_at d + Z.of_nat n <? hard then (0, drained_at d + Z.of_nat n) else (1, hard)
       | None => (1, hard)
       end.

(** the exit code and its time, for the signals in the order they arrive *)
Definition installShutdown (budget : ShutdownBudget) (app : Application) (p : Process) (lingering : option nat)
    (signals : list Z) : option (Z * Z) :=
  match signals with
  | [] => None
  | now :: _ =>
      let p := advance now (p_state p) (p_rest p) in
      Some (exit_of budget now (drainApplication budget app now p) lingering)
  end.

(** ** Lemmas *)

#[local] Hint Resolve incl_refl : core.

(** while draining, the counts are exact and no request is let in *)
Definition exact (s : ShutdownState) : Prop :=
  draining s = true ∧ activeRequests s = Z.of_nat (length (open_requests s)) ∧ List.NoDup (open_requests s).
Definition narrows (s s' : ShutdownState) : Prop := exact s' ∧ incl (open_requests s') (open_requests s).

Lemma narrows_refl s : exact s → narrows s s.
Proof. by split. Qed.
Lemma narrows_trans s s' s'' : narrows s s' → narrows s' s'' → narrows s s''.
Proof. intros [_ H1] [H2 H3]. split; [done|by eapply incl_tran]. Qed.

Lemma release_narrows i s : exact s → narrows s (release i s).
Proof.
  intros (Hd&Ha&Hn). unfold release. destruct (existsb _ _) eqn:E; [|by repeat split].
  apply existsb_exists in E as (j&Hj&<-%Nat.eqb_eq). destruct (filter_out_length i _ Hn Hj).
  repeat split; cbn [activeRequests open_requests]; [done|lia|by apply List.NoDup_filter|].
  intros x Hx. by apply filter_In in Hx as [? _].
Qed.
Lemma event_narrows e s : exact s → narrows s (on_event e s).
Proof.
  intros Hs. destruct e as [i|i|i| |[]|[]]; cbn [on_event]; try by apply release_narrows.
  all: destruct Hs as (Hd&Ha&Hn); unfold middleware, beginDrain, runBackground, background_done, add_background;
    rewrite ?Hd; cbn [snd]; by repeat split.
Qed.
Lemma advance_narrows now s evs : exact s → narrows s (p_state (advance now s evs)).
Proof.
  revert s. induction evs as [|[t e] evs IH]; intros s Hs; [by apply narrows_refl|]. cbn [advance].
  destruct (t <=? now); [|by apply narrows_refl]. pose proof (event_narrows e s Hs) as He.
  eapply narrows_trans; [exact He|]. apply IH, He.
Qed.
Lemma await_narrows done deadline s evs : exact s →
  narrows s (p_state (await done deadline s evs).2) ∧ ((await done deadline s evs).1.1 = true → done (p_state (await done deadline s evs).2) = true).
Proof.
  revert s. induction evs as [|[t e] evs IH]; intros s Hs; [by split; [apply narrows_refl|]|]. cbn [await].
  destruct (deadline <=? t); [by split; [apply narrows_refl|]|]. pose proof (event_narrows e s Hs) as He.
  destruct (done (on_event e s)) eqn:Ed; [by split|].
  destruct (IH _ (proj1 He)) as [H1 H2]. split; [by eapply narrows_trans|done].
Qed.
Lemma wait_narrows done timeoutMs now p : exact (p_state p) →
  narrows (p_state p) (p_state (wait done timeoutMs now p).2)
  ∧ ((wait done timeoutMs now p).1.1 = true → done (p_state (wait done timeoutMs now p).2) = true).
Proof.
  intros Hp. unfold wait. pose proof (advance_narrows now _ (p_rest p) Hp) as Ha.
  destruct (done (p_state (advance now (p_state p) (p_rest p)))) eqn:Ed; [by split|].
  destruct (await_narrows done (now + timeoutMs) _ (p_rest (advance now (p_state p) (p_rest p))) (proj1 Ha)) as [H1 H2].
  split; [by eapply narrows_trans|done].
Qed.

Lemma await_time done deadline s evs now : now <= deadline → Forall (λ e, now <= fst e) evs →
  now <= (await done deadline s evs).1.2 <= deadline.
Proof.
  revert s. induction evs as [|[t e] evs IH]; intros s Hd Hf; cbn [await fst snd]; [lia|]. apply Forall_cons in Hf as [Ht Hf]. cbn [fst] in Ht.
  destruct (Z.leb_spec deadline t); cbn [fst snd]; [lia|]. destruct (done (on_event e s)); cbn [fst snd]; [lia|by apply IH].
Qed.
Lemma advance_rest now s evs : StronglySorted Z.le (map fst evs) → Forall (λ e, now <= fst e) (p_rest (advance now s evs)).
Proof.
  revert s. induction evs as [|[t e] evs IH]; intros s Hs; cbn [advance]; [constructor|].
  apply StronglySorted_inv in Hs as [Hs Hall]. destruct (Z.leb_spec t now); [by apply IH|]. cbn [p_rest]. constructor; [cbn; lia|].
  rewrite List.Forall_forall in *. intros x Hx. specialize (Hall (fst x) (in_map fst _ _ Hx)). cbn in Hall. lia.
Qed.
Lemma wait_time done timeoutMs now p : 0 <= timeoutMs → StronglySorted Z.le (map fst (p_rest p)) →
  now <= (wait done timeoutMs now p).1.2 <= now + timeoutMs.
Proof.
  intros Ht Hs. unfold wait. destruct (done _); [cbn; lia|]. apply await_time; [lia|]. by apply advance_rest.
Qed.
Lemma bounded_time now w ms : 0 <= ms → now <= (bounded now w ms).2 <= now + ms.
Proof. intros Hm. unfold bounded. destruct w as [[d r]|]; [|cbn; lia]. destruct (Z.ltb_spec (Z.of_nat d) ms); cbn; lia. Qed.
Lemma bounded_ok now w ms : (bounded now w ms).1 = true → ∃ d, w = Some (d, Ok tt) ∧ Z.of_nat d < ms.
Proof.
  unfold bounded. destruct w as [[d [[]|e]]|]; [| |done]; destruct (Z.ltb_spec (Z.of_nat d) ms); try done. intros _. by exists d.
Qed.

Lemma bounded_some now c ms : Z.of_nat c < ms → bounded now (Some (c, Ok tt)) ms = (true, now + Z.of_nat c).
Proof. intros Hc. unfold bounded. by rewrite (proj2 (Z.ltb_lt _ _)) by done. Qed.

(** the state once everything has happened *)
Definition final (p : Process) : ShutdownState := fold_left (λ s e, on_event (snd e) s) (p_rest p) (p_state p).
Definition orderly (p : Process) : Prop := StronglySorted Z.le (map fst (p_rest p)).
(** [q] is [p] some events later *)
Definition later (p q : Process) : Prop := final q = final p ∧ ∃ pre, p_rest p = pre ++ p_rest q.

Lemma later_refl p : later p p.
Proof. split; [done|]. by exists []. Qed.
Lemma process_later_trans p q r : later p q → later q r → later p r.
Proof. intros [H1 [a Ha]] [H2 [b Hb]]. split; [congruence|]. exists (a ++ b). by rewrite Ha, Hb, app_assoc. Qed.
Lemma later_event t e s evs : later (mkProcess s ((t, e) :: evs)) (mkProcess (on_event e s) evs).
Proof. split; [done|]. by exists [(t, e)]. Qed.
Lemma later_orderly p q : later p q → orderly p → orderly q.
Proof.
  unfold orderly. intros [_ [pre ->]]. rewrite map_app. induction (map fst pre) as [|x l IH]; [done|]. intros Hs. apply IH.
  by apply StronglySorted_inv in Hs as [? _].
Qed.
Lemma later_forall (P : Z * Shutdown.Event → Prop) p q : later p q → Forall P (p_rest p) → Forall P (p_rest q).
Proof. intros [_ [pre ->]] Hf. by apply Forall_app in Hf as [_ ?]. Qed.
Lemma advance_later now s evs : later (mkProcess s evs) (advance now s evs).
Proof.
  revert s. induction evs as [|[t e] evs IH]; intros s; cbn [advance]; [apply later_refl|].
  destruct (t <=? now); [|apply later_refl]. eapply process_later_trans; [apply later_event|apply IH].
Qed.
Lemma await_later done deadline s evs : later (mkProcess s evs) (await done deadline s evs).2.
Proof.
  revert s. induction evs as [|[t e] evs IH]; intros s; cbn [await]; [apply later_refl|].
  destruct (deadline <=? t); [apply later_refl|]. eapply process_later_trans; [apply later_event|].
  destruct (done (on_event e s)); [apply later_refl|apply IH].
Qed.
Lemma wait_later done ms now p : later p (wait done ms now p).2.
Proof.
  unfold wait. destruct p as [s evs]. cbn [p_state p_rest]. eapply process_later_trans; [apply (advance_later now)|].
  destruct (advance now s evs) as [s' evs']. cbn [p_state p_rest]. destruct (done s'); [apply later_refl|apply await_later].
Qed.

(** a condition that will hold when everything has happened, soon enough, is waited for *)
Lemma await_quiet done deadline T s evs : Forall (λ e, fst e <= T) evs → T < deadline → done s = false →
  done (final (mkProcess s evs)) = true → (await done deadline s evs).1.1 = true ∧ (await done deadline s evs).1.2 <= T.
Proof.
  intros Hf HT. revert s. induction evs as [|[t e] evs IH]; intros s Hs Hd; [unfold final in Hd; simpl in Hd; congruence|].
  apply Forall_cons in Hf as [Ht Hf]. cbn [fst] in Ht. cbn [await]. rewrite (proj2 (Z.leb_gt _ _)) by lia.
  destruct (done (on_event e s)) eqn:Ed; [done|]. by apply IH.
Qed.
Lemma wait_quiet done ms now T p : Forall (λ e, fst e <= T) (p_rest p) → T < now + ms → done (final p) = true →
  (wait done ms now p).1.1 = true ∧ (wait done ms now p).1.2 <= Z.max now T.
Proof.
  intros Hf HT Hd. unfold wait. destruct p as [s evs]. cbn [p_state p_rest] in *. pose proof (advance_later now s evs) as Hl.
  destruct (advance now s evs) as [s' evs']. cbn [p_state p_rest]. destruct (done s') eqn:Es; [cbn; split; [done|lia]|].
  apply (later_forall _ _ _ Hl) in Hf. destruct Hl as [Hfin _].
  destruct (await_quiet done (now + ms) T s' evs' Hf HT Es) as [H1 H2]; [by rewrite Hfin|]. split; [done|lia].
Qed.

(** ** The drain *)

Section Drain.
Context (app : Application) (now : Z) (p : Process).
Abbreviation d := (drainApplication SHUTDOWN_BUDGET app now p).
Definition counted (s : ShutdownState) : Prop :=
  activeRequests s = Z.of_nat (length (open_requests s)) ∧ List.NoDup (open_requests s).

Lemma begin_exact : counted (p_state p) → exact (beginDrain (p_state p)).
Proof. by intros [? ?]. Qed.

Lemma drain_facts : counted (p_state p) → orderly p →
  now <= drained_at d <= now + 15000
  ∧ narrows (p_state p) (drained_state d)
  ∧ (complete d = true → open_requests (drained_state d) = []
      ∧ (∃ t n, server_close app t = Some (n, Ok tt)) ∧ ∃ t n, app_close app t = Some (n, Ok tt)).
Proof.
  intros Hc Ho. unfold drainApplication. set (q := mkProcess (beginDrain (p_state p)) (p_rest p)).
  assert (orderly q) as Hq by exact Ho. pose proof (begin_exact Hc) as He.
  pose proof (wait_time requests_done (requestsMs SHUTDOWN_BUDGET) now q ltac:(done) Hq) as T1.
  pose proof (wait_narrows requests_done (requestsMs SHUTDOWN_BUDGET) now q He) as [N1 D1].
  pose proof (later_orderly _ _ (wait_later requests_done (requestsMs SHUTDOWN_BUDGET) now q) Hq) as O1.
  destruct (wait requests_done _ now q) as [[r t1] p1]. cbn [fst snd] in *.
  pose proof (bounded_time t1 (server_close app t1) (clientsMs SHUTDOWN_BUDGET) ltac:(done)) as T2.
  pose proof (bounded_ok t1 (server_close app t1) (clientsMs SHUTDOWN_BUDGET)) as S2.
  destruct (bounded t1 _ _) as [h t2]. cbn [fst snd] in *.
  pose proof (wait_time all_background_done (backgroundMs SHUTDOWN_BUDGET) t2 p1 ltac:(done) O1) as T3.
  pose proof (wait_narrows all_background_done (backgroundMs SHUTDOWN_BUDGET) t2 p1 (proj1 N1)) as [N3 _].
  destruct (wait all_background_done _ t2 p1) as [[b t3] p3]. cbn [fst snd] in *.
  pose proof (bounded_time t3 (app_close app t3) (clientsMs SHUTDOWN_BUDGET) ltac:(done)) as T4.
  pose proof (bounded_ok t3 (app_close app t3) (clientsMs SHUTDOWN_BUDGET)) as S4.
  destruct (bounded t3 _ _) as [c t4]. cbn [fst snd drained_at drained_state] in *.
  unfold SHUTDOWN_BUDGET in *. cbn [requestsMs backgroundMs clientsMs] in *.
  pose proof (advance_narrows t4 (p_state p3) (p_rest p3) (proj1 N3)) as N4.
  assert (narrows (p_state p1) (p_state (advance t4 (p_state p3) (p_rest p3)))) as N5 by by eapply narrows_trans.
  split; [lia|]. split; [split; [apply N5|]; eapply incl_tran; [apply N5|apply N1]|].
  unfold complete. cbn [requestsDrained httpDrained backgroundDrained clientsClosed]. rewrite !andb_true_iff. intros [[[Hr Hh] _] Hcl].
  split; [|split; [destruct (S2 Hh) as (n&?&_)|destruct (S4 Hcl) as (n&?&_)]; by eauto].
  specialize (D1 Hr). unfold requests_done in D1. destruct N1 as [(_&Ha&_) _]. apply Z.eqb_eq in D1.
  assert (open_requests (p_state p1) = []) as Hnil by (apply length_zero_iff_nil; lia).
  apply incl_l_nil. rewrite <- Hnil. apply N5.
Qed.

(** Everything settles within two seconds, closing takes [c] each time. *)
Lemma drain_quiet T c : counted (p_state p) → orderly p → 0 <= T < 2000 → Z.of_nat c < 1500 →
  Forall (λ e, fst e <= now + T) (p_rest p) →
  requests_done (final (mkProcess (beginDrain (p_state p)) (p_rest p))) = true →
  all_background_done (final (mkProcess (beginDrain (p_state p)) (p_rest p))) = true →
  (∀ t, server_close app t = Some (c, Ok tt)) → (∀ t, app_close app t = Some (c, Ok tt)) →
  complete d = true ∧ drained_at d <= now + T + 2 * Z.of_nat c.
Proof.
  intros Hc Ho HT Hcl Hf Hr Hb Hs Ha. unfold drainApplication. set (q := mkProcess (beginDrain (p_state p)) (p_rest p)) in *.
  assert (orderly q) as Hq by exact Ho.
  pose proof (wait_time requests_done (requestsMs SHUTDOWN_BUDGET) now q ltac:(done) Hq) as T1.
  pose proof (wait_quiet requests_done (requestsMs SHUTDOWN_BUDGET) now (now + T) q Hf ltac:(cbn; lia) Hr) as [R1 Q1].
  pose proof (wait_later requests_done (requestsMs SHUTDOWN_BUDGET) now q) as L1.
  destruct (wait requests_done _ now q) as [[r t1] p1]. cbn [fst snd] in *.
  rewrite Hs, bounded_some by done.
  set (t2 := t1 + Z.of_nat c). pose proof (later_orderly _ _ L1 Hq) as O1. pose proof (later_forall _ _ _ L1 Hf) as F1.
  pose proof (wait_quiet all_background_done (backgroundMs SHUTDOWN_BUDGET) t2 (now + T) p1 F1 ltac:(cbn; lia)
    ltac:(rewrite (proj1 L1); exact Hb)) as [R3 Q3].
  destruct (wait all_background_done _ t2 p1) as [[b t3] p3]. cbn [fst snd] in *.
  rewrite Ha, bounded_some by done.
  unfold complete. cbn [requestsDrained httpDrained backgroundDrained clientsClosed drained_at]. rewrite R1, R3. split; [done|]. lia.
Qed.
End Drain.

(** ** When the exit code is 0 *)

(** The moments a wait looks at: when it starts, and after every event before its
    deadline. *)
Fixpoint looks (deadline : Z) (s : ShutdownState) (evs : Timeline) : list (Z * Process) :=
  match evs with
  | (t, e) :: evs' =>
      if deadline <=? t then [] else (t, mkProcess (on_event e s) evs') :: looks deadline (on_event e s) evs'
  | [] => []
  end.
Definition moments (now deadline : Z) (p : Process) : list (Z * Process) :=
  let q := advance now (p_state p) (p_rest p) in (now, q) :: looks deadline (p_state q) (p_rest q).
(** the first of them at which [P] holds *)
Definition first_moment (P : ShutdownState → Prop) `{∀ s, Decision (P s)} (now deadline : Z) (p : Process) : option (Z * Process) :=
  List.find (λ m, bool_decide (P (p_state (snd m)))) (moments now deadline p).

Definition no_requests (s : ShutdownState) : Prop := activeRequests s = 0.
Definition no_background (s : ShutdownState) : Prop := background_raw s = 0 ∧ background_key s = 0.
#[local] Instance no_requests_dec s : Decision (no_requests s).
Proof. unfold no_requests. apply _. Defined.
#[local] Instance no_background_dec s : Decision (no_background s).
Proof. unfold no_background. apply _. Defined.

(** A drain in which nothing is left over, from [now] to the exit at [t]: the last
    request ends within ten seconds, the listener closes, the last background
    work ends within two seconds of that, the clients close, and the process has
    nothing left before fourteen seconds are over. *)
Definition clean_exit (app : Application) (now : Z) (p : Process) (lingering : option nat) (t : Z) : Prop :=
  ∃ t1 q1 n1 t3 q3 n4 n,
    first_moment no_requests now (now + 10000) p = Some (t1, q1)
    ∧ server_close app t1 = Some (n1, Ok tt) ∧ Z.of_nat n1 < 1500
    ∧ first_moment no_background (t1 + Z.of_nat n1) (t1 + Z.of_nat n1 + 2000) q1 = Some (t3, q3)
    ∧ app_close app t3 = Some (n4, Ok tt) ∧ Z.of_nat n4 < 1500
    ∧ lingering = Some n ∧ t = t3 + Z.of_nat n4 + Z.of_nat n ∧ t < now + 14000.

Lemma find_same {A} (f g : A → bool) l : (∀ x, f x = g x) → List.find f l = List.find g l.
Proof. intros Hf. induction l as [|x l IH]; [done|]. simpl. by rewrite Hf, IH. Qed.
Lemma await_looks (done : ShutdownState → bool) deadline s evs :
  match List.find (λ m, done (p_state (snd m))) (looks deadline s evs) with
  | Some (t, q) => await done deadline s evs = (true, t, q)
  | None => (await done deadline s evs).1.1 = false
  end.
Proof.
  revert s. induction evs as [|[t e] evs IH]; intros s; [done|]. cbn [looks await]. destruct (deadline <=? t); [done|].
  cbn [List.find snd p_state]. destruct (done (on_event e s)); [done|]. apply IH.
Qed.
Lemma wait_first (done : ShutdownState → bool) P `{∀ s, Decision (P s)} ms now p :
  (∀ s, done s = true ↔ P s) →
  match first_moment P now (now + ms) p with
  | Some (t, q) => wait done ms now p = (true, t, q)
  | None => (wait done ms now p).1.1 = false
  end.
Proof.
  intros Hd. unfold first_moment, moments, wait. cbn [List.find snd].
  assert (∀ s, bool_decide (P s) = done s) as Hb.
  { intros s. apply eq_true_iff_eq. by rewrite bool_decide_eq_true, Hd. }
  rewrite Hb. destruct (done (p_state (advance now (p_state p) (p_rest p)))); [done|].
  rewrite (find_same _ (λ m, done (p_state (snd m)))) by (intros m; apply Hb). apply await_looks.
Qed.

Lemma exit_clean app now p lingering code t :
  exit_of SHUTDOWN_BUDGET now (drainApplication SHUTDOWN_BUDGET app now p) lingering = (code, t) →
  code = 0 ↔ clean_exit app now (mkProcess (beginDrain (p_state p)) (p_rest p)) lingering t.
Proof.
  unfold exit_of, complete, drainApplication, clean_exit. set (q := mkProcess (beginDrain (p_state p)) (p_rest p)).
  cbn [requestsMs backgroundMs clientsMs hardMs SHUTDOWN_BUDGET].
  pose proof (wait_first requests_done no_requests 10000 now q ltac:(intros; apply Z.eqb_eq)) as W1.
  destruct (first_moment no_requests now (now + 10000) q) as [[t1 q1]|].
  2:{ destruct (wait _ _ _ _) as [[r t1] q1]. cbn [fst] in W1. subst r. destruct (bounded t1 _ _) as [h t2].
      destruct (wait all_background_done _ _ _) as [[b t3] q3]. destruct (bounded t3 _ _) as [c t4].
      cbn [requestsDrained httpDrained backgroundDrained clientsClosed drained_at andb negb]. rewrite ?andb_false_r. cbn [negb andb]. intros [= <- _]. split; [done|]. by intros (?&?&?&?&?&?&?&?&_). }
  rewrite W1. pose proof (λ n1, wait_first all_background_done no_background 2000 (t1 + Z.of_nat n1) q1
    ltac:(intros; unfold all_background_done, no_background; by rewrite andb_true_iff, !Z.eqb_eq)) as W3.
  destruct (bounded t1 (server_close app t1) 1500) as [h t2] eqn:B2. unfold bounded in B2.
  destruct h.
  2:{ destruct (wait all_background_done _ _ _) as [[b t3] q3]. destruct (bounded t3 _ _) as [c t4].
      cbn [requestsDrained httpDrained backgroundDrained clientsClosed drained_at andb negb]. rewrite ?andb_false_r. cbn [negb andb]. intros [= <- _]. split; [done|]. intros (?&?&n1&?&?&?&?&[= <- <-]&Hs&Hn&_). rewrite Hs in B2.
      rewrite (proj2 (Z.ltb_lt _ _) Hn) in B2. done. }
  assert (∃ n1, server_close app t1 = Some (n1, Ok tt) ∧ Z.of_nat n1 < 1500 ∧ t2 = t1 + Z.of_nat n1) as (n1&Hs&Hn1&->).
  { destruct (server_close app t1) as [[d [[]|e]]|]; [| |done]; destruct (Z.ltb_spec (Z.of_nat d) 1500); try done.
    injection B2 as <-. by exists d. }
  clear B2. specialize (W3 n1). destruct (first_moment no_background (t1 + Z.of_nat n1) (t1 + Z.of_nat n1 + 2000) q1) as [[t3 q3]|] eqn:F3.
  2:{ destruct (wait all_background_done _ _ _) as [[b t3] q3]. cbn [fst] in W3. subst b. destruct (bounded t3 _ _) as [c t4].
      cbn [requestsDrained httpDrained backgroundDrained clientsClosed drained_at andb negb]. rewrite ?andb_false_r. cbn [negb andb]. intros [= <- _]. split; [done|]. intros (?&?&m1&?&?&?&?&[= <- <-]&Hs'&_&Hf&_). rewrite Hs in Hs'. injection Hs' as <-.
      rewrite F3 in Hf. done. }
  rewrite W3. destruct (bounded t3 (app_close app t3) 1500) as [c t4] eqn:B4. unfold bounded in B4.
  destruct c.
  2:{ cbn [requestsDrained httpDrained backgroundDrained clientsClosed drained_at andb negb]. rewrite ?andb_false_r. cbn [negb andb]. intros [= <- _]. split; [done|]. intros (?&?&m1&?&?&m4&?&[= <- <-]&Hs'&_&Hf&Ha&Hn&_). rewrite Hs in Hs'. injection Hs' as <-.
      rewrite F3 in Hf. injection Hf as <- <-. rewrite Ha in B4. rewrite (proj2 (Z.ltb_lt _ _) Hn) in B4. done. }
  assert (∃ n4, app_close app t3 = Some (n4, Ok tt) ∧ Z.of_nat n4 < 1500 ∧ t4 = t3 + Z.of_nat n4) as (n4&Ha&Hn4&->).
  { destruct (app_close app t3) as [[d [[]|e]]|]; [| |done]; destruct (Z.ltb_spec (Z.of_nat d) 1500); try done.
    injection B4 as <-. by exists d. }
  cbn [requestsDrained httpDrained backgroundDrained clientsClosed drained_at andb negb].
  destruct lingering as [n|].
  2:{ intros [= <- _]. split; [done|]. by intros (?&?&?&?&?&?&?&?&?&?&?&?&?&[=]&_). }
  destruct (Z.ltb_spec (t3 + Z.of_nat n4 + Z.of_nat n) (now + 14000)); intros [= <- <-].
  - split; [|done]. intros _. exists t1, q1, n1, t3, q3, n4, n. split_and!; done.
  - split; [done|]. intros (?&?&m1&?&?&m4&m&[= <- <-]&Hs'&_&Hf&Ha'&_&[= <-]&Ht&Hlt). lia.
Qed.

(** ** The property *)

(** C36. The process stops in time and honestly.  After the first signal (later ones
    change nothing) no request is let in, and the process is gone within fourteen
    seconds, with code 0 or 1.  It exits with 0 exactly when nothing was left
    over: the last open request ended within ten seconds, then the listener
    closed, then both counts of background work were zero at some moment of the
    next two seconds, then the clients closed, each in time, and the last handle
    went away before the fourteen seconds were over; no request is open then.
    If what is running ends within two seconds and closing works, that is so.
    (The four waits may take fifteen seconds together, so a complete drain can
    be cut: [slow_but_complete].) *)
Theorem shutdown_is_honest app p lingering now others :
  let p1 := advance now (p_state p) (p_rest p) in
  let d := drainApplication SHUTDOWN_BUDGET app now p1 in
  counted (p_state p1) → orderly p →
  ∃ code t, installShutdown SHUTDOWN_BUDGET app p lingering (now :: others) = Some (code, t)
    ∧ now <= t <= now + 14000
    ∧ incl (open_requests (drained_state d)) (open_requests (p_state p1)) ∧ draining (drained_state d) = true
    ∧ (code = 0 ∨ code = 1)
    ∧ (code = 0 ↔ clean_exit app now (mkProcess (beginDrain (p_state p1)) (p_rest p1)) lingering t)
    ∧ (code = 0 → activeRequests (drained_state d) = 0 ∧ open_requests (drained_state d) = [])
    ∧ ∀ T c, 0 <= T < 2000 → Z.of_nat c < 1500 → Forall (λ e, fst e <= now + T) (p_rest p) →
        let last := final (mkProcess (beginDrain (p_state p1)) (p_rest p1)) in
        no_requests last → no_background last →
        (∀ t, server_close app t = Some (c, Ok tt)) → (∀ t, app_close app t = Some (c, Ok tt)) → lingering = Some 0%nat → code = 0.
Proof.
  intros p1 d Hc Ho. assert (orderly p1) as Ho1 by (apply (later_orderly p); [destruct p; apply advance_later|done]).
  destruct (drain_facts app now p1 Hc Ho1) as (Ht&[Hx Hi]&Hdone). fold d in Ht, Hx, Hi, Hdone.
  unfold installShutdown. fold p1. fold d.
  destruct (exit_of SHUTDOWN_BUDGET now d lingering) as [code t] eqn:E. exists code, t. split; [done|].
  pose proof (exit_clean app now p1 lingering code t E) as Hiff. unfold exit_of in E. cbn [hardMs SHUTDOWN_BUDGET] in E.
  assert (now <= t <= now + 14000 ∧ (code = 0 ∨ code = 1) ∧ (code = 0 → complete d = true)) as (Hb&Hcode&Hcomp).
  { destruct (complete d); cbn [negb] in E; [|injection E as <- <-; split; [lia|]; split; [by right|done]].
    destruct lingering as [n|]; [|injection E as <- <-; split; [lia|]; split; [by right|done]].
    destruct (Z.ltb_spec (drained_at d + Z.of_nat n) (now + 14000)); injection E as <- <-; (split; [lia|]); (split; [auto|]); done. }
  split; [done|]. split; [done|]. split; [apply Hx|]. split; [done|]. split; [done|]. split.
  - intros H0. destruct (Hdone (Hcomp H0)) as (Hnil&_). split; [|done]. destruct Hx as (_&->&_). by rewrite Hnil.
  - intros T c HT Hcl Hf Hr [Hb1 Hb2] Hs Ha Hl.
    assert (Forall (λ e, fst e <= now + T) (p_rest p1)) as Hf1
      by (apply (later_forall _ p); [destruct p; apply advance_later|done]).
    destruct (drain_quiet app now p1 T c Hc Ho1 HT Hcl Hf1) as [H1 H2]; [by apply Z.eqb_eq| |done|done|].
    { unfold all_background_done. by rewrite Hb1, Hb2. }
    fold d in H1, H2. rewrite Hl, H1 in E. cbn [negb] in E.
    rewrite (proj2 (Z.ltb_lt _ _)) in E by lia. by injection E as <- _.
Qed.

(** Each wait keeps its budget, and the drain is still cut at the deadline. *)
Module DrainDemo.
Definition stopping (requests background : Z) (c : nat) : Process * Application :=
  (mkProcess (mkShutdown false 1 1 0 [7%nat]) [(requests, Finish 7); (background, Shutdown.Done raw_ingestions)],
   mkApplication (λ _, Some (c, Ok tt)) (λ _, Some (c, Ok tt))).
Definition exits (x : Process * Application) : option (Z * Z) := installShutdown SHUTDOWN_BUDGET x.2 x.1 (Some 0%nat) [0; 5].

Lemma slow_but_complete : exits (stopping 9900 12700 1400) = Some (1, 14000)
  ∧ complete (drainApplication SHUTDOWN_BUDGET (stopping 9900 12700 1400).2 0 (stopping 9900 12700 1400).1) = true.
Proof. split; reflexivity. Qed.

Lemma shutdown_is_honest_witness : ∃ t, exits (stopping 300 900 100) = Some (0, t) ∧ 0 <= t <= 14000
  ∧ activeRequests (drained_state (drainApplication SHUTDOWN_BUDGET (stopping 300 900 100).2 0 (stopping 300 900 100).1)) = 0.
Proof.
  destruct (shutdown_is_honest (stopping 300 900 100).2 (stopping 300 900 100).1 (Some 0%nat) 0 [5]) as (code&t&E&Hb&_&_&_&_&Hz&_).
  - split; [reflexivity|]. repeat constructor; by intros [].
  - repeat constructor; cbn; lia.
  - unfold exits. rewrite E. vm_compute in E. injection E as <- <-. exists 1000. split; [reflexivity|]. split; [lia|].
    exact (proj1 (Hz eq_refl)).
Defined.
End DrainDemo.
