(* ===== verification/Ingestion.v ===== *)
(** * The ingestion API

    [ingestion/ingestion.service.ts] and [track.controller.ts] over the event
    store, the queue producer of [packages/libqueue-ts] and the shutdown
    state; every endpoint passes the API key guard and the rate limit guard
    before its body is parsed. *)

From Stdlib Require Import QArith.
From S2P Require Import Prelude JsVal JsNumber Crypto Json Authz AuthDb AuthServices Team Bootstrap RateLimit IngestSchemas EventReceipts Shutdown.

#[global] Open Scope Z_scope.

(** ** [QueueProducer] *)

Inductive MessageType := ingest_batch.

(** [Envelope]: [schema_ver] is 1, the trace id a fresh UUID. *)
Record Envelope := mkEnvelope {
  ev_id : string; ev_type : MessageType; ev_schema_ver : Z; ev_tenant_id : string; ev_app_id : string;
  ev_occurred_at : string; ev_trace_id : string; ev_payload : IngestBatchPayload }.

(** The JSON Schema validators [ajv] compiles from [queue-schemas/schemas]. *)
Record Validators := mkValidators {
  validateEnvelope : Envelope → bool;
  validatePayload : MessageType → option (IngestBatchPayload → bool) }.

Definition EnvelopeValidationError (message : string) : exn := PlainError message.

(** What a request finds in its surroundings. *)
Record IngestEnv := mkIngestEnv {
  ie_request_id : string;              (** [randomUUID()] of the service *)
  ie_envelope_id : string; ie_trace_id : string;
  ie_now : string;                     (** [new Date().toISOString()] *)
  ie_received_at : string;             (** the same, as ClickHouse wants it *)
  ie_xadd_error : option exn;          (** Redis refuses the [XADD] *)
  ie_others : nat → Db → Db;           (** commits of other requests *)
  ie_failures : nat → option exn;      (** errors of PostgreSQL, per attempt *)
  ie_uuid : nat → string; ie_clock : nat → Z; ie_to_char : Z → string;
  ie_localeCompare : string → string → bool;
  ie_merge_fuel : nat }.

(** A row of ClickHouse's [raw_ingestions] *)
Record RawRow := mkRaw {
  rw_tenant_id : string; rw_app_id : string; rw_endpoint : string; rw_api_key_id : string;
  rw_payload : string; rw_received_at : string; rw_request_id : string }.

(** The stores the service works on; [background] are the raw rows handed to
    [runBackground], whose insertion may fail without consequence. *)
Record Server := mkServer {
  sv_events : Shared; sv_stream : list Envelope; sv_background : list RawRow; sv_shutdown : ShutdownState }.

Definition on_events {A} (m : M Shared A) : M Server A := λ s,
  let '(r, e) := m (sv_events s) in (r, mkServer e (sv_stream s) (sv_background s) (sv_shutdown s)).

Section Service.
Context `{Zod} (validators : Validators) (env : IngestEnv).

(** [publish(STREAMS.ingest, { type: "ingest.batch", ... })]; [xadd] with
    MAXLEN ~ 1,000,000 appends (Redis trims the oldest entries). *)
Definition queue_publish (tenantId appId : string) (payload : IngestBatchPayload) : M Server Envelope :=
  let envelope := mkEnvelope (ie_envelope_id env) ingest_batch 1 tenantId appId (ie_now env) (ie_trace_id env) payload in
  _ ← throw_if (negb (validateEnvelope validators envelope)) (EnvelopeValidationError "envelope (ingest.batch)");
  _ ← throw_if (match validatePayload validators ingest_batch with
                | Some validate => negb (validate payload)
                | None => false end) (EnvelopeValidationError "payload (ingest.batch)");
  _ ← match ie_xadd_error env with Some e => throw e | None => mret tt end;
  _ ← modify (λ s, mkServer (sv_events s) (sv_stream s ++ [envelope]) (sv_background s) (sv_shutdown s));
  mret envelope.

Definition publish (key : ResolvedApiKey) (payload : IngestBatchPayload) : M Server unit :=
  _ ← queue_publish (rk_tenantId key) (rk_appId key) payload; mret tt.

Definition insertRaw (key : ResolvedApiKey) (endpoint : string) (rawBody : jsval) (requestId : string) : M Server unit :=
  modify (λ s, mkServer (sv_events s) (sv_stream s)
    (sv_background s ++ [mkRaw (rk_tenantId key) (rk_appId key) endpoint (rk_id key)
       (JSON_stringify number_format rawBody) (ie_received_at env) requestId])
    (runBackground raw_ingestions (sv_shutdown s))).

(** [accepted] (where the endpoint reports it) and [request_id] *)
Record Accepted := mkAccepted { ac_accepted : option Z; ac_request_id : string }.

Definition track (key : ResolvedApiKey) (body : TrackBody) (rawBody : jsval) : M Server Accepted := λ s,
  match on_events (persistTrackReceipts (ie_others env) (ie_uuid env) (ie_clock env) (ie_to_char env)
          (ie_localeCompare env) (rk_tenantId key) (rk_appId key) (rk_id key) (ie_merge_fuel env) (ie_failures env)
          body (ie_request_id env)) s with
  | (Throw _, s') => (Throw (ServiceUnavailableException "events not stored; retry with the same insert_id"), s')
  | (Ok _, s') =>
      (_ ← insertRaw key "track" rawBody (ie_request_id env);
       mret (mkAccepted (Some (Z.of_nat (length (tb_batch body)))) (ie_request_id env))) s'
  end.

(** The endpoints that record the body and publish one payload *)
Definition forward (key : ResolvedApiKey) (endpoint : string) (e : IngestEndpoint) (rawBody : jsval)
    (p : PayloadBody) (accepted : option Z) : M Server Accepted :=
  _ ← insertRaw key endpoint rawBody (ie_request_id env);
  _ ← publish key (mkPayload e (ie_request_id env) (rk_id key) p);
  mret (mkAccepted accepted (ie_request_id env)).

Definition identify (key : ResolvedApiKey) (body : IdentifyBody) (rawBody : jsval) : M Server Accepted :=
  forward key "identify" e_identify rawBody
    (P_identify (ib_device body) (ib_external_id body) (ib_anon_id body) (ib_attributes body)) None.

Definition attributes (key : ResolvedApiKey) (updates : list AttributesUpdate) (rawBody : jsval) : M Server Accepted :=
  forward key "attributes" e_attributes rawBody (P_attributes updates) (Some (Z.of_nat (length updates))).

Definition deviceToken (key : ResolvedApiKey) (body : TokenBody) (rawBody : jsval) : M Server Accepted :=
  forward key "devices_token" e_devices_token rawBody
    (P_token (kb_device body) (kb_push_token body) (kb_os_permission body) (kb_anon_id body) (kb_external_id body)) None.

Definition subscriptions (key : ResolvedApiKey) (body : SubscriptionBody) (rawBody : jsval) : M Server Accepted :=
  forward key "subscriptions" e_subscriptions rawBody
    (P_subscription (sb_channel body) (sb_state body) (sb_anon_id body) (sb_external_id body)) None.

Definition deviceLogout (key : ResolvedApiKey) (device_id : string) (rawBody : jsval) : M Server Accepted :=
  forward key "devices_logout" e_devices_logout rawBody (P_logout device_id) None.

Definition userDelete (key : ResolvedApiKey) (externalId : string) : M Server Accepted :=
  forward key "user_delete" e_user_delete (JObj [("external_id", JStr externalId)]) (P_user_delete externalId) None.

(** ** [TrackController] *)

Inductive Call :=
| c_track (body : jsval) | c_identify (body : jsval) | c_attributes (body : jsval) | c_token (body : jsval)
| c_subscriptions (body : jsval) | c_logout (body : jsval) | c_delete (externalId : string).

(** [@RequireApiKey] and [@RequireScope] of a route *)
Definition kinds_of (c : Call) : list KeyKind :=
  match c with
  | c_track _ | c_identify _ | c_subscriptions _ => [Sdk; AuthDb.Server]
  | c_attributes _ | c_delete _ => [AuthDb.Server]
  | c_token _ | c_logout _ => [Sdk]
  end.
Definition scope_of (c : Call) : option KeyScope := match c with c_delete _ => Some Full | _ => None end.
Definition body_of (c : Call) : jsval :=
  match c with
  | c_track b | c_identify b | c_attributes b | c_token b | c_subscriptions b | c_logout b => b
  | c_delete _ => JUndef
  end.

Definition parse {A} (schema : Parser A) (body : jsval) : M Server A :=
  some_or_throw (schema body) (BadRequestException "invalid body").

Definition dispatch (key : ResolvedApiKey) (c : Call) : M Server Accepted :=
  match c with
  | c_track b => p ← parse trackBodySchema b; track key p b
  | c_identify b => p ← parse identifyBodySchema b; identify key p b
  | c_attributes b => p ← parse attributesBodySchema b; attributes key p b
  | c_token b => p ← parse tokenBodySchema b; deviceToken key p b
  | c_subscriptions b => p ← parse subscriptionBodySchema b; subscriptions key p b
  | c_logout b => p ← parse logoutBodySchema b; deviceLogout key p b
  | c_delete externalId =>
      _ ← throw_if (String.eqb externalId "" || (256 <? js_length externalId)) (BadRequestException "external_id");
      userDelete key externalId
  end.
End Service.

(** ** A request *)

(** The state of the whole API a request touches *)
Record Api := mkApi { api_auth : AuthDb.Db; api_redis : Redis; api_server : Server }.

(** Admission, API key, rate limit, handler, in this order: the outcome and the
    state it leaves, with the request still open.  The stamp of the key's last
    use is no part of it: resolving the key only schedules a background
    statement ([Team.record_usage] decides, [Team.usage_update] is the
    statement, the request [RUsage] of [AuthInv.exec]). *)
Definition serve_ingest `{Host, Crypto, Zod} (validators : Validators) (env : IngestEnv) (authEnv : Env) (limitEnv : LimitEnv)
    (text : jsval → string) (redis_ms : nat → Z) (now : Z) (i : nat)
    (authorization x_api_key : option string) (c : Call) (a : Api) : outcome Accepted * Api :=
  let '(admitted, sd) := middleware i (sv_shutdown (api_server a)) in
  let server := mkServer (sv_events (api_server a)) (sv_stream (api_server a)) (sv_background (api_server a)) sd in
  let a1 := mkApi (api_auth a) (api_redis a) server in
  if negb admitted then (Throw (ServiceUnavailableException "shutting_down"), a1)
  else
    match ApiKeyGuard authEnv (kinds_of c) (scope_of c) authorization x_api_key (api_auth a) with
    | (Throw e, auth') => (Throw e, mkApi auth' (api_redis a) server)
    | (Ok resolved, auth') =>
        let '(limited, _, redis') :=
          RateLimitGuard text limitEnv redis_ms now (fst <$> resolved) (body_of c) (api_redis a) in
        match limited, resolved with
        | Throw e, _ => (Throw e, mkApi auth' redis' server)
        | Ok _, Some (key, _) =>
            let '(r, server') := dispatch validators env key c server in
            (r, mkApi auth' redis' server')
        | Ok _, None => (Throw (PlainError "no key"), mkApi auth' redis' server)
        end
    end.
