(* ===== verification/IngestProps.v ===== *)
(** * The ingestion API: who can write what

    A request reaches the stores only through an open admission gate, a key
    that resolves and has the route's kind and scope, and the rate limit; what
    it writes carries the tenant and app of that key.  Runs of the whole path. *)

From Stdlib Require Import QArith.
From stdpp Require Import pretty.
From S2P Require Import Prelude JsVal JsNumber Crypto Json Authz AuthDb AuthServices Team Bootstrap RateLimit IngestSchemas EventReceipts ReceiptsInv ReceiptsProps Shutdown Ingestion AuthRun.

#[global] Open Scope Z_scope.

(** What a handler run with [key] may do to the stores besides the event
    receipts: append to the stream envelopes of the key's tenant and app, at
    most one, and hand over raw rows of the key, at most one. *)
Definition scoped (key : ResolvedApiKey) (s s' : Server) : Prop :=
  (∃ new, sv_stream s' = sv_stream s ++ new ∧ (length new <= 1)%nat ∧
     ∀ ev, In ev new → ev_tenant_id ev = rk_tenantId key ∧ ev_app_id ev = rk_appId key ∧ pl_api_key_id (ev_payload ev) = rk_id key)
  ∧ ∃ rows, sv_background s' = sv_background s ++ rows ∧ (length rows <= 1)%nat ∧
     ∀ r, In r rows → rw_tenant_id r = rk_tenantId key ∧ rw_app_id r = rk_appId key ∧ rw_api_key_id r = rk_id key.

Lemma scoped_refl key s : scoped key s s.
Proof. split; exists []; rewrite app_nil_r; (split; [done|]; split; [simpl; lia|by intros ? []]). Qed.

Section Scoped.
Context `{Host, Crypto, Zod} (validators : Validators) (env : IngestEnv).

Lemma forward_scoped key endpoint e rawBody p accepted s r s' :
  forward validators env key endpoint e rawBody p accepted s = (r, s') →
  scoped key s s' ∧ sv_events s' = sv_events s.
Proof.
  unfold forward, publish, queue_publish, insertRaw, throw_if. intros E.
  repeat (unfold mbind, M_bind, mret, M_ret, throw, modify in E; repeat case_match; simplify_eq/=);
    (split; [|done]);
    (split; [|exists [mkRaw (rk_tenantId key) (rk_appId key) endpoint (rk_id key) (JSON_stringify number_format rawBody)
                        (ie_received_at env) (ie_request_id env)];
              split; [done|]; split; [done|]; by intros ? [<-|[]]]);
    first [exists []; rewrite app_nil_r; split; [done|]; split; [simpl; lia|by intros ? []]
          |eexists [_]; split; [done|]; split; [done|]; by intros ? [<-|[]]].
Qed.

Lemma track_scoped key body rawBody s r s' :
  track env key body rawBody s = (r, s') →
  scoped key s s' ∧ sv_stream s' = sv_stream s ∧
  ∃ rp, persistTrackReceipts (ie_others env) (ie_uuid env) (ie_clock env) (ie_to_char env) (ie_localeCompare env)
      (rk_tenantId key) (rk_appId key) (rk_id key) (ie_merge_fuel env) (ie_failures env) body (ie_request_id env) (sv_events s)
    = (rp, sv_events s') ∧ (is_ok rp = is_ok r).
Proof.
  unfold track, on_events. destruct (persistTrackReceipts _ _ _ _ _ _ _ _ _ _ _ _ _) as [[k|e] ev] eqn:E.
  - unfold insertRaw, mbind, M_bind, modify, mret, M_ret. intros [= <- <-]. split; [|split; [done|by eexists]].
    split; [exists []; rewrite app_nil_r; split; [done|]; split; [simpl; lia|by intros ? []]|].
    eexists [_]. split; [done|]. split; [done|]. by intros ? [<-|[]].
  - intros [= <- <-]. split; [|split; [done|by eexists]].
    split; exists []; rewrite app_nil_r; (split; [done|]; split; [simpl; lia|by intros ? []]).
Qed.

Lemma parse_bind {A B} (schema : Parser A) b (f : A → M Server B) s r s' :
  (parse schema b ≫= f) s = (r, s') →
  (is_ok r = false ∧ s' = s) ∨ ∃ p, schema b = Some p ∧ f p s = (r, s').
Proof.
  unfold parse, some_or_throw, mbind, M_bind, mret, M_ret, throw. destruct (schema b); [eauto|].
  intros [= <- <-]. by left.
Qed.

Lemma dispatch_scoped key c s r s' :
  dispatch validators env key c s = (r, s') →
  scoped key s s' ∧ (sv_events s' = sv_events s ∨ ∃ b body, c = c_track b ∧ trackBodySchema b = Some body ∧
    sv_stream s' = sv_stream s ∧
    ∃ rp, persistTrackReceipts (ie_others env) (ie_uuid env) (ie_clock env) (ie_to_char env) (ie_localeCompare env)
        (rk_tenantId key) (rk_appId key) (rk_id key) (ie_merge_fuel env) (ie_failures env) body (ie_request_id env) (sv_events s)
      = (rp, sv_events s') ∧ is_ok rp = is_ok r).
Proof.
  assert (∀ {A} (schema : Parser A) b (f : A → M Server Accepted),
    (∀ p s r s', f p s = (r, s') → scoped key s s' ∧ sv_events s' = sv_events s) →
    (parse schema b ≫= f) s = (r, s') → scoped key s s' ∧ sv_events s' = sv_events s) as Hforward.
  { intros A schema b f Hf E. apply parse_bind in E as [[_ ->]|(p&_&E)]; [split; [apply scoped_refl|done]|by apply Hf in E]. }
  assert (∀ endpoint e rawBody p accepted s r s', forward validators env key endpoint e rawBody p accepted s = (r, s') →
    scoped key s s' ∧ sv_events s' = sv_events s) as Hfwd by (intros *; apply forward_scoped).
  destruct c as [b|b|b|b|b|b|ext]; cbn [dispatch]; intros E.
  { apply parse_bind in E as [[_ ->]|(p&Hp&E)]; [split; [apply scoped_refl|by left]|].
    apply track_scoped in E as (?&?&?). split; [done|]. right. exists b, p. auto. }
  1-5: apply Hforward in E as [? ?]; [split; [done|by left]|intros *; apply Hfwd].
  unfold throw_if, mbind, M_bind, mret, M_ret, throw in E.
  destruct (String.eqb ext "" || (256 <? js_length ext)).
  - injection E as <- <-. split; [apply scoped_refl|by left].
  - apply forward_scoped in E as [? ?]. split; [done|by left].
Qed.

Lemma key_guard_inv authEnv kinds scope authorization x_api_key d r d' : kinds ≠ [] →
  ApiKeyGuard authEnv kinds scope authorization x_api_key d = (r, d') →
  d' = d ∧ ∀ o, r = Ok o → ∃ raw key due, o = Some (key, due) ∧ resolve_key authEnv raw d = Some (key, due) ∧
    In (rk_kind key) kinds ∧ (scope = Some Full → rk_scope key = Full).
Proof.
  intros Hk. unfold ApiKeyGuard. destruct kinds as [|k0 kinds]; [done|].
  set (raw := match authorization with Some _ => _ | None => _ end). intros E. split.
  { unfold throw_if, some_or_throw, get, mbind, M_bind, mret, M_ret, throw in E.
    repeat case_match; simplify_eq/=; done. }
  intros o ->. apply bind_ok in E as ([]&s1&[_ ->]%throw_if_ok&E). apply bind_ok in E as (d1&s2&[= <- <-]&E).
  apply bind_ok in E as ([key due]&s3&[Hr ->]%some_or_throw_ok&E).
  apply bind_ok in E as ([]&s4&[Hkind ->]%throw_if_ok&E). apply bind_ok in E as ([]&s5&[Hs ->]%throw_if_ok&E).
  injection E as <- <-. exists raw, key, due. split; [done|]. split; [done|]. split.
  - apply negb_false_iff, existsb_exists in Hkind as (k&Hin&Hb%bool_decide_eq_true). cbn [fst] in Hb. by rewrite <- Hb.
  - intros ->. rewrite bool_decide_eq_true_2 in Hs by done. apply negb_false_iff in Hs. by apply bool_decide_eq_true in Hs.
Qed.
End Scoped.

(** C29. Nothing reaches the stores of the ingestion API without a key: if a
    request changed the event store, the stream or the background work, the
    process was not draining, the request carried a key that resolves, of a
    kind the route allows (and of full scope to delete a user), and everything
    it published or handed over bears that key's tenant and app - for the event
    store because the change is the transaction of [persistTrackReceipts] for
    them.  The request changes no account table (the stamp of the key's last use
    is a background statement of its own).  A track request that failed its
    transaction is answered as failed. *)
Theorem ingest_is_authenticated `{Host, Crypto, Zod} validators env authEnv limitEnv text redis_ms now i
  authorization x_api_key c a r a'
  (Hserve : serve_ingest validators env authEnv limitEnv text redis_ms now i authorization x_api_key c a = (r, a')) :
  let s := api_server a in let s' := api_server a' in
  api_auth a' = api_auth a ∧
  ((sv_events s' = sv_events s ∧ sv_stream s' = sv_stream s ∧ sv_background s' = sv_background s ∧ is_ok r = false) ∨
   draining (sv_shutdown s) = false ∧
   ∃ raw key due, resolve_key authEnv raw (api_auth a) = Some (key, due) ∧ In (rk_kind key) (kinds_of c) ∧
     (scope_of c = Some Full → rk_scope key = Full) ∧ scoped key s s' ∧
     (sv_events s' = sv_events s ∨ ∃ b body, c = c_track b ∧ trackBodySchema b = Some body ∧ sv_stream s' = sv_stream s ∧
        ∃ rp, persistTrackReceipts (ie_others env) (ie_uuid env) (ie_clock env) (ie_to_char env) (ie_localeCompare env)
            (rk_tenantId key) (rk_appId key) (rk_id key) (ie_merge_fuel env) (ie_failures env) body (ie_request_id env)
            (sv_events s) = (rp, sv_events s') ∧ is_ok rp = is_ok r)).
Proof.
  unfold serve_ingest, middleware in Hserve. destruct a as [auth redis [ev st bg sd]].
  cbn [api_auth api_redis api_server sv_events sv_stream sv_background sv_shutdown] in *.
  destruct (draining sd) eqn:Hd; cbn [negb] in Hserve.
  { injection Hserve as <- <-. split; [done|]. by left. }
  set (sd' := mkShutdown _ _ _ _ _) in Hserve.
  destruct (ApiKeyGuard _ _ _ _ _ _) as [rk auth'] eqn:Eg.
  apply key_guard_inv in Eg as [-> Hkey]; [|by destruct c].
  destruct rk as [o|e]; [|injection Hserve as <- <-; split; [done|]; by left].
  destruct (Hkey o eq_refl) as (raw&key&due&->&Hres&Hkind&Hscope).
  destruct (RateLimitGuard _ _ _ _ _ _ _) as [[lim h] redis'].
  destruct lim as [b|e]; [|injection Hserve as <- <-; split; [done|]; by left].
  destruct (dispatch _ _ _ _ _) as [rd server'] eqn:Ed. injection Hserve as <- <-.
  split; [done|]. right. split; [done|]. exists raw, key, due. split; [done|]. split; [done|]. split; [done|].
  apply dispatch_scoped in Ed. exact Ed.
Qed.

(** ** A run *)

Module Run.

#[local] Existing Instances AuthRun.Run.toy_crypto AuthRun.Run.toy_host.

Definition zod : Zod := {|
  zod_uuid s := Nat.eqb (String.length s) 4; zod_datetime s := true; number_format _ := "?" |}.
#[export] Existing Instance zod.

(** The identifiers are four characters long here. *)
Definition ev (id user name : string) : TrackEvent := mkTrackEvent id None (Some user) name None "2026-01-01T00:00:00Z".

(** Another transaction merges customer [u2] into [u1] at step 3, and the worker
    deletes customer [u3] at step 12. *)
Definition others (n : nat) (d : Db) : Db :=
  if Nat.eqb n 3 then
    set_users (map (λ u, if String.eqb (us_id u) "u2"
      then mkUser "u2" "t" "a" (us_external_id u) None UMerged (Some "u1") None 0 else u) (users d)) d
  else if Nat.eqb n 12 then forget_customer "t" "a" "u3" 0 d else d.

Definition customer_row (id ext : string) : User := mkUser id "t" "a" (Some ext) None UActive None None 0.
Definition before : Db :=
  mkDb [customer_row "u1" "alice"; customer_row "u2" "bob"; customer_row "u3" "carol"]
    [mkCursor "t" "a" "u1" 1 5; mkCursor "t" "a" "u3" 1 5]
    [mkReceipt "t" "a" "e001" "u1" "seen" [] "x" 5 1 None; mkReceipt "t" "a" "e002" "u3" "seen" [] "x" 5 1 None] [].

Definition body : TrackBody :=
  mkTrackBody [ev "e001" "alice" "again"; ev "E002" "carol" "again"; ev "E00A" "bob" "first"; ev "e00a" "alice" "second";
    ev "e00b" "alice" "buy"] None.

Definition persist_ (others : nat → Db → Db) :=
  persistTrackReceipts others (λ n, "new-" +:+ pretty n) (λ n, 1000 + Z.of_nat n) (λ t, pretty t) String.leb "t" "a" "key"
    10 (λ _, None) body "req".

Lemma before_ok : receipts_ok before.
Proof.
  split; simpl.
  - repeat constructor; simpl; intuition discriminate.
  - repeat constructor; simpl; intuition discriminate.
  - repeat constructor; simpl; intuition discriminate.
  - intros r [<-|[<-|[]]]; eexists; [split; [by left|]|split; [by right; left|]]; (split; [done|]; simpl; lia).
  - intros c [<-|[<-|[]]]; simpl; lia.
  - repeat constructor. intros ?. discriminate.
  - by intros ? ? [].
  - intros. done.
Qed.

Lemma others_peaceful : peaceful others 0 before.
Proof.
  intros n d _ Hok. unfold others. destruct (Nat.eqb n 3).
  - destruct Hok. split; try done. cbn [users set_users]. rewrite map_map.
    erewrite map_ext; [done|]. intros u. simpl. destruct (String.eqb_spec (us_id u) "u2"); [by subst|done].
  - destruct (Nat.eqb n 12); [by apply forget_ok|done].
Qed.

(** The call finds [bob] active, loses the race against the merge, retries and
    files the event under [u1]; the receipt of [carol]'s event, which the retry
    saw, is deleted before it commits. *)
Lemma track_exactly_once_witness :
  ∃ s' seen base, persist_ others (before, 0%nat) = (Ok 2, s') ∧ receipts_ok (fst s') ∧
    map (λ r, (rc_insert_id r, rc_user r, rc_event_name r, rc_seq r)) (receipts (fst s')) =
      [("e001", "u1", "seen", 1); ("e00a", "u1", "first", 2); ("e00b", "u1", "buy", 3)] ∧
    answered others (λ t, pretty t) "t" "a" "key" body "req" (before, 0%nat) (fst s') 2 seen base ∧
    received "t" "a" "e002" seen = true ∧ received "t" "a" "e002" base = false.
Proof.
  set (run := persist_ others (before, 0%nat)).
  assert (run = (Ok 2, snd run)) as E by (vm_compute; reflexivity).
  destruct (track_exactly_once others (λ n, "new-" +:+ pretty n) (λ n, 1000 + Z.of_nat n) (λ t, pretty t) String.leb
    "t" "a" "key" 10 (λ _, None) body "req" (before, 0%nat) (Ok 2) (snd run) before_ok others_peaceful E)
    as (Hok&seen&base&Ha&Honce&_).
  exists (snd run), seen, base. split; [exact E|]. split; [exact Hok|]. split; [vm_compute; reflexivity|]. split; [exact Ha|].
  pose proof (Honce (ev "E002" "carol" "again") (or_intror (or_introl eq_refl))) as H2. cbv zeta in H2.
  change (to_lower (te_insert_id (ev "E002" "carol" "again"))) with "e002" in H2.
  assert (row_count (receipt_at "t" "a" "e002") (receipts (fst (snd run))) = 0) as E0 by (vm_compute; reflexivity).
  rewrite E0 in H2. destruct (received "t" "a" "e002" seen), (received "t" "a" "e002" base); discriminate || (split; reflexivity).
Defined.

Definition raw_key : string := "sk_abcdefghijklmnopqrstuvwx".
Definition auth_db : AuthDb.Db :=
  AuthDb.mkDb [] [] [] [] [] [mkKey "k1" "t" "a" AuthDb.Server Full "sk_" ("h" +:+ raw_key) KActive None None None] [] None.
Definition api : Api :=
  mkApi auth_db ∅ (mkServer (before, 0%nat) [] [] fresh).
Definition ingest_env : IngestEnv :=
  mkIngestEnv "req" "env" "trace" "now" "now" None (λ _ d, d) (λ _, None) (λ n, "new-" +:+ pretty n)
    (λ n, 1000 + Z.of_nat n) (λ t, pretty t) String.leb 10.
Definition delete_bob :=
  serve_ingest (mkValidators (λ _, true) (λ _, None)) ingest_env (AuthRun.Run.at_ "r" 0) (mkLimitEnv None None None)
    (λ _, "") (λ _, 0) 0 7 (Some ("Bearer " +:+ raw_key)) None (c_delete "bob") api.

(** A server key asks for the deletion of a user: one message of its tenant is
    published, one raw row handed over. *)
Lemma ingest_is_authenticated_witness :
  delete_bob.1 = Ok (mkAccepted None "req") ∧
  map (λ e, (ev_tenant_id e, ev_app_id e, pl_body (ev_payload e))) (sv_stream (api_server delete_bob.2))
    = [("t", "a", P_user_delete "bob")] ∧
  ∃ raw key due, resolve_key (AuthRun.Run.at_ "r" 0) raw (api_auth api) = Some (key, due) ∧ rk_scope key = Full.
Proof.
  split; [vm_compute; reflexivity|]. split; [vm_compute; reflexivity|].
  destruct (ingest_is_authenticated (mkValidators (λ _, true) (λ _, None)) ingest_env (AuthRun.Run.at_ "r" 0)
    (mkLimitEnv None None None) (λ _, "") (λ _, 0) 0 7 (Some ("Bearer " +:+ raw_key)) None (c_delete "bob") api
    delete_bob.1 delete_bob.2 (surjective_pairing _)) as [_ [(_&Hst&_)|(_&raw&key&due&Hres&_&Hscope&_)]].
  - exfalso. assert (sv_stream (api_server delete_bob.2) ≠ []) as Hne by (vm_compute; discriminate). by rewrite Hst in Hne.
  - exists raw, key, due. split; [exact Hres|]. by apply Hscope.
Defined.
End Run.
