(* ===== verification/ValidationPool.v ===== *)
(** * The validation pool
    ([apps/api/src/in-app/validate.ts], [validate-worker.ts])

    Uploaded bundles are validated in worker threads, at most two at a time, for
    at most fifteen seconds.  A validation is refused, or it waits for the first
    of four things: the worker's message, an error of the worker, its exit, the
    timer; whatever comes later is ignored.  The slot is given back in the
    [finally] of the request, which runs some time after that.

    The calls and what happens to the workers are a sequence of events, in any
    order; the worker's message for an input is [worker input], which [Bundle]
    computes ([Bundle.validate_worker]).  Creating the thread is taken to
    succeed. *)

From S2P Require Import Prelude.

#[global] Open Scope Z_scope.

(** [BundleError]: its code and message *)
Record BundleError := mkBundleError { be_code : string; be_message : string }.
Definition VALIDATION_BUSY : BundleError := mkBundleError "VALIDATION_BUSY" "Two uploads are being validated; retry shortly".
Definition VALIDATION_TIMEOUT : BundleError := mkBundleError "VALIDATION_TIMEOUT" "Validation exceeded 15 seconds".
Definition INVALID_BUNDLE (message : string) : BundleError := mkBundleError "INVALID_BUNDLE" message.

Section Pool.
Context {Input Artifact : Type}.
(** what the thread posts, [e.message] of a failure *)
Context (worker : Input → string + Artifact).
(** [s.slice(0, 300)] *)
Context (slice300 : string → string).

Definition Result : Type := BundleError + Artifact.

(** [settled] and the result, and whether the slot was given back *)
Record Task := mkTask { input : Input; settled : option Result; released : bool }.
(** the module's [active], and the validations it ran, in order *)
Record Pool := mkPool { active : Z; tasks : list Task }.
Definition idle : Pool := mkPool 0 [].

(** what the caller holds *)
Inductive Ticket := Refused (e : BundleError) | Running (i : nat).

(** [validateBundle(input)] up to its first suspension *)
Definition validateBundle (x : Input) (p : Pool) : Ticket * Pool :=
  if 2 <=? active p then (Refused VALIDATION_BUSY, p)
  else (Running (length (tasks p)), mkPool (active p + 1) (tasks p ++ [mkTask x None false])).

(** [done(error, value)] *)
Definition done_with (i : nat) (r : Input → Result) (p : Pool) : Pool :=
  match tasks p !! i with
  | Some (mkTask x None rel) => mkPool (active p) (<[i := mkTask x (Some (r x)) rel]> (tasks p))
  | _ => p
  end.

(** the four listeners *)
Definition on_message (i : nat) : Pool → Pool :=
  done_with i (λ x, match worker x with inr a => inr a | inl m => inl (INVALID_BUNDLE (slice300 m)) end).
Definition on_error (i : nat) : Pool → Pool := done_with i (λ _, inl (INVALID_BUNDLE "Validation worker failed")).
Definition on_exit (i : nat) : Pool → Pool := done_with i (λ _, inl (INVALID_BUNDLE "Validation worker stopped")).
Definition on_timeout (i : nat) : Pool → Pool := done_with i (λ _, inl VALIDATION_TIMEOUT).

(** [finally { active-- }], which runs once the promise has settled *)
Definition give_back (i : nat) (p : Pool) : Pool :=
  match tasks p !! i with
  | Some (mkTask x (Some r) false) => mkPool (active p - 1) (<[i := mkTask x (Some r) true]> (tasks p))
  | _ => p
  end.

Inductive Event := Call (x : Input) | Message (i : nat) | WorkerError (i : nat) | Exit (i : nat) | Timer (i : nat) | Finally (i : nat).
Definition step (p : Pool) (e : Event) : Pool :=
  match e with
  | Call x => (validateBundle x p).2
  | Message i => on_message i p
  | WorkerError i => on_error i p
  | Exit i => on_exit i p
  | Timer i => on_timeout i p
  | Finally i => give_back i p
  end.
Definition run (es : list Event) : Pool := fold_left step es idle.

(** the results a validation of [x] may have *)
Definition possible (x : Input) (r : Result) : Prop :=
  match worker x with inr a => r = inr a | inl m => r = inl (INVALID_BUNDLE (slice300 m)) end
  ∨ r = inl (INVALID_BUNDLE "Validation worker failed") ∨ r = inl (INVALID_BUNDLE "Validation worker stopped")
  ∨ r = inl VALIDATION_TIMEOUT.

(** ** The abstract pool

    Two slots, each free or held by the validation of an input; nothing else. *)

Definition open_task (t : Task) : bool := negb (released t).
(** the validations that hold a slot *)
Definition held (p : Pool) : nat := length (List.filter open_task (tasks p)).

Record sound (p : Pool) : Prop := {
  slots : active p = Z.of_nat (held p);
  at_most_two : (held p <= 2)%nat;
  results : ∀ t r, In t (tasks p) → settled t = Some r → possible (input t) r;
  answered_first : ∀ t, In t (tasks p) → released t = true → is_Some (settled t) }.

Lemma held_insert l i t t' : l !! i = Some t → open_task t' = open_task t →
  length (List.filter open_task (<[i := t']> l)) = length (List.filter open_task l).
Proof.
  revert i. induction l as [|x l IH]; intros [|i] Hi He; try done.
  - injection Hi as ->. simpl. rewrite He. by destruct (open_task t).
  - simpl. specialize (IH i Hi He). by destruct (open_task x); simpl; rewrite ?IH.
Qed.
Lemma held_release l i t t' : l !! i = Some t → open_task t = true → open_task t' = false →
  length (List.filter open_task l) = S (length (List.filter open_task (<[i := t']> l))).
Proof.
  revert i. induction l as [|x l IH]; intros [|i] Hi Ht Ht'; try done.
  - injection Hi as ->. simpl. by rewrite Ht, Ht'.
  - simpl. specialize (IH i Hi Ht Ht'). by destruct (open_task x); simpl; rewrite IH.
Qed.
Lemma in_insert (l : list Task) i t x : In x (<[i := t]> l) → x = t ∨ In x l.
Proof. rewrite <- !list_elem_of_In. intros Hx%list_elem_of_lookup_1. destruct Hx as [j Hj].
  apply list_lookup_insert_Some in Hj as [(_&<-&_)|[_ Hj]]; [by left|right; by eapply list_elem_of_lookup_2].
Qed.

Lemma done_sound i r p : (∀ x, possible x (r x)) → sound p → sound (done_with i r p).
Proof.
  intros Hr [Hs H2 Hres Ha]. unfold done_with. destruct (tasks p !! i) as [[x [y|] rel]|] eqn:E; try by split.
  assert (held (mkPool (active p) (<[i := mkTask x (Some (r x)) rel]> (tasks p))) = held p) as Hh by (by eapply held_insert).
  split; rewrite ?Hh; cbn [active tasks]; [done|done| |].
  - intros t y [->|Ht]%in_insert Hy; [injection Hy as <-; apply Hr|by eapply Hres].
  - intros t [->|Ht]%in_insert Hrel; [by eexists|by eapply Ha].
Qed.
Lemma step_sound e p : sound p → sound (step p e).
Proof.
  intros Hp. destruct e as [x|i|i|i|i|i]; cbn [step]; try (apply done_sound; [|done]; intros x; unfold possible; destruct (worker x); tauto).
  - destruct Hp as [Hs H2 Hres Ha]. unfold validateBundle. destruct (Z.leb_spec 2 (active p)); [by split|]. cbn [snd].
    assert (held (mkPool (active p + 1) (tasks p ++ [mkTask x None false])) = S (held p)) as Hh
      by (unfold held; cbn [tasks]; rewrite List.filter_app, length_app; simpl; lia).
    split; rewrite ?Hh; cbn [active tasks]; [lia|lia| |]; intros t.
    + intros r [Ht|[<-|[]]]%in_app_iff; [by apply Hres|done].
    + intros [Ht|[<-|[]]]%in_app_iff; [by apply Ha|done].
  - destruct Hp as [Hs H2 Hres Ha]. unfold give_back. destruct (tasks p !! i) as [[x [r|] []]|] eqn:E; try by split.
    pose proof (held_release _ i _ (mkTask x (Some r) true) E eq_refl eq_refl) as Hh. fold (held p) in Hh.
    assert (In (mkTask x (Some r) false) (tasks p)) as Hin by (apply list_elem_of_In; by eapply list_elem_of_lookup_2).
    split; unfold held in *; cbn [active tasks] in *; [lia|lia| |].
    + intros t y [->|Ht]%in_insert Hy; [injection Hy as <-; exact (Hres _ _ Hin eq_refl)|by eapply Hres].
    + intros t [->|Ht]%in_insert Hrel; [by eexists|by eapply Ha].
Qed.
Lemma run_sound es : sound (run es).
Proof.
  unfold run. assert (sound idle) as H0 by (split; [done|cbn; lia|by intros ? ? []|by intros ? []]). revert H0. generalize idle.
  induction es as [|e es IH]; intros p Hp; [done|]. by apply IH, step_sound.
Qed.

(** a result stays *)
Definition keeps (p p' : Pool) : Prop := ∀ i t, tasks p !! i = Some t → ∃ t', tasks p' !! i = Some t' ∧ input t' = input t
  ∧ (∀ r, settled t = Some r → settled t' = Some r) ∧ (released t = true → released t' = true).
Lemma keeps_refl p : keeps p p.
Proof. intros i t Ht. by exists t. Qed.
Lemma keeps_trans p q r : keeps p q → keeps q r → keeps p r.
Proof.
  intros Hpq Hqr i t Ht. destruct (Hpq i t Ht) as (u&Hu&Hi&Hs&Hl), (Hqr i u Hu) as (v&Hv&Hi'&Hs'&Hl').
  exists v. split; [done|]. split; [congruence|]. auto.
Qed.
Lemma keeps_insert a l i t t' : l !! i = Some t → input t' = input t → (∀ r, settled t = Some r → settled t' = Some r) →
  (released t = true → released t' = true) → ∀ p, tasks p = l → keeps p (mkPool a (<[i := t']> l)).
Proof.
  intros Hi Hin Hs Hr p <- j u Hu. cbn [tasks]. destruct (base.decide (j = i)) as [->|Hne].
  - rewrite Hi in Hu. injection Hu as <-. exists t'. split; [|done]. apply list_lookup_insert_eq. by eapply lookup_lt_Some.
  - exists u. by rewrite list_lookup_insert_ne.
Qed.
Lemma step_keeps p e : keeps p (step p e).
Proof.
  assert (∀ i r, keeps p (done_with i r p)) as Hd.
  { intros i r. unfold done_with. destruct (tasks p !! i) as [[x [y|] rel]|] eqn:E; [apply keeps_refl| |apply keeps_refl].
    by eapply keeps_insert. }
  destruct e as [x|i|i|i|i|i]; cbn [step]; try apply Hd.
  - unfold validateBundle. destruct (2 <=? active p); [apply keeps_refl|]. intros i t Ht. cbn [snd tasks]. exists t.
    split; [|done]. by apply lookup_app_l_Some.
  - unfold give_back. destruct (tasks p !! i) as [[x [r|] []]|] eqn:E; try apply keeps_refl. by eapply keeps_insert.
Qed.
Lemma run_keeps es es' : keeps (run es) (run (es ++ es')).
Proof.
  unfold run. rewrite fold_left_app. generalize (fold_left step es idle). induction es' as [|e es' IH]; intros p; [apply keeps_refl|].
  cbn [fold_left]. eapply keeps_trans; [apply step_keeps|apply IH].
Qed.

(** once the timer of a validation has fired it has a result, and after its [finally] the slot is free *)
Lemma timer_settles p i t : tasks p !! i = Some t → ∃ t', tasks (on_timeout i p) !! i = Some t' ∧ is_Some (settled t').
Proof.
  intros Hi. unfold on_timeout, done_with. rewrite Hi. destruct t as [x [r|] rel]; [by eexists; split; [exact Hi|]; cbn|].
  cbn [tasks]. eexists. split; [apply list_lookup_insert_eq; by eapply lookup_lt_Some|]. by eexists.
Qed.
Lemma give_back_frees p i t r : tasks p !! i = Some t → settled t = Some r →
  ∃ t', tasks (give_back i p) !! i = Some t' ∧ released t' = true.
Proof.
  intros Hi Hr. unfold give_back. rewrite Hi. destruct t as [x [y|] []]; try done; [by eexists|].
  cbn [tasks]. eexists. split; [apply list_lookup_insert_eq; by eapply lookup_lt_Some|done].
Qed.
Lemma all_free p : (∀ i t, tasks p !! i = Some t → released t = true) → held p = 0%nat.
Proof.
  intros Hall. unfold held. induction (tasks p) as [|t l IH]; [done|]. simpl.
  pose proof (Hall 0%nat t eq_refl) as Ht. unfold open_task at 1. rewrite Ht. simpl. apply IH. intros i u Hu. exact (Hall (S i) u Hu).
Qed.
End Pool.
Arguments Task : clear implicits.
Arguments Pool : clear implicits.

(** ** The property *)

(** C38. Whatever the order of uploads, messages, crashes, exits and timers: the
    counter is the number of validations that hold a slot, never more than two,
    and a call is refused exactly when there are two.  A validation has one result, which never
    changes: what the worker computes for its own input, a crash, or the time-out.
    When its timer has fired it has one, when its [finally] has run its slot is
    free, and when all have, the pool is as good as new. *)
Theorem validations_bounded {Input Artifact} (worker : Input → string + Artifact) slice300 es es' x i t :
  let p := run worker slice300 es in let p' := run worker slice300 (es ++ es') in
  active p = Z.of_nat (held p) ∧ (held p <= 2)%nat
  ∧ ((validateBundle x p).1 = Refused VALIDATION_BUSY ↔ held p = 2%nat)
  ∧ ((∀ j u, tasks p !! j = Some u → released u = true) → active p = 0)
  ∧ (tasks p !! i = Some t → ∃ t', tasks p' !! i = Some t' ∧ input t' = input t
       ∧ (∀ r, settled t = Some r → settled t' = Some r ∧ possible worker slice300 (input t) r)
       ∧ (In (Timer i) es' → is_Some (settled t'))
       ∧ (is_Some (settled t) → In (Finally i) es' → released t' = true)).
Proof.
  cbv zeta. pose proof (run_sound worker slice300 es) as [Hs H2 Hres Ha]. set (p := run worker slice300 es) in *.
  split; [done|]. split; [done|]. split; [|split].
  - unfold validateBundle. destruct (Z.leb_spec 2 (active p)); cbn [fst]; split; intros; try done; lia.
  - intros Hall. rewrite Hs, (all_free p Hall). done.
  - intros Hi. destruct (run_keeps worker slice300 es es' i t Hi) as (t'&Hi'&Hin&Hst&_). exists t'. split; [done|]. split; [done|].
    split; [|split].
    + intros r Hr. split; [by apply Hst|]. eapply Hres; [|done]. apply list_elem_of_In. by eapply list_elem_of_lookup_2.
    + intros (l1&l2&->)%in_split. destruct (run_keeps worker slice300 es l1 i t Hi) as (u&Hu&_).
      destruct (timer_settles _ i u Hu) as (v&Hv&[r Hr]).
      destruct (run_keeps worker slice300 (es ++ l1 ++ [Timer i]) l2 i v) as (w&Hw&_&Hset&_);
        [unfold run in *; by rewrite !fold_left_app in *|].
      rewrite <- !app_assoc in Hw. cbn [app] in Hw. rewrite Hi' in Hw. injection Hw as <-. exists r. by apply Hset.
    + intros [r Hr] (l1&l2&->)%in_split. destruct (run_keeps worker slice300 es l1 i t Hi) as (u&Hu&_&Hsu&_).
      destruct (give_back_frees _ i u r Hu (Hsu r Hr)) as (v&Hv&Hrel).
      destruct (run_keeps worker slice300 (es ++ l1 ++ [Finally i]) l2 i v) as (w&Hw&_&_&Hw');
        [unfold run in *; by rewrite !fold_left_app in *|].
      rewrite <- !app_assoc in Hw. cbn [app] in Hw. rewrite Hi' in Hw. injection Hw as <-. by apply Hw'.
Qed.

(** Three uploads at once: the third is refused; the second hangs. *)
Module PoolDemo.
Definition worker (n : nat) : string + nat := if Nat.eqb n 0 then inl "empty" else inr (n * n)%nat.
Definition calls : list (Event (Input := nat)) := [Call 3%nat; Call 4%nat; Call 5%nat; Message 0].
Definition later : list (Event (Input := nat)) := [Exit 0; Finally 0; Timer 1; Message 1; Finally 1].
Lemma validations_bounded_witness :
  tasks (run worker (λ s, s) (calls ++ later))
    = [mkTask 3%nat (Some (inr 9%nat)) true; mkTask 4%nat (Some (inl VALIDATION_TIMEOUT)) true]
  ∧ (validateBundle 6%nat (run worker (λ s, s) calls)).1 = Refused VALIDATION_BUSY
  ∧ ∃ t', tasks (run worker (λ s, s) (calls ++ later)) !! 0%nat = Some t' ∧ settled t' = Some (inr 9%nat).
Proof.
  split; [reflexivity|]. destruct (validations_bounded worker (λ s, s) calls later 6%nat 0%nat (mkTask 3%nat (Some (inr 9%nat)) false))
    as (_&_&Hbusy&_&Ht).
  split; [by apply Hbusy|]. destruct (Ht eq_refl) as (t'&Hi&_&Hs&_). exists t'. split; [exact Hi|]. exact (proj1 (Hs _ eq_refl)).
Defined.
End PoolDemo.
