(* ===== verification/InAppHttp.v ===== *)
(** * The HTTP surface of in-app messages

    [in-app/workbench.controller.ts], [in-app/campaign.controller.ts] (the
    console's requests, behind the session and permission guards) and
    [in-app/delivery.controller.ts], [in-app/sdk.controller.ts] (the requests of
    apps, behind the API key and rate limit guards).

    A body is taken as its schema left it ([None] where it fails).  The listings
    that only select columns (revisions, run events, campaigns, reviews, the
    report) are left out. *)

From Stdlib Require Import Ascii QArith.
From stdpp Require Import sorting.
From S2P Require Import Prelude JsVal Crypto Authz AuthDb Team Bootstrap RateLimit InAppDb InAppCampaigns InAppDelivery Workbench Preview.

#[global] Open Scope Z_scope.

(** ** What a console request works on *)

Record Site := mkSite { st_db : InAppDb.Db; st_audit : list AuditLog }.

Definition on_db {A} (m : DB A) : M Site A := λ s,
  let '(r, db) := m (st_db s) in (r, mkSite db (st_audit s)).

(** the method (read or write), the [Origin] header, the address, and whether
    an insertion into the audit log fails *)
Record ConsoleRequest := mkConsoleRequest {
  cq_get : bool; cq_origin : option string; cq_ip : option string; cq_audit_fails : bool }.

Inductive ConsoleReply :=
| StatusIs (enabled campaigns_enabled : bool) (content_origin : string)
| RevisionId (id : string)
| RevisionIs (a : Artifact)
| PreviewAt (url : string) (expires_at : Z)
| DevicesAre (l : list TestDevice)
| PairingToken (token : string)
| RunsAre (l : list (TestRun * TestDevice * string))
| RunIs (r : TestRun)
| CampaignIs (c : Campaign)
| Done.

Section Console.
Context `{PreviewKey}.
Context (env : InAppDb.Env) (hash : string → string) (fmt : Q → string) (is_uuid : string → bool).
Context (validateBundle : Source → string + Artifact) (corsOrigin : string).
Context (member : SessionMember) (req : ConsoleRequest) (app : string).

(** [@RequirePermission], then [ParseUUIDPipe] on the path's ids *)
Definition guarded (perm : Permission) (ids : list string) : M Site unit :=
  _ ← PermissionGuard (Some perm) (Some (sm_role member));
  throw_if (negb (forallb is_uuid ids)) (BadRequestException "Validation failed (uuid is expected)").

(** [private scope(app, req)] *)
Definition foreign_origin : bool :=
  negb (cq_get req) && match cq_origin req with
                       | Some o => negb (String.eqb o "") && negb (String.eqb o corsOrigin)
                       | None => false end.
Definition request_scope : M Site string :=
  _ ← throw_if foreign_origin (ForbiddenException "Origin not allowed");
  _ ← on_db (app_of env (sm_tenantId member) app);
  mret (sm_tenantId member).

(** [private record(req, action, id)] of the two controllers *)
Definition record_as (action targetType id : string) : M Site unit :=
  modify (λ s, mkSite (st_db s) (append_audit (cq_audit_fails req)
    (mkAudit (sm_tenantId member) (Some (sm_memberId member)) (Some (sm_email member)) ("in_app." +:+ action)
       (Some targetType) (Some id) (JObj []) (cq_ip req)) (st_audit s))).

(** *** [InAppWorkbenchController] *)

Definition get_status : M Site ConsoleReply :=
  _ ← guarded journeys_read [];
  mret (StatusIs (IN_APP_ENABLED env) (IN_APP_CAMPAIGNS_ENABLED env) (CONTENT_PUBLIC_ORIGIN env)).

Definition create_revision (body : option Source) : M Site ConsoleReply :=
  _ ← guarded journeys_write [app];
  tenant ← request_scope;
  id ← on_db (create env validateBundle tenant app body);
  _ ← record_as "revision.create" "in_app" id;
  mret (RevisionId id).

Definition get_revision (id : string) : M Site ConsoleReply :=
  _ ← guarded journeys_read [app; id];
  tenant ← request_scope;
  a ← on_db (read hash tenant app id);
  mret (RevisionIs a).

Definition preview_revision (id : string) : M Site ConsoleReply :=
  _ ← guarded journeys_read [app; id];
  tenant ← request_scope;
  _ ← on_db (read hash tenant app id);
  '(url, exp) ← on_db (preview env fmt tenant app id);
  mret (PreviewAt url exp).

(** [ORDER BY created_at DESC] *)
Definition newer (a b : TestDevice) : Prop := t_created_at b <= t_created_at a.
#[global] Instance newer_dec a b : Decision (newer a b).
Proof. unfold newer. apply _. Defined.
(** [devices] of the service *)
Definition devices_of (tenant : string) : DB (list TestDevice) :=
  _ ← app_of env tenant app;
  db ← get;
  mret (take 50 (merge_sort newer (select (λ d, scope tenant app (t_tenant d) (t_app d) && (pg_now env <? t_expires_at d)
    && negb (bool_decide (t_state d = InAppDb.Revoked))) (test_devices db)))).
Definition get_devices : M Site ConsoleReply :=
  _ ← guarded journeys_read [app];
  tenant ← request_scope;
  l ← on_db (devices_of tenant);
  mret (DevicesAre l).

Definition pair_device : M Site ConsoleReply :=
  _ ← guarded journeys_write [app];
  tenant ← request_scope;
  token ← on_db (pairing env hash tenant app);
  _ ← record_as "pairing.create" "in_app" (uuid env);
  mret (PairingToken token).

Definition confirm_device (id : string) : M Site ConsoleReply :=
  _ ← guarded journeys_write [app; id];
  tenant ← request_scope;
  _ ← on_db (confirm env tenant app id);
  _ ← record_as "device.confirm" "in_app" id;
  mret Done.

Definition revoke_device (id : string) : M Site ConsoleReply :=
  _ ← guarded journeys_write [app; id];
  tenant ← request_scope;
  _ ← on_db (Workbench.revoke tenant app id);
  _ ← record_as "device.revoke" "in_app" id;
  mret Done.

Definition later_run (a b : TestRun * TestDevice * string) : Prop := n_created_at b.1.1 <= n_created_at a.1.1.
#[global] Instance later_run_dec a b : Decision (later_run a b).
Proof. unfold later_run. apply _. Defined.
(** [runs] of the service: a run with its device and the name of its revision *)
Definition joined (db : InAppDb.Db) (r : TestRun) : list (TestRun * TestDevice * string) :=
  d ← select (λ d, device_at (n_tenant r) (n_app r) (n_device_id r) d) (test_devices db);
  v ← select (λ v, scope (n_tenant r) (n_app r) (r_tenant v) (r_app v) && String.eqb (r_id v) (n_revision_id r)) (revisions db);
  [(r, d, r_name v)].
Definition runs_of (tenant : string) : DB (list (TestRun * TestDevice * string)) :=
  _ ← app_of env tenant app;
  _ ← expire env tenant app;
  db ← get;
  mret (take 50 (merge_sort later_run
    (r ← select (λ r, scope tenant app (n_tenant r) (n_app r)) (test_runs db); joined db r))).
Definition get_runs : M Site ConsoleReply :=
  _ ← guarded journeys_read [app];
  tenant ← request_scope;
  l ← on_db (runs_of tenant);
  mret (RunsAre l).

(** [meanwhile] as in [Workbench.run] *)
Definition start_run (meanwhile : InAppDb.Db → InAppDb.Db) (body : option RunInput) : M Site ConsoleReply :=
  _ ← guarded journeys_write [app];
  tenant ← request_scope;
  r ← on_db (Workbench.run env meanwhile tenant app body);
  _ ← record_as "test.create" "in_app" (n_id r);
  mret (RunIs r).

Definition cancel_run (id : string) : M Site ConsoleReply :=
  _ ← guarded journeys_write [app; id];
  tenant ← request_scope;
  _ ← on_db (cancel tenant app id);
  mret Done.

(** *** [InAppCampaignController] *)

Definition create_campaign (body : option (CampaignInput * Z)) : M Site ConsoleReply :=
  _ ← guarded journeys_write [app];
  tenant ← request_scope;
  c ← on_db (save env hash tenant app body None);
  _ ← record_as "campaign.create" "in_app_campaign" (c_id c);
  mret (CampaignIs c).

Definition save_campaign (id : string) (body : option (CampaignInput * Z)) : M Site ConsoleReply :=
  _ ← guarded journeys_write [app; id];
  tenant ← request_scope;
  c ← on_db (save env hash tenant app body (Some id));
  _ ← record_as "campaign.update" "in_app_campaign" id;
  mret (CampaignIs c).

(** [publish] and [pause] *)
Definition move_campaign (publish : bool) (id : string) (body : option Z) : M Site ConsoleReply :=
  _ ← guarded in_app_publish [app; id];
  tenant ← request_scope;
  c ← on_db (transition env hash tenant app id (sm_memberId member) body publish);
  _ ← record_as (if publish then "campaign.publish" else "campaign.pause") "in_app_campaign" id;
  mret (CampaignIs c).

Definition review_revision (body : option ReviewInput) : M Site ConsoleReply :=
  _ ← guarded in_app_publish [app];
  tenant ← request_scope;
  _ ← on_db (review env tenant app (sm_memberId member) body);
  _ ← record_as "revision.review" "in_app_campaign" app;
  mret Done.

Inductive ConsoleCall :=
| GetStatus | CreateRevision (body : option Source) | GetRevision (id : string) | PreviewRevision (id : string)
| GetDevices | PairDevice | ConfirmDevice (id : string) | RevokeDevice (id : string) | GetRuns
| StartRun (meanwhile : InAppDb.Db → InAppDb.Db) (body : option RunInput) | CancelRun (id : string)
| CreateCampaign (body : option (CampaignInput * Z)) | SaveCampaign (id : string) (body : option (CampaignInput * Z))
| MoveCampaign (publish : bool) (id : string) (body : option Z) | ReviewRevision (body : option ReviewInput).

Definition console (c : ConsoleCall) : M Site ConsoleReply :=
  match c with
  | GetStatus => get_status
  | CreateRevision b => create_revision b
  | GetRevision id => get_revision id
  | PreviewRevision id => preview_revision id
  | GetDevices => get_devices
  | PairDevice => pair_device
  | ConfirmDevice id => confirm_device id
  | RevokeDevice id => revoke_device id
  | GetRuns => get_runs
  | StartRun mw b => start_run mw b
  | CancelRun id => cancel_run id
  | CreateCampaign b => create_campaign b
  | SaveCampaign id b => save_campaign id b
  | MoveCampaign p id b => move_campaign p id b
  | ReviewRevision b => review_revision b
  end.
End Console.

(** ** The requests of apps *)

Inductive SdkCall :=
| TestPair (body : option PairInput) | TestCommands (token : option string)
| TestClaim (token : option string) (id : string) | TestEvent (token : option string) (id : string) (body : option RunEvent)
| TestEnd (token : option string)
| LiveRegister (body : option Platform) | LiveDecide (installation capabilities : option string) (body : option DecisionInput)
| LiveAuthorize (installation : option string) (id : string) | LiveStatus (installation : option string) (id : string)
| LiveEvent (installation : option string) (id : string) (body : option EventInput)
| LiveRevoke (installation : option string).

Inductive SdkReply :=
| PairCredential (c : string) | Command (st : DeviceState) (r : option TestRun) | ClaimedArtifact (a : Artifact)
| Registered (id token : string) | Decision (d : option DeliveryPayload) | AuthorizedUntil (t : Z)
| StatusOf (reason : option StatusReason) (showing : bool) | Ack.

Section Sdk.
Context (env : InAppDb.Env) (hash : string → string) (is_uuid : string → bool).
Context (start_of_day next_day : string → Z → Z).

(** ["campaign-time-zone"] among the capabilities of the header *)
Definition supports_time_zone (capabilities : option string) : bool :=
  existsb (λ v, String.eqb (js_trim v) "campaign-time-zone") (split_on "," (default "" capabilities)).

(** [ParseUUIDPipe] on the path's id *)
Definition path_id (id : string) : DB unit :=
  throw_if (negb (is_uuid id)) (BadRequestException "Validation failed (uuid is expected)").

Definition sdk (tenant app : string) (c : SdkCall) : DB SdkReply :=
  let live o := InAppDelivery.auth env hash is_uuid tenant app (default "" o) in
  match c with
  | TestPair b => x ← pair env hash is_uuid tenant app b; mret (PairCredential x)
  | TestCommands t => '(st, r) ← commands env hash tenant app t; mret (Command st r)
  | TestClaim t id => _ ← path_id id; a ← claim env hash tenant app t id; mret (ClaimedArtifact a)
  | TestEvent t id b => _ ← path_id id; _ ← Workbench.event env hash tenant app t id b; mret Ack
  | TestEnd t => _ ← end_session env hash tenant app t; mret Ack
  | LiveRegister b => '(id, token) ← register env hash tenant app b; mret (Registered id token)
  | LiveDecide o caps b =>
      i ← live o;
      d ← decide env hash start_of_day i b (supports_time_zone caps);
      mret (Decision d)
  | LiveAuthorize o id => _ ← path_id id; i ← live o; t ← authorize env i id; mret (AuthorizedUntil t)
  | LiveStatus o id => _ ← path_id id; i ← live o; '(r, shown) ← status env i id; mret (StatusOf r shown)
  | LiveEvent o id b => _ ← path_id id; i ← live o; _ ← InAppDelivery.event env next_day i id b; mret Ack
  | LiveRevoke o => i ← live o; _ ← InAppDelivery.revoke i; mret Ack
  end.
End Sdk.

(** ** Admission of an app's request *)

(** What a request touches: the accounts, the buckets of the rate limit, the in-app tables *)
Record SdkApi := mkSdkApi { sa_auth : AuthDb.Db; sa_redis : Redis; sa_db : InAppDb.Db }.

(** [ApiKeyGuard] with [@RequireApiKey("sdk")], [RateLimitGuard], the handler *)
Definition serve_sdk `{Host, Crypto} (authEnv : AuthDb.Env) (limitEnv : LimitEnv) (text : jsval → string)
    (redis_ms : nat → Z) (now : Z) (env : InAppDb.Env) (hash : string → string) (is_uuid : string → bool)
    (start_of_day next_day : string → Z → Z) (authorization x_api_key : option string) (body : jsval) (c : SdkCall)
    (a : SdkApi) : outcome SdkReply * SdkApi :=
  match ApiKeyGuard authEnv [Sdk] None authorization x_api_key (sa_auth a) with
  | (Throw e, auth') => (Throw e, mkSdkApi auth' (sa_redis a) (sa_db a))
  | (Ok resolved, auth') =>
      let '(limited, _, redis') :=
        RateLimitGuard text limitEnv redis_ms now (fst <$> resolved) body (sa_redis a) in
      match limited, resolved with
      | Throw e, _ => (Throw e, mkSdkApi auth' redis' (sa_db a))
      | Ok _, Some (key, _) =>
          let '(r, db') := sdk env hash is_uuid start_of_day next_day (rk_tenantId key) (rk_appId key) c (sa_db a) in
          (r, mkSdkApi auth' redis' db')
      | Ok _, None => (Throw (PlainError "no key"), mkSdkApi auth' redis' (sa_db a))
      end
  end.
