(* ===== verification/InAppHttpProps.v ===== *)
(** * The HTTP surface of in-app messages: who can do what

    A console request is served for a member whose role has the route's
    permission, from the console's origin, on an app of the member's tenant; an
    app's request for a live SDK key.  Either way it works inside that one app. *)

From Stdlib Require Import Ascii QArith.
From S2P Require Import Prelude JsVal Crypto Authz AuthDb Team Bootstrap RateLimit InAppDb InAppCampaigns InAppDelivery InAppInv Workbench Preview InAppScope InAppHttp IngestProps.

#[global] Open Scope Z_scope.

Section Console.
Context `{PreviewKey} (env : InAppDb.Env) (hash : string → string) (fmt : Q → string) (is_uuid : string → bool).
Context (validateBundle : Source → string + Artifact) (corsOrigin : string).
Context (member : SessionMember) (req : ConsoleRequest) (app : string).
Abbreviation tenant := (sm_tenantId member).

(** ** What the routes ask for *)

Definition permission_of (c : ConsoleCall) : Permission :=
  match c with
  | GetStatus | GetRevision _ | PreviewRevision _ | GetDevices | GetRuns => journeys_read
  | MoveCampaign _ _ _ | ReviewRevision _ => in_app_publish
  | _ => journeys_write
  end.
(** the routes that record themselves: those that change something, but for the
    cancellation of a test run *)
Definition audited (c : ConsoleCall) : nat :=
  match c with
  | GetStatus | GetRevision _ | PreviewRevision _ | GetDevices | GetRuns | CancelRun _ => 0
  | _ => 1
  end.
(** the entries [n] records leave: none when the log cannot be written *)
Definition recorded (n : nat) : nat := if cq_audit_fails req then 0 else n.
Definition authorised (c : ConsoleCall) (db : InAppDb.Db) : Prop :=
  can (sm_role member) (permission_of c) = true
  ∧ (c = GetStatus
     ∨ foreign_origin corsOrigin req = false ∧ IN_APP_ENABLED env = true ∧ In (tenant, app) (apps db)).
Definition by_member (e : AuditLog) : Prop :=
  al_tenant e = tenant ∧ al_actor e = Some (sm_memberId member) ∧ al_ip e = cq_ip req.

(** ** Programs over the site *)

(** [m] works inside the app and, when it succeeds, records [n] actions. *)
Definition inside (n : nat) {A} (m : M Site A) : Prop := ∀ s,
  stays tenant app (st_db s) (st_db (m s).2)
  ∧ ∃ l, st_audit (m s).2 = st_audit s ++ l ∧ Forall by_member l ∧ match (m s).1 with Ok _ => length l = recorded n | Throw _ => l = [] end.

Lemma inside_ret {A} (x : A) : inside 0 (mret x).
Proof. intros s. split; [done|]. exists []. rewrite app_nil_r. unfold recorded. by destruct (cq_audit_fails req). Qed.
Lemma inside_record action type id {A} (x : A) :
  inside 1 (_ ← record_as member req action type id; mret x).
Proof.
  intros s. split; [done|]. unfold recorded, record_as, mbind, M_bind, modify, mret, M_ret. cbn.
  unfold append_audit. destruct (cq_audit_fails req).
  - exists []. by rewrite app_nil_r.
  - eexists. split; [reflexivity|]. split; [|done]. by repeat constructor.
Qed.
Lemma inside_on_db {A B} n (m : DB A) (f : A → M Site B) :
  within (stays tenant app) m → (∀ x, inside n (f x)) → inside n (x ← on_db m; f x).
Proof.
  intros Hm Hf s. specialize (Hm (st_db s)). unfold mbind, M_bind, on_db.
  destruct (m (st_db s)) as [[x|e] db]; cbn [snd] in Hm.
  - destruct (Hf x (mkSite db (st_audit s))) as (Hs&l&Hl&Hb&Hn). cbn [st_db st_audit] in *. split; [by etrans|]. eauto.
  - split; [exact Hm|]. exists []. by rewrite app_nil_r.
Qed.

Lemma guarded_ok perm ids s u s' :
  guarded is_uuid member perm ids s = (Ok u, s') → s' = s ∧ can (sm_role member) perm = true.
Proof.
  unfold guarded. intros E. apply bind_ok in E as (u1&s1&[Hc ->]%PermissionGuard_ok&E). by apply throw_if_ok in E as [_ ->].
Qed.
Lemma guarded_readonly perm ids : readonly (guarded is_uuid member perm ids).
Proof. unfold guarded. apply readonly_bind; [apply PermissionGuard_readonly|auto with nudgeon]. Qed.
Lemma request_scope_readonly : readonly (request_scope env corsOrigin member req app).
Proof.
  unfold request_scope. apply readonly_bind; [auto with nudgeon|intros]. apply readonly_bind; [|auto with nudgeon].
  intros s. unfold on_db. pose proof (readonly_app_of env tenant app (st_db s)) as Hr.
  destruct (app_of env tenant app (st_db s)) as [r db]. simpl in *. subst. by destruct s.
Qed.
Lemma request_scope_ok s tn s' :
  request_scope env corsOrigin member req app s = (Ok tn, s') →
  s' = s ∧ tn = tenant ∧ foreign_origin corsOrigin req = false ∧ IN_APP_ENABLED env = true ∧ In (tenant, app) (apps (st_db s)).
Proof.
  intros E. pose proof (request_scope_readonly s) as Hr. rewrite E in Hr. simpl in Hr. subst s'. split; [done|].
  unfold request_scope in E. apply bind_ok in E as (u&s1&[Hf ->]%throw_if_ok&E). apply bind_ok in E as (u1&s2&Ea&E).
  injection E as <- _. split; [done|]. split; [done|]. unfold on_db in Ea.
  destruct (app_of env tenant app (st_db s)) as [[v|e] db] eqn:E1; [|done]. unfold app_of in E1.
  apply bind_ok in E1 as (w&d&He&E1). unfold requireEnabled in He. apply throw_if_ok in He as [He ->].
  apply bind_ok in E1 as (d1&d2&[= <- <-]&E1). apply throw_if_ok in E1 as [E1 _].
  apply orb_false_iff in He as [He _]. split; [by apply negb_false_iff|].
  apply negb_false_iff, existsb_exists in E1 as ([t a]&Hin&Hs). apply scope_true in Hs as [-> ->]. done.
Qed.

(** ** The handlers *)

(** What a console request may do *)
Definition serves (c : ConsoleCall) (m : M Site ConsoleReply) : Prop := ∀ s,
  ((m s).2 = s ∧ (∀ r, (m s).1 ≠ Ok r))
  ∨ authorised c (st_db s) ∧ stays tenant app (st_db s) (st_db (m s).2)
    ∧ ∃ l, st_audit (m s).2 = st_audit s ++ l ∧ Forall by_member l
        ∧ match (m s).1 with Ok _ => length l = recorded (audited c) | Throw _ => l = [] end.

Lemma scoped_serves c ids (f : string → M Site ConsoleReply) :
  inside (audited c) (f tenant) →
  serves c (_ ← guarded is_uuid member (permission_of c) ids; tn ← request_scope env corsOrigin member req app; f tn).
Proof.
  intros Hf s. rewrite readonly_bind_state by apply guarded_readonly.
  destruct (guarded _ _ _ _ s) as [[u|e] s1] eqn:Eg; [|by left]. apply guarded_ok in Eg as [_ Hcan].
  rewrite readonly_bind_state by apply request_scope_readonly.
  destruct (request_scope _ _ _ _ _ s) as [[tn|e] s2] eqn:Es; [|by left].
  apply request_scope_ok in Es as (_&->&Ho&He&Hin). right. split; [by repeat split; auto|]. apply Hf.
Qed.

Lemma within_readonly_stays {A} (m : DB A) : readonly m → within (stays tenant app) m.
Proof. apply within_readonly. apply _. Qed.
Lemma readonly_preview tn id : readonly (preview env fmt tn app id).
Proof.
  unfold preview. apply readonly_bind; [apply readonly_requireEnabled|intros].
  apply readonly_bind; [destruct preview_key; auto with nudgeon|auto with nudgeon].
Qed.

Ltac handler := apply scoped_serves; apply inside_on_db; [|intros; first [apply inside_record|apply inside_ret]].

Lemma console_serves c :
  (∀ mw b, c = StartRun mw b → ∀ db, stays tenant app db (mw db)) →
  serves c (console env hash fmt is_uuid validateBundle corsOrigin member req app c).
Proof.
  intros Hmw. destruct c; cbn [console].
  - intros s. unfold get_status. rewrite readonly_bind_state by apply guarded_readonly.
    destruct (guarded _ _ _ _ s) as [[u|e] s1] eqn:Eg; [|by left]. apply guarded_ok in Eg as [_ Hcan].
    right. split; [by split; [|left]|]. apply (inside_ret (StatusIs _ _ _) s).
  - handler. apply stay_create.
  - handler. apply within_readonly_stays, readonly_read.
  - apply scoped_serves. apply inside_on_db; [apply within_readonly_stays, readonly_read|intros].
    apply inside_on_db; [apply within_readonly_stays, readonly_preview|intros []; apply inside_ret].
  - handler. apply within_readonly_stays. unfold devices_of. apply readonly_bind; [apply readonly_app_of|auto with nudgeon].
  - handler. apply stay_pairing.
  - handler. apply stay_confirm.
  - handler. apply stay_revoke_device.
  - handler. unfold runs_of. apply within_bind; [apply _|apply within_readonly_stays, readonly_app_of|intros].
    apply within_bind; [apply _|apply stay_expire|intros]. apply within_readonly_stays. auto with nudgeon.
  - handler. apply stay_run. by eapply Hmw.
  - handler. apply stay_cancel.
  - handler. apply stay_save.
  - handler. apply stay_save.
  - handler. apply stay_transition.
  - handler. apply stay_review.
Qed.
End Console.

(** ** The requests of apps *)

Section Sdk.
Context (env : InAppDb.Env) (hash : string → string) (is_uuid : string → bool) (start_of_day next_day : string → Z → Z).

Lemma stay_reply {A} t a (m : DB A) (f : A → SdkReply) : within (stays t a) m → within (stays t a) (x ← m; mret (f x)).
Proof. intros Hm. apply within_bind; [apply _|exact Hm|intros; within_tac]. Qed.
Lemma stay_path {A} t a id (m : DB A) : within (stays t a) m → within (stays t a) (_ ← path_id is_uuid id; m).
Proof. intros Hm. apply within_bind; [apply _|unfold path_id; within_tac|intros; exact Hm]. Qed.
Lemma sdk_stays t a c : within (stays t a) (sdk env hash is_uuid start_of_day next_day t a c).
Proof.
  destruct c; cbn [sdk].
  - apply stay_reply, stay_pair.
  - apply within_bind; [apply _|apply stay_commands|intros []; within_tac].
  - apply stay_path, stay_reply, stay_claim.
  - apply stay_path, within_bind; [apply _|apply stay_test_event|intros; within_tac].
  - apply within_bind; [apply _|apply stay_end_session|intros; within_tac].
  - apply within_bind; [apply _|apply stay_register|intros []; within_tac].
  - apply stay_live. intros i Ht Ha. by apply stay_reply, stay_decide.
  - apply stay_path, stay_live. intros i Ht Ha. by apply stay_reply, stay_authorize.
  - apply stay_path, stay_live. intros i Ht Ha. apply within_bind; [apply _|apply stay_status|intros []; within_tac].
  - apply stay_path, stay_live. intros i Ht Ha. apply within_bind; [apply _|by apply stay_event|intros; within_tac].
  - apply stay_live. intros i Ht Ha. apply within_bind; [apply _|by apply stay_revoke|intros; within_tac].
Qed.

(** What an app's request may do *)
Definition serves_sdk (authEnv : AuthDb.Env) `{Crypto} (a : SdkApi) (r : outcome SdkReply) (a' : SdkApi) : Prop :=
  sa_auth a' = sa_auth a
  ∧ (sa_db a' = sa_db a ∧ (∀ x, r ≠ Ok x)
     ∨ ∃ raw key due, resolve_key authEnv raw (sa_auth a) = Some (key, due) ∧ rk_kind key = Sdk
         ∧ stays (rk_tenantId key) (rk_appId key) (sa_db a) (sa_db a')).

Lemma serve_sdk_serves `{Host, Crypto} authEnv limitEnv text redis_ms now authorization x_api_key body c a r a' :
  serve_sdk authEnv limitEnv text redis_ms now env hash is_uuid start_of_day next_day authorization x_api_key body c a = (r, a') →
  serves_sdk authEnv a r a'.
Proof.
  unfold serve_sdk. intros E. destruct (ApiKeyGuard _ _ _ _ _ _) as [rk auth'] eqn:Eg.
  apply key_guard_inv in Eg as [-> Hkey]; [|done].
  destruct rk as [o|e]; [|injection E as <- <-; by split; [|left]].
  destruct (Hkey o eq_refl) as (raw&key&due&->&Hres&Hkind&_).
  destruct (RateLimitGuard _ _ _ _ _ _ _) as [[lim h] redis'].
  destruct lim as [b|e]; [|injection E as <- <-; by split; [|left]].
  pose proof (sdk_stays (rk_tenantId key) (rk_appId key) c (sa_db a)) as Hs.
  destruct (sdk _ _ _ _ _ _ _ _ (sa_db a)) as [rd db']. injection E as <- <-. split; [done|]. right.
  exists raw, key, due. split; [done|]. split; [by destruct Hkind as [|[]]|]. exact Hs.
Qed.
End Sdk.

(** ** The property *)

(** C16. In-app messages of an app are in the hands of that app alone.  A request
    of the console changes nothing and answers with an error, or it comes from a
    member whose role has the permission of the route, not from a foreign page, and
    names an app of the member's tenant; then every row outside that app is as it
    was, and a successful change, other than the cancellation of a test run, is
    recorded once under the member, unless the insertion into the audit log fails,
    which is swallowed; nothing else is recorded.  A request of an app
    changes nothing of the in-app tables and fails, or it carries a live SDK key,
    and every row outside the key's app is as it was. *)
Theorem in_app_isolation `{Host, Crypto, PreviewKey} env hash fmt is_uuid validateBundle corsOrigin start_of_day next_day :
  (∀ member req app c,
     (∀ mw b, c = StartRun mw b → ∀ db, stays (sm_tenantId member) app db (mw db)) →
     serves env corsOrigin member req app c (console env hash fmt is_uuid validateBundle corsOrigin member req app c))
  ∧ ∀ authEnv limitEnv text redis_ms now authorization x_api_key body c a r a',
      serve_sdk authEnv limitEnv text redis_ms now env hash is_uuid start_of_day next_day authorization x_api_key body c a = (r, a') →
      serves_sdk authEnv a r a'.
Proof. split; [intros; by apply console_serves|intros; by eapply serve_sdk_serves]. Qed.

(** ** An editor pairs a device *)

Module HttpDemo.
#[local] Instance toy_host : Host := {|
  toUpperCase := to_upper; toLowerCase := to_lower; pg_lower := to_lower; zod_email _ := true; known_time_zone _ := true |}.
#[local] Instance toy_crypto : Crypto := {
  gcm_seal _ _ p := (p, replicate 16 0); gcm_open _ _ body _ := Some body; hmac_sha1 _ _ := replicate 20 0;
  sha256_hex s := s; argon2_hash _ p := p; argon2_verify h p := String.eqb h p }.
#[local] Instance toy_key : PreviewKey := {| hmac_sha256 _ m := m; preview_master := Ok [7] |}.
Definition env : InAppDb.Env := InAppDb.mkEnv (λ _, 1000) 1000000 "d1" "secret" true true "https://c".
Definition editor : SessionMember := mkSessionMember "m" "t1" "e@x" "E" "editor" false false.
Definition request : ConsoleRequest := mkConsoleRequest false (Some "https://console") None false.
Definition foreign : TestDevice :=
  mkDevice "d0" "t2" "a2" "h" None Waiting None None None 2000000 None 1000000.
Definition site : Site := mkSite (InAppDb.mkDb [("t1", "a1"); ("t2", "a2")] [] [] [] [] [] [] [] [] [] [foreign] [] []) [].
Definition paired : outcome ConsoleReply * Site :=
  console env (λ s, s) (λ _, "0") (λ _, true) (λ _, inl "X") "https://console" editor request "a1" PairDevice site.

Lemma in_app_isolation_witness :
  paired.1 = Ok (PairingToken "d1.secret") ∧ length (test_devices (st_db paired.2)) = 2%nat
  ∧ stays "t1" "a1" (st_db site) (st_db paired.2)
  ∧ ∃ e, st_audit paired.2 = [e] ∧ al_actor e = Some "m".
Proof.
  split; [vm_compute; reflexivity|]. split; [vm_compute; reflexivity|].
  destruct (proj1 (in_app_isolation env (λ s, s) (λ _, "0") (λ _, true) (λ _, inl "X") "https://console" (λ _ t, t) (λ _ t, t))
    editor request "a1" PairDevice ltac:(discriminate) site) as [[_ Hno]|(_&Hs&l&Hl&Hb&Hn)].
  - exfalso. apply (Hno (PairingToken "d1.secret")). vm_compute. reflexivity.
  - split; [exact Hs|]. change (length l = 1%nat) in Hn. destruct l as [|e [|]]; try discriminate Hn.
    exists e. split; [exact Hl|]. apply Forall_cons in Hb as [[_ [Ha _]] _]. exact Ha.
Defined.
End HttpDemo.
